(* ===== verification/_CoqProject ===== *)
-Q . S2P
Prelude.v
Bytes.v
ReaderAt.v
Chunks.v
BlockMap.v
Vdi.v
Parallels.v
L2Cache.v
QedDisk.v
QcowDisk.v
Vmdk.v
Xpress.v
Bitmap.v
SuperLp.v
Text.v
LvmScan.v
Lvm.v
GoTime.v
FatBoot.v
FatTable.v
Storage.v
FatChain.v
FatData.v
FatDirent.v
FatDir.v
FatFs.v
FatFile.v
FatVolume.v
FatFormat.v
Fat32Fs.v
Fat32Format.v
PartIO.v
Mbr.v
Crc32.v
Utf16.v
Guid.v
Gpt.v
GptFormat.v
GptDisk.v
GptWrite.v
GptTable.v
Disk.v
NtfsRuns.v
Ntfs.v
NtfsFile.v
NtfsAlloc.v
NtfsAttr.v
NtfsIndex.v
NtfsBlock.v
NtfsDir.v
