(* ===== verification/Prelude.v ===== *)
(** * udf: a verification development

    udf reads and writes disk images, file systems and archives. This development models
    the parts listed below as pure Rocq functions, close to the Go source line by line,
    and proves what makes them correct. File names are those under src/.

    ** How Go is modelled

    - An integer is a [Z]; where the source can leave the range of its type the result is
      wrapped ([u8] .. [u64], [i64]); [int] has 64 bits.
    - A byte slice is a [list Z]. Indexing, slicing and storing are [index], [slice] and
      [store], which panic as Go does ([Panic]). The capacity of a slice is its length,
      except where [append] made it or where a part of it is sliced past its length: there
      the room behind the length is a parameter ([spare] in FatFs and NtfsIndex).
    - A function that can fail has a result in [go A]: a value, an error, a panic, or
      [OutOfFuel]. An error value keeps its format string, not the formatted arguments.
      A call that returns a result next to an error returns both ([rres], pairs).
    - A loop is a [Fixpoint] on what it runs over, [go_range], or [go_for] with fuel. Fuel
      is never part of a claim: a theorem says how much is enough and that the result is
      then a value, or, for the one loop of the source that has no bound
      ([getClusterList]), that on a cyclic table no fuel is enough.
    - A mutable object is a record that the operation takes and returns. Where several
      pointers reach one object the model says which: the LRU list and its map share
      elements (L2Cache), an open file shares its entry with its directory (FatFile).
    - Standard library behaviour that is used is modelled ([os.File] reads, [sort.Search],
      UTF-8, package path, the calendar of package time, bytes.Index, strings.TrimSpace and
      FieldsFunc, strconv.ParseInt). Third-party code is a parameter
      or a class: zlib (QcowDisk), the asciiset package ([AsciiSet]), the case tables of
      package unicode ([UnicodeTables]), with the documented behaviour that is used as
      named hypotheses ([AsciiSetLaws]).

    ** Parts

    Foundations: Prelude (this file: integers, the [go] type and its rule [wp], loops,
    slices), Bytes (byte order, patches of buffers), ReaderAt (the [io.ReaderAt] contract:
    [ReaderShape], [ReaderContract] and [Device], with files as an instance), Text (UTF-8,
    padding, package path), GoTime (dates and the packed FAT timestamps of
    fat12/directoryentry.go).

    Disk images, read through [ReaderAt]:
    - Chunks, BlockMap: the loop that vdi, parallels, qed and qcow share, which splits a
      read at block boundaries, and the specification of a mapped disk.
    - Vdi (vdi/vdi.go), Parallels (parallels/parallels.go): header checks of [Open], the
      block map, [ReadAt].
    - L2Cache (the LRU of qed/qed.go and qcow/qcow.go), QedDisk (qed/qed.go), QcowDisk
      (qcow/qcow.go): two-level tables, the cache of second-level tables with its mutex,
      compressed clusters.
    - Vmdk (vmdk/vmdk.go): the grain directory and tables of sparse extents, and reading
      stored and compressed grains through the buffers of one call.
    - LvmScan, Lvm (lvm2/lvm2.go): the scanner and the recursive-descent parser of LVM2
      metadata, the newest of the descriptions in a metadata area, and the extents of its
      volumes.
    - Xpress (wim/xpress/xpress.go): the decoder of XPRESS chunks, with its canonical
      prefix code.
    - SuperLp (superlp/superlp.go): geometry and metadata of Android's super partition, and
      reading a logical partition through its extents.

    Storage and bit maps:
    - Storage (diskkit/backend): the interface the file systems write through as a class,
      the laws of a device as a class ([WritableDevice]), and the window on a partition
      (substorage.go) as an instance that keeps the laws.
    - Bitmap (diskkit/util/bitmap/bitmap.go).

    The FAT file systems (diskkit/filesystem/fat12, fat16, fat32):
    - FatBoot: BIOS parameter blocks, boot sectors of both kinds, the FAT32 information
      sector.
    - FatTable: the three allocation tables behind the interface [FATTable], with the laws
      ([FATLaws]) that the cluster code relies on and the instances that discharge them.
    - FatChain (fat12.go): [FileSystem], [getClusterList], [allocateSpace], [WriteFat].
    - FatData: where the bytes of a chain lie on the device; the specification the reads
      and writes of chains are proved against.
    - FatDirent, FatDir (directoryentry.go, directory.go, util.go): the 8.3 entries, long
      names, short name generation, rename and removal.
    - FatFs (fat12.go): directories on disk, walking and making paths, and the operations
      on paths.
    - FatFile (file.go, and OpenFile, ReadFile of fat12.go): open files.
    - FatVolume (Create and Read of fat12.go and fat16/fat16.go): the layout of a volume,
      making one and opening one; FatFormat: the effect of every step of [Create] on the
      device, and the theorems on [Create] and [Read].
    - Fat32Fs, Fat32Format: the same for fat32/fat32.go, whose boot sector and information
      sector are written by hooks of the inherited operations.

    NTFS (ntfs/), whose volumes are read-only; the operations that prepare changes are
    modelled, the calls that put them together and end in a refused write are not:
    - NtfsRuns (read.go): the compact encoding of run lists, both ways.
    - Ntfs (open.go, read.go): opening a volume, the update sequence arrays, the records of
      the MFT with their cache, attributes and their values.
    - NtfsFile (read.go, meta.go): file information, open files.
    - NtfsAlloc (alloc.go): clusters and records in the bit maps.
    - NtfsAttr (write.go): building records, adding and removing attributes.
    - NtfsIndex, NtfsBlock (alloc.go, read.go): the entries of a directory index, and its
      blocks.
    - NtfsDir (read.go, meta.go): listing directories, paths, symbolic links; a call takes
      the volume and returns it with its cache, next to the result or the error.

    Partition tables (diskkit/partition):
    - PartIO: the loops that copy a stream into a partition and a partition out, over a
      model of [io.Reader].
    - Mbr (mbr/table.go, mbr/partition.go): the table in the boot record, partitions.
    - Crc32, Utf16: what the tables use of the standard library (hash/crc32,
      unicode/utf16). Guid (gpt/common.go): the byte order of identifiers, over the package
      google/uuid as a class ([UUIDs], with its laws in [UUIDLaws]).
    - Gpt (gpt/table.go, gpt/partition.go): entries, headers, the protective MBR, [Write] as
      its sequence of device writes, [Read] with the fall back to the backup, [Verify],
      [Repair], [Resize].
    - GptFormat, GptDisk, GptWrite, GptTable: parsing what was serialised, what [Write] puts
      on the disk, the theorems on writing and interrupted writing, the theorems on
      reading, making and repairing tables.
    - Disk (diskkit/disk/disk.go, partition/partition.go): a disk with either table,
      partitions by number, their contents, and the extent that a file system is given.

    ** What the theorems show

    - Images: [ReadAt] never panics and always ends, whatever the file below returns
      (.._read_safe), and over a complete image it is a device whose content is the mapped
      one (.._read_refines), through the cache as without it (l2_cache_transparent), and
      for any interleaving of the critical sections of concurrent readers
      (l2_concurrent_reads).
    - Super partition: the slot [Open] takes, extents (super_..).
    - Tables: each table survives being written and read (fat_tables_roundtrip); growing and
      shrinking a chain gives a well-formed chain and leaves every other chain and entry
      alone (fat_allocate_grow, fat_allocate_shrink); both copies reach the disk
      (fat_write_copies); following a chain ends, unless the table is cyclic
      (fat_cluster_list).
    - Directories: entries survive serialisation (fat_directory_roundtrip) and the disk
      (fat_directory_on_disk); short names (fat_unique_short_name), rename (fat_rename).
    - Files: [Read] delivers the bytes of the chain (fat_file_read, with the one case where
      the code delivers more than the file holds), reading a file whole ends with its
      content (fat_read_all), what is written is read back and nothing else changes
      (fat_write_then_read), a refused write changes nothing (fat_write_refused), the disk
      ranges cover the chain (fat_disk_ranges).
    - Volumes: [Read] opens what [Create] made, with a fresh table and the label in the root
      (fat_create_then_read, fat32_create_then_read); the regions of the layout neither overlap nor leave the volume
      (fat_layout_bounds, fat32_layout_bounds); an image that opens satisfies the invariant that the other
      theorems ask for (fat_read_invariant).
    - Boot sectors and timestamps survive parsing and serialising (.._rewrite,
      fat_time_roundtrip); comparing boot sectors decides equality, but for a nil pointer to
      a DOS 2.0 block, which is unequal to everything (boot_sector_equal).
    - Partitions: a [SubStorage] is its window of the disk (sub_window).
    - Sparse extents: opening an image gives the disk its tables describe, and reading it
      gives the bytes of its grains (vmdk_open_then_read).
    - LVM: parsing ends on any text (lvm_parse_total) and gives back what was printed
      (lvm_parse_printed); opening takes the newest description of the group
      (lvm_open_newest); a volume's extents are its segments in the order of the text
      (lvm_volume_extents).
    - NTFS: run lists are read back (ntfs_runlist_roundtrip), and records under their update
      sequence array (ntfs_usa_roundtrip); an attribute that is added is found with its
      value, the others are found as before, and removing it undoes it (ntfs_attr_added);
      reading a file in pieces of any size ends with the value of its data
      (ntfs_read_to_end); allocating gives free clusters, freeing undoes it
      (ntfs_alloc_clusters); inserting into and deleting from a directory index change its
      listing by one name (ntfs_index_edit), and the entries put into a block are read back
      from the disk (ntfs_index_block, ntfs_index_block_add); paths lead where the listings
      of the directories lead, whatever is in the cache, and the records on the way are in
      the cache afterwards (ntfs_lookup, ntfs_path_reads); at most 40 links are followed
      (ntfs_symlinks), and their targets are read back (ntfs_reparse_roundtrip).
    - XPRESS: the decoder gives back the bytes of any encoding of literals and matches
      (xpress_roundtrip), and on any input returns bytes of the length asked for or an
      error (xpress_safe).
    - GPT and MBR: a written table is read back (gpt_write_then_read, mbr_write_then_read),
      an unchanged record is written as it was (mbr_rewrite); when writing is interrupted,
      even within a sector, the disk reads as the old or as the new table
      (gpt_write_crash_safe); a damaged primary table is read from its backup
      (gpt_backup_recovers); new tables fit the disk (gpt_init_layout); a repaired table
      verifies (gpt_repair_then_verify).
    - Disks: a partition gives back what was written to it (disk_partition_contents), and
      a file system on one partition leaves every other untouched
      (disk_filesystem_isolated).
    - Bit maps: updates and searches (bitmap_..).

    Lemmas named as observations are evaluations on concrete inputs that show a
    behaviour the code does not mean to have.

    ** Bounds

    Hypotheses bound sizes where Go's integers would wrap: offsets and device sizes below
    2^63, clusters up to 2^48 bytes (what [make] can allocate), file sizes below 2^32 (the
    field's width), indexes of a directory below 2^31 and index blocks up to 119808 bytes
    (whose update sequence array ends in the first sector). [getClusterList] is given more rounds than the table has clusters;
    [read_all] more rounds than the file has bytes.

    ** Not modelled

    ext4, squashfs, iso9660, EROFS, UDF, WIM images, LZX and LZMS, gzip and zstd random
    access, VMA, OVA, layers, the archive formats, the image facade and the command line.
    Of the NTFS code, the calls that write: on a volume of this package they all end in
    partWrite, which refuses. Of the FAT code, what is left out is formatting of error messages, [String]
    methods, and the [Sys] and [Mode] of file information. Of the partition code: nil
    pointers in a list of partitions, the calls that make the kernel read a table again,
    and the choice of the file system in CreateFilesystem and GetFilesystem (its extent
    is modelled). Random identifiers are arguments of the operations that draw them. *)

From stdpp Require Export base list gmap strings.
From Stdlib Require Export ZArith Lia.
From Stdlib Require Import Btauto.

#[export] Set Default Goal Selector "!".
Open Scope Z_scope.

(** ** Machine integers

    A Go integer of width [w] is a [Z]; every operation of the source that can
    leave the type's range is followed by the wrap of its type. [int] is 64 bits
    wide. *)

Definition wrap_u (w z : Z) : Z := z mod 2 ^ w.
Definition wrap_s (w z : Z) : Z := (z + 2 ^ (w - 1)) mod 2 ^ w - 2 ^ (w - 1).

Abbreviation u8 := (wrap_u 8).
Abbreviation u16 := (wrap_u 16).
Abbreviation u32 := (wrap_u 32).
Abbreviation u64 := (wrap_u 64).
Abbreviation i64 := (wrap_s 64).

Lemma wrap_u_id w z : 0 <= z < 2 ^ w -> wrap_u w z = z.
Proof. apply Z.mod_small. Qed.

Lemma wrap_u_range w z : 0 <= w -> 0 <= wrap_u w z < 2 ^ w.
Proof. intros; apply Z.mod_pos_bound; lia. Qed.

Lemma i64_id z : - 2 ^ 63 <= z < 2 ^ 63 -> i64 z = z.
Proof. intros; unfold wrap_s; rewrite Z.mod_small; lia. Qed.

Lemma i64_range z : - 2 ^ 63 <= i64 z < 2 ^ 63.
Proof.
  unfold wrap_s. pose proof (Z.mod_pos_bound (z + 2 ^ (64 - 1)) (2 ^ 64)). lia.
Qed.

(** An inner wrap is absorbed by an outer one. *)
Lemma i64_eqm z : exists k, i64 z = z + k * 2 ^ 64.
Proof.
  unfold wrap_s. exists (- ((z + 2 ^ 63) / 2 ^ 64)).
  pose proof (Z.div_mod (z + 2 ^ 63) (2 ^ 64)). replace (64 - 1) with 63 by lia. lia.
Qed.
Lemma i64_plus_mult z k : i64 (z + k * 2 ^ 64) = i64 z.
Proof.
  unfold wrap_s. replace (z + k * 2 ^ 64 + 2 ^ (64 - 1)) with (z + 2 ^ (64 - 1) + k * 2 ^ 64) by lia.
  by rewrite Z_mod_plus_full.
Qed.
Lemma i64_add_l a b : i64 (i64 a + b) = i64 (a + b).
Proof. destruct (i64_eqm a) as [k ->]. rewrite <-(i64_plus_mult (a + b) k). f_equal. lia. Qed.
Lemma i64_add_r a b : i64 (a + i64 b) = i64 (a + b).
Proof. by rewrite Z.add_comm, i64_add_l, Z.add_comm. Qed.
Lemma i64_mul_l a b : i64 (i64 a * b) = i64 (a * b).
Proof. destruct (i64_eqm a) as [k ->]. rewrite <-(i64_plus_mult (a * b) (k * b)). f_equal. lia. Qed.
Lemma i64_mul_r a b : i64 (a * i64 b) = i64 (a * b).
Proof. by rewrite Z.mul_comm, i64_mul_l, Z.mul_comm. Qed.
Lemma i64_i64 a : i64 (i64 a) = i64 a.
Proof. apply i64_id, i64_range. Qed.

Lemma i64_mul_add a b c : i64 (i64 a * b + c) = i64 (a * b + c).
Proof. by rewrite <-i64_add_l, i64_mul_l, i64_add_l. Qed.

Lemma i64_add_mul_add a b c d : i64 ((i64 a + b) * c + d) = i64 ((a + b) * c + d).
Proof. by rewrite <-i64_mul_add, i64_add_l, i64_mul_add. Qed.

Create Rewrite HintDb i64.
#[export] Hint Rewrite i64_add_mul_add i64_mul_add i64_add_l i64_add_r i64_mul_l i64_mul_r i64_i64 : i64.

Lemma wrap_u_mod_id w z : 0 <= w -> wrap_u w (wrap_u w z) = wrap_u w z.
Proof. intros; apply wrap_u_id, wrap_u_range; lia. Qed.

(** [wraps] removes every [i64] and unsigned wrap whose argument is provably in
    range. *)
Ltac wraps :=
  repeat match goal with
  | |- context [wrap_s 64 ?z] => rewrite (i64_id z) by lia
  | |- context [wrap_u ?w ?z] => rewrite (wrap_u_id w z) by lia
  end.
Ltac wraps_in H :=
  repeat match type of H with
  | context [wrap_s 64 ?z] => rewrite (i64_id z) in H by lia
  | context [wrap_u ?w ?z] => rewrite (wrap_u_id w z) in H by lia
  end.

(** Go's shifts: a count of the width or more gives zero. *)
Definition shl64 (x n : Z) : Z := u64 (Z.shiftl x n).
Definition shl64s (x n : Z) : Z := i64 (Z.shiftl x n).

(** [clear_bit] of the source: Go's [&^]. *)
Definition and_not (x y : Z) : Z := Z.land x (Z.lnot y).

Definition is_byte (b : Z) : Prop := 0 <= b < 256.
#[global] Instance is_byte_dec b : Decision (is_byte b).
Proof. unfold is_byte. apply _. Defined.

(** ** Errors, panics and the outcome of a Go call

    [Errorf] is [errors.New] and [fmt.Errorf] with their format string (the
    arguments are dropped); [Wrapf] is [fmt.Errorf] with a [%w] verb, so that the
    result is a new error and no longer compares equal to [io.EOF]. *)

Inductive error :=
  | EOF
  | ErrUnexpectedEOF
  | Errorf (format : string)
  | Wrapf (format : string) (err : error).

#[global] Instance error_eq_dec : EqDecision error.
Proof. solve_decision. Defined.

Inductive panic :=
  | IndexOutOfRange
  | SliceOutOfRange
  | DivideByZero
  | NegativeShift
  | MakeLenOutOfRange
  | NilDereference.

#[global] Instance panic_eq_dec : EqDecision panic.
Proof. solve_decision. Defined.

(** The outcome of a call: its result, the error it returned with a nil result, a
    run-time panic, or the fuel of one of the model's loops being spent (every
    theorem about a loop excludes the last). *)
Inductive go (A : Type) :=
  | Ret (a : A)
  | Err (e : error)
  | Panic (p : panic)
  | OutOfFuel.
Arguments Ret {A} a.
Arguments Err {A} e.
Arguments Panic {A} p.
Arguments OutOfFuel {A}.

#[global] Instance go_ret : MRet go := @Ret.
#[global] Instance go_bind : MBind go := fun A B f m =>
  match m with
  | Ret a => f a
  | Err e => Err e
  | Panic p => Panic p
  | OutOfFuel => OutOfFuel
  end.
#[global] Instance go_fmap : FMap go := fun A B f m => m ≫= (fun a => mret (f a)).

Declare Scope go_scope.
Delimit Scope go_scope with go.
Open Scope go_scope.

(** [wp m P E]: the call [m] neither panics nor runs out of fuel, a result it
    returns satisfies [P] and an error it returns satisfies [E]. *)
Definition wp {A} (m : go A) (P : A -> Prop) (E : error -> Prop) : Prop :=
  match m with
  | Ret a => P a
  | Err e => E e
  | Panic _ | OutOfFuel => False
  end.

(** No error is returned with a nil result. *)
Definition no_err (e : error) : Prop := False.

Lemma wp_ret {A} (a : A) (P : A -> Prop) E : P a -> wp (mret a) P E.
Proof. done. Qed.

Lemma wp_bind {A B} (f : A -> go B) (m : go A) P E :
  wp m (fun a => wp (f a) P E) E -> wp (m ≫= f) P E.
Proof. by destruct m. Qed.

Lemma wp_mono {A} (m : go A) (P Q : A -> Prop) (E F : error -> Prop) :
  wp m P E -> (forall a, P a -> Q a) -> (forall e, E e -> F e) -> wp m Q F.
Proof. destruct m; simpl; auto. Qed.

Lemma wp_and {A} (m : go A) (P Q : A -> Prop) (E F : error -> Prop) :
  wp m P E -> wp m Q F -> wp m (fun a => P a /\ Q a) (fun e => E e /\ F e).
Proof. destruct m; simpl; auto. Qed.

Lemma wp_eqn {A} (m : go A) P E : wp m P E -> wp m (fun a => m = Ret a /\ P a) E.
Proof. by destruct m. Qed.

Lemma wp_Ret {A} (m : go A) P E a : wp m P E -> m = Ret a -> P a.
Proof. by intros H ->. Qed.

Lemma wp_no_err_Ret {A} (m : go A) P : wp m P no_err -> exists a, m = Ret a /\ P a.
Proof. destruct m; simpl; try done. eauto. Qed.

#[global] Instance wp_proper {A} (m : go A) :
  Proper (pointwise_relation A impl ==> pointwise_relation error impl ==> impl) (wp m).
Proof. intros P Q HPQ E F HEF Hm. eapply wp_mono; eauto. Qed.

Create HintDb go_wp discriminated.
#[export] Hint Resolve wp_ret : go_wp.

(** [destruct_if] splits on the test of an [if] of the goal, turning the boolean
    comparison into its proposition. *)
Ltac destruct_test b :=
  lazymatch b with
  | (?x <? ?y) => destruct (Z.ltb_spec x y) as [?Hlt|?Hge]
  | (?x <=? ?y) => destruct (Z.leb_spec x y) as [?Hle|?Hgt]
  | (?x =? ?y) => destruct (Z.eqb_spec x y) as [?Heq|?Hne]
  | negb ?b' => destruct_test b'; cbn [negb]
  | andb ?b1 ?b2 => destruct_test b1; cbn [andb]
  | orb ?b1 ?b2 => destruct_test b1; cbn [orb]
  | _ => let E := fresh "Htest" in destruct b eqn:E
  end.
Ltac destruct_if :=
  match goal with
  | |- context [if ?b then _ else _] => destruct_test b
  end.

(** Go's [/] and [%] on 64-bit integers truncate towards zero and panic on a zero
    divisor. *)
Definition div64 (a b : Z) : go Z :=
  if b =? 0 then Panic DivideByZero else Ret (i64 (Z.quot a b)).
Definition rem64 (a b : Z) : go Z :=
  if b =? 0 then Panic DivideByZero else Ret (Z.rem a b).

Lemma div64_ok a b : 0 <= a < 2 ^ 63 -> 0 < b -> div64 a b = Ret (a / b).
Proof.
  intros. unfold div64. destruct_if; [lia|]. rewrite Z.quot_div_nonneg by lia.
  rewrite i64_id; [done|]. pose proof (Z.div_pos a b). pose proof (Z.div_le_upper_bound a b a). nia.
Qed.
Lemma rem64_ok a b : 0 <= a -> 0 < b -> rem64 a b = Ret (a mod b).
Proof. intros. unfold rem64. destruct_if; [lia|]. by rewrite Z.rem_mod_nonneg by lia. Qed.

(** Moving inside a block changes the remainder only. *)
Lemma Z_div_mod_add a i b :
  0 < b -> 0 <= i -> a mod b + i < b -> (a + i) / b = a / b /\ (a + i) mod b = a mod b + i.
Proof.
  intros. pose proof (Z.mod_pos_bound a b). pose proof (Z.div_mod a b).
  assert (a + i = b * (a / b) + (a mod b + i)) as Ha by lia.
  split; symmetry; [eapply Z.div_unique|eapply Z.mod_unique]; try apply Ha; left; lia.
Qed.

(** ** Loops

    [go_for fuel body s] is a [for] loop whose body either goes round again with
    a new state ([inl]) or leaves the loop ([inr]). *)

Fixpoint go_for {S R} (fuel : nat) (body : S -> go (S + R)) (s : S) : go R :=
  match fuel with
  | O => OutOfFuel
  | Datatypes.S fuel' =>
      r ← body s;
      match r with
      | inl s' => go_for fuel' body s'
      | inr v => mret v
      end
  end.

(** The rule for loops: an invariant [I] and a measure [m] that decreases on every
    round give termination and the postcondition together. *)
Lemma wp_for {S R} (I : S -> Prop) (m : S -> nat) (body : S -> go (S + R)) P E fuel s :
  (forall s, I s ->
     wp (body s) (fun r => match r with
                           | inl s' => I s' /\ (m s' < m s)%nat
                           | inr v => P v
                           end) E) ->
  I s -> (m s < fuel)%nat -> wp (go_for fuel body s) P E.
Proof.
  intros Hbody. revert s. induction fuel as [|fuel IH]; intros s Hs Hm; [lia|].
  simpl. apply wp_bind. eapply wp_mono; [by apply Hbody| |done].
  intros [s'|v] Hr; [|done]. apply IH; [tauto|lia].
Qed.

(** The invariant of a counting loop [for j := lo; j < lo+n; j++]. *)
Lemma foldl_seqZ {St} (I : Z -> St -> Prop) (f : St -> Z -> St) s lo n :
  0 <= n -> I lo s -> (forall j s, lo <= j < lo + n -> I j s -> I (j + 1) (f s j)) ->
  I (lo + n) (foldl f s (seqZ lo n)).
Proof.
  intros Hn Hs. destruct (Z_of_nat_complete n Hn) as [k ->]. clear Hn. induction k as [|k IH]; intros Hf.
  - by rewrite Z.add_0_r.
  - rewrite seqZ_S, foldl_app. replace (lo + Z.of_nat (S k)) with (lo + Z.of_nat k + 1) by lia.
    apply Hf; [lia|]. apply IH. intros j s' Hj. apply Hf. lia.
Qed.

(** [sort.Search]: the binary search of the standard library. *)
Definition sort_search (n : Z) (f : Z -> go bool) : go Z :=
  go_for (S (Z.to_nat n)) (fun '(i, j) =>
    if i <? j then
      let h := Z.shiftr (u64 (i + j)) 1 in
      b ← f h;
      mret (inl (if b : bool then (i, h) else (h + 1, j)))
    else mret (inr i)) (0, n).

(** Whatever [f] is, the result is a place where it turns from false to true. *)
Lemma wp_sort_search n f (Q : Z -> bool -> Prop) P E :
  0 <= n < 2 ^ 62 ->
  (forall h, 0 <= h < n -> wp (f h) (Q h) no_err) ->
  (forall r, 0 <= r <= n -> (0 < r -> Q (r - 1) false) -> (r < n -> Q r true) -> P r) ->
  wp (sort_search n f) P E.
Proof.
  intros Hn Hf HP. unfold sort_search.
  apply (wp_for (fun '(i, j) => 0 <= i <= j /\ j <= n /\ (0 < i -> Q (i - 1) false) /\ (j < n -> Q j true))
    (fun '(i, j) => Z.to_nat (j - i))); [|cbn; split_and!; lia|lia].
  intros [i j] (Hi & Hj & Hl & Hr). destruct_if; [|cbn; assert (i = j) as -> by lia; apply HP; done || lia].
  rewrite wrap_u_id, Z.shiftr_div_pow2 by lia. change (2 ^ 1) with 2.
  pose proof (Z.div_mod (i + j) 2). pose proof (Z.mod_pos_bound (i + j) 2).
  apply wp_bind. eapply wp_mono; [apply Hf; lia| |done].
  intros [] HQ; cbn; split_and!; try lia; try done.
  intros _. by replace (_ + 1 - 1) with ((i + j) / 2) by lia.
Qed.

(** [for i, a := range l]: [i] numbers the elements. *)
Fixpoint range_loop {A St} (f : Z -> A -> St -> St) (i : Z) (l : list A) (s : St) : St :=
  match l with
  | [] => s
  | a :: l' => range_loop f (i + 1) l' (f i a s)
  end.

Lemma range_loop_inv {A St} (I : Z -> St -> Prop) (f : Z -> A -> St -> St) l s lo :
  0 <= lo -> I lo s ->
  (forall i a s, l !! Z.to_nat (i - lo) = Some a -> lo <= i -> I i s -> I (i + 1) (f i a s)) ->
  I (lo + Z.of_nat (length l)) (range_loop f lo l s).
Proof.
  revert lo s. induction l as [|a l IH]; intros lo s Hlo Hs Hf; cbn [range_loop length].
  - by rewrite Z.add_0_r.
  - replace (lo + Z.of_nat (S (length l))) with (lo + 1 + Z.of_nat (length l)) by lia.
    apply IH; [lia|apply Hf; [by rewrite Z.sub_diag|lia|done]|].
    intros i b s' Hb Hi. apply Hf; [|lia].
    by replace (Z.to_nat (i - lo)) with (S (Z.to_nat (i - (lo + 1)))) by lia.
Qed.

(** [for i := lo; i < lo + n; i++ { body }], where the body can fail. *)
Fixpoint go_range {St} (body : Z -> St -> go St) (lo : Z) (n : nat) (s : St) : go St :=
  match n with
  | O => mret s
  | S n' => s' ← body lo s; go_range body (lo + 1) n' s'
  end.

Lemma wp_go_range {St} (I : Z -> St -> Prop) (body : Z -> St -> go St) E n : forall lo s,
  I lo s -> (forall i s, lo <= i < lo + Z.of_nat n -> I i s -> wp (body i s) (I (i + 1)) E) ->
  wp (go_range body lo n s) (I (lo + Z.of_nat n)) E.
Proof.
  induction n as [|n IH]; intros lo s Hs Hb; cbn [go_range]; [cbn; by rewrite Z.add_0_r|].
  apply wp_bind. eapply wp_mono; [apply Hb; [lia|done]| |done]. intros s' Hs'.
  replace (lo + Z.of_nat (S n)) with (lo + 1 + Z.of_nat n) by lia.
  apply IH; [done|]. intros i t Hi. apply Hb. lia.
Qed.

(** ** Slices

    A slice is a list; its capacity is its length. Offsets are [Z], as in the
    source. *)

Section slices.
Context {A : Type}.
Implicit Types l : list A.

Definition len l : Z := Z.of_nat (length l).

(** [l[lo:hi]] with no check. *)
Definition sub l (lo hi : Z) : list A := take (Z.to_nat (hi - lo)) (drop (Z.to_nat lo) l).

(** [l[lo:]] with no check. *)
Definition from l (lo : Z) : list A := drop (Z.to_nat lo) l.

(** [l[i]], [l[lo:hi]] and [l[i] = x] with Go's run-time checks. *)
Definition index l (i : Z) : go A :=
  if (i <? 0) then Panic IndexOutOfRange
  else match l !! Z.to_nat i with
       | Some a => Ret a
       | None => Panic IndexOutOfRange
       end.

Definition slice l (lo hi : Z) : go (list A) :=
  if (0 <=? lo) && (lo <=? hi) && (hi <=? len l) then Ret (sub l lo hi)
  else Panic SliceOutOfRange.

Definition store l (i : Z) (x : A) : go (list A) :=
  if (0 <=? i) && (i <? len l) then Ret (<[Z.to_nat i := x]> l)
  else Panic IndexOutOfRange.

Lemma len_nonneg l : 0 <= len l.
Proof. unfold len; lia. Qed.
Lemma len_nil : len (@nil A) = 0.
Proof. done. Qed.
Lemma len_cons a l : len (a :: l) = 1 + len l.
Proof. unfold len; cbn [length]; lia. Qed.
Lemma len_app l k : len (l ++ k) = len l + len k.
Proof. unfold len. rewrite length_app. lia. Qed.
Lemma len_zero l : len l = 0 -> l = [].
Proof. unfold len; destruct l; cbn; [done|lia]. Qed.
Lemma len_from l lo : 0 <= lo <= len l -> len (from l lo) = len l - lo.
Proof. unfold len, from; intros; rewrite length_drop; lia. Qed.
Lemma len_sub l lo hi : 0 <= lo <= hi -> hi <= len l -> len (sub l lo hi) = hi - lo.
Proof. unfold len, sub; intros; rewrite length_take, length_drop; lia. Qed.
Lemma len_insert l i x : len (<[i:=x]> l) = len l.
Proof. unfold len. by rewrite length_insert. Qed.
Lemma len_replicate n (x : A) : len (replicate n x) = Z.of_nat n.
Proof. unfold len. by rewrite length_replicate. Qed.
Lemma length_len l : length l = Z.to_nat (len l).
Proof. unfold len; lia. Qed.

Lemma sub_full l : sub l 0 (len l) = l.
Proof. unfold sub, len. rewrite Z.sub_0_r, Nat2Z.id. by apply take_ge. Qed.
Lemma sub_from l lo : sub l lo (len l) = from l lo \/ lo < 0.
Proof.
  destruct (Z.ltb_spec lo 0); [by right|left].
  unfold sub, from, len. apply take_ge. rewrite length_drop. lia.
Qed.
Lemma from_0 l : from l 0 = l.
Proof. done. Qed.
Lemma sub_app_from l n : 0 <= n -> sub l 0 n ++ from l n = l.
Proof. unfold sub, from; intros. rewrite Z.sub_0_r. cbn [Z.to_nat drop]. apply take_drop. Qed.
Lemma sub_app_l l k n : n = len l -> sub (l ++ k) 0 n = l.
Proof. intros ->. unfold sub, len. rewrite Z.sub_0_r, Nat2Z.id. apply take_app_length. Qed.
Lemma from_app_r l k n : n = len l -> from (l ++ k) n = k.
Proof. intros ->. unfold from, len. by rewrite Nat2Z.id, drop_app_length. Qed.
Lemma from_from l a b : 0 <= a -> 0 <= b -> from (from l a) b = from l (a + b).
Proof. intros. unfold from. rewrite drop_drop. f_equal. lia. Qed.

Lemma lookup_sub l lo hi i :
  0 <= lo <= hi -> (i < Z.to_nat (hi - lo))%nat -> sub l lo hi !! i = l !! (Z.to_nat lo + i)%nat.
Proof. intros. unfold sub. rewrite lookup_take, lookup_drop. by rewrite decide_True by lia. Qed.

Lemma index_ok l i : 0 <= i < len l -> exists a, l !! Z.to_nat i = Some a /\ index l i = Ret a.
Proof.
  intros Hi. unfold len in Hi.
  destruct (lookup_lt_is_Some_2 l (Z.to_nat i)) as [a Ha]; [lia|].
  exists a. unfold index. rewrite Ha. destruct (Z.ltb_spec i 0); [lia|done].
Qed.
Lemma slice_ok l lo hi : 0 <= lo <= hi -> hi <= len l -> slice l lo hi = Ret (sub l lo hi).
Proof.
  intros. unfold slice.
  destruct (Z.leb_spec 0 lo), (Z.leb_spec lo hi), (Z.leb_spec hi (len l)); done || lia.
Qed.
Lemma store_ok l i x : 0 <= i < len l -> store l i x = Ret (<[Z.to_nat i := x]> l).
Proof. intros. unfold store. destruct (Z.leb_spec 0 i), (Z.ltb_spec i (len l)); done || lia. Qed.

Lemma wp_index l i P E :
  0 <= i < len l -> (forall a, l !! Z.to_nat i = Some a -> P a) -> wp (index l i) P E.
Proof. intros Hi HP. destruct (index_ok l i Hi) as (a & Ha & ->). simpl. auto. Qed.
Lemma wp_slice l lo hi (P : list A -> Prop) E :
  0 <= lo <= hi -> hi <= len l -> P (sub l lo hi) -> wp (slice l lo hi) P E.
Proof. intros. by rewrite slice_ok. Qed.
End slices.

Lemma filter_all {A} (P : A -> Prop) `{!forall x, Decision (P x)} (l : list A) :
  Forall P l -> filter P l = l.
Proof.
  induction 1 as [|x l Hx Hl IH]; [done|]. rewrite filter_cons.
  by rewrite decide_True, IH by done.
Qed.

Notation "l .[ lo , hi ]" := (sub l lo hi) (at level 1, left associativity, format "l .[ lo ,  hi ]") : go_scope.

Create Rewrite HintDb slices.
#[export] Hint Rewrite @len_app @len_cons @len_insert @len_replicate : slices.
#[export] Hint Rewrite @len_from @len_sub using (autorewrite with slices; lia) : slices.

(** [lens] normalises lengths and closes the arithmetic goal that is left. *)
Ltac len_nils :=
  repeat match goal with
  | |- context [len (@nil ?A)] => change (len (@nil A)) with 0
  | H : context [len (@nil ?A)] |- _ => change (len (@nil A)) with 0 in H
  end.
Ltac lens := autorewrite with slices in *; len_nils; lia.

(** [make([]T, n)] panics when [n] elements of [size] bytes exceed the address
    space (2^48 bytes on the 64-bit platforms Go supports). *)
Definition maxAlloc : Z := 2 ^ 48.
Definition make {A} (zero : A) (size n : Z) : go (list A) :=
  if (n <? 0) || (maxAlloc <? n * size) then Panic MakeLenOutOfRange
  else Ret (replicate (Z.to_nat n) zero).

Lemma make_ok {A} (zero : A) size n : 0 <= n -> n * size <= maxAlloc ->
  make zero size n = Ret (replicate (Z.to_nat n) zero).
Proof. intros. unfold make. do 2 (destruct_if; [lia|]; cbn [orb]). done. Qed.

Lemma make_neg {A} (zero : A) size n : n < 0 -> make zero size n = Panic MakeLenOutOfRange.
Proof. intros Hn. unfold make. by rewrite (proj2 (Z.ltb_lt _ _) Hn). Qed.

(** ** Bits *)

(** [bits.TrailingZeros], of a non-zero argument. *)
Definition trailing_zeros (z : Z) : Z := Z.log2 (Z.land z (- z)).

Lemma pow2_trailing_zeros n : 0 <= n -> trailing_zeros (2 ^ n) = n.
Proof.
  intros Hn. unfold trailing_zeros. replace (Z.land (2 ^ n) (- 2 ^ n)) with (2 ^ n);
    [by apply Z.log2_pow2|].
  apply Z.bits_inj'. intros i Hi. rewrite Z.land_spec.
  replace (- 2 ^ n) with (Z.lnot (Z.ones n)) by (rewrite Z.ones_equiv; unfold Z.lnot; lia).
  rewrite Z.lnot_spec, Z.pow2_bits_eqb, Z.testbit_ones_nonneg by lia.
  destruct (Z.eqb_spec n i) as [->|]; [|done]. by rewrite Z.ltb_irrefl.
Qed.

(** The test [x & (x - 1) == 0] of the source recognises the powers of two. *)
Lemma land_pred_pow2 z : 0 < z -> Z.land z (z - 1) = 0 -> z = 2 ^ Z.log2 z.
Proof.
  intros Hz Hl. pose proof (Z.log2_spec z Hz) as [H1 H2]. rewrite Z.pow_succ_r in H2 by apply Z.log2_nonneg.
  destruct (Z.eq_dec z (2 ^ Z.log2 z)) as [|Hne]; [done|exfalso].
  assert (Z.testbit (Z.land z (z - 1)) (Z.log2 z) = true) as H; [|by rewrite Hl, Z.bits_0 in H].
  rewrite Z.land_spec, Z.bit_log2 by done.
  assert (Z.log2 (z - 1) = Z.log2 z) as <-; [|apply Z.bit_log2; lia].
  apply Z.log2_unique; [apply Z.log2_nonneg|]. rewrite Z.pow_succ_r by apply Z.log2_nonneg. lia.
Qed.

Lemma shiftl_1 n : 0 <= n -> Z.shiftl 1 n = 2 ^ n.
Proof. intros. rewrite Z.shiftl_mul_pow2 by done. lia. Qed.

(** Masking with [2^n - 1] is the remainder. *)
Lemma land_mask z n : 0 <= n -> Z.land z (2 ^ n - 1) = z mod 2 ^ n.
Proof. intros. rewrite <-Z.land_ones, Z.ones_equiv by done. f_equal. Qed.

(** Testing one bit with a mask. *)
Lemma land_bit z n : 0 <= n -> (Z.land z (2 ^ n) =? 0) = negb (Z.testbit z n).
Proof.
  intros Hn. destruct (Z.testbit z n) eqn:E; cbn [negb].
  - apply Z.eqb_neq. intros H. assert (Z.testbit (Z.land z (2 ^ n)) n = true) as Ht.
    { rewrite Z.land_spec, E, Z.pow2_bits_true by done. done. }
    by rewrite H, Z.bits_0 in Ht.
  - apply Z.eqb_eq. apply Z.bits_inj'. intros i Hi.
    rewrite Z.land_spec, Z.bits_0, Z.pow2_bits_eqb by done.
    destruct (Z.eqb_spec n i) as [<-|]; [by rewrite E|by rewrite andb_false_r].
Qed.

(** A [w]-bit unsigned integer has no bit from [w] up. *)
Lemma testbit_high w z i : 0 <= z < 2 ^ w -> w <= i -> Z.testbit z i = false.
Proof.
  intros Hz Hi. destruct (Z.ltb_spec w 0); [rewrite Z.pow_neg_r in Hz; lia|].
  rewrite <-(Z.mod_small z (2 ^ w)) by done. apply Z.mod_pow2_bits_high. lia.
Qed.
Lemma bits_range w z : 0 <= w -> (forall i, w <= i -> Z.testbit z i = false) -> 0 <= z < 2 ^ w.
Proof.
  intros Hw Hz. replace z with (z mod 2 ^ w); [apply Z.mod_pos_bound; lia|].
  apply Z.bits_inj'. intros i Hi. rewrite Z.testbit_mod_pow2 by done.
  destruct (Z.ltb_spec i w); [done|]. by rewrite Hz.
Qed.
Lemma land_range_l w x y : 0 <= w -> 0 <= x < 2 ^ w -> 0 <= Z.land x y < 2 ^ w.
Proof. intros. apply bits_range; [done|]. intros. by rewrite Z.land_spec, (testbit_high w x) by done. Qed.
Lemma lor_range w x y : 0 <= w -> 0 <= x < 2 ^ w -> 0 <= y < 2 ^ w -> 0 <= Z.lor x y < 2 ^ w.
Proof. intros. apply bits_range; [done|]. intros. by rewrite Z.lor_spec, !(testbit_high w) by done. Qed.
Lemma lxor_range w x y : 0 <= w -> 0 <= x < 2 ^ w -> 0 <= y < 2 ^ w -> 0 <= Z.lxor x y < 2 ^ w.
Proof. intros. apply bits_range; [done|]. intros. by rewrite Z.lxor_spec, !(testbit_high w) by done. Qed.
Lemma testbit_wrap_u w z i : 0 <= w -> Z.testbit (wrap_u w z) i = (i <? w) && Z.testbit z i.
Proof. apply Z.testbit_mod_pow2. Qed.

(** A disjunction of fields that do not overlap is their sum. *)
Lemma lor_shiftl_add x y k : 0 <= k -> 0 <= x < 2 ^ k -> Z.lor x (Z.shiftl y k) = x + y * 2 ^ k.
Proof.
  intros Hk Hx. rewrite <-Z.shiftl_mul_pow2 by done.
  assert (Z.land x (Z.shiftl y k) = 0) as Hl.
  { apply Z.bits_inj'. intros i Hi. rewrite Z.land_spec, Z.bits_0, Z.shiftl_spec by done.
    destruct (Z.ltb_spec i k); [rewrite (Z.testbit_neg_r y) by lia; apply andb_false_r|].
    by rewrite (testbit_high k) by done. }
  by rewrite Z.add_nocarry_lxor, Z.lxor_lor by done.
Qed.

Lemma shiftl_shiftr_16 x : Z.shiftl (Z.shiftr x 4) 4 = 16 * (x / 16).
Proof. rewrite Z.shiftl_mul_pow2, Z.shiftr_div_pow2 by lia. change (2 ^ 4) with 16. lia. Qed.

(** A call whose error the caller looks at. *)
Definition catch {A} (m : go A) : go (A + error) :=
  match m with
  | Ret a => Ret (inl a)
  | Err e => Ret (inr e)
  | Panic p => Panic p
  | OutOfFuel => OutOfFuel
  end.

(** [if _, err := f(); err != nil { return nil, g(err) }]. *)
Definition or_else {A} (g : error -> error) (m : go A) : go A := match m with Err e => Err (g e) | r => r end.

(** Inversion of calls that returned. *)
Lemma Ret_inj {A} (a b : A) : Ret a = Ret b -> a = b.
Proof. congruence. Qed.

Lemma bind_Ret {A B} (m : go A) (f : A -> go B) r : (x ← m; f x) = Ret r -> exists a, m = Ret a /\ f a = Ret r.
Proof. destruct m; cbn; intros H; eauto; done. Qed.

Lemma bind_catch_ret {A B} (m : go A) (f : A + error -> go B) r : (x ← catch m; f x) = Ret r ->
  (exists a, m = Ret a /\ f (inl a) = Ret r) \/ (exists e, m = Err e /\ f (inr e) = Ret r).
Proof. destruct m; cbn; intros H; eauto; done. Qed.

Lemma or_else_Ret {A} g (m : go A) r : or_else g m = Ret r -> m = Ret r.
Proof. by destruct m. Qed.
