(* ===== verification/Bytes.v ===== *)
(** * Bytes: byte slices and fixed-width integers in them

    The [encoding/binary] readers and writers the disk formats use, as functions
    on lists of bytes, with their round trips. *)

From S2P Require Import Prelude.

(** Every element of the list is a byte. *)
Abbreviation bytes_ok := (Forall is_byte).

Lemma is_byte_0 : is_byte 0.
Proof. unfold is_byte; lia. Qed.
Lemma is_byte_u8 z : is_byte (u8 z).
Proof. pose proof (wrap_u_range 8 z). unfold is_byte; lia. Qed.

Lemma bytes_ok_sub l lo hi : bytes_ok l -> bytes_ok l.[lo, hi].
Proof. intros; unfold sub; auto using Forall_take, Forall_drop. Qed.
Lemma bytes_ok_from l lo : bytes_ok l -> bytes_ok (from l lo).
Proof. intros; unfold from; auto using Forall_drop. Qed.
Lemma bytes_ok_zeros n : bytes_ok (replicate n 0).
Proof. apply Forall_replicate, is_byte_0. Qed.

Create HintDb bytes discriminated.
#[export] Hint Resolve is_byte_0 is_byte_u8 bytes_ok_sub bytes_ok_from bytes_ok_zeros
  Forall_app_2 : bytes.

(** ** Little and big endian *)

Fixpoint LE (l : list Z) : Z :=
  match l with
  | [] => 0
  | b :: l' => b + 256 * LE l'
  end.

Definition BE (l : list Z) : Z := LE (rev l).

(** [binary.LittleEndian.PutUintN]: the low [n] bytes of [v]. *)
Fixpoint put_le (n : nat) (v : Z) : list Z :=
  match n with
  | O => []
  | S n' => v mod 256 :: put_le n' (v / 256)
  end.

Definition put_be (n : nat) (v : Z) : list Z := rev (put_le n v).

(** The reads of a field at a constant offset of a fixed-size header. *)
Definition le16 (b : list Z) (o : Z) : Z := LE b.[o, o + 2].
Definition le32 (b : list Z) (o : Z) : Z := LE b.[o, o + 4].
Definition le64 (b : list Z) (o : Z) : Z := LE b.[o, o + 8].
Definition be16 (b : list Z) (o : Z) : Z := BE b.[o, o + 2].
Definition be32 (b : list Z) (o : Z) : Z := BE b.[o, o + 4].
Definition be64 (b : list Z) (o : Z) : Z := BE b.[o, o + 8].
Definition byte_at (b : list Z) (o : Z) : Z := default 0 (b !! Z.to_nat o).

Lemma LE_range l : bytes_ok l -> 0 <= LE l < 256 ^ len l.
Proof.
  induction 1 as [|b l Hb Hl IH]; [cbn [LE]; change (len (@nil Z)) with 0; lia|].
  rewrite len_cons, Z.pow_add_r, Z.pow_1_r by (pose proof (len_nonneg l); lia).
  cbn [LE]. unfold is_byte in Hb. lia.
Qed.

Lemma length_put_le n v : length (put_le n v) = n.
Proof. revert v; induction n; intros; cbn; auto. Qed.

Lemma put_le_bytes n v : bytes_ok (put_le n v).
Proof.
  revert v; induction n as [|n IH]; intros v; constructor; [|done].
  pose proof (Z.mod_pos_bound v 256). unfold is_byte; lia.
Qed.

Lemma LE_put_le n v : LE (put_le n v) = v mod 256 ^ Z.of_nat n.
Proof.
  revert v; induction n as [|n IH]; intros v; [cbn; by rewrite Z.mod_1_r|].
  cbn [put_le LE]. rewrite IH, Nat2Z.inj_succ, Z.pow_succ_r by lia.
  rewrite Z.rem_mul_r by lia. lia.
Qed.

Lemma put_le_LE l : bytes_ok l -> put_le (length l) (LE l) = l.
Proof.
  induction 1 as [|b l Hb Hl IH]; [done|]. cbn [length put_le LE].
  unfold is_byte in Hb. rewrite (Z.mul_comm 256).
  rewrite Z_mod_plus_full, Z.mod_small, Z.div_add, Z.div_small by lia.
  by rewrite Z.add_0_l, IH.
Qed.

Lemma LE_app l k : LE (l ++ k) = LE l + 256 ^ len l * LE k.
Proof.
  induction l as [|b l IH]; [cbn [app LE]; change (len (@nil Z)) with 0; lia|].
  cbn [app LE]. rewrite IH, len_cons, Z.pow_add_r, Z.pow_1_r by (pose proof (len_nonneg l); lia). lia.
Qed.

Lemma BE_range l : bytes_ok l -> 0 <= BE l < 256 ^ len l.
Proof.
  intros. unfold BE. replace (len l) with (len (rev l)) by (unfold len; by rewrite length_rev).
  apply LE_range. by apply Forall_rev.
Qed.

Lemma sub_len_bound {A} (l : list A) lo hi : 0 <= hi - lo -> 0 <= len l.[lo, hi] <= hi - lo.
Proof. intros. unfold len, sub. rewrite length_take. lia. Qed.

Lemma LE_sub_range b lo n : bytes_ok b -> 0 <= n -> 0 <= LE b.[lo, lo + n] < 256 ^ n.
Proof.
  intros Hb Hn.
  pose proof (LE_range b.[lo, lo + n] (bytes_ok_sub _ _ _ Hb)).
  pose proof (sub_len_bound b lo (lo + n) ltac:(lia)).
  pose proof (Z.pow_le_mono_r 256 (len b.[lo, lo + n]) n ltac:(lia) ltac:(lia)). lia.
Qed.

Lemma BE_sub_range b lo n : bytes_ok b -> 0 <= n -> 0 <= BE b.[lo, lo + n] < 256 ^ n.
Proof.
  intros Hb Hn.
  pose proof (BE_range b.[lo, lo + n] (bytes_ok_sub _ _ _ Hb)).
  pose proof (sub_len_bound b lo (lo + n) ltac:(lia)).
  pose proof (Z.pow_le_mono_r 256 (len b.[lo, lo + n]) n ltac:(lia) ltac:(lia)). lia.
Qed.

Lemma le16_range b o : bytes_ok b -> 0 <= le16 b o < 2 ^ 16.
Proof. intros Hb. pose proof (LE_sub_range b o 2 Hb ltac:(lia)). unfold le16. lia. Qed.
Lemma le32_range b o : bytes_ok b -> 0 <= le32 b o < 2 ^ 32.
Proof. intros Hb. pose proof (LE_sub_range b o 4 Hb ltac:(lia)). unfold le32. lia. Qed.
Lemma le64_range b o : bytes_ok b -> 0 <= le64 b o < 2 ^ 64.
Proof. intros Hb. pose proof (LE_sub_range b o 8 Hb ltac:(lia)). unfold le64. lia. Qed.
Lemma be32_range b o : bytes_ok b -> 0 <= be32 b o < 2 ^ 32.
Proof. intros Hb. pose proof (BE_sub_range b o 4 Hb ltac:(lia)). unfold be32. lia. Qed.
Lemma be64_range b o : bytes_ok b -> 0 <= be64 b o < 2 ^ 64.
Proof. intros Hb. pose proof (BE_sub_range b o 8 Hb ltac:(lia)). unfold be64. lia. Qed.

Lemma byte_at_range b o : bytes_ok b -> is_byte (byte_at b o).
Proof.
  intros Hb. unfold byte_at. destruct (b !! Z.to_nat o) eqn:E; cbn; [|apply is_byte_0].
  eapply Forall_lookup_1 in Hb; eauto.
Qed.

(** A table of [n] little (or big) endian words, as the block maps are parsed. *)
Fixpoint words (read : list Z -> Z) (size : nat) (n : nat) (b : list Z) : list Z :=
  match n with
  | O => []
  | S n' => read (take size b) :: words read size n' (drop size b)
  end.

Lemma length_words read size n b : length (words read size n b) = n.
Proof. revert b; induction n; intros; cbn; auto. Qed.

Lemma lookup_words read size n b i :
  (i < n)%nat -> words read size n b !! i = Some (read (take size (drop (i * size) b))).
Proof.
  revert b i; induction n as [|n IH]; intros b i Hi; [lia|].
  destruct i as [|i]; [done|]. cbn [words lookup list_lookup].
  by rewrite (IH (drop size b)), drop_drop by lia.
Qed.

(** [patch b o x]: [b] with the bytes [x] written at offset [o] (used to write
    sample images). *)
Definition patch (b : list Z) (o : Z) (x : list Z) : list Z := b.[0, o] ++ x ++ from b (o + len x).

Lemma lookup_words_file (read : list Z -> Z) (b : list Z) (n : nat) (i : Z) (size : nat) :
  0 <= i < Z.of_nat n ->
  words read size n b !! Z.to_nat i =
  Some (read b.[i * Z.of_nat size, i * Z.of_nat size + Z.of_nat size]).
Proof.
  intros Hi. rewrite lookup_words by lia. unfold sub. do 4 f_equal; lia.
Qed.

Lemma words_range (read : list Z -> Z) (b : list Z) (size n : nat) (lo hi : Z) :
  (forall l, bytes_ok l -> (length l <= size)%nat -> lo <= read l < hi) ->
  bytes_ok b -> Forall (fun w => lo <= w < hi) (words read size n b).
Proof.
  intros Hr. revert b; induction n as [|n IH]; intros b Hb; constructor.
  - apply Hr; [by apply Forall_take|]. rewrite length_take. lia.
  - apply IH. by apply Forall_drop.
Qed.

Lemma LE_le_range l (n : nat) : bytes_ok l -> (length l <= n)%nat -> 0 <= LE l < 256 ^ Z.of_nat n.
Proof.
  intros Hl Hn. pose proof (LE_range l Hl).
  pose proof (Z.pow_le_mono_r 256 (len l) (Z.of_nat n) ltac:(lia) ltac:(unfold len; lia)). lia.
Qed.

Lemma BE_le_range l (n : nat) : bytes_ok l -> (length l <= n)%nat -> 0 <= BE l < 256 ^ Z.of_nat n.
Proof.
  intros Hl Hn. pose proof (BE_range l Hl).
  pose proof (Z.pow_le_mono_r 256 (len l) (Z.of_nat n) ltac:(lia) ltac:(unfold len; lia)). lia.
Qed.

Lemma len_words read size n b : len (words read size n b) = Z.of_nat n.
Proof. unfold len. by rewrite length_words. Qed.

(** The boolean test the samples are checked with. *)
Definition bytes_okb (l : list Z) : bool := forallb (fun b => (0 <=? b) && (b <? 256)) l.

Lemma bytes_okb_ok l : bytes_okb l = true -> bytes_ok l.
Proof.
  unfold bytes_okb. rewrite forallb_forall. intros H. apply Forall_forall.
  intros b Hb. apply list_elem_of_In, H in Hb. unfold is_byte. lia.
Qed.

(** The loops [for i := range t { t[i] = Uint(b[i*size : i*size+size]) }] that parse
    a table, with the run-time check of each slice. *)
Fixpoint parse_words (read : list Z -> Z) (size : Z) (n : nat) (i : Z) (b : list Z) : go (list Z) :=
  match n with
  | O => mret []
  | S n' =>
      w ← slice b (i * size) (i * size + size);
      t ← parse_words read size n' (i + 1) b;
      mret (read w :: t)
  end.

Lemma parse_words_from read (size : nat) n i b :
  0 <= i -> (i + Z.of_nat n) * Z.of_nat size <= len b ->
  parse_words read (Z.of_nat size) n i b = Ret (words read size n (from b (i * Z.of_nat size))).
Proof.
  revert i. induction n as [|n IH]; intros i Hi Hl; [done|]. cbn [parse_words words].
  rewrite slice_ok by lia. cbn [mbind go_bind].
  rewrite IH by lia. cbn. unfold from, sub. rewrite drop_drop.
  replace (i * Z.of_nat size + Z.of_nat size - i * Z.of_nat size) with (Z.of_nat size) by lia.
  rewrite Nat2Z.id. do 4 f_equal. lia.
Qed.

Lemma parse_words_ok read (size : nat) n b :
  len b = Z.of_nat n * Z.of_nat size ->
  parse_words read (Z.of_nat size) n 0 b = Ret (words read size n b).
Proof. intros. by rewrite parse_words_from by lia. Qed.

(** Too short a buffer: the first slice that does not fit panics. *)
Lemma parse_words_short read size n i b :
  0 < size -> 0 <= i -> (0 < n)%nat -> len b < (i + Z.of_nat n) * size ->
  parse_words read size n i b = Panic SliceOutOfRange.
Proof.
  intros Hs. revert i. induction n as [|n IH]; intros i Hi Hn Hl; [lia|]. cbn [parse_words].
  destruct (Z.leb_spec (i * size + size) (len b)) as [Hle|Hgt].
  - rewrite slice_ok by nia. cbn [mbind go_bind].
    destruct n as [|n]; [lia|]. by rewrite IH by nia.
  - unfold slice. rewrite (proj2 (Z.leb_gt _ _) Hgt). by rewrite andb_false_r.
Qed.

(** *** Single bytes and patches *)

Lemma byte_at_insert bs i x o : 0 <= i < len bs -> 0 <= o ->
  byte_at (<[Z.to_nat i := x]> bs) o = if o =? i then x else byte_at bs o.
Proof.
  intros Hi Ho. unfold byte_at. destruct_if.
  - subst. by rewrite list_lookup_insert_eq by (unfold len in Hi; lia).
  - by rewrite list_lookup_insert_ne by lia.
Qed.

Lemma index_byte_at bs i : 0 <= i < len bs -> index bs i = Ret (byte_at bs i).
Proof. intros Hi. destruct (index_ok bs i Hi) as (a & Ha & ->). unfold byte_at. by rewrite Ha. Qed.

Lemma byte_at_from bs i o : 0 <= i -> 0 <= o -> byte_at (from bs i) o = byte_at bs (i + o).
Proof. intros. unfold byte_at, from. rewrite lookup_drop. do 2 f_equal. lia. Qed.

Lemma patch_len b o x : 0 <= o -> o + len x <= len b -> len (patch b o x) = len b.
Proof. intros. pose proof (len_nonneg x). unfold patch. rewrite !len_app, len_sub, len_from by lia. lia. Qed.

Lemma patch_bytes b o x : bytes_ok b -> bytes_ok x -> bytes_ok (patch b o x).
Proof. intros. unfold patch. repeat apply Forall_app_2; auto with bytes. Qed.

(** What was written is read back. *)
Lemma sub_patch_same b o x : 0 <= o -> o + len x <= len b -> (patch b o x).[o, o + len x] = x.
Proof.
  intros. pose proof (len_nonneg x). unfold patch, sub.
  rewrite drop_app_ge by (rewrite length_take; lia). rewrite length_take, length_drop.
  replace (_ - _)%nat with 0%nat by (unfold len in *; lia). rewrite drop_0.
  rewrite take_app_le by (unfold len in *; lia). apply take_ge. unfold len. lia.
Qed.

(** A range beside a patch is unchanged. *)
Lemma sub_patch_other b o x lo hi : 0 <= o -> o + len x <= len b -> 0 <= lo <= hi -> hi <= len b ->
  hi <= o \/ o + len x <= lo -> (patch b o x).[lo, hi] = b.[lo, hi].
Proof.
  intros Ho Hl Hlo Hhi Hd. pose proof (len_nonneg x). apply list_eq. intros i.
  destruct (decide (i < Z.to_nat (hi - lo))%nat).
  2:{ rewrite !lookup_ge_None_2; [done|..]; unfold sub; rewrite length_take, length_drop; lia. }
  rewrite !lookup_sub by lia. unfold patch, len in *.
  destruct Hd.
  - rewrite lookup_app_l by (unfold sub; rewrite length_take, length_drop; lia).
    rewrite lookup_sub by lia. done.
  - rewrite lookup_app_r by (unfold sub; rewrite length_take, length_drop; lia).
    unfold sub. rewrite length_take, length_drop. rewrite lookup_app_r by lia.
    unfold from. rewrite lookup_drop. f_equal. lia.
Qed.

(** *** encoding/binary on a slice expression
    [binary.LittleEndian.Uint<8n>(b[lo:hi])], [Put...], the big-endian ones, and
    [copy(b[lo:hi], src)]. *)

Definition get_word (read : list Z -> Z) (n : Z) (b : list Z) (lo hi : Z) : go Z :=
  q ← slice b lo hi;
  if len q <? n then Panic IndexOutOfRange else mret (read q.[0, n]).
Abbreviation get_le := (get_word LE).
Abbreviation get_be := (get_word BE).

Definition put_word (b : list Z) (lo hi : Z) (x : list Z) : go (list Z) :=
  q ← slice b lo hi;
  if len q <? len x then Panic IndexOutOfRange else mret (patch b lo x).

Definition copy_at (b : list Z) (lo hi : Z) (src : list Z) : go (list Z) :=
  _ ← slice b lo hi;
  mret (patch b lo (take (Z.to_nat (hi - lo)) src)).

Lemma get_word_ok read n b lo hi : 0 <= lo -> hi = lo + n -> 0 <= n -> hi <= len b ->
  get_word read n b lo hi = Ret (read b.[lo, hi]).
Proof.
  intros Hlo -> Hn Hl. unfold get_word. rewrite slice_ok by lia. cbn [mbind go_bind].
  rewrite len_sub by lia. rewrite (proj2 (Z.ltb_ge _ _)) by lia. unfold mret, go_ret. do 2 f_equal.
  rewrite <-(sub_full b.[lo, lo + n]) at 2. rewrite len_sub by lia. by replace (lo + n - lo) with n by lia.
Qed.

Lemma put_word_ok b lo hi x : 0 <= lo -> hi = lo + len x -> hi <= len b -> put_word b lo hi x = Ret (patch b lo x).
Proof.
  intros Hlo -> Hl. pose proof (len_nonneg x). unfold put_word. rewrite slice_ok by lia. cbn [mbind go_bind].
  rewrite len_sub by lia. by rewrite (proj2 (Z.ltb_ge _ _)) by lia.
Qed.

Lemma copy_at_ok b lo hi x : 0 <= lo <= hi -> len x <= hi - lo -> hi <= len b -> copy_at b lo hi x = Ret (patch b lo x).
Proof.
  intros Hlo Hx Hl. unfold copy_at. rewrite slice_ok by lia. cbn [mbind go_bind].
  by rewrite take_ge by (unfold len in *; lia).
Qed.

Lemma store_patch b i x : 0 <= i < len b -> store b i x = Ret (patch b i [x]).
Proof.
  intros Hi. rewrite store_ok by done. f_equal. unfold patch, sub, from. rewrite Z.sub_0_r. cbn [Z.to_nat drop].
  rewrite insert_take_drop by (unfold len in Hi; lia). cbn [app]. do 3 f_equal. unfold len; cbn. lia.
Qed.

(** [written b y k]: a buffer that held [y] and has been overwritten with [b] up to
    [k]. Writing the next piece of [b] extends it. *)
Definition written (b y : list Z) (k : Z) : list Z := b.[0, k] ++ from y k.

Lemma written_0 b y : y = written b y 0.
Proof. unfold written, sub, from. done. Qed.

Lemma len_written b y k : 0 <= k <= len b -> k <= len y -> len (written b y k) = len y.
Proof. intros. unfold written. rewrite len_app, len_sub, len_from by lia. lia. Qed.

Lemma sub_sub {A} (b : list A) k m : 0 <= k -> 0 <= m -> b.[0, k] ++ b.[k, k + m] = b.[0, k + m].
Proof.
  intros. unfold sub. rewrite !Z.sub_0_r. cbn [Z.to_nat drop].
  replace (Z.to_nat (k + m)) with (Z.to_nat k + Z.to_nat (k + m - k))%nat by lia. by rewrite take_take_drop.
Qed.

Lemma patch_written b y k n : 0 <= k -> 0 <= n -> k + n <= len b -> k + n <= len y ->
  patch (written b y k) k b.[k, k + n] = written b y (k + n).
Proof.
  intros. unfold patch. rewrite len_sub by lia. unfold written at 1. rewrite sub_app_l by (rewrite len_sub by lia; lia).
  unfold written at 2. rewrite <-sub_sub by lia. rewrite <-(assoc app). do 2 f_equal.
  unfold written, from. replace (Z.to_nat (k + (k + n - k))) with (length b.[0, k] + Z.to_nat n)%nat.
  - rewrite drop_app_add. rewrite drop_drop. f_equal. lia.
  - rewrite length_len, len_sub by lia. lia.
Qed.

Lemma written_full b y : len b = len y -> written b y (len b) = b.
Proof. intros Hl. unfold written, from. rewrite sub_full, drop_ge by (unfold len in *; lia). apply app_nil_r. Qed.

Lemma put_le_sub b k (n : nat) : bytes_ok b -> 0 <= k -> k + Z.of_nat n <= len b ->
  put_le n (LE b.[k, k + Z.of_nat n]) = b.[k, k + Z.of_nat n].
Proof.
  intros Hb Hk Hl. rewrite <-(put_le_LE b.[k, _]) at 2 by (by apply bytes_ok_sub).
  f_equal. rewrite length_len, len_sub by lia. lia.
Qed.

Lemma put_be_sub b k (n : nat) : bytes_ok b -> 0 <= k -> k + Z.of_nat n <= len b ->
  put_be n (BE b.[k, k + Z.of_nat n]) = b.[k, k + Z.of_nat n].
Proof.
  intros Hb Hk Hl. unfold put_be, BE. rewrite <-(rev_involutive b.[k, _]) at 2. f_equal.
  rewrite <-(put_le_LE (rev _)) at 2 by (apply Forall_rev; by apply bytes_ok_sub).
  f_equal. rewrite length_rev, length_len, len_sub by lia. lia.
Qed.

Lemma byte_at_sub b k : 0 <= k < len b -> [byte_at b k] = b.[k, k + 1].
Proof.
  intros Hk. unfold byte_at, sub. replace (Z.to_nat (k + 1 - k)) with 1%nat by lia.
  destruct (index_ok b k Hk) as (a & Ha & _). rewrite (drop_S _ _ _ Ha), Ha. done.
Qed.

Section written.
Context (b y : list Z) (k hi : Z) (Hk : 0 <= k <= hi) (Hb : hi <= len b) (Hy : hi <= len y).

Lemma word_written x : x = b.[k, hi] -> put_word (written b y k) k hi x = Ret (written b y hi).
Proof using Hk Hb Hy.
  intros ->. rewrite put_word_ok by (rewrite ?len_sub, ?len_written by lia; lia).
  f_equal. replace hi with (k + (hi - k)) by lia. apply patch_written; lia.
Qed.

Lemma copy_written src : take (Z.to_nat (hi - k)) src = b.[k, hi] -> copy_at (written b y k) k hi src = Ret (written b y hi).
Proof using Hk Hb Hy.
  intros E. unfold copy_at. rewrite slice_ok by (rewrite ?len_written by lia; lia). cbn [mbind go_bind]. rewrite E.
  unfold mret, go_ret. f_equal. replace hi with (k + (hi - k)) by lia. apply patch_written; lia.
Qed.
End written.

Lemma le_written b y k hi (n : nat) : bytes_ok b -> 0 <= k -> hi = k + Z.of_nat n -> hi <= len b -> hi <= len y ->
  put_word (written b y k) k hi (put_le n (LE b.[k, hi])) = Ret (written b y hi).
Proof. intros Hb Hk -> ? ?. apply word_written; [lia..|]. by apply put_le_sub. Qed.

Lemma be_written b y k hi (n : nat) : bytes_ok b -> 0 <= k -> hi = k + Z.of_nat n -> hi <= len b -> hi <= len y ->
  put_word (written b y k) k hi (put_be n (BE b.[k, hi])) = Ret (written b y hi).
Proof. intros Hb Hk -> ? ?. apply word_written; [lia..|]. by apply put_be_sub. Qed.

Lemma store_written b y k : 0 <= k < len b -> k < len y ->
  store (written b y k) k (byte_at b k) = Ret (written b y (k + 1)).
Proof.
  intros. rewrite store_patch by (rewrite len_written by lia; lia). rewrite byte_at_sub by lia. f_equal. apply patch_written; lia.
Qed.

(** Slices of slices. *)
Lemma sub_of_sub {A} (b : list A) a c lo hi : 0 <= a -> 0 <= lo <= hi -> a + hi <= c -> b.[a, c].[lo, hi] = b.[a + lo, a + hi].
Proof.
  intros. unfold sub. rewrite skipn_firstn_comm, drop_drop, take_take. f_equal; [lia|]. f_equal. lia.
Qed.

Lemma byte_at_of_sub b a c k : 0 <= a -> 0 <= k -> a + k < c -> byte_at b.[a, c] k = byte_at b (a + k).
Proof. intros. unfold byte_at. rewrite lookup_sub by lia. do 2 f_equal. lia. Qed.

Lemma written_end b y k : len y = k -> written b y k = b.[0, k].
Proof. intros Hl. unfold written, from. rewrite drop_ge by (unfold len in Hl; lia). apply app_nil_r. Qed.

Lemma sub_cat {A} (b : list A) lo mid hi : 0 <= lo <= mid -> mid <= hi -> b.[lo, mid] ++ b.[mid, hi] = b.[lo, hi].
Proof.
  intros. unfold sub. replace (Z.to_nat (hi - lo)) with (Z.to_nat (mid - lo) + Z.to_nat (hi - mid))%nat by lia.
  rewrite <-take_take_drop, drop_drop. do 3 f_equal. lia.
Qed.

Lemma sub_patch_at b o x hi : 0 <= o -> hi = o + len x -> hi <= len b -> (patch b o x).[o, hi] = x.
Proof. intros ? -> ?. by apply sub_patch_same. Qed.

Lemma len_put_le n v : len (put_le n v) = Z.of_nat n.
Proof. unfold len. by rewrite length_put_le. Qed.
Lemma len_put_be n v : len (put_be n v) = Z.of_nat n.
Proof. unfold put_be, len. by rewrite length_rev, length_put_le. Qed.
Lemma BE_put_be n v : BE (put_be n v) = v mod 256 ^ Z.of_nat n.
Proof. unfold BE, put_be. rewrite rev_involutive. apply LE_put_le. Qed.

(** Lengths and slices of a chain of patches at literal offsets. *)
Ltac patch_lens := repeat first [rewrite patch_len | rewrite len_put_le | rewrite len_put_be]; lia.
Ltac patch_slices :=
  repeat first [ rewrite sub_patch_at by patch_lens | rewrite sub_patch_other by patch_lens ].

Lemma sub_mid {A} (a x c : list A) lo hi : lo = len a -> hi = lo + len x -> (a ++ x ++ c).[lo, hi] = x.
Proof.
  intros -> ->. unfold sub. rewrite drop_app_ge by (unfold len; lia). replace (Z.to_nat (len a) - length a)%nat with 0%nat by (unfold len; lia).
  rewrite drop_0, take_app_le by (unfold len; lia). apply take_ge. unfold len; lia.
Qed.

Lemma patch_nil (b : list Z) t : 0 <= t <= len b -> patch b t [] = b.
Proof. intros. unfold patch. len_nils. rewrite Z.add_0_r, app_nil_l. apply sub_app_from; lia. Qed.

Lemma byte_at_patch b o x i : 0 <= o -> o + len x <= len b -> 0 <= i ->
  byte_at (patch b o x) i = if (o <=? i) && (i <? o + len x) then byte_at x (i - o) else byte_at b i.
Proof.
  intros Ho Hl Hi. pose proof (len_nonneg x). unfold byte_at, patch, len in *.
  assert (length b.[0, o] = Z.to_nat o) as Hs by (unfold sub; rewrite length_take, length_drop; lia).
  destruct (Z.leb_spec o i); cbn [andb].
  - rewrite lookup_app_r by lia. rewrite Hs. destruct_if.
    + rewrite lookup_app_l by lia. do 2 f_equal. lia.
    + rewrite lookup_app_r by lia. unfold from. rewrite lookup_drop. do 2 f_equal. lia.
  - rewrite lookup_app_l by lia. unfold sub. rewrite Z.sub_0_r. cbn [Z.to_nat drop].
    rewrite lookup_take. by rewrite decide_True by lia.
Qed.
