(* ===== verification/ReaderAt.v ===== *)
(** * ReaderAt: the [io.ReaderAt] interface between the layers

    A reader takes the caller's buffer and an offset and returns the buffer it
    left, the count [n] and the error. Two classes say what a layer promises:
    [ReaderShape] (the buffer keeps its length, the count is within it, no panic)
    and [Device] (the reads return the bytes of a device of a given size). *)

From S2P Require Import Prelude Bytes.

Record rres := mkR { r_buf : list Z; r_n : Z; r_err : option error }.

Definition reader : Type := list Z -> Z -> go rres.

(** The bytes [off .. off+n) of a device. *)
Definition span (content : Z -> Z) (off n : Z) : list Z := content <$> seqZ off n.

Lemma len_span c off n : 0 <= n -> len (span c off n) = n.
Proof. intros. unfold len, span. rewrite length_fmap, length_seqZ. lia. Qed.

Lemma lookup_span c off n i :
  0 <= i < n -> span c off n !! Z.to_nat i = Some (c (off + i)).
Proof.
  intros. unfold span. rewrite list_lookup_fmap, lookup_seqZ_lt by lia.
  cbn. do 2 f_equal. lia.
Qed.

Lemma span_app c off n m : 0 <= n -> 0 <= m -> span c off (n + m) = span c off n ++ span c (off + n) m.
Proof. intros. unfold span. by rewrite seqZ_app, fmap_app. Qed.

Lemma span_0 c off : span c off 0 = [].
Proof. done. Qed.

(** Two byte lists are equal when they agree at every offset. *)
Lemma span_ext c l off n :
  len l = n -> (forall i, 0 <= i < n -> l !! Z.to_nat i = Some (c (off + i))) -> l = span c off n.
Proof.
  intros Hl Hi. pose proof (len_nonneg l). apply list_eq. intros k.
  destruct (decide (Z.of_nat k < n)).
  - rewrite <-(Nat2Z.id k), Hi, lookup_span; [done|lia..].
  - rewrite !lookup_ge_None_2; [done| |].
    + unfold span. rewrite length_fmap, length_seqZ. lia.
    + unfold len in Hl. lia.
Qed.

Lemma span_sub c off n lo hi :
  0 <= lo <= hi -> hi <= n -> (span c off n).[lo, hi] = span c (off + lo) (hi - lo).
Proof.
  intros. apply span_ext; [rewrite len_sub; rewrite ?len_span; lia|].
  intros i Hi. rewrite lookup_sub by lia.
  replace (Z.to_nat lo + Z.to_nat i)%nat with (Z.to_nat (lo + i)) by lia.
  rewrite lookup_span by lia. do 2 f_equal. lia.
Qed.

Lemma span_const c off n x :
  (forall i, off <= i < off + n -> c i = x) -> span c off n = replicate (Z.to_nat n) x.
Proof.
  intros Hc. destruct (Z.leb_spec 0 n).
  - symmetry. apply span_ext; [rewrite len_replicate; lia|].
    intros i Hi. rewrite lookup_replicate_2 by lia. by rewrite Hc by lia.
  - unfold span. destruct n; done || lia.
Qed.

Lemma span_congr c d off1 off2 n :
  (forall i, 0 <= i < n -> c (off1 + i) = d (off2 + i)) -> span c off1 n = span d off2 n.
Proof.
  intros Hc. destruct (Z.leb_spec 0 n).
  - apply span_ext; [by apply len_span|]. intros i Hi. rewrite lookup_span, Hc by lia. done.
  - unfold span. destruct n; done || lia.
Qed.

Lemma span_bytes c off n : (forall i, is_byte (c i)) -> bytes_ok (span c off n).
Proof. intros Hc. unfold span. apply Forall_fmap, Forall_true. cbn. auto. Qed.

(** ** What a reader promises *)

(** The count is within the buffer, which keeps its length; no panic. *)
Class ReaderShape (ra : reader) : Prop :=
  shape_read p off : wp (ra p off) (fun r =>
    len (r_buf r) = len p /\ 0 <= r_n r <= len p /\ (bytes_ok p -> bytes_ok (r_buf r))) no_err.

(** The documentation of [io.ReaderAt]: "When ReadAt returns n < len(p), it
    returns a non-nil error explaining why more bytes were not returned." *)
Class ReaderContract (ra : reader) : Prop := {
  contract_shape :: ReaderShape ra;
  contract_short p off : wp (ra p off) (fun r => r_n r < len p -> r_err r <> None) no_err
}.

(** A read of a device of [size] bytes with the given content. A short read at
    the end may return [io.EOF] or a nil error. *)
Definition read_ok (size : Z) (content : Z -> Z) (p : list Z) (off : Z) (r : rres) : Prop :=
  len (r_buf r) = len p /\
  r_n r = Z.max 0 (Z.min (len p) (size - off)) /\
  (r_buf r).[0, r_n r] = span content off (r_n r) /\
  (0 < len p -> off + len p <= size -> r_err r = None) /\
  (r_n r = 0 -> 0 < len p -> r_err r = Some EOF) /\
  (r_err r = None \/ r_err r = Some EOF).

Class Device (ra : reader) (size : Z) (content : Z -> Z) : Prop := {
  dev_shape :: ReaderShape ra;
  dev_size : 0 <= size < 2 ^ 63;
  dev_bytes i : is_byte (content i);
  dev_read p off : 0 <= off -> wp (ra p off) (read_ok size content p off) no_err
}.

Lemma read_ok_full size content p off r :
  read_ok size content p off r -> 0 < len p -> off + len p <= size ->
  r = mkR (span content off (len p)) (len p) None.
Proof.
  destruct r as [b n e]. unfold read_ok; cbn [r_buf r_n r_err].
  intros (Hl & Hn & Hb & He & _) Hp Hoff. rewrite He by lia.
  assert (n = len p) as -> by lia. f_equal.
  rewrite <-Hl in Hb at 1. by rewrite sub_full in Hb.
Qed.

(** A read within the device fills the buffer and returns no error. *)
Lemma dev_read_full ra size content `{!Device ra size content} p off :
  0 <= off -> 0 < len p -> off + len p <= size ->
  ra p off = Ret (mkR (span content off (len p)) (len p) None).
Proof.
  intros. destruct (wp_no_err_Ret _ _ (dev_read p off ltac:(lia))) as (r & -> & Hr).
  by rewrite (read_ok_full _ _ _ _ _ Hr) by lia.
Qed.

(** ** A file

    [os.File.ReadAt] on a regular file whose bytes are [data]. *)
Definition file_reader (data : list Z) : reader := fun p off =>
  if off <? 0 then Ret (mkR p 0 (Some (Errorf "negative offset")))
  else let got := data.[off, off + len p] in
       let n := len got in
       Ret (mkR (got ++ from p n) n (if n <? len p then Some EOF else None)).

Definition file_content (data : list Z) (i : Z) : Z := byte_at data i.

Lemma sub_span data off n :
  0 <= off -> 0 <= n -> off + n <= len data -> data.[off, off + n] = span (file_content data) off n.
Proof.
  intros. apply span_ext; [rewrite len_sub; lia|].
  intros i Hi. rewrite lookup_sub by lia. unfold file_content, byte_at.
  replace (Z.to_nat off + Z.to_nat i)%nat with (Z.to_nat (off + i)) by lia.
  destruct (index_ok data (off + i)) as (a & -> & _); [lia|done].
Qed.

Lemma len_file_sub (data : list Z) off n :
  0 <= off -> 0 <= n -> len data.[off, off + n] = Z.max 0 (Z.min n (len data - off)).
Proof. intros. unfold len, sub. rewrite length_take, length_drop. lia. Qed.

Lemma file_sub (data : list Z) off n :
  0 <= off -> 0 <= n ->
  data.[off, off + n] = span (file_content data) off (Z.max 0 (Z.min n (len data - off))).
Proof.
  intros. destruct (Z.leb_spec (off + n) (len data)).
  - rewrite sub_span by lia. f_equal. lia.
  - destruct (Z.leb_spec (len data) off).
    + replace (Z.max _ _) with 0 by lia. rewrite span_0. apply len_zero.
      rewrite len_file_sub; lia.
    + replace (Z.max _ _) with (len data - off) by lia.
      rewrite <-sub_span by lia. unfold sub, len in *. rewrite !take_ge; [done| |]; rewrite length_drop; lia.
Qed.

#[export] Instance file_shape data : bytes_ok data -> ReaderShape (file_reader data).
Proof.
  intros Hd p off. unfold file_reader. pose proof (len_nonneg p).
  destruct_if; cbn [wp mret go_ret r_buf r_n]; [by auto with lia|].
  pose proof (len_file_sub data off (len p) ltac:(lia) ltac:(lia)).
  rewrite len_app, len_from by lia. split_and!; try lia. auto with bytes.
Qed.

#[export] Instance file_device data :
  bytes_ok data -> len data < 2 ^ 63 -> Device (file_reader data) (len data) (file_content data).
Proof.
  intros Hb Hl. split; [by apply file_shape|pose proof (len_nonneg data); lia|intros; by apply byte_at_range|].
  intros p off Hoff. unfold file_reader.
  destruct (Z.ltb_spec off 0); [lia|]. cbn [wp].
  pose proof (len_nonneg p). pose proof (len_file_sub data off (len p) Hoff ltac:(lia)) as Hn.
  unfold read_ok; cbn [r_buf r_n r_err].
  split; [rewrite len_app, len_from; lia|]. split; [done|].
  split; [rewrite sub_app_l by done; rewrite Hn; by apply file_sub|].
  destruct_if; (split_and!; intros; try lia; auto).
Qed.


#[export] Instance file_contract data : bytes_ok data -> ReaderContract (file_reader data).
Proof.
  intros Hd. split; [by apply file_shape|]. intros p off. unfold file_reader.
  destruct_if; cbn [wp mret go_ret r_err r_n]; [done|]. destruct_if; [done|lia].
Qed.

(** [if _, err := ra.ReadAt(b, off); err != nil { return nil, fmt.Errorf(msg, err) }] *)
Definition read_or (ra : reader) (msg : string) (b : list Z) (off : Z) : go (list Z) :=
  r ← ra b off;
  match r_err r with
  | Some e => Err (Wrapf msg e)
  | None => mret (r_buf r)
  end.

(** [ra.ReadAt(p[:n], off)]: the whole of [p] afterwards, and the error. *)
Definition read_into (ra : reader) (p : list Z) (n off : Z) : go (list Z * option error) :=
  q ← slice p 0 n;
  r ← ra q off;
  mret (r_buf r ++ from p n, r_err r).

(** [clear(p[:n])] *)
Definition clear (p : list Z) (n : Z) : go (list Z) :=
  q ← slice p 0 n;
  mret (replicate (length q) 0 ++ from p n).

(** The side conditions of a read of a freshly made buffer. *)
Ltac reads := rewrite ?len_replicate, ?len_span by lia; (done || lia).

Lemma wp_read_or ra msg b off P E `{!ReaderShape ra} :
  (forall b', len b' = len b -> (bytes_ok b -> bytes_ok b') -> P b') ->
  (forall e, E (Wrapf msg e)) -> wp (read_or ra msg b off) P E.
Proof.
  intros HP HE. unfold read_or. apply wp_bind.
  eapply wp_mono; [apply shape_read| |intros e []].
  intros r (? & ? & ?). destruct (r_err r); cbn; auto.
Qed.

(** The same, remembering what was read. *)
Lemma wp_read_or_eq ra msg b off P E : ReaderShape ra ->
  (forall b', read_or ra msg b off = Ret b' -> len b' = len b -> (bytes_ok b -> bytes_ok b') -> P b') ->
  (forall e, E (Wrapf msg e)) -> wp (read_or ra msg b off) P E.
Proof.
  intros Hra HP HE. unfold read_or in *. pose proof (shape_read (ra := ra) b off) as Hs.
  destruct (ra b off) as [r|e| |] eqn:Er; try done. cbn in *.
  destruct Hs as (? & ? & ?). destruct (r_err r); cbn in *; auto.
Qed.

Lemma read_or_full ra size content msg b off `{!Device ra size content} :
  0 <= off -> 0 < len b -> off + len b <= size ->
  read_or ra msg b off = Ret (span content off (len b)).
Proof. intros. unfold read_or. by rewrite (dev_read_full ra size content) by lia. Qed.

Lemma wp_read_into ra p n off (P : list Z * option error -> Prop) E `{!ReaderShape ra} :
  0 <= n <= len p ->
  (forall p' e, len p' = len p -> (bytes_ok p -> bytes_ok p') -> P (p', e)) ->
  wp (read_into ra p n off) P E.
Proof.
  intros Hn HP. unfold read_into. rewrite slice_ok by lia. cbn [mbind go_bind].
  apply wp_bind. eapply wp_mono; [apply shape_read| |intros e []].
  intros r (Hl & _ & Hb). apply wp_ret, HP.
  - rewrite len_app, Hl, len_sub, len_from by lia. lia.
  - auto with bytes.
Qed.

Lemma read_into_full ra size content p n off `{!Device ra size content} :
  0 < n <= len p -> 0 <= off -> off + n <= size ->
  read_into ra p n off = Ret (span content off n ++ from p n, None).
Proof.
  intros. unfold read_into. rewrite slice_ok by lia. cbn [mbind go_bind].
  rewrite (dev_read_full ra size content); rewrite ?len_sub by lia; [|lia..].
  cbn. by rewrite Z.sub_0_r.
Qed.

Lemma clear_ok p n : 0 <= n <= len p -> clear p n = Ret (replicate (Z.to_nat n) 0 ++ from p n).
Proof.
  intros. unfold clear. rewrite slice_ok by lia. cbn. do 3 f_equal.
  rewrite length_len, len_sub by lia. lia.
Qed.

(** [p[lo:hi]] handed to a read: the buffer afterwards, the count and the error. *)
Definition read_range (ra : reader) (p : list Z) (lo hi off : Z) : go rres :=
  q ← slice p lo hi;
  r ← ra q off;
  mret (mkR (p.[0, lo] ++ r_buf r ++ from p hi) (r_n r) (r_err r)).

(** [for j := 0; j < n; j++ { p[at+j] = f(j) }], from round [j]. *)
Fixpoint fill_from (f : Z -> Z) (p : list Z) (at_ j : Z) (n : nat) : go (list Z) :=
  match n with
  | O => mret p
  | S n' => p' ← store p (i64 (at_ + j)) (f j); fill_from f p' at_ (j + 1) n'
  end.
Definition fill (f : Z -> Z) (p : list Z) (at_ n : Z) : go (list Z) := fill_from f p at_ 0 (Z.to_nat n).

Lemma wp_read_range ra p lo hi off (P : rres -> Prop) E `{!ReaderShape ra} :
  0 <= lo <= hi -> hi <= len p ->
  (forall q n e, len q = hi - lo -> 0 <= n <= hi - lo -> (bytes_ok p -> bytes_ok q) ->
     P (mkR (p.[0, lo] ++ q ++ from p hi) n e)) ->
  wp (read_range ra p lo hi off) P E.
Proof.
  intros Hlo Hhi HP. unfold read_range. rewrite slice_ok by done. cbn [mbind go_bind].
  apply wp_bind. eapply wp_mono; [apply shape_read| |done].
  intros [q n e] (Hl & Hn & Hb); cbn in *. rewrite len_sub in Hl, Hn by lia. apply HP; try done.
  intros. apply Hb. by apply bytes_ok_sub.
Qed.

Lemma read_range_full ra size content p lo hi off `{!Device ra size content} :
  0 <= lo < hi -> hi <= len p -> 0 <= off -> off + (hi - lo) <= size ->
  read_range ra p lo hi off =
  Ret (mkR (p.[0, lo] ++ span content off (hi - lo) ++ from p hi) (hi - lo) None).
Proof.
  intros. unfold read_range. rewrite slice_ok by lia. cbn [mbind go_bind].
  rewrite (dev_read_full ra size content) by (rewrite ?len_sub; lia). cbn. by rewrite len_sub by lia.
Qed.

Lemma fill_from_ok f n : forall p at_ j, 0 <= at_ -> 0 <= j -> at_ + j + Z.of_nat n <= len p -> len p < 2 ^ 63 ->
  fill_from f p at_ j n =
  Ret (p.[0, at_ + j] ++ span f j (Z.of_nat n) ++ from p (at_ + j + Z.of_nat n)).
Proof.
  induction n as [|n IH]; intros p at_ j Ha Hj Hl Hp; cbn [fill_from].
  - change (span f j (Z.of_nat 0)) with (@nil Z). rewrite Z.add_0_r, app_nil_l. by rewrite sub_app_from by lia.
  - rewrite i64_id, store_ok by lia. cbn [mbind go_bind]. rewrite IH by (rewrite ?len_insert; lia). f_equal.
    replace (Z.of_nat (S n)) with (1 + Z.of_nat n) by lia. rewrite (span_app f j 1) by lia.
    replace (at_ + (j + 1) + Z.of_nat n) with (at_ + j + (1 + Z.of_nat n)) by lia.
    rewrite <-(assoc app (span f j 1)), (assoc app p.[0, at_ + j]). f_equal.
    + change (span f j 1) with [f (0 + j)]. replace (0 + j) with j by lia.
      unfold sub, len in *. change (Z.to_nat 0) with 0%nat in *. rewrite !drop_0 in *.
      rewrite !Z.sub_0_r. replace (Z.to_nat (at_ + (j + 1))) with (S (Z.to_nat (at_ + j))) by lia.
      erewrite take_S_r; [|by apply list_lookup_insert_eq; lia].
      by rewrite take_insert_ge by lia.
    + f_equal. unfold from. by rewrite drop_insert_lt by lia.
Qed.

Lemma fill_ok f p at_ n : 0 <= at_ -> 0 <= n -> at_ + n <= len p -> len p < 2 ^ 63 ->
  fill f p at_ n = Ret (p.[0, at_] ++ span f 0 n ++ from p (at_ + n)).
Proof.
  intros. unfold fill. rewrite fill_from_ok by lia. by rewrite Z.add_0_r, Z2Nat.id by lia.
Qed.

(** A buffer whose first [done] bytes are the device's, after [n] more of them. *)
Lemma span_extend content (p : list Z) off done n (x : list Z) :
  0 <= done -> 0 <= n -> done + n <= len p -> x = span content (off + done) n ->
  let q := span content off done ++ from p done in
  q.[0, done] ++ x ++ from q (done + n) = span content off (done + n) ++ from p (done + n).
Proof.
  intros Hd Hn Hl -> q. unfold q. rewrite sub_app_l by (rewrite len_span; lia).
  rewrite span_app, <-(assoc app) by done. do 2 f_equal. unfold from.
  pose proof (len_span content off done Hd) as E. unfold len in E.
  rewrite drop_app_ge, drop_drop by lia. f_equal. lia.
Qed.

(** The result of a read of a device by the block readers of the source, whose
    error is nil when the read is short. *)
Definition short_read (size : Z) (content : Z -> Z) (p : list Z) (off : Z) : rres :=
  let keep := Z.max 0 (Z.min (len p) (size - off)) in
  mkR (span content off keep ++ from p keep) keep (if keep =? 0 then Some EOF else None).

Lemma short_read_ok size content p off :
  read_ok size content p off (short_read size content p off).
Proof.
  unfold short_read, read_ok. cbn zeta. set (keep := Z.max 0 _). cbn [r_buf r_n r_err].
  pose proof (len_nonneg p). rewrite len_app, len_span, len_from, sub_app_l by (rewrite ?len_span; lia).
  destruct_if; split_and!; try (done || lia || auto); naive_solver lia.
Qed.
