(* ===== verification/Chunks.v ===== *)
(** * Chunks: the read loop the disk formats share

    The [ReadAt] methods of vdi, parallels, vmdk, qcow and qed have the same
    frame: reject a negative offset, return [io.EOF] at or past the end, cut the
    buffer at the end of the disk, then fill it piece by piece, each round
    consuming the [n] bytes its block, cluster or grain holds. The frame is
    written once here, over the step that fills one piece. *)

From S2P Require Import Prelude Bytes ReaderAt.

(** What one round of the loop does: the buffer with its first [n] bytes filled,
    an error that is returned at once, or [break]. *)
Inductive chunk :=
  | Chunk (p : list Z) (n : Z)
  | ChunkErr (p : list Z) (e : error)
  | ChunkStop.

Section chunks.
Context {S : Type}.
Variable step : S -> list Z -> Z -> go (S * chunk).

(** The loop's variables: the reader's own state, the part of the caller's
    buffer already filled, the rest of it ([p]), [off] and [total]. *)
Record window := Win { w_st : S; w_done : list Z; w_p : list Z; w_off : Z; w_total : Z }.

Definition finish (w : window) : S * rres :=
  (w_st w, mkR (w_done w ++ w_p w) (w_total w) (if w_total w =? 0 then Some EOF else None)).

Definition loop_body (w : window) : go (window + (S * rres)) :=
  if len (w_p w) =? 0 then mret (inr (finish w))
  else
    '(st', c) ← step (w_st w) (w_p w) (w_off w);
    match c with
    | Chunk p' n =>
        front ← slice p' 0 n;
        rest ← slice p' n (len p');
        mret (inl (Win st' (w_done w ++ front) rest (i64 (w_off w + n)) (i64 (w_total w + n))))
    | ChunkErr p' e => mret (inr (st', mkR (w_done w ++ p') (w_total w) (Some e)))
    | ChunkStop => mret (inr (finish (Win st' (w_done w) (w_p w) (w_off w) (w_total w))))
    end.

Definition read_chunks (size : Z) (st : S) (p : list Z) (off : Z) : go (S * rres) :=
  if off <? 0 then mret (st, mkR p 0 (Some (Errorf "negative offset")))
  else if size <=? off then mret (st, mkR p 0 (Some EOF))
  else
    let room := i64 (size - off) in
    let keep := if room <? len p then room else len p in
    p' ← slice p 0 keep;
    '(st', r) ← go_for (Datatypes.S (length p')) loop_body (Win st [] p' off 0);
    mret (st', mkR (r_buf r ++ from p keep) (r_n r) (r_err r)).

Variable Inv : S -> Prop.

(** A round that fills some bytes keeps the length of the buffer and consumes
    at least one byte, whatever the underlying reader does. *)
Definition step_shape (size : Z) : Prop := forall st p off,
  Inv st -> 0 < len p -> 0 <= off -> off + len p <= size ->
  wp (step st p off) (fun r =>
    Inv r.1 /\
    match r.2 with
    | Chunk p' n => len p' = len p /\ 0 < n <= len p /\ (bytes_ok p -> bytes_ok p')
    | ChunkErr p' _ => len p' = len p /\ (bytes_ok p -> bytes_ok p')
    | ChunkStop => True
    end) no_err.

(** A round that serves the bytes of [content]. *)
Definition step_reads (size : Z) (content : Z -> Z) : Prop := forall st p off,
  Inv st -> 0 < len p -> 0 <= off -> off + len p <= size ->
  wp (step st p off) (fun r =>
    Inv r.1 /\ exists p' n, r.2 = Chunk p' n /\ 0 < n <= len p /\
                            p' = span content off n ++ from p n) no_err.

(** The invariant of the loop: how much is filled, and where it stands. *)
Definition win_ok (off0 keep : Z) (w : window) : Prop :=
  Inv (w_st w) /\ len (w_done w) + len (w_p w) = keep /\
  w_total w = len (w_done w) /\ w_off w = off0 + len (w_done w).

Lemma loop_body_ok size off0 keep (Q : list Z -> list Z -> Prop) (R : S * rres -> Prop) w :
  0 <= off0 -> size < 2 ^ 63 -> off0 + keep <= size ->
  win_ok off0 keep w ->
  (len (w_p w) = 0 -> R (finish w)) ->
  (0 < len (w_p w) ->
    wp (step (w_st w) (w_p w) (w_off w)) (fun r => Inv r.1 /\
      match r.2 with
      | Chunk p' n => len p' = len (w_p w) /\ 0 < n <= len (w_p w) /\
                      Q (w_done w ++ p'.[0, n]) p'.[n, len p']
      | ChunkErr p' e => R (r.1, mkR (w_done w ++ p') (w_total w) (Some e))
      | ChunkStop => R (finish (Win r.1 (w_done w) (w_p w) (w_off w) (w_total w)))
      end) no_err) ->
  wp (loop_body w) (fun r =>
    match r with
    | inl w' => (win_ok off0 keep w' /\ Q (w_done w') (w_p w')) /\ (length (w_p w') < length (w_p w))%nat
    | inr v => R v
    end) no_err.
Proof.
  intros Ho Hsz Hk (HI & Hl & Ht & Hoff) Hfin Hstep. unfold loop_body.
  pose proof (len_nonneg (w_p w)). pose proof (len_nonneg (w_done w)).
  destruct_if; [by apply Hfin|].
  apply wp_bind. eapply wp_mono; [apply Hstep; lia| |done].
  intros [st' c] [HI' Hc]; cbn in Hc |- *.
  destruct c as [p' n|p' e|]; [|done|done]. destruct Hc as (Hl' & Hn & HQ').
  rewrite !slice_ok by lia. cbn.
  assert (len p'.[0, n] = n) as Hsub by (rewrite len_sub; lia).
  assert (len p'.[n, len p'] = len (w_p w) - n) as Hrest by (rewrite len_sub; lia).
  split; [|unfold len in Hrest |- *; lia].
  split; [|done]. unfold win_ok; cbn [w_st w_done w_p w_total w_off].
  rewrite len_app, Hsub, Hrest. rewrite !i64_id by lia. split_and!; done || lia.
Qed.

(** The frame around the loop: what holds of the loop's result from the window
    over the first [keep] bytes holds of the call. *)
Lemma read_chunks_frame size st p off (Q : list Z -> list Z -> Prop) (R : S * rres -> Prop) (P : S * rres -> Prop) :
  size < 2 ^ 63 -> Inv st ->
  let keep := Z.min (len p) (size - off) in
  (off < 0 -> P (st, mkR p 0 (Some (Errorf "negative offset")))) ->
  (0 <= off -> size <= off -> P (st, mkR p 0 (Some EOF))) ->
  (0 <= off < size -> Q [] p.[0, keep]) ->
  (forall w, 0 <= off < size -> win_ok off keep w -> Q (w_done w) (w_p w) ->
    wp (loop_body w) (fun r =>
      match r with
      | inl w' => (win_ok off keep w' /\ Q (w_done w') (w_p w')) /\ (length (w_p w') < length (w_p w))%nat
      | inr v => R v
      end) no_err) ->
  (forall v, 0 <= off < size -> R v ->
    P (v.1, mkR (r_buf v.2 ++ from p keep) (r_n v.2) (r_err v.2))) ->
  wp (read_chunks size st p off) P no_err.
Proof.
  intros Hsz Hst keep Hneg Hend HQ Hloop HR. unfold read_chunks. pose proof (len_nonneg p).
  destruct_if; [by apply Hneg|]. destruct_if; [by apply Hend|].
  rewrite (i64_id (size - off)) by lia. cbv zeta.
  replace (if _ <? _ then _ else _) with keep by (unfold keep; destruct_if; lia).
  rewrite slice_ok by lia. cbn [mbind go_bind].
  apply wp_bind. eapply wp_mono.
  - apply (wp_for (fun w => win_ok off keep w /\ Q (w_done w) (w_p w)) (fun w => length (w_p w))
      loop_body R).
    + intros w [Hw HQw]. apply Hloop; [lia|done|done].
    + split; [|apply HQ; lia]. unfold win_ok; cbn. rewrite len_sub by lia. len_nils. split_and!; done || lia.
    + cbn. lia.
  - intros [st' r] Hv. cbn. by apply (HR (st', r)).
  - done.
Qed.

(** Safety: no panic, termination, and the shape of the result, for any
    behaviour of the layer below. *)
Theorem read_chunks_shape size st p off :
  size < 2 ^ 63 -> step_shape size -> Inv st ->
  wp (read_chunks size st p off)
     (fun r => Inv r.1 /\ len (r_buf r.2) = len p /\ 0 <= r_n r.2 <= len p /\
               (bytes_ok p -> bytes_ok (r_buf r.2))) no_err.
Proof.
  intros Hsz Hstep Hst. pose proof (len_nonneg p).
  apply (read_chunks_frame size st p off
    (fun d q => bytes_ok p -> bytes_ok (d ++ q))
    (fun v => Inv v.1 /\ len (r_buf v.2) = Z.min (len p) (size - off) /\
              0 <= r_n v.2 <= Z.min (len p) (size - off) /\ (bytes_ok p -> bytes_ok (r_buf v.2)))); try done.
  - intros _ Hb. cbn. auto with bytes.
  - intros w Hoff Hw Hd. pose proof Hw as (HI & Hl & Ht & Ho).
    pose proof (len_nonneg (w_p w)). pose proof (len_nonneg (w_done w)).
    apply (loop_body_ok size off _ (fun d q => bytes_ok p -> bytes_ok (d ++ q))); try done; try lia.
    + intros. cbn [finish fst snd r_buf r_n]. rewrite len_app. split_and!; done || lia.
    + intros. eapply wp_mono; [apply Hstep; done || lia| |done].
      intros [st' c] [HI' Hc]; cbn [fst snd] in HI', Hc |- *. split; [done|].
      destruct c as [p' n|p' e|]; cbn; rewrite ?len_app.
      * destruct Hc as (Hp' & Hn & Hb). split_and!; try done || lia.
        intros Hp. apply Hd in Hp as Hdp. apply Forall_app in Hdp as [? ?].
        repeat apply Forall_app_2; auto with bytes.
      * destruct Hc as (Hp' & Hb). split_and!; try done || lia.
        intros Hp. apply Hd in Hp as Hdp. apply Forall_app in Hdp as [? ?].
        apply Forall_app_2; auto.
      * split_and!; done || lia.
  - intros [st' r] Hoff (HI & Hl & Hn & Hb); cbn in *. rewrite len_app, len_from by lia.
    split_and!; try done || lia. auto with bytes.
Qed.

(** Correctness: the reads are those of a device with this content. *)
Theorem read_chunks_reads size content st p off :
  0 <= size < 2 ^ 63 -> step_reads size content -> Inv st -> 0 <= off ->
  let keep := Z.max 0 (Z.min (len p) (size - off)) in
  wp (read_chunks size st p off) (fun r => Inv r.1 /\
    r.2 = mkR (span content off keep ++ from p keep) keep (if keep =? 0 then Some EOF else None)) no_err.
Proof.
  intros Hsz Hstep Hst Ho keep. pose proof (len_nonneg p).
  apply (read_chunks_frame size st p off
    (fun d _ => d = span content off (len d))
    (fun v => Inv v.1 /\ v.2 = mkR (span content off keep) keep (if keep =? 0 then Some EOF else None)));
    try (done || lia).
  - intros _ Hle. cbn. split; [done|]. by replace keep with 0 by lia.
  - intros w Hoff Hw Hd. replace (Z.min _ _) with keep in Hw |- * by lia.
    pose proof Hw as (HI & Hl & Ht & Ho').
    pose proof (len_nonneg (w_p w)). pose proof (len_nonneg (w_done w)).
    apply (loop_body_ok size off _ (fun d _ => d = span content off (len d))); try (done || lia).
    + intros Hp. unfold finish. cbn. split; [done|].
      rewrite (len_zero (w_p w)), app_nil_r by done.
      assert (w_total w = keep) as -> by lia. rewrite Hd at 1. repeat f_equal. lia.
    + intros. eapply wp_mono; [apply Hstep; done || lia| |done].
      intros [st' c] (HI' & p' & n & Hc & Hn & Hb); cbn in *. subst c p'.
      rewrite len_app, len_span, len_from, sub_app_l by (rewrite ?len_span; lia).
      split_and!; try (done || lia).
      rewrite len_app, len_span, span_app by lia. by rewrite <-Hd, Ho'.
  - intros [st' r] Hoff [HI Hr]; cbn in HI, Hr |- *. subst r. split; [done|].
    cbn. by replace (Z.min (len p) (size - off)) with keep by lia.
Qed.
(** A buffer that one round fills. *)
Lemma read_chunks_single size st p off st' p' :
  0 <= off -> 0 < len p -> off + len p <= size -> size < 2 ^ 63 -> len p' = len p ->
  step st p off = Ret (st', Chunk p' (len p)) ->
  read_chunks size st p off = Ret (st', mkR p' (len p) None).
Proof.
  intros Ho Hp Hl Hs Hp' Hstep. unfold read_chunks.
  destruct_if; [lia|]. destruct_if; [lia|]. cbn zeta.
  rewrite (i64_id (size - off)) by lia. destruct_if; [lia|].
  rewrite slice_ok, sub_full by lia. cbn [mbind go_bind].
  assert (loop_body (Win st [] p off 0) = Ret (inl (Win st' p' [] (off + len p) (len p)))) as H1.
  { unfold loop_body. cbn [w_p w_st w_off w_done w_total]. destruct_if; [lia|].
    rewrite Hstep. cbn [mbind go_bind]. rewrite !slice_ok by lia. cbn [mbind go_bind mret go_ret app].
    rewrite <-Hp', sub_full, !i64_id by lia. do 3 f_equal.
    apply len_zero. rewrite len_sub; lia. }
  destruct (length p) as [|k] eqn:Ek; [unfold len in Hp; lia|].
  cbn [go_for]. rewrite H1. cbn [mbind go_bind].
  unfold loop_body. cbn [w_p w_total w_done w_st]. len_nils. cbn [Z.eqb mbind go_bind mret go_ret finish].
  cbn [w_total w_done w_st w_p r_buf r_n r_err]. destruct_if; [lia|].
  rewrite app_nil_r. unfold from. rewrite drop_ge by (unfold len; lia). by rewrite app_nil_r.
Qed.
End chunks.

(** ** Formats whose reader keeps no state *)

Definition stateless (step : list Z -> Z -> go chunk) (_ : unit) (p : list Z) (off : Z) : go (unit * chunk) :=
  c ← step p off; mret (tt, c).

Definition read_plain (step : list Z -> Z -> go chunk) (size : Z) : reader := fun p off =>
  '(_, r) ← read_chunks (stateless step) size tt p off; mret r.

Section plain.
Variable step : list Z -> Z -> go chunk.
Variable size : Z.

Definition plain_shape : Prop := forall p off,
  0 < len p -> 0 <= off -> off + len p <= size ->
  wp (step p off) (fun c =>
    match c with
    | Chunk p' n => len p' = len p /\ 0 < n <= len p /\ (bytes_ok p -> bytes_ok p')
    | ChunkErr p' _ => len p' = len p /\ (bytes_ok p -> bytes_ok p')
    | ChunkStop => True
    end) no_err.

(** A round over bytes of the device serves them. *)
Definition plain_reads (content : Z -> Z) : Prop := forall p off,
  0 < len p -> 0 <= off -> off + len p <= size ->
  exists n, step p off = Ret (Chunk (span content off n ++ from p n) n) /\ 0 < n <= len p.

Lemma read_plain_shape : size < 2 ^ 63 -> plain_shape -> ReaderShape (read_plain step size).
Proof.
  intros Hsz Hstep p off. unfold read_plain. apply wp_bind.
  eapply wp_mono; [apply (read_chunks_shape _ (fun _ => True))| |done]; try done.
  - intros [] q o _ Hp Ho Hl. unfold stateless. apply wp_bind.
    eapply wp_mono; [by apply Hstep| |done]. intros c Hc. cbn. auto.
  - intros [[] r] (_ & Hr). cbn in *. tauto.
Qed.

(** The exact result of a read at a non-negative offset. A read that crosses the
    end of the disk is short and returns a nil error. *)
Lemma read_plain_exact content p off :
  0 <= size < 2 ^ 63 -> plain_reads content -> 0 <= off ->
  let keep := Z.max 0 (Z.min (len p) (size - off)) in
  read_plain step size p off =
  Ret (mkR (span content off keep ++ from p keep) keep (if keep =? 0 then Some EOF else None)).
Proof.
  intros Hsz Hstep Ho keep. unfold read_plain.
  assert (step_reads (stateless step) (fun _ => True) size content) as Hs.
  { intros [] q o _ Hq Ho' Hl. destruct (Hstep q o Hq Ho' Hl) as (n & Hn & Hb).
    unfold stateless. rewrite Hn. cbn. split; [done|]. exists (span content o n ++ from q n), n. auto. }
  destruct (wp_no_err_Ret _ _ (read_chunks_reads _ _ _ _ tt p off Hsz Hs I Ho))
    as ([[] r] & -> & _ & Hr).
  cbn in *. by subst.
Qed.

Lemma read_plain_device content :
  0 <= size < 2 ^ 63 -> (forall i, is_byte (content i)) -> plain_shape -> plain_reads content ->
  Device (read_plain step size) size content.
Proof.
  intros Hsz Hc Hshape Hstep.
  split; [by apply read_plain_shape; [lia|]|done|done|]. intros p off Ho.
  pose proof (len_nonneg p). rewrite (read_plain_exact content) by done. cbn [wp].
  set (keep := Z.max _ _). unfold read_ok; cbn [r_buf r_n r_err].
  rewrite len_app, len_span, len_from, sub_app_l by (rewrite ?len_span; lia).
  destruct_if; split_and!; try (done || lia || auto); naive_solver lia.
Qed.
End plain.
