(* ===== verification/BlockMap.v ===== *)
(** * BlockMap: what a block-mapped disk format promises

    The abstract specification of the sparse formats: the disk is cut into units
    (blocks, sectors, clusters, grains) and a map says where each unit's bytes
    are. [read_cell] is the read of one piece of one unit; each format proves
    that a round of its [ReadAt] is this read for its own map. *)

From S2P Require Import Prelude Bytes ReaderAt Chunks.

(** Where the bytes of a unit are: nowhere (they read as zeros), at an offset of
    the file, or in a buffer that was decompressed. *)
Inductive cell :=
  | Hole
  | Stored (a : Z)
  | Inflated (data : list Z).

Section block_map.
Variable unit_size : Z.      (* bytes per unit *)
Variable cell_of : Z -> cell. (* the map, by unit number *)

(** The disk's bytes in terms of the file's. *)
Definition mapped (file : Z -> Z) (i : Z) : Z :=
  match cell_of (i / unit_size) with
  | Hole => 0
  | Stored a => file (a + i mod unit_size)
  | Inflated data => byte_at data (i mod unit_size)
  end.

(** Every stored byte of a disk of [size] bytes is in a file of [fsize] bytes. *)
Definition complete (size fsize : Z) : Prop := forall i a,
  0 <= i < size -> cell_of (i / unit_size) = Stored a -> 0 <= a /\ a + i mod unit_size < fsize.

(** Decompressed units are whole. *)
Definition inflated_ok : Prop := forall k data,
  cell_of k = Inflated data -> len data = unit_size /\ bytes_ok data.

(** The piece of the buffer one round fills. *)
Definition piece (p : list Z) (off : Z) : Z := Z.min (len p) (unit_size - off mod unit_size).

(** One round: [eof_ok] says whether the format ignores [io.EOF]. *)
Definition read_cell (ra : reader) (eof_ok : bool) (p : list Z) (off : Z) : go chunk :=
  let n := piece p off in
  match cell_of (off / unit_size) with
  | Hole => mret (Chunk (replicate (Z.to_nat n) 0 ++ from p n) n)
  | Stored a =>
      '(p', err) ← read_into ra p n (i64 (a + off mod unit_size));
      match err with
      | None => mret (Chunk p' n)
      | Some e => if eof_ok && bool_decide (e = EOF) then mret (Chunk p' n) else mret (ChunkErr p' e)
      end
  | Inflated data => mret (Chunk (data.[off mod unit_size, off mod unit_size + n] ++ from p n) n)
  end.

Hypothesis unit_pos : 0 < unit_size.

Lemma piece_bounds p off : 0 < len p ->
  0 < piece p off <= len p /\ off mod unit_size + piece p off <= unit_size /\
  0 <= off mod unit_size < unit_size.
Proof. intros. unfold piece. pose proof (Z.mod_pos_bound off unit_size). lia. Qed.

Lemma mapped_bytes file i :
  (forall a, is_byte (file a)) -> inflated_ok -> is_byte (mapped file i).
Proof.
  intros Hf Hinf. unfold mapped. destruct (cell_of _) as [|a|data] eqn:E; auto with bytes.
  apply byte_at_range. by apply Hinf in E as [_ ?].
Qed.

(** The bytes of a run inside one unit. *)
Lemma mapped_span file off n :
  inflated_ok -> 0 <= off -> 0 <= n -> off mod unit_size + n <= unit_size ->
  span (mapped file) off n =
  match cell_of (off / unit_size) with
  | Hole => replicate (Z.to_nat n) 0
  | Stored a => span file (a + off mod unit_size) n
  | Inflated data => data.[off mod unit_size, off mod unit_size + n]
  end.
Proof.
  intros Hinf Ho Hn Hm. pose proof (Z.mod_pos_bound off unit_size unit_pos).
  assert (forall i, 0 <= i < n -> mapped file (off + i) =
    match cell_of (off / unit_size) with
    | Hole => 0
    | Stored a => file (a + (off mod unit_size + i))
    | Inflated data => byte_at data (off mod unit_size + i)
    end) as Hi.
  { intros i Hi. unfold mapped.
    by destruct (Z_div_mod_add off i unit_size) as [-> ->]; [lia..|]. }
  destruct (cell_of _) as [|a|data] eqn:E.
  - apply span_const. intros i Hlt. replace i with (off + (i - off)) by lia. by apply Hi; lia.
  - apply span_congr. intros i Hlt. rewrite Hi by lia. f_equal. lia.
  - apply Hinf in E as [Hlen _]. rewrite sub_span by lia.
    apply span_congr. intros i Hlt. by rewrite Hi by lia.
Qed.

(** A round keeps the frame's shape, for any layer below. *)
Lemma read_cell_shape ra eof_ok p off : inflated_ok -> ReaderShape ra -> 0 < len p ->
  wp (read_cell ra eof_ok p off) (fun c =>
    match c with
    | Chunk p' n => len p' = len p /\ 0 < n <= len p /\ (bytes_ok p -> bytes_ok p')
    | ChunkErr p' _ => len p' = len p /\ (bytes_ok p -> bytes_ok p')
    | ChunkStop => True
    end) no_err.
Proof.
  intros Hinf Hra Hp. destruct (piece_bounds p off Hp) as (Hn & Hm & Hi).
  unfold read_cell. cbn zeta. set (n := piece p off) in *.
  destruct (cell_of _) as [|a|data] eqn:E.
  - cbn. rewrite len_app, len_replicate, len_from by lia. split_and!; try lia. auto with bytes.
  - apply wp_bind. apply wp_read_into; [done|lia|]. intros p' e Hl Hb.
    destruct e as [e|]; [destruct (eof_ok && _)|]; cbn; auto with lia.
  - apply Hinf in E as [Hlen Hd]. cbn. rewrite len_app, len_sub, len_from by lia.
    split_and!; try lia. auto with bytes.
Qed.

(** A round over bytes of the disk serves them. *)
Lemma read_cell_reads ra eof_ok size fsize file p off :
  inflated_ok -> Device ra fsize file -> complete size fsize ->
  0 < len p -> 0 <= off -> off + len p <= size ->
  exists n, read_cell ra eof_ok p off = Ret (Chunk (span (mapped file) off n ++ from p n) n) /\
            0 < n <= len p.
Proof.
  intros Hinf Hra Hc Hp Ho Hl. destruct (piece_bounds p off Hp) as (Hn & Hm & Hi).
  exists (piece p off). split; [|lia].
  rewrite mapped_span by (done || lia). unfold read_cell. cbn zeta. set (n := piece p off) in *.
  destruct (cell_of _) as [|a|data] eqn:E; [done| |done].
  destruct (Hc off a ltac:(lia) E) as [Ha _].
  destruct (Z_div_mod_add off (n - 1) unit_size) as [Hdiv Hmod]; [lia..|].
  destruct (Hc (off + (n - 1)) a) as [_ Hend]; [lia|by rewrite Hdiv|]. rewrite Hmod in Hend.
  pose proof dev_size. rewrite i64_id by lia.
  by rewrite (read_into_full ra fsize file) by (done || lia).
Qed.

(** A format whose rounds are [read_cell] is the mapped device. *)
Lemma plain_cell_shape step ra eof_ok size :
  inflated_ok -> ReaderShape ra ->
  (forall p off, 0 < len p -> 0 <= off -> off + len p <= size -> step p off = read_cell ra eof_ok p off) ->
  plain_shape step size.
Proof. intros Hinf Hra Hs p off Hp Ho Hl. rewrite Hs by lia. by apply read_cell_shape. Qed.

Lemma plain_cell_reads step ra eof_ok size fsize file :
  inflated_ok -> Device ra fsize file -> complete size fsize ->
  (forall p off, 0 < len p -> 0 <= off -> off + len p <= size -> step p off = read_cell ra eof_ok p off) ->
  plain_reads step size (mapped file).
Proof.
  intros Hinf Hra Hc Hs p off Hp Ho Hl. rewrite Hs by lia. by apply (read_cell_reads _ _ size fsize).
Qed.

Lemma plain_cell_device step ra eof_ok size fsize file :
  0 <= size < 2 ^ 63 -> inflated_ok -> Device ra fsize file -> complete size fsize ->
  (forall p off, 0 < len p -> 0 <= off -> off + len p <= size -> step p off = read_cell ra eof_ok p off) ->
  Device (read_plain step size) size (mapped file).
Proof.
  intros Hsz Hinf Hra Hc Hs. apply read_plain_device; [done| | |].
  - intros i. apply mapped_bytes; [apply dev_bytes|done].
  - apply (plain_cell_shape _ ra eof_ok); [done|apply dev_shape|done].
  - by apply (plain_cell_reads _ ra eof_ok _ fsize).
Qed.
End block_map.

(** A map with no decompressed cells. *)
Lemma inflated_ok_none unit_size cell_of :
  (forall k data, cell_of k <> Inflated data) -> inflated_ok unit_size cell_of.
Proof. intros H k data E. by apply H in E. Qed.
