(* ===== verification/Vdi.v ===== *)
(** * Vdi: VirtualBox disk images (vdi/vdi.go)

    [Open] parses the header and the block map; [ReadAt] translates each block
    through the map. The specification is the block map [cell_of]: a byte of the
    disk is a byte of the file, or zero. *)

From S2P Require Import Prelude Bytes ReaderAt Chunks BlockMap.

Definition vdiSignature : Z := 0xbeda107f.
Definition unallocated : Z := 0xffffffff.
Definition discarded : Z := 0xfffffffe.

Record Disk := mkDisk {
  ra : reader;
  blockSize : Z;   (* uint32 *)
  diskSize : Z;    (* int64 *)
  offsetData : Z;  (* uint32 *)
  bmap : list Z    (* []uint32 *)
}.

Definition Open (ra : reader) : go Disk :=
  hdr ← read_or ra "read vdi header: %w" (replicate 512 0) 0;
  if negb (le32 hdr 0x40 =? vdiSignature) then Err (Errorf "not a VDI image")
  else
  let blockExtra := le32 hdr 0x17c in
  if negb (blockExtra =? 0)
  then Err (Errorf "compressed VDI blocks (block_extra=%d) are not supported")
  else
  let blockSize := le32 hdr 0x178 in
  if blockSize =? 0 then Err (Errorf "invalid VDI block size 0")
  else
  let blocksInImage := le32 hdr 0x180 in
  let offsetBmap := i64 (le32 hdr 0x154) in
  let bmapBytes := i64 (i64 blocksInImage * 4) in
  bmapRaw ← make 0 1 bmapBytes;
  bmapRaw ← read_or ra "read vdi block map: %w" bmapRaw offsetBmap;
  bmap ← parse_words LE 4 (Z.to_nat blocksInImage) 0 bmapRaw;
  mret {| ra := ra;
          blockSize := blockSize;
          diskSize := i64 (le64 hdr 0x170);
          offsetData := le32 hdr 0x158;
          bmap := bmap |}.

Definition Size (d : Disk) : Z := diskSize d.

(** One round of the loop of [ReadAt]. *)
Definition read_block (d : Disk) (p : list Z) (off : Z) : go chunk :=
  let blockSize := i64 (blockSize d) in
  block ← div64 off blockSize;
  inBlock ← rem64 off blockSize;
  let n := len p in
  let n := if i64 (blockSize - inBlock) <? n then i64 (blockSize - inBlock) else n in
  entry ← if block <? len (bmap d) then index (bmap d) block else mret unallocated;
  if discarded <=? entry then
    p ← clear p n; mret (Chunk p n)
  else
    let dataOff := i64 (i64 (i64 (offsetData d) + i64 (i64 entry * blockSize)) + inBlock) in
    '(p, err) ← read_into (ra d) p n dataOff;
    match err with
    | Some e => mret (ChunkErr p e)
    | None => mret (Chunk p n)
    end.

Definition ReadAt (d : Disk) : reader := read_plain (read_block d) (diskSize d).

(** ** Specification *)

(** What [Open] guarantees of the disk it returns. *)
Definition wf (d : Disk) : Prop :=
  0 < blockSize d < 2 ^ 32 /\ 0 <= offsetData d < 2 ^ 32 /\ diskSize d < 2 ^ 63 /\
  len (bmap d) < 2 ^ 32 /\ Forall (fun e => 0 <= e < 2 ^ 32) (bmap d).

(** Where block [k] of the disk is. *)
Definition cell_of (d : Disk) (k : Z) : cell :=
  let entry := default unallocated (bmap d !! Z.to_nat k) in
  if discarded <=? entry then Hole else Stored (offsetData d + entry * blockSize d).

(** The disk's bytes in terms of the file's. *)
Definition content (d : Disk) (file : Z -> Z) : Z -> Z := mapped (blockSize d) (cell_of d) file.

(** The header fields of an image file, and the image being acceptable. *)
Definition header_ok (fsize : Z) (file : Z -> Z) : Prop :=
  let hdr := span file 0 512 in
  512 <= fsize /\ le32 hdr 0x40 = vdiSignature /\ le32 hdr 0x17c = 0 /\ le32 hdr 0x178 <> 0 /\
  0 < le32 hdr 0x180 /\ le32 hdr 0x154 + 4 * le32 hdr 0x180 <= fsize.

(** ** Lemmas *)

Lemma vdi_wf_entry d i : wf d -> 0 <= i -> 0 <= default unallocated (bmap d !! Z.to_nat i) < 2 ^ 32.
Proof.
  intros (_ & _ & _ & _ & Hb) Hi. destruct (bmap d !! Z.to_nat i) eqn:E; cbn; [|unfold unallocated; lia].
  eapply Forall_lookup_1 in Hb; eauto.
Qed.

Lemma vdi_entry_lookup d block : 0 <= block ->
  (if block <? len (bmap d) then index (bmap d) block else mret unallocated) =
  Ret (default unallocated (bmap d !! Z.to_nat block)).
Proof.
  intros Hb. destruct_if.
  - by destruct (index_ok (bmap d) block) as (e & -> & ->); [lia|].
  - rewrite lookup_ge_None_2; [done|]. unfold len in *. lia.
Qed.

Lemma vdi_no_inflated d : inflated_ok (blockSize d) (cell_of d).
Proof. apply inflated_ok_none. intros k data. unfold cell_of. by destruct_if. Qed.

(** A round of the loop is a read of the block map. *)
Lemma vdi_read_block_eq d p off : wf d -> 0 < len p -> 0 <= off -> off + len p <= diskSize d ->
  read_block d p off = read_cell (blockSize d) (cell_of d) (ra d) false p off.
Proof.
  intros Hwf Hp Ho Hl. pose proof Hwf as (Hbs & Hod & Hds & _ & _).
  destruct (piece_bounds (blockSize d) (proj1 Hbs) p off Hp) as (Hn & Hm & Hi).
  assert (0 <= off / blockSize d) by (apply Z.div_pos; lia).
  pose proof (vdi_wf_entry d (off / blockSize d) Hwf ltac:(lia)) as He.
  unfold read_block, read_cell, cell_of. cbn zeta. set (n := piece _ p off) in *.
  rewrite !(i64_id (blockSize d)), div64_ok, rem64_ok by lia.
  cbn [mbind go_bind]. rewrite !(i64_id (blockSize d - _)) by lia.
  replace (if _ <? len p then _ else _) with n by (unfold n, piece; destruct_if; lia).
  rewrite vdi_entry_lookup by lia. cbn [mbind go_bind]. destruct_if.
  - by rewrite clear_ok by lia.
  - rewrite !(i64_id (default _ _)), !(i64_id (offsetData d)) by lia.
    autorewrite with i64. by destruct (read_into _ _ _ _) as [[p' [e|]]| | |].
Qed.

(** ** Properties *)

(** Opening any byte source either fails with an error or gives a disk whose
    block size is positive and whose tables hold 32-bit entries; it never panics
    and never asks for more memory than the platform can address. *)
Theorem vdi_open_safe ra : ReaderShape ra -> wp (Open ra) wf (fun _ => True).
Proof.
  intros Hra. unfold Open. apply wp_bind. apply wp_read_or; [done| |done].
  intros hdr _ Hb. specialize (Hb (bytes_ok_zeros _)).
  pose proof (le32_range hdr 0x178 Hb). pose proof (le32_range hdr 0x180 Hb).
  pose proof (le32_range hdr 0x158 Hb).
  destruct_if; [|done]. destruct_if; [|done]. destruct_if; [done|].
  rewrite (i64_id (le32 hdr 0x180)), (i64_id (le32 hdr 0x180 * 4)) by lia. unfold make, maxAlloc.
  destruct_if; [lia|]. destruct_if; [lia|]. cbn [mbind go_bind].
  apply wp_bind. apply wp_read_or; [done| |done]. intros raw Hlraw Hraw.
  rewrite len_replicate in Hlraw.
  rewrite (parse_words_ok LE 4) by lia. cbn. unfold wf; cbn. pose proof (i64_range (le64 hdr 0x170)).
  rewrite len_words. split_and!; try lia.
  apply words_range; [|by apply Hraw, bytes_ok_zeros].
  intros l Hl1 Hl2. by apply (LE_le_range l 4).
Qed.

(** An image whose header carries the signature, no compressed blocks and a
    block map inside the file opens, and the disk holds the header's geometry and
    the little-endian words of the block map. *)
Theorem vdi_open_ok ra fsize file : Device ra fsize file -> header_ok fsize file ->
  let hdr := span file 0 512 in
  Open ra = Ret {| ra := ra;
                   blockSize := le32 hdr 0x178;
                   diskSize := i64 (le64 hdr 0x170);
                   offsetData := le32 hdr 0x158;
                   bmap := words LE 4 (Z.to_nat (le32 hdr 0x180))
                             (span file (le32 hdr 0x154) (4 * le32 hdr 0x180)) |}.
Proof.
  intros Hra (Hsz & Hsig & Hextra & Hbs & Hn & Hmap). pose proof dev_bytes as Hf.
  unfold Open. rewrite (read_or_full ra fsize file) by reads. cbn [mbind go_bind].
  change (len (replicate 512 0)) with 512. cbn zeta in *. set (hdr := span file 0 512) in *.
  assert (bytes_ok hdr) as Hb by (by apply span_bytes).
  pose proof (le32_range hdr 0x154 Hb). pose proof (le32_range hdr 0x180 Hb).
  rewrite Hsig, Hextra, Z.eqb_refl. cbn [negb Z.eqb].
  rewrite (proj2 (Z.eqb_neq _ _) Hbs).
  rewrite (i64_id (le32 hdr 0x180)), (i64_id (le32 hdr 0x180 * 4)), (i64_id (le32 hdr 0x154)) by lia.
  unfold make, maxAlloc. destruct_if; [lia|]. destruct_if; [lia|]. cbn [mbind go_bind].
  rewrite (read_or_full ra fsize file) by reads. cbn [mbind go_bind mret go_ret].
  rewrite len_replicate. replace (Z.of_nat (Z.to_nat (le32 hdr 0x180 * 4))) with (4 * le32 hdr 0x180) by lia.
  by rewrite (parse_words_ok LE 4) by (rewrite len_span; lia).
Qed.

(** A read of an opened disk never panics and always terminates, keeps the
    length of the caller's buffer and reports a count within it, whatever the
    file below returns. *)
Theorem vdi_read_safe d : wf d -> ReaderShape (ra d) -> ReaderShape (ReadAt d).
Proof.
  intros Hwf Hra. apply read_plain_shape; [apply Hwf|].
  apply (plain_cell_shape (blockSize d) (cell_of d) (proj1 (proj1 Hwf)) _ (ra d) false);
    [apply vdi_no_inflated|done|intros; by apply vdi_read_block_eq].
Qed.

(** Reading refines the block map: over an image that holds all its allocated
    blocks, [ReadAt] is a device of [diskSize] bytes whose byte [i] is the byte of
    the file at [offsetData + entry * blockSize + i mod blockSize] for the map's
    entry of its block, or zero where the block is unallocated or discarded. *)
Theorem vdi_read_refines d fsize file :
  wf d -> 0 <= diskSize d -> Device (ra d) fsize file ->
  complete (blockSize d) (cell_of d) (diskSize d) fsize ->
  Device (ReadAt d) (diskSize d) (content d file).
Proof.
  intros Hwf Hd Hra Hc. pose proof Hwf as (Hbs & _ & Hds & _).
  apply (plain_cell_device _ _ (proj1 Hbs) _ (ra d) false _ fsize);
    [lia|apply vdi_no_inflated|done|done|intros; by apply vdi_read_block_eq].
Qed.

(** A read that crosses the end of the disk returns the bytes up to the end
    with a nil error: less than the buffer and no error, which the contract of
    [io.ReaderAt] excludes. *)
Theorem vdi_short_read_returns_nil d fsize file p off :
  wf d -> Device (ra d) fsize file -> complete (blockSize d) (cell_of d) (diskSize d) fsize ->
  0 <= off < diskSize d -> diskSize d < off + len p ->
  ReadAt d p off =
  Ret (mkR (span (content d file) off (diskSize d - off) ++ from p (diskSize d - off))
           (diskSize d - off) None).
Proof.
  intros Hwf Hra Hc Ho Hp. pose proof Hwf as (Hbs & _ & Hds & _). unfold ReadAt.
  rewrite (read_plain_exact _ _ (content d file)); [|lia| |lia].
  - replace (Z.max 0 _) with (diskSize d - off) by lia. destruct_if; [lia|done].
  - apply (plain_cell_reads _ _ (proj1 Hbs) _ (ra d) false _ fsize);
      [apply vdi_no_inflated|done|done|intros; by apply vdi_read_block_eq].
Qed.

(** ** A sample image

    Three blocks of 4 bytes: stored, unallocated, and stored out of order; the
    disk is 10 bytes long. *)

Definition sample_header : list Z :=
  let h := replicate 512 0 in
  let h := patch h 0x40 (put_le 4 vdiSignature) in
  let h := patch h 0x154 (put_le 4 512) in
  let h := patch h 0x158 (put_le 4 524) in
  let h := patch h 0x170 (put_le 8 10) in
  let h := patch h 0x178 (put_le 4 4) in
  patch h 0x180 (put_le 4 3).

Definition sample_image : list Z :=
  sample_header ++ put_le 4 1 ++ put_le 4 unallocated ++ put_le 4 0 ++ [1; 2; 3; 4; 5; 6; 7; 8].

Definition sample_disk : Disk :=
  mkDisk (file_reader sample_image) 4 10 524 [1; unallocated; 0].

Lemma vdi_sample_bytes : bytes_ok sample_image.
Proof. apply bytes_okb_ok. by vm_compute. Defined.

Lemma vdi_sample_device : Device (file_reader sample_image) (len sample_image) (file_content sample_image).
Proof. apply file_device; [apply vdi_sample_bytes|by vm_compute]. Defined.

Lemma vdi_sample_wf : wf sample_disk.
Proof.
  unfold wf, unallocated; cbn [sample_disk blockSize offsetData diskSize bmap].
  rewrite !len_cons, !Forall_cons. change (len (@nil Z)) with 0. split_and?; (lia || done).
Defined.

Lemma vdi_sample_complete : complete 4 (cell_of sample_disk) 10 (len sample_image).
Proof.
  intros i a Hi. assert (0 <= i / 4 < 3) by (split; [apply Z.div_pos|apply Z.div_lt_upper_bound]; lia).
  pose proof (Z.mod_pos_bound i 4). change (len sample_image) with 532. unfold cell_of.
  assert (i / 4 = 0 \/ i / 4 = 1 \/ i / 4 = 2) as [E|[E|E]] by lia; rewrite E; cbn; intros [= <-]; lia.
Defined.

Lemma vdi_open_safe_witness : wp (Open (file_reader sample_image)) wf (fun _ => True).
Proof. apply vdi_open_safe. apply file_shape, vdi_sample_bytes. Defined.

Lemma vdi_open_ok_witness :
  exists d, Open (file_reader sample_image) = Ret d /\ blockSize d = 4 /\ diskSize d = 10 /\
            bmap d = [1; unallocated; 0].
Proof.
  eexists. split.
  - apply (vdi_open_ok _ (len sample_image) (file_content sample_image)); [apply vdi_sample_device|].
    unfold header_ok. vm_compute. split_and!; congruence.
  - split_and!; by vm_compute.
Defined.

Lemma vdi_read_safe_witness : ReaderShape (ReadAt sample_disk).
Proof. apply vdi_read_safe; [apply vdi_sample_wf|apply file_shape, vdi_sample_bytes]. Defined.

Lemma vdi_read_refines_witness :
  Device (ReadAt sample_disk) 10 (content sample_disk (file_content sample_image)) /\
  span (content sample_disk (file_content sample_image)) 0 10 = [5; 6; 7; 8; 0; 0; 0; 0; 1; 2].
Proof.
  split; [|by vm_compute].
  apply (vdi_read_refines sample_disk (len sample_image));
    [apply vdi_sample_wf|by vm_compute|apply vdi_sample_device|apply vdi_sample_complete].
Defined.

Lemma vdi_short_read_returns_nil_witness :
  ReadAt sample_disk [9; 9; 9; 9] 8 = Ret (mkR [1; 2; 9; 9] 2 None).
Proof.
  rewrite (vdi_short_read_returns_nil sample_disk (len sample_image) (file_content sample_image));
    [by vm_compute|apply vdi_sample_wf|apply vdi_sample_device|apply vdi_sample_complete|by vm_compute|by vm_compute].
Defined.
