(* ===== verification/Parallels.v ===== *)
(** * Parallels: Parallels disk images (parallels/parallels.go)

    [Open] parses the header and the block-allocation table; [ReadAt] goes one
    sector at a time through the table. *)

From S2P Require Import Prelude Bytes ReaderAt Chunks BlockMap.

Definition sectorSize : Z := 512.
Definition headerVer : Z := 2.
Definition headerSize : Z := 64.

Definition bytes_of (s : string) : list Z :=
  (fun c => Z.of_N (Ascii.N_of_ascii c)) <$> String.list_ascii_of_string s.

Definition magicPlain : list Z := bytes_of "WithoutFreeSpace".
Definition magicExt : list Z := bytes_of "WithouFreSpacExt".

Record Disk := mkDisk {
  ra : reader;
  tracks : Z;    (* uint32, sectors per cluster *)
  offMult : Z;   (* uint32, bat entry -> sector multiplier *)
  batSize : Z;   (* uint32 *)
  bat : list Z;  (* []uint32 *)
  diskSize : Z   (* int64 *)
}.

Definition Open (ra : reader) : go Disk :=
  hdr ← make 0 1 headerSize;
  hdr ← read_or ra "read parallels header: %w" hdr 0;
  let magic := hdr.[0, 16] in
  '(offMult, diskSize) ←
    (if bool_decide (magic = magicPlain) then
       mret (1, i64 (i64 (u32 (le64 hdr 36)) * sectorSize))
     else if bool_decide (magic = magicExt) then
       mret (le32 hdr 28, i64 (i64 (le64 hdr 36) * sectorSize))
     else Err (Errorf "not a Parallels disk image (magic %q)"));
  if negb (le32 hdr 16 =? headerVer) then Err (Errorf "unsupported Parallels version %d")
  else
  let tracks := le32 hdr 28 in
  let batSize := le32 hdr 32 in
  if tracks =? 0 then Err (Errorf "invalid Parallels tracks 0")
  else
  _ ← make 0 4 batSize;
  buf ← make 0 1 (u32 (batSize * 4));
  buf ← read_or ra "read parallels bat: %w" buf headerSize;
  bat ← parse_words LE 4 (Z.to_nat batSize) 0 buf;
  mret {| ra := ra; tracks := tracks; offMult := offMult; batSize := batSize; bat := bat;
          diskSize := diskSize |}.

Definition Size (d : Disk) : Z := diskSize d.

(** One round of the loop of [ReadAt]: at most one sector. *)
Definition read_sector (d : Disk) (p : list Z) (off : Z) : go chunk :=
  let tracks := i64 (tracks d) in
  sector ← div64 off sectorSize;
  inSector ← rem64 off sectorSize;
  cluster ← div64 sector tracks;
  inCluster ← rem64 sector tracks;
  let n := i64 (sectorSize - inSector) in
  let n := if len p <? n then len p else n in
  bat ← if cluster <? i64 (batSize d) then index (bat d) cluster else mret 0;
  if bat =? 0 then
    p ← clear p n; mret (Chunk p n)
  else
    let hostSector := i64 (i64 (i64 bat * i64 (offMult d)) + inCluster) in
    '(p, err) ← read_into (ra d) p n (i64 (i64 (hostSector * sectorSize) + inSector));
    match err with
    | Some e => mret (ChunkErr p e)
    | None => mret (Chunk p n)
    end.

Definition ReadAt (d : Disk) : reader := read_plain (read_sector d) (diskSize d).

(** ** Specification *)

Definition wf (d : Disk) : Prop :=
  0 < tracks d < 2 ^ 32 /\ 0 <= offMult d < 2 ^ 32 /\ diskSize d < 2 ^ 63 /\
  len (bat d) = batSize d /\ batSize d < 2 ^ 32 /\ Forall (fun e => 0 <= e < 2 ^ 32) (bat d).

(** Where sector [k] of the disk is: cluster [k / tracks] of the table. *)
Definition cell_of (d : Disk) (k : Z) : cell :=
  let e := default 0 (bat d !! Z.to_nat (k / tracks d)) in
  if e =? 0 then Hole else Stored ((e * offMult d + k mod tracks d) * sectorSize).

Definition content (d : Disk) (file : Z -> Z) : Z -> Z := mapped sectorSize (cell_of d) file.

(** The header of an image [Open] accepts: one of the two magics, version 2, a
    positive cluster size. *)
Definition header_ok (hdr : list Z) : Prop :=
  (hdr.[0, 16] = magicPlain \/ hdr.[0, 16] = magicExt) /\ le32 hdr 16 = headerVer /\ le32 hdr 28 <> 0.

(** The multiplier and the size each variant derives from its header. *)
Definition geometry (hdr : list Z) : Z * Z :=
  if bool_decide (hdr.[0, 16] = magicPlain)
  then (1, i64 (i64 (u32 (le64 hdr 36)) * sectorSize))
  else (le32 hdr 28, i64 (i64 (le64 hdr 36) * sectorSize)).

(** ** Lemmas *)

Lemma par_no_inflated d : inflated_ok sectorSize (cell_of d).
Proof. apply inflated_ok_none. intros k data. unfold cell_of. by destruct_if. Qed.

Lemma par_wf_entry d i : wf d -> 0 <= default 0 (bat d !! i) < 2 ^ 32.
Proof.
  intros (_ & _ & _ & _ & _ & Hb). destruct (bat d !! i) eqn:E; cbn; [|lia].
  eapply Forall_lookup_1 in Hb; eauto.
Qed.

Lemma par_bat_lookup d cluster : wf d -> 0 <= cluster ->
  (if cluster <? i64 (batSize d) then index (bat d) cluster else mret 0) =
  Ret (default 0 (bat d !! Z.to_nat cluster)).
Proof.
  intros (_ & _ & _ & Hl & Hs & _) Hc. pose proof (len_nonneg (bat d)). rewrite i64_id by lia.
  destruct_if.
  - by destruct (index_ok (bat d) cluster) as (e & -> & ->); [lia|].
  - rewrite lookup_ge_None_2; [done|]. unfold len in *. lia.
Qed.

(** A round of the loop is a read of the sector map. *)
Lemma par_read_sector_eq d p off : wf d -> 0 < len p -> 0 <= off -> off + len p <= diskSize d ->
  read_sector d p off = read_cell sectorSize (cell_of d) (ra d) false p off.
Proof.
  intros Hwf Hp Ho Hl. pose proof Hwf as (Ht & Hom & Hds & _).
  destruct (piece_bounds sectorSize ltac:(done) p off Hp) as (Hn & Hm & Hi).
  assert (0 <= off / sectorSize <= off) as Hsec.
  { unfold sectorSize. pose proof (Z.div_pos off 512). pose proof (Z.div_le_upper_bound off 512 off). lia. }
  assert (0 <= off / sectorSize / tracks d) by (apply Z.div_pos; lia).
  pose proof (par_wf_entry d (Z.to_nat (off / sectorSize / tracks d)) Hwf) as He.
  unfold read_sector, read_cell, cell_of. cbn zeta. set (n := piece _ _ _) in *.
  rewrite !(i64_id (tracks d)), (div64_ok off), (rem64_ok off) by (unfold sectorSize; lia).
  cbn [mbind go_bind]. rewrite div64_ok, rem64_ok by lia. cbn [mbind go_bind].
  rewrite !(i64_id (sectorSize - _)) by (unfold sectorSize in *; lia).
  replace (if len p <? _ then _ else _) with n by (unfold n, piece; destruct_if; lia).
  rewrite par_bat_lookup by done. cbn [mbind go_bind]. destruct_if.
  - by rewrite clear_ok by lia.
  - rewrite !(i64_id (default _ _)), !(i64_id (offMult d)) by lia.
    autorewrite with i64. by destruct (read_into _ _ _ _) as [[p' [e|]]| | |].
Qed.

Lemma geometry_bounds hdr : bytes_ok hdr ->
  0 <= (geometry hdr).1 < 2 ^ 32 /\ (geometry hdr).2 < 2 ^ 63.
Proof.
  intros Hb. unfold geometry. destruct_if; cbn [fst snd].
  - pose proof (i64_range (i64 (u32 (le64 hdr 36)) * sectorSize)). lia.
  - pose proof (i64_range (i64 (le64 hdr 36) * sectorSize)). pose proof (le32_range hdr 28 Hb). lia.
Qed.

(** The part of [Open] after the header is read and before the table is. *)
Definition variant (hdr : list Z) : go (Z * Z) :=
  let magic := hdr.[0, 16] in
  if bool_decide (magic = magicPlain) then
    mret (1, i64 (i64 (u32 (le64 hdr 36)) * sectorSize))
  else if bool_decide (magic = magicExt) then
    mret (le32 hdr 28, i64 (i64 (le64 hdr 36) * sectorSize))
  else Err (Errorf "not a Parallels disk image (magic %q)").

Lemma variant_ok hdr : hdr.[0, 16] = magicPlain \/ hdr.[0, 16] = magicExt ->
  variant hdr = Ret (geometry hdr).
Proof.
  intros Hm. unfold variant, geometry. case_bool_decide; [done|].
  by rewrite bool_decide_eq_true_2 by tauto.
Qed.

Lemma variant_bounds hdr : bytes_ok hdr ->
  wp (variant hdr) (fun g => 0 <= g.1 < 2 ^ 32 /\ g.2 < 2 ^ 63) (fun _ => True).
Proof.
  intros Hb. pose proof (geometry_bounds hdr Hb) as Hg. unfold geometry in Hg. unfold variant.
  case_bool_decide; [done|]. by case_bool_decide.
Qed.

(** [Open] past its header checks. *)
Lemma par_open_tables ra fsize file : Device ra fsize file ->
  let hdr := span file 0 64 in
  let n := le32 hdr 32 in
  64 <= fsize -> header_ok hdr -> 64 + u32 (n * 4) <= fsize -> 0 < u32 (n * 4) ->
  Open ra =
    (bat ← parse_words LE 4 (Z.to_nat n) 0 (span file 64 (u32 (n * 4)));
     mret (mkDisk ra (le32 hdr 28) (geometry hdr).1 n bat (geometry hdr).2)).
Proof.
  intros Hra hdr n Hsz (Hm & Hv & Ht) Hend Hpos. unfold Open.
  change (make 0 1 headerSize) with (@Ret (list Z) (replicate 64 0)). cbn [mbind go_bind].
  rewrite (read_or_full ra fsize file) by (done || lia). cbn [mbind go_bind].
  change (span file 0 _) with hdr. fold (variant hdr). rewrite variant_ok by done.
  cbn [mbind go_bind]. destruct (geometry hdr) as [om ds]. rewrite Hv. cbn [fst snd].
  change (negb (headerVer =? headerVer)) with false. cbn iota.
  rewrite (proj2 (Z.eqb_neq _ _) Ht). fold n.
  assert (bytes_ok hdr) as Hb by (apply span_bytes, dev_bytes).
  pose proof (le32_range hdr 32 Hb) as Hn. fold n in Hn.
  pose proof (wrap_u_range 32 (n * 4)).
  unfold make, maxAlloc. do 4 (destruct_if; [lia|]; cbn [mbind go_bind orb]).
  rewrite (read_or_full ra fsize file) by (unfold headerSize; reads). cbn [mbind go_bind].
  rewrite len_replicate, Z2Nat.id by lia. done.
Qed.

(** ** Properties *)

(** Opening any byte source whose header announces fewer than 2^30 table
    entries never panics: it fails with an error or gives a well-formed disk, with
    a positive cluster size and a table of exactly [batSize] 32-bit entries. *)
Theorem par_open_safe ra : ReaderShape ra ->
  (forall hdr, read_or ra "read parallels header: %w" (replicate 64 0) 0 = Ret hdr -> le32 hdr 32 < 2 ^ 30) ->
  wp (Open ra) wf (fun _ => True).
Proof.
  intros Hra Hbat. unfold Open.
  change (make 0 1 headerSize) with (@Ret (list Z) (replicate 64 0)). cbn [mbind go_bind].
  apply wp_bind. apply wp_read_or_eq; [done| |done].
  intros hdr Hhdr _ Hb. apply Hbat in Hhdr. specialize (Hb (bytes_ok_zeros 64)). fold (variant hdr).
  apply wp_bind. eapply wp_mono; [by apply variant_bounds| |done].
  intros [om ds] [Hom Hds]. cbn [fst snd] in Hom, Hds.
  destruct_if; [|done]. destruct_if; [done|].
  pose proof (le32_range hdr 32 Hb). pose proof (le32_range hdr 28 Hb).
  unfold make, maxAlloc. rewrite wrap_u_id by lia.
  do 4 (destruct_if; [lia|]; cbn [mbind go_bind orb]).
  apply wp_bind. apply wp_read_or; [done| |done]. intros buf Hl Hbuf.
  rewrite len_replicate in Hl. rewrite (parse_words_ok LE 4) by lia. cbn.
  unfold wf; cbn. rewrite len_words. split_and!; try lia.
  apply words_range; [|by apply Hbuf, bytes_ok_zeros].
  intros l Hl1 Hl2. by apply (LE_le_range l 4).
Qed.

(** An image with one of the two magics, version 2, a positive cluster size
    and a table of fewer than 2^30 entries inside the file opens with the header's
    geometry: for the plain magic the multiplier is 1 and the size is the low 32
    bits of the sector count, for the extended one the multiplier is the cluster
    size and the size has all 64 bits. *)
Theorem par_open_ok ra fsize file : Device ra fsize file ->
  let hdr := span file 0 64 in
  let n := le32 hdr 32 in
  header_ok hdr -> 0 < n < 2 ^ 30 -> 64 + 4 * n <= fsize ->
  Open ra = Ret (mkDisk ra (le32 hdr 28) (geometry hdr).1 n
                   (words LE 4 (Z.to_nat n) (span file 64 (4 * n))) (geometry hdr).2).
Proof.
  intros Hra hdr n Hh Hn Hend.
  rewrite (par_open_tables ra fsize file); fold hdr; fold n; rewrite ?wrap_u_id by lia; try (done || lia).
  rewrite (Z.mul_comm n 4), (parse_words_ok LE 4) by (rewrite len_span; lia). done.
Qed.

(** The table buffer is sized with a 32-bit product: when the header announces
    2^30 entries or more, [batSize * 4] wraps, the buffer is too short for the
    table and [Open] panics with a slice out of range (unless the product is 0,
    where the read of an empty buffer decides). *)
Theorem par_open_panics ra fsize file : Device ra fsize file ->
  let hdr := span file 0 64 in
  let n := le32 hdr 32 in
  64 <= fsize -> header_ok hdr -> 2 ^ 30 <= n -> 0 < u32 (n * 4) -> 64 + u32 (n * 4) <= fsize ->
  Open ra = Panic SliceOutOfRange.
Proof.
  intros Hra hdr n Hsz Hh Hn Hpos Hend.
  rewrite (par_open_tables ra fsize file) by done. fold hdr. fold n.
  rewrite parse_words_short; [done|lia|lia|lia|].
  pose proof (wrap_u_range 32 (n * 4)). rewrite len_span by lia. lia.
Qed.

(** Reads of an opened disk never panic and always terminate, whatever the
    file below returns. *)
Theorem par_read_safe d : wf d -> ReaderShape (ra d) -> ReaderShape (ReadAt d).
Proof.
  intros Hwf Hra. apply read_plain_shape; [apply Hwf|].
  apply (plain_cell_shape sectorSize (cell_of d) ltac:(done) _ (ra d) false);
    [apply par_no_inflated|done|intros; by apply par_read_sector_eq].
Qed.

(** Reading refines the allocation table: over a complete image the disk's
    sector [k] is sector [bat[k / tracks] * offMult + k mod tracks] of the file, or
    zeros where the table holds 0. *)
Theorem par_read_refines d fsize file :
  wf d -> 0 <= diskSize d -> Device (ra d) fsize file ->
  complete sectorSize (cell_of d) (diskSize d) fsize ->
  Device (ReadAt d) (diskSize d) (content d file).
Proof.
  intros Hwf Hd Hra Hc. pose proof Hwf as (_ & _ & Hds & _).
  apply (plain_cell_device sectorSize (cell_of d) ltac:(done) _ (ra d) false _ fsize);
    [lia|apply par_no_inflated|done|done|intros; by apply par_read_sector_eq].
Qed.

(** ** A sample image: four clusters of one sector, two of them stored *)

Definition sample_header : list Z :=
  let h := magicExt ++ replicate 48 0 in
  let h := patch h 16 (put_le 4 headerVer) in
  let h := patch h 28 (put_le 4 1) in
  let h := patch h 32 (put_le 4 4) in
  patch h 36 (put_le 8 4).

Definition sample_image : list Z :=
  patch sample_header 36 (put_le 8 4) ++ put_le 4 2 ++ put_le 4 0 ++ put_le 4 1 ++ put_le 4 0 ++
  replicate 432 0 ++ replicate 512 7 ++ replicate 512 8.

Definition sample_disk : Disk := mkDisk (file_reader sample_image) 1 1 4 [2; 0; 1; 0] 2048.

(** The same header announcing 2^30 + 1 entries. *)
Definition huge_image : list Z := patch sample_image 32 (put_le 4 (2 ^ 30 + 1)).

Lemma par_sample_bytes : bytes_ok sample_image.
Proof. apply bytes_okb_ok. by vm_compute. Defined.

Lemma par_sample_device : Device (file_reader sample_image) (len sample_image) (file_content sample_image).
Proof. apply file_device; [apply par_sample_bytes|by vm_compute]. Defined.

Lemma par_huge_device : Device (file_reader huge_image) (len huge_image) (file_content huge_image).
Proof. apply file_device; [apply bytes_okb_ok; by vm_compute|by vm_compute]. Defined.

Lemma par_sample_wf : wf sample_disk.
Proof.
  unfold wf; cbn [sample_disk tracks offMult diskSize batSize bat].
  rewrite !len_cons, !Forall_cons. change (len (@nil Z)) with 0. split_and?; (lia || done).
Defined.

Lemma par_sample_complete : complete sectorSize (cell_of sample_disk) 2048 (len sample_image).
Proof.
  intros i a Hi. unfold sectorSize.
  assert (0 <= i / 512 < 4) by (split; [apply Z.div_pos|apply Z.div_lt_upper_bound]; lia).
  pose proof (Z.mod_pos_bound i 512). change (len sample_image) with 1536. unfold cell_of.
  change (tracks sample_disk) with 1. change (offMult sample_disk) with 1.
  rewrite Z.div_1_r, Z.mod_1_r. unfold sectorSize.
  assert (i / 512 = 0 \/ i / 512 = 1 \/ i / 512 = 2 \/ i / 512 = 3) as [E|[E|[E|E]]] by lia;
    rewrite E; cbn; intros [= <-]; lia.
Defined.

Lemma par_open_safe_witness : wp (Open (file_reader sample_image)) wf (fun _ => True).
Proof.
  apply par_open_safe; [apply file_shape, par_sample_bytes|].
  intros hdr H. assert (hdr = sample_header) as -> by (vm_compute in H; by injection H as <-).
  by vm_compute.
Defined.

Lemma par_open_ok_witness :
  exists d, Open (file_reader sample_image) = Ret d /\ tracks d = 1 /\ bat d = [2; 0; 1; 0] /\ diskSize d = 2048.
Proof.
  eexists. split.
  - apply (par_open_ok _ (len sample_image) (file_content sample_image)); [apply par_sample_device|..].
    + split; [right; by vm_compute|split; by vm_compute].
    + by vm_compute.
    + vm_compute; congruence.
  - split_and!; by vm_compute.
Defined.

Lemma par_open_panics_witness : Open (file_reader huge_image) = Panic SliceOutOfRange.
Proof.
  apply (par_open_panics _ (len huge_image) (file_content huge_image)); [apply par_huge_device|..].
  - vm_compute; congruence.
  - split; [right; by vm_compute|split; by vm_compute].
  - vm_compute; congruence.
  - by vm_compute.
  - vm_compute; congruence.
Defined.

Lemma par_read_safe_witness : ReaderShape (ReadAt sample_disk).
Proof. apply par_read_safe; [apply par_sample_wf|apply file_shape, par_sample_bytes]. Defined.

Lemma par_read_refines_witness :
  Device (ReadAt sample_disk) 2048 (content sample_disk (file_content sample_image)) /\
  span (content sample_disk (file_content sample_image)) 510 4 = [8; 8; 0; 0].
Proof.
  split; [|by vm_compute].
  apply (par_read_refines sample_disk (len sample_image));
    [apply par_sample_wf|by vm_compute|apply par_sample_device|apply par_sample_complete].
Defined.

(** A read across the end of the disk: fewer bytes than the buffer holds, and no error. *)
Example par_short_read_nil : match ReadAt sample_disk [9; 9; 9; 9] 2046 with Ret r => r_n r = 2 /\ r_err r = None | _ => False end.
Proof. vm_compute. done. Qed.
