(* ===== verification/L2Cache.v ===== *)
(** * L2Cache: the LRU of page tables (qcow/qcow.go and qed/qed.go, [l2Table])

    Both formats keep the tables they have read in a [container/list] ordered by
    use, indexed by a map from file offset to list element, and guarded by a
    mutex that is released while a table is read. The sequential operations come
    first; the second half runs them from several goroutines at once. *)

From S2P Require Import Prelude Bytes.

(** A [*list.Element] holding an [*l2Entry]: its identity, and the entry, which is
    never assigned after the element is made. *)
Record element := mkElement { e_id : Z; e_offset : Z; e_table : list Z }.

#[global] Instance element_eq_dec : EqDecision element.
Proof. solve_decision. Defined.

(** [l2LRU] from front to back, [l2Cache], and the identity of the next element. *)
Record Lru := mkLru { elems : list element; index_of : gmap Z element; next_id : Z }.

Definition empty_lru : Lru := mkLru [] ∅ 0.

(** [list.Remove], [MoveToFront] and [PushFront]: the first two do nothing to an
    element that is no longer in the list. *)
Definition remove_elem (e : element) (l : list element) : list element :=
  filter (fun x => e_id x <> e_id e) l.

Definition move_to_front (e : element) (l : list element) : list element :=
  if bool_decide (e ∈ l) then e :: remove_elem e l else l.

(** The first critical section: a hit moves the element to the front. *)
Definition lookup_table (c : Lru) (offset : Z) : option (Lru * list Z) :=
  match index_of c !! offset with
  | Some e => Some (mkLru (move_to_front e (elems c)) (index_of c) (next_id c), e_table e)
  | None => None
  end.

(** One round of [for d.l2LRU.Len() > d.l2Max]. *)
Definition evict_body (max : Z) (c : Lru) : go (Lru + Lru) :=
  if len (elems c) <=? max then mret (inr c)
  else
    match last (elems c) with
    | Some l => mret (inl (mkLru (remove_elem l (elems c)) (delete (e_offset l) (index_of c)) (next_id c)))
    | None => mret (inl c)
    end.

Definition evict (max : Z) (c : Lru) : go Lru :=
  go_for (S (length (elems c))) (evict_body max) c.

(** The second critical section. *)
Definition insert_table (max : Z) (c : Lru) (offset : Z) (table : list Z) : go Lru :=
  let e := mkElement (next_id c) offset table in
  evict max (mkLru (e :: elems c) (<[offset := e]> (index_of c)) (next_id c + 1)).

(** [l2Table], over the read of a table from the file. *)
Definition cached_table (load : Z -> go (list Z)) (max : Z) (c : Lru) (offset : Z) : go (Lru * list Z) :=
  match lookup_table c offset with
  | Some (c', t) => mret (c', t)
  | None =>
      tab ← load offset;
      c' ← insert_table max c offset tab;
      mret (c', tab)
  end.

(** ** The invariant of the cache *)

Section lru.
Variable load : Z -> go (list Z).
Variable max : Z.
Hypothesis max_nonneg : 0 <= max.

(** Every element holds the table its offset loads; the map sends an offset to an
    element of the list for that offset; identities are fresh and distinct. *)
Record lru_inv (c : Lru) : Prop := {
  inv_load e : e ∈ elems c -> load (e_offset e) = Ret (e_table e);
  inv_index o e : index_of c !! o = Some e -> e ∈ elems c /\ e_offset e = o;
  inv_ids : NoDup (e_id <$> elems c);
  inv_next e : e ∈ elems c -> e_id e < next_id c
}.

Definition lru_ok (c : Lru) : Prop := lru_inv c /\ len (elems c) <= max.

Lemma empty_lru_ok : lru_ok empty_lru.
Proof.
  split; [|done]. split; cbn; [set_solver| |constructor|set_solver].
  intros o e. by rewrite lookup_empty.
Qed.

Lemma remove_elem_other e x l : x ∈ remove_elem e l <-> e_id x <> e_id e /\ x ∈ l.
Proof. unfold remove_elem. by rewrite list_elem_of_filter. Qed.

Lemma remove_elem_ids e l : NoDup (e_id <$> l) -> NoDup (e_id <$> remove_elem e l).
Proof.
  unfold remove_elem. induction l as [|x l IH]; [done|].
  cbn [fmap list_fmap]. intros [Hx Hl]%NoDup_cons. rewrite filter_cons.
  case_decide; [|by apply IH]. cbn [fmap list_fmap]. apply NoDup_cons. split; [|by apply IH].
  rewrite list_elem_of_fmap in Hx |- *. intros (y & Hy & Hin). apply Hx.
  exists y. apply list_elem_of_filter in Hin. tauto.
Qed.

Lemma same_id l x y : NoDup (e_id <$> l) -> x ∈ l -> y ∈ l -> e_id x = e_id y -> x = y.
Proof.
  induction l as [|z l IH]; [set_solver|]. cbn. intros [Hz Hl]%NoDup_cons Hx Hy E.
  rewrite list_elem_of_fmap in Hz.
  apply elem_of_cons in Hx as [->|Hx]; apply elem_of_cons in Hy as [->|Hy]; auto.
  - exfalso; apply Hz; eauto.
  - exfalso; apply Hz; eauto.
Qed.

Lemma length_remove_elem e l : NoDup (e_id <$> l) -> e ∈ l -> length l = S (length (remove_elem e l)).
Proof.
  unfold remove_elem. induction l as [|x l IH]; [set_solver|]. cbn [fmap list_fmap].
  intros [Hx Hl]%NoDup_cons He. rewrite list_elem_of_fmap in Hx. rewrite filter_cons.
  destruct (decide (e = x)) as [->|Hne].
  - rewrite decide_False by tauto. cbn [length]. f_equal.
    rewrite filter_all; [done|]. apply Forall_forall. intros y Hy E. apply Hx. eauto.
  - apply elem_of_cons in He as [|He]; [done|]. rewrite decide_True.
    + cbn [length]. by rewrite (IH Hl He).
    + intros E. apply Hx. eauto.
Qed.

(** The elements and the length are unchanged by a move to the front. *)
Lemma move_to_front_elems e l x : NoDup (e_id <$> l) -> x ∈ move_to_front e l <-> x ∈ l.
Proof.
  intros Hnd. unfold move_to_front. case_bool_decide as He; [|done].
  rewrite elem_of_cons, remove_elem_other. destruct (decide (e_id x = e_id e)) as [E|E].
  - split; [|intros Hx; left; by apply (same_id l)]. intros [->|[? _]]; done.
  - split; [intros [->|[_ ?]]; done|auto].
Qed.

Lemma move_to_front_length e l : NoDup (e_id <$> l) -> len (move_to_front e l) = len l.
Proof.
  intros Hnd. unfold move_to_front. case_bool_decide as He; [|done].
  unfold len. cbn. by rewrite (length_remove_elem e l).
Qed.

Lemma move_to_front_ids e l : NoDup (e_id <$> l) -> NoDup (e_id <$> move_to_front e l).
Proof.
  intros Hnd. unfold move_to_front. case_bool_decide as He; [|done].
  cbn. apply NoDup_cons. split; [|by apply remove_elem_ids].
  rewrite list_elem_of_fmap. intros (y & Hy & Hin). by apply remove_elem_other in Hin as [? _].
Qed.

(** A hit returns the table the file holds. *)
Lemma lookup_table_ok c o c' t : lru_ok c -> lookup_table c o = Some (c', t) ->
  lru_ok c' /\ load o = Ret t.
Proof.
  intros [Hinv Hl] H. unfold lookup_table in H. destruct (index_of c !! o) as [e|] eqn:E; [|done].
  injection H as <- <-. pose proof Hinv as [H1 H2 H3 H4]. apply H2 in E as [He <-].
  split; [|by apply H1]. split; cbn [elems].
  - split; cbn [elems index_of next_id].
    + intros x Hx. rewrite move_to_front_elems in Hx by done. auto.
    + intros o' x Hx. rewrite move_to_front_elems by done. auto.
    + by apply move_to_front_ids.
    + intros x Hx. rewrite move_to_front_elems in Hx by done. auto.
  - by rewrite move_to_front_length.
Qed.

Lemma evict_round c l : lru_inv c -> last (elems c) = Some l ->
  lru_inv (mkLru (remove_elem l (elems c)) (delete (e_offset l) (index_of c)) (next_id c)).
Proof.
  intros [H1 H2 H3 H4] Hlast. split; cbn [elems index_of next_id].
  - intros e He. apply remove_elem_other in He as [_ He]. auto.
  - intros o e He. apply lookup_delete_Some in He as [Hne He]. apply H2 in He as [He <-].
    split; [|done]. apply remove_elem_other. split; [|done]. intros E.
    apply Hne. f_equal. apply (same_id (elems c)); [done| |done|done].
    apply last_Some in Hlast as [l' ->]. set_solver.
  - by apply remove_elem_ids.
  - intros e He. apply remove_elem_other in He as [_ He]. auto.
Qed.

(** The eviction loop terminates with at most [max] elements left. *)
Lemma evict_ok c : lru_inv c -> wp (evict max c) lru_ok no_err.
Proof.
  intros Hinv. unfold evict.
  apply (wp_for lru_inv (fun c => length (elems c))); [|done|lia].
  clear c Hinv. intros c Hinv. unfold evict_body. destruct_if; [done|].
  destruct (last (elems c)) as [l|] eqn:El.
  - cbn. split; [by apply evict_round|]. apply last_Some in El as [l' El'].
    rewrite (length_remove_elem l (elems c)); [cbn; lia|apply Hinv|rewrite El'; set_solver].
  - apply last_None in El. rewrite El in Hgt. cbn in Hgt. unfold len in Hgt. cbn in Hgt. lia.
Qed.

Lemma insert_table_ok c o t : lru_inv c -> load o = Ret t -> wp (insert_table max c o t) lru_ok no_err.
Proof.
  intros [H1 H2 H3 H4] Ht. unfold insert_table. apply evict_ok.
  split; cbn [elems index_of next_id].
  - intros e [->|He]%elem_of_cons; [done|auto].
  - intros o' e He. apply lookup_insert_Some in He as [[<- <-]|[_ He]]; [set_solver|].
    apply H2 in He as [??]. set_solver.
  - cbn. apply NoDup_cons. split; [|done]. rewrite list_elem_of_fmap. intros (y & Hy & Hin).
    apply H4 in Hin. lia.
  - intros e [->|He]%elem_of_cons; [cbn; lia|]. apply H4 in He. lia.
Qed.

(** The cache is transparent: the result is that of the read. *)
Lemma cached_table_ok c o t : lru_ok c -> load o = Ret t ->
  wp (cached_table load max c o) (fun r => lru_ok r.1 /\ r.2 = t) no_err.
Proof.
  intros Hc Ht. unfold cached_table. destruct (lookup_table c o) as [[c' t']|] eqn:E.
  - apply lookup_table_ok in E as [Hc' Ht']; [|done]. cbn. by rewrite Ht in Ht'; injection Ht' as ->.
  - rewrite Ht. cbn. apply wp_bind. eapply wp_mono; [apply insert_table_ok; [apply Hc|done]| |done].
    intros c' Hc'. done.
Qed.

Lemma cached_table_err c o e : lru_ok c -> load o = Err e -> cached_table load max c o = Err e.
Proof.
  intros Hc Ht. unfold cached_table. destruct (lookup_table c o) as [[c' t']|] eqn:E.
  - apply lookup_table_ok in E as [_ Ht']; [|done]. congruence.
  - by rewrite Ht.
Qed.

(** ** Concurrent readers

    A goroutine runs the first critical section; on a miss it reads the table with
    the mutex released, then runs the second. [returned] collects the tables the
    calls return. *)

Inductive pc :=
  | Idle
  | Missed (offset : Z)
  | Loaded (offset : Z) (table : list Z).

Record shared := mkShared { cache : Lru; threads : gmap nat pc; returned : list (Z * list Z) }.

Inductive step : shared -> shared -> Prop :=
  | step_hit s t o c' tab :
      threads s !! t = Some Idle -> lookup_table (cache s) o = Some (c', tab) ->
      step s (mkShared c' (threads s) ((o, tab) :: returned s))
  | step_miss s t o :
      threads s !! t = Some Idle -> lookup_table (cache s) o = None ->
      step s (mkShared (cache s) (<[t := Missed o]> (threads s)) (returned s))
  | step_load s t o tab :
      threads s !! t = Some (Missed o) -> load o = Ret tab ->
      step s (mkShared (cache s) (<[t := Loaded o tab]> (threads s)) (returned s))
  | step_load_error s t o e :
      threads s !! t = Some (Missed o) -> load o = Err e ->
      step s (mkShared (cache s) (<[t := Idle]> (threads s)) (returned s))
  | step_insert s t o tab c' :
      threads s !! t = Some (Loaded o tab) -> insert_table max (cache s) o tab = Ret c' ->
      step s (mkShared c' (<[t := Idle]> (threads s)) ((o, tab) :: returned s)).

Definition initial (n : nat) : shared :=
  mkShared empty_lru (list_to_map ((fun t => (t, Idle)) <$> seq 0 n)) [].

Inductive reachable (n : nat) : shared -> Prop :=
  | reach_initial : reachable n (initial n)
  | reach_step s s' : reachable n s -> step s s' -> reachable n s'.

Definition shared_ok (s : shared) : Prop :=
  lru_ok (cache s) /\
  (forall t o tab, threads s !! t = Some (Loaded o tab) -> load o = Ret tab) /\
  (forall o tab, (o, tab) ∈ returned s -> load o = Ret tab).

Lemma initial_ok n : shared_ok (initial n).
Proof.
  split_and!; [apply empty_lru_ok| |set_solver]. intros t o tab H.
  apply elem_of_list_to_map_2, list_elem_of_fmap in H as (? & [= _ ] & _).
Qed.

Lemma step_ok s s' : shared_ok s -> step s s' -> shared_ok s'.
Proof.
  intros (Hc & Ht & Hr) Hstep. destruct Hstep as [s t o c' tab Hi Hl|s t o Hi Hl|s t o tab Hi Hl|s t o e Hi Hl|s t o tab c' Hi Hl];
    unfold shared_ok; cbn [cache threads returned].
  - apply lookup_table_ok in Hl as [Hc' Hl]; [|done]. split_and!; [done|done|].
    intros o' tab' [[= -> ->]|?]%elem_of_cons; auto.
  - split_and!; [done| |done]. intros t' o' tab' [[? [= ]]|[_ ?]]%lookup_insert_Some; eauto.
  - split_and!; [done| |done]. intros t' o' tab' [[_ [= -> ->]]|[_ ?]]%lookup_insert_Some; eauto.
  - split_and!; [done| |done]. intros t' o' tab' [[? [= ]]|[_ ?]]%lookup_insert_Some; eauto.
  - apply Ht in Hi. pose proof (insert_table_ok (cache s) o tab (proj1 Hc) Hi) as Hw.
    apply (wp_Ret _ _ _ _ Hw) in Hl. split_and!; [done| |].
    + intros t' o' tab' [[? [= ]]|[_ ?]]%lookup_insert_Some; eauto.
    + intros o' tab' [[= -> ->]|?]%elem_of_cons; auto.
Qed.

Lemma reachable_ok n s : reachable n s -> shared_ok s.
Proof. induction 1; [apply initial_ok|by eapply step_ok]. Qed.
End lru.

(** ** Properties *)

(** The table cache is transparent: from any coherent cache a call returns the
    table, or the error, that reading the file would return, and leaves a coherent
    cache of at most [l2Max] elements. *)
Theorem l2_cache_transparent load max c offset :
  0 <= max -> lru_ok load max c ->
  match load offset with
  | Ret t => exists c', cached_table load max c offset = Ret (c', t) /\ lru_ok load max c'
  | Err e => cached_table load max c offset = Err e
  | _ => True
  end.
Proof.
  intros Hm Hc. destruct (load offset) as [t|e| |] eqn:E; [| |done|done].
  - destruct (wp_no_err_Ret _ _ (cached_table_ok load max Hm c offset t Hc E)) as ([c' t'] & -> & Hc' & Ht).
    cbn in *. subst. eauto.
  - by apply (cached_table_err load max).
Qed.

(** C39. Any number of goroutines calling [l2Table] in any interleaving of their
    critical sections and reads, two of them missing the same table included, keep
    the cache within its bound and coherent, and every table a call returned is
    the one in the file. *)
Theorem l2_concurrent_reads load max n s :
  0 <= max -> reachable load max n s ->
  len (elems (cache s)) <= max /\
  (forall o tab, (o, tab) ∈ returned s -> load o = Ret tab) /\
  (forall o e, index_of (cache s) !! o = Some e -> e ∈ elems (cache s) /\ load o = Ret (e_table e)).
Proof.
  intros Hm Hr. destruct (reachable_ok load max Hm n s Hr) as ((Hinv & Hlen) & _ & Hret).
  split_and!; [done|done|]. intros o e He. destruct Hinv as [H1 H2 _ _].
  apply H2 in He as [He <-]. auto.
Qed.

(** ** Samples: a file whose table at [o] is the one word [o] *)

Definition sample_load (o : Z) : go (list Z) := if o =? 13 then Err EOF else Ret [o].

Lemma l2_cache_transparent_witness :
  exists c', cached_table sample_load 1 empty_lru 5 = Ret (c', [5]) /\ lru_ok sample_load 1 c'.
Proof. apply (l2_cache_transparent sample_load 1 empty_lru 5); [lia|by apply empty_lru_ok]. Defined.

(** Two goroutines miss the same table, and both insert it. *)
Lemma l2_sample_run : exists s, reachable sample_load 1 2 s /\ returned s = [(5, [5]); (5, [5])] /\
  index_of (cache s) !! 5 = None.
Proof.
  eexists. split.
  - eapply reach_step; [eapply reach_step; [eapply reach_step; [eapply reach_step;
      [eapply reach_step; [eapply reach_step; [apply reach_initial|]|]|]|]|]|].
    + by apply (step_miss _ _ _ 0%nat 5).
    + by apply (step_miss _ _ _ 1%nat 5).
    + by apply (step_load _ _ _ 0%nat 5 [5]).
    + by apply (step_load _ _ _ 1%nat 5 [5]).
    + by apply (step_insert _ _ _ 0%nat 5 [5] (mkLru [mkElement 0 5 [5]] {[5 := mkElement 0 5 [5]]} 1)).
    + by apply (step_insert _ _ _ 1%nat 5 [5] (mkLru [mkElement 1 5 [5]] ∅ 2)).
  - done.
Defined.

Lemma l2_concurrent_reads_witness : exists s, reachable sample_load 1 2 s /\
  returned s = [(5, [5]); (5, [5])] /\ len (elems (cache s)) <= 1.
Proof.
  destruct l2_sample_run as (s & Hr & Hret & _). exists s. split; [done|]. split; [done|].
  by apply (l2_concurrent_reads sample_load 1 2 s).
Defined.
