(* ===== verification/QedDisk.v ===== *)
(** * QedDisk: QEMU Enhanced Disk images (qed/qed.go)

    A two-level page table maps clusters: the L1 table, read by [Open], holds the
    file offsets of the L2 tables, which are read on demand through the cache of
    [L2Cache]. *)

From S2P Require Import Prelude Bytes ReaderAt Chunks BlockMap L2Cache.

Definition qedMagic : Z := 0x00444551.
Definition featureBackingFile : Z := 0x01.
Definition minClusterSize : Z := 4 * 1024.
Definition maxClusterSize : Z := 64 * 1024 * 1024.
Definition minTableSize : Z := 1.
Definition maxTableSize : Z := 16.

Record Disk := mkDisk {
  ra : reader;
  clusterSize : Z;  (* uint32, bytes, power of two *)
  tableSize : Z;    (* uint32, in clusters *)
  tableBytes : Z;   (* int64 *)
  tableNelems : Z;  (* int64 *)
  clusterBits : Z;
  l1Shift : Z;
  l2Mask : Z;       (* uint64 *)
  diskSize : Z;     (* int64 *)
  l1 : list Z;      (* []uint64 *)
  l2Max : Z
}.

(** [Open]; the cache of the new disk is [empty_lru]. *)
Definition Open (ra : reader) : go Disk :=
  hdr ← read_or ra "read qed header: %w" (replicate 512 0) 0;
  if negb (le32 hdr 0 =? qedMagic) then Err (Errorf "not a QED image")
  else
  let clusterSize := le32 hdr 4 in
  let tableSize := le32 hdr 8 in
  let headerSize := le32 hdr 12 in
  let features := le64 hdr 16 in
  let diskSize := i64 (le64 hdr 48) in
  if (clusterSize <? minClusterSize) || (maxClusterSize <? clusterSize)
  then Err (Errorf "invalid QED cluster size %d")
  else if negb (Z.land clusterSize (u32 (clusterSize - 1)) =? 0)
  then Err (Errorf "QED cluster size %d is not a power of two")
  else if (tableSize <? minTableSize) || (maxTableSize <? tableSize)
  then Err (Errorf "invalid QED table size %d clusters")
  else if negb (Z.land tableSize (u32 (tableSize - 1)) =? 0)
  then Err (Errorf "QED table size %d is not a power of two")
  else if headerSize <? 1 then Err (Errorf "invalid QED header size 0")
  else if negb (Z.land features featureBackingFile =? 0)
  then Err (Errorf "QED image with a backing file is not supported")
  else
  let tableBytes := i64 (i64 tableSize * i64 clusterSize) in
  tableNelems ← div64 tableBytes 8;
  let clusterBits := trailing_zeros clusterSize in
  let tableBits := trailing_zeros (u64 tableNelems) in
  let l1Shift := i64 (clusterBits + tableBits) in
  let l2Mask := u64 (i64 (tableNelems - 1)) in
  let l1Offset := le64 hdr 40 in
  if l1Offset =? 0 then Err (Errorf "invalid QED L1 table offset 0")
  else
  _ ← make 0 8 tableNelems;
  l1Raw ← make 0 1 tableBytes;
  l1Raw ← read_or ra "read QED L1 table: %w" l1Raw (i64 l1Offset);
  l1 ← parse_words LE 8 (Z.to_nat tableNelems) 0 l1Raw;
  mret {| ra := ra; clusterSize := clusterSize; tableSize := tableSize;
          tableBytes := tableBytes; tableNelems := tableNelems; clusterBits := clusterBits;
          l1Shift := l1Shift; l2Mask := l2Mask; diskSize := diskSize; l1 := l1; l2Max := 512 |}.

Definition Size (d : Disk) : Z := diskSize d.

(** The part of [l2Table] that runs with the mutex released. *)
Definition load_table (d : Disk) (offset : Z) : go (list Z) :=
  raw ← make 0 1 (tableBytes d);
  raw ← read_or (ra d) "read QED L2 table at %d: %w" raw (i64 offset);
  _ ← make 0 8 (tableNelems d);
  parse_words LE 8 (Z.to_nat (tableNelems d)) 0 raw.

Definition l2Table (d : Disk) (c : Lru) (offset : Z) : go (Lru * list Z) :=
  cached_table (load_table d) (l2Max d) c offset.

(** The two lookups of [ReadAt]: the entry that maps [off], 0 when a table has
    none. An error of [l2Table] is returned as a value, since [ReadAt] returns it
    with its count. *)
Definition find_entry (d : Disk) (c : Lru) (off cluster : Z) : go (Lru * (Z + error)) :=
  let l1Index := Z.shiftr off (l1Shift d) in
  if l1Index <? len (l1 d) then
    l2Offset ← index (l1 d) l1Index;
    if negb (l2Offset =? 0) then
      match l2Table d c l2Offset with
      | Ret (c', l2) =>
          let l2Index := i64 (Z.land (u64 cluster) (l2Mask d)) in
          if l2Index <? len l2 then e ← index l2 l2Index; mret (c', inl e)
          else mret (c', inl 0)
      | Err e => mret (c, inr e)
      | Panic p => Panic p
      | OutOfFuel => OutOfFuel
      end
    else mret (c, inl 0)
  else mret (c, inl 0).

(** One round of the loop of [ReadAt]. *)
Definition read_cluster (d : Disk) (c : Lru) (p : list Z) (off : Z) : go (Lru * chunk) :=
  let clusterSize := i64 (clusterSize d) in
  cluster ← div64 off clusterSize;
  inCluster ← rem64 off clusterSize;
  let n := len p in
  let n := if i64 (clusterSize - inCluster) <? n then i64 (clusterSize - inCluster) else n in
  '(c, found) ← find_entry d c off cluster;
  match found with
  | inr err => mret (c, ChunkErr p err)
  | inl e =>
      if (e =? 0) || (e =? 1) then
        p ← clear p n; mret (c, Chunk p n)
      else
        let dataOff := i64 (i64 e + inCluster) in
        '(p, err) ← read_into (ra d) p n dataOff;
        match err with
        | Some e => if bool_decide (e = EOF) then mret (c, Chunk p n) else mret (c, ChunkErr p e)
        | None => mret (c, Chunk p n)
        end
  end.

Definition ReadAt (d : Disk) (c : Lru) (p : list Z) (off : Z) : go (Lru * rres) :=
  read_chunks (read_cluster d) (diskSize d) c p off.

(** ** Specification *)

(** The geometry [Open] establishes: sizes are powers of two and a table fills
    [tableSize] clusters. *)
Record wf (d : Disk) : Prop := {
  wf_cluster : clusterSize d = 2 ^ clusterBits d;
  wf_bits : 12 <= clusterBits d <= 26;
  wf_table : tableBytes d = tableNelems d * 8 /\ 0 < tableNelems d <= 2 ^ 27;
  wf_shift : tableNelems d = 2 ^ (l1Shift d - clusterBits d) /\ clusterBits d <= l1Shift d <= 53;
  wf_mask : l2Mask d = tableNelems d - 1;
  wf_l1 : len (l1 d) = tableNelems d /\ Forall (fun e => 0 <= e < 2 ^ 64) (l1 d);
  wf_size : diskSize d < 2 ^ 63;
  wf_max : l2Max d = 512
}.

(** The entry that maps cluster [k]: L1 entry [k / tableNelems], then entry
    [k mod tableNelems] of the table it points at. *)
Definition entry_of (d : Disk) (k : Z) : Z :=
  let l2Offset := default 0 (l1 d !! Z.to_nat (k / tableNelems d)) in
  if l2Offset =? 0 then 0
  else match load_table d l2Offset with
       | Ret l2 => default 0 (l2 !! Z.to_nat (k mod tableNelems d))
       | _ => 0
       end.

Definition cell_of (d : Disk) (k : Z) : cell :=
  let e := entry_of d k in
  if (e =? 0) || (e =? 1) then Hole else Stored (i64 e).

Definition content (d : Disk) (file : Z -> Z) : Z -> Z := mapped (clusterSize d) (cell_of d) file.

(** Every L2 table the L1 table points at is in the file. *)
Definition tables_complete (d : Disk) : Prop :=
  forall o, o ∈ l1 d -> o <> 0 -> exists t, load_table d o = Ret t.

(** The cache invariant between calls. *)
Definition cache_ok (d : Disk) (c : Lru) : Prop := lru_ok (load_table d) (l2Max d) c.

(** ** Lemmas *)

Lemma qed_no_inflated d : inflated_ok (clusterSize d) (cell_of d).
Proof. apply inflated_ok_none. intros k data. unfold cell_of. by repeat destruct_if. Qed.

Lemma qed_cluster_pos d : wf d -> 2 ^ 12 <= clusterSize d <= 2 ^ 26.
Proof.
  intros [H1 H2 _ _ _ _ _ _]. rewrite H1.
  split; (apply Z.pow_le_mono_r; lia).
Qed.

(** Parsing a buffer of the right size for a table cannot fail. *)
Lemma qed_parse_table n (raw : list Z) : 0 <= n -> len raw = n * 8 ->
  parse_words LE 8 (Z.to_nat n) 0 raw = Ret (words LE 8 (Z.to_nat n) raw).
Proof. intros. apply (parse_words_ok LE 8). lia. Qed.

Lemma qed_load_table_shape d o : wf d -> ReaderShape (ra d) ->
  wp (load_table d o) (fun t => len t = tableNelems d /\ Forall (fun e => 0 <= e < 2 ^ 64) t) (fun _ => True).
Proof.
  intros [_ _ [Htb Hn] _ _ _ _ _] Hra. unfold load_table.
  rewrite !make_ok by (unfold maxAlloc; lia). cbn [mbind go_bind].
  apply wp_bind. apply wp_read_or; [done| |done]. intros raw Hl Hb. rewrite len_replicate in Hl.
  rewrite qed_parse_table by lia. cbn. rewrite len_words. split; [lia|].
  apply words_range; [|by apply Hb, bytes_ok_zeros].
  intros l Hl1 Hl2. by apply (LE_le_range l 8).
Qed.

(** The shifts and masks of the lookup are the quotient and remainder. *)
Lemma qed_l1_index d off : wf d -> 0 <= off ->
  Z.shiftr off (l1Shift d) = off / clusterSize d / tableNelems d.
Proof.
  intros [Hc Hb _ [Hn Hs] _ _ _ _] Ho. rewrite Z.shiftr_div_pow2, Hc, Hn by lia.
  rewrite Z.div_div by (try apply Z.pow_pos_nonneg; try apply Z.pow_nonzero; lia).
  rewrite <-Z.pow_add_r by lia. do 2 f_equal. lia.
Qed.

Lemma qed_l2_index d k : wf d -> 0 <= k < 2 ^ 63 -> i64 (Z.land (u64 k) (l2Mask d)) = k mod tableNelems d.
Proof.
  intros [_ _ [_ Hn'] [Hn Hs] Hm _ _ _] Hk. rewrite Hm, wrap_u_id by lia.
  assert (Z.land k (tableNelems d - 1) = k mod tableNelems d) as ->.
  { rewrite Hn, land_mask by lia. done. }
  pose proof (Z.mod_pos_bound k (tableNelems d)). rewrite i64_id by lia. done.
Qed.

(** The lookup finds the entry of the specification, or the error of a table that
    cannot be read; the cache stays coherent. *)
Lemma qed_find_entry d c off : wf d -> ReaderShape (ra d) -> cache_ok d c -> 0 <= off < 2 ^ 63 ->
  wp (find_entry d c off (off / clusterSize d)) (fun r => cache_ok d r.1 /\
    match r.2 with
    | inl e => e = entry_of d (off / clusterSize d)
    | inr err => exists o, o ∈ l1 d /\ o <> 0 /\ load_table d o = Err err
    end) no_err.
Proof.
  intros Hwf Hra Hc Ho. pose proof (qed_cluster_pos d Hwf) as Hcs.
  assert (0 <= off / clusterSize d < 2 ^ 63) as Hk.
  { split; [apply Z.div_pos; lia|apply Z.div_lt_upper_bound; nia]. }
  pose proof Hwf as [_ _ [_ Hn] _ _ _ _ Hmax].
  unfold find_entry, entry_of, l2Table. cbn zeta.
  rewrite qed_l1_index, (qed_l2_index d (off / clusterSize d)) by (done || lia). set (k := off / clusterSize d) in *.
  assert (0 <= k / tableNelems d) as Hk1 by (apply Z.div_pos; lia).
  pose proof (Z.mod_pos_bound k (tableNelems d) ltac:(lia)) as Hk2.
  destruct_if.
  2: { cbn. split; [done|]. rewrite lookup_ge_None_2; [done|]. unfold len in *. lia. }
  destruct (index_ok (l1 d) (k / tableNelems d)) as (o & Hl & ->); [lia|]. rewrite Hl. cbn [mbind go_bind].
  change (default 0 (Some o)) with o.
  destruct (Z.eqb_spec o 0) as [|Hne]; cbn [negb]; [done|].
  pose proof (qed_load_table_shape d o Hwf Hra) as Hload.
  destruct (load_table d o) as [t|e| |] eqn:Et; cbn in Hload; [| |done|done].
  - destruct (wp_no_err_Ret _ _ (cached_table_ok (load_table d) (l2Max d) ltac:(lia) c o t Hc Et))
      as ([c' t'] & -> & Hc' & Ht). cbn [fst snd] in Hc', Ht. subst t'.
    destruct Hload as [Hlent _]. rewrite Hlent. destruct_if; [|lia].
    destruct (index_ok t (k mod tableNelems d)) as (e & He & ->); [lia|]. cbn. by rewrite He.
  - rewrite (cached_table_err (load_table d) (l2Max d) ltac:(lia) c o e) by done. cbn. split; [done|].
    exists o. split_and!; [|done|done]. by apply list_elem_of_lookup_2 in Hl.
Qed.

(** A round is the lookup followed by a read of the cluster map. *)
Lemma qed_read_cluster d c p off (P : Lru * chunk -> Prop) :
  wf d -> ReaderShape (ra d) -> cache_ok d c -> 0 < len p -> 0 <= off -> off + len p <= diskSize d ->
  (forall c', cache_ok d c' ->
     wp (read_cell (clusterSize d) (cell_of d) (ra d) true p off) (fun ch => P (c', ch)) no_err) ->
  (forall c' o err, cache_ok d c' -> o ∈ l1 d -> o <> 0 -> load_table d o = Err err -> P (c', ChunkErr p err)) ->
  wp (read_cluster d c p off) P no_err.
Proof.
  intros Hwf Hra Hc Hp Ho Hl Hcell Herr. pose proof (qed_cluster_pos d Hwf) as Hcs.
  pose proof (wf_size d Hwf).
  destruct (piece_bounds (clusterSize d) ltac:(lia) p off Hp) as (Hn & Hm & Hi).
  unfold read_cluster. cbn zeta.
  rewrite !(i64_id (clusterSize d)), div64_ok, rem64_ok by lia. cbn [mbind go_bind].
  rewrite !(i64_id (clusterSize d - _)) by lia.
  replace (if _ <? len p then _ else _) with (piece (clusterSize d) p off) by (unfold piece; destruct_if; lia).
  apply wp_bind. eapply wp_mono; [by apply qed_find_entry; [..|lia]| |done].
  intros [c' [e|err]] [Hc' He]; cbn [fst snd] in Hc', He.
  2: { destruct He as (o & ? & ? & ?). by apply (Herr c' o). }
  specialize (Hcell c' Hc'). subst e. unfold read_cell, cell_of in Hcell. cbn zeta in Hcell.
  destruct ((entry_of d _ =? 0) || (entry_of d _ =? 1)).
  - rewrite clear_ok by lia. exact Hcell.
  - rewrite i64_add_l in Hcell |- *. cbn [andb] in Hcell.
    destruct (read_into _ _ _ _) as [[p' [e|]]| | |]; try done.
    cbn in Hcell |- *. by case_bool_decide.
Qed.

Lemma qed_step_shape d : wf d -> ReaderShape (ra d) -> step_shape (read_cluster d) (cache_ok d) (diskSize d).
Proof.
  intros Hwf Hra c p off Hc Hp Ho Hl. pose proof (qed_cluster_pos d Hwf).
  apply qed_read_cluster; try done.
  intros c' Hc'. eapply wp_mono; [apply read_cell_shape; [lia|apply qed_no_inflated|done|done]| |done].
  intros ch Hch. done.
Qed.

Lemma qed_step_reads d fsize file : wf d -> Device (ra d) fsize file -> tables_complete d ->
  complete (clusterSize d) (cell_of d) (diskSize d) fsize ->
  step_reads (read_cluster d) (cache_ok d) (diskSize d) (content d file).
Proof.
  intros Hwf Hra Ht Hcomp c p off Hc Hp Ho Hl. pose proof (qed_cluster_pos d Hwf).
  apply qed_read_cluster; try done; [apply dev_shape| |].
  - intros c' Hc'.
    destruct (read_cell_reads (clusterSize d) (cell_of d) ltac:(lia) (ra d) true (diskSize d) fsize file p off)
      as (n & -> & Hn); [apply qed_no_inflated|done..|].
    cbn. split; [done|]. by exists (span (content d file) off n ++ from p n), n.
  - intros c' o err _ Hin Hne He. destruct (Ht o Hin Hne) as [t Ht']. congruence.
Qed.

Lemma qed_content_bytes d fsize file i : Device (ra d) fsize file -> is_byte (content d file i).
Proof. intros Hra. apply mapped_bytes; [apply dev_bytes|apply qed_no_inflated]. Qed.

(** What the checks of [Open] on a power of two give. *)
Lemma qed_pow2_check z : 0 < z < 2 ^ 32 -> (Z.land z (u32 (z - 1)) =? 0) = true ->
  z = 2 ^ trailing_zeros z /\ 0 <= trailing_zeros z < 32.
Proof.
  intros Hz Hl%Z.eqb_eq. rewrite wrap_u_id in Hl by lia.
  apply land_pred_pow2 in Hl; [|lia]. pose proof (Z.log2_nonneg z).
  assert (Z.log2 z < 32) by (apply Z.log2_lt_pow2; lia).
  rewrite Hl at 2 3 4. rewrite pow2_trailing_zeros by lia. lia.
Qed.

(** The geometry of an accepted header. *)
Lemma qed_geometry cs ts : minClusterSize <= cs <= maxClusterSize -> minTableSize <= ts <= maxTableSize ->
  (Z.land cs (u32 (cs - 1)) =? 0) = true -> (Z.land ts (u32 (ts - 1)) =? 0) = true ->
  let cb := trailing_zeros cs in
  let tb := trailing_zeros ts + cb - 3 in
  cs = 2 ^ cb /\ 12 <= cb <= 26 /\ 0 <= tb <= 27 /\
  i64 (i64 ts * i64 cs) = 2 ^ tb * 8 /\ trailing_zeros (2 ^ tb) = tb.
Proof.
  intros Hcs Hts Hc Ht cb tb. unfold minClusterSize, maxClusterSize, minTableSize, maxTableSize in *.
  apply qed_pow2_check in Hc as [Hc Hcb]; [|lia]. apply qed_pow2_check in Ht as [Ht Htb]; [|lia].
  fold cb in Hc, Hcb. set (t := trailing_zeros ts) in *.
  assert (12 <= cb <= 26) as Hcb'.
  { split; [apply Z.nlt_ge|apply Z.nlt_ge]; intros Hlt.
    - pose proof (Z.pow_le_mono_r 2 cb 11). lia.
    - pose proof (Z.pow_le_mono_r 2 27 cb). lia. }
  assert (t <= 4) as Ht'.
  { apply Z.nlt_ge; intros Hlt. pose proof (Z.pow_le_mono_r 2 5 t). lia. }
  split_and!; try lia.
  - rewrite !(i64_id ts), !(i64_id cs) by lia. rewrite i64_id by nia.
    rewrite Hc, Ht. change 8 with (2 ^ 3). rewrite <-!Z.pow_add_r by lia. f_equal. lia.
  - apply pow2_trailing_zeros. lia.
Qed.

(** ** Properties *)

(** Opening any byte source never panics: it fails with an error or gives a
    disk of consistent geometry: the cluster and table sizes are powers of two
    within the format's bounds, a table holds [2^(l1Shift - clusterBits)] 64-bit
    entries, the mask selects exactly an index of a table, and the L1 table has
    that many entries. *)
Theorem qed_open_safe ra : ReaderShape ra -> wp (Open ra) wf (fun _ => True).
Proof.
  intros Hra. unfold Open. apply wp_bind. apply wp_read_or; [done| |done].
  intros hdr _ Hb. specialize (Hb (bytes_ok_zeros _)).
  destruct_if; [|done]. cbn zeta. set (cs := le32 hdr 4). set (ts := le32 hdr 8).
  do 2 (destruct_if; [done|]). destruct (Z.land cs _ =? 0) eqn:Hc; [|done]. cbn [orb negb].
  do 2 (destruct_if; [done|]). destruct (Z.land ts _ =? 0) eqn:Ht; [|done]. cbn [orb negb].
  destruct_if; [done|]. destruct_if; [|done]. cbn [negb].
  destruct (qed_geometry cs ts) as (Hcs & Hcb & Htb & Hbytes & Htz); [lia|lia|done|done|].
  set (cb := trailing_zeros cs) in *. set (tb := trailing_zeros ts + cb - 3) in *.
  rewrite Hbytes. pose proof (Z.pow_le_mono_r 2 tb 27 ltac:(lia) ltac:(lia)).
  pose proof (Z.pow_pos_nonneg 2 tb ltac:(lia) ltac:(lia)).
  rewrite div64_ok, Z.div_mul by lia. cbn [mbind go_bind].
  rewrite (wrap_u_id 64 (2 ^ tb)), Htz by lia. destruct_if; [done|].
  rewrite !make_ok by (unfold maxAlloc; lia). cbn [mbind go_bind].
  apply wp_bind. apply wp_read_or; [done| |done]. intros raw Hl Hraw. rewrite len_replicate in Hl.
  rewrite qed_parse_table by lia. cbn [mbind go_bind wp mret go_ret].
  pose proof (i64_range (le64 hdr 48)).
  split; cbn [clusterSize clusterBits tableBytes tableNelems l1Shift l2Mask l1 diskSize l2Max];
    rewrite ?(i64_id (cb + tb)), ?len_words by lia; try (done || lia).
  - split; [|lia]. f_equal. lia.
  - rewrite i64_id, wrap_u_id by lia. done.
  - split; [lia|]. apply words_range; [|by apply Hraw, bytes_ok_zeros].
    intros l Hl1 Hl2. by apply (LE_le_range l 8).
Qed.

(** A read of an opened disk never panics and terminates, keeps the length of
    the buffer and its count within it, and leaves the table cache coherent and
    within its bound, whatever the file below returns. *)
Theorem qed_read_safe d c p off : wf d -> ReaderShape (ra d) -> cache_ok d c ->
  wp (ReadAt d c p off) (fun r => cache_ok d r.1 /\ len (r_buf r.2) = len p /\ 0 <= r_n r.2 <= len p) no_err.
Proof.
  intros Hwf Hra Hc. eapply wp_mono; [apply read_chunks_shape|..].
  - apply Hwf.
  - by apply qed_step_shape.
  - done.
  - intros r (? & ? & ? & _). auto.
  - done.
Qed.

(** Reading refines the two-level table: over an image whose tables and data
    clusters are in the file, [ReadAt] at [off] returns the bytes of the disk from
    [off] up to the end of the buffer or of the disk, where cluster [k] is found
    through L1 entry [k / n] and L2 entry [k mod n] for tables of [n] entries, and
    reads as zeros when either is absent or the L2 entry is 0 or 1; the cache does
    not show in the result. *)
Theorem qed_read_refines d fsize file c p off :
  wf d -> 0 <= diskSize d -> Device (ra d) fsize file -> tables_complete d ->
  complete (clusterSize d) (cell_of d) (diskSize d) fsize -> cache_ok d c -> 0 <= off ->
  let n := Z.max 0 (Z.min (len p) (diskSize d - off)) in
  exists c', cache_ok d c' /\
    ReadAt d c p off =
    Ret (c', mkR (span (content d file) off n ++ from p n) n (if n =? 0 then Some EOF else None)).
Proof.
  intros Hwf Hd Hra Ht Hcomp Hc Ho n. pose proof (wf_size d Hwf).
  destruct (wp_no_err_Ret _ _ (read_chunks_reads (read_cluster d) (cache_ok d) (diskSize d) (content d file)
    c p off ltac:(lia) ltac:(by apply (qed_step_reads d fsize)) Hc Ho)) as ([c' r] & Hr & Hc' & Hres).
  exists c'. split; [done|]. unfold ReadAt. rewrite Hr. cbn in Hres. by rewrite Hres.
Qed.

(** A data cluster past the end of a truncated file: the [io.EOF] of the
    underlying read is dropped, so the read reports the whole piece as read with
    no error while the caller's buffer keeps its old bytes. *)
Theorem qed_truncated_keeps_buffer d data c p off a :
  wf d -> ra d = file_reader data -> bytes_ok data -> len data < 2 ^ 63 ->
  cache_ok d c -> tables_complete d -> 0 < len p -> 0 <= off -> off + len p <= diskSize d ->
  off mod clusterSize d + len p <= clusterSize d ->
  cell_of d (off / clusterSize d) = Stored a -> len data <= a -> a + clusterSize d < 2 ^ 63 ->
  exists c', cache_ok d c' /\ ReadAt d c p off = Ret (c', mkR p (len p) None).
Proof.
  intros Hwf Hra Hd Hdl Hc Ht Hp Ho Hl Hm Hcell Ha Ha'. pose proof (qed_cluster_pos d Hwf) as Hcs.
  pose proof (wf_size d Hwf). pose proof (Z.mod_pos_bound off (clusterSize d) ltac:(lia)).
  pose proof (len_nonneg data).
  assert (wp (read_cluster d c p off) (fun r => cache_ok d r.1 /\ r.2 = Chunk p (len p)) no_err) as Hstep.
  { apply qed_read_cluster; try done; [rewrite Hra; by apply file_shape| |].
    - intros c' Hc'. unfold read_cell. rewrite Hcell.
      assert (piece (clusterSize d) p off = len p) as -> by (unfold piece; lia). cbn zeta.
      unfold read_into. rewrite slice_ok, sub_full by lia. cbn [mbind go_bind].
      rewrite Hra, i64_id by lia. unfold file_reader. destruct_if; [lia|].
      assert (data.[a + off mod clusterSize d, a + off mod clusterSize d + len p] = []) as ->.
      { apply len_zero. rewrite len_file_sub by lia. lia. }
      cbn [app mbind go_bind r_buf r_err]. len_nils. rewrite (proj2 (Z.ltb_lt _ _) Hp).
      rewrite from_0. unfold from at 1. rewrite drop_ge by (unfold len; lia). rewrite app_nil_r.
      cbn. done.
    - intros c' o err _ Hin Hne He. destruct (Ht o Hin Hne) as [t Ht']. congruence. }
  destruct (wp_no_err_Ret _ _ Hstep) as ([c' ch] & Hr & Hc' & Hch). cbn in Hc', Hch. subst ch.
  exists c'. split; [done|]. by apply read_chunks_single; [lia..|].
Qed.

(** ** A sample image: header, L1 table, L2 table and one data cluster of 4 KiB

    Disk cluster 0 is stored in the data cluster, cluster 1 is a zero cluster,
    cluster 2 is mapped past the end of the file. *)

Definition sample_header : list Z :=
  let h := replicate 4096 0 in
  let h := patch h 0 (put_le 4 qedMagic) in
  let h := patch h 4 (put_le 4 4096) in
  let h := patch h 8 (put_le 4 1) in
  let h := patch h 12 (put_le 4 1) in
  let h := patch h 40 (put_le 8 4096) in
  patch h 48 (put_le 8 12288).

Definition sample_l1 : list Z := patch (replicate 4096 0) 0 (put_le 8 8192).
Definition sample_l2 : list Z :=
  patch (patch (patch (replicate 4096 0) 0 (put_le 8 12288)) 8 (put_le 8 1)) 16 (put_le 8 65536).
Definition sample_image : list Z := sample_header ++ sample_l1 ++ sample_l2 ++ replicate 4096 6.

Definition sample_disk (size : Z) : Disk :=
  mkDisk (file_reader sample_image) 4096 1 4096 512 12 21 511 size (8192 :: replicate 511 0) 512.

Lemma qed_sample_bytes : bytes_ok sample_image.
Proof. apply bytes_okb_ok. by vm_compute. Defined.

Lemma qed_sample_device : Device (file_reader sample_image) (len sample_image) (file_content sample_image).
Proof. apply file_device; [apply qed_sample_bytes|by vm_compute]. Defined.

Lemma qed_sample_wf size : size < 2 ^ 63 -> wf (sample_disk size).
Proof.
  intros Hs. split; cbn [sample_disk clusterSize clusterBits tableBytes tableNelems l1Shift l2Mask l1 diskSize l2Max];
    try (done || lia).
  split; [by vm_compute|]. apply Forall_cons. split; [lia|]. apply Forall_replicate. lia.
Defined.

Lemma qed_sample_tables size : tables_complete (sample_disk size).
Proof.
  intros o [->|Ho]%elem_of_cons Hne.
  - eexists. by vm_compute.
  - by apply elem_of_replicate in Ho as [-> _].
Defined.

Lemma qed_sample_cells size : cell_of (sample_disk size) 0 = Stored 12288 /\
  cell_of (sample_disk size) 1 = Hole /\ cell_of (sample_disk size) 2 = Stored 65536.
Proof. split_and!; by vm_compute. Defined.

Lemma qed_sample_complete : complete 4096 (cell_of (sample_disk 8192)) 8192 (len sample_image).
Proof.
  intros i a Hi. assert (0 <= i / 4096 < 2) by (split; [apply Z.div_pos|apply Z.div_lt_upper_bound]; lia).
  pose proof (Z.mod_pos_bound i 4096). change (len sample_image) with 16384.
  destruct (qed_sample_cells 8192) as (Hc0 & Hc1 & _).
  assert (i / 4096 = 0 \/ i / 4096 = 1) as [E|E] by lia; rewrite E, ?Hc0, ?Hc1; intros [= <-]; lia.
Defined.

Lemma qed_open_safe_witness : wp (Open (file_reader sample_image)) wf (fun _ => True).
Proof. apply qed_open_safe, file_shape, qed_sample_bytes. Defined.

Lemma qed_read_safe_witness :
  wp (ReadAt (sample_disk 8192) empty_lru [1; 2] 0)
     (fun r => cache_ok (sample_disk 8192) r.1 /\ len (r_buf r.2) = 2 /\ 0 <= r_n r.2 <= 2) no_err.
Proof.
  apply (qed_read_safe (sample_disk 8192) empty_lru [1; 2] 0);
    [by apply qed_sample_wf|apply file_shape, qed_sample_bytes|by apply empty_lru_ok].
Defined.

Lemma qed_read_refines_witness : exists c',
  ReadAt (sample_disk 8192) empty_lru [9; 9; 9; 9] 4094 = Ret (c', mkR [6; 6; 0; 0] 4 None).
Proof.
  destruct (qed_read_refines (sample_disk 8192) (len sample_image) (file_content sample_image)
    empty_lru [9; 9; 9; 9] 4094) as (c' & _ & Hr);
    [by apply qed_sample_wf|done|apply qed_sample_device|apply qed_sample_tables
    |apply qed_sample_complete|by apply empty_lru_ok|done|].
  exists c'. rewrite Hr. vm_compute. reflexivity.
Defined.

Lemma qed_truncated_keeps_buffer_witness : exists c',
  ReadAt (sample_disk 12288) empty_lru [9; 9] 8192 = Ret (c', mkR [9; 9] 2 None).
Proof.
  destruct (qed_truncated_keeps_buffer (sample_disk 12288) sample_image empty_lru [9; 9] 8192 65536)
    as (c' & _ & Hr);
    [by apply qed_sample_wf|done|apply qed_sample_bytes|by vm_compute|by apply empty_lru_ok
    |apply qed_sample_tables|done|done|done|by vm_compute|by apply qed_sample_cells
    |by vm_compute|done|].
  by exists c'.
Defined.

(** A read across the end of the disk: fewer bytes than the buffer holds, and no error. *)
Example qed_short_read_nil : match ReadAt (sample_disk 8192) empty_lru [9; 9; 9; 9] 8190 with Ret (_, r) => r = mkR [0; 0; 9; 9] 2 None | _ => False end.
Proof. vm_compute. reflexivity. Qed.
