(* ===== verification/QcowDisk.v ===== *)
(** * QcowDisk: QCOW version 1 images (qcow/qcow.go)

    Like QED a two-level table with the cache of [L2Cache], big-endian, and with
    clusters that may be zlib-compressed. zlib is a parameter: [zlib_open] is the
    error of [zlib.NewReader] on the compressed bytes, [zlib_full] the result of
    [io.ReadFull] of [n] bytes from it. *)

From S2P Require Import Prelude Bytes ReaderAt Chunks BlockMap L2Cache.

Definition qcowMagic : Z := 0x514649FB.
Definition qcowVersion : Z := 1.
Definition qcowCryptNone : Z := 0.
Definition qcowOflagCompressed : Z := 2 ^ 63.
Definition maxL1Entries : Z := 2 ^ 22.

Record Disk := mkDisk {
  ra : reader;
  clusterSize : Z;        (* int64 *)
  clusterBits : Z;
  l2Bits : Z;
  l2Size : Z;             (* int64 *)
  shift : Z;
  diskSize : Z;           (* int64 *)
  clusterOffsetMask : Z;  (* uint64 *)
  l1 : list Z;            (* []uint64 *)
  l2Max : Z
}.

(** The loop of [Open] that reads the L1 table entry by entry. *)
Fixpoint read_l1 (ra : reader) (l1Offset : Z) (n : nat) (i : Z) (l1Raw : list Z) : go (list Z) :=
  match n with
  | O => mret []
  | S n' =>
      b ← slice l1Raw (i * 8) (i * 8 + 8);
      b ← read_or ra "read QCOW L1 table: %w" b (i64 (i64 l1Offset + i * 8));
      t ← read_l1 ra l1Offset n' (i + 1) l1Raw;
      mret (BE b :: t)
  end.

(** [Open]; the cache of the new disk is [empty_lru]. *)
Definition Open (ra : reader) : go Disk :=
  hdr ← read_or ra "read qcow header: %w" (replicate 48 0) 0;
  if negb (be32 hdr 0 =? qcowMagic) || negb (be32 hdr 4 =? qcowVersion)
  then Err (Errorf "not a QCOW version 1 image")
  else
  let clusterBits := byte_at hdr 32 in
  if clusterBits <? 9 then Err (Errorf "invalid QCOW cluster_bits %d")
  else if negb (be32 hdr 36 =? qcowCryptNone)
  then Err (Errorf "encrypted QCOW images are not supported")
  else if negb (be32 hdr 16 =? 0)
  then Err (Errorf "QCOW images with a backing file are not supported")
  else
  let clusterSize := shl64s 1 clusterBits in
  let l2Bits := byte_at hdr 33 in
  let l2Size := shl64s 1 l2Bits in
  let shift := clusterBits + l2Bits in
  let diskSize := i64 (be64 hdr 24) in
  clusterOffsetMask ←
    (if 63 - clusterBits <? 0 then Panic NegativeShift
     else mret (u64 (shl64 1 (63 - clusterBits) - 1)));
  if diskSize <=? 0 then Err (Errorf "invalid QCOW image size")
  else
  let l1Size := Z.shiftr (i64 (i64 (diskSize + shl64s 1 shift) - 1)) shift in
  if maxL1Entries <? l1Size then Err (Errorf "QCOW L1 table too large (%d entries)")
  else
  let l1Offset := be64 hdr 40 in
  _ ← make 0 8 l1Size;
  l1Raw ← make 0 1 (i64 (l1Size * 8));
  l1 ← read_l1 ra l1Offset (Z.to_nat l1Size) 0 l1Raw;
  mret {| ra := ra; clusterSize := clusterSize; clusterBits := clusterBits; l2Bits := l2Bits;
          l2Size := l2Size; shift := shift; diskSize := diskSize;
          clusterOffsetMask := clusterOffsetMask; l1 := l1; l2Max := 512 |}.

Definition Size (d : Disk) : Z := diskSize d.

(** The part of [l2Table] that runs with the mutex released. *)
Definition load_table (d : Disk) (offset : Z) : go (list Z) :=
  raw ← make 0 1 (i64 (l2Size d * 8));
  raw ← read_or (ra d) "read QCOW L2 table at %d: %w" raw (i64 offset);
  _ ← make 0 8 (l2Size d);
  parse_words BE 8 (Z.to_nat (l2Size d)) 0 raw.

Definition l2Table (d : Disk) (c : Lru) (offset : Z) : go (Lru * list Z) :=
  cached_table (load_table d) (l2Max d) c offset.

Section zlib.
Variable zlib_open : list Z -> option error.
Variable zlib_full : list Z -> Z -> list Z + error.

Definition decompressCluster (d : Disk) (coffset csize : Z) : go (list Z) :=
  comp ← make 0 1 csize;
  r ← ra d comp (i64 coffset);
  match r_err r with
  | Some e => if bool_decide (e = EOF) then mret tt else Err (Wrapf "read compressed QCOW cluster: %w" e)
  | None => mret tt
  end;;
  let comp := r_buf r in
  match zlib_open comp with
  | Some e => Err (Wrapf "open compressed QCOW cluster: %w" e)
  | None =>
      _ ← make 0 1 (clusterSize d);
      match zlib_full comp (clusterSize d) with
      | inr e => Err (Wrapf "inflate QCOW cluster: %w" e)
      | inl out => mret out
      end
  end.

(** The two lookups of [ReadAt]: the entry that maps [off], 0 when a table has
    none. *)
Definition find_entry (d : Disk) (c : Lru) (off cluster : Z) : go (Lru * (Z + error)) :=
  let l1Index := Z.shiftr off (shift d) in
  if l1Index <? len (l1 d) then
    l2Offset ← index (l1 d) l1Index;
    if negb (l2Offset =? 0) then
      match l2Table d c l2Offset with
      | Ret (c', l2) =>
          let l2Index := i64 (Z.land (u64 cluster) (u64 (i64 (l2Size d - 1)))) in
          if l2Index <? len l2 then e ← index l2 l2Index; mret (c', inl e)
          else mret (c', inl 0)
      | Err e => mret (c, inr e)
      | Panic p => Panic p
      | OutOfFuel => OutOfFuel
      end
    else mret (c, inl 0)
  else mret (c, inl 0).

(** One round of the loop of [ReadAt]. *)
Definition read_cluster (d : Disk) (c : Lru) (p : list Z) (off : Z) : go (Lru * chunk) :=
  let clusterSize := clusterSize d in
  cluster ← div64 off clusterSize;
  inCluster ← rem64 off clusterSize;
  let n := len p in
  let n := if i64 (clusterSize - inCluster) <? n then i64 (clusterSize - inCluster) else n in
  '(c, found) ← find_entry d c off cluster;
  match found with
  | inr err => mret (c, ChunkErr p err)
  | inl e =>
      if e =? 0 then
        p ← clear p n; mret (c, Chunk p n)
      else if negb (Z.land e qcowOflagCompressed =? 0) then
        let coffset := Z.land e (clusterOffsetMask d) in
        let csize := i64 (Z.land (Z.shiftr e (63 - clusterBits d)) (u64 (i64 (clusterSize - 1)))) in
        match decompressCluster d coffset csize with
        | Ret full =>
            src ← slice full inCluster (i64 (inCluster + n));
            _ ← slice p 0 n;
            mret (c, Chunk (src ++ from p n) n)
        | Err err => mret (c, ChunkErr p err)
        | Panic x => Panic x
        | OutOfFuel => OutOfFuel
        end
      else
        let dataOff := i64 (i64 e + inCluster) in
        '(p, err) ← read_into (ra d) p n dataOff;
        match err with
        | Some e => if bool_decide (e = EOF) then mret (c, Chunk p n) else mret (c, ChunkErr p e)
        | None => mret (c, Chunk p n)
        end
  end.

Definition ReadAt (d : Disk) (c : Lru) (p : list Z) (off : Z) : go (Lru * rres) :=
  read_chunks (read_cluster d) (diskSize d) c p off.

(** ** Specification *)

(** The geometry of a disk that can be read: the size of a cluster and of a table
    are the powers of two of the header, and the L1 table covers the disk. *)
Record wf (d : Disk) : Prop := {
  wf_bits : 9 <= clusterBits d <= 47;
  wf_cluster : clusterSize d = 2 ^ clusterBits d;
  wf_l2bits : 0 <= l2Bits d <= 44;
  wf_l2size : l2Size d = 2 ^ l2Bits d;
  wf_shift : shift d = clusterBits d + l2Bits d /\ shift d <= 62;
  wf_size : diskSize d < 2 ^ 63;
  wf_mask : clusterOffsetMask d = 2 ^ (63 - clusterBits d) - 1;
  wf_max : l2Max d = 512
}.

(** What the documentation of zlib and [io.ReadFull] promises: a full read returns
    the bytes asked for. *)
Definition zlib_ok : Prop := forall comp n out,
  zlib_full comp n = inl out -> len out = n /\ bytes_ok out.

Definition entry_of (d : Disk) (k : Z) : Z :=
  let l2Offset := default 0 (l1 d !! Z.to_nat (k / l2Size d)) in
  if l2Offset =? 0 then 0
  else match load_table d l2Offset with
       | Ret l2 => default 0 (l2 !! Z.to_nat (k mod l2Size d))
       | _ => 0
       end.

(** The offset and size a compressed entry packs. *)
Definition packed_offset (d : Disk) (e : Z) : Z := e mod 2 ^ (63 - clusterBits d).
Definition packed_size (d : Disk) (e : Z) : Z := Z.shiftr e (63 - clusterBits d) mod clusterSize d.

Definition cell_of (d : Disk) (k : Z) : cell :=
  let e := entry_of d k in
  if e =? 0 then Hole
  else if Z.testbit e 63 then
    match decompressCluster d (packed_offset d e) (packed_size d e) with
    | Ret data => Inflated data
    | _ => Hole
    end
  else Stored (i64 e).

Definition content (d : Disk) (file : Z -> Z) : Z -> Z := mapped (clusterSize d) (cell_of d) file.

(** Every L2 table is in the file, and every compressed cluster inflates. *)
Definition tables_complete (d : Disk) : Prop :=
  forall o, o ∈ l1 d -> o <> 0 -> exists t, load_table d o = Ret t.
Definition clusters_inflate (d : Disk) : Prop := forall k,
  0 <= k -> Z.testbit (entry_of d k) 63 = true ->
  exists data, decompressCluster d (packed_offset d (entry_of d k)) (packed_size d (entry_of d k)) = Ret data.

Definition cache_ok (d : Disk) (c : Lru) : Prop := lru_ok (load_table d) (l2Max d) c.

(** ** Lemmas *)

Lemma qcow_cluster_pos d : wf d -> 2 ^ 9 <= clusterSize d <= 2 ^ 47.
Proof. intros [H1 H2 _ _ _ _ _ _]. rewrite H2. split; (apply Z.pow_le_mono_r; lia). Qed.

Lemma qcow_l2size_pos d : wf d -> 1 <= l2Size d <= 2 ^ 44.
Proof.
  intros [_ _ H1 H2 _ _ _ _]. rewrite H2. change 1 with (2 ^ 0) at 1.
  split; (apply Z.pow_le_mono_r; lia).
Qed.

Lemma qcow_parse_table n (raw : list Z) : 0 <= n -> len raw = n * 8 ->
  parse_words BE 8 (Z.to_nat n) 0 raw = Ret (words BE 8 (Z.to_nat n) raw).
Proof. intros. apply (parse_words_ok BE 8). lia. Qed.

Lemma qcow_load_table_shape d o : wf d -> ReaderShape (ra d) ->
  wp (load_table d o) (fun t => len t = l2Size d /\ Forall (fun e => 0 <= e < 2 ^ 64) t) (fun _ => True).
Proof.
  intros Hwf Hra. pose proof (qcow_l2size_pos d Hwf). unfold load_table.
  rewrite (i64_id (l2Size d * 8)), !make_ok by (unfold maxAlloc; lia). cbn [mbind go_bind].
  apply wp_bind. apply wp_read_or; [done| |done]. intros raw Hl Hb. rewrite len_replicate in Hl.
  rewrite qcow_parse_table by lia. cbn. rewrite len_words. split; [lia|].
  apply words_range; [|by apply Hb, bytes_ok_zeros].
  intros l Hl1 Hl2. by apply (BE_le_range l 8).
Qed.

Lemma qcow_l1_index d off : wf d -> 0 <= off ->
  Z.shiftr off (shift d) = off / clusterSize d / l2Size d.
Proof.
  intros [Hb Hc Hb2 Hc2 [Hs _] _ _ _] Ho. rewrite Z.shiftr_div_pow2, Hc, Hc2, Hs by lia.
  rewrite Z.div_div by (try apply Z.pow_pos_nonneg; try apply Z.pow_nonzero; lia).
  by rewrite <-Z.pow_add_r by lia.
Qed.

Lemma qcow_l2_index d k : wf d -> 0 <= k < 2 ^ 63 ->
  i64 (Z.land (u64 k) (u64 (i64 (l2Size d - 1)))) = k mod l2Size d.
Proof.
  intros Hwf Hk. pose proof (qcow_l2size_pos d Hwf). rewrite i64_id with (z := l2Size d - 1), !wrap_u_id by lia.
  assert (Z.land k (l2Size d - 1) = k mod l2Size d) as ->.
  { rewrite (wf_l2size d Hwf), land_mask by apply (wf_l2bits d Hwf). done. }
  pose proof (Z.mod_pos_bound k (l2Size d)). rewrite i64_id by lia. done.
Qed.

Lemma qcow_find_entry d c off : wf d -> ReaderShape (ra d) -> cache_ok d c -> 0 <= off < 2 ^ 63 ->
  wp (find_entry d c off (off / clusterSize d)) (fun r => cache_ok d r.1 /\
    match r.2 with
    | inl e => e = entry_of d (off / clusterSize d) /\ 0 <= e < 2 ^ 64
    | inr err => exists o, o ∈ l1 d /\ o <> 0 /\ load_table d o = Err err
    end) no_err.
Proof.
  intros Hwf Hra Hc Ho. pose proof (qcow_cluster_pos d Hwf) as Hcs. pose proof (qcow_l2size_pos d Hwf) as Hls.
  assert (0 <= off / clusterSize d < 2 ^ 63) as Hk.
  { split; [apply Z.div_pos; lia|apply Z.div_lt_upper_bound; nia]. }
  pose proof (wf_max d Hwf). unfold find_entry, entry_of, l2Table. cbn zeta.
  rewrite qcow_l1_index, (qcow_l2_index d (off / clusterSize d)) by (done || lia).
  set (k := off / clusterSize d) in *.
  assert (0 <= k / l2Size d) as Hk1 by (apply Z.div_pos; lia).
  pose proof (Z.mod_pos_bound k (l2Size d) ltac:(lia)) as Hk2.
  destruct_if.
  2: { cbn. split; [done|]. rewrite lookup_ge_None_2; [done|]. unfold len in *. lia. }
  destruct (index_ok (l1 d) (k / l2Size d)) as (o & Hl & ->); [lia|]. rewrite Hl. cbn [mbind go_bind].
  change (default 0 (Some o)) with o.
  destruct (Z.eqb_spec o 0) as [|Hne]; cbn [negb]; [done|].
  pose proof (qcow_load_table_shape d o Hwf Hra) as Hload.
  destruct (load_table d o) as [t|e| |] eqn:Et; cbn in Hload; [| |done|done].
  - destruct (wp_no_err_Ret _ _ (cached_table_ok (load_table d) (l2Max d) ltac:(lia) c o t Hc Et))
      as ([c' t'] & -> & Hc' & Ht). cbn [fst snd] in Hc', Ht. subst t'.
    destruct Hload as [Hlent Hrange]. rewrite Hlent. destruct_if; [|lia].
    destruct (index_ok t (k mod l2Size d)) as (e & He & ->); [lia|]. cbn. rewrite He.
    split; [done|]. split; [done|]. exact (Forall_lookup_1 _ _ _ _ Hrange He).
  - rewrite (cached_table_err (load_table d) (l2Max d) ltac:(lia) c o e) by done. cbn. split; [done|].
    exists o. split_and!; [|done|done]. by apply list_elem_of_lookup_2 in Hl.
Qed.

Hypothesis zlib_documented : zlib_ok.

Lemma qcow_decompress_shape d co cs : wf d -> ReaderShape (ra d) -> 0 <= cs <= 2 ^ 47 ->
  wp (decompressCluster d co cs) (fun l => len l = clusterSize d /\ bytes_ok l) (fun _ => True).
Proof.
  intros Hwf Hra Hcs. pose proof (qcow_cluster_pos d Hwf). unfold decompressCluster.
  rewrite !make_ok by (unfold maxAlloc; lia). cbn [mbind go_bind].
  apply wp_bind. eapply wp_mono; [apply shape_read| |intros ? []]. intros r _.
  apply wp_bind. apply (wp_mono _ (fun _ => True) _ (fun _ => True)); [|intros []|done].
  { destruct (r_err r) as [e|]; [|done]. by case_bool_decide. }
  intros _. destruct (zlib_open _); [done|].
  cbn [mbind go_bind].
  destruct (zlib_full _ _) as [out|] eqn:E; [|done]. cbn. by apply zlib_documented in E.
Qed.

Lemma qcow_packed d e : wf d -> 0 <= e < 2 ^ 64 ->
  Z.land e (clusterOffsetMask d) = packed_offset d e /\
  i64 (Z.land (Z.shiftr e (63 - clusterBits d)) (u64 (i64 (clusterSize d - 1)))) = packed_size d e /\
  0 <= packed_size d e < clusterSize d.
Proof.
  intros Hwf He. pose proof (qcow_cluster_pos d Hwf). pose proof (wf_bits d Hwf).
  pose proof (Z.mod_pos_bound (Z.shiftr e (63 - clusterBits d)) (clusterSize d) ltac:(lia)).
  unfold packed_offset, packed_size. split_and!; try lia.
  - by rewrite (wf_mask d Hwf), land_mask by lia.
  - rewrite i64_id with (z := clusterSize d - 1), wrap_u_id by lia.
    assert (forall x, Z.land x (clusterSize d - 1) = x mod clusterSize d) as Hl.
    { intros x. rewrite (wf_cluster d Hwf), land_mask by lia. done. }
    rewrite Hl, i64_id by lia. done.
Qed.

Lemma qcow_inflated d : wf d -> ReaderShape (ra d) ->
  Forall (fun o => 0 <= o < 2 ^ 64) (l1 d) -> inflated_ok (clusterSize d) (cell_of d).
Proof.
  intros Hwf Hra Hl1 k data. unfold cell_of. destruct_if; [done|]. destruct (Z.testbit _ 63); [|done].
  intros Heq. pose proof (qcow_cluster_pos d Hwf). pose proof (wf_bits d Hwf).
  pose proof (Z.mod_pos_bound (Z.shiftr (entry_of d k) (63 - clusterBits d)) (clusterSize d) ltac:(lia)).
  pose proof (qcow_decompress_shape d (packed_offset d (entry_of d k)) (packed_size d (entry_of d k)) Hwf Hra
    ltac:(unfold packed_size; lia)) as Hs.
  destruct (decompressCluster d _ _); try done. injection Heq as ->. done.
Qed.

(** A round is the lookup followed by a read of the cluster map, unless a cluster
    fails to inflate. *)
Lemma qcow_read_cluster d c p off (P : Lru * chunk -> Prop) :
  wf d -> ReaderShape (ra d) -> cache_ok d c -> 0 < len p -> 0 <= off -> off + len p <= diskSize d ->
  (forall c', cache_ok d c' ->
     wp (read_cell (clusterSize d) (cell_of d) (ra d) true p off) (fun ch => P (c', ch)) no_err) ->
  (forall c' o err, cache_ok d c' -> o ∈ l1 d -> o <> 0 -> load_table d o = Err err -> P (c', ChunkErr p err)) ->
  (forall c' err, cache_ok d c' -> let e := entry_of d (off / clusterSize d) in
     Z.testbit e 63 = true -> decompressCluster d (packed_offset d e) (packed_size d e) = Err err ->
     P (c', ChunkErr p err)) ->
  wp (read_cluster d c p off) P no_err.
Proof.
  intros Hwf Hra Hc Hp Ho Hl Hcell Herr Hinf. pose proof (qcow_cluster_pos d Hwf) as Hcs.
  pose proof (wf_size d Hwf).
  destruct (piece_bounds (clusterSize d) ltac:(lia) p off Hp) as (Hn & Hm & Hi).
  unfold read_cluster. cbn zeta.
  rewrite div64_ok, rem64_ok by lia. cbn [mbind go_bind].
  rewrite !(i64_id (clusterSize d - off mod _)) by lia.
  replace (if _ <? len p then _ else _) with (piece (clusterSize d) p off) by (unfold piece; destruct_if; lia).
  apply wp_bind. eapply wp_mono; [by apply qcow_find_entry; [..|lia]| |done].
  intros [c' [e|err]] [Hc' He]; cbn [fst snd] in Hc', He.
  2: { destruct He as (o & ? & ? & ?). by apply (Herr c' o). }
  destruct He as [-> Hrange]. specialize (Hcell c' Hc'). specialize (Hinf c').
  destruct (qcow_packed d _ Hwf Hrange) as (Hpo & Hps & Hpr).
  unfold read_cell, cell_of in Hcell. cbn zeta in Hcell.
  set (e := entry_of d _) in *. set (n := piece _ p off) in *.
  destruct (e =? 0); [by rewrite clear_ok by lia|].
  unfold qcowOflagCompressed. rewrite land_bit, negb_involutive by lia.
  destruct (Z.testbit e 63) eqn:Hbit.
  - rewrite Hpo, Hps. pose proof (qcow_decompress_shape d (packed_offset d e) (packed_size d e) Hwf Hra ltac:(lia)) as Hd.
    destruct (decompressCluster d _ _) as [data|err| |] eqn:Ed; cbn in Hd; [|by apply (Hinf err Hc' Hbit)|done|done].
    destruct Hd as [Hlen _]. rewrite i64_id by lia. rewrite !slice_ok by lia. exact Hcell.
  - rewrite i64_add_l in Hcell |- *. cbn [andb] in Hcell.
    destruct (read_into _ _ _ _) as [[p' [x|]]| | |]; try done.
    cbn in Hcell |- *. by case_bool_decide.
Qed.

Lemma qcow_step_shape d : wf d -> ReaderShape (ra d) -> Forall (fun o => 0 <= o < 2 ^ 64) (l1 d) ->
  step_shape (read_cluster d) (cache_ok d) (diskSize d).
Proof.
  intros Hwf Hra Hl1 c p off Hc Hp Ho Hl. pose proof (qcow_cluster_pos d Hwf).
  apply qcow_read_cluster; try done.
  intros c' Hc'. eapply wp_mono; [apply read_cell_shape; [lia|by apply qcow_inflated|done|done]| |done].
  intros ch Hch. done.
Qed.

Lemma qcow_step_reads d fsize file : wf d -> Device (ra d) fsize file ->
  Forall (fun o => 0 <= o < 2 ^ 64) (l1 d) -> tables_complete d -> clusters_inflate d ->
  complete (clusterSize d) (cell_of d) (diskSize d) fsize ->
  step_reads (read_cluster d) (cache_ok d) (diskSize d) (content d file).
Proof.
  intros Hwf Hra Hl1 Ht Hinf Hcomp c p off Hc Hp Ho Hl. pose proof (qcow_cluster_pos d Hwf).
  apply qcow_read_cluster; try done; [apply dev_shape|..].
  - intros c' Hc'.
    destruct (read_cell_reads (clusterSize d) (cell_of d) ltac:(lia) (ra d) true (diskSize d) fsize file p off)
      as (n & -> & Hn); [apply qcow_inflated; [done|apply dev_shape|done]|done..|].
    cbn. split; [done|]. by exists (span (content d file) off n ++ from p n), n.
  - intros c' o err _ Hin Hne He. destruct (Ht o Hin Hne) as [t Ht']. congruence.
  - intros c' err _ e Hbit He.
    destruct (Hinf (off / clusterSize d) ltac:(apply Z.div_pos; lia) Hbit) as [data Hd]. fold e in Hd. congruence.
Qed.
End zlib.

Lemma qcow_read_l1 ra l1Offset n i raw : ReaderShape ra -> bytes_ok raw ->
  0 <= i -> (i + Z.of_nat n) * 8 <= len raw ->
  wp (read_l1 ra l1Offset n i raw)
     (fun t => len t = Z.of_nat n /\ Forall (fun e => 0 <= e < 2 ^ 64) t) (fun _ => True).
Proof.
  intros Hra Hraw. revert i. induction n as [|n IH]; intros i Hi Hl; [done|]. cbn [read_l1].
  rewrite slice_ok by lia. cbn [mbind go_bind].
  apply wp_bind. apply wp_read_or; [done| |done]. intros b Hlb Hb. rewrite len_sub in Hlb by lia.
  apply wp_bind. eapply wp_mono; [apply IH; lia| |done].
  intros t [Hlt Ht]. cbn. rewrite len_cons. split; [lia|]. apply Forall_cons. split; [|done].
  apply (BE_le_range b 8); [by apply Hb, bytes_ok_sub|]. unfold len in Hlb. lia.
Qed.

(** The checks of [Open] on the fields before the size. *)
Definition header_ok (hdr : list Z) : Prop :=
  be32 hdr 0 = qcowMagic /\ be32 hdr 4 = qcowVersion /\ 9 <= byte_at hdr 32 /\
  be32 hdr 36 = qcowCryptNone /\ be32 hdr 16 = 0.

Lemma shl64s_small n : 0 <= n <= 62 -> shl64s 1 n = 2 ^ n.
Proof.
  intros. unfold shl64s. rewrite shiftl_1 by lia. apply i64_id.
  pose proof (Z.pow_le_mono_r 2 n 62). pose proof (Z.pow_pos_nonneg 2 n). lia.
Qed.

(** ** Properties *)

(** Opening a byte source never panics when the header's cluster and table
    sizes fit ([cluster_bits] at most 47, [l2_bits] at most 44, 62 together) and
    the disk size leaves room for rounding up to a table: it fails with an error or
    gives a disk of that geometry with an L1 table of 64-bit entries. *)
Theorem qcow_open_safe ra : ReaderShape ra ->
  (forall hdr, read_or ra "read qcow header: %w" (replicate 48 0) 0 = Ret hdr ->
     byte_at hdr 32 <= 47 /\ byte_at hdr 33 <= 44 /\ byte_at hdr 32 + byte_at hdr 33 <= 62 /\
     i64 (be64 hdr 24) + 2 ^ (byte_at hdr 32 + byte_at hdr 33) <= 2 ^ 63) ->
  wp (Open ra) (fun d => wf d /\ Forall (fun e => 0 <= e < 2 ^ 64) (l1 d)) (fun _ => True).
Proof.
  intros Hra Hfit. unfold Open. apply wp_bind. apply wp_read_or_eq; [done| |done].
  intros hdr Hhdr _ Hb. specialize (Hb (bytes_ok_zeros 48)). apply Hfit in Hhdr as (H1 & H2 & H3 & H4).
  pose proof (byte_at_range hdr 33 Hb) as Hb33. unfold is_byte in Hb33.
  do 2 (destruct_if; [|done]). cbn [orb negb]. cbn zeta. destruct_if; [done|].
  do 2 (destruct_if; [|done]). cbn [negb].
  set (cb := byte_at hdr 32) in *. set (lb := byte_at hdr 33) in *.
  rewrite (proj2 (Z.ltb_ge (63 - cb) 0)) by lia. cbn [mbind go_bind mret go_ret]. destruct_if; [done|].
  rewrite !shl64s_small by lia. set (size := i64 (be64 hdr 24)) in *.
  pose proof (Z.pow_pos_nonneg 2 (cb + lb) ltac:(lia) ltac:(lia)).
  assert (i64 (i64 (size + 2 ^ (cb + lb)) - 1) = size + 2 ^ (cb + lb) - 1) as ->.
  { rewrite <-Z.add_opp_r, i64_add_l. apply i64_id. lia. }
  destruct_if; [done|]. unfold maxL1Entries in *. set (n := Z.shiftr _ _) in *.
  assert (0 <= n) by (unfold n; apply Z.shiftr_nonneg; lia).
  rewrite (i64_id (n * 8)), !make_ok by (unfold maxAlloc; lia). cbn [mbind go_bind].
  apply wp_bind. eapply wp_mono; [apply qcow_read_l1| |done]; try (done || lia);
    [apply bytes_ok_zeros|rewrite len_replicate; lia|].
  intros t [Hlt Ht]. cbn. split; [|done].
  split; cbn [clusterBits clusterSize l2Bits l2Size shift diskSize clusterOffsetMask l2Max]; try (done || lia).
  pose proof (Z.pow_le_mono_r 2 (63 - cb) 54 ltac:(lia) ltac:(lia)).
  pose proof (Z.pow_pos_nonneg 2 (63 - cb) ltac:(lia) ltac:(lia)).
  unfold shl64. rewrite shiftl_1 by lia. rewrite (wrap_u_id 64 (2 ^ (63 - cb))), wrap_u_id by lia. done.
Qed.

(** [cluster_bits] has no upper bound in [Open]: a header that announces 64 or
    more makes the count of the shift [63 - clusterBits] negative, and [Open]
    panics. *)
Theorem qcow_open_shift_panics ra fsize file : Device ra fsize file ->
  let hdr := span file 0 48 in
  48 <= fsize -> header_ok hdr -> 64 <= byte_at hdr 32 ->
  Open ra = Panic NegativeShift.
Proof.
  intros Hra hdr Hsz (H1 & H2 & _ & H4 & H5) Hcb. unfold Open.
  rewrite (read_or_full ra fsize file) by reads. cbn [mbind go_bind].
  change (span file 0 _) with hdr. rewrite H1, H2, H4, H5, !Z.eqb_refl. cbn [negb orb]. cbn zeta.
  destruct_if; [lia|]. by rewrite (proj2 (Z.ltb_lt (63 - byte_at hdr 32) 0)) by lia.
Qed.

(** The size of the L1 table is computed with a 64-bit sum: a disk size so
    large that rounding it up to a table passes [2^63] gives a negative length,
    which is under the bound on the table, and [Open] panics in [make]. *)
Theorem qcow_open_size_panics ra fsize file : Device ra fsize file ->
  let hdr := span file 0 48 in
  let shift := byte_at hdr 32 + byte_at hdr 33 in
  48 <= fsize -> header_ok hdr -> shift <= 62 ->
  0 < i64 (be64 hdr 24) -> 2 ^ 63 < i64 (be64 hdr 24) + 2 ^ shift ->
  Open ra = Panic MakeLenOutOfRange.
Proof.
  intros Hra hdr sh Hsz (H1 & H2 & H3 & H4 & H5) Hsh Hpos Hbig. unfold Open.
  assert (bytes_ok hdr) as Hb by apply span_bytes, dev_bytes.
  pose proof (byte_at_range hdr 33 Hb) as Hb33. unfold is_byte in Hb33.
  assert (byte_at hdr 32 <= 62) by (unfold sh in Hsh; lia).
  assert (0 <= sh) by (unfold sh; lia).
  rewrite (read_or_full ra fsize file) by reads. cbn [mbind go_bind].
  change (span file 0 _) with hdr. rewrite H1, H2, H4, H5, !Z.eqb_refl. cbn [negb orb]. cbn zeta.
  destruct_if; [lia|]. rewrite (proj2 (Z.ltb_ge (63 - byte_at hdr 32) 0)) by lia.
  cbn [mbind go_bind mret go_ret]. destruct_if; [lia|].
  fold sh. rewrite (shl64s_small sh) by lia. set (size := i64 (be64 hdr 24)) in *.
  pose proof (i64_range (be64 hdr 24)) as Hr. fold size in Hr.
  pose proof (Z.pow_le_mono_r 2 sh 62 ltac:(lia) ltac:(lia)).
  assert (i64 (i64 (size + 2 ^ sh) - 1) = size + 2 ^ sh - 1 - 2 ^ 64) as ->.
  { rewrite <-Z.add_opp_r, i64_add_l. rewrite <-(i64_plus_mult _ (-1)), i64_id by lia. lia. }
  assert (Z.shiftr (size + 2 ^ sh - 1 - 2 ^ 64) sh < 0) as Hneg by (apply Z.shiftr_neg; lia).
  rewrite (proj2 (Z.ltb_ge maxL1Entries _)) by (unfold maxL1Entries; lia).
  by rewrite (make_neg 0 8) by done.
Qed.

(** A read of an opened disk never panics and terminates, keeps the length of
    the buffer and its count within it, and leaves the table cache coherent and
    bounded, whatever the file below holds: corrupt table entries, compressed
    clusters that do not inflate and short reads included. *)
Theorem qcow_read_safe zlib_open zlib_full d c p off :
  zlib_ok zlib_full -> wf d -> Forall (fun o => 0 <= o < 2 ^ 64) (l1 d) ->
  ReaderShape (ra d) -> cache_ok d c ->
  wp (ReadAt zlib_open zlib_full d c p off)
     (fun r => cache_ok d r.1 /\ len (r_buf r.2) = len p /\ 0 <= r_n r.2 <= len p) no_err.
Proof.
  intros Hz Hwf Hl1 Hra Hc. eapply wp_mono; [apply read_chunks_shape|..].
  - apply Hwf.
  - by apply qcow_step_shape.
  - done.
  - intros r (? & ? & ? & _). auto.
  - done.
Qed.

(** C38. Reading refines the two-level table and the compressed clusters: over an
    image whose tables and data clusters are in the file and whose compressed
    clusters inflate, [ReadAt] returns the bytes of the disk, where a cluster whose
    entry has the top bit is the inflation of the [csize] bytes at the [coffset]
    the entry packs: as many bytes as the buffer holds or the disk has left. The error is
    [io.EOF] exactly when no byte is delivered, at the end or into an empty buffer; a read
    across the end gives the bytes before it with a nil error, which is not what
    [io.ReaderAt] asks for. *)
Theorem qcow_read_refines zlib_open zlib_full d fsize file c p off :
  zlib_ok zlib_full -> wf d -> Forall (fun o => 0 <= o < 2 ^ 64) (l1 d) -> 0 <= diskSize d ->
  Device (ra d) fsize file -> tables_complete d -> clusters_inflate zlib_open zlib_full d ->
  complete (clusterSize d) (cell_of zlib_open zlib_full d) (diskSize d) fsize -> cache_ok d c -> 0 <= off ->
  let n := Z.max 0 (Z.min (len p) (diskSize d - off)) in
  exists c', cache_ok d c' /\
    ReadAt zlib_open zlib_full d c p off =
    Ret (c', mkR (span (content zlib_open zlib_full d file) off n ++ from p n) n
                 (if n =? 0 then Some EOF else None)).
Proof.
  intros Hz Hwf Hl1 Hd Hra Ht Hinf Hcomp Hc Ho n. pose proof (wf_size d Hwf).
  destruct (wp_no_err_Ret _ _ (read_chunks_reads (read_cluster zlib_open zlib_full d) (cache_ok d) (diskSize d)
    (content zlib_open zlib_full d file) c p off ltac:(lia)
    ltac:(by apply (qcow_step_reads zlib_open zlib_full Hz d fsize)) Hc Ho)) as ([c' r] & Hr & Hc' & Hres).
  exists c'. split; [done|]. unfold ReadAt. rewrite Hr. cbn in Hres. by rewrite Hres.
Qed.

(** ** A sample image: clusters of 512 bytes, tables of four entries

    Disk cluster 0 is stored, cluster 1 is compressed, cluster 2 is unallocated.
    The sample decompressor repeats the first byte of its input. *)

Definition toy_open (comp : list Z) : option error := None.
Definition toy_full (comp : list Z) (n : Z) : list Z + error :=
  if n <? 0 then inr EOF else inl (replicate (Z.to_nat n) (byte_at comp 0 mod 256)).

Definition sample_header (clusterBits l2Bits size : Z) : list Z :=
  let h := replicate 48 0 in
  let h := patch h 0 (put_be 4 qcowMagic) in
  let h := patch h 4 (put_be 4 qcowVersion) in
  let h := patch h 24 (put_be 8 size) in
  let h := patch h 32 [clusterBits; l2Bits] in
  patch h 40 (put_be 8 48).

Definition packed_entry : Z := 2 ^ 63 + 3 * 2 ^ 54 + 100.

Definition sample_image : list Z :=
  let h := sample_header 9 2 1536 ++ put_be 8 64 ++ replicate 456 0 in
  let h := patch h 64 (put_be 8 512) in
  let h := patch h 72 (put_be 8 packed_entry) in
  patch h 100 [5; 5; 5] ++ replicate 512 6.

Definition sample_disk : Disk :=
  mkDisk (file_reader sample_image) 512 9 2 4 11 1536 (2 ^ 54 - 1) [64] 512.

Lemma toy_ok : zlib_ok toy_full.
Proof.
  intros comp n out. unfold toy_full. destruct_if; [done|]. intros [= <-].
  rewrite len_replicate. split; [lia|]. apply Forall_replicate. apply (is_byte_u8 (byte_at comp 0)).
Defined.

Lemma qcow_sample_bytes : bytes_ok sample_image.
Proof. apply bytes_okb_ok. by vm_compute. Defined.

Lemma qcow_sample_device : Device (file_reader sample_image) (len sample_image) (file_content sample_image).
Proof. apply file_device; [apply qcow_sample_bytes|by vm_compute]. Defined.

Lemma qcow_header_device cb lb size : bytes_okb (sample_header cb lb size) = true ->
  (len (sample_header cb lb size) <? 2 ^ 63) = true ->
  Device (file_reader (sample_header cb lb size)) (len (sample_header cb lb size)) (file_content (sample_header cb lb size)).
Proof. intros H ?%Z.ltb_lt. apply file_device; [by apply bytes_okb_ok|done]. Defined.

Lemma qcow_sample_wf : wf sample_disk.
Proof. split; cbn; (done || lia). Defined.

Lemma qcow_sample_tables : tables_complete sample_disk.
Proof. intros o [->|Ho]%elem_of_cons Hne; [eexists; by vm_compute|by apply not_elem_of_nil in Ho]. Defined.

Lemma qcow_sample_entries k : 0 <= k ->
  entry_of sample_disk k = match k with 0 => 512 | 1 => packed_entry | _ => 0 end.
Proof.
  intros Hk. unfold entry_of. change (l2Size sample_disk) with 4.
  destruct (Z.ltb_spec k 4).
  - rewrite Z.div_small, Z.mod_small by lia.
    assert (k = 0 \/ k = 1 \/ k = 2 \/ k = 3) as [->|[->|[->| ->]]] by lia; by vm_compute.
  - assert (1 <= k / 4) by (apply Z.div_le_lower_bound; lia).
    rewrite lookup_ge_None_2 by (cbn; lia). cbn. destruct k as [|k|k]; [lia| |lia]. by destruct k; [..|lia].
Defined.

Lemma qcow_sample_inflate : clusters_inflate toy_open toy_full sample_disk.
Proof.
  intros k Hk Hbit. rewrite qcow_sample_entries in Hbit |- * by done.
  destruct k as [|k|k]; [done| |lia]. destruct k; [done|done|]. eexists. by vm_compute.
Defined.

Lemma qcow_sample_complete : complete 512 (cell_of toy_open toy_full sample_disk) 1536 (len sample_image).
Proof.
  intros i a Hi. assert (0 <= i / 512 < 3) by (split; [apply Z.div_pos|apply Z.div_lt_upper_bound]; lia).
  pose proof (Z.mod_pos_bound i 512). change (len sample_image) with 1024. unfold cell_of.
  rewrite qcow_sample_entries by lia.
  assert (i / 512 = 0 \/ i / 512 = 1 \/ i / 512 = 2) as [E|[E|E]] by lia; rewrite E; cbn [Z.eqb].
  - intros [= <-]. rewrite i64_id by lia. lia.
  - change (Z.testbit packed_entry 63) with true. cbn iota. destruct (decompressCluster _ _ _ _ _); done.
  - done.
Defined.

Lemma qcow_sample_l1 : Forall (fun o => 0 <= o < 2 ^ 64) (l1 sample_disk).
Proof. apply Forall_singleton. lia. Defined.

Lemma qcow_open_safe_witness :
  wp (Open (file_reader sample_image)) (fun d => wf d /\ Forall (fun e => 0 <= e < 2 ^ 64) (l1 d)) (fun _ => True).
Proof.
  apply qcow_open_safe; [apply file_shape, qcow_sample_bytes|].
  intros hdr H. assert (hdr = sample_header 9 2 1536) as -> by (vm_compute in H; by injection H as <-).
  vm_compute. split_and!; congruence.
Defined.

Lemma qcow_open_shift_panics_witness : Open (file_reader (sample_header 64 9 512)) = Panic NegativeShift.
Proof.
  apply (qcow_open_shift_panics _ (len (sample_header 64 9 512)) (file_content (sample_header 64 9 512)));
    [by apply qcow_header_device; vm_compute|by vm_compute| |by vm_compute].
  unfold header_ok. vm_compute. split_and!; congruence.
Defined.

Lemma qcow_open_size_panics_witness :
  Open (file_reader (sample_header 16 9 (2 ^ 63 - 1))) = Panic MakeLenOutOfRange.
Proof.
  apply (qcow_open_size_panics _ (len (sample_header 16 9 (2 ^ 63 - 1)))
    (file_content (sample_header 16 9 (2 ^ 63 - 1)))); [by apply qcow_header_device; vm_compute|by vm_compute| |by vm_compute..].
  unfold header_ok. vm_compute. split_and!; congruence.
Defined.

Lemma qcow_read_safe_witness :
  wp (ReadAt toy_open toy_full sample_disk empty_lru [1; 2] 511)
     (fun r => cache_ok sample_disk r.1 /\ len (r_buf r.2) = 2 /\ 0 <= r_n r.2 <= 2) no_err.
Proof.
  apply (qcow_read_safe toy_open toy_full sample_disk empty_lru [1; 2] 511);
    [apply toy_ok|apply qcow_sample_wf|apply qcow_sample_l1|apply file_shape, qcow_sample_bytes|by apply empty_lru_ok].
Defined.

Lemma qcow_read_refines_witness : exists c',
  ReadAt toy_open toy_full sample_disk empty_lru (replicate 516 9) 510 =
  Ret (c', mkR ([6; 6] ++ replicate 512 5 ++ [0; 0]) 516 None).
Proof.
  destruct (qcow_read_refines toy_open toy_full sample_disk (len sample_image) (file_content sample_image)
    empty_lru (replicate 516 9) 510) as (c' & _ & Hr);
    [apply toy_ok|apply qcow_sample_wf|apply qcow_sample_l1|done|apply qcow_sample_device
    |apply qcow_sample_tables|apply qcow_sample_inflate|apply qcow_sample_complete|by apply empty_lru_ok|done|].
  exists c'. rewrite Hr. vm_compute. reflexivity.
Defined.

(** A read across the end of the disk: fewer bytes than the buffer holds, and no error. *)
Example qcow_short_read_nil : match ReadAt toy_open toy_full sample_disk empty_lru [9; 9; 9; 9] 1534 with Ret (_, r) => r = mkR [0; 0; 9; 9] 2 None | _ => False end.
Proof. vm_compute. reflexivity. Qed.
