(* ===== verification/Vmdk.v ===== *)
(** * Vmdk: sparse VMware disk images (vmdk/vmdk.go)

    [Open] reads the grain directory and the grain tables; [ReadAt] finds the grain of each
    piece through them, and inflates it when the image is compressed. zlib is a parameter:
    [zlib_open] is the error of [zlib.NewReader] on the compressed bytes, [zlib_read] what
    [io.ReadFull] then delivers into a buffer of the given length, with its error. The two
    buffers that one call of [ReadAt] shares between its grains are the state of its loop. *)

From S2P Require Import Prelude Bytes ReaderAt Chunks BlockMap.

Definition sectorSize : Z := 512.
Definition sparseMagic : Z := 0x564d444b.
Definition flagCompress : Z := 2 ^ 16.
Definition flagEmbedLBA : Z := 2 ^ 17.

Record Disk := mkDisk {
  ra : reader; size : Z; grainBytes : Z; grainSectors : Z; lastGrain : Z; lastGrainSize : Z;
  compressed : bool; embedLBA : bool; gt : list Z (* []uint32 *)
}.

(** The entries of one grain table that the disk has. *)
Definition table_entries (gtBuf : list Z) (base gtes numGTEsPerGT : Z) (gt : list Z) : go (list Z) :=
  go_for (S (Z.to_nat numGTEsPerGT)) (fun '(j, gt) =>
    if (j <? numGTEsPerGT) && (i64 (base + j) <? gtes) then
      e ← get_le 4 gtBuf (j * 4) (j * 4 + 4);
      gt ← store gt (i64 (base + j)) e;
      mret (inl (j + 1, gt))
    else mret (inr gt)) (0, gt).

(** The grain table of one entry of the directory. *)
Definition load_table (ra : reader) (gd : list Z) (gtes numGTEsPerGT : Z) (i : Z) (st : list Z * list Z) : go (list Z * list Z) :=
  let '(gt, gtBuf) := st in
  gtSector ← get_le 4 gd (i * 4) (i * 4 + 4);
  if (gtSector =? 0) || (gtSector =? 1) then mret (gt, gtBuf)
  else
    gtBuf ← read_or ra "read vmdk grain table %d: %w" gtBuf (i64 (gtSector * sectorSize));
    gt ← table_entries gtBuf (i64 (i * numGTEsPerGT)) gtes numGTEsPerGT gt;
    mret (gt, gtBuf).

Definition Open (ra : reader) : go Disk :=
  hdr ← make 0 1 sectorSize;
  hdr ← read_or ra "read vmdk header: %w" hdr 0;
  magic ← get_le 4 hdr 0 4;
  if negb (magic =? sparseMagic) then Err (Errorf "not a VMDK sparse extent")
  else
    flags ← get_le 4 hdr 8 12;
    capacity ← get_le 8 hdr 12 20; let capacity := i64 capacity in
    grainSectors ← get_le 8 hdr 20 28; let grainSectors := i64 grainSectors in
    numGTEsPerGT ← get_le 4 hdr 44 48;
    gdOffset ← get_le 8 hdr 56 64; let gdOffset := i64 gdOffset in
    if (grainSectors <? 1) || (128 <? grainSectors) || negb (Z.land grainSectors (grainSectors - 1) =? 0)
    then Err (Errorf "invalid vmdk grain size %d sectors")
    else
      lastGrain ← div64 capacity grainSectors;
      let lastGrainSize := i64 (Z.land capacity (grainSectors - 1) * sectorSize) in
      let gtes := if negb (lastGrainSize =? 0) then i64 (lastGrain + 1) else lastGrain in
      if (gtes =? 0) || (numGTEsPerGT =? 0) then Err (Errorf "invalid vmdk grain table geometry")
      else
        gts ← div64 (i64 (i64 (gtes + numGTEsPerGT) - 1)) numGTEsPerGT;
        gdSectors ← div64 (i64 (i64 (i64 (gts * 4) + sectorSize) - 1)) sectorSize;
        gtSectors ← div64 (numGTEsPerGT * 4 + sectorSize - 1) sectorSize;
        gd ← make 0 1 (i64 (gdSectors * sectorSize));
        gd ← read_or ra "read vmdk grain directory: %w" gd (i64 (gdOffset * sectorSize));
        gt ← make 0 4 gtes;
        gtBuf ← make 0 1 (gtSectors * sectorSize);
        '(gt, _) ← go_range (load_table ra gd gtes numGTEsPerGT) 0 (Z.to_nat gts) (gt, gtBuf);
        mret (mkDisk ra (i64 (capacity * sectorSize)) (grainSectors * sectorSize) grainSectors lastGrain lastGrainSize
                (negb (Z.land flags flagCompress =? 0)) (negb (Z.land flags flagEmbedLBA =? 0)) gt).

Definition Size (d : Disk) : Z := size d.

(** The buffers of one call: [grainBuf] and [readBuf]. *)
Definition buffers : Type := list Z * list Z.

(** [d.ra.ReadAt(b[lo:hi], off)]: the buffer after it and the error. *)
Definition fill_range (ra : reader) (b : list Z) (lo hi off : Z) : go (list Z * option error) :=
  q ← slice b lo hi;
  r ← ra q off;
  mret (patch b lo (r_buf r), r_err r).

Section zlib.
Variable zlib_open : list Z -> option error.
Variable zlib_read : list Z -> Z -> list Z * option error.

(** [copy(dst, grainBuf[skip:skip+int64(len(dst))])] *)
Definition from_grain (n skip : Z) (st : buffers) : go (buffers * (list Z + error)) :=
  src ← slice (fst st) skip (i64 (skip + n)); mret (st, inl src).

(** What is copied into the [n] bytes of [dst], or the error. *)
Definition readGrain (d : Disk) (sector n skip : Z) (st : buffers) : go (buffers * (list Z + error)) :=
  let '(grainBuf, readBuf) := st in
  if negb (compressed d) then
    '(grainBuf, err) ← fill_range (ra d) grainBuf 0 (grainBytes d) (i64 (sector * sectorSize));
    match err with
    | Some e => mret ((grainBuf, readBuf), inr e)
    | None => from_grain n skip (grainBuf, readBuf)
    end
  else
    let hdrlen := if embedLBA d then 12 else 4 in
    '(readBuf, err) ← fill_range (ra d) readBuf 0 sectorSize (i64 (sector * sectorSize));
    match err with
    | Some e => mret ((grainBuf, readBuf), inr e)
    | None =>
        cmpSize ← get_le 4 readBuf (hdrlen - 4) hdrlen;
        let totalBytes := hdrlen + cmpSize in
        '(readBuf, err) ← (if sectorSize <? totalBytes then
                             let extra := Z.ldiff (totalBytes - sectorSize + sectorSize - 1) (sectorSize - 1) in
                             fill_range (ra d) readBuf sectorSize (sectorSize + extra) (i64 ((sector + 1) * sectorSize))
                           else mret (readBuf, None));
        match err with
        | Some e => mret ((grainBuf, readBuf), inr e)
        | None =>
            comp ← slice readBuf hdrlen (hdrlen + cmpSize);
            match zlib_open comp with
            | Some e => mret ((grainBuf, readBuf), inr (Wrapf "grain at sector %d: %w" e))
            | None =>
                full ← slice grainBuf 0 (grainBytes d);
                let '(data, err) := zlib_read comp (len full) in
                let grainBuf := data ++ from grainBuf (len data) in
                match err with
                | Some e => if bool_decide (e = ErrUnexpectedEOF) then from_grain n skip (grainBuf, readBuf)
                            else mret ((grainBuf, readBuf), inr (Wrapf "inflate grain at sector %d: %w" e))
                | None => from_grain n skip (grainBuf, readBuf)
                end
            end
        end
    end.

(** One round of the loop of [ReadAt]. *)
Definition read_piece (d : Disk) (st : buffers) (p : list Z) (off : Z) : go (buffers * chunk) :=
  grainNr ← div64 off (grainBytes d);
  skip ← rem64 off (grainBytes d);
  let short := (grainNr =? lastGrain d) && negb (lastGrainSize d =? 0) in
  let grainSize := if short then lastGrainSize d else grainBytes d in
  if negb short && (lastGrain d <? grainNr) then mret (st, ChunkStop)
  else if grainSize <=? skip then mret (st, ChunkStop)
  else
    let readLen := i64 (grainSize - skip) in
    let readLen := if len p <? readLen then len p else readLen in
    if len (gt d) <=? grainNr then mret (st, ChunkStop)
    else
      sector ← index (gt d) grainNr;
      if (sector =? 0) || (sector =? 1) then
        p ← clear p readLen; mret (st, Chunk p readLen)
      else
        dst ← slice p 0 readLen;
        '(st, r) ← readGrain d sector (len dst) skip st;
        match r with
        | inr e => mret (st, ChunkErr p e)
        | inl src => mret (st, Chunk (src ++ from p readLen) readLen)
        end.

Definition ReadAt (d : Disk) : reader := fun p off =>
  if off <? 0 then mret (mkR p 0 (Some (Errorf "negative offset")))
  else if size d <=? off then mret (mkR p 0 (Some EOF))
  else
    grainBuf ← make 0 1 (grainBytes d);
    readBuf ← make 0 1 (i64 (grainBytes d + sectorSize));
    '(_, r) ← read_chunks (read_piece d) (size d) (grainBuf, readBuf) p off;
    mret r.
End zlib.

(** ** Specification *)

(** What [Open] guarantees: a disk of [capacity] sectors, cut into grains. *)
Record wf (d : Disk) (capacity : Z) : Prop := {
  wf_grain : 1 <= grainSectors d <= 128 /\ grainBytes d = grainSectors d * 512;
  wf_size : 0 <= capacity /\ size d = capacity * 512 /\ size d < 2 ^ 63;
  wf_last : lastGrain d = capacity / grainSectors d /\ lastGrainSize d = capacity mod grainSectors d * 512;
  wf_tables : len (gt d) = capacity / grainSectors d + (if capacity mod grainSectors d =? 0 then 0 else 1);
  wf_entries : Forall (fun s => 0 <= s < 2 ^ 32) (gt d)
}.

(** The bytes of the disk that grain [k] holds. *)
Definition grain_size (d : Disk) (k : Z) : Z := if (k =? lastGrain d) && negb (lastGrainSize d =? 0) then lastGrainSize d else grainBytes d.

(** The compressed bytes of a grain: the length in front of them, and the bytes. *)
Definition header_len (d : Disk) : Z := if embedLBA d then 12 else 4.
Definition comp_len (d : Disk) (file : Z -> Z) (sector : Z) : Z := LE (span file (sector * 512 + (header_len d - 4)) 4).
Definition comp_at (d : Disk) (file : Z -> Z) (sector : Z) : list Z := span file (sector * 512 + header_len d) (comp_len d file sector).

Section spec.
Context (zlib_open : list Z -> option error) (zlib_read : list Z -> Z -> list Z * option error).

(** What the documentation of [io.ReadFull] promises. *)
Definition zlib_ok : Prop := forall comp n data err, 0 <= n -> zlib_read comp n = (data, err) -> len data <= n /\ bytes_ok data.

(** Where grain [k] is: nowhere, in the file, or inflated; what its stream does not give
    is never asked for. *)
Definition cell_of (d : Disk) (file : Z -> Z) (k : Z) : cell :=
  let s := default 0 (gt d !! Z.to_nat k) in
  if (s =? 0) || (s =? 1) then Hole
  else if compressed d then
    let data := fst (zlib_read (comp_at d file s) (grainBytes d)) in Inflated (data ++ replicate (Z.to_nat (grainBytes d - len data)) 0)
  else Stored (s * 512).

Definition content (d : Disk) (file : Z -> Z) : Z -> Z := mapped (grainBytes d) (cell_of d file) file.

(** Every grain is whole: in the file, or inflated to the bytes that the disk needs. *)
Definition grain_ok (d : Disk) (fsize : Z) (file : Z -> Z) (k s : Z) : Prop :=
  if compressed d then
    let total := header_len d + comp_len d file s in
    s * 512 + Z.max 512 (512 * ((total + 511) / 512)) <= fsize /\ total <= grainBytes d + 512 /\ zlib_open (comp_at d file s) = None /\
    exists data err, zlib_read (comp_at d file s) (grainBytes d) = (data, err) /\ (err = None \/ err = Some ErrUnexpectedEOF) /\ grain_size d k <= len data
  else s * 512 + grainBytes d <= fsize.
Definition grains_ok (d : Disk) (fsize : Z) (file : Z -> Z) : Prop := forall k s,
  0 <= k -> gt d !! Z.to_nat k = Some s -> s <> 0 -> s <> 1 -> grain_ok d fsize file k s.

(** ** Reading *)

Lemma fill_range_ok ra fsize file b lo k off : Device ra fsize file -> 0 <= lo -> 0 < k -> lo + k <= len b -> 0 <= off -> off + k <= fsize ->
  fill_range ra b lo (lo + k) off = Ret (patch b lo (span file off k), None).
Proof.
  intros Hra Hlo Hk Hb Ho Hf. unfold fill_range. rewrite slice_ok by lia. cbn [mbind go_bind].
  assert (len b.[lo, lo + k] = k) as Hl by (rewrite len_sub by lia; lia).
  rewrite (dev_read_full ra fsize file) by lia. rewrite Hl. reflexivity.
Qed.

Lemma round_sectors x : 0 <= x -> Z.ldiff x 511 = 512 * (x / 512).
Proof. intros Hx. change 511 with (Z.ones 9). rewrite Z.ldiff_ones_r by lia. rewrite Z.shiftl_mul_pow2, Z.shiftr_div_pow2 by lia. change (2 ^ 9) with 512. lia. Qed.

Definition buffers_ok (d : Disk) (st : buffers) : Prop := len (fst st) = grainBytes d /\ len (snd st) = grainBytes d + 512.

(** The payload of a compressed grain, after one or two reads. *)
Lemma sub_front {A} (x y : list A) lo hi : 0 <= lo <= hi -> hi <= len x -> (x ++ y).[lo, hi] = x.[lo, hi].
Proof.
  intros H1 H2. unfold sub. rewrite drop_app_le, take_app_le by (rewrite ?length_drop; unfold len in *; lia). done.
Qed.

Lemma patch_twice (b x y : list Z) : len x + len y <= len b -> patch (patch b 0 x) (len x) y = x ++ y ++ from b (len x + len y).
Proof.
  intros Hl. pose proof (len_nonneg x). pose proof (len_nonneg y). assert (patch b 0 x = x ++ from b (len x)) as -> by (unfold patch; by rewrite Z.add_0_l).
  unfold patch. rewrite (sub_app_l x) by done. f_equal. f_equal. rewrite <-(from_from (x ++ from b (len x)) (len x) (len y)) by lia.
  rewrite from_app_r by done. by rewrite from_from by lia.
Qed.

Lemma wf_bytes d capacity : wf d capacity -> 512 <= grainBytes d <= 65536.
Proof. intros [[Hg Hb] _ _ _ _]. lia. Qed.

Lemma from_grain_ok (st : buffers) (d : Disk) n skip : buffers_ok d st -> 0 <= skip -> 0 <= n -> skip + n <= grainBytes d -> grainBytes d <= 65536 ->
  from_grain n skip st = Ret (st, inl (fst st).[skip, skip + n]).
Proof. intros [Hl _] Hs Hn Hf Hg. unfold from_grain. rewrite i64_id by lia. by rewrite slice_ok by lia. Qed.

(** A grain of an image that is not compressed. *)
Lemma stored_grain d capacity fsize file s n skip st : wf d capacity -> compressed d = false -> Device (ra d) fsize file -> buffers_ok d st -> 0 <= s -> s * 512 + grainBytes d <= fsize ->
  0 <= skip -> 0 <= n -> skip + n <= grainBytes d ->
  exists st', readGrain zlib_open zlib_read d s n skip st = Ret (st', inl (span file (s * 512 + skip) n)) /\ buffers_ok d st'.
Proof.
  intros Hwf Hc Hra [Hl1 Hl2] Hs Hf Hsk Hn Hfit. pose proof (wf_bytes d capacity Hwf). pose proof (dev_size (Device := Hra)).
  destruct st as [gb rb]. cbn [fst snd] in *. unfold readGrain. rewrite Hc. cbn [negb]. unfold sectorSize. rewrite i64_id by lia.
  rewrite (fill_range_ok (ra d) fsize file gb 0 (grainBytes d)) by (done || lia). cbn [mbind go_bind].
  assert (patch gb 0 (span file (s * 512) (grainBytes d)) = span file (s * 512) (grainBytes d)) as ->.
  { unfold patch. rewrite len_span by lia. rewrite Z.add_0_l, <-Hl1. unfold from, sub, len. cbn [Z.to_nat take drop Z.sub]. rewrite Nat2Z.id, drop_all, app_nil_r. done. }
  assert (buffers_ok d (span file (s * 512) (grainBytes d), rb)) as Hb by (split; [by apply len_span; lia|done]).
  rewrite (from_grain_ok _ d) by (done || lia). cbn [fst]. rewrite span_sub by lia. replace (skip + n - skip) with n by lia. eexists. split; [done|exact Hb].
Qed.

Lemma comp_len_range d fsize file s : Device (ra d) fsize file -> 0 <= comp_len d file s < 2 ^ 32.
Proof.
  intros Hra. unfold comp_len. pose proof (LE_range (span file (s * 512 + (header_len d - 4)) 4) (span_bytes _ _ _ dev_bytes)) as Hr. by rewrite len_span in Hr by lia.
Qed.

(** The buffer after the reads of a compressed grain: whole sectors of the file. *)
Definition read_sectors (d : Disk) (file : Z -> Z) (s : Z) : Z := Z.max 512 (512 * ((header_len d + comp_len d file s + 511) / 512)).

(** A grain of a compressed image. *)
Lemma inflated_grain d capacity fsize file k s n skip st : wf d capacity -> zlib_ok -> compressed d = true -> Device (ra d) fsize file -> buffers_ok d st -> 0 <= s ->
  grain_ok d fsize file k s -> 0 <= skip -> 0 <= n -> skip + n <= grain_size d k -> grain_size d k <= grainBytes d ->
  let data := fst (zlib_read (comp_at d file s) (grainBytes d)) in
  exists st', readGrain zlib_open zlib_read d s n skip st = Ret (st', inl (data ++ replicate (Z.to_nat (grainBytes d - len data)) 0).[skip, skip + n]) /\ buffers_ok d st'.
Proof.
  intros Hwf Hz Hc Hra [Hl1 Hl2] Hs Hok Hsk Hn Hfit Hgs. pose proof (wf_bytes d capacity Hwf) as Hgb. pose proof (dev_size (Device := Hra)). pose proof (comp_len_range d fsize file s Hra) as Hcl.
  unfold grain_ok in Hok. rewrite Hc in Hok. cbv zeta in Hok. destruct Hok as (Hf & Htot & Hopen & data & err & Hread & Herr & Hlen). rewrite Hread. cbn [fst].
  destruct (Hz _ (grainBytes d) _ _ ltac:(lia) Hread) as [Hdl Hdb]. destruct st as [gb rb]. cbn [fst snd] in *.
  assert (header_len d = 4 \/ header_len d = 12) as Hh by (unfold header_len; destruct (embedLBA d); auto).
  unfold readGrain. rewrite Hc. cbn [negb]. fold (header_len d). unfold sectorSize. set (h := header_len d) in *. set (cl := comp_len d file s) in *.
  rewrite !(i64_id (s * 512)) by lia. rewrite (fill_range_ok (ra d) fsize file rb 0 512) by (done || lia). cbn [mbind go_bind].
  set (A := span file (s * 512) 512). assert (len A = 512) as HA by (by apply len_span). assert (patch rb 0 A = A ++ from rb 512) as EA by (unfold patch; by rewrite HA).
  assert (len (patch rb 0 A) = grainBytes d + 512) as Hp by (rewrite patch_len by lia; done).
  rewrite (get_word_ok LE 4 _ (h - 4) h) by lia. cbn [mbind go_bind].
  assert (LE (patch rb 0 A).[h - 4, h] = cl) as ->.
  { rewrite EA, sub_front by lia. unfold A. rewrite span_sub by lia. unfold cl, comp_len. do 2 f_equal. fold h. lia. }
  assert (exists T, (if 512 <? h + cl then fill_range (ra d) (patch rb 0 A) 512 (512 + Z.ldiff (h + cl - 512 + 512 - 1) (512 - 1)) (i64 ((s + 1) * 512)) else mret (patch rb 0 A, None)) =
    Ret (span file (s * 512) T ++ from rb T, None) /\ h + cl <= T <= grainBytes d + 512) as (T & -> & HT).
  { destruct (Z.ltb_spec 512 (h + cl)) as [Hbig|Hsmall]; [|exists 512; split; [by rewrite EA|lia]].
    change (512 - 1) with 511. rewrite round_sectors by lia. set (x := (h + cl - 512 + 512 - 1) / 512). pose proof (Z.div_mod (h + cl - 512 + 512 - 1) 512 ltac:(lia)) as Edm. fold x in Edm.
    pose proof (Z.mod_pos_bound (h + cl - 512 + 512 - 1) 512 ltac:(lia)). assert ((h + cl + 511) / 512 = x + 1) as Ex by (symmetry; apply Z.div_unique with (r := (h + cl - 512 + 512 - 1) mod 512); lia).
    rewrite Ex in Hf. destruct (wf_grain d capacity Hwf) as [Hgr Egb]. assert (512 * x <= grainBytes d) by lia. assert (0 < x) by lia.
    exists (512 + 512 * x). split; [|lia]. rewrite i64_id by lia. rewrite (fill_range_ok (ra d) fsize file _ 512 (512 * x)) by (done || lia).
    rewrite (span_app file (s * 512) 512 (512 * x)) by lia. fold A. replace ((s + 1) * 512) with (s * 512 + 512) by lia. set (B := span file (s * 512 + 512) (512 * x)).
    assert (len B = 512 * x) as HB by (apply len_span; lia). pose proof (patch_twice rb A B) as Ep. rewrite HA, HB in Ep. rewrite Ep by lia. by rewrite (assoc_L app). }
  cbn [mbind go_bind]. assert (len (span file (s * 512) T) = T) as HlT by (apply len_span; lia).
  rewrite (slice_ok (_ ++ _) h) by (rewrite ?len_app, ?HlT, ?len_from by lia; lia). cbn [mbind go_bind]. rewrite (slice_ok gb 0) by lia. cbn [mbind go_bind].
    assert ((span file (s * 512) T ++ from rb T).[h, h + cl] = comp_at d file s) as -> by (rewrite sub_front by lia; rewrite span_sub by lia; unfold comp_at; fold h; fold cl; f_equal; lia).
  rewrite Hopen. rewrite <-Hl1, sub_full, Hl1, Hread.
  assert (buffers_ok d (data ++ from gb (len data), span file (s * 512) T ++ from rb T)) as Hb.
  { pose proof (len_nonneg data). split; cbn [fst snd]; rewrite len_app, len_from by lia; lia. }
  assert (forall x y : list Z, (data ++ x).[skip, skip + n] = (data ++ y).[skip, skip + n]) as Hsame by (intros x y; rewrite !sub_front by lia; done).
  destruct Herr as [-> | ->]; [|rewrite bool_decide_true by done]; (rewrite (from_grain_ok _ d) by (done || lia); cbn [fst]; rewrite (Hsame _ (replicate (Z.to_nat (grainBytes d - len data)) 0)); eexists; split; [done|exact Hb]).
Qed.

Lemma inflated_cells d capacity file : wf d capacity -> zlib_ok -> inflated_ok (grainBytes d) (cell_of d file).
Proof.
  intros Hwf Hz k data. pose proof (wf_bytes d capacity Hwf). unfold cell_of. destruct (_ || _); [done|]. destruct (compressed d); [|done].
  destruct (zlib_read _ _) as [out err] eqn:E. apply Hz in E as [Hl Hb]; [|lia]. cbn [fst]. intros [= <-].
  rewrite len_app, len_replicate. split; [lia|]. apply Forall_app. split; [done|apply bytes_ok_zeros].
Qed.

(** Where an offset falls. *)
Lemma grain_of d capacity off : wf d capacity -> 0 <= off < size d -> let k := off / grainBytes d in let skip := off mod grainBytes d in
  0 <= k < len (gt d) /\ k <= lastGrain d /\ 0 <= skip < grain_size d k /\ grain_size d k <= grainBytes d /\
  ((k =? lastGrain d) && negb (lastGrainSize d =? 0) = false -> k < lastGrain d).
Proof.
  intros [[Hg Hb] (Hc & Hs & _) [Hl Hls] Ht _] Ho k skip. rewrite Hs in Ho. set (q := capacity / grainSectors d) in *. set (r := capacity mod grainSectors d) in *.
  assert (capacity = grainSectors d * q + r) as Ec by (apply Z.div_mod; lia). pose proof (Z.mod_pos_bound capacity (grainSectors d) ltac:(lia)) as Hr. fold r in Hr.
  assert (0 <= q) by (apply Z.div_pos; lia).
  pose proof (Z.div_mod off (grainBytes d) ltac:(lia)) as Eo. fold k skip in Eo. pose proof (Z.mod_pos_bound off (grainBytes d) ltac:(lia)) as Hsk. fold skip in Hsk.
  assert (0 <= k) by (apply Z.div_pos; lia). assert (k <= q) as Hkq by nia. unfold grain_size. rewrite Hl, Hls, Hb in *. rewrite Ht.
  destruct (Z.eqb_spec k q) as [->|Hne]; cbn [andb]; [|destruct (Z.eqb_spec r 0); split_and!; try lia].
  destruct (Z.eqb_spec (r * 512) 0); cbn [negb]; [nia|]. destruct (Z.eqb_spec r 0); [lia|]. split_and!; try lia; nia.
Qed.

Lemma vmdk_step d capacity fsize file : wf d capacity -> zlib_ok -> Device (ra d) fsize file -> grains_ok d fsize file ->
  step_reads (read_piece zlib_open zlib_read d) (buffers_ok d) (size d) (content d file).
Proof.
  intros Hwf Hz Hra Hgr st p off Hst Hp Ho Hl. pose proof (wf_bytes d capacity Hwf) as Hgb. pose proof (wf_size d capacity Hwf) as (_ & _ & Hs).
  destruct (grain_of d capacity off Hwf ltac:(lia)) as (Hk & Hkl & Hsk & Hgs & Hshort). set (k := off / grainBytes d) in *. set (skip := off mod grainBytes d) in *.
  unfold read_piece. rewrite div64_ok, rem64_ok by lia. cbn [mbind go_bind]. fold k skip.
  assert (negb ((k =? lastGrain d) && negb (lastGrainSize d =? 0)) && (lastGrain d <? k) = false) as ->.
  { destruct (_ && _); [done|]. cbn [negb andb]. apply Z.ltb_ge. lia. }
  change (if (k =? lastGrain d) && negb (lastGrainSize d =? 0) then lastGrainSize d else grainBytes d) with (grain_size d k).
  rewrite (proj2 (Z.leb_gt _ _)) by lia. rewrite i64_id by lia. set (n := if len p <? grain_size d k - skip then len p else grain_size d k - skip).
  assert (0 < n <= len p /\ skip + n <= grain_size d k) as [Hn Hfit] by (unfold n; destruct (Z.ltb_spec (len p) (grain_size d k - skip)); lia). clearbody n.
  rewrite (proj2 (Z.leb_gt _ _)) by lia. destruct (index_ok (gt d) k ltac:(lia)) as (s & Hs' & ->). cbn [mbind go_bind].
  pose proof (inflated_cells d capacity file Hwf Hz) as Hinf.
  assert (span (content d file) off n = match cell_of d file k with Hole => replicate (Z.to_nat n) 0 | Stored a => span file (a + skip) n | Inflated data => data.[skip, skip + n] end) as Hspan.
  { unfold content. apply (mapped_span (grainBytes d) (cell_of d file) ltac:(lia) file off n Hinf); [lia|lia|fold skip; lia]. }
  unfold cell_of in Hspan. rewrite Hs' in Hspan. change (default 0 (Some s)) with s in Hspan.
  destruct ((s =? 0) || (s =? 1)) eqn:Ez; rewrite ?Ez in Hspan.
  - rewrite clear_ok by lia. cbn [mbind go_bind mret go_ret wp fst snd]. split; [done|]. eexists _, n. split; [reflexivity|]. split; [lia|]. by rewrite Hspan.
  - apply orb_false_iff in Ez as [E0%Z.eqb_neq E1%Z.eqb_neq]. pose proof (Hgr k s ltac:(lia) Hs' E0 E1) as Hok.
    pose proof (proj1 (Forall_lookup _ _) (wf_entries d capacity Hwf) _ _ Hs') as Hsr. cbn beta in Hsr.
    rewrite slice_ok by lia. cbn [mbind go_bind]. assert (len p.[0, n] = n) as -> by (rewrite len_sub by lia; lia).
    destruct (compressed d) eqn:Ec; rewrite ?Ec in Hspan.
    + destruct (inflated_grain d capacity fsize file k s n skip st Hwf Hz Ec Hra Hst ltac:(lia) Hok ltac:(lia) ltac:(lia) ltac:(lia) Hgs) as (st' & -> & Hst'). cbn [mbind go_bind mret go_ret wp fst snd].
      split; [done|]. eexists _, n. split; [reflexivity|]. split; [lia|]. by rewrite Hspan.
    + unfold grain_ok in Hok. rewrite Ec in Hok.
      destruct (stored_grain d capacity fsize file s n skip st Hwf Ec Hra Hst ltac:(lia) Hok ltac:(lia) ltac:(lia) ltac:(lia)) as (st' & -> & Hst'). cbn [mbind go_bind mret go_ret wp fst snd].
      split; [done|]. eexists _, n. split; [reflexivity|]. split; [lia|]. by rewrite Hspan.
Qed.

(** Reading an opened disk. *)
Lemma vmdk_read d capacity fsize file p off : wf d capacity -> zlib_ok -> Device (ra d) fsize file -> grains_ok d fsize file -> 0 <= off ->
  let n := Z.max 0 (Z.min (len p) (size d - off)) in
  ReadAt zlib_open zlib_read d p off = Ret (mkR (span (content d file) off n ++ from p n) n (if n =? 0 then Some EOF else None)).
Proof.
  intros Hwf Hz Hra Hgr Ho n. pose proof (wf_bytes d capacity Hwf) as Hgb. pose proof (wf_size d capacity Hwf) as (Hc & Es & Hs). pose proof (len_nonneg p).
  unfold ReadAt. rewrite (proj2 (Z.ltb_ge off 0)) by lia. destruct (Z.leb_spec (size d) off) as [Hend|Hin].
  { replace n with 0 by lia. cbn [Z.eqb]. by rewrite span_0. }
  unfold sectorSize. rewrite i64_id by lia. rewrite !make_ok by (unfold maxAlloc; lia). cbn [mbind go_bind].
  set (st := (replicate (Z.to_nat (grainBytes d)) 0, replicate (Z.to_nat (grainBytes d + 512)) 0)).
  assert (buffers_ok d st) as Hst by (split; cbn [fst snd st]; rewrite len_replicate; lia).
  destruct (wp_no_err_Ret _ _ (read_chunks_reads (read_piece zlib_open zlib_read d) (buffers_ok d) (size d) (content d file) st p off ltac:(lia) (vmdk_step d capacity fsize file Hwf Hz Hra Hgr) Hst Ho))
    as ([st' r] & -> & _ & Hr). cbn [fst snd] in Hr. cbn [mbind go_bind mret go_ret]. by rewrite Hr.
Qed.
End spec.

(** ** Opening *)

Lemma table_entries_from gtBuf base gtes num : 0 <= base -> gtes < 2 ^ 62 -> base < 2 ^ 62 -> 0 < num < 2 ^ 32 -> num * 4 <= len gtBuf -> forall fuel j gt, 0 <= j <= num -> (Z.to_nat (num - j) < fuel)%nat -> len gt = gtes ->
  exists gt', go_for fuel (fun '(j, gt) =>
    if (j <? num) && (i64 (base + j) <? gtes) then
      e ← get_le 4 gtBuf (j * 4) (j * 4 + 4);
      gt ← store gt (i64 (base + j)) e;
      mret (inl (j + 1, gt))
    else mret (inr gt)) (j, gt) = Ret gt' /\ len gt' = gtes /\
    forall x, 0 <= x < gtes -> gt' !! Z.to_nat x = if (base + j <=? x) && (x <? base + num) then Some (LE gtBuf.[4 * (x - base), 4 * (x - base) + 4]) else gt !! Z.to_nat x.
Proof.
  intros Hb Hg Hb2 Hn Hl. induction fuel as [|fuel IH]; intros j gt Hj Hf Hgt; [lia|]. cbn [go_for]. rewrite (i64_id (base + j)) by lia.
  destruct (Z.ltb_spec j num); cbn [andb]; [destruct (Z.ltb_spec (base + j) gtes)|].
  - rewrite (get_word_ok LE 4) by lia. cbn [mbind go_bind]. rewrite store_ok by lia. cbn [mbind go_bind mret go_ret].
    destruct (IH (j + 1) (<[Z.to_nat (base + j):=LE gtBuf.[j * 4, j * 4 + 4]]> gt)) as (gt' & Hgo & Hl' & Hx); [lia|lia|by rewrite len_insert|].
    exists gt'. split; [exact Hgo|]. split; [done|]. intros x Hx0. rewrite Hx by done.
    destruct (Z.eq_dec x (base + j)) as [->|Hne].
    + rewrite (proj2 (Z.leb_gt _ _)), (proj2 (Z.leb_le _ _)), (proj2 (Z.ltb_lt _ _)) by lia. cbn [andb]. rewrite list_lookup_insert_eq by (unfold len in *; lia). by replace (4 * (base + j - base)) with (j * 4) by lia.
    + rewrite list_lookup_insert_ne by lia. by replace (base + (j + 1) <=? x) with (base + j <=? x) by (destruct (Z.leb_spec (base + j) x), (Z.leb_spec (base + (j + 1)) x); lia).
  - cbn [mbind go_bind mret go_ret]. exists gt. split; [done|]. split; [done|]. intros x Hx0. by rewrite (proj2 (Z.leb_gt _ _)) by lia.
  - cbn [mbind go_bind mret go_ret]. exists gt. split; [done|]. split; [done|]. intros x Hx0.
    destruct (Z.leb_spec (base + j) x); [|done]. by rewrite (proj2 (Z.ltb_ge _ _)) by lia.
Qed.

Lemma grain_mask gs c : 1 <= gs <= 128 -> Z.land gs (gs - 1) = 0 -> Z.land c (gs - 1) = c mod gs.
Proof.
  intros Hg Hl. assert (exists j, 0 <= j /\ gs = 2 ^ j) as (j & Hj & ->) by (exists (Z.log2 gs); split; [apply Z.log2_nonneg|apply land_pred_pow2; [lia|done]]).
  replace (2 ^ j - 1) with (Z.ones j) by (rewrite Z.ones_equiv; lia). by rewrite Z.land_ones by lia.
Qed.

(** The header and the tables of an image. *)
Record image_ok (file : Z -> Z) (capacity gs num gdo : Z) : Prop := {
  im_magic : le32 (span file 0 512) 0 = sparseMagic;
  im_capacity : le64 (span file 0 512) 12 = capacity /\ 0 < capacity < 2 ^ 53;
  im_grain : le64 (span file 0 512) 20 = gs /\ 1 <= gs <= 128 /\ Z.land gs (gs - 1) = 0;
  im_num : le32 (span file 0 512) 44 = num /\ 0 < num;
  im_directory : le64 (span file 0 512) 56 = gdo
}.

(** The number of grains, and of tables; the entry of the directory for a table; the entry
    of a grain, 0 when it has no table. *)
Definition grains (capacity gs : Z) : Z := (capacity + gs - 1) / gs.
Definition tables (capacity gs num : Z) : Z := (grains capacity gs + num - 1) / num.
Definition gde (file : Z -> Z) (gdo i : Z) : Z := LE (span file (gdo * 512 + 4 * i) 4).
Definition gte (file : Z -> Z) (gdo num k : Z) : Z :=
  let g := gde file gdo (k / num) in if (g =? 0) || (g =? 1) then 0 else LE (span file (g * 512 + 4 * (k mod num)) 4).
Definition sectors_of (bytes : Z) : Z := (bytes + 511) / 512.

Lemma load_table_ok ra fsize file gd gdo gtes num i gt gtBuf : Device ra fsize file -> len gtBuf = sectors_of (num * 4) * 512 -> len gt = gtes -> gtes < 2 ^ 62 -> 0 < num < 2 ^ 32 -> 0 <= i -> i * num < 2 ^ 62 ->
  4 * i + 4 <= len gd -> LE gd.[i * 4, i * 4 + 4] = gde file gdo i ->
  (gde file gdo i <> 0 -> gde file gdo i <> 1 -> gde file gdo i * 512 + sectors_of (num * 4) * 512 <= fsize) ->
  exists gt' gtBuf', load_table ra gd gtes num i (gt, gtBuf) = Ret (gt', gtBuf') /\ len gtBuf' = len gtBuf /\ len gt' = gtes /\
    forall x, 0 <= x < gtes -> gt' !! Z.to_nat x = if (i * num <=? x) && (x <? (i + 1) * num) && negb ((gde file gdo i =? 0) || (gde file gdo i =? 1))
                                                  then Some (gte file gdo num x) else gt !! Z.to_nat x.
Proof.
  intros Hra Hb Hgt Hg Hn Hi Him Hgd He Hf. unfold load_table. rewrite (get_word_ok LE 4) by lia. cbn [mbind go_bind]. rewrite He.
  destruct ((gde file gdo i =? 0) || (gde file gdo i =? 1)) eqn:Ez.
  { eexists gt, gtBuf. split; [done|]. split; [done|]. split; [done|]. intros x Hx. by rewrite andb_false_r. }
  apply orb_false_iff in Ez as [E0%Z.eqb_neq E1%Z.eqb_neq]. specialize (Hf E0 E1). unfold sectorSize. pose proof (dev_size (Device := Hra)).
  assert (0 <= gde file gdo i) as Hg0.
  { unfold gde. pose proof (LE_range (span file (gdo * 512 + 4 * i) 4) (span_bytes _ _ _ dev_bytes)). lia. }
  assert (num * 4 <= sectors_of (num * 4) * 512) as Hsec.
  { unfold sectors_of. pose proof (Z.div_mod (num * 4 + 511) 512 ltac:(lia)). pose proof (Z.mod_pos_bound (num * 4 + 511) 512 ltac:(lia)). lia. }
  rewrite (i64_id (gde file gdo i * 512)) by lia. assert (0 < len gtBuf) by lia. assert (gde file gdo i * 512 + len gtBuf <= fsize) by lia. rewrite (read_or_full ra fsize file) by (exact Hra || lia). cbn [mbind go_bind]. rewrite (i64_id (i * num)) by lia.
  set (buf := span file (gde file gdo i * 512) (len gtBuf)). assert (len buf = len gtBuf) as Hlb by (apply len_span; lia).
  destruct (table_entries_from buf (i * num) gtes num ltac:(lia) Hg Him Hn ltac:(lia) (S (Z.to_nat num)) 0 gt ltac:(lia) ltac:(lia) Hgt) as (gt' & Hgo & Hl' & Hx).
  unfold table_entries. rewrite Hgo. cbn [mbind go_bind mret go_ret]. exists gt', buf. split; [done|]. split; [done|]. split; [done|]. intros x Hx0. rewrite Hx by done.
  rewrite Z.add_0_r, andb_true_r. replace ((i + 1) * num) with (i * num + num) by lia.
  destruct (Z.leb_spec (i * num) x); [|done]. destruct (Z.ltb_spec x (i * num + num)); [|done]. cbn [andb]. f_equal.
  assert (x / num = i) as Eq by (symmetry; apply Z.div_unique with (r := x - i * num); lia). assert (x mod num = x - i * num) as Em by (symmetry; apply Z.mod_unique with (q := i); lia).
  unfold gte. rewrite Eq, Em. rewrite (proj2 (Z.eqb_neq _ _) E0), (proj2 (Z.eqb_neq _ _) E1). cbn [orb]. unfold buf. rewrite span_sub by lia. do 2 f_equal; lia.
Qed.

Lemma grains_eq capacity gs : 0 <= capacity -> 0 < gs -> grains capacity gs = capacity / gs + (if capacity mod gs =? 0 then 0 else 1).
Proof.
  intros Hc Hg. unfold grains. pose proof (Z.div_mod capacity gs ltac:(lia)). pose proof (Z.mod_pos_bound capacity gs Hg). set (q := capacity / gs) in *. set (r := capacity mod gs) in *.
  destruct (Z.eqb_spec r 0); symmetry; [apply Z.div_unique with (r := gs - 1)|apply Z.div_unique with (r := r - 1)]; lia.
Qed.

Lemma tables_bounds g num : 0 < g -> 0 < num -> let t := (g + num - 1) / num in 0 < t <= g /\ (t - 1) * num < g /\ g <= t * num.
Proof.
  intros Hg Hn t. pose proof (Z.div_mod (g + num - 1) num ltac:(lia)) as E. pose proof (Z.mod_pos_bound (g + num - 1) num Hn). fold t in E. nia.
Qed.

Lemma sectors_bounds n : 0 < n -> n <= sectors_of n * 512 < n + 512.
Proof. intros Hn. unfold sectors_of. pose proof (Z.div_mod (n + 511) 512 ltac:(lia)). pose proof (Z.mod_pos_bound (n + 511) 512 ltac:(lia)). lia. Qed.

(** The directory and the tables that it names lie in the file. *)
Record tables_in (fsize : Z) (file : Z -> Z) (capacity gs num gdo : Z) : Prop := {
  ti_memory : grains capacity gs * 4 <= maxAlloc;
  ti_directory : 512 <= fsize /\ 0 <= gdo /\ gdo * 512 + sectors_of (tables capacity gs num * 4) * 512 <= fsize;
  ti_tables : forall i, 0 <= i < tables capacity gs num -> gde file gdo i <> 0 -> gde file gdo i <> 1 -> gde file gdo i * 512 + sectors_of (num * 4) * 512 <= fsize
}.

(** The loop over the directory. *)
Lemma load_tables ra fsize file gd gdo g num : Device ra fsize file -> 0 < g < 2 ^ 61 -> 0 < num < 2 ^ 32 -> let t := (g + num - 1) / num in
  gd = span file (gdo * 512) (sectors_of (t * 4) * 512) ->
  (forall i, 0 <= i < t -> gde file gdo i <> 0 -> gde file gdo i <> 1 -> gde file gdo i * 512 + sectors_of (num * 4) * 512 <= fsize) ->
  exists gt gtBuf, go_range (load_table ra gd g num) 0 (Z.to_nat t) (replicate (Z.to_nat g) 0, replicate (Z.to_nat (sectors_of (num * 4) * 512)) 0) = Ret (gt, gtBuf) /\
    len gt = g /\ forall k, 0 <= k < g -> gt !! Z.to_nat k = Some (gte file gdo num k).
Proof.
  intros Hra Hg Hn t Egd Hf. destruct (tables_bounds g num ltac:(lia) ltac:(lia)) as (Ht & Htn & Hgt). fold t in Ht, Htn, Hgt.
  pose proof (sectors_bounds (t * 4) ltac:(lia)) as Hst. pose proof (sectors_bounds (num * 4) ltac:(lia)) as Hsn.
  set (I := fun i (st : list Z * list Z) => len (snd st) = sectors_of (num * 4) * 512 /\ len (fst st) = g /\
    forall k, 0 <= k < g -> fst st !! Z.to_nat k = if k <? i * num then Some (gte file gdo num k) else Some 0).
  set (st0 := (replicate (Z.to_nat g) 0, replicate (Z.to_nat (sectors_of (num * 4) * 512)) 0)).
  assert (wp (go_range (load_table ra gd g num) 0 (Z.to_nat t) st0) (I (0 + Z.of_nat (Z.to_nat t))) no_err) as Hwp; [apply wp_go_range; unfold I, st0|].
  - cbn [fst snd]. rewrite !len_replicate. split; [lia|]. split; [lia|]. intros k Hk. rewrite (proj2 (Z.ltb_ge _ _)) by lia. by rewrite lookup_replicate_2 by lia.
  - intros i [gt0 buf0] Hi (Hb & Hl & Hk). cbn [fst snd] in *.
    destruct (load_table_ok ra fsize file gd gdo g num i gt0 buf0 Hra Hb Hl) as (gt' & buf' & Hload & Hlb & Hlg & Hx); try lia.
    + nia.
    + rewrite Egd, len_span by lia. lia.
    + rewrite Egd. rewrite span_sub by lia. unfold gde. do 2 f_equal; lia.
    + apply Hf. lia.
    + rewrite Hload. cbn [wp fst snd]. split; [lia|]. split; [done|]. intros k Hk0. rewrite Hx by done. specialize (Hk k Hk0).
      assert (i * num <= k -> k < (i + 1) * num -> (gde file gdo i =? 0) || (gde file gdo i =? 1) = true -> gte file gdo num k = 0) as Hz.
      { intros H1 H2 Hz. assert (k / num = i) as Eq by (symmetry; apply Z.div_unique with (r := k - i * num); lia). unfold gte. by rewrite Eq, Hz. }
      destruct (Z.leb_spec (i * num) k), (Z.ltb_spec k ((i + 1) * num)); cbn [andb]; rewrite Hk.
      * rewrite (proj2 (Z.ltb_ge k (i * num))) by lia. destruct (_ || _); cbn [negb]; [by rewrite Hz|done].
      * by rewrite (proj2 (Z.ltb_ge k (i * num))) by lia.
      * by rewrite (proj2 (Z.ltb_lt k (i * num))) by lia.
      * nia.
  - destruct (wp_no_err_Ret _ _ Hwp) as ([gt gtBuf] & Hgo & _ & Hl & Hk). exists gt, gtBuf. split; [exact Hgo|]. split; [exact Hl|].
    intros k Hk0. rewrite Hk by done. rewrite (proj2 (Z.ltb_lt _ _)); [done|]. lia.
Qed.

(** The disk that the header and the tables of the file describe. *)
Definition image_disk (ra : reader) (file : Z -> Z) (capacity gs num gdo : Z) : Disk :=
  let flags := le32 (span file 0 512) 8 in
  mkDisk ra (capacity * 512) (gs * 512) gs (capacity / gs) (capacity mod gs * 512)
    (Z.testbit flags 16) (Z.testbit flags 17) (gte file gdo num <$> seqZ 0 (grains capacity gs)).

Lemma flag_bit f k : 0 <= k -> negb (Z.land f (2 ^ k) =? 0) = Z.testbit f k.
Proof.
  intros Hk. destruct (Z.testbit f k) eqn:E.
  - apply negb_true_iff, Z.eqb_neq. intros Hz. assert (Z.testbit (Z.land f (2 ^ k)) k = false) as Hf by (by rewrite Hz, Z.bits_0).
    by rewrite Z.land_spec, E, Z.pow2_bits_true in Hf by lia.
  - apply negb_false_iff, Z.eqb_eq. apply Z.bits_inj'. intros i Hi. rewrite Z.land_spec, Z.bits_0, Z.pow2_bits_eqb by lia.
    destruct (Z.eqb_spec k i) as [->|]; [by rewrite E|by rewrite andb_false_r].
Qed.

Lemma gte_list file gdo num g gt : 0 <= g -> len gt = g -> (forall k, 0 <= k < g -> gt !! Z.to_nat k = Some (gte file gdo num k)) -> gt = gte file gdo num <$> seqZ 0 g.
Proof.
  intros Hg Hl Hk. apply list_eq. intros i. rewrite list_lookup_fmap. destruct (decide (Z.of_nat i < g)) as [Hi|Hi].
  - rewrite lookup_seqZ_lt by lia. cbn [fmap option_fmap option_map]. rewrite <-(Nat2Z.id i) at 1. rewrite Hk by lia. by rewrite Z.add_0_l.
  - rewrite lookup_seqZ_ge by lia. apply lookup_ge_None. unfold len in Hl. lia.
Qed.

Lemma gte_range file gdo num k : (forall i, is_byte (file i)) -> 0 <= gte file gdo num k < 2 ^ 32.
Proof.
  intros Hf. unfold gte. destruct (_ || _); [lia|]. match goal with |- context [LE ?b] => pose proof (LE_range b (span_bytes _ _ _ Hf)) as Hr end.
  by rewrite len_span in Hr by lia.
Qed.

Lemma image_wf ra file capacity gs num gdo : (forall i, is_byte (file i)) -> 0 < capacity < 2 ^ 53 -> 1 <= gs <= 128 -> wf (image_disk ra file capacity gs num gdo) capacity.
Proof.
  intros Hf Hc Hg. assert (0 <= grains capacity gs) as Hn by (apply Z.div_pos; lia).
  split; cbn [image_disk grainSectors grainBytes size lastGrain lastGrainSize gt].
  - split; [done|lia].
  - lia.
  - done.
  - unfold len. rewrite length_fmap, length_seqZ, Z2Nat.id by done. apply grains_eq; lia.
  - apply Forall_fmap, Forall_forall. intros k _. by apply gte_range.
Qed.

(** A step of the error monad, without unfolding what follows it. *)
Lemma step_Ret {A B} (a : A) (f : A -> go B) : (x ← Ret a; f x) = f a.
Proof. done. Qed.

#[local] Ltac ret_bind := repeat (rewrite step_Ret; cbv beta zeta iota).

Lemma vmdk_open ra fsize file capacity gs num gdo : Device ra fsize file -> image_ok file capacity gs num gdo -> tables_in fsize file capacity gs num gdo ->
  Open ra = Ret (image_disk ra file capacity gs num gdo).
Proof.
  intros Hra [Hmagic [Hcap Hc] (Hgs & Hg & Hpow) [Hnum Hn] Hgdo] [Hmem (Hfs & Hgd0 & Hgd) Htab].
  assert (maxAlloc = 2 ^ 48) as Hmax by reflexivity. pose proof (dev_size (Device := Hra)) as Hsz. assert (forall i, is_byte (file i)) as Hby by apply dev_bytes.
  set (h := span file 0 512) in *. assert (len h = 512) as Hh by (by apply len_span). assert (0 < num < 2 ^ 32) as Hn2.
  { split; [done|]. rewrite <-Hnum. by apply le32_range, span_bytes. }
  unfold Open, sectorSize. rewrite make_ok by lia. ret_bind. rewrite (read_or_full ra fsize file) by (exact Hra || rewrite ?len_replicate; lia).
  rewrite len_replicate, Z2Nat.id by lia. fold h. ret_bind.
  rewrite (get_word_ok LE 4 h 0 4) by lia. ret_bind. change (LE h.[0, 4]) with (le32 h 0). rewrite Hmagic, Z.eqb_refl. cbn [negb].
  rewrite (get_word_ok LE 4 h 8 12) by lia. ret_bind. rewrite (get_word_ok LE 8 h 12 20) by lia. ret_bind.
  rewrite (get_word_ok LE 8 h 20 28) by lia. ret_bind. rewrite (get_word_ok LE 4 h 44 48) by lia. ret_bind.
  rewrite (get_word_ok LE 8 h 56 64) by lia. ret_bind.
  change (LE h.[8, 12]) with (le32 h 8). change (LE h.[12, 20]) with (le64 h 12). change (LE h.[20, 28]) with (le64 h 20).
  change (LE h.[44, 48]) with (le32 h 44). change (LE h.[56, 64]) with (le64 h 56). rewrite Hcap, Hgs, Hnum, Hgdo.
  assert (0 < grains capacity gs) as Hgr by (unfold grains; apply Z.div_str_pos; lia).
  rewrite (i64_id capacity), (i64_id gs) by lia.
  rewrite (proj2 (Z.ltb_ge gs 1)), (proj2 (Z.ltb_ge 128 gs)), Hpow by lia. cbn [Z.eqb negb orb].
  rewrite (div64_ok capacity gs) by lia. ret_bind. rewrite (grain_mask gs capacity Hg Hpow).
  pose proof (Z.mod_pos_bound capacity gs ltac:(lia)). rewrite (i64_id (capacity mod gs * 512)) by lia.
  assert (0 <= capacity / gs <= capacity) as Hq by (split; [apply Z.div_pos; lia|apply Z.div_le_upper_bound; nia]).
  assert ((if negb (capacity mod gs * 512 =? 0) then i64 (capacity / gs + 1) else capacity / gs) = grains capacity gs) as ->.
  { rewrite grains_eq by lia. destruct (Z.eqb_spec (capacity mod gs * 512) 0), (Z.eqb_spec (capacity mod gs) 0); cbn [negb]; try lia. apply i64_id. lia. }
  assert (tables capacity gs num = (grains capacity gs + num - 1) / num) as Et by reflexivity. remember (grains capacity gs) as g eqn:Eg. rewrite (proj2 (Z.eqb_neq g 0)), (proj2 (Z.eqb_neq num 0)) by lia. cbn [orb].
  rewrite (i64_id (g + num)), (i64_id (g + num - 1)) by lia. rewrite (div64_ok (g + num - 1) num) by lia. ret_bind.
  destruct (tables_bounds g num Hgr Hn) as (Ht & _ & _). rewrite <-Et. rewrite <-Et in Ht. remember (tables capacity gs num) as t eqn:Edt.
  pose proof (sectors_bounds (t * 4) ltac:(lia)). pose proof (sectors_bounds (num * 4) ltac:(lia)).
  rewrite (i64_id (t * 4)), (i64_id (t * 4 + 512)), (i64_id (t * 4 + 512 - 1)) by lia. replace (t * 4 + 512 - 1) with (t * 4 + 511) by lia. replace (num * 4 + 512 - 1) with (num * 4 + 511) by lia.
  rewrite !div64_ok by lia. ret_bind. change ((t * 4 + 511) / 512) with (sectors_of (t * 4)). change ((num * 4 + 511) / 512) with (sectors_of (num * 4)).
  rewrite (i64_id (sectors_of (t * 4) * 512)), (i64_id gdo), (i64_id (gdo * 512)) by lia.
  rewrite (make_ok 0 1 (sectors_of (t * 4) * 512)) by lia. ret_bind.
  rewrite (read_or_full ra fsize file) by (exact Hra || rewrite ?len_replicate; lia). rewrite len_replicate, Z2Nat.id by lia. ret_bind.
  rewrite (make_ok 0 4 g), (make_ok 0 1 (sectors_of (num * 4) * 512)) by lia. ret_bind.
  destruct (load_tables ra fsize file (span file (gdo * 512) (sectors_of (t * 4) * 512)) gdo g num Hra ltac:(lia) ltac:(lia) (f_equal (fun x => span file (gdo * 512) (sectors_of (x * 4) * 512)) Et) ltac:(by rewrite <-Et)) as (gt' & buf & Hgo & Hl & Hk).
  rewrite <-Et in Hgo. rewrite Hgo. ret_bind. unfold image_disk. fold h. rewrite <-Eg.
  rewrite (i64_id (capacity * 512)) by lia. unfold flagCompress, flagEmbedLBA. rewrite !flag_bit by lia.
  by rewrite (gte_list file gdo num g gt' ltac:(lia) Hl Hk).
Qed.

(** C37. Open on an image whose header and tables are in the file gives the disk that they
    describe: one entry per grain, taken from the table that the directory names, none for
    the tables that it does not name. Where every grain is whole in the file and its stream
    gives the bytes that the disk needs, a read at any offset of that disk gives the bytes of
    the grains, stored, inflated or absent (zeros), up to the end of the disk: as many as the
    buffer holds or the disk has left. The error is [io.EOF] exactly when no byte is
    delivered, at the end or into an empty buffer; a read across the end gives the bytes
    before it with a nil error, which is not what [io.ReaderAt] asks for. *)
Theorem vmdk_open_then_read zlib_open zlib_read ra fsize file capacity gs num gdo :
  Device ra fsize file -> image_ok file capacity gs num gdo -> tables_in fsize file capacity gs num gdo ->
  let d := image_disk ra file capacity gs num gdo in
  Open ra = Ret d /\ wf d capacity /\
  (zlib_ok zlib_read -> grains_ok zlib_open zlib_read d fsize file -> forall p off, 0 <= off ->
    let n := Z.max 0 (Z.min (len p) (capacity * 512 - off)) in
    ReadAt zlib_open zlib_read d p off = Ret (mkR (span (content zlib_read d file) off n ++ from p n) n (if n =? 0 then Some EOF else None))).
Proof.
  intros Hra Him Htab d. assert (wf d capacity) as Hwf.
  { destruct Him as [_ [_ Hc] (_ & Hg & _) _ _]. apply image_wf; [intros i; apply dev_bytes|done|done]. }
  split; [by apply vmdk_open with fsize|]. split; [done|]. intros Hz Hgr p off Ho. by apply (vmdk_read zlib_open zlib_read d capacity fsize file p off).
Qed.

(** ** A small image: grains of two sectors, the second one short and absent *)

Definition toy_zlib_open (comp : list Z) : option error := None.
Definition toy_zlib_read (comp : list Z) (n : Z) : list Z * option error := (replicate (Z.to_nat n) (default 0 (head comp) mod 256), None).

Definition sample_sector (xs : list Z) : list Z := xs ++ replicate (512 - length xs)%nat 0.
Definition vmdk_header (flags capacity : Z) : list Z := sample_sector (put_le 4 sparseMagic ++ put_le 4 1 ++ put_le 4 flags ++ put_le 8 capacity ++
  put_le 8 2 ++ replicate 16 0 ++ put_le 4 1 ++ replicate 8 0 ++ put_le 8 1).
Definition vmdk_image (payload : list Z) : list Z := vmdk_header flagCompress 3 ++ sample_sector (put_le 4 2) ++ sample_sector (put_le 4 3) ++ sample_sector payload.
Definition small_image : list Z := vmdk_image (put_le 4 5 ++ [77; 1; 2; 3; 4]).

Lemma small_image_ok : image_ok (file_content small_image) 3 2 1 1.
Proof.
  split.
  - vm_compute. reflexivity.
  - split; [vm_compute; reflexivity|lia].
  - split; [vm_compute; reflexivity|]. split; [lia|reflexivity].
  - split; [vm_compute; reflexivity|lia].
  - vm_compute. reflexivity.
Qed.

Lemma small_image_tables : tables_in (len small_image) (file_content small_image) 3 2 1 1.
Proof.
  assert (len small_image = 2048) as -> by (vm_compute; reflexivity). split.
  - change (grains 3 2) with 2. unfold maxAlloc. lia.
  - change (sectors_of (tables 3 2 1 * 4)) with 1. lia.
  - change (tables 3 2 1) with 2. change (sectors_of (1 * 4)) with 1. intros i Hi.
    assert (gde (file_content small_image) 1 0 = 2) as E0 by (vm_compute; reflexivity). assert (gde (file_content small_image) 1 1 = 0) as E1 by (vm_compute; reflexivity).
    assert (i = 0 \/ i = 1) as [-> | ->] by lia; [rewrite E0; lia|by rewrite E1].
Qed.

Lemma small_image_grains : gt (image_disk (file_reader small_image) (file_content small_image) 3 2 1 1) = [3; 0].
Proof. vm_compute. reflexivity. Qed.

Lemma toy_zlib_ok : zlib_ok toy_zlib_read.
Proof.
  intros comp n data err Hn [= <- <-]. rewrite len_replicate. split; [lia|]. apply Forall_replicate. unfold is_byte.
  pose proof (Z.mod_pos_bound (default 0 (head comp)) 256). lia.
Qed.

Lemma small_grain (k s : Z) : 0 <= k -> [3; 0] !! Z.to_nat k = Some s -> s <> 0 -> k = 0 /\ s = 3.
Proof.
  intros Hk Hs Hn. assert (k = 0 \/ k = 1 \/ 2 <= k) as [-> | [-> | Hk2]] by lia; [vm_compute in Hs; split; congruence|vm_compute in Hs; congruence|].
  rewrite lookup_ge_None_2 in Hs by (cbn [length]; lia). congruence.
Qed.

Lemma small_image_whole : grains_ok toy_zlib_open toy_zlib_read (image_disk (file_reader small_image) (file_content small_image) 3 2 1 1) (len small_image) (file_content small_image).
Proof.
  intros k s Hk Hs E0 _. rewrite small_image_grains in Hs. destruct (small_grain k s Hk Hs E0) as [-> ->].
  unfold grain_ok. split; [vm_compute; congruence|]. split; [vm_compute; congruence|]. split; [reflexivity|].
  eexists _, _. split; [reflexivity|]. split; [by left|]. vm_compute. congruence.
Qed.

Lemma vmdk_open_then_read_witness :
  let d := image_disk (file_reader small_image) (file_content small_image) 3 2 1 1 in
  Open (file_reader small_image) = Ret d /\ ReadAt toy_zlib_open toy_zlib_read d (replicate 4 9) 1022 = Ret (mkR [77; 77; 0; 0] 4 None).
Proof.
  assert (Device (file_reader small_image) (len small_image) (file_content small_image)) as Hd by (apply file_device; [by apply (bool_decide_unpack _); vm_compute|by vm_compute]).
  destruct (vmdk_open_then_read toy_zlib_open toy_zlib_read (file_reader small_image) (len small_image) (file_content small_image) 3 2 1 1 Hd) as (Ho & _ & Hr).
  - by apply small_image_ok.
  - by apply small_image_tables.
  - split; [exact Ho|]. cbv zeta in Hr. rewrite Hr; [vm_compute; reflexivity| | |done].
    + apply toy_zlib_ok.
    + apply small_image_whole.
Defined.

(** A negative capacity passes the checks of the geometry, and the table of grains cannot
    be made. *)
Example vmdk_negative_capacity_panics :
  Open (file_reader (vmdk_header 0 (2 ^ 64 - 4) ++ sample_sector [])) = Panic MakeLenOutOfRange.
Proof. vm_compute. reflexivity. Qed.

(** The length in front of a compressed grain is not compared with the buffer. *)
Example vmdk_long_grain_panics :
  match Open (file_reader (vmdk_image (put_le 4 60000))) with
  | Ret d => match ReadAt toy_zlib_open toy_zlib_read d [0; 0] 0 with Panic _ => True | _ => False end
  | _ => False
  end.
Proof. vm_compute. exact I. Qed.

(** A stream that ends early is accepted, and what it does not give is read from the grain
    before it, not as zeros and not as an error. *)
Example vmdk_short_stream_stale :
  let short comp n := if default 0 (head comp) =? 1 then ([], Some ErrUnexpectedEOF) else toy_zlib_read comp n in
  let d := mkDisk (file_reader (replicate 1024 0 ++ sample_sector (put_le 4 1 ++ [88]) ++ sample_sector (put_le 4 1 ++ [1]))) 1024 512 1 2 0 true false [2; 3] in
  match ReadAt toy_zlib_open short d [0; 0; 0; 0] 510 with
  | Ret r => r_buf r = [88; 88; 88; 88] /\ r_err r = None
  | _ => False
  end.
Proof. vm_compute. done. Qed.

(** A read across the end of the disk: fewer bytes than the buffer holds, and no error. *)
Example vmdk_short_read_nil :
  ReadAt toy_zlib_open toy_zlib_read (image_disk (file_reader small_image) (file_content small_image) 3 2 1 1) [9; 9; 9; 9] 1534 = Ret (mkR [0; 0; 9; 9] 2 None).
Proof. vm_compute. reflexivity. Qed.
