(* ===== verification/Xpress.v ===== *)
(** * Xpress: the XPRESS decoder (wim/xpress/xpress.go)

    LZ77 with canonical Huffman codes, as WIM images use it. The bit reader is the record
    of the source; the words of its stream and the bytes that are read past them are
    interleaved, so the stream depends on when the reader loads a word. *)

From S2P Require Import Prelude Bytes.

Definition numChars : Z := 256.
Definition numSymbols : Z := 512.
Definition maxCodewordLen : Z := 15.
Definition minMatchLen : Z := 3.
Definition lensBytes : Z := 256.
Definition ErrCorrupt : error := Errorf "xpress: corrupt data".

(** ** The bit reader *)

Record bitReader := mkBits { bitbuf : Z (* uint32 *); bitsleft : Z (* uint *); data : list Z; next : Z }.

Definition ensure (b : bitReader) (n : Z) : go bitReader :=
  if n <=? bitsleft b then mret b
  else if len (data b) - next b <? 2 then mret (mkBits (bitbuf b) 32 (data b) (next b))
  else
    lo ← index (data b) (next b);
    hi ← index (data b) (next b + 1);
    let word := Z.lor lo (u32 (Z.shiftl hi 8)) in
    mret (mkBits (Z.lor (bitbuf b) (u32 (Z.shiftl word (u64 (16 - bitsleft b))))) (bitsleft b + 16) (data b) (next b + 2)).

Definition peek (b : bitReader) (n : Z) : Z := if n =? 0 then 0 else Z.shiftr (bitbuf b) (u64 (32 - n)).
Definition remove (b : bitReader) (n : Z) : bitReader := mkBits (u32 (Z.shiftl (bitbuf b) n)) (u64 (bitsleft b - n)) (data b) (next b).
Definition pop (b : bitReader) (n : Z) : Z * bitReader := (peek b n, remove b n).

Definition readByte (b : bitReader) : go (Z * bitReader) :=
  if len (data b) <=? next b then mret (0, b)
  else v ← index (data b) (next b); mret (v, mkBits (bitbuf b) (bitsleft b) (data b) (next b + 1)).

Definition readU16 (b : bitReader) : go (Z * bitReader) :=
  if len (data b) - next b <? 2 then mret (0, b)
  else
    lo ← index (data b) (next b);
    hi ← index (data b) (next b + 1);
    mret (Z.lor lo (Z.shiftl hi 8), mkBits (bitbuf b) (bitsleft b) (data b) (next b + 2)).

(** ** The decode table *)

(** One symbol of one length: its part of the table, and the next code. [None] is an
    over-subscribed code. *)
Definition add_symbol (lens : list Z) (length sym : Z) (st : list Z * Z) : go (option (list Z * Z)) :=
  let '(table, code) := st in
  l ← index lens sym;
  if negb (l =? length) then mret (Some (table, code))
  else
    let start := Z.shiftl code (maxCodewordLen - length) in
    let end_ := start + Z.shiftl 1 (maxCodewordLen - length) in
    if len table <? end_ then mret None
    else
      let entry := Z.lor (u16 (Z.shiftl sym 4)) (u16 length) in
      table ← go_range (fun i t => store t i entry) start (Z.to_nat (end_ - start)) table;
      mret (Some (table, code + 1)).

(** [for sym := range numSymbols], which is left by a return. *)
Fixpoint add_symbols (lens : list Z) (length sym : Z) (n : nat) (st : list Z * Z) : go (option (list Z * Z)) :=
  match n with
  | O => mret (Some st)
  | S n' => r ← add_symbol lens length sym st; match r with Some st => add_symbols lens length (sym + 1) n' st | None => mret None end
  end.
Fixpoint add_lengths (lens : list Z) (length : Z) (n : nat) (st : list Z * Z) : go (option (list Z)) :=
  match n with
  | O => mret (Some (fst st))
  | S n' =>
      r ← add_symbols lens length 0 (Z.to_nat numSymbols) st;
      match r with
      | Some (table, code) => add_lengths lens (length + 1) n' (table, Z.shiftl code 1)
      | None => mret None
      end
  end.
Definition buildDecodeTable (lens : list Z) : go (option (list Z)) :=
  table ← make 0 2 (Z.shiftl 1 maxCodewordLen);
  add_lengths lens 1 (Z.to_nat maxCodewordLen) (table, 0).

(** A symbol, or nothing for an invalid codeword. *)
Definition decodeSym (br : bitReader) (table : list Z) : go (option Z * bitReader) :=
  br ← ensure br maxCodewordLen;
  entry ← index table (peek br maxCodewordLen);
  let length := Z.land entry 0xf in
  if length =? 0 then mret (None, br)
  else mret (Some (Z.shiftr entry 4), remove br length).

(** ** Decompress *)

(** [for range length { out = append(out, out[len(out)-offset]) }] *)
Fixpoint copy_match (n : nat) (offset : Z) (out : list Z) : go (list Z) :=
  match n with
  | O => mret out
  | S n' => c ← index out (len out - offset); copy_match n' offset (out ++ [c])
  end.

(** The length behind a match header. *)
Definition match_length (sym : Z) (br : bitReader) : go (Z * bitReader) :=
  let length := Z.land sym 0xf in
  if length =? 0xf then
    '(b, br) ← readByte br;
    let length := length + b in
    if length =? 0xf + 0xff then readU16 br else mret (length, br)
  else mret (length, br).

Definition decode_round (table : list Z) (outSize : Z) (st : bitReader * list Z) : go ((bitReader * list Z) + list Z) :=
  let '(br, out) := st in
  if len out <? outSize then
    '(sym, br) ← decodeSym br table;
    match sym with
    | None => Err ErrCorrupt
    | Some sym =>
        if sym <? numChars then mret (inl (br, out ++ [u8 sym]))
        else
          let log2Offset := Z.land (Z.shiftr sym 4) 0xf in
          br ← ensure br 16;
          let '(low, br) := pop br log2Offset in
          let offset := Z.lor (Z.shiftl 1 log2Offset) low in
          '(length, br) ← match_length sym br;
          let length := length + minMatchLen in
          if (len out <? offset) || (outSize <? len out + length) then Err ErrCorrupt
          else
            out ← copy_match (Z.to_nat length) offset out;
            mret (inl (br, out))
    end
  else mret (inr out).

(** The lengths of the codewords, two in a byte. *)
Definition lens_round (input : list Z) (i : Z) (lens : list Z) : go (list Z) :=
  b ← index input i; lens ← store lens (2 * i) (Z.land b 0xf);
  b ← index input i; store lens (2 * i + 1) (Z.shiftr b 4).

Definition Decompress (input : list Z) (outSize : Z) : go (list Z) :=
  if len input <? lensBytes then Err ErrCorrupt
  else
    lens ← go_range (lens_round input) 0 (Z.to_nat lensBytes) (replicate (Z.to_nat numSymbols) 0);
    table ← buildDecodeTable lens;
    match table with
    | None => Err ErrCorrupt
    | Some table =>
        br ← slice input lensBytes (len input);
        make 0 1 outSize;;
        go_for (S (Z.to_nat outSize)) (decode_round table outSize) (mkBits 0 0 br 0, [])
    end.

(** ** The table is the canonical code

    The codewords in the order of their lengths, then of their symbols, one behind the other:
    a codeword of [l] bits has [2^(15-l)] places. *)

Definition coded (lens : list Z) (l : Z) (syms : list Z) : list (Z * Z) := (fun s => (l, s)) <$> filter (fun s => lens !! Z.to_nat s = Some l) syms.
Definition codes (lens : list Z) : list (Z * Z) := seqZ 1 15 ≫= (fun l => coded lens l (seqZ 0 512)).
Definition entry (s l : Z) : Z := Z.lor (u16 (Z.shiftl s 4)) (u16 l).
Definition places (l : Z) : Z := 2 ^ (15 - l).
Definition chunk (c : Z * Z) : list Z := replicate (Z.to_nat (places c.1)) (entry c.2 c.1).
Definition canonical (lens : list Z) : list Z := codes lens ≫= chunk.
Definition padded (f : list Z) : list Z := f ++ replicate (Z.to_nat (2 ^ 15 - len f)) 0.

Lemma places_pos l : l <= 15 -> 0 < places l.
Proof. intros. apply Z.pow_pos_nonneg; lia. Qed.

Lemma len_chunk c : c.1 <= 15 -> len (chunk c) = places c.1.
Proof. intros Hc. pose proof (places_pos c.1 Hc). unfold chunk. rewrite len_replicate. lia. Qed.

Lemma fill_region e n : forall (f : list Z) m, (n <= m)%nat ->
  go_range (fun i t => store t i e) (len f) n (f ++ replicate m 0) = Ret (f ++ replicate n e ++ replicate (m - n) 0).
Proof.
  induction n as [|n IH]; intros f m Hm; cbn [go_range]; [by rewrite Nat.sub_0_r|]. destruct m as [|m]; [lia|]. cbn [replicate].
  pose proof (len_nonneg f). rewrite store_ok by (rewrite len_app, len_cons, len_replicate; lia). cbn [mbind go_bind].
  rewrite insert_app_r_alt by (unfold len; lia). replace (Z.to_nat (len f) - length f)%nat with 0%nat by (unfold len; lia). cbn [insert list_insert].
  rewrite cons_middle, app_assoc. replace (len f + 1) with (len (f ++ [e])) by (rewrite len_app; done). rewrite IH by lia. by rewrite <-!app_assoc.
Qed.

(** One symbol. [f] is the part of the table that is filled. *)
Definition add_result (f : list Z) (code : Z) (cs : list (Z * Z)) (shift : Z) : option (list Z * Z) :=
  let f' := f ++ (cs ≫= chunk) in if len f' <=? 2 ^ 15 then Some (padded f', (code + len cs) * shift) else None.

Lemma add_symbol_ok lens l s f code : 1 <= l <= 15 -> 0 <= s < 512 -> len lens = 512 -> len f <= 2 ^ 15 -> code * places l = len f ->
  add_symbol lens l s (padded f, code) = Ret (add_result f code (coded lens l [s]) 1).
Proof.
  intros Hl Hs Hlens Hf Hcode. unfold add_symbol. destruct (index_ok lens s ltac:(lia)) as (x & Hx & ->). cbn [mbind go_bind].
  unfold coded. rewrite filter_cons, filter_nil. pose proof (len_nonneg f). pose proof (places_pos l ltac:(lia)). destruct (Z.eqb_spec x l) as [->|Hne]; cbn [negb].
  - rewrite decide_True by done. unfold add_result. cbn [fmap list_fmap mbind list_bind app]. rewrite app_nil_r, len_app, len_chunk by (cbn; lia). cbn [fst].
    unfold maxCodewordLen. rewrite (Z.shiftl_mul_pow2 code), (Z.shiftl_mul_pow2 1) by lia. fold (places l). rewrite Hcode, Z.mul_1_l. unfold padded at 1. rewrite len_app, len_replicate.
    replace (len f + Z.of_nat (Z.to_nat (2 ^ 15 - len f))) with (2 ^ 15) by lia. destruct (Z.ltb_spec (2 ^ 15) (len f + places l)).
    + by rewrite (proj2 (Z.leb_gt _ _)) by lia.
    + rewrite (proj2 (Z.leb_le _ _)) by lia. replace (len f + places l - len f) with (places l) by lia. unfold padded. rewrite fill_region by lia. cbn [mbind go_bind mret go_ret].
      do 3 f_equal; [|rewrite len_cons, len_nil; lia]. rewrite <-app_assoc. f_equal. unfold chunk. cbn [fst snd]. f_equal. rewrite len_app, len_replicate. f_equal. lia.
  - rewrite decide_False by congruence. unfold add_result. cbn. rewrite app_nil_r, (proj2 (Z.leb_le _ _)) by lia. by rewrite Z.add_0_r, Z.mul_1_r.
Qed.

Lemma coded_app lens l a b : coded lens l (a ++ b) = coded lens l a ++ coded lens l b.
Proof. unfold coded. by rewrite filter_app, fmap_app. Qed.

Lemma len_chunks lens l syms : l <= 15 -> len (coded lens l syms ≫= chunk) = len (coded lens l syms) * places l.
Proof.
  intros Hl. induction syms as [|s syms IH]; [done|]. change (s :: syms) with ([s] ++ syms). rewrite coded_app, bind_app, !len_app, IH.
  unfold coded at 1 3. rewrite filter_cons, filter_nil. destruct (decide _); [|done]. cbn [fmap list_fmap mbind list_bind]. rewrite app_nil_r, len_chunk, len_cons, len_nil by done. cbn [fst]. lia.
Qed.

Lemma add_symbols_ok lens l n : 1 <= l <= 15 -> len lens = 512 -> forall s f code, 0 <= s -> s + Z.of_nat n = 512 -> len f <= 2 ^ 15 -> code * places l = len f ->
  add_symbols lens l s n (padded f, code) = Ret (add_result f code (coded lens l (seqZ s (Z.of_nat n))) 1).
Proof.
  intros Hl Hlens. induction n as [|n IH]; intros s f code Hs Hn Hf Hcode; cbn [add_symbols].
  { unfold add_result. cbn. rewrite app_nil_r, (proj2 (Z.leb_le _ _)) by lia. by rewrite Z.add_0_r, Z.mul_1_r. }
  rewrite add_symbol_ok by (done || lia). cbn [mbind go_bind]. rewrite (seqZ_cons s) by lia. change (s :: seqZ (Z.succ s) (Z.pred (Z.of_nat (S n)))) with ([s] ++ seqZ (Z.succ s) (Z.pred (Z.of_nat (S n)))).
  rewrite coded_app. unfold add_result at 1. set (c := coded lens l [s]). set (f' := f ++ (c ≫= chunk)).
  assert (len f' = len f + len c * places l) as Hf' by (unfold f', c; rewrite len_app, len_chunks by lia; done). pose proof (places_pos l ltac:(lia)).
  destruct (Z.leb_spec (len f') (2 ^ 15)).
  - rewrite Z.mul_1_r, IH by (done || lia). replace (Z.succ s) with (s + 1) by lia. replace (Z.pred (Z.of_nat (S n))) with (Z.of_nat n) by lia.
    unfold add_result. rewrite bind_app, app_assoc. fold f'. destruct (_ <=? _); [|done]. do 3 f_equal. rewrite (len_app c). lia.
  - unfold add_result. rewrite bind_app, app_assoc. fold f'. rewrite (len_app f'), len_chunks by lia.
    match goal with |- context [len (coded lens l ?x)] => pose proof (len_nonneg (coded lens l x)) end. rewrite (proj2 (Z.leb_gt _ _)) by nia. done.
Qed.

Lemma add_lengths_ok lens n : len lens = 512 -> forall l f code, 1 <= l -> l + Z.of_nat n = 16 -> len f <= 2 ^ 15 -> ((0 < n)%nat -> code * places l = len f) ->
  let f' := f ++ ((seqZ l (Z.of_nat n) ≫= (fun l => coded lens l (seqZ 0 512))) ≫= chunk) in
  add_lengths lens l n (padded f, code) = Ret (if len f' <=? 2 ^ 15 then Some (padded f') else None).
Proof.
  intros Hlens. induction n as [|n IH]; intros l f code Hl Hn Hf Hcode f'; cbn [add_lengths].
  { unfold f'. cbn. by rewrite app_nil_r, (proj2 (Z.leb_le _ _)) by lia. }
  unfold numSymbols. rewrite (add_symbols_ok lens l (Z.to_nat 512)) by (done || lia). change (Z.of_nat (Z.to_nat 512)) with 512. cbn [mbind go_bind].
  unfold f'. rewrite (seqZ_cons l) by lia. replace (Z.succ l) with (l + 1) by lia. replace (Z.pred (Z.of_nat (S n))) with (Z.of_nat n) by lia. cbn [mbind list_bind]. rewrite bind_app, app_assoc.
  unfold add_result. set (c := coded lens l (seqZ 0 512)). assert (len (f ++ (c ≫= chunk)) = len f + len c * places l) as Hc by (unfold c; rewrite len_app, len_chunks by lia; done).
  change (list_bind _ _ chunk c) with (c ≫= chunk). set (f1 := f ++ (c ≫= chunk)) in *. destruct (Z.leb_spec (len f1) (2 ^ 15)).
  - rewrite IH; [done|lia|lia|done|]. intros Hpos. rewrite Z.mul_1_r, Z.shiftl_mul_pow2 by lia. change (2 ^ 1) with 2.
    assert (places l = 2 * places (l + 1)) as Hp. { unfold places. rewrite <-Z.pow_succ_r by lia. f_equal. lia. } specialize (Hcode ltac:(lia)). nia.
  - rewrite len_app. match goal with |- context [len f1 + len ?x] => pose proof (len_nonneg x) end. by rewrite (proj2 (Z.leb_gt _ _)) by lia.
Qed.

Lemma build_table_ok lens : len lens = 512 -> buildDecodeTable lens = Ret (if len (canonical lens) <=? 2 ^ 15 then Some (padded (canonical lens)) else None).
Proof.
  intros Hl. unfold buildDecodeTable, maxCodewordLen. change (Z.shiftl 1 15) with 32768. rewrite (make_ok 0 2 32768) by (unfold maxAlloc; lia). cbn [mbind go_bind].
  exact (add_lengths_ok lens 15 Hl 1 [] 0 ltac:(lia) ltac:(lia) ltac:(rewrite (@len_nil Z); lia) ltac:(rewrite (@len_nil Z); lia)).
Qed.

(** ** Streams: the specification

    A stream is a list of literals and matches. Its bits are those of the codewords and of
    the offsets, most significant first; they are stored in words, and the bytes of long
    lengths lie between the words, where the reader has got to when it reads them. *)

Inductive token := Lit (b : Z) | Match (length offset : Z).

Fixpoint bits_of (n : nat) (v : Z) : list bool := match n with O => [] | S n' => bits_of n' (v / 2) ++ [Z.odd v] end.
Definition bits_value (l : list bool) : Z := foldl (fun a b => 2 * a + Z.b2z b) 0 l.

Definition token_sym (t : token) : Z :=
  match t with Lit b => b | Match l o => 256 + 16 * Z.log2 o + Z.min (l - 3) 15 end.

(** The first place of a codeword in the table, and the codeword. *)
Fixpoint start_of (cs : list (Z * Z)) (c : Z * Z) : Z :=
  match cs with [] => 0 | c' :: cs' => if bool_decide (c' = c) then 0 else places c'.1 + start_of cs' c end.
Definition codelen (lens : list Z) (s : Z) : Z := default 0 (lens !! Z.to_nat s).
Definition codeword (lens : list Z) (s : Z) : list bool :=
  let l := codelen lens s in bits_of (Z.to_nat l) (start_of (codes lens) (l, s) / places l).

Definition token_bits (lens : list Z) (t : token) : list bool :=
  codeword lens (token_sym t) ++ match t with Lit _ => [] | Match _ o => bits_of (Z.to_nat (Z.log2 o)) (o - 2 ^ Z.log2 o) end.
(** The bytes of a length that does not fit its symbol. *)
Definition raw_length (l : Z) : list Z :=
  let l := l - 3 in if l <? 15 then [] else if l - 15 <? 255 then [l - 15] else [255; l mod 256; l / 256].

(** A word, when the reader has fewer than [need] bits. *)
Definition word_of (bits : list bool) : list Z := let v := bits_value (take 16 (bits ++ replicate 16 false)) in [v mod 256; v / 256].
Definition load (avail need : Z) (bits : list bool) : list Z * Z * list bool :=
  if need <=? avail then ([], avail, bits) else (word_of bits, avail + 16, drop 16 bits).
Fixpoint layout (lens : list Z) (ts : list token) (avail : Z) (bits : list bool) : list Z :=
  match ts with
  | [] => []
  | t :: ts =>
      let '(w1, avail, bits) := load avail 15 bits in
      let avail := avail - codelen lens (token_sym t) in
      match t with
      | Lit _ => w1 ++ layout lens ts avail bits
      | Match l o => let '(w2, avail, bits) := load avail 16 bits in w1 ++ w2 ++ raw_length l ++ layout lens ts (avail - Z.log2 o) bits
      end
  end.

Fixpoint pack_lens (lens : list Z) : list Z := match lens with a :: b :: rest => (a + 16 * b) :: pack_lens rest | _ => [] end.
Definition compress (lens : list Z) (ts : list token) : list Z := pack_lens lens ++ layout lens ts 0 (ts ≫= token_bits lens).

(** What the tokens mean: a match repeats what lies [offset] back, also what it produces. *)
Fixpoint repeat_back (n : nat) (offset : Z) (out : list Z) : list Z :=
  match n with O => out | S n' => repeat_back n' offset (out ++ [default 0 (out !! Z.to_nat (len out - offset))]) end.
Definition expand_token (out : list Z) (t : token) : list Z := match t with Lit b => out ++ [b] | Match l o => repeat_back (Z.to_nat l) o out end.
Definition expand (ts : list token) : list Z := foldl expand_token [] ts.

(** A token that can stand behind [out]. *)
Definition token_ok (lens : list Z) (out : list Z) (t : token) : Prop :=
  1 <= codelen lens (token_sym t) <= 15 /\ match t with Lit b => is_byte b | Match l o => 3 <= l <= 65538 /\ 1 <= o < 2 ^ 16 /\ o <= len out end.
Fixpoint tokens_ok (lens : list Z) (out : list Z) (ts : list token) : Prop :=
  match ts with [] => True | t :: ts => token_ok lens out t /\ tokens_ok lens (expand_token out t) ts end.
(** The lengths of a code that is not over-subscribed. *)
Definition code_ok (lens : list Z) : Prop := len lens = 512 /\ Forall (fun l => 0 <= l <= 15) lens /\ len (canonical lens) <= 2 ^ 15.

(** *** Bits *)

Lemma bits_value_app a b : bits_value (a ++ b) = bits_value a * 2 ^ len b + bits_value b.
Proof.
  unfold bits_value. rewrite foldl_app. generalize (foldl (fun a b => 2 * a + Z.b2z b) 0 a). induction b as [|x b IH] using rev_ind; intros v; [rewrite (@len_nil bool); cbn; lia|].
  rewrite !foldl_app. cbn [foldl]. rewrite IH, len_app. change (len [x]) with 1. rewrite Z.pow_add_r by (pose proof (len_nonneg b); lia). change (2 ^ 1) with 2. ring.
Qed.

Lemma bits_value_range l : 0 <= bits_value l < 2 ^ len l.
Proof.
  induction l as [|x l IH] using rev_ind; [rewrite (@len_nil bool); cbn; lia|]. rewrite bits_value_app, len_app. change (len [x]) with 1. rewrite Z.pow_add_r by (pose proof (len_nonneg l); lia).
  change (bits_value [x]) with (Z.b2z x). change (2 ^ 1) with 2. destruct x; cbn [Z.b2z]; lia.
Qed.

Lemma len_bits_of n v : len (bits_of n v) = Z.of_nat n.
Proof. revert v. induction n as [|n IH]; intros v; [done|]. cbn [bits_of]. rewrite len_app, IH. change (len [Z.odd v]) with 1. lia. Qed.

Lemma value_bits_of n v : 0 <= v < 2 ^ Z.of_nat n -> bits_value (bits_of n v) = v.
Proof.
  revert v. induction n as [|n IH]; intros v Hv; [cbn in *; lia|]. rewrite Nat2Z.inj_succ, Z.pow_succ_r in Hv by lia. cbn [bits_of]. rewrite bits_value_app.
  change (len [Z.odd v]) with 1. change (bits_value [Z.odd v]) with (Z.b2z (Z.odd v)). rewrite IH; [|split; [apply Z.div_pos; lia|apply Z.div_lt_upper_bound; lia]].
  pose proof (Z.div_mod v 2 ltac:(lia)). rewrite Zmod_odd in H. destruct (Z.odd v); cbn; lia.
Qed.

(** The reader holds [P], and [rest] is what it has not loaded. *)
Definition holds (br : bitReader) (P : list bool) (rest : list Z) : Prop :=
  bitsleft br = len P /\ len P <= 32 /\ bitbuf br = bits_value P * 2 ^ (32 - len P) /\ 0 <= next br <= len (data br) /\ from (data br) (next br) = rest.

Lemma holds_peek br P rest n : holds br P rest -> 0 <= n <= len P -> peek br n = bits_value (take (Z.to_nat n) P).
Proof.
  intros (_ & Hl & Hb & _) Hn. unfold peek. destruct (Z.eqb_spec n 0) as [->|Hn0]; [done|]. rewrite wrap_u_id, Z.shiftr_div_pow2, Hb by lia.
  rewrite <-(take_drop (Z.to_nat n) P) at 1 2. set (a := take _ P). set (b := drop _ P). assert (len a = n) as Ha by (unfold a, len in *; rewrite length_take; lia).
  assert (len P = n + len b) as HP by (rewrite <-Ha, <-len_app; unfold a, b; by rewrite take_drop). rewrite bits_value_app, len_app, Ha. pose proof (len_nonneg b). pose proof (bits_value_range b).
  replace (32 - n) with (len b + (32 - (n + len b))) by lia. rewrite Z.pow_add_r by lia. symmetry. apply Z.div_unique with (r := bits_value b * 2 ^ (32 - (n + len b))).
  - left. pose proof (Z.pow_pos_nonneg 2 (32 - (n + len b))). nia.
  - lia.
Qed.

Lemma holds_remove br P rest n : holds br P rest -> 0 <= n <= len P -> holds (remove br n) (drop (Z.to_nat n) P) rest.
Proof.
  intros (Hleft & Hl & Hb & Hnext & Hrest) Hn. pose proof (len_nonneg P). unfold holds, remove. cbn [bitsleft bitbuf next data].
  set (a := take (Z.to_nat n) P). set (b := drop _ P). assert (len a = n) as Ha by (unfold a, len in *; rewrite length_take; lia).
  assert (P = a ++ b) as EP by (unfold a, b; by rewrite take_drop). assert (len P = n + len b) as HP by (rewrite EP, len_app; lia). pose proof (len_nonneg b).
  split; [rewrite wrap_u_id by lia; lia|]. split; [lia|]. split; [|done]. rewrite Hb, Z.shiftl_mul_pow2 by lia. rewrite EP at 1. rewrite bits_value_app, HP. unfold wrap_u.
  pose proof (bits_value_range b). replace (32 - len b) with (n + (32 - (n + len b))) by lia. rewrite Z.pow_add_r by lia.
  assert (2 ^ 32 = 2 ^ len b * (2 ^ n * 2 ^ (32 - (n + len b)))) as E32 by (rewrite <-!Z.pow_add_r by lia; f_equal; lia).
  set (x := 2 ^ len b) in *. set (y := 2 ^ n) in *. set (z := 2 ^ (32 - (n + len b))) in *. assert (0 < y /\ 0 < z) as [Hy Hz] by (split; apply Z.pow_pos_nonneg; lia).
  symmetry. apply Z.mod_unique with (q := bits_value a); [left; rewrite E32; nia|]. rewrite E32. ring.
Qed.

Lemma from_index (l : list Z) i x r : 0 <= i -> from l i = x :: r -> index l i = Ret x /\ from l (i + 1) = r /\ i < len l.
Proof.
  intros Hi E. assert (i < len l) as Hlt. { destruct (Z.ltb_spec i (len l)); [done|]. unfold from in E. rewrite drop_ge in E by (unfold len in *; lia). done. }
  assert (l !! Z.to_nat i = Some x) as Hx. { unfold from in E. rewrite <-(Nat.add_0_r (Z.to_nat i)), <-lookup_drop, E. done. }
  split; [unfold index; by rewrite (proj2 (Z.ltb_ge _ _)), Hx by lia|]. split; [|done]. rewrite <-from_from, E by lia. done.
Qed.

Lemma word_bytes v : 0 <= v < 2 ^ 16 -> Z.lor (v mod 256) (u32 (Z.shiftl (v / 256) 8)) = v /\ Z.lor (v mod 256) (Z.shiftl (v / 256) 8) = v.
Proof.
  intros Hv. pose proof (Z.div_mod v 256 ltac:(lia)). pose proof (Z.mod_pos_bound v 256 ltac:(lia)). assert (0 <= v / 256 < 256) by (split; [apply Z.div_pos; lia|apply Z.div_lt_upper_bound; lia]).
  rewrite wrap_u_id by (rewrite Z.shiftl_mul_pow2 by lia; lia). rewrite lor_shiftl_add by lia. split; lia.
Qed.

Lemma holds_ensure br P rest n bits w avail bits' : load (len P) n bits = (w, avail, bits') -> holds br P (w ++ rest) -> 0 <= n <= 16 ->
  exists br' X k, ensure br n = Ret br' /\ data br' = data br /\ holds br' (P ++ X) rest /\ len (P ++ X) = avail /\ n <= avail /\ X ++ bits' = bits ++ replicate k false.
Proof.
  unfold load. intros Hload Hbr Hn. pose proof Hbr as (Hleft & Hl & Hb & Hnext & Hrest). unfold ensure. rewrite Hleft. destruct (Z.leb_spec n (len P)) as [Hle|Hlt].
  - injection Hload as <- <- <-. exists br, [], 0%nat. rewrite !app_nil_r. split; [done|]. split; [done|]. split; [exact Hbr|]. split; [done|]. by split.
  - injection Hload as <- <- <-. set (X := take 16 (bits ++ replicate 16 false)) in *. unfold word_of in Hrest. fold X in Hrest. cbn [app] in Hrest.
    assert (len X = 16) as HX by (unfold X, len; rewrite length_take, length_app, length_replicate; lia). pose proof (bits_value_range X) as Hv. rewrite HX in Hv.
    destruct (from_index (data br) (next br) _ _ ltac:(lia) Hrest) as (Hlo & Hrest1 & Hl1). destruct (from_index (data br) (next br + 1) _ _ ltac:(lia) Hrest1) as (Hhi & Hrest2 & Hl2).
    rewrite (proj2 (Z.ltb_ge _ _)) by lia. rewrite Hlo. cbn [mbind go_bind]. rewrite Hhi. cbn [mbind go_bind mret go_ret]. rewrite (proj1 (word_bytes _ Hv)).
    pose proof (len_nonneg P). eexists _, X, (16 - length bits)%nat. split; [reflexivity|]. split; [done|]. split; [|split; [rewrite len_app; lia|split; [lia|]]].
    + unfold holds. cbn [bitsleft bitbuf data next]. rewrite len_app, HX. split; [done|]. split; [lia|]. split; [|split; [lia|by replace (next br + 2) with (next br + 1 + 1) by lia]].
      rewrite (wrap_u_id 64 (16 - len P)) by lia. rewrite bits_value_app, HX, Hb.
      assert (2 ^ (32 - len P) = 2 ^ (16 - len P) * 2 ^ 16) as Ep by (rewrite <-Z.pow_add_r by lia; f_equal; lia). replace (32 - (len P + 16)) with (16 - len P) by lia.
      assert (2 ^ (16 - len P) <= 2 ^ 16) as Hp1 by (apply Z.pow_le_mono_r; lia). assert (0 < 2 ^ (16 - len P)) as Hp0 by (apply Z.pow_pos_nonneg; lia).
      rewrite (Z.shiftl_mul_pow2 (bits_value X)) by lia. rewrite (wrap_u_id 32) by nia. rewrite Z.lor_comm, <-(Z.shiftl_mul_pow2 (bits_value P)) by lia.
      rewrite lor_shiftl_add; [rewrite Ep; ring|lia|]. rewrite Ep. nia.
    + unfold X. destruct (decide (16 <= length bits)%nat) as [Hge|Hsh].
      * rewrite take_app_le by lia. replace (16 - length bits)%nat with 0%nat by lia. by rewrite take_drop, app_nil_r.
      * rewrite (drop_ge bits) by lia. rewrite app_nil_r, take_app_ge by lia. f_equal. rewrite take_replicate. f_equal. lia.
Qed.

(** *** The place of a codeword *)

Lemma start_of_split pre c post : c ∉ pre -> Forall (fun c' => c'.1 <= 15) pre -> start_of (pre ++ c :: post) c = len (pre ≫= chunk).
Proof.
  intros Hn Hl. induction Hl as [|c' pre Hc Hl IH]; cbn [app start_of]; [by rewrite bool_decide_true|]. apply not_elem_of_cons in Hn as [Hne Hn].
  rewrite bool_decide_false by done. rewrite IH by done. cbn [mbind list_bind]. rewrite len_app, len_chunk by done. done.
Qed.

Lemma coded_in lens l c syms : c ∈ coded lens l syms -> c.1 = l /\ c.2 ∈ syms.
Proof. unfold coded. intros (s' & -> & Hs)%list_elem_of_fmap. apply list_elem_of_filter in Hs as [_ Hs]. done. Qed.

Lemma codes_split lens l s : 1 <= l <= 15 -> 0 <= s < 512 -> lens !! Z.to_nat s = Some l ->
  exists pre post, codes lens = pre ++ (l, s) :: post /\ (l, s) ∉ pre /\ Forall (fun c => 1 <= c.1 <= l) pre.
Proof.
  intros Hl Hs Hx. unfold codes. assert (seqZ 1 15 = seqZ 1 (l - 1) ++ l :: seqZ (l + 1) (15 - l)) as ->.
  { replace 15 with ((l - 1) + (16 - l)) at 1 by lia. rewrite seqZ_app by lia. f_equal. replace (1 + (l - 1)) with l by lia.
    rewrite (seqZ_cons l (16 - l)) by lia. f_equal. f_equal; lia. }
  assert (seqZ 0 512 = seqZ 0 s ++ s :: seqZ (s + 1) (511 - s)) as Es.
  { replace 512 with (s + (512 - s)) at 1 by lia. rewrite seqZ_app by lia. f_equal. rewrite Z.add_0_l. rewrite (seqZ_cons s (512 - s)) by lia. f_equal. f_equal; lia. }
  rewrite bind_app, bind_cons. set (A := seqZ 1 (l - 1) ≫= _). set (B := seqZ (l + 1) (15 - l) ≫= _). rewrite Es.
  assert (forall c, c ∈ A -> 1 <= c.1 < l) as HA.
  { unfold A. intros c (l' & Hc & Hl')%list_elem_of_bind. apply coded_in in Hc as [-> _]. apply elem_of_seqZ in Hl'. lia. }
  rewrite coded_app. change (s :: seqZ (s + 1) (511 - s)) with ([s] ++ seqZ (s + 1) (511 - s)). rewrite coded_app. unfold coded at 2. rewrite filter_cons_True by done. rewrite filter_nil. cbn [fmap list_fmap].
  rewrite <-!app_assoc, app_assoc. cbn [app]. eexists (A ++ coded lens l (seqZ 0 s)), _. split; [reflexivity|]. split.
  - intros [Hin%HA|Hin]%elem_of_app; [cbn in Hin; lia|]. apply coded_in in Hin as [_ Hin]. apply elem_of_seqZ in Hin. cbn in Hin. lia.
  - apply Forall_forall. intros c [Hin%HA|Hin]%elem_of_app; [lia|]. apply coded_in in Hin as [-> _]. lia.
Qed.

Lemma chunks_divide l pre : l <= 15 -> Forall (fun c => 1 <= c.1 <= l) pre -> exists k, len (pre ≫= chunk) = k * places l.
Proof.
  intros Hl. induction 1 as [|c pre Hc _ [k IH]]; [by exists 0|]. cbn [mbind list_bind]. rewrite len_app, len_chunk by lia. exists (2 ^ (l - c.1) + k).
  change (list_bind _ _ chunk pre) with (pre ≫= chunk). rewrite IH. unfold places. replace (15 - c.1) with ((l - c.1) + (15 - l)) by lia. rewrite Z.pow_add_r by lia. lia.
Qed.

(** A codeword is as long as its length says, and the places that start with it have its
    entry. *)
Lemma codeword_ok lens s : code_ok lens -> 0 <= s < 512 -> 1 <= codelen lens s <= 15 ->
  len (codeword lens s) = codelen lens s /\
  forall Q, len Q = 15 - codelen lens s -> padded (canonical lens) !! Z.to_nat (bits_value (codeword lens s ++ Q)) = Some (entry s (codelen lens s)).
Proof.
  intros (Hlen & Hlens & Hk) Hs Hl. unfold codeword. set (l := codelen lens s) in *. split; [rewrite len_bits_of; lia|]. intros Q HQ.
  assert (lens !! Z.to_nat s = Some l) as Hx. { destruct (index_ok lens s ltac:(lia)) as (x & Hx & _). unfold l, codelen. by rewrite Hx. }
  destruct (codes_split lens l s Hl Hs Hx) as (pre & post & Ec & Hn & Hpre). rewrite Ec, start_of_split by (done || (eapply Forall_impl; [exact Hpre|cbn; lia])).
  destruct (chunks_divide l pre ltac:(lia) Hpre) as [k Hdiv]. pose proof (places_pos l ltac:(lia)) as Hp. set (st := len (pre ≫= chunk)) in *. pose proof (len_nonneg (pre ≫= chunk)) as Hst. fold st in Hst.
  assert (canonical lens = (pre ≫= chunk) ++ chunk (l, s) ++ (post ≫= chunk)) as Ecan by (unfold canonical; rewrite Ec, bind_app; done).
  assert (st + places l <= 2 ^ 15) as Hfit. { rewrite Ecan, !len_app, len_chunk in Hk by (cbn; lia). fold st in Hk. cbn [fst] in Hk. pose proof (len_nonneg (post ≫= chunk)). lia. }
  assert (2 ^ 15 = 2 ^ l * places l) as E15 by (unfold places; rewrite <-Z.pow_add_r by lia; f_equal; lia).
  rewrite Hdiv, Z.div_mul by lia. rewrite bits_value_app, value_bits_of by (rewrite Z2Nat.id by lia; nia). rewrite HQ. fold (places l). rewrite <-Hdiv.
  pose proof (bits_value_range Q) as HV. rewrite HQ in HV. fold (places l) in HV. unfold padded. rewrite Ecan, <-!app_assoc.
  rewrite lookup_app_r by (unfold st, len in *; lia). assert (Z.to_nat (st + bits_value Q) - length (pre ≫= chunk) < Z.to_nat (places l))%nat as Hin by (unfold st, len in *; lia).
  rewrite lookup_app_l by (unfold chunk; rewrite length_replicate; exact Hin). unfold chunk. by apply lookup_replicate_2.
Qed.

Lemma entry_parts s l : 0 <= s < 512 -> 1 <= l <= 15 -> Z.land (entry s l) 15 = l /\ Z.shiftr (entry s l) 4 = s.
Proof.
  intros Hs Hl. unfold entry. rewrite (wrap_u_id 16 (Z.shiftl s 4)), (wrap_u_id 16 l) by (rewrite ?Z.shiftl_mul_pow2 by lia; lia). rewrite Z.lor_comm, lor_shiftl_add by lia. split.
  - change 15 with (Z.ones 4). rewrite Z.land_ones by lia. symmetry. apply Z.mod_unique with (q := s); lia.
  - rewrite Z.shiftr_div_pow2 by lia. symmetry. apply Z.div_unique with (r := l); lia.
Qed.

(** Decoding a symbol. *)
Lemma decode_sym lens br P rest bits w avail bits' s : code_ok lens -> 0 <= s < 512 -> 1 <= codelen lens s <= 15 -> load (len P) 15 bits = (w, avail, bits') -> holds br P (w ++ rest) ->
  forall Z1 more, P ++ bits = codeword lens s ++ more ++ Z1 ->
  exists br' P' k, decodeSym br (padded (canonical lens)) = Ret (Some s, br') /\ data br' = data br /\ holds br' P' rest /\ len P' = avail - codelen lens s /\ P' ++ bits' = more ++ Z1 ++ replicate k false.
Proof.
  intros Hc Hs Hl Hload Hbr Z1 more Heq. destruct (codeword_ok lens s Hc Hs Hl) as [Hcw Htab]. set (l := codelen lens s) in *. set (cw := codeword lens s) in *.
  destruct (holds_ensure _ _ _ _ _ _ _ _ Hload Hbr ltac:(lia)) as (br1 & X & k & Hens & Hd1 & Hbr1 & HX & Ha & Hbits).
  assert (exists Q, P ++ X = cw ++ Q) as [Q HQ].
  { exists (drop (length cw) (P ++ X)). assert (take (length cw) (P ++ X) = cw) as E; [|rewrite <-E at 1; by rewrite take_drop].
    assert ((P ++ X) ++ bits' = cw ++ (more ++ Z1 ++ replicate k false)) as E by (rewrite <-app_assoc, Hbits, app_assoc, Heq, <-!app_assoc; done).
    apply (f_equal (take (length cw))) in E. rewrite take_app_length in E. rewrite take_app_le in E by (unfold len in *; lia). done. }
  exists (remove br1 l), Q, k. unfold decodeSym. unfold maxCodewordLen. rewrite Hens. cbn [mbind go_bind].
  rewrite (holds_peek _ _ _ _ Hbr1) by lia. rewrite HQ. assert (len Q = avail - l) as HlQ by (rewrite HQ, len_app in HX; lia).
  assert (take (Z.to_nat 15) (cw ++ Q) = cw ++ take (Z.to_nat (15 - l)) Q) as ->. { rewrite take_app. f_equal; [apply take_ge; unfold len in *; lia|]. f_equal. unfold len in *. lia. }
  assert (len (take (Z.to_nat (15 - l)) Q) = 15 - l) as HtQ by (unfold len in *; rewrite length_take; lia).
  unfold index. match goal with |- context [bits_value ?b <? 0] => pose proof (bits_value_range b) end. rewrite (proj2 (Z.ltb_ge _ _)) by lia. rewrite (Htab _ HtQ). cbn [mbind go_bind].
  destruct (entry_parts s l Hs Hl) as [E1 E2]. change 0xf with 15. rewrite E1, E2, (proj2 (Z.eqb_neq l 0)) by lia. split; [done|]. split; [done|]. split; [|split; [done|]].
  - pose proof (holds_remove _ _ _ l Hbr1 ltac:(lia)) as Hrem. rewrite HQ in Hrem. rewrite drop_app_ge in Hrem by (unfold len in *; lia).
    replace (Z.to_nat l - length cw)%nat with 0%nat in Hrem by (unfold len in *; lia). exact Hrem.
  - apply (app_inv_head cw). rewrite app_assoc, <-HQ, <-app_assoc, Hbits, app_assoc, Heq, <-!app_assoc. done.
Qed.

(** *** Matches *)

Lemma repeat_back_len n o out : len (repeat_back n o out) = len out + Z.of_nat n.
Proof. revert out. induction n as [|n IH]; intros out; cbn [repeat_back]; [lia|]. rewrite IH, len_app, len_cons, len_nil. lia. Qed.

Lemma copy_match_ok n o out : 1 <= o <= len out -> copy_match n o out = Ret (repeat_back n o out).
Proof.
  revert out. induction n as [|n IH]; intros out Ho; [done|]. cbn [copy_match repeat_back]. destruct (index_ok out (len out - o) ltac:(lia)) as (x & Hx & ->). rewrite Hx. cbn [mbind go_bind default].
  apply IH. rewrite len_app, len_cons, len_nil. lia.
Qed.

Lemma match_sym l o : 3 <= l -> 1 <= o < 2 ^ 16 -> let s := token_sym (Match l o) in 256 <= s < 512 /\ Z.land s 0xf = Z.min (l - 3) 15 /\ Z.land (Z.shiftr s 4) 0xf = Z.log2 o /\ 0 <= Z.log2 o <= 15.
Proof.
  intros Hl Ho s. assert (0 <= Z.log2 o <= 15) as Hk. { split; [apply Z.log2_nonneg|]. assert (Z.log2 o < 16); [|lia]. apply Z.log2_lt_pow2; lia. }
  unfold s, token_sym. set (k := Z.log2 o) in *. set (m := Z.min (l - 3) 15). assert (0 <= m <= 15) by lia. assert (forall x, Z.land x 0xf = x mod 16) as Hland by (intros x; exact (Z.land_ones x 4 ltac:(lia))). rewrite !Hland, Z.shiftr_div_pow2 by lia. change (2 ^ 4) with 16.
  split; [lia|]. split; [symmetry; apply Z.mod_unique with (q := 16 + k); lia|]. split; [|lia].
  replace ((256 + 16 * k + m) / 16) with (16 + k) by (apply Z.div_unique with (r := m); lia). symmetry. apply Z.mod_unique with (q := 1); lia.
Qed.

Lemma read_raw br P rest s l : holds br P (raw_length l ++ rest) -> 3 <= l <= 65538 -> Z.land s 0xf = Z.min (l - 3) 15 ->
  exists br', match_length s br = Ret (l - 3, br') /\ holds br' P rest.
Proof.
  intros Hbr Hl Hs. unfold match_length. rewrite Hs. change 0xf with 15. change (15 + 0xff) with 270. unfold raw_length in Hbr. destruct (Z.ltb_spec (l - 3) 15).
  { rewrite (proj2 (Z.eqb_neq _ _)) by lia. exists br. split; [do 2 f_equal; lia|exact Hbr]. }
  rewrite (proj2 (Z.eqb_eq _ _)) by lia. destruct Hbr as (Hleft & Hlp & Hb & Hnext & Hrest). replace (Z.min (l - 3) 15) with 15 by lia. unfold readByte.
  destruct (Z.ltb_spec (l - 3 - 15) 255); cbn [app] in Hrest; destruct (from_index _ _ _ _ (proj1 Hnext) Hrest) as (Hi & Hrest1 & Hlt); rewrite (proj2 (Z.leb_gt _ _)) by lia; rewrite Hi; cbn [mbind go_bind mret go_ret].
  - rewrite (proj2 (Z.eqb_neq _ _)) by lia. eexists. split; [do 2 f_equal; lia|]. unfold holds. cbn [bitsleft bitbuf data next]. split; [done|]. split; [done|]. split; [done|]. split; [lia|done].
  - change (15 + 255 =? 270) with true. cbn match. unfold readU16. cbn [data next].
    destruct (from_index (data br) (next br + 1) _ _ ltac:(lia) Hrest1) as (Hlo & Hrest2 & Hl1). destruct (from_index (data br) (next br + 1 + 1) _ _ ltac:(lia) Hrest2) as (Hhi & Hrest3 & Hl2).
    rewrite (proj2 (Z.ltb_ge _ _)) by lia. rewrite Hlo. cbn [mbind go_bind]. rewrite Hhi. cbn [mbind go_bind mret go_ret]. rewrite (proj2 (word_bytes (l - 3) ltac:(lia))).
    eexists. split; [reflexivity|]. unfold holds. cbn [bitsleft bitbuf data next]. split; [done|]. split; [done|]. split; [done|]. split; [lia|]. by replace (next br + 1 + 2) with (next br + 1 + 1 + 1) by lia.
Qed.

Lemma expand_grows lens out t : token_ok lens out t -> len (expand_token out t) = len out + match t with Lit _ => 1 | Match l _ => l end.
Proof. destruct t as [b|l o]; intros [_ Ht]; cbn [expand_token]; [by rewrite len_app|]. rewrite repeat_back_len. lia. Qed.

Lemma expand_monotone lens ts : forall out, tokens_ok lens out ts -> len out <= len (foldl expand_token out ts).
Proof.
  induction ts as [|t ts IH]; intros out Hok; cbn [foldl]; [lia|]. destruct Hok as [Ht Hts]. specialize (IH _ Hts). rewrite (expand_grows lens) in IH by done. destruct Ht as [_ Ht]. destruct t; lia.
Qed.

Lemma decode_tokens lens ts : code_ok lens -> forall out br P bits tail z fuel, holds br P (layout lens ts (len P) bits ++ tail) -> P ++ bits = (ts ≫= token_bits lens) ++ replicate z false ->
  tokens_ok lens out ts -> (length ts < fuel)%nat -> let res := foldl expand_token out ts in
  go_for fuel (decode_round (padded (canonical lens)) (len res)) (br, out) = Ret res.
Proof.
  intros Hc. induction ts as [|t ts IH]; intros out br P bits tail z [|fuel] Hbr Hbits Hok Hf res; cbn [length] in Hf; try lia.
  { cbn [go_for foldl]. unfold decode_round, res. cbn [foldl]. by rewrite Z.ltb_irrefl. }
  destruct Hok as [Ht Hts]. pose proof (expand_monotone lens ts _ Hts) as Hmono. pose proof (expand_grows lens out t Ht) as Hgrow. rewrite Hgrow in Hmono.
  cbn [foldl] in res. fold res in Hmono. destruct Ht as [Hcl Ht]. rewrite bind_cons in Hbits. unfold token_bits at 1 in Hbits.
  assert (0 <= token_sym t < 512) as Hsym. { destruct t as [b|l o]; cbn [token_sym]; [unfold is_byte in Ht; lia|]. destruct (match_sym l o ltac:(lia) ltac:(lia)) as (? & _). unfold token_sym in *. lia. }
  cbn [layout] in Hbr. destruct (load (len P) 15 bits) as [[w1 avail] bits1] eqn:E1. cbn [go_for].
  match goal with |- mbind ?k _ = _ => set (continue := k) end. unfold decode_round.
  destruct t as [b|l o].
  - rewrite <-app_assoc in Hbr. cbn [app] in Hbits. rewrite app_nil_r, <-app_assoc in Hbits.
    destruct (decode_sym lens br P _ bits w1 avail bits1 b Hc Hsym Hcl E1 Hbr _ _ Hbits) as (br' & P' & k & Hdec & Hd & Hbr' & HP' & Hbits').
    rewrite (proj2 (Z.ltb_lt _ _)) by lia. rewrite Hdec. cbn [mbind go_bind]. unfold numChars. unfold is_byte in Ht. rewrite (proj2 (Z.ltb_lt b 256)) by lia. cbn [mbind go_bind mret go_ret].
    rewrite wrap_u_id by lia. unfold continue. apply (IH _ _ P' bits1 tail (z + k)%nat); [by rewrite HP'| |exact Hts|lia].
    rewrite Hbits'. by rewrite replicate_add.
  - destruct Ht as (Hl & Ho & Hoff). destruct (match_sym l o ltac:(lia) ltac:(lia)) as (Hs & Hlow & Hlog & Hk).
    destruct (load (avail - codelen lens (token_sym (Match l o))) 16 bits1) as [[w2 avail2] bits2] eqn:E2. rewrite <-!app_assoc in Hbr. rewrite <-!app_assoc in Hbits.
    destruct (decode_sym lens br P _ bits w1 avail bits1 _ Hc Hsym Hcl E1 Hbr _ _ Hbits) as (br1 & P1 & k1 & Hdec & Hd1 & Hbr1 & HP1 & Hbits1).
    rewrite (proj2 (Z.ltb_lt _ _)) by lia. rewrite Hdec. cbn [mbind go_bind]. unfold numChars. rewrite (proj2 (Z.ltb_ge _ 256)) by lia. rewrite Hlog.
    rewrite <-HP1 in E2. destruct (holds_ensure br1 P1 _ 16 bits1 w2 avail2 bits2 E2 Hbr1 ltac:(lia)) as (br2 & X & k2 & -> & Hd2 & Hbr2 & HX & Ha2 & Hbits2). cbn [mbind go_bind]. unfold pop.
    set (lo := bits_of (Z.to_nat (Z.log2 o)) (o - 2 ^ Z.log2 o)) in *. assert (len lo = Z.log2 o) as Hlo by (unfold lo; rewrite len_bits_of; lia).
    pose proof (Z.log2_spec o ltac:(lia)) as Hspec. rewrite Z.pow_succ_r in Hspec by lia.
    assert (exists P2, P1 ++ X = lo ++ P2 /\ P2 ++ bits2 = (ts ≫= token_bits lens) ++ replicate (z + k1 + k2) false) as (P2 & HP2 & Hbits3).
    { assert ((P1 ++ X) ++ bits2 = lo ++ (ts ≫= token_bits lens) ++ replicate (z + k1 + k2) false) as E.
      { rewrite <-app_assoc, Hbits2, app_assoc, Hbits1. rewrite !replicate_add, <-!app_assoc. done. }
      exists (drop (length lo) (P1 ++ X)). assert (take (length lo) (P1 ++ X) = lo) as Etake.
      { apply (f_equal (take (length lo))) in E. rewrite take_app_length in E. rewrite take_app_le in E by (unfold len in *; lia). exact E. }
      assert (P1 ++ X = lo ++ drop (length lo) (P1 ++ X)) as Ed by (rewrite <-Etake at 1; symmetry; apply take_drop).
      split; [exact Ed|]. apply (app_inv_head lo). rewrite app_assoc, <-Ed. exact E. }
    rewrite (holds_peek _ _ _ _ Hbr2) by lia. rewrite HP2, take_app_length' by (unfold len in Hlo; lia). assert (bits_value lo = o - 2 ^ Z.log2 o) as -> by (unfold lo; apply value_bits_of; rewrite Z2Nat.id by lia; lia).
    pose proof (holds_remove _ _ _ (Z.log2 o) Hbr2 ltac:(lia)) as Hbr3. rewrite HP2, drop_app_length' in Hbr3 by (unfold len in Hlo; lia).
    assert (Z.lor (Z.shiftl 1 (Z.log2 o)) (o - 2 ^ Z.log2 o) = o) as -> by (rewrite Z.lor_comm, lor_shiftl_add by lia; lia).
    destruct (read_raw _ _ _ _ l Hbr3 Hl Hlow) as (br4 & -> & Hbr4). cbn [mbind go_bind]. unfold minMatchLen. replace (l - 3 + 3) with l by lia.
    rewrite (proj2 (Z.ltb_ge _ _)), (proj2 (Z.ltb_ge _ _)) by lia. cbn [orb]. rewrite copy_match_ok by lia. cbn [mbind go_bind mret go_ret].
    unfold continue. apply (IH _ _ P2 bits2 tail (z + k1 + k2)%nat); [|exact Hbits3|exact Hts|lia]. replace (len P2) with (avail2 - Z.log2 o); [exact Hbr4|]. rewrite HP2, len_app in HX. lia.
Qed.

(** *** The lengths in front of the stream *)

Lemma pack_lookup n : forall lens i, (length lens <= n)%nat -> (2 * i + 1 < length lens)%nat -> exists a b, lens !! (2 * i)%nat = Some a /\ lens !! (2 * i + 1)%nat = Some b /\ pack_lens lens !! i = Some (a + 16 * b).
Proof.
  induction n as [|n IH]; intros lens i Hn Hi; [lia|]. destruct lens as [|a [|b lens]]; cbn [length] in *; try lia. destruct i as [|i].
  - exists a, b. done.
  - destruct (IH lens i ltac:(lia) ltac:(lia)) as (a' & b' & Ha & Hb & Hp). exists a', b'. replace (2 * S i)%nat with (S (S (2 * i)))%nat by lia. replace (S (S (2 * i)) + 1)%nat with (S (S (2 * i + 1)))%nat by lia. done.
Qed.

Lemma pack_length n : forall lens, length lens = (2 * n)%nat -> length (pack_lens lens) = n.
Proof. induction n as [|n IH]; intros lens Hn; [by destruct lens|]. destruct lens as [|a [|b lens]]; cbn [length] in *; try lia. cbn [pack_lens length]. rewrite IH; lia. Qed.

Lemma unpack_lens lens tail : len lens = 512 -> Forall (fun l => 0 <= l <= 15) lens ->
  go_range (lens_round (pack_lens lens ++ tail)) 0 (Z.to_nat 256) (replicate (Z.to_nat 512) 0) = Ret lens.
Proof.
  intros Hlen Hr. assert (length lens = 512%nat) as Hl by (unfold len in Hlen; lia). pose proof (pack_length 256 lens Hl) as Hpl.
  set (I := fun i (st : list Z) => len st = 512 /\ forall j, (j < Z.to_nat (2 * i))%nat -> st !! j = lens !! j).
  assert (wp (go_range (lens_round (pack_lens lens ++ tail)) 0 (Z.to_nat 256) (replicate (Z.to_nat 512) 0)) (I (0 + Z.of_nat (Z.to_nat 256))) no_err) as Hwp.
  { apply wp_go_range; [split; [by rewrite len_replicate|cbn; lia]|]. intros i st Hi [Hst Hj]. destruct (pack_lookup 512 lens (Z.to_nat i) ltac:(lia) ltac:(lia)) as (a & b & Ha & Hb & Hp).
    assert (index (pack_lens lens ++ tail) i = Ret (a + 16 * b)) as Hidx.
    { unfold index. rewrite (proj2 (Z.ltb_ge _ _)) by lia. by rewrite lookup_app_l, Hp by lia. }
    pose proof (proj1 (Forall_lookup _ _) Hr _ _ Ha) as Ra. pose proof (proj1 (Forall_lookup _ _) Hr _ _ Hb) as Rb. cbn beta in Ra, Rb.
    assert (Z.land (a + 16 * b) 0xf = a) as Eland. { change 0xf with (Z.ones 4). rewrite Z.land_ones by lia. symmetry. apply Z.mod_unique with (q := b); lia. }
    assert (Z.shiftr (a + 16 * b) 4 = b) as Eshift. { rewrite Z.shiftr_div_pow2 by lia. symmetry. apply Z.div_unique with (r := a); lia. }
    unfold lens_round. rewrite Hidx. cbn [mbind go_bind]. rewrite Eland, Eshift, store_ok by lia. cbn [mbind go_bind]. rewrite store_ok by (rewrite len_insert; lia). cbn [wp]. unfold I. rewrite !len_insert. split; [done|].
    intros j Hjlt. destruct (decide (j = Z.to_nat (2 * i + 1))) as [->|Hne1]; [rewrite list_lookup_insert_eq by (rewrite length_insert; unfold len in Hst; lia); rewrite <-Hb; f_equal; lia|].
    rewrite list_lookup_insert_ne by lia. destruct (decide (j = Z.to_nat (2 * i))) as [->|Hne2]; [rewrite list_lookup_insert_eq by (unfold len in Hst; lia); rewrite <-Ha; f_equal; lia|].
    rewrite list_lookup_insert_ne by lia. apply Hj. lia. }
  destruct (wp_no_err_Ret _ _ Hwp) as (st & -> & Hst & Hj). f_equal. apply list_eq. intros j. destruct (decide (j < 512)%nat) as [Hlt|Hge]; [apply Hj; lia|].
  rewrite !lookup_ge_None_2; [done|lia|unfold len in Hst; lia].
Qed.

Lemma expand_length lens ts : forall out, tokens_ok lens out ts -> len out + Z.of_nat (length ts) <= len (foldl expand_token out ts).
Proof.
  induction ts as [|t ts IH]; intros out Hok; cbn [foldl length]; [lia|]. destruct Hok as [Ht Hts]. specialize (IH _ Hts). rewrite (expand_grows lens) in IH by done.
  destruct Ht as [_ Ht]. destruct t; lia.
Qed.

(** C32. Every stream decodes to what it means: for any lengths of codewords that are not
    over-subscribed and any list of literals and matches - matches that overlap what they
    produce, offsets up to 65535, lengths up to 65538 in each of their three forms -
    [Decompress] of the code lengths, the words and the bytes between them gives the
    expansion of the list, whatever follows the stream. *)
Theorem xpress_roundtrip lens ts tail : code_ok lens -> tokens_ok lens [] ts -> len (expand ts) <= maxAlloc ->
  Decompress (compress lens ts ++ tail) (len (expand ts)) = Ret (expand ts).
Proof.
  intros Hc Hts Hmax. pose proof Hc as (Hlen & Hr & Hk). assert (len (pack_lens lens) = 256) as Hp by (unfold len; rewrite (pack_length 256); unfold len in Hlen; lia).
  unfold Decompress, compress. rewrite <-app_assoc. set (stream := layout lens ts 0 _ ++ tail). pose proof (len_nonneg stream). unfold lensBytes. rewrite (proj2 (Z.ltb_ge _ _)) by (rewrite len_app; lia).
  unfold numSymbols. rewrite unpack_lens by done. cbn [mbind go_bind]. rewrite build_table_ok, (proj2 (Z.leb_le _ _)) by done. cbn [mbind go_bind].
  rewrite slice_ok by (rewrite ?len_app; lia). cbn [mbind go_bind]. assert ((pack_lens lens ++ stream).[256, len (pack_lens lens ++ stream)] = stream) as ->.
  { destruct (sub_from (pack_lens lens ++ stream) 256) as [->|]; [|lia]. by apply from_app_r. }
  pose proof (len_nonneg (expand ts)). rewrite make_ok by lia. cbn [mbind go_bind].
  apply (decode_tokens lens ts Hc [] (mkBits 0 0 stream 0) [] (ts ≫= token_bits lens) tail 0 (S (Z.to_nat (len (expand ts))))); [| |exact Hts|].
  - unfold holds. cbn [bitsleft bitbuf data next]. split; [done|]. split; [by vm_compute|]. split; [done|]. split; [lia|done].
  - cbn [app replicate]. by rewrite app_nil_r.
  - pose proof (expand_length lens ts [] Hts) as He. unfold expand in *. change (len []) with 0 in He. lia.
Qed.

(** ** Any input *)

Lemma nibble_range x : 0 <= Z.land x 0xf <= 15.
Proof. pose proof (Z.mod_pos_bound x 16 ltac:(lia)) as Hm. change (Z.land x 0xf) with (Z.land x (Z.ones 4)). rewrite Z.land_ones by lia. change (2 ^ 4) with 16. lia. Qed.

(** What the reader keeps, whatever it reads. *)
Definition reader_ok (br : bitReader) : Prop := 0 <= bitbuf br < 2 ^ 32 /\ 0 <= bitsleft br <= 32 /\ 0 <= next br <= len (data br) /\ bytes_ok (data br).

Lemma data_byte br i : reader_ok br -> 0 <= i < len (data br) -> exists x, index (data br) i = Ret x /\ 0 <= x < 256.
Proof.
  intros (_ & _ & _ & Hd) Hi. destruct (index_ok (data br) i Hi) as (x & Hx & ->). exists x. split; [done|]. by apply (proj1 (Forall_lookup _ _) Hd _ _ Hx).
Qed.

Lemma ensure_safe br n : reader_ok br -> 0 <= n <= 16 -> exists br', ensure br n = Ret br' /\ reader_ok br' /\ n <= bitsleft br'.
Proof.
  intros Hbr Hn. pose proof Hbr as (Hb & Hl & Hx & Hd). unfold ensure. destruct (Z.leb_spec n (bitsleft br)); [by exists br|].
  destruct (Z.ltb_spec (len (data br) - next br) 2); [eexists; split; [done|]; split; [split; [done|split; [cbn; lia|done]]|cbn; lia]|].
  destruct (data_byte br (next br) Hbr ltac:(lia)) as (lo & -> & Hlo). destruct (data_byte br (next br + 1) Hbr ltac:(lia)) as (hi & -> & Hhi). cbn [mbind go_bind].
  eexists. split; [done|]. split; [|cbn; lia]. unfold reader_ok. cbn [bitbuf bitsleft next data]. split; [|split; [lia|split; [lia|done]]].
  apply lor_range; [lia|lia|]. apply Z.mod_pos_bound. lia.
Qed.

Lemma peek_range br n : reader_ok br -> 0 <= n <= 16 -> 0 <= peek br n < 2 ^ n.
Proof.
  intros (Hb & _) Hn. unfold peek. destruct (Z.eqb_spec n 0) as [->|]; [cbn; lia|]. rewrite wrap_u_id, Z.shiftr_div_pow2 by lia. assert (0 < 2 ^ (32 - n)) by (apply Z.pow_pos_nonneg; lia).
  split; [apply Z.div_pos; lia|]. apply Z.div_lt_upper_bound; [lia|]. rewrite <-Z.pow_add_r by lia. replace (32 - n + n) with 32 by lia. lia.
Qed.

Lemma remove_safe br n : reader_ok br -> 0 <= n <= bitsleft br -> reader_ok (remove br n).
Proof. intros (Hb & Hl & Hx & Hd) Hn. unfold reader_ok, remove. cbn [bitbuf bitsleft next data]. rewrite (wrap_u_id 64) by lia. split; [apply Z.mod_pos_bound; lia|]. split; [lia|done]. Qed.

Lemma sym_safe br table : reader_ok br -> len table = 2 ^ 15 -> exists o br', decodeSym br table = Ret (o, br') /\ reader_ok br'.
Proof.
  intros Hbr Ht. unfold decodeSym, maxCodewordLen. destruct (ensure_safe br 15 Hbr ltac:(lia)) as (br1 & -> & Hbr1 & Hl). cbn [mbind go_bind].
  pose proof (peek_range br1 15 Hbr1 ltac:(lia)). destruct (index_ok table (peek br1 15) ltac:(lia)) as (e & _ & ->). cbn [mbind go_bind].
  destruct (_ =? 0); [by eexists _, _|]. eexists _, _. split; [done|]. apply remove_safe; [done|]. change 0xf with (Z.ones 4). rewrite Z.land_ones by lia. pose proof (Z.mod_pos_bound e (2 ^ 4) ltac:(lia)). lia.
Qed.

Lemma length_safe s br : reader_ok br -> exists l br', match_length s br = Ret (l, br') /\ reader_ok br' /\ 0 <= l.
Proof.
  intros Hbr. pose proof Hbr as (Hb & Hl & Hx & Hd). unfold match_length. assert (0 <= Z.land s 0xf) as Hs by (apply Z.land_nonneg; right; lia).
  destruct (Z.eqb_spec (Z.land s 0xf) 0xf) as [->|]; [|by eexists _, _]. unfold readByte. destruct (Z.leb_spec (len (data br)) (next br)); [by eexists _, _|].
  destruct (data_byte br (next br) Hbr ltac:(lia)) as (x & -> & Hx2). cbn [mbind go_bind mret go_ret].
  assert (reader_ok (mkBits (bitbuf br) (bitsleft br) (data br) (next br + 1))) as Hbr1 by (split; [done|split; [done|split; [cbn; lia|done]]]).
  destruct (_ =? _); [|eexists _, _; split; [done|]; split; [done|lia]]. unfold readU16. cbn [data next]. destruct (Z.ltb_spec (len (data br) - (next br + 1)) 2); [by eexists _, _|].
  destruct (data_byte _ (next br + 1) Hbr1 ltac:(cbn; lia)) as (lo & Elo & Hlo). destruct (data_byte _ (next br + 1 + 1) Hbr1 ltac:(cbn; lia)) as (hi & Ehi & Hhi). cbn [data] in Elo, Ehi. rewrite Elo. cbn [mbind go_bind]. rewrite Ehi.
  eexists _, _. split; [done|]. split; [split; [done|split; [done|split; [cbn; lia|done]]]|]. apply Z.lor_nonneg. split; [lia|]. apply Z.shiftl_nonneg. lia.
Qed.

Lemma repeat_back_bytes n o out : bytes_ok out -> bytes_ok (repeat_back n o out).
Proof.
  revert out. induction n as [|n IH]; intros out Ho; [done|]. cbn [repeat_back]. apply IH, Forall_app. split; [done|]. constructor; [|constructor].
  destruct (out !! Z.to_nat (len out - o)) as [x|] eqn:E; cbn; [by apply (proj1 (Forall_lookup _ _) Ho _ _ E)|unfold is_byte; lia].
Qed.

(** C36. On any input, however damaged, [Decompress] ends, and either reports corrupt data or
    gives exactly the number of bytes that was asked for: no access is out of range, a match never
    reaches in front of the output or behind its end. *)
Theorem xpress_safe input outSize : bytes_ok input -> 0 <= outSize <= maxAlloc ->
  wp (Decompress input outSize) (fun out => len out = outSize /\ bytes_ok out) (fun e => e = ErrCorrupt).
Proof.
  intros Hin Hsize. unfold Decompress, lensBytes, numSymbols. destruct (Z.ltb_spec (len input) 256); [done|]. apply wp_bind.
  eapply (wp_mono _ (fun lens => len lens = 512) _ no_err); [|intros lens Hlens|done].
  { apply (wp_go_range (fun _ lens => len lens = 512)); [by rewrite len_replicate|]. intros i lens Hi Hlens. unfold lens_round. destruct (index_ok input i ltac:(lia)) as (b & _ & ->). cbn [mbind go_bind].
    rewrite store_ok by lia. cbn [mbind go_bind]. rewrite store_ok by (rewrite len_insert; lia). cbn [wp]. by rewrite !len_insert. }
  rewrite build_table_ok by done. cbn [mbind go_bind]. destruct (Z.leb_spec (len (canonical lens)) (2 ^ 15)); [|done]. pose proof (len_nonneg (canonical lens)).
  assert (len (padded (canonical lens)) = 2 ^ 15) as Htab by (unfold padded; rewrite len_app, len_replicate; lia). set (table := padded (canonical lens)) in *. clearbody table.
  rewrite slice_ok, make_ok by lia. cbn [mbind go_bind]. set (src := input.[256, len input]). assert (bytes_ok src) as Hsrc by (unfold src, sub; by apply Forall_take, Forall_drop).
  apply (wp_for (fun '(br, out) => reader_ok br /\ len out <= outSize /\ bytes_ok out) (fun '(br, out) => Z.to_nat (outSize - len out))).
  - intros [br out] (Hbr & Hout & Hbytes). unfold decode_round. destruct (Z.ltb_spec (len out) outSize); [|cbn; split; [lia|done]].
    destruct (sym_safe br table Hbr Htab) as ([s|] & br1 & -> & Hbr1); cbn [mbind go_bind]; [|done].
    destruct (Z.ltb_spec s numChars); [cbn [wp mret go_ret]; rewrite len_app; change (len [u8 s]) with 1; split; [split; [done|split; [lia|]]|lia]; apply Forall_app; split; [done|]; repeat constructor; apply Z.mod_pos_bound; lia|].
    set (k := Z.land (Z.shiftr s 4) 0xf). assert (0 <= k <= 15) as Hk by apply nibble_range. clearbody k.
    destruct (ensure_safe br1 16 Hbr1 ltac:(lia)) as (br2 & -> & Hbr2 & Hl2). cbn [mbind go_bind]. unfold pop. pose proof (peek_range br2 k Hbr2 ltac:(lia)) as Hlow.
    pose proof (remove_safe br2 k Hbr2 ltac:(lia)) as Hbr3. destruct (length_safe s _ Hbr3) as (l & br4 & -> & Hbr4 & Hl). cbn [mbind go_bind]. unfold minMatchLen.
    rewrite Z.lor_comm, lor_shiftl_add by lia. assert (0 < 2 ^ k) by (apply Z.pow_pos_nonneg; lia).
    destruct (Z.ltb_spec (len out) (peek br2 k + 1 * 2 ^ k)); cbn [orb]; [done|]. destruct (Z.ltb_spec outSize (len out + (l + 3))); cbn [orb]; [done|].
    rewrite copy_match_ok by lia. cbn [mbind go_bind mret go_ret wp]. rewrite repeat_back_len. split; [split; [done|split; [lia|by apply repeat_back_bytes]]|lia].
  - split; [|split; [rewrite (@len_nil Z); lia|constructor]]. pose proof (len_nonneg src). unfold reader_ok. cbn [bitbuf bitsleft next data]. split; [lia|]. split; [lia|]. split; [lia|done].
  - rewrite (@len_nil Z). lia.
Qed.

(** ** Witnesses *)

Definition sample_lens : list Z := <[97%nat := 1]> (<[271%nat := 2]> (replicate 512 0)).

Lemma sample_code : code_ok sample_lens.
Proof.
  split; [reflexivity|]. split; [|by vm_compute]. unfold sample_lens. apply Forall_insert; [apply Forall_insert; [apply Forall_replicate|]|]; lia.
Qed.

Lemma sample_tokens : tokens_ok sample_lens [] [Lit 97; Match 300 1].
Proof.
  assert (codelen sample_lens 97 = 1) as H1 by reflexivity. assert (codelen sample_lens 271 = 2) as H2 by reflexivity.
  split; [split; [change (token_sym (Lit 97)) with 97; rewrite H1; lia|unfold is_byte; lia]|]. split; [|exact I].
  split; [change (token_sym (Match 300 1)) with 271; rewrite H2; lia|]. change (len (expand_token [] (Lit 97))) with 1. lia.
Qed.

Lemma xpress_roundtrip_witness : Decompress (compress sample_lens [Lit 97; Match 300 1] ++ [9; 9]) 301 = Ret (replicate 301 97).
Proof.
  assert (expand [Lit 97; Match 300 1] = replicate 301 97) as He by (vm_compute; reflexivity).
  pose proof (xpress_roundtrip sample_lens [Lit 97; Match 300 1] [9; 9] sample_code) as Hr. rewrite He, len_replicate in Hr. change (Z.of_nat 301) with 301 in Hr. apply Hr; [exact sample_tokens|unfold maxAlloc; lia].
Defined.

Lemma xpress_safe_witness : wp (Decompress (replicate 300 17) 5) (fun out => len out = 5 /\ bytes_ok out) (fun e => e = ErrCorrupt).
Proof. apply (xpress_safe (replicate 300 17) 5); [apply Forall_replicate; unfold is_byte; lia|unfold maxAlloc; lia]. Defined.
