(* ===== verification/Bitmap.v ===== *)
(** * Bitmap: diskkit/util/bitmap/bitmap.go
    The allocation bitmaps of the file systems. The abstract view of a bitmap is
    the predicate [bit] on bit numbers; [Set], [Clear] and [IsSet] are refined to
    it, [FirstFree] and [FirstSet] find the least bit of their kind, and
    [FreeList] returns exactly the maximal runs of free bits, in order. *)
From stdpp Require Import sorting.
From S2P Require Import Prelude Bytes.

Record Bitmap := mkBitmap { bits : list Z }.
Record Contiguous := mkContiguous { Position : Z; Count : Z }.

(** The contents are copied, so a bitmap never aliases its argument. *)
Definition FromBytes (b : list Z) : Bitmap := mkBitmap b.
Definition ToBytes (bm : Bitmap) : list Z := bits bm.

Definition NewBytes (nbytes : Z) : go Bitmap :=
  let nbytes := if nbytes <? 0 then 0 else nbytes in
  bs ← make 0 1 nbytes;
  mret (mkBitmap bs).

Definition NewBits (nBits : Z) : go Bitmap :=
  let nBits := if nBits <? 0 then 0 else nBits in
  nBytes ← div64 (i64 (nBits + 7)) 8;
  NewBytes nBytes.

Definition findBitForIndex (index : Z) : Z * Z := (Z.quot index 8, u8 (Z.rem index 8)).

Definition IsSet (bm : Bitmap) (location : Z) : go bool :=
  if location <? 0 then Err (Errorf "location %d is negative")
  else
    let '(byteNumber, bitNumber) := findBitForIndex location in
    if len (bits bm) <? byteNumber then Err (Errorf "location %d is not in %d size bitmap")
    else
      let mask := u8 (Z.shiftl 1 bitNumber) in
      b ← index (bits bm) byteNumber;
      mret (Z.land b mask =? mask).

Definition Clear (bm : Bitmap) (location : Z) : go Bitmap :=
  if location <? 0 then Err (Errorf "location %d is negative")
  else
    let '(byteNumber, bitNumber) := findBitForIndex location in
    if len (bits bm) <=? byteNumber then Err (Errorf "location %d is not in %d size bitmap")
    else
      let mask := u8 (Z.lnot (u8 (Z.shiftl 1 bitNumber))) in
      b ← index (bits bm) byteNumber;
      bs ← store (bits bm) byteNumber (Z.land b mask);
      mret (mkBitmap bs).

Definition Set_ (bm : Bitmap) (location : Z) : go Bitmap :=
  if location <? 0 then Err (Errorf "location %d is negative")
  else
    let '(byteNumber, bitNumber) := findBitForIndex location in
    if len (bits bm) <=? byteNumber then Err (Errorf "location %d is not in %d size bitmap")
    else
      let mask := u8 (Z.shiftl 1 bitNumber) in
      b ← index (bits bm) byteNumber;
      bs ← store (bits bm) byteNumber (Z.lor b mask);
      mret (mkBitmap bs).

(** The loop over the bits of one byte, from bit [j], for [n] rounds; [free] says
    which value is looked for. *)
Fixpoint find_in_byte (free : bool) (b j : Z) (n : nat) : option Z :=
  match n with
  | O => None
  | S n' =>
      if eqb (Z.land b (u8 (Z.shiftl 1 j)) =? 0) free then Some j
      else find_in_byte free b (u8 (j + 1)) n'
  end.

(** The loop over the bytes [bs], of numbers [i] and up: [skip] is the byte value
    that holds no bit of the kind looked for. *)
Fixpoint find_in_bytes (free : bool) (skip i : Z) (bs : list Z) : Z :=
  match bs with
  | [] => -1
  | b :: bs' =>
      if b =? skip then find_in_bytes free skip (i64 (i + 1)) bs'
      else
        match find_in_byte free b 0 8 with
        | Some j => i64 (i * 8 + j)
        | None => find_in_bytes free skip (i64 (i + 1)) bs'
        end
  end.

Definition FirstFree (bm : Bitmap) (start : Z) : go Z :=
  let start := if start <? 0 then 0 else start in
  let totalBits := i64 (len (bits bm) * 8) in
  if totalBits <=? start then mret (-1)
  else
    let byteIdx := Z.quot start 8 in
    let bitStart := u8 (Z.rem start 8) in
    b ← index (bits bm) byteIdx;
    let first := if b =? 0xff then None
                 else find_in_byte true b bitStart (Z.to_nat (8 - bitStart)) in
    match first with
    | Some j => mret (i64 (byteIdx * 8 + j))
    | None => mret (find_in_bytes true 0xff (i64 (byteIdx + 1)) (from (bits bm) (byteIdx + 1)))
    end.

Definition FirstSet (bm : Bitmap) : Z := find_in_bytes false 0 0 (bits bm).

(** The variables of [FreeList]'s loops. *)
Record scan := mkScan { s_list : list Contiguous; s_location : Z; s_count : Z }.

Definition scan_bit (i b : Z) (s : scan) (j : Z) : scan :=
  let mask := u8 (Z.shiftl 1 j) in
  if negb (Z.land b mask =? mask) then
    let location := if s_location s =? -1 then i64 (8 * i + j) else s_location s in
    mkScan (s_list s) location (i64 (s_count s + 1))
  else if negb (s_location s =? -1) then
    mkScan (s_list s ++ [mkContiguous (s_location s) (s_count s)]) (-1) 0
  else s.

Definition scan_byte (i b : Z) (s : scan) : scan := foldl (scan_bit i b) s (seqZ 0 8).

Definition FreeList (bm : Bitmap) : list Contiguous :=
  let s := range_loop scan_byte 0 (bits bm) (mkScan [] (-1) 0) in
  if negb (s_location s =? -1)
  then s_list s ++ [mkContiguous (s_location s) (s_count s)]
  else s_list s.

(** ** The abstract view *)

Definition bit (bm : Bitmap) (k : Z) : bool := Z.testbit (byte_at (bits bm) (k / 8)) (k mod 8).
Definition nbits (bm : Bitmap) : Z := 8 * len (bits bm).

(** A bitmap that fits in memory. *)
Definition wf (bm : Bitmap) : Prop := bytes_ok (bits bm) /\ len (bits bm) <= maxAlloc.

(** [c] is a run of free bits that no free bit extends. *)
Definition maximal_run (bm : Bitmap) (c : Contiguous) : Prop :=
  0 <= Position c /\ 0 < Count c /\ Position c + Count c <= nbits bm /\
  (forall k, Position c <= k < Position c + Count c -> bit bm k = false) /\
  (Position c = 0 \/ bit bm (Position c - 1) = true) /\
  (Position c + Count c = nbits bm \/ bit bm (Position c + Count c) = true).

(** ** Lemmas *)

Lemma bm_mask j : 0 <= j < 8 -> u8 (Z.shiftl 1 j) = 2 ^ j.
Proof. intros. rewrite shiftl_1 by lia. apply wrap_u_id. pose proof (Z.pow_lt_mono_r 2 j 8). lia. Qed.

Lemma bm_test b j : 0 <= j -> (Z.land b (2 ^ j) =? 2 ^ j) = Z.testbit b j.
Proof.
  intros Hj. pose proof (land_bit b j Hj) as H. destruct (Z.testbit b j) eqn:E; cbn in H.
  - apply Z.eqb_eq. apply Z.bits_inj'. intros i Hi. rewrite Z.land_spec, Z.pow2_bits_eqb by done.
    destruct (Z.eqb_spec j i) as [->|]; [by rewrite E|by rewrite andb_false_r].
  - apply Z.eqb_eq in H. rewrite H. apply Z.eqb_neq. lia.
Qed.

Lemma findBit_ok k : 0 <= k -> findBitForIndex k = (k / 8, k mod 8).
Proof.
  intros. unfold findBitForIndex. rewrite Z.quot_div_nonneg, Z.rem_mod_nonneg by lia.
  rewrite wrap_u_id; [done|]. pose proof (Z.mod_pos_bound k 8). lia.
Qed.

Lemma bm_index k n : 0 <= k -> k < 8 * n <-> k / 8 < n.
Proof. intros. split; intros; [apply Z.div_lt_upper_bound; lia|]. pose proof (Z.div_mod k 8). pose proof (Z.mod_pos_bound k 8). lia. Qed.

Lemma bm_split k : k = 8 * (k / 8) + k mod 8 /\ 0 <= k mod 8 < 8.
Proof. pose proof (Z.div_mod k 8). pose proof (Z.mod_pos_bound k 8). lia. Qed.

Lemma bm_join i j : 0 <= j < 8 -> (8 * i + j) / 8 = i /\ (8 * i + j) mod 8 = j.
Proof. intros. split; symmetry; [apply (Z.div_unique _ _ _ j)|apply (Z.mod_unique _ _ i)]; lia. Qed.

(** Writing the byte of bit [k]. *)
Lemma bm_write bm k x v : wf bm -> 0 <= k < nbits bm -> is_byte x ->
  (forall j, 0 <= j < 8 -> Z.testbit x j = if j =? k mod 8 then v else Z.testbit (byte_at (bits bm) (k / 8)) j) ->
  let bm' := mkBitmap (<[Z.to_nat (k / 8) := x]> (bits bm)) in
  wf bm' /\ nbits bm' = nbits bm /\
  forall k', 0 <= k' -> bit bm' k' = if k' =? k then v else bit bm k'.
Proof.
  intros [Hb Hl] Hk Hx Hv bm'. assert (0 <= k / 8 < len (bits bm)) as Hi.
  { split; [apply Z.div_pos; lia|]. apply bm_index; unfold nbits in Hk; lia. }
  unfold bm', wf, nbits, bit. cbn [bits]. rewrite len_insert. split_and!; try done.
  - by apply Forall_insert.
  - intros k' Hk'. rewrite byte_at_insert by (try apply Z.div_pos; lia).
    pose proof (bm_split k). pose proof (bm_split k').
    destruct (Z.eqb_spec (k' / 8) (k / 8)) as [E|E].
    + rewrite Hv by lia. destruct (Z.eqb_spec (k' mod 8) (k mod 8)), (Z.eqb_spec k' k); try lia; [done|].
      by rewrite E.
    + destruct (Z.eqb_spec k' k); [subst; lia|done].
Qed.

Lemma bm_clear_byte b j i : is_byte b -> 0 <= j < 8 -> 0 <= i < 8 ->
  Z.testbit (Z.land b (u8 (Z.lnot (2 ^ j)))) i = if i =? j then false else Z.testbit b i.
Proof.
  intros Hb Hj Hi. rewrite Z.land_spec, testbit_wrap_u, Z.lnot_spec, Z.pow2_bits_eqb by lia.
  rewrite (proj2 (Z.ltb_lt i 8)) by lia. rewrite (Z.eqb_sym j i).
  destruct (i =? j); cbn; [apply andb_false_r|apply andb_true_r].
Qed.

Lemma bm_set_byte b j i : 0 <= j < 8 -> 0 <= i < 8 ->
  Z.testbit (Z.lor b (2 ^ j)) i = if i =? j then true else Z.testbit b i.
Proof.
  intros Hj Hi. rewrite Z.lor_spec, Z.pow2_bits_eqb, (Z.eqb_sym j i) by lia.
  destruct (i =? j); [apply orb_true_r|apply orb_false_r].
Qed.

Lemma bm_byte_range bm k : wf bm -> 0 <= byte_at (bits bm) k < 2 ^ 8.
Proof. intros [Hb _]. pose proof (byte_at_range (bits bm) k Hb). unfold is_byte in *. lia. Qed.

(** Updates: [Set] and [Clear] of a bit inside the bitmap change that bit and
    no other, and [IsSet] then reads it back; outside the bitmap both return an
    error and there is no panic. *)
Theorem bitmap_update_refines bm k (v : bool) : wf bm ->
  let update := if v then Set_ else Clear in
  (0 <= k < nbits bm -> exists bm',
     update bm k = Ret bm' /\ wf bm' /\ nbits bm' = nbits bm /\ IsSet bm' k = Ret v /\
     forall k', 0 <= k' -> bit bm' k' = if k' =? k then v else bit bm k') /\
  (k < 0 \/ nbits bm <= k -> exists msg, update bm k = Err (Errorf msg)).
Proof.
  intros Hwf update. split.
  - intros Hk. destruct (bm_split k) as [_ Hj]. assert (0 <= k / 8 < len (bits bm)) as Hi.
    { split; [apply Z.div_pos; lia|]. apply bm_index; unfold nbits in Hk; lia. }
    set (b := byte_at (bits bm) (k / 8)). set (j := k mod 8) in *.
    set (x := if v then Z.lor b (2 ^ j) else Z.land b (u8 (Z.lnot (2 ^ j)))).
    assert (0 <= b < 2 ^ 8) as Hb by by apply bm_byte_range.
    assert (0 <= 2 ^ j < 2 ^ 8) as Hm by (pose proof (Z.pow_lt_mono_r 2 j 8); lia).
    destruct (bm_write bm k x v) as (Hwf' & Hn & Hbit); [done..| | |].
    { unfold x. destruct v; [apply (lor_range 8)|apply (land_range_l 8)]; lia. }
    { intros i Hi'. unfold x. destruct v; [by apply bm_set_byte|by apply bm_clear_byte]. }
    exists (mkBitmap (<[Z.to_nat (k / 8) := x]> (bits bm))).
    assert (update bm k = Ret (mkBitmap (<[Z.to_nat (k / 8) := x]> (bits bm)))) as ->.
    { unfold update, x. destruct v; unfold Set_, Clear; (destruct_if; [lia|]);
        rewrite findBit_ok by lia; cbn iota; (destruct_if; [lia|]);
        rewrite index_byte_at by lia; cbn [mbind go_bind]; rewrite bm_mask by lia; by rewrite store_ok by lia. }
    split_and!; try done. unfold IsSet. destruct_if; [lia|]. rewrite findBit_ok by lia. cbn iota.
    cbn [bits]. rewrite len_insert. destruct_if; [lia|]. rewrite index_byte_at by (rewrite len_insert; lia).
    cbn [mbind go_bind mret go_ret]. rewrite bm_mask, bm_test by lia. f_equal.
    specialize (Hbit k ltac:(lia)). rewrite Z.eqb_refl in Hbit. done.
  - intros Hk. unfold update. destruct v; unfold Set_, Clear; (destruct_if; [by eexists|]);
      rewrite findBit_ok by lia; cbn iota; unfold nbits in Hk;
      (destruct_if; [by eexists|]); pose proof (bm_index k (len (bits bm))); lia.
Qed.

(** [IsSet] reads the bit inside the bitmap and returns an error for a
    negative location and from eight bits past the end on; the eight locations just
    past the end pass its bounds check ([>] where [Set] and [Clear] have [>=]) and
    panic. *)
Theorem bitmap_is_set bm k : wf bm ->
  (0 <= k < nbits bm -> IsSet bm k = Ret (bit bm k)) /\
  (nbits bm <= k < nbits bm + 8 -> IsSet bm k = Panic IndexOutOfRange) /\
  (k < 0 \/ nbits bm + 8 <= k -> exists msg, IsSet bm k = Err (Errorf msg)).
Proof.
  intros [Hb Hl]. unfold nbits. pose proof (len_nonneg (bits bm)). pose proof (bm_split k).
  split_and!; intros Hk; unfold IsSet; (destruct_if; [lia || by eexists|]);
    try (rewrite findBit_ok by lia; cbn iota; destruct_if; [lia || by eexists|]).
  - assert (0 <= k / 8 < len (bits bm)) by lia.
    rewrite index_byte_at by lia. cbn. by rewrite bm_mask, bm_test by lia.
  - replace (k / 8) with (len (bits bm)) by lia.
    unfold index. destruct_if; [lia|]. rewrite lookup_ge_None_2 by (unfold len; lia). done.
  - lia.
Qed.

(** *** Searches *)

(** The least bit of value [v] from [lo] up, [-1] when there is none. *)
Definition least_bit (bm : Bitmap) (v : bool) (lo r : Z) : Prop :=
  (r = -1 /\ forall k, lo <= k < nbits bm -> bit bm k = negb v) \/
  (lo <= r < nbits bm /\ bit bm r = v /\ forall k, lo <= k < r -> bit bm k = negb v).

Lemma find_in_byte_spec free b n j : 0 <= j -> j + Z.of_nat n = 8 ->
  match find_in_byte free b j n with
  | Some r => j <= r < 8 /\ Z.testbit b r = negb free /\
              forall i, j <= i < r -> Z.testbit b i = free
  | None => forall i, j <= i < 8 -> Z.testbit b i = free
  end.
Proof.
  revert j. induction n as [|n IH]; intros j Hj Hn; cbn [find_in_byte]; [intros; lia|].
  rewrite bm_mask, land_bit by lia. destruct (Z.testbit b j) eqn:Hb, free; cbn [negb eqb];
    try (split; [lia|]; split; [done|intros; lia]).
  all: rewrite wrap_u_id by lia; specialize (IH (j + 1) ltac:(lia) ltac:(lia));
    destruct (find_in_byte _ b (j + 1) n);
    [destruct IH as (? & ? & IH); split_and!; [lia..|done|]|];
    intros i Hi; (destruct (Z.eq_dec i j) as [->|]; [done|apply IH; lia]).
Qed.

(** A byte equal to [skip] holds no bit of the kind looked for. *)
Lemma skip_byte (free : bool) b i : b = (if free then 0xff else 0) -> 0 <= i < 8 -> Z.testbit b i = free.
Proof.
  intros -> Hi. destruct free; [|apply Z.bits_0]. change 0xff with (Z.ones 8). apply Z.ones_spec_low. lia.
Qed.

(** Bit [k] of a byte that was searched. *)
Lemma bit_of_byte bm i k b : 8 * i <= k < 8 * i + 8 -> byte_at (bits bm) i = b ->
  bit bm k = Z.testbit b (k - 8 * i).
Proof.
  intros Hk <-. unfold bit. replace k with (8 * i + (k - 8 * i)) at 1 2 by lia.
  by destruct (bm_join i (k - 8 * i)) as [-> ->]; [lia|].
Qed.

Lemma find_in_bytes_spec bm free bs i lo : wf bm -> bs = from (bits bm) i -> 0 <= i <= len (bits bm) ->
  lo <= 8 * i -> (forall k, lo <= k < 8 * i -> bit bm k = free) ->
  least_bit bm (negb free) lo (find_in_bytes free (if free then 0xff else 0) i bs).
Proof.
  intros [Hwb Hwl]. assert (maxAlloc = 2 ^ 48) by done. revert i. induction bs as [|b bs IH]; intros i Hbs Hi Hlo Hbelow.
  - left. split; [done|]. intros k Hk. rewrite negb_involutive. apply Hbelow.
    assert (len (from (bits bm) i) = 0) as Hz by (by rewrite <-Hbs). rewrite len_from in Hz by lia.
    unfold nbits in Hk. lia.
  - cbn [find_in_bytes]. assert (len (b :: bs) = len (bits bm) - i) as Hlen by (rewrite Hbs; apply len_from; lia).
    rewrite len_cons in Hlen. pose proof (len_nonneg bs).
    assert (byte_at (bits bm) i = b) as Hb.
    { replace i with (i + 0) by lia. rewrite <-byte_at_from, <-Hbs by lia. done. }
    assert (bs = from (bits bm) (i + 1)) as Hbs' by (rewrite <-from_from, <-Hbs by lia; done).
    rewrite i64_id by lia.
    assert (forall r, (forall k, 0 <= k < 8 -> k < r - 8 * i -> Z.testbit b k = free) -> forall k, lo <= k < r -> k < 8 * i + 8 -> bit bm k = free) as Hbyte.
    { intros r Hr k Hk Hk8. destruct (Z.ltb_spec k (8 * i)); [apply Hbelow; lia|].
      rewrite (bit_of_byte bm i k b) by (done || lia). apply Hr; lia. }
    destruct_if.
    + apply IH; try done; try lia. intros k Hk. apply (Hbyte (8 * (i + 1))); [|lia..].
      intros. by apply skip_byte.
    + pose proof (find_in_byte_spec free b 8 0 ltac:(lia) ltac:(lia)) as Hf.
      destruct (find_in_byte free b 0 8) as [r|].
      * destruct Hf as (Hr & Hv & Hf). right. rewrite i64_id by lia.
        split_and!; [lia|unfold nbits; lia| |].
        { rewrite (bit_of_byte bm i _ b) by (done || lia). by replace (i * 8 + r - 8 * i) with r by lia. }
        rewrite negb_involutive. intros k Hk. apply (Hbyte (i * 8 + r)); [|lia..]. intros. apply Hf. lia.
      * apply IH; try done; try lia. intros k Hk. apply (Hbyte (8 * (i + 1))); [|lia..]. intros. apply Hf. lia.
Qed.

(** Searches: [FirstFree] returns the least free bit at or after its start and
    [FirstSet] the least set bit, or [-1] when there is none. *)
Theorem bitmap_search_least bm start : wf bm ->
  (exists r, FirstFree bm start = Ret r /\ least_bit bm false (Z.max 0 start) r) /\
  least_bit bm true 0 (FirstSet bm).
Proof.
  intros Hwf. split.
  2:{ apply (find_in_bytes_spec bm false (bits bm) 0 0); try done; try lia. split; [lia|apply len_nonneg]. }
  pose proof Hwf as [Hb Hl]. assert (maxAlloc = 2 ^ 48) by done. pose proof (len_nonneg (bits bm)). unfold FirstFree.
  set (s := if start <? 0 then 0 else start). assert (s = Z.max 0 start) as <- by (unfold s; destruct_if; lia).
  assert (0 <= s) by (unfold s; destruct_if; lia). cbn zeta. rewrite i64_id by lia.
  destruct_if; [eexists; split; [done|left; split; [done|]]; unfold nbits; lia|].
  pose proof (findBit_ok s ltac:(done)) as E. unfold findBitForIndex in E. injection E as -> ->.
  pose proof (bm_split s) as [Hs Hj]. assert (0 <= s / 8 < len (bits bm)) as Hi by lia.
  rewrite index_byte_at by done. cbn [mbind go_bind]. set (b := byte_at (bits bm) (s / 8)).
  assert (forall r, s <= r -> (forall i, s mod 8 <= i < r - 8 * (s / 8) -> Z.testbit b i = true) ->
    forall k, s <= k < r -> k < 8 * (s / 8) + 8 -> bit bm k = true) as Hbyte.
  { intros r _ Hr k Hk Hk8. rewrite (bit_of_byte bm (s / 8) k b) by (done || lia). apply Hr; lia. }
  assert (match (if b =? 0xff then None else find_in_byte true b (s mod 8) (Z.to_nat (8 - s mod 8))) with
          | Some r => s mod 8 <= r < 8 /\ Z.testbit b r = false /\ forall i, s mod 8 <= i < r -> Z.testbit b i = true
          | None => forall i, s mod 8 <= i < 8 -> Z.testbit b i = true end) as Hf.
  { destruct_if; [intros; apply (skip_byte true); done || lia|].
    apply (find_in_byte_spec true b); lia. }
  destruct (if b =? 0xff then None else _) as [r|]; (eexists; split; [done|]).
  - destruct Hf as (Hr & Hv & Hf). right. rewrite i64_id by lia. split_and!; [lia|unfold nbits; lia| |].
    + rewrite (bit_of_byte bm (s / 8) _ b) by (done || lia). by replace (_ - _) with r by lia.
    + intros k Hk. apply (Hbyte (s / 8 * 8 + r)); [lia| |lia..]. intros. apply Hf. lia.
  - rewrite i64_id by lia. apply (find_in_bytes_spec bm true _ (s / 8 + 1) s Hwf eq_refl); [lia..|].
    intros k Hk. apply (Hbyte (8 * (s / 8 + 1))); [lia| |lia..]. intros. apply Hf. lia.
Qed.

(** *** The free list *)

(** A run that ended before bit [k]. *)
Definition closed_run (bm : Bitmap) (k : Z) (c : Contiguous) : Prop :=
  0 <= Position c /\ 0 < Count c /\ Position c + Count c < k /\
  (forall i, Position c <= i < Position c + Count c -> bit bm i = false) /\
  (Position c = 0 \/ bit bm (Position c - 1) = true) /\ bit bm (Position c + Count c) = true.

(** The run the scan is in, after bit [k - 1]. *)
Definition open_run (bm : Bitmap) (k loc count : Z) : Prop :=
  (loc = -1 /\ count = 0 /\ (k = 0 \/ bit bm (k - 1) = true)) \/
  (0 <= loc /\ 0 < count /\ loc + count = k /\ (forall i, loc <= i < k -> bit bm i = false) /\
   (loc = 0 \/ bit bm (loc - 1) = true)).

Definition before (c d : Contiguous) : Prop := Position c < Position d.

Definition scan_inv (bm : Bitmap) (k : Z) (s : scan) : Prop :=
  open_run bm k (s_location s) (s_count s) /\
  (forall c, c ∈ s_list s <-> closed_run bm k c) /\ StronglySorted before (s_list s).

(** One more closed run at the end of the list. *)
Lemma sorted_snoc l c : StronglySorted before l -> (forall d, d ∈ l -> before d c) ->
  StronglySorted before (l ++ [c]).
Proof.
  intros Hl Hc. apply StronglySorted_app. split_and!; [|done|by repeat constructor].
  intros d c' Hd ->%list_elem_of_singleton. by apply Hc.
Qed.

(** Runs that start at the same bit, or end at the same bit, are the same. *)
Lemma run_left_unique bm k p loc : 0 <= p < k -> 0 <= loc < k ->
  (forall i, p <= i < k -> bit bm i = false) -> (forall i, loc <= i < k -> bit bm i = false) ->
  (p = 0 \/ bit bm (p - 1) = true) -> (loc = 0 \/ bit bm (loc - 1) = true) -> p = loc.
Proof.
  intros Hp Hl Hpf Hlf Hpb Hlb. destruct (Z.lt_trichotomy p loc) as [Hlt|[->|Hgt]]; [|done|].
  - destruct Hlb as [|Hlb]; [lia|]. by rewrite Hpf in Hlb by lia.
  - destruct Hpb as [|Hpb]; [lia|]. by rewrite Hlf in Hpb by lia.
Qed.

(** The runs closed after bit [k]. *)
Lemma closed_run_free bm k c : bit bm k = false -> closed_run bm (k + 1) c <-> closed_run bm k c.
Proof.
  intros Hk. unfold closed_run. split; intros (? & ? & ? & ? & ? & He); split_and!; try done; try lia.
  destruct (Z.eq_dec (Position c + Count c) k) as [E|]; [|lia]. by rewrite E, Hk in He.
Qed.

Lemma closed_run_set bm k loc count c : bit bm k = true -> open_run bm k loc count ->
  closed_run bm (k + 1) c <-> closed_run bm k c \/ (loc <> -1 /\ c = mkContiguous loc count).
Proof.
  intros Hk Ho. destruct c as [p n]. unfold closed_run; cbn [Position Count]. split.
  - intros (? & ? & ? & Hf & Hl & He). destruct (Z.eq_dec (p + n) k) as [E|]; [right|left; split_and!; done || lia].
    destruct Ho as [(_ & _ & [->|Hp])|(? & ? & ? & Hof & Hol)].
    + lia.
    + by rewrite Hf in Hp by lia.
    + assert (p = loc) as -> by (apply (run_left_unique bm k); done || lia || by rewrite <-E).
      split; [lia|]. f_equal. lia.
  - intros [(? & ? & ? & ? & ? & ?)|(Hne & [= -> ->])]; [split_and!; done || lia|].
    destruct Ho as [(? & _)|(? & ? & E & Hof & Hol)]; [lia|]. rewrite E. split_and!; done || lia.
Qed.

Lemma scan_bit_inv bm i j s : wf bm -> 0 <= i < len (bits bm) -> 0 <= j < 8 ->
  scan_inv bm (8 * i + j) s -> scan_inv bm (8 * i + j + 1) (scan_bit i (byte_at (bits bm) i) s j).
Proof.
  intros [_ Hlen] Hi Hj (Ho & Hl & Hs). assert (maxAlloc = 2 ^ 48) by done. set (k := 8 * i + j) in *.
  unfold scan_bit. rewrite bm_mask, bm_test by lia.
  assert (Z.testbit (byte_at (bits bm) i) j = bit bm k) as ->.
  { rewrite (bit_of_byte bm i k (byte_at (bits bm) i)) by (done || lia). f_equal. lia. }
  destruct (bit bm k) eqn:Hk; cbn [negb].
  - pose proof (fun c => closed_run_set bm k _ _ c Hk Ho) as Hc.
    destruct (Z.eqb_spec (s_location s) (-1)) as [E|E]; cbn [negb]; split_and!; cbn.
    + destruct Ho as [(? & ? & _)|]; [left|lia]. split_and!; try done. right. by replace (k + 1 - 1) with k by lia.
    + intros c. rewrite Hl, Hc. naive_solver.
    + done.
    + left. split_and!; try done. right. by replace (k + 1 - 1) with k by lia.
    + intros c. rewrite elem_of_app, Hl, Hc, list_elem_of_singleton. naive_solver.
    + apply sorted_snoc; [done|]. intros d Hd. apply Hl in Hd as (? & ? & Hend & Hf & _ & Ht).
      destruct Ho as [(? & _)|(? & ? & ? & Hof & _)]; [lia|]. unfold before; cbn.
      destruct (Z.ltb_spec (Position d) (s_location s)); [done|]. by rewrite Hof in Ht by lia.
  - destruct Ho as [(El & Ec & Hb)|(H1 & H2 & E & Hof & Hol)].
    + rewrite El, Ec. cbn [Z.eqb Pos.eqb]. rewrite !i64_id by lia. split_and!; cbn.
      * right. fold k. split_and!; try lia; [|destruct Hb as [?|Hb]; [by left|by right]].
        intros i' Hi'. by replace i' with k by lia.
      * intros c. by rewrite Hl, closed_run_free.
      * done.
    + rewrite (proj2 (Z.eqb_neq _ _)) by lia. rewrite i64_id by lia. split_and!; cbn.
      * right. split_and!; try done; try lia.
        intros i' Hi'. destruct (Z.eq_dec i' k) as [->|]; [done|apply Hof; lia].
      * intros c. by rewrite Hl, closed_run_free.
      * done.
Qed.

Lemma scan_byte_inv bm i s : wf bm -> 0 <= i < len (bits bm) ->
  scan_inv bm (8 * i) s -> scan_inv bm (8 * (i + 1)) (scan_byte i (byte_at (bits bm) i) s).
Proof.
  intros Hwf Hi Hs. replace (8 * (i + 1)) with (8 * i + (0 + 8)) by lia.
  apply (foldl_seqZ (fun j => scan_inv bm (8 * i + j))); [done|by rewrite Z.add_0_r|].
  intros j s' Hj Hs'. rewrite Z.add_assoc. by apply scan_bit_inv.
Qed.

(** [FreeList] returns exactly the maximal runs of free bits of the bitmap,
    ordered by position. *)
Theorem bitmap_free_list bm : wf bm ->
  (forall c, c ∈ FreeList bm <-> maximal_run bm c) /\ StronglySorted before (FreeList bm).
Proof.
  intros Hwf.
  assert (scan_inv bm (nbits bm) (range_loop scan_byte 0 (bits bm) (mkScan [] (-1) 0))) as (Ho & Hl & Hs).
  { apply (range_loop_inv (fun i => scan_inv bm (8 * i)) scan_byte (bits bm) _ 0); [done| |].
    - split_and!; cbn; [left; split_and!; auto| |constructor].
      intros c. rewrite elem_of_nil. unfold closed_run. split; [done|lia].
    - intros i b s Hb Hi. rewrite Z.sub_0_r in Hb.
      replace b with (byte_at (bits bm) i) by (unfold byte_at; by rewrite Hb).
      apply scan_byte_inv; [done|]. apply lookup_lt_Some in Hb. unfold len. lia. }
  unfold FreeList. set (s := range_loop _ _ _ _) in *.
  assert (forall c, maximal_run bm c <-> closed_run bm (nbits bm) c \/ (s_location s <> -1 /\ c = mkContiguous (s_location s) (s_count s))) as Hm.
  { intros [p n]. unfold maximal_run, closed_run; cbn [Position Count]. split.
    - intros (? & ? & ? & Hf & Hb & He). destruct (Z.eq_dec (p + n) (nbits bm)) as [E|]; [right|left].
      + destruct Ho as [(_ & _ & [Hz|Hp])|(? & ? & ? & Hof & Hol)]; [lia|by rewrite Hf in Hp by lia|].
        assert (p = s_location s) as -> by (apply (run_left_unique bm (nbits bm)); done || lia || by rewrite <-E).
        split; [lia|]. f_equal. lia.
      + destruct He; [done|]. split_and!; done || lia.
    - intros [(? & ? & ? & ? & ? & ?)|(Hne & [= -> ->])]; [split_and!; auto; lia|].
      destruct Ho as [(? & _)|(? & ? & E & Hof & Hol)]; [lia|]. rewrite E. split_and!; auto; lia. }
  destruct (Z.eqb_spec (s_location s) (-1)) as [E|E]; cbn [negb].
  - split; [|done]. intros c. rewrite Hl, Hm. naive_solver.
  - split.
    + intros c. rewrite elem_of_app, Hl, Hm, list_elem_of_singleton. naive_solver.
    + apply sorted_snoc; [done|]. intros d Hd. apply Hl in Hd as (? & ? & ? & Hf & _ & Ht).
      destruct Ho as [(? & _)|(? & ? & ? & Hof & _)]; [lia|]. unfold before; cbn.
      destruct (Z.ltb_spec (Position d) (s_location s)); [done|]. by rewrite Hof in Ht by lia.
Qed.

(** ** Witnesses *)

Definition sample : Bitmap := mkBitmap [0x92; 0x20; 0x82].

Lemma bitmap_sample_wf : wf sample.
Proof. split; [apply bytes_okb_ok; reflexivity|by vm_compute]. Defined.

Lemma bitmap_update_refines_witness :
  exists bm', Set_ sample 5 = Ret bm' /\ IsSet bm' 5 = Ret true /\ bit bm' 6 = false.
Proof.
  destruct (proj1 (bitmap_update_refines sample 5 true bitmap_sample_wf) ltac:(cbv; split; congruence)) as (bm' & H & _ & _ & Hs & Hb).
  exists bm'. split_and!; [done|done|]. rewrite Hb by lia. reflexivity.
Defined.

Lemma bitmap_is_set_witness : IsSet sample 4 = Ret true /\ IsSet sample 24 = Panic IndexOutOfRange.
Proof.
  split; [apply (proj1 (bitmap_is_set sample 4 bitmap_sample_wf))|apply (proj1 (proj2 (bitmap_is_set sample 24 bitmap_sample_wf)))];
    cbv; split; congruence.
Defined.

Lemma bitmap_search_least_witness : exists r, FirstFree sample 13 = Ret r /\ least_bit sample false 13 r /\ r = 14.
Proof.
  destruct (proj1 (bitmap_search_least sample 13 bitmap_sample_wf)) as (r & Hr & Hl).
  exists r. split_and!; [done|done|]. change (FirstFree sample 13) with (@Ret Z 14) in Hr. by injection Hr.
Defined.

Lemma bitmap_free_list_witness : maximal_run sample (mkContiguous 8 5) /\
  FreeList sample = [mkContiguous 0 1; mkContiguous 2 2; mkContiguous 5 2; mkContiguous 8 5; mkContiguous 14 3; mkContiguous 18 5].
Proof.
  split; [|reflexivity]. apply (proj1 (bitmap_free_list sample bitmap_sample_wf)).
  change (FreeList sample) with [mkContiguous 0 1; mkContiguous 2 2; mkContiguous 5 2; mkContiguous 8 5; mkContiguous 14 3; mkContiguous 18 5].
  do 3 apply list_elem_of_further. apply list_elem_of_here.
Defined.
