(* ===== verification/SuperLp.v ===== *)
(** * SuperLp: superlp/superlp.go
    Android "super" partitions: the metadata that names the logical partitions of
    a device as lists of extents, and the reader that stitches the extents of one
    partition together. *)
From S2P Require Import Prelude Bytes ReaderAt.

Definition GeometryMagic : Z := 0x616c4467.
Definition HeaderMagic : Z := 0x414c5030.
Definition GeometryOffset : Z := 4096.
Definition GeometrySize : Z := 4096.
Definition SectorSize : Z := 512.
Definition geometryStructSize : Z := 52.
Definition metadataHeaderSize : Z := 128.
Definition maxMetadataSize : Z := Z.shiftl 16 20.
Definition maxSlots : Z := 8.
Definition maxEntries : Z := Z.shiftl 1 20.
Definition nameLen : Z := 36.
Definition TargetLinear : Z := 0.
Definition TargetZero : Z := 1.

Record Geometry := mkGeometry { MaxMetadataSize : Z; SlotCount : Z; LogicalBlockSz : Z }.
Record Extent := mkExtent { NumSectors : Z; TargetType : Z; TargetData : Z; TargetSource : Z }.
Record Partition := mkPartition { Name : list Z; Attributes : Z; Extents : list Extent }.
Record Metadata := mkMetadata { geometry : Geometry; Partitions : list Partition }.
Record tableDescriptor := mkTable { offset : Z; entries : Z; entrySize : Z }.

Definition Partition_Size (p : Partition) : Z :=
  i64 (u64 (foldl (fun sectors e => u64 (sectors + NumSectors e)) 0 (Extents p) * SectorSize)).

(** The loop over the extents: [prev] is the extent before, when there is one. *)
Fixpoint contiguous_run (prev : option Extent) (es : list Extent) : bool :=
  match es with
  | [] => true
  | e :: es' =>
      if negb (TargetType e =? TargetLinear) || negb (TargetSource e =? 0) then false
      else match prev with
           | Some q => if negb (u64 (TargetData q + NumSectors q) =? TargetData e) then false
                       else contiguous_run (Some e) es'
           | None => contiguous_run (Some e) es'
           end
  end.

Definition Contiguous (p : Partition) : Z * Z * bool :=
  match Extents p with
  | [] => (0, 0, false)
  | first :: _ =>
      if contiguous_run None (Extents p)
      then (i64 (u64 (TargetData first * SectorSize)), Partition_Size p, true)
      else (0, 0, false)
  end.

Definition Detect (ra : reader) (origin : Z) : go bool :=
  r ← ra (replicate 4 0) (i64 (origin + GeometryOffset));
  match r_err r with
  | Some _ => mret false
  | None => mret (le32 (r_buf r) 0 =? GeometryMagic)
  end.

Definition readGeometry (ra : reader) (origin : Z) : go Geometry :=
  b ← read_or ra "read super geometry: %w" (replicate (Z.to_nat geometryStructSize) 0) (i64 (origin + GeometryOffset));
  if negb (le32 b 0 =? GeometryMagic) then Err (Errorf "not a super partition")
  else if le32 b 4 <? geometryStructSize then Err (Errorf "super geometry struct size %d too small")
  else
    let slotCount := le32 b 44 in
    let slotCount := if slotCount =? 0 then 1 else slotCount in
    if maxSlots <? slotCount then Err (Errorf "super metadata slot count %d out of range")
    else mret (mkGeometry (le32 b 40) slotCount (le32 b 48)).

(** [cString] trims a NUL-padded fixed-width name. *)
Fixpoint cString (b : list Z) : list Z :=
  match b with
  | [] => []
  | c :: b' => if c =? 0 then [] else c :: cString b'
  end.

Definition read_table (hdr : list Z) (i : Z) : tableDescriptor :=
  let off := 80 + i * 12 in
  mkTable (le32 hdr off) (le32 hdr (off + 4)) (le32 hdr (off + 8)).

(** The bounds checks of one table descriptor. *)
Definition check_table (tablesSize : Z) (d : tableDescriptor) : option error :=
  if entries d =? 0 then None
  else if (entrySize d =? 0) || (maxEntries <? entries d) then Some (Errorf "super metadata table %d out of range")
  else if tablesSize <? u64 (offset d + u64 (entries d * entrySize d))
  then Some (Errorf "super metadata table %d runs past the tables area")
  else None.

Fixpoint check_tables (tablesSize : Z) (ds : list tableDescriptor) : option error :=
  match ds with
  | [] => None
  | d :: ds' => match check_table tablesSize d with
                | Some e => Some e
                | None => check_tables tablesSize ds'
                end
  end.

(** The extents [i] and up of the extent table, [n] of them. *)
Fixpoint read_extents (ra : reader) (tables : Z) (d : tableDescriptor) (i : Z) (n : nat) : go (list Extent) :=
  match n with
  | O => mret []
  | S n' =>
      e ← read_or ra "read super extent %d: %w" (replicate 24 0) (i64 (tables + offset d + i * entrySize d));
      es ← read_extents ra tables d (i + 1) n';
      mret (mkExtent (le64 e 0) (le32 e 8) (le64 e 12) (le32 e 20) :: es)
  end.

(** The partitions [i] and up of the partition table, [n] of them; an entry with
    no name is skipped. *)
Fixpoint read_partitions (ra : reader) (tables : Z) (d : tableDescriptor) (extents : list Extent)
    (i : Z) (n : nat) : go (list Partition) :=
  match n with
  | O => mret []
  | S n' =>
      if entrySize d <? 52 then Err (Errorf "super partition entry size %d too small")
      else
        buf ← make 0 1 (entrySize d);
        buf ← read_or ra "read super partition %d: %w" buf (i64 (tables + offset d + i * entrySize d));
        name ← slice buf 0 nameLen;
        let name := cString name in
        let first := le32 buf 40 in
        let count := le32 buf 44 in
        if bool_decide (name = []) then read_partitions ra tables d extents (i + 1) n'
        else if len extents <? u64 (first + count)
        then Err (Errorf "partition %s references extents outside the table")
        else
          es ← slice extents first (u32 (first + count));
          ps ← read_partitions ra tables d extents (i + 1) n';
          mret (mkPartition name (le32 buf 36) es :: ps)
  end.

Definition readSlot (ra : reader) (slot : Z) (geom : Geometry) : go Metadata :=
  hdr ← read_or ra "read super metadata header: %w" (replicate (Z.to_nat metadataHeaderSize) 0) slot;
  if negb (le32 hdr 0 =? HeaderMagic) then Err (Errorf "super metadata header magic mismatch")
  else
    let headerSize := le32 hdr 8 in
    if (headerSize <? metadataHeaderSize) || (MaxMetadataSize geom <? headerSize)
    then Err (Errorf "super metadata header size %d out of range")
    else
      let tablesSize := le32 hdr 44 in
      let descs := read_table hdr <$> [0; 1; 2; 3] in
      let tables := i64 (slot + headerSize) in
      match check_tables tablesSize descs with
      | Some e => Err e
      | None =>
          let partitions := read_table hdr 0 in
          let extentTable := read_table hdr 1 in
          extents ← read_extents ra tables extentTable 0 (Z.to_nat (entries extentTable));
          ps ← read_partitions ra tables partitions extents 0 (Z.to_nat (entries partitions));
          if bool_decide (ps = []) then Err (Errorf "super metadata lists no partitions")
          else mret (mkMetadata geom ps)
      end.

(** The slots of one copy of the metadata, from [slot]: the first readable one, or
    the first error seen so far. *)
Fixpoint try_slots (ra : reader) (geom : Geometry) (base slot : Z) (n : nat) (firstErr : option error) :
    go (Metadata + option error) :=
  match n with
  | O => mret (inr firstErr)
  | S n' =>
      match readSlot ra (i64 (base + slot * MaxMetadataSize geom)) geom with
      | Err e => try_slots ra geom base (slot + 1) n' (match firstErr with None => Some e | Some _ => firstErr end)
      | Ret md => Ret (inl md)
      | Panic p => Panic p
      | OutOfFuel => OutOfFuel
      end
  end.

Definition Open (ra : reader) (origin : Z) : go Metadata :=
  geom ← readGeometry ra origin;
  let slotSize := MaxMetadataSize geom in
  if (slotSize <=? 0) || (maxMetadataSize <? slotSize)
  then Err (Errorf "super metadata size %d out of range")
  else
    let primary := i64 (origin + GeometryOffset + 2 * GeometrySize) in
    let backup := i64 (primary + slotSize * SlotCount geom) in
    let n := Z.to_nat (SlotCount geom) in
    r ← try_slots ra geom primary 0 n None;
    match r with
    | inl md => mret md
    | inr firstErr =>
        r ← try_slots ra geom backup 0 n firstErr;
        match r with
        | inl md => mret md
        | inr (Some e) => Err (Wrapf "no readable super metadata slot: %w" e)
        | inr None => Err (Errorf "no readable super metadata slot: %!w(<nil>)")
        end
    end.

Definition Find (m : Metadata) (name : list Z) : option Partition :=
  list_find (fun p => Name p = name) (Partitions m) ≫= (fun r => Some r.2).

(** ** The reader of one partition *)

Record Mapping := mkMapping {
  ra : reader; origin : Z; extents : list Extent; starts : list Z; size : Z
}.

(** The method [Metadata.Mapping]: its loop over the extents of the partition. *)
Fixpoint map_extents (out : Mapping) (es : list Extent) : go Mapping :=
  match es with
  | [] => mret out
  | e :: es' =>
      if negb (TargetSource e =? 0)
      then Err (Errorf "partition %s has an extent on block device %d, which is not this image")
      else if negb (TargetType e =? TargetLinear) && negb (TargetType e =? TargetZero)
      then Err (Errorf "partition %s has an extent of unknown type %d")
      else map_extents (mkMapping (ra out) (origin out) (extents out ++ [e]) (starts out ++ [size out])
                                  (i64 (size out + i64 (u64 (NumSectors e * SectorSize))))) es'
  end.

Definition MapPartition (ra : reader) (origin : Z) (p : Partition) : go Mapping :=
  map_extents (mkMapping ra origin [] [] 0) (Extents p).

Definition Mapping_Size (mp : Mapping) : Z := size mp.

(** One round of [ReadAt]'s loop: the state is the buffer and [done]. *)
Definition read_extent (mp : Mapping) (off want : Z) (s : list Z * Z) : go ((list Z * Z) + rres) :=
  let '(p, done) := s in
  if (done <? want) && (i64 (off + done) <? size mp) then
    let pos := i64 (off + done) in
    i ← sort_search (len (starts mp)) (fun i => start ← index (starts mp) i; mret (pos <? start));
    let i := i - 1 in
    if i <? 0 then mret (inr (mkR p done (Some (Errorf "super partition read outside its extents"))))
    else
      e ← index (extents mp) i;
      extentStart ← index (starts mp) i;
      let extentEnd := i64 (extentStart + i64 (u64 (NumSectors e * SectorSize))) in
      let n := want - done in
      let room := i64 (extentEnd - pos) in
      let n := if room <? n then room else n in
      if TargetType e =? TargetZero then
        p' ← fill (fun _ => 0) p done n;
        mret (inl (p', done + n))
      else
        r ← read_range (ra mp) p done (done + n)
              (i64 (origin mp + i64 (u64 (TargetData e * SectorSize)) + (pos - extentStart)));
        match r_err r with
        | Some err => mret (inr (mkR (r_buf r) done (Some err)))
        | None => mret (inl (r_buf r, done + n))
        end
  else mret (inr (if done =? 0 then mkR p 0 (Some EOF) else mkR p done None)).

Definition ReadAt (mp : Mapping) : reader := fun p off =>
  if off <? 0 then Ret (mkR p 0 (Some (Errorf "negative offset")))
  else if size mp <=? off then Ret (mkR p 0 (Some EOF))
  else go_for (S (length p)) (read_extent mp off (len p)) (p, 0).

(** ** What a mapping is *)

(** Where the extent after number [i] starts. *)
Definition next_start (mp : Mapping) (i : Z) : Z := default (size mp) (starts mp !! Z.to_nat (i + 1)).

(** What [MapPartition] establishes, whatever the numbers of the extents: every
    extent ends (in int64 arithmetic) where the next starts. *)
Record mapping_ok (mp : Mapping) : Prop := {
  ok_len : len (starts mp) = len (extents mp);
  ok_size : - 2 ^ 63 <= size mp < 2 ^ 63;
  ok_starts : Forall (fun s => - 2 ^ 63 <= s < 2 ^ 63) (starts mp);
  ok_first s : starts mp !! 0%nat = Some s -> s = 0;
  ok_empty : starts mp = [] -> size mp = 0;
  ok_next i s e : 0 <= i -> starts mp !! Z.to_nat i = Some s -> extents mp !! Z.to_nat i = Some e ->
    i64 (s + i64 (u64 (NumSectors e * SectorSize))) = next_start mp i
}.

(** The bytes of a partition, from the extents that hold it. *)
Fixpoint stitched (file : Z -> Z) (org : Z) (es : list Extent) (pos : Z) : Z :=
  match es with
  | [] => 0
  | e :: es' =>
      let n := NumSectors e * SectorSize in
      if pos <? n then (if TargetType e =? TargetZero then 0 else file (org + TargetData e * SectorSize + pos))
      else stitched file org es' (pos - n)
  end.

Definition total (es : list Extent) : Z := foldr (fun e t => NumSectors e * SectorSize + t) 0 es.

(** Extents whose sizes do not overflow and whose data is in the device. *)
Definition extents_fit (fsize org : Z) (es : list Extent) : Prop :=
  Forall (fun e => 0 <= NumSectors e /\ 0 <= TargetData e /\
                   (TargetType e <> TargetZero ->
                    org + (TargetData e + NumSectors e) * SectorSize <= fsize)) es /\
  total es < 2 ^ 63.

(** ** Lemmas *)

Lemma sp_map_extents_ok es : forall out, mapping_ok out -> len (extents out) + len es < 2 ^ 62 ->
  wp (map_extents out es) (fun mp =>
    mapping_ok mp /\ ra mp = ra out /\ origin mp = origin out /\ extents mp = extents out ++ es /\
    Forall (fun e => TargetType e = TargetLinear \/ TargetType e = TargetZero) es) (fun _ => True).
Proof.
  induction es as [|e es IH]; intros out Hout Hl; cbn [map_extents].
  - cbn. rewrite app_nil_r. split_and!; done || constructor.
  - rewrite len_cons in Hl. destruct_if; [|done]. destruct (negb _ && negb _) eqn:Ht; [done|].
    eapply wp_mono; [apply IH| |done].
    + destruct Hout as [H1 H2 H3 H4 H5 H6]. unfold len in H1.
      split; cbn [ra origin extents starts size].
      * unfold len. rewrite !length_app. cbn. lia.
      * apply i64_range.
      * apply Forall_app_2; [done|]. by apply Forall_singleton.
      * intros s. destruct (starts out) eqn:E; cbn; [intros [= <-]; auto|intros; by apply H4].
      * intros ?%app_nil. naive_solver.
      * intros i s e' Hi Hs He. unfold next_start; cbn [starts size].
        destruct (decide (Z.to_nat i < length (starts out))%nat) as [Hlt|Hge].
        -- rewrite lookup_app_l in Hs by lia. rewrite lookup_app_l in He by lia.
           rewrite (H6 i s e') by done. unfold next_start.
           destruct (decide (Z.to_nat (i + 1) < length (starts out))%nat).
           ++ rewrite lookup_app_l by lia. by destruct (lookup_lt_is_Some_2 (starts out) (Z.to_nat (i + 1))) as [x ->]; [lia|].
           ++ rewrite lookup_ge_None_2, lookup_app_r by lia.
              by replace (Z.to_nat (i + 1) - length (starts out))%nat with 0%nat by lia.
        -- rewrite lookup_app_r in Hs by lia. rewrite lookup_app_r in He by lia.
           apply list_lookup_singleton_Some in Hs as [Hz <-]. apply list_lookup_singleton_Some in He as [_ <-].
           rewrite lookup_ge_None_2; [done|]. rewrite length_app. cbn. lia.
    + cbn. rewrite len_app, len_cons. len_nils. lia.
    + cbn. intros mp (? & ? & ? & -> & ?). rewrite <-(assoc app). split_and!; try done.
      constructor; [|done]. destruct (Z.eqb_spec (TargetType e) TargetLinear); [by left|].
      destruct (Z.eqb_spec (TargetType e) TargetZero); [by right|]. done.
Qed.

Lemma sp_map_ok r o p : len (Extents p) < 2 ^ 62 ->
  wp (MapPartition r o p) (fun mp =>
    mapping_ok mp /\ ra mp = r /\ origin mp = o /\ extents mp = Extents p /\
    Forall (fun e => TargetType e = TargetLinear \/ TargetType e = TargetZero) (Extents p)) (fun _ => True).
Proof.
  intros Hl. apply sp_map_extents_ok; [|done].
  split; done || (cbn; lia).
Qed.

(** The binary search finds the extent that holds [pos]. *)
Lemma sp_search mp pos P E : mapping_ok mp -> len (starts mp) < 2 ^ 62 -> 0 <= pos < size mp ->
  (forall i s e, 0 <= i -> starts mp !! Z.to_nat i = Some s -> extents mp !! Z.to_nat i = Some e ->
     s <= pos < next_start mp i -> P (i + 1)) ->
  wp (sort_search (len (starts mp)) (fun i => start ← index (starts mp) i; mret (pos <? start))) P E.
Proof.
  intros Hok Hl Hpos HP. pose proof (len_nonneg (starts mp)).
  apply (wp_sort_search _ _ (fun i b => exists s, starts mp !! Z.to_nat i = Some s /\ b = (pos <? s))); [lia| |].
  - intros i Hi. apply wp_bind, wp_index; [done|]. intros s Hs. cbn. eauto.
  - intros r Hr Hlo Hhi. destruct (Z.eq_dec r 0) as [->|Hne].
    + exfalso. destruct (Z.eq_dec (len (starts mp)) 0) as [E0|E0].
      * apply len_zero in E0. rewrite (ok_empty mp Hok E0) in Hpos. lia.
      * destruct (Hhi ltac:(lia)) as (s & Hs & Hb). apply (ok_first mp Hok) in Hs as ->. lia.
    + destruct (Hlo ltac:(lia)) as (s & Hs & Hb).
      destruct (lookup_lt_is_Some_2 (extents mp) (Z.to_nat (r - 1))) as [e He].
      { apply lookup_lt_Some in Hs. pose proof (ok_len mp Hok) as E1. unfold len in E1. lia. }
      replace r with (r - 1 + 1) by lia. apply (HP (r - 1) s e); [lia|done|done|].
      split; [lia|]. unfold next_start. replace (r - 1 + 1) with r by lia.
      destruct (Z.eq_dec r (len (starts mp))) as [->|].
      * rewrite lookup_ge_None_2 by (unfold len; lia). cbn. lia.
      * destruct (Hhi ltac:(lia)) as (s' & -> & Hb'). cbn. lia.
Qed.

(** One round, with the extent that was found: what is left of the loop body. *)
Definition serve (mp : Mapping) (off want : Z) (p : list Z) (done i s : Z) (e : Extent) : go ((list Z * Z) + rres) :=
  let n := Z.min (want - done) (next_start mp i - (off + done)) in
  if TargetType e =? TargetZero then
    p' ← fill (fun _ => 0) p done n;
    mret (inl (p', done + n))
  else
    r ← read_range (ra mp) p done (done + n)
          (i64 (origin mp + i64 (u64 (TargetData e * SectorSize)) + (off + done - s)));
    match r_err r with
    | Some err => mret (inr (mkR (r_buf r) done (Some err)))
    | None => mret (inl (r_buf r, done + n))
    end.

Lemma sp_next_range mp i : mapping_ok mp -> - 2 ^ 63 <= next_start mp i < 2 ^ 63.
Proof.
  intros Hok. unfold next_start. destruct (starts mp !! Z.to_nat (i + 1)) eqn:E; cbn; [|apply ok_size, Hok].
  pose proof (ok_starts mp Hok) as Hs. by eapply Forall_lookup_1 in Hs; [|done].
Qed.

Lemma sp_round mp off want p done (P : (list Z * Z) + rres -> Prop) E :
  mapping_ok mp -> len (starts mp) < 2 ^ 62 -> 0 <= off -> 0 <= done < want -> off + done < size mp ->
  (forall i s e, 0 <= i -> starts mp !! Z.to_nat i = Some s -> extents mp !! Z.to_nat i = Some e ->
     s <= off + done < next_start mp i -> wp (serve mp off want p done i s e) P E) ->
  wp (read_extent mp off want (p, done)) P E.
Proof.
  intros Hok Hl Hoff Hd Hpos HP. pose proof (ok_size mp Hok). unfold read_extent.
  rewrite (i64_id (off + done)) by lia. destruct_if; [|lia]. destruct_if; [|lia]. cbn [andb]. cbn zeta.
  apply wp_bind, sp_search; [done..|lia|]. intros i s e Hi Hs He Hin.
  replace (i + 1 - 1) with i by lia. destruct_if; [lia|].
  specialize (HP i s e Hi Hs He Hin). unfold index.
  rewrite (proj2 (Z.ltb_ge i 0)), He, Hs by lia. cbn [mbind go_bind].
  rewrite (ok_next mp Hok i s e) by done. pose proof (sp_next_range mp i Hok).
  rewrite (i64_id (next_start mp i - _)) by lia.
  replace (if _ <? want - done then _ else _) with (Z.min (want - done) (next_start mp i - (off + done)))
    by (destruct_if; lia).
  apply HP.
Qed.

Lemma sp_serve_shape mp off p done i s e : mapping_ok mp -> ReaderShape (ra mp) ->
  0 <= done < len p -> len p < 2 ^ 63 -> 0 <= off -> off + done < next_start mp i ->
  wp (serve mp off (len p) p done i s e) (fun r =>
    match r with
    | inl (p', done') => len p' = len p /\ done < done' <= len p /\ off + done' < 2 ^ 63 /\ (bytes_ok p -> bytes_ok p')
    | inr v => len (r_buf v) = len p /\ 0 <= r_n v <= len p /\ (bytes_ok p -> bytes_ok (r_buf v))
    end) no_err.
Proof.
  intros Hok Hra Hd Hp Hoff Hn. pose proof (sp_next_range mp i Hok).
  unfold serve. cbn zeta. set (n := Z.min _ _). assert (0 < n <= len p - done /\ off + done + n < 2 ^ 63) by lia.
  destruct_if.
  - rewrite fill_ok by lia. cbn. rewrite !len_app, len_sub, len_span, len_from by lia.
    split_and!; try lia. intros. repeat apply Forall_app_2; auto with bytes.
    apply span_bytes. intros _. apply is_byte_0.
  - apply wp_bind, wp_read_range; [done|lia..|]. intros q m err Hq Hm Hb. cbn [r_err r_buf r_n].
    assert (len (p.[0, done] ++ q ++ from p (done + n)) = len p) by (rewrite !len_app, len_sub, len_from by lia; lia).
    assert (bytes_ok p -> bytes_ok (p.[0, done] ++ q ++ from p (done + n))).
    { intros. repeat apply Forall_app_2; auto with bytes. }
    destruct err; cbn; split_and!; auto; lia.
Qed.

(** Reading a mapped partition never panics and never loops: whatever extents
    the metadata names (overlapping, of size zero, with sizes that overflow), a
    read of the mapping built from them ends, fills at most its buffer and reports
    a count inside it. *)
Theorem super_read_safe r o p mp : ReaderShape r -> len (Extents p) < 2 ^ 62 ->
  MapPartition r o p = Ret mp ->
  forall q off, len q < 2 ^ 63 -> wp (ReadAt mp q off) (fun v =>
    len (r_buf v) = len q /\ 0 <= r_n v <= len q /\ (bytes_ok q -> bytes_ok (r_buf v))) no_err.
Proof.
  intros Hra Hl Hmp q off Hq. destruct (wp_Ret _ _ _ _ (sp_map_ok r o p Hl) Hmp) as (Hok & Er & Eo & Ee & _).
  pose proof (len_nonneg q). unfold ReadAt. do 2 (destruct_if; [cbn; split_and!; done || lia|]).
  apply (wp_for (fun '(b, done) => len b = len q /\ 0 <= done <= len q /\ off + done < 2 ^ 63 /\ (bytes_ok q -> bytes_ok b))
                (fun '(b, done) => Z.to_nat (len q - done))).
  - intros [b done] (Hb & Hd & Ho & Hbs). rewrite <-Hb.
    destruct (decide (done < len b /\ off + done < size mp)) as [[H1 H2]|Hend].
    + apply sp_round; try done || lia; [rewrite (ok_len mp Hok), Ee; done|].
      intros i s e Hi Hs He Hin. eapply wp_mono; [apply sp_serve_shape; rewrite ?Er; done || lia| |done].
      intros [[b' d']|v]; cbn; rewrite Hb; intros; split_and!; try lia; naive_solver lia.
    + unfold read_extent. rewrite i64_id by lia.
      replace ((done <? len b) && (off + done <? size mp)) with false by (symmetry; lia).
      destruct_if; cbn; split_and!; auto; lia.
  - pose proof (ok_size mp Hok). split_and!; done || lia.
  - unfold len. lia.
Qed.

Lemma sp_total_nonneg es : Forall (fun e => 0 <= NumSectors e) es -> 0 <= total es.
Proof. unfold total, SectorSize. induction 1; cbn in *; lia. Qed.

Lemma sp_total_take es i e : es !! i = Some e ->
  total (take (S i) es) = total (take i es) + NumSectors e * SectorSize.
Proof.
  revert i. induction es as [|e' es IH]; intros [|i] He; try done; cbn in He.
  - injection He as ->. cbn. destruct es; cbn; lia.
  - specialize (IH i He). change (take (S (S i)) (e' :: es)) with (e' :: take (S i) es).
    change (take (S i) (e' :: es)) with (e' :: take i es). cbn [total foldr] in *. unfold total in IH. lia.
Qed.

Lemma sp_total_take_le es i : Forall (fun e => 0 <= NumSectors e) es -> 0 <= total (take i es) <= total es.
Proof.
  intros Hes. revert i. induction Hes as [|e es He Hes IH]; intros i; [by rewrite take_nil|].
  pose proof (sp_total_nonneg es Hes). unfold total, SectorSize in *.
  destruct i as [|i]; cbn; [lia|]. specialize (IH i). lia.
Qed.

Lemma sp_stitched file org es i e pos : Forall (fun e => 0 <= NumSectors e) es ->
  es !! i = Some e -> 0 <= pos - total (take i es) < NumSectors e * SectorSize ->
  stitched file org es pos =
  if TargetType e =? TargetZero then 0 else file (org + TargetData e * SectorSize + (pos - total (take i es))).
Proof.
  intros Hes. revert i pos. induction Hes as [|e' es He' Hes IH]; intros [|i] pos He Hp; try done; cbn in He.
  - injection He as ->. cbn in Hp |- *. rewrite Z.sub_0_r in *. by rewrite (proj2 (Z.ltb_lt _ _)) by lia.
  - pose proof (sp_total_take_le es i Hes). cbn [take total foldr] in Hp. unfold total in *.
    cbn [stitched]. rewrite (proj2 (Z.ltb_ge _ _)) by lia. rewrite (IH i) by (done || unfold total; lia).
    cbn [take total foldr]. unfold total. by replace (pos - _ - _) with (pos - (NumSectors e' * SectorSize + foldr (fun e t => NumSectors e * SectorSize + t) 0 (take i es))) by lia.
Qed.

Section mapped_partition.
Variables (mp : Mapping) (fsize : Z) (file : Z -> Z).
Hypothesis Hok : mapping_ok mp.
Hypothesis Hfit : extents_fit fsize (origin mp) (extents mp).
Hypothesis Horg : 0 <= origin mp.

Lemma sp_nonneg : Forall (fun e => 0 <= NumSectors e) (extents mp).
Proof. eapply Forall_impl; [apply Hfit|]. naive_solver. Qed.

Lemma sp_step i s e : 0 <= i -> starts mp !! Z.to_nat i = Some s -> extents mp !! Z.to_nat i = Some e ->
  s = total (take (Z.to_nat i) (extents mp)) ->
  next_start mp i = total (take (Z.to_nat (i + 1)) (extents mp)).
Proof.
  intros Hi Hs He E. rewrite <-(ok_next mp Hok i s e) by done. subst s.
  replace (Z.to_nat (i + 1)) with (S (Z.to_nat i)) by lia. rewrite (sp_total_take _ _ e) by done.
  pose proof (sp_total_take_le (extents mp) (S (Z.to_nat i)) sp_nonneg) as Ht. rewrite (sp_total_take _ _ e) in Ht by done.
  pose proof (sp_total_take_le (extents mp) (Z.to_nat i) sp_nonneg).
  pose proof (proj2 Hfit). pose proof sp_nonneg as Hn. eapply Forall_lookup_1 in Hn; [|done].
  cbn in Hn. unfold SectorSize in *. rewrite wrap_u_id by lia. by rewrite (i64_id (_ * 512)), i64_id by lia.
Qed.

Lemma sp_starts i s : 0 <= i -> starts mp !! Z.to_nat i = Some s -> s = total (take (Z.to_nat i) (extents mp)).
Proof.
  intros Hi. revert s. pattern i. apply natlike_ind; [| |done]; clear i Hi.
  - intros s Hs. by rewrite (ok_first mp Hok s Hs).
  - intros i Hi IH s Hs. unfold Z.succ in *.
    destruct (lookup_lt_is_Some_2 (starts mp) (Z.to_nat i)) as [s' Hs']; [apply lookup_lt_Some in Hs; lia|].
    destruct (lookup_lt_is_Some_2 (extents mp) (Z.to_nat i)) as [e He].
    { pose proof (ok_len mp Hok) as El. unfold len in El. apply lookup_lt_Some in Hs. lia. }
    rewrite <-(sp_step i s' e) by auto. unfold next_start. by rewrite Hs.
Qed.

Lemma sp_size : size mp = total (extents mp).
Proof.
  pose proof (ok_len mp Hok) as El. destruct (Z.eq_dec (len (extents mp)) 0) as [E|E].
  - rewrite (ok_empty mp Hok) by (apply len_zero; lia). by rewrite (len_zero (extents mp)).
  - pose proof (len_nonneg (extents mp)). set (i := len (extents mp) - 1).
    destruct (index_ok (starts mp) i) as (s & Hs & _); [lia|].
    destruct (index_ok (extents mp) i) as (e & He & _); [lia|].
    pose proof (sp_step i s e ltac:(lia) Hs He (sp_starts i s ltac:(lia) Hs)) as Hn.
    unfold next_start in Hn. rewrite lookup_ge_None_2 in Hn by (unfold len in *; lia). cbn in Hn.
    rewrite Hn. f_equal. apply take_ge. unfold i, len. lia.
Qed.

Lemma sp_next_le i : 0 <= i < len (extents mp) -> next_start mp i <= size mp.
Proof.
  intros Hi. destruct (index_ok (starts mp) i) as (s & Hs & _); [by rewrite (ok_len mp Hok)|].
  destruct (index_ok (extents mp) i) as (e & He & _); [done|].
  rewrite (sp_step i s e) by (done || lia || by apply sp_starts; [lia|]). rewrite sp_size.
  apply sp_total_take_le, sp_nonneg.
Qed.

Context `{!Device (ra mp) fsize file}.

(** A round extends the device's bytes. *)
Lemma sp_serve_reads off p0 done i s e :
  0 <= done < len p0 -> len p0 < 2 ^ 63 -> 0 <= off -> 0 <= i ->
  starts mp !! Z.to_nat i = Some s -> extents mp !! Z.to_nat i = Some e -> s <= off + done < next_start mp i ->
  let content := stitched file (origin mp) (extents mp) in
  exists n, serve mp off (len p0) (span content off done ++ from p0 done) done i s e =
    Ret (inl (span content off (done + n) ++ from p0 (done + n), done + n)) /\
    0 < n /\ done + n <= len p0 /\ off + done + n <= next_start mp i.
Proof.
  intros Hd Hp Hoff Hi Hs He Hin content. set (q := span content off done ++ from p0 done).
  assert (len q = len p0) as Hq by (unfold q; rewrite len_app, len_span, len_from by lia; lia).
  assert (i < len (extents mp)) as Hil by (apply lookup_lt_Some in He; unfold len; lia).
  pose proof (sp_next_le i ltac:(lia)) as Hnx. pose proof (ok_size mp Hok).
  assert (s = total (take (Z.to_nat i) (extents mp))) as Es by (by apply sp_starts).
  pose proof (sp_step i s e Hi Hs He Es) as En.
  replace (Z.to_nat (i + 1)) with (S (Z.to_nat i)) in En by lia. rewrite (sp_total_take _ _ e He), <-Es in En.
  unfold serve. cbn zeta. set (n := Z.min _ _). exists n. split; [|lia].
  assert (0 < n /\ done + n <= len p0 /\ off + done + n <= next_start mp i) as Hn by lia.
  assert (forall k, 0 <= k < n -> content (off + done + k) =
    if TargetType e =? TargetZero then 0 else file (origin mp + TargetData e * SectorSize + (off + done - s) + k)) as Hc.
  { intros k Hk. unfold content. rewrite (sp_stitched _ _ _ (Z.to_nat i) e) by (apply sp_nonneg || done || lia).
    rewrite <-Es. destruct_if; [done|]. f_equal. lia. }
  destruct_if.
  - rewrite fill_ok by lia. cbn [mbind go_bind mret go_ret].
    do 3 f_equal. apply (span_extend content p0 off done n); [lia..|].
    rewrite (span_const content (off + done) n 0), (span_const (fun _ => 0) _ _ 0); [done|done|].
    intros k Hk. replace k with (off + done + (k - (off + done))) by lia. apply Hc. lia.
  - pose proof (proj1 Hfit) as Hf. eapply Forall_lookup_1 in Hf as (Hns & Htd & Hf); [|done].
    pose proof (dev_size). pose proof (proj2 Hfit). unfold SectorSize in *.
    pose proof (sp_total_take_le (extents mp) (Z.to_nat i) sp_nonneg) as Hs0. rewrite <-Es in Hs0.
    specialize (Hf ltac:(done)).
    rewrite wrap_u_id, (i64_id (TargetData e * 512)), i64_id by lia.
    rewrite (read_range_full (ra mp) fsize file) by (done || lia). cbn [mbind go_bind mret go_ret r_err r_buf].
    do 3 f_equal. apply (span_extend content p0 off done n); [lia..|]. replace (done + n - done) with n by lia.
    symmetry. apply span_congr. intros k Hk. by rewrite Hc.
Qed.
End mapped_partition.

(** Reading a mapped partition serves its extents: when the extents' sizes do
    not overflow and their data is inside the device, a read returns the bytes of
    the extents laid end to end (zeros for zero extents), exactly, with [io.EOF]
    only when there is nothing to read. *)
Theorem super_read_refines r o p mp fsize file q off :
  Device r fsize file -> extents_fit fsize o (Extents p) -> 0 <= o -> len (Extents p) < 2 ^ 62 ->
  MapPartition r o p = Ret mp -> 0 <= off -> len q < 2 ^ 63 ->
  ReadAt mp q off = Ret (short_read (total (Extents p)) (stitched file o (Extents p)) q off).
Proof.
  intros Hdev Hfit Ho Hl Hmp Hoff Hq.
  destruct (wp_Ret _ _ _ _ (sp_map_ok r o p Hl) Hmp) as (Hok & Er & Eo & Ee & _). subst r o. rewrite <-Ee in Hfit, Hl |- *.
  pose proof (sp_size mp fsize Hok Hfit) as Esz. pose proof (ok_size mp Hok).
  pose proof (sp_total_nonneg _ (sp_nonneg mp fsize Hfit)). rewrite <-Esz in *.
  set (content := stitched file (origin mp) (extents mp)). set (keep := Z.max 0 (Z.min (len q) (size mp - off))).
  pose proof (len_nonneg q). cut (wp (ReadAt mp q off) (eq (short_read (size mp) content q off)) no_err).
  { intros Hw. destruct (wp_no_err_Ret _ _ Hw) as (v & -> & <-). done. }
  unfold ReadAt. destruct_if; [lia|]. destruct_if.
  { cbn. unfold short_read. by replace (Z.max 0 _) with 0 by lia. }
  apply (wp_for (fun '(b, done) => b = span content off done ++ from q done /\ 0 <= done <= keep)
                (fun '(b, done) => Z.to_nat (len q - done))).
  - intros [b done] (-> & Hd). destruct (decide (done < keep)).
    + apply sp_round; try done || lia; [by rewrite (ok_len mp Hok)|].
      intros i s e Hi Hs He Hin.
      destruct (sp_serve_reads mp fsize file Hok Hfit Ho off q done i s e) as (n & Es & ? & ? & ?); try done || lia.
      fold content in Es. rewrite Es. cbn. pose proof (sp_next_le mp fsize Hok Hfit i) as Hle.
      apply lookup_lt_Some in He. unfold len in *. split_and!; done || lia.
    + assert (done = keep) as -> by lia. unfold read_extent. rewrite i64_id by lia.
      replace ((keep <? len q) && (off + keep <? size mp)) with false by (symmetry; lia).
      unfold short_read. fold keep. by destruct_if; cbn; rewrite ?Heq.
  - split; [done|lia].
  - unfold len. lia.
Qed.

Lemma sp_contiguous file org fsize es : forall prev S, extents_fit fsize org es -> 0 <= org -> fsize < 2 ^ 63 ->
  match prev with Some q => S = u64 (TargetData q + NumSectors q) | None => match es with e :: _ => S = TargetData e | [] => True end end ->
  contiguous_run prev es = true -> forall pos, 0 <= pos < total es ->
  stitched file org es pos = file (org + S * SectorSize + pos).
Proof.
  induction es as [|e es IH]; intros prev S [Hf Ht] Ho Hfs HS Hrun pos Hpos; [cbn in Hpos; lia|].
  apply Forall_cons in Hf as [(Hns & Htd & Hin) Hf]. cbn [contiguous_run] in Hrun.
  destruct (negb _ || negb _) eqn:Elin; [done|]. assert (TargetType e = TargetLinear) as El by lia.
  specialize (Hin ltac:(rewrite El; done)).
  assert (S = TargetData e /\ contiguous_run (Some e) es = true) as [-> Hrun'].
  { destruct prev as [q|]; [|done]. destruct (Z.eqb_spec (u64 (TargetData q + NumSectors q)) (TargetData e)); [|done].
    split; [congruence|done]. }
  assert (0 <= total es) as Htn by (apply sp_total_nonneg; eapply Forall_impl; [done|naive_solver]).
  assert (total (e :: es) = NumSectors e * 512 + total es) as Et by done. rewrite Et in *.
  cbn [stitched]. unfold SectorSize in *. rewrite El. change (TargetLinear =? TargetZero) with false. cbn iota.
  destruct_if; [done|]. rewrite (IH (Some e) (TargetData e + NumSectors e)); try done; try lia.
  - f_equal. lia.
  - split; [done|lia].
  - cbn. rewrite wrap_u_id; [done|]. lia.
Qed.

(** [Contiguous] tells the truth: when it answers yes with a byte offset and a
    size, the partition has that size and its bytes are the device's bytes from
    that offset on. *)
Theorem super_contiguous_is_range file fsize org p a sz :
  extents_fit fsize org (Extents p) -> 0 <= org -> fsize < 2 ^ 63 ->
  Contiguous p = (a, sz, true) ->
  sz = total (Extents p) /\
  forall pos, 0 <= pos < sz -> stitched file org (Extents p) pos = file (org + a + pos).
Proof.
  intros Hfit Ho Hfs Hc. unfold Contiguous in Hc. destruct (Extents p) as [|first es] eqn:E; [done|].
  destruct (contiguous_run None (first :: es)) eqn:Hrun; [|done]. injection Hc as <- <-.
  assert (Forall (fun e => 0 <= NumSectors e) (first :: es)) as Hns.
  { eapply Forall_impl; [apply Hfit|]. naive_solver. }
  assert (Partition_Size p = total (Extents p)) as Hsz.
  { unfold Partition_Size. rewrite E. destruct Hfit as [_ Ht].
    assert (forall es s, Forall (fun e => 0 <= NumSectors e) es -> 0 <= s -> s * 512 + total es < 2 ^ 63 ->
      foldl (fun sectors e => u64 (sectors + NumSectors e)) s es * 512 = s * 512 + total es) as Hfold.
    { clear. intros es. induction es as [|e es IH]; intros s Hes Hs Hlt; [cbn in *; lia|].
      apply Forall_cons in Hes as [He Hes]. pose proof (sp_total_nonneg _ Hes).
      assert (total (e :: es) = NumSectors e * 512 + total es) as Et by done. rewrite Et in *. cbn [foldl].
      rewrite wrap_u_id by lia. rewrite IH by (done || lia). lia. }
    pose proof (sp_total_nonneg _ Hns). unfold SectorSize at 1. rewrite Hfold by (done || lia).
    rewrite wrap_u_id, i64_id by lia. lia. }
  rewrite Hsz, E. split; [done|]. intros pos Hpos.
  destruct Hfit as [Hf Ht]. pose proof Hf as Hf'. apply Forall_cons in Hf as [(Hn1 & Htd & Hin) Hf].
  assert (TargetType first = TargetLinear) as El.
  { cbn [contiguous_run] in Hrun. destruct (negb _ || negb _) eqn:Elin; [done|]. lia. }
  specialize (Hin ltac:(rewrite El; done)). unfold SectorSize at 1.
  unfold SectorSize in Hin. rewrite wrap_u_id, i64_id by lia.
  by apply (sp_contiguous _ _ fsize _ None (TargetData first)).
Qed.

(** ** The metadata *)

Definition extent_ok (e : Extent) : Prop :=
  0 <= NumSectors e < 2 ^ 64 /\ 0 <= TargetType e < 2 ^ 32 /\
  0 <= TargetData e < 2 ^ 64 /\ 0 <= TargetSource e < 2 ^ 32.
Definition partition_ok (p : Partition) : Prop :=
  Name p <> [] /\ len (Name p) <= nameLen /\ Forall (fun c => 0 < c < 256) (Name p) /\
  Forall extent_ok (Extents p) /\ len (Extents p) <= maxEntries.
Definition geometry_ok (g : Geometry) : Prop :=
  0 <= MaxMetadataSize g < 2 ^ 32 /\ 1 <= SlotCount g <= maxSlots.
Definition metadata_ok (md : Metadata) : Prop :=
  geometry_ok (geometry md) /\ Partitions md <> [] /\ Forall partition_ok (Partitions md).

Lemma sp_cString b : bytes_ok b -> Forall (fun c => 0 < c < 256) (cString b) /\ len (cString b) <= len b.
Proof.
  induction 1 as [|c b Hc Hb [IH1 IH2]]; cbn [cString]; [split; [constructor|done]|].
  pose proof (len_nonneg b). destruct_if; rewrite ?len_cons; [split; [constructor|len_nils; lia]|].
  split; [|lia]. constructor; [unfold is_byte in Hc; lia|done].
Qed.

Lemma sp_read_extents ra `{!ReaderShape ra} tables d n : forall i,
  wp (read_extents ra tables d i n) (fun es => len es = Z.of_nat n /\ Forall extent_ok es) (fun _ => True).
Proof.
  induction n as [|n IH]; intros i; cbn [read_extents]; [cbn; split; [done|constructor]|].
  apply wp_bind, wp_read_or; [done| |done]. intros b _ Hb. specialize (Hb (bytes_ok_zeros _)).
  apply wp_bind. eapply wp_mono; [apply IH| |done]. intros es [Hl Hes]. cbn. rewrite len_cons.
  split; [lia|]. constructor; [|done]. unfold extent_ok; cbn.
  pose proof (le64_range b 0 Hb). pose proof (le32_range b 8 Hb). pose proof (le64_range b 12 Hb).
  pose proof (le32_range b 20 Hb). lia.
Qed.

Lemma sp_read_partitions ra `{!ReaderShape ra} tables d es n : forall i, 0 <= entrySize d < 2 ^ 32 ->
  len es <= maxEntries -> Forall extent_ok es ->
  wp (read_partitions ra tables d es i n) (Forall partition_ok) (fun _ => True).
Proof.
  intros i Hd Hl Hes. revert i. induction n as [|n IH]; intros i; cbn [read_partitions]; [constructor|].
  destruct_if; [done|]. rewrite make_ok by (unfold maxAlloc; lia). cbn [mbind go_bind].
  apply wp_bind, wp_read_or; [done| |done]. intros b Hb Hbs. specialize (Hbs (bytes_ok_zeros _)).
  rewrite len_replicate in Hb. rewrite (slice_ok b) by (unfold nameLen; lia). cbn [mbind go_bind].
  destruct (bool_decide_reflect (cString b.[0, nameLen] = [])); [apply IH|].
  pose proof (le32_range b 40 Hbs). pose proof (le32_range b 44 Hbs).
  rewrite (wrap_u_id 64) by lia. destruct_if; [done|]. change maxEntries with (2 ^ 20) in Hl. unfold nameLen.
  pose proof (len_nonneg es). rewrite (wrap_u_id 32), slice_ok by lia. cbn [mbind go_bind].
  apply wp_bind. eapply wp_mono; [apply IH| |done]. intros ps Hps. cbn. constructor; [|done].
  destruct (sp_cString b.[0, 36] (bytes_ok_sub _ _ _ Hbs)) as [Hc Hcl]. rewrite len_sub in Hcl by lia.
  unfold partition_ok; cbn [Name Extents]. split_and!; try done.
  - unfold sub. auto using Forall_take, Forall_drop.
  - rewrite len_sub by lia. change maxEntries with (2 ^ 20). lia.
Qed.

Lemma sp_check_tables size ds d : check_tables size ds = None -> d ∈ ds -> 0 <= entries d ->
  entries d <= maxEntries.
Proof.
  intros Hc Hd He. induction ds as [|d' ds IH]; [by apply elem_of_nil in Hd|]. cbn [check_tables] in Hc.
  destruct (check_table size d') eqn:E; [done|].
  apply elem_of_cons in Hd as [->|Hd]; [|auto]. unfold check_table in E.
  destruct (Z.eqb_spec (entries d') 0) as [->|]; [done|].
  destruct (Z.eqb_spec (entrySize d') 0), (Z.ltb_spec maxEntries (entries d')); try done.
Qed.

Lemma sp_readSlot ra `{!ReaderShape ra} slot geom : geometry_ok geom ->
  wp (readSlot ra slot geom) metadata_ok (fun _ => True).
Proof.
  intros Hg. unfold readSlot. apply wp_bind, wp_read_or; [done| |done]. intros hdr _ Hb.
  specialize (Hb (bytes_ok_zeros _)). destruct (negb _); [done|]. cbn zeta. destruct (_ || _); [done|].
  destruct (check_tables _ _) eqn:Hc; [done|].
  assert (forall i, 0 <= entries (read_table hdr i) < 2 ^ 32 /\ 0 <= entrySize (read_table hdr i) < 2 ^ 32) as Hr.
  { intros i. unfold read_table; cbn. split; by apply le32_range. }
  assert (entries (read_table hdr 1) <= maxEntries) as He.
  { eapply sp_check_tables; [done| |apply Hr]. cbn. set_solver. }
  apply wp_bind. eapply wp_mono; [by apply sp_read_extents| |done]. intros es [Hl Hes].
  pose proof (Hr 0). pose proof (Hr 1).
  apply wp_bind. eapply wp_mono; [apply sp_read_partitions; done || lia| |done]. intros ps Hps.
  destruct (bool_decide_reflect (ps = [])); [done|]. cbn. split_and!; done.
Qed.

(** The slots in the order they are tried. *)
Definition slots (origin : Z) (geom : Geometry) : list Z :=
  let primary := i64 (origin + GeometryOffset + 2 * GeometrySize) in
  let backup := i64 (primary + MaxMetadataSize geom * SlotCount geom) in
  let copy base := (fun slot => i64 (base + slot * MaxMetadataSize geom)) <$> seqZ 0 (SlotCount geom) in
  copy primary ++ copy backup.

(** The outcome of trying the slots [l] in turn. *)
Definition tried (ra : reader) (geom : Geometry) (l : list Z) (r : Metadata + list error) : Prop :=
  match r with
  | inl md => exists l1 s l2, l = l1 ++ s :: l2 /\ readSlot ra s geom = Ret md /\
                Forall (fun s => exists e, readSlot ra s geom = Err e) l1
  | inr errs => Forall2 (fun s e => readSlot ra s geom = Err e) l errs
  end.

Lemma sp_try_slots ra `{!ReaderShape ra} geom base n : geometry_ok geom -> forall slot firstErr,
  wp (try_slots ra geom base slot n firstErr) (fun r =>
    let l := (fun k => i64 (base + k * MaxMetadataSize geom)) <$> seqZ slot (Z.of_nat n) in
    match r with
    | inl md => metadata_ok md /\ tried ra geom l (inl md)
    | inr e => exists errs, tried ra geom l (inr errs) /\ e = head (option_list firstErr ++ errs)
    end) no_err.
Proof.
  intros Hg. induction n as [|n IH]; intros slot firstErr; cbn [try_slots].
  - cbn. exists []. split; [constructor|]. by destruct firstErr.
  - rewrite seqZ_cons by lia. rewrite fmap_cons. replace (Z.pred (Z.of_nat (S n))) with (Z.of_nat n) by lia.
    pose proof (sp_readSlot ra (i64 (base + slot * MaxMetadataSize geom)) geom Hg) as Hs.
    destruct (readSlot ra _ geom) as [md|e| |] eqn:E; try done.
    + cbn. split; [done|]. eexists [], _, _. split_and!; [done|done|constructor].
    + eapply wp_mono; [apply IH| |done]. intros [md|r]; cbn zeta beta iota; unfold Z.succ.
      * intros [Hmd (l1 & s & l2 & El & Hr & Hl1)]. split; [done|].
        exists (i64 (base + slot * MaxMetadataSize geom) :: l1), s, l2. rewrite El.
        split_and!; [done|done|]. constructor; eauto.
      * intros (errs & Ht & ->). exists (e :: errs). split; [by constructor|]. by destruct firstErr.
Qed.

(** Opening a super partition: with a readable and plausible geometry, [Open]
    returns the metadata of the first slot, primary copies before backup copies,
    that validates, however many before it are damaged; when none does it returns
    an error that wraps the first slot's. There is no panic, and what is returned is
    well formed: at least one partition, non-empty names, extents taken from the
    table. *)
Theorem super_open_first_slot ra org geom : ReaderShape ra ->
  readGeometry ra org = Ret geom -> 0 < MaxMetadataSize geom <= maxMetadataSize ->
  (exists md, Open ra org = Ret md /\ metadata_ok md /\ tried ra geom (slots org geom) (inl md)) \/
  (exists e errs, Open ra org = Err (Wrapf "no readable super metadata slot: %w" e) /\
     tried ra geom (slots org geom) (inr (e :: errs))).
Proof.
  intros Hra Hgeom Hmax.
  assert (geometry_ok geom) as Hg.
  { assert (wp (readGeometry ra org) geometry_ok (fun _ => True)) as Hw; [|by rewrite Hgeom in Hw].
    unfold readGeometry. apply wp_bind, wp_read_or; [done| |done]. intros b _ Hb. specialize (Hb (bytes_ok_zeros _)).
    do 2 (destruct_if; [|done || idtac]); try done. cbn zeta.
    pose proof (le32_range b 44 Hb). pose proof (le32_range b 40 Hb).
    unfold geometry_ok, maxSlots in *. destruct (Z.eqb_spec (le32 b 44) 0); destruct_if; cbn; done || lia. }
  unfold Open. rewrite Hgeom. cbn [mbind go_bind]. cbn zeta.
  do 2 (destruct_if; [lia|]). cbn [orb]. unfold slots. cbn zeta.
  set (primary := i64 (org + _ + _)). set (backup := i64 (primary + _)).
  assert (Z.of_nat (Z.to_nat (SlotCount geom)) = SlotCount geom) as En by (destruct Hg; lia).
  destruct (wp_no_err_Ret _ _ (sp_try_slots ra geom primary (Z.to_nat (SlotCount geom)) Hg 0 None)) as (r1 & -> & H1).
  rewrite En in H1. cbn [mbind go_bind]. destruct r1 as [md|e1]; cbn zeta beta iota in H1.
  { left. exists md. destruct H1 as [Hmd (l1 & s & l2 & -> & Hs & Hl1)]. split_and!; [done|done|].
    eexists l1, s, _. by rewrite <-(assoc app). }
  destruct H1 as (errs1 & Ht1 & ->).
  destruct (wp_no_err_Ret _ _ (sp_try_slots ra geom backup (Z.to_nat (SlotCount geom)) Hg 0 (head (option_list None ++ errs1)))) as (r2 & -> & H2).
  rewrite En in H2. cbn [mbind go_bind]. destruct r2 as [md|e2]; cbn zeta beta iota in H2.
  { left. exists md. destruct H2 as [Hmd (l1 & s & l2 & -> & Hs & Hl1)]. split_and!; [done|done|].
    eexists (_ ++ l1), s, l2. rewrite (assoc app). split_and!; [done|done|].
    apply Forall_app_2; [|done]. eapply Forall2_Forall_l; [done|]. apply Forall_true. eauto. }
  destruct H2 as (errs2 & Ht2 & ->). right.
  pose proof (Forall2_length _ _ _ Ht1) as Hlen. rewrite length_fmap, length_seqZ in Hlen.
  destruct errs1 as [|e errs1]; [destruct Hg; cbn in Hlen; lia|]. cbn.
  exists e, (errs1 ++ errs2). split; [done|]. change (e :: errs1 ++ errs2) with ((e :: errs1) ++ errs2).
  by apply Forall2_app.
Qed.

(** ** Witnesses *)

Definition sample_file : list Z := replicate 512 1 ++ replicate 512 2 ++ replicate 512 3.
Definition sample_partition : Partition :=
  mkPartition [97] 0 [mkExtent 1 0 2 0; mkExtent 1 1 0 0; mkExtent 1 0 1 0].
Definition sample_mapping : Mapping :=
  mkMapping (file_reader sample_file) 0 (Extents sample_partition) [0; 512; 1024] 1536.

Lemma sp_sample_bytes : bytes_ok sample_file.
Proof. apply bytes_okb_ok. reflexivity. Defined.

Lemma sp_sample_fit : extents_fit 1536 0 (Extents sample_partition).
Proof. split; [|reflexivity]. repeat apply Forall_cons_2; try apply Forall_nil_2; (split_and!; [done..|]; vm_compute; intros; congruence). Defined.

Lemma super_read_safe_witness :
  wp (ReadAt sample_mapping [9; 9] 511) (fun v => len (r_buf v) = 2 /\ 0 <= r_n v <= 2 /\ (bytes_ok [9; 9] -> bytes_ok (r_buf v))) no_err.
Proof.
  apply (super_read_safe (file_reader sample_file) 0 sample_partition sample_mapping);
    [apply file_shape, sp_sample_bytes|reflexivity|reflexivity|reflexivity].
Defined.

Lemma super_read_refines_witness :
  ReadAt sample_mapping (replicate 516 9) 510 = Ret (mkR ([3; 3] ++ replicate 512 0 ++ [2; 2]) 516 None).
Proof.
  rewrite (super_read_refines (file_reader sample_file) 0 sample_partition sample_mapping 1536 (file_content sample_file));
    [vm_compute; reflexivity|apply file_device; [apply sp_sample_bytes|reflexivity]|apply sp_sample_fit|done|reflexivity|reflexivity|done|reflexivity].
Defined.

Lemma super_contiguous_is_range_witness :
  Contiguous (mkPartition [97] 0 [mkExtent 1 0 1 0; mkExtent 1 0 2 0]) = (512, 1024, true) /\
  stitched (file_content sample_file) 0 [mkExtent 1 0 1 0; mkExtent 1 0 2 0] 600 = file_content sample_file (0 + 512 + 600).
Proof.
  split; [reflexivity|].
  apply (super_contiguous_is_range (file_content sample_file) 1536 0 (mkPartition [97] 0 [mkExtent 1 0 1 0; mkExtent 1 0 2 0]) 512 1024);
    [|done|reflexivity|reflexivity|lia].
  split; [|reflexivity]. repeat apply Forall_cons_2; try apply Forall_nil_2; (split_and!; [done..|]; vm_compute; intros; congruence).
Defined.

(** A super with two slots, the first of them damaged. *)
Definition sample_super : list Z :=
  let geom := patch (patch (patch (patch (replicate 52 0) 0 (put_le 4 GeometryMagic)) 4 (put_le 4 52)) 40 (put_le 4 512)) 44 (put_le 4 2) in
  let hdr := patch (patch (patch (replicate 128 0) 0 (put_le 4 HeaderMagic)) 8 (put_le 4 128)) 44 (put_le 4 76) in
  let hdr := patch (patch hdr 84 (put_le 4 1)) 88 (put_le 4 52) in
  let hdr := patch (patch (patch hdr 92 (put_le 4 52)) 96 (put_le 4 1)) 100 (put_le 4 24) in
  let entry := patch (patch (replicate 52 0) 0 [97; 98]) 44 (put_le 4 1) in
  let extent := put_le 8 1 ++ put_le 4 0 ++ put_le 8 2 ++ put_le 4 0 in
  replicate 4096 0 ++ geom ++ replicate (8192 - 52 + 512) 0 ++ hdr ++ entry ++ extent.

Lemma sp_super_bytes : bytes_ok sample_super.
Proof. apply bytes_okb_ok. vm_compute. reflexivity. Defined.

Lemma super_open_first_slot_witness :
  Open (file_reader sample_super) 0 = Ret (mkMetadata (mkGeometry 512 2 0) [mkPartition [97; 98] 0 [mkExtent 1 0 2 0]]) /\
  exists md, Open (file_reader sample_super) 0 = Ret md /\ metadata_ok md.
Proof.
  split; [vm_compute; reflexivity|].
  destruct (super_open_first_slot (file_reader sample_super) 0 (mkGeometry 512 2 0)) as [(md & H & Hok & _)|(e & errs & H & _)].
  - apply file_shape, sp_super_bytes.
  - vm_compute. reflexivity.
  - vm_compute. split; congruence.
  - exists md. split; [exact H|exact Hok].
  - exfalso. vm_compute in H. discriminate H.
Defined.
