(* ===== verification/Text.v ===== *)
(** * Text: Go strings
    A string is its bytes. Conversion to and from runes (UTF-8 with the replacement
    character for what is malformed), the padding of [fmt.Sprintf], and the functions
    of [strings] and [path] the FAT code calls. *)
From S2P Require Import Prelude Bytes.

Abbreviation gostring := (list Z).

Definition RuneError : Z := 0xFFFD.

(** ** Decoding *)

Definition within (lo hi x : Z) : bool := (lo <=? x) && (x <=? hi).
Definition cont (b : Z) : Z := Z.land b 0x3F.

(** The range the second byte must lie in, after the first byte of a sequence. *)
Definition second_range (b0 : Z) : Z * Z :=
  if b0 =? 0xE0 then (0xA0, 0xBF)
  else if b0 =? 0xED then (0x80, 0x9F)
  else if b0 =? 0xF0 then (0x90, 0xBF)
  else if b0 =? 0xF4 then (0x80, 0x8F)
  else (0x80, 0xBF).

(** [utf8.DecodeRune] on a string that is not empty: the rune and what follows it. *)
Definition decode_rune (b0 : Z) (rest : gostring) : Z * gostring :=
  let bad := (RuneError, rest) in
  let '(lo, hi) := second_range b0 in
  if b0 <? 0x80 then (b0, rest)
  else if within 0xC2 0xDF b0 then
    match rest with
    | b1 :: rest1 => if within lo hi b1 then (Z.land b0 0x1F * 64 + cont b1, rest1) else bad
    | _ => bad
    end
  else if within 0xE0 0xEF b0 then
    match rest with
    | b1 :: b2 :: rest2 =>
        if within lo hi b1 && within 0x80 0xBF b2
        then ((Z.land b0 0x0F * 64 + cont b1) * 64 + cont b2, rest2) else bad
    | _ => bad
    end
  else if within 0xF0 0xF4 b0 then
    match rest with
    | b1 :: b2 :: b3 :: rest3 =>
        if within lo hi b1 && within 0x80 0xBF b2 && within 0x80 0xBF b3
        then (((Z.land b0 0x07 * 64 + cont b1) * 64 + cont b2) * 64 + cont b3, rest3) else bad
    | _ => bad
    end
  else bad.

Fixpoint runes_fuel (n : nat) (s : gostring) : list Z :=
  match n, s with
  | S n', b0 :: rest => let '(r, rest') := decode_rune b0 rest in r :: runes_fuel n' rest'
  | _, _ => []
  end.

(** [[]rune(s)]. *)
Definition runes (s : gostring) : list Z := runes_fuel (length s) s.

(** [utf8.AppendRune]: surrogates and values out of range become the replacement
    character. *)
Definition encode_rune (r : Z) : gostring :=
  let r := if within 0 0x10FFFF r && negb (within 0xD800 0xDFFF r) then r else RuneError in
  if r <? 0x80 then [r]
  else if r <? 0x800 then [0xC0 + r / 64; 0x80 + r mod 64]
  else if r <? 0x10000 then [0xE0 + r / 4096; 0x80 + r / 64 mod 64; 0x80 + r mod 64]
  else [0xF0 + r / 262144; 0x80 + r / 4096 mod 64; 0x80 + r / 64 mod 64; 0x80 + r mod 64].

(** [string(r)] of a rune slice. *)
Definition string_of_runes (r : list Z) : gostring := r ≫= encode_rune.

(** ** Formatting and searching *)

Definition spaces (n : Z) : gostring := replicate (Z.to_nat n) 32.

(** [fmt.Sprintf("%-<n>s", s)]: the width counts runes. *)
Definition pad_right (n : Z) (s : gostring) : gostring := s ++ spaces (n - len (runes s)).

(** The first [n] runes of a string, with the bytes they have in it. *)
Fixpoint take_runes (n : nat) (s : gostring) : gostring :=
  match n, s with
  | S n', b0 :: rest =>
      let '(_, rest') := decode_rune b0 rest in
      take (length s - length rest') s ++ take_runes n' rest'
  | _, _ => []
  end.

(** [fmt.Sprintf("%-<n>.<n>s", s)]. *)
Definition pad_exact (n : Z) (s : gostring) : gostring := pad_right n (take_runes (Z.to_nat n) s).

(** [regexp.MustCompile(" +$").ReplaceAllString(s, "")]. *)
Fixpoint trim_spaces (s : gostring) : gostring :=
  match s with
  | [] => []
  | c :: rest =>
      match trim_spaces rest with
      | [] => if c =? 32 then [] else [c]
      | t => c :: t
      end
  end.

(** [strings.LastIndex(s, c)] for a one-byte [c]. *)
Fixpoint last_index_from (c : Z) (s : gostring) (i found : Z) : Z :=
  match s with
  | [] => found
  | x :: rest => last_index_from c rest (i + 1) (if x =? c then i else found)
  end.
Definition last_index (c : Z) (s : gostring) : Z := last_index_from c s 0 (-1).

(** [strings.Split(s, c)] for a one-byte [c]. *)
Fixpoint split_on (c : Z) (s : gostring) : list gostring :=
  match s with
  | [] => [[]]
  | x :: rest =>
      match split_on c rest with
      | [] => [[]]
      | w :: ws => if x =? c then [] :: w :: ws else (x :: w) :: ws
      end
  end.

Fixpoint join (c : Z) (l : list gostring) : gostring :=
  match l with
  | [] => []
  | [w] => w
  | w :: ws => w ++ c :: join c ws
  end.

(** [fmt.Sprintf("%d", n)]. *)
Fixpoint digits_fuel (n : nat) (v : Z) (acc : gostring) : gostring :=
  match n with
  | O => acc
  | S n' => let acc := 48 + v mod 10 :: acc in if v <? 10 then acc else digits_fuel n' (v / 10) acc
  end.
Definition decimal (v : Z) : gostring := digits_fuel 20 v [].

(** A literal of the source. *)
Definition lit (s : string) : gostring := map (fun c => Z.of_nat (Ascii.nat_of_ascii c)) (String.list_ascii_of_string s).

(** ** Case
    The Unicode tables beyond ASCII: [unicode.ToLower], and whether two runes lie on
    one orbit of [unicode.SimpleFold]. *)
Class UnicodeTables := { table_lower : Z -> Z; table_fold_eq : Z -> Z -> bool }.

Section case.
Context `{UnicodeTables}.

Definition rune_lower (r : Z) : Z := if r <? 0x80 then (if within 65 90 r then r + 32 else r) else table_lower r.
Definition to_lower (s : gostring) : gostring := string_of_runes (map rune_lower (runes s)).

Definition rune_fold_eq (a b : Z) : bool :=
  if a =? b then true
  else let lo := Z.min a b in let hi := Z.max a b in
       if hi <? 0x80 then within 65 90 lo && (hi =? lo + 32)
       else table_fold_eq a b.

Fixpoint runes_fold_eq (a b : list Z) : bool :=
  match a, b with
  | [], [] => true
  | x :: a', y :: b' => rune_fold_eq x y && runes_fold_eq a' b'
  | _, _ => false
  end.

(** [strings.EqualFold]. *)
Definition equal_fold (s t : gostring) : bool := runes_fold_eq (runes s) (runes t).
End case.

(** Tables for texts without letters beyond ASCII. *)
Definition ascii_tables : UnicodeTables := {| table_lower r := r; table_fold_eq a b := a =? b |}.

(** ** Paths *)

Definition slash : Z := 47.
Definition dot : gostring := [46].
Definition dotdot : gostring := [46; 46].

(** One element of a path, on the stack of the elements kept so far (the last first). *)
Definition clean_step (rooted : bool) (stack : list gostring) (w : gostring) : list gostring :=
  if decide (w = [] \/ w = dot) then stack
  else if decide (w = dotdot) then
    match stack with
    | [] => if rooted then [] else [dotdot]
    | top :: below => if decide (top = dotdot) then dotdot :: stack else below
    end
  else w :: stack.

(** [path.Clean]. *)
Definition clean (p : gostring) : gostring :=
  let rooted := match p with c :: _ => c =? slash | [] => false end in
  let kept := rev (foldl (clean_step rooted) [] (split_on slash p)) in
  let body := join slash kept in
  if rooted then slash :: body else match kept with [] => dot | _ => body end.

(** [path.Dir] and [path.Base]. *)
Definition Dir (p : gostring) : gostring := clean (take (Z.to_nat (last_index slash p + 1)) p).

Fixpoint drop_trailing (c : Z) (s : gostring) : gostring :=
  match s with
  | [] => []
  | x :: rest =>
      match drop_trailing c rest with
      | [] => if x =? c then [] else [x]
      | t => x :: t
      end
  end.

Definition Base (p : gostring) : gostring :=
  match p with
  | [] => dot
  | _ =>
      let s := drop_trailing slash p in
      match drop (Z.to_nat (last_index slash s + 1)) s with
      | [] => [slash]
      | w => w
      end
  end.

(** ** Lemmas *)

Definition is_ascii (c : Z) : Prop := 0 <= c < 0x80.
Abbreviation ascii_ok := (Forall is_ascii).

Lemma ascii_bytes s : ascii_ok s -> bytes_ok s.
Proof. intros Hs. eapply Forall_impl; [done|]. unfold is_ascii, is_byte. lia. Qed.

Lemma decode_ascii b rest : is_ascii b -> decode_rune b rest = (b, rest).
Proof.
  intros Hb. unfold decode_rune. destruct (second_range b).
  by rewrite (proj2 (Z.ltb_lt b 0x80)) by apply Hb.
Qed.

Lemma runes_ascii s : ascii_ok s -> runes s = s.
Proof.
  unfold runes. induction 1 as [|b s Hb Hs IH]; [done|]. cbn [length runes_fuel]. by rewrite decode_ascii, IH.
Qed.

Lemma encode_ascii r : is_ascii r -> encode_rune r = [r].
Proof.
  intros Hr. unfold is_ascii in Hr. unfold encode_rune, within.
  rewrite (proj2 (Z.leb_le 0 r)), (proj2 (Z.leb_le r 0x10FFFF)), (proj2 (Z.leb_gt 0xD800 r)) by lia. cbn [andb negb].
  by rewrite (proj2 (Z.ltb_lt r 0x80)) by lia.
Qed.

Lemma string_of_ascii s : ascii_ok s -> string_of_runes s = s.
Proof.
  induction 1 as [|b s Hb Hs IH]; [done|]. unfold string_of_runes in *. cbn. by rewrite encode_ascii, IH.
Qed.

Lemma string_of_runes_app a b : string_of_runes (a ++ b) = string_of_runes a ++ string_of_runes b.
Proof. apply bind_app. Qed.

Lemma len_pad_right n s : ascii_ok s -> len s <= n -> len (pad_right n s) = n.
Proof.
  intros Hs Hl. unfold pad_right, spaces. rewrite runes_ascii by done. rewrite len_app, len_replicate.
  pose proof (len_nonneg s). lia.
Qed.

Lemma trim_spaces_only n : trim_spaces (replicate n 32) = [].
Proof. induction n as [|n IH]; [done|]. cbn. by rewrite IH. Qed.

(** A name without trailing spaces comes back from its padded form. *)
Definition no_trailing_space (s : gostring) : Prop := last s <> Some 32.

Lemma trim_spaces_id s n : no_trailing_space s -> trim_spaces (s ++ replicate n 32) = s.
Proof.
  unfold no_trailing_space. induction s as [|c s IH]; intros Hl; [apply trim_spaces_only|]. cbn [app trim_spaces].
  destruct s as [|d s].
  - rewrite IH by done. destruct (Z.eqb_spec c 32); [|done]. subst. done.
  - rewrite IH by done. done.
Qed.

Lemma trim_pad n s : ascii_ok s -> no_trailing_space s -> trim_spaces (pad_right n s) = s.
Proof. intros. unfold pad_right, spaces. by apply trim_spaces_id. Qed.

(** ** UTF-8 round trip *)

(** The values a rune of a valid string has. *)
Definition scalar (r : Z) : Prop := 0 <= r <= 0x10FFFF /\ ~ (0xD800 <= r <= 0xDFFF).

Lemma cont_add x : 0 <= x < 64 -> cont (0x80 + x) = x.
Proof.
  intros. unfold cont. change 0x3F with (2 ^ 6 - 1). rewrite land_mask by lia.
  change 0x80 with (2 * 2 ^ 6). rewrite Z.add_comm, Z_mod_plus_full. apply Z.mod_small. lia.
Qed.

Lemma lead_add c n x : 0 <= n -> 0 <= x < 2 ^ n -> Z.land (c * 2 ^ n + x) (2 ^ n - 1) = x.
Proof.
  intros. rewrite land_mask by lia. rewrite Z.add_comm, Z_mod_plus_full. by apply Z.mod_small.
Qed.

#[local] Ltac Zify.zify_post_hook ::= Z.div_mod_to_equations.

Ltac decide_tests :=
  repeat match goal with
  | |- context [?x <? ?y] => first [rewrite (proj2 (Z.ltb_lt x y)) by lia | rewrite (proj2 (Z.ltb_ge x y)) by lia]
  | |- context [?x <=? ?y] => first [rewrite (proj2 (Z.leb_le x y)) by lia | rewrite (proj2 (Z.leb_gt x y)) by lia]
  | |- context [?x =? ?y] => first [rewrite (proj2 (Z.eqb_eq x y)) by lia | rewrite (proj2 (Z.eqb_neq x y)) by lia]
  end; cbn [andb negb orb].

Lemma decode_encode r rest : scalar r ->
  exists b0 bs, encode_rune r = b0 :: bs /\ decode_rune b0 (bs ++ rest) = (r, rest).
Proof.
  intros [Hr Hs]. unfold encode_rune, within.
  assert ((0 <=? r) && (r <=? 1114111) && negb ((55296 <=? r) && (r <=? 57343)) = true) as ->.
  { destruct (Z.leb_spec 55296 r), (Z.leb_spec r 57343); try lia; decide_tests; done. }
  destruct (Z.ltb_spec r 0x80) as [|H1]; [|destruct (Z.ltb_spec r 0x800) as [|H2]; [|destruct (Z.ltb_spec r 0x10000) as [|H3]]];
    eexists _, _; (split; [done|]); cbn [app].
  - apply decode_ascii. unfold is_ascii. lia.
  - unfold decode_rune, second_range, within. decide_tests. rewrite cont_add by lia.
    rewrite (lead_add 6 5) by lia. f_equal. lia.
  - unfold decode_rune, within. destruct (second_range (224 + r / 4096)) as [lo hi] eqn:E.
    assert (lo <= 128 + r / 64 mod 64 <= hi) as Hb.
    { unfold second_range in E. destruct (Z.eqb_spec (224 + r / 4096) 224), (Z.eqb_spec (224 + r / 4096) 237); try lia;
        revert E; decide_tests; intros [= <- <-]; lia. }
    decide_tests. rewrite !cont_add by lia. rewrite (lead_add 14 4) by lia. f_equal. lia.
  - unfold decode_rune, within. destruct (second_range (240 + r / 262144)) as [lo hi] eqn:E.
    assert (lo <= 128 + r / 4096 mod 64 <= hi) as Hb.
    { unfold second_range in E. destruct (Z.eqb_spec (240 + r / 262144) 240), (Z.eqb_spec (240 + r / 262144) 244); try lia;
        revert E; decide_tests; intros [= <- <-]; lia. }
    decide_tests. rewrite !cont_add by lia. rewrite (lead_add 30 3) by lia. f_equal. lia.
Qed.

Lemma runes_fuel_more n m s : (length s <= n)%nat -> (length s <= m)%nat -> runes_fuel n s = runes_fuel m s.
Proof.
  assert (forall b0 rest r rest', decode_rune b0 rest = (r, rest') -> (length rest' <= length rest)%nat) as Hd.
  { intros b0 rest r rest'. unfold decode_rune. destruct (second_range b0).
    repeat (case_match; try (intros [= <- <-]; cbn in *; lia)). }
  revert m s. induction n as [|n IH]; intros m s Hn Hm; destruct s as [|b s]; try (cbn in *; lia); [by destruct m|by destruct m|].
  destruct m as [|m]; [cbn in *; lia|]. cbn [runes_fuel]. destruct (decode_rune b s) as [r rest] eqn:E.
  specialize (Hd _ _ _ _ E). f_equal. apply IH; cbn in *; lia.
Qed.

(** What was encoded is decoded again. *)
Lemma runes_string rs : Forall scalar rs -> runes (string_of_runes rs) = rs.
Proof.
  induction 1 as [|r rs Hr Hrs IH]; [done|]. unfold string_of_runes in *. cbn [mbind list_bind].
  destruct (decode_encode r (rs ≫= encode_rune) Hr) as (b0 & bs & -> & Hd). cbn [app].
  unfold runes. cbn [length runes_fuel]. rewrite Hd. f_equal. etransitivity; [|exact IH]. unfold runes.
  apply runes_fuel_more; [|lia]. rewrite length_app. lia.
Qed.

(** ** Padding and trimming *)

Lemma length_runes s : (length (runes s) <= length s)%nat.
Proof.
  unfold runes. generalize (length s) as n. intros n. revert s. induction n as [|n IH]; intros s; [cbn; lia|].
  destruct s as [|b s]; [cbn; lia|]. cbn [runes_fuel]. destruct (decode_rune b s). cbn [length]. specialize (IH l). lia.
Qed.

Lemma trim_restore s : exists n, s = trim_spaces s ++ replicate n 32.
Proof.
  induction s as [|c s [n IH]]; [by exists 0%nat|]. cbn [trim_spaces]. destruct (trim_spaces s) as [|d t] eqn:E.
  - destruct (Z.eqb_spec c 32) as [->|]; [exists (S n); cbn; by f_equal|exists n; cbn; by f_equal].
  - exists n. cbn. by f_equal.
Qed.

(** A field of [n] bytes that was trimmed and is padded again, in a field as long. *)
Lemma take_pad_trim n m s : len s = n -> n <= m -> take (Z.to_nat n) (pad_right m (trim_spaces s)) = s.
Proof.
  intros Hl Hm. destruct (trim_restore s) as [k E]. unfold pad_right, spaces.
  set (t := trim_spaces s) in *. pose proof (length_runes t) as Hr.
  assert (len t + Z.of_nat k = n) as Hk by (rewrite <-Hl, E, len_app, len_replicate; done).
  unfold len in *. rewrite take_app_ge by lia. rewrite take_replicate, E. f_equal. f_equal. lia.
Qed.

Lemma take_pad n m s : len s = n -> take (Z.to_nat n) (pad_right m s) = s.
Proof. intros Hl. unfold pad_right. unfold len in Hl. rewrite take_app_le by lia. apply take_ge. lia. Qed.

Lemma trim_spaces_len s : len (trim_spaces s) <= len s.
Proof. destruct (trim_restore s) as [n E]. rewrite E at 2. rewrite len_app, len_replicate. lia. Qed.

(** ** [io/fs.ValidPath] *)

Definition valid_utf8 (s : gostring) : bool := bool_decide (string_of_runes (runes s) = s).
Definition ValidPath (name : gostring) : bool :=
  valid_utf8 name &&
  (bool_decide (name = dot) ||
   forallb (fun w => bool_decide (w <> [] /\ w <> dot /\ w <> dotdot)) (split_on slash name)).
