(* ===== verification/LvmScan.v ===== *)
(** * LvmScan: the scanner of LVM2 metadata (lvm2/lvm2.go)

    The scanner of the source is its data and a position; what is before the position is
    only read again as the text of a token, so a scanner is here the bytes that are left, and
    a method that returns text returns what it consumed. [peek] and [advance] are the head and
    the tail. The functions of packages strings, bytes and strconv that the parser
    calls come first. *)

From S2P Require Import Prelude Bytes Text.

(** ** strings, bytes, strconv *)

(** The runes of [unicode.IsSpace], encoded: what [strings.TrimSpace] removes. *)
Definition space_runes : list gostring :=
  [[9]; [10]; [11]; [12]; [13]; [32]] ++
  (encode_rune <$> [0x85; 0xA0; 0x1680; 0x2000; 0x2001; 0x2002; 0x2003; 0x2004; 0x2005; 0x2006; 0x2007; 0x2008; 0x2009; 0x200A;
                    0x2028; 0x2029; 0x202F; 0x205F; 0x3000]).

(** [strings.HasPrefix] and [strings.TrimPrefix]. *)
Fixpoint cut_prefix (p s : gostring) : option gostring :=
  match p, s with
  | [], _ => Some s
  | a :: p', b :: s' => if a =? b then cut_prefix p' s' else None
  | _, [] => None
  end.
Definition TrimPrefix (s p : gostring) : gostring := default s (cut_prefix p s).
Definition TrimSuffix (s p : gostring) : gostring := default s (reverse <$> cut_prefix (reverse p) (reverse s)).

(** The first of the sequences that [s] starts with, removed. *)
Fixpoint cut_any (ps : list gostring) (s : gostring) : option gostring :=
  match ps with
  | [] => None
  | p :: ps' => match cut_prefix p s with Some r => Some r | None => cut_any ps' s end
  end.
Fixpoint trim_left (ps : list gostring) (n : nat) (s : gostring) : gostring :=
  match n with
  | O => s
  | S n' => match cut_any ps s with Some r => trim_left ps n' r | None => s end
  end.
Definition TrimSpace (s : gostring) : gostring :=
  let l := trim_left space_runes (length s) s in reverse (trim_left (reverse <$> space_runes) (length l) (reverse l)).

(** [strings.FieldsFunc], for a test that only holds of ASCII characters: no byte of a longer
    sequence, well-formed or not, is one. *)
Fixpoint FieldsFunc (f : Z -> bool) (s : gostring) (field : gostring) : list gostring :=
  match s with
  | [] => match field with [] => [] | _ => [reverse field] end
  | c :: s' =>
      if f c then match field with [] => FieldsFunc f s' [] | _ => reverse field :: FieldsFunc f s' [] end
      else FieldsFunc f s' (c :: field)
  end.

(** [bytes.ReplaceAll(b, []byte{0}, nil)] *)
Definition stripNUL (b : gostring) : gostring := filter (fun c => c <> 0) b.

(** [bytes.Index]: the place of the first occurrence, or nothing. *)
Fixpoint Index (s needle : gostring) : option nat :=
  match cut_prefix needle s with
  | Some _ => Some O
  | None => match s with [] => None | _ :: s' => S <$> Index s' needle end
  end.

(** [strconv.ParseUint(s, 10, 64)]: the value, and whether it failed; a number that is too
    large is noticed before what follows it is looked at. *)
Inductive num_error := ErrSyntax | ErrRange.
Definition maxUint64 : Z := 2 ^ 64 - 1.
Fixpoint parse_digits (s : gostring) (n : Z) : Z * option num_error :=
  match s with
  | [] => (n, None)
  | c :: s' =>
      if within 48 57 c then
        if maxUint64 / 10 + 1 <=? n then (maxUint64, Some ErrRange)
        else let n1 := n * 10 + (c - 48) in
             if maxUint64 <? n1 then (maxUint64, Some ErrRange) else parse_digits s' n1
      else (0, Some ErrSyntax)
  end.
Definition ParseUint (s : gostring) : Z * option num_error := match s with [] => (0, Some ErrSyntax) | _ => parse_digits s 0 end.

(** [strconv.ParseInt(s, 10, 64)] *)
Definition ParseInt (s : gostring) : Z * option num_error :=
  match s with
  | [] => (0, Some ErrSyntax)
  | c :: s' =>
      let neg := c =? 45 in
      let digits := if (c =? 43) || (c =? 45) then s' else s in
      let '(un, err) := ParseUint digits in
      match err with
      | Some ErrSyntax => (0, Some ErrSyntax)
      | _ =>
          if negb neg && (2 ^ 63 <=? un) then (2 ^ 63 - 1, Some ErrRange)
          else if neg && (2 ^ 63 <? un) then (- 2 ^ 63, Some ErrRange)
          else ((if neg then - un else un), None)
      end
  end.

Definition parseInt64 (s : gostring) : Z := fst (ParseInt (TrimSpace s)).

(** ** The scanner *)

Abbreviation scanner := (list Z).

Definition eof (s : scanner) : bool := match s with [] => true | _ => false end.

(** [s.consume(b)], for a [b] other than the zero that [peek] gives at the end. *)
Definition consume (b : Z) (s : scanner) : bool * scanner :=
  match s with
  | c :: s' => if c =? b then (true, s') else (false, s)
  | [] => (false, s)
  end.

Fixpoint skipToLineEnd (s : scanner) : scanner :=
  match s with
  | [] => []
  | c :: s' => if c =? 10 then s else skipToLineEnd s'
  end.

Definition is_space (c : Z) : bool := (c =? 32) || (c =? 9) || (c =? 10) || (c =? 13).

(** The loop of [skipSpaceAndComments], which every round makes shorter. *)
Fixpoint skip_loop (n : nat) (s : scanner) : scanner :=
  match n, s with
  | S n', c :: s' =>
      if c =? 35 then skip_loop n' (skipToLineEnd s)
      else if is_space c then skip_loop n' s' else s
  | _, _ => s
  end.

(** The error is [io.EOF] when nothing is left. *)
Definition skipSpaceAndComments (s : scanner) : scanner := skip_loop (length s) s.

Fixpoint skipInlineSpace (s : scanner) : scanner :=
  match s with
  | c :: s' => if (c =? 32) || (c =? 9) then skipInlineSpace s' else s
  | [] => []
  end.

Definition consumeWithSpace (b : Z) (s : scanner) : bool * scanner := consume b (skipInlineSpace s).

Definition isIdentByte (c : Z) : bool :=
  (0 <? c) && negb (c =? 32) && negb (c =? 9) && negb (c =? 10) && negb (c =? 13) && negb (c =? 61) && negb (c =? 123) && negb (c =? 125).

Fixpoint readIdent (s : scanner) : gostring * scanner :=
  match s with
  | c :: s' => if isIdentByte c then let '(w, r) := readIdent s' in (c :: w, r) else ([], s)
  | [] => ([], [])
  end.

(** The three kinds of value: a quoted string after its first quote, a list after [depth]
    of its brackets, a token. *)
Fixpoint read_quoted (s : scanner) : gostring * scanner :=
  match s with
  | [] => ([], [])
  | c :: s' =>
      match s' with
      | d :: s'' =>
          if c =? 92 then let '(w, r) := read_quoted s'' in (d :: w, r)
          else if c =? 34 then ([], s')
          else let '(w, r) := read_quoted s' in (c :: w, r)
      | [] => if c =? 34 then ([], []) else ([c], [])
      end
  end.

Fixpoint read_list (depth : Z) (s : scanner) : gostring * scanner :=
  match s with
  | [] => ([], [])
  | c :: s' =>
      let depth := if c =? 91 then depth + 1 else if c =? 93 then depth - 1 else depth in
      if (c =? 93) && (depth =? 0) then ([c], s')
      else let '(w, r) := read_list depth s' in (c :: w, r)
  end.

Definition readValue (s : scanner) : gostring * scanner :=
  let s := skipSpaceAndComments s in
  match s with
  | [] => ([], [])
  | c :: s' =>
      if c =? 34 then read_quoted s'
      else if c =? 91 then let '(w, r) := read_list 0 s in (TrimSpace w, r)
      else readIdent s
  end.

Fixpoint skip_block (depth : Z) (s : scanner) : go scanner :=
  match s with
  | [] => Err (Errorf "LVM2 metadata: unterminated block")
  | c :: s' =>
      if c =? 123 then skip_block (depth + 1) s'
      else if c =? 125 then if depth - 1 =? 0 then mret s' else skip_block (depth - 1) s'
      else skip_block depth s'
  end.
Definition skipBlock (s : scanner) : go scanner := skip_block 1 s.

(** ** Nothing is read twice *)

Lemma line_end_length s : (length (skipToLineEnd s) <= length s)%nat.
Proof. induction s as [|c s IH]; cbn; [done|]. destruct (c =? 10); cbn; lia. Qed.

Lemma skip_loop_length n : forall s, (length (skip_loop n s) <= length s)%nat.
Proof.
  induction n as [|n IH]; intros [|c s]; cbn; try done. destruct (c =? 35) eqn:E; [|destruct (is_space c)].
  - pose proof (IH (if c =? 10 then c :: s else skipToLineEnd s)). pose proof (line_end_length (c :: s)) as Hl. cbn in Hl. lia.
  - pose proof (IH s). lia.
  - cbn. lia.
Qed.

Lemma skip_length s : (length (skipSpaceAndComments s) <= length s)%nat.
Proof. apply skip_loop_length. Qed.

(** What the scanner stands on after blanks and comments. *)
Definition at_token (s : scanner) : Prop := match s with [] => True | c :: _ => c <> 35 /\ is_space c = false end.

Lemma skip_loop_token n : forall s, (length s <= n)%nat -> at_token (skip_loop n s).
Proof.
  induction n as [|n IH]; intros [|c s] Hl; cbn in Hl; try done; [lia|]. cbn [skip_loop].
  destruct (Z.eqb_spec c 35) as [->|Hc]; [|destruct (is_space c) eqn:Es].
  - apply IH. cbn. pose proof (line_end_length s). lia.
  - apply IH. lia.
  - by split.
Qed.

Lemma skip_token s : at_token (skipSpaceAndComments s).
Proof. by apply skip_loop_token. Qed.

Lemma inline_length s : (length (skipInlineSpace s) <= length s)%nat.
Proof. induction s as [|c s IH]; cbn; [done|]. destruct (_ || _); cbn; lia. Qed.

Lemma consume_length b s x r : consume b s = (x, r) -> (length r + (if x then 1 else 0) = length s)%nat.
Proof. destruct s as [|c s]; cbn; [by intros [= <- <-]|]. destruct (c =? b); intros [= <- <-]; cbn; lia. Qed.

Lemma consume_with_length b s x r : consumeWithSpace b s = (x, r) -> (length r + (if x then 1 else 0) <= length s)%nat.
Proof. intros E%consume_length. pose proof (inline_length s). lia. Qed.

Lemma ident_length s w r : readIdent s = (w, r) -> (length w + length r = length s)%nat.
Proof.
  revert w r. induction s as [|c s IH]; intros w r; cbn; [by intros [= <- <-]|].
  destruct (isIdentByte c); [|by intros [= <- <-]]. destruct (readIdent s) as [w' r']. intros [= <- <-]. pose proof (IH w' r' eq_refl). cbn; lia.
Qed.

Lemma quoted_length n : forall s w r, (length s <= n)%nat -> read_quoted s = (w, r) -> (length r <= length s)%nat.
Proof.
  induction n as [|n IH]; intros [|c s] w r Hl; cbn in Hl |- *; [by intros [= <- <-]|lia|by intros [= <- <-]|].
  destruct s as [|d s]; [destruct (c =? 34); intros [= <- <-]; cbn; lia|]. cbn in Hl.
  destruct (c =? 92).
  - destruct (read_quoted s) as [w' r'] eqn:E. intros [= <- <-]. apply IH in E; cbn [length] in *; lia.
  - destruct (c =? 34); [intros [= <- <-]; cbn; lia|]. destruct (read_quoted (d :: s)) as [w' r'] eqn:E. intros [= <- <-]. apply IH in E; cbn in *; lia.
Qed.

Lemma list_length s : forall depth w r, read_list depth s = (w, r) -> (length r <= length s)%nat.
Proof.
  induction s as [|c s IH]; intros depth w r; cbn; [by intros [= <- <-]|]. destruct (_ && _); [intros [= <- <-]; lia|].
  destruct (read_list _ s) as [w' r'] eqn:E. intros [= <- <-]. apply IH in E. lia.
Qed.

Lemma value_length s w r : readValue s = (w, r) -> (length r <= length s)%nat.
Proof.
  unfold readValue. pose proof (skip_length s) as Hs. destruct (skipSpaceAndComments s) as [|c s'] eqn:Es; [intros [= <- <-]; cbn; lia|]. cbn in Hs.
  destruct (c =? 34); [intros E%(quoted_length (length s')); lia|]. destruct (c =? 91).
  - destruct (read_list 0 (c :: s')) as [w' r'] eqn:E. intros [= <- <-]. apply list_length in E. cbn [length] in *. lia.
  - intros E%ident_length. cbn [length] in *. lia.
Qed.

Lemma block_length s : forall depth, wp (skip_block depth s) (fun r => (length r < length s)%nat) (fun _ => True).
Proof.
  induction s as [|c s IH]; intros depth; cbn [skip_block]; [done|].
  assert (forall d, wp (skip_block d s) (fun r => (length r < length (c :: s))%nat) (fun _ => True)) as Hs.
  { intros d. eapply wp_mono; [apply IH| |done]. intros r Hr. cbn [length] in *. lia. }
  destruct (c =? 123); [done|]. destruct (c =? 125); [|done]. destruct (_ =? 0); [cbn; lia|done].
Qed.

(** A line that is neither a block nor a field is skipped, and it is not empty. *)
Lemma bad_line_length s key s1 s2 s3 : at_token s -> s <> [] -> consume 125 s = (false, s) -> readIdent s = (key, s1) -> consumeWithSpace 123 s1 = (false, s2) -> consumeWithSpace 61 s2 = (false, s3) ->
  (length (skipToLineEnd s3) < length s)%nat.
Proof.
  intros Ht Hne Hc Hi Hb Ha. pose proof (ident_length _ _ _ Hi) as Li. pose proof (consume_with_length _ _ _ _ Hb). pose proof (consume_with_length _ _ _ _ Ha). pose proof (line_end_length s3).
  destruct key as [|k key]; [|cbn [length] in *; lia]. destruct s as [|c s]; [done|]. cbn in Hi. destruct (isIdentByte c) eqn:Ei; [by destruct (readIdent s)|]. injection Hi as <-.
  destruct Ht as [H35 Hsp]. unfold is_space in Hsp. apply orb_false_iff in Hsp as [[[E32 E9]%orb_false_iff E10]%orb_false_iff _].
  assert (skipInlineSpace (c :: s) = c :: s) as Hin by (cbn; by rewrite E32, E9).
  unfold consumeWithSpace in Hb. rewrite Hin in Hb. cbn in Hb. destruct (c =? 123); [done|]. injection Hb as <-.
  unfold consumeWithSpace in Ha. rewrite Hin in Ha. cbn in Ha. destruct (c =? 61); [done|]. injection Ha as <-.
  cbn. rewrite E10. pose proof (line_end_length s). lia.
Qed.

(** ** What the scanner makes of well-formed text *)

Definition is_inline (c : Z) : bool := (c =? 32) || (c =? 9).
Definition no_brace (c : Z) : Prop := c <> 123 /\ c <> 125.

(** Blanks and comments. *)
Inductive blank : gostring -> Prop :=
  | blank_nil : blank []
  | blank_space c w : is_space c = true -> blank w -> blank (c :: w)
  | blank_comment t w : Forall (fun c => c <> 10 /\ no_brace c) t -> blank w -> blank (35 :: t ++ 10 :: w).

Definition inline (w : gostring) : Prop := Forall (fun c => is_inline c = true) w.

(** What can be a key: an identifier that does not start a comment. *)
Definition key_ok (k : gostring) : Prop := Forall (fun c => isIdentByte c = true) k /\ k <> [] /\ head k <> Some 35.

(** The text that follows a token. *)
Definition stops (s : scanner) : Prop := match s with [] => True | c :: _ => isIdentByte c = false end.

Lemma comment_end t s : Forall (fun c => c <> 10 /\ no_brace c) t -> skipToLineEnd (t ++ 10 :: s) = 10 :: s.
Proof.
  induction 1 as [|c t [Hc _] Ht IH]; [done|]. cbn. by rewrite (proj2 (Z.eqb_neq _ _) Hc).
Qed.

Lemma skip_loop_blank w : blank w -> forall n s, (length (w ++ s) <= n)%nat -> at_token s -> skip_loop n (w ++ s) = s.
Proof.
  induction 1 as [|c w Hc Hw IH|t w Ht Hw IH]; intros n s Hn Hs.
  - destruct s as [|c s]; [by destruct n|]. destruct n as [|n]; cbn in Hn; [lia|]. destruct Hs as [H1 H2]. cbn. by rewrite (proj2 (Z.eqb_neq _ _) H1), H2.
  - destruct n as [|n]; cbn in Hn; [lia|]. cbn [app skip_loop]. destruct (Z.eqb_spec c 35) as [->|]; [done|]. rewrite Hc. apply IH; [lia|done].
  - rewrite <-app_comm_cons, <-app_assoc in *. destruct n as [|n]; cbn [length] in Hn; [lia|]. cbn [skip_loop]. rewrite Z.eqb_refl.
    change (skipToLineEnd (35 :: t ++ (10 :: w) ++ s)) with (skipToLineEnd (t ++ 10 :: (w ++ s))). rewrite comment_end by done. rewrite !length_app in Hn. cbn [length] in Hn.
    destruct n as [|n]; [lia|]. cbn [skip_loop]. change (10 =? 35) with false. change (is_space 10) with true. cbn match. apply IH; [rewrite length_app; lia|done].
Qed.

Lemma skip_blank w s : blank w -> at_token s -> skipSpaceAndComments (w ++ s) = s.
Proof. intros. by apply skip_loop_blank. Qed.

Lemma ident_char c : isIdentByte c = true -> is_space c = false /\ is_inline c = false /\ 0 < c /\ c <> 61 /\ no_brace c.
Proof.
  unfold isIdentByte, is_space, is_inline, no_brace. rewrite !andb_true_iff, !negb_true_iff, !orb_false_iff, !Z.eqb_neq, Z.ltb_lt. tauto.
Qed.

Lemma key_token k s : key_ok k -> at_token (k ++ s) /\ k ++ s <> [] /\ consume 125 (k ++ s) = (false, k ++ s).
Proof.
  intros (Hk & Hne & Hh). destruct k as [|c k]; [done|]. inversion_clear Hk as [|? ? Hc _]. destruct (ident_char c Hc) as (Hs & _ & _ & _ & _ & Hb).
  cbn. split; [split; [by intros ->|done]|]. split; [done|]. by rewrite (proj2 (Z.eqb_neq _ _) Hb).
Qed.

Lemma ident_read k s : Forall (fun c => isIdentByte c = true) k -> stops s -> readIdent (k ++ s) = (k, s).
Proof.
  induction 1 as [|c k Hc Hk IH]; intros Hs; [destruct s; cbn in *; [done|by rewrite Hs]|]. cbn. rewrite Hc, (IH Hs). done.
Qed.

Lemma inline_skip i s : inline i -> (match s with [] => True | c :: _ => is_inline c = false end) -> skipInlineSpace (i ++ s) = s.
Proof.
  induction 1 as [|c i Hc Hi IH]; intros Hs; [destruct s; cbn in *; [done|unfold is_inline in Hs; by rewrite Hs]|]. cbn. unfold is_inline in Hc. rewrite Hc. by apply IH.
Qed.

Lemma inline_stops i c s : inline i -> isIdentByte c = false -> stops (i ++ c :: s).
Proof.
  intros Hi Hc. destruct Hi as [|d i Hd _]; cbn; [done|]. unfold is_inline in Hd. apply orb_true_iff in Hd as [->%Z.eqb_eq | ->%Z.eqb_eq]; done.
Qed.

Lemma consume_hit b i s : inline i -> is_inline b = false -> consumeWithSpace b (i ++ b :: s) = (true, s).
Proof. intros Hi Hb. unfold consumeWithSpace. rewrite inline_skip by done. cbn. by rewrite Z.eqb_refl. Qed.

Lemma consume_miss b c i s : inline i -> is_inline c = false -> c <> b -> consumeWithSpace b (i ++ c :: s) = (false, c :: s).
Proof. intros Hi Hc Hb. unfold consumeWithSpace. rewrite inline_skip by done. cbn. by rewrite (proj2 (Z.eqb_neq _ _) Hb). Qed.

(** Values, as they are meant and as they are written. *)
Inductive value := Token (w : gostring) | Quoted (w : gostring) | Listed (w : gostring).
Definition value_text (v : value) : gostring :=
  match v with Token w | Quoted w => w | Listed w => 91 :: w ++ [93] end.

Inductive escaped : gostring -> gostring -> Prop :=
  | escaped_nil : escaped [] []
  | escaped_plain c w t : c <> 34 -> c <> 92 -> no_brace c -> escaped w t -> escaped (c :: w) (c :: t)
  | escaped_slash c w t : no_brace c -> escaped w t -> escaped (c :: w) (92 :: c :: t).

Inductive spelled : value -> gostring -> Prop :=
  | spelled_token w : key_ok w -> head w <> Some 34 -> head w <> Some 91 -> spelled (Token w) w
  | spelled_quoted w t : escaped w t -> spelled (Quoted w) (34 :: t ++ [34])
  | spelled_list w : Forall (fun c => c <> 91 /\ c <> 93 /\ no_brace c) w -> spelled (Listed w) (91 :: w ++ [93]).

(** What must follow a value. *)
Definition ends (v : value) (s : scanner) : Prop := match v with Token _ => stops s | _ => True end.

Lemma quoted_read w t s : escaped w t -> read_quoted (t ++ 34 :: s) = (w, s).
Proof.
  induction 1 as [|c w t H1 H2 Hb Ht IH|c w t Hb Ht IH]; [by destruct s| |].
  - cbn [app]. assert (exists d r, t ++ 34 :: s = d :: r) as (d & r & E) by (destruct t; eauto). cbn [read_quoted]. rewrite E.
    rewrite (proj2 (Z.eqb_neq _ _) H2), (proj2 (Z.eqb_neq _ _) H1), <-E, IH. done.
  - cbn [app read_quoted]. by rewrite Z.eqb_refl, IH.
Qed.

Lemma list_read w s : Forall (fun c => c <> 91 /\ c <> 93 /\ no_brace c) w -> read_list 1 (w ++ 93 :: s) = (w ++ [93], s).
Proof.
  induction 1 as [|c w (H1 & H2 & _) Hw IH]; [done|]. cbn [app read_list].
  rewrite (proj2 (Z.eqb_neq _ _) H1), (proj2 (Z.eqb_neq _ _) H2). cbn [andb]. by rewrite IH.
Qed.

(** No rune that [strings.TrimSpace] removes starts or ends with a printable ASCII character. *)
Definition printable (c : Z) : Prop := 33 <= c <= 126.

Lemma cut_prefix_miss p c s : (match p with a :: _ => (a <=? 32) || (128 <=? a) | [] => false end) = true -> printable c -> cut_prefix p (c :: s) = None.
Proof.
  destruct p as [|a p]; [done|]. unfold printable. intros Ha Hc. cbn. destruct (Z.eqb_spec a c) as [->|]; [|done].
  apply orb_true_iff in Ha as [?%Z.leb_le | ?%Z.leb_le]; lia.
Qed.

Lemma cut_any_miss ps c s : forallb (fun p => match p with a :: _ => (a <=? 32) || (128 <=? a) | [] => false end) ps = true -> printable c -> cut_any ps (c :: s) = None.
Proof.
  intros Hp Hc. induction ps as [|p ps IH]; [done|]. cbn [forallb] in Hp. apply andb_true_iff in Hp as [Hp Hps].
  cbn [cut_any]. by rewrite (cut_prefix_miss p c s Hp Hc), IH.
Qed.

Lemma trim_left_miss ps n c s : forallb (fun p => match p with a :: _ => (a <=? 32) || (128 <=? a) | [] => false end) ps = true -> printable c -> trim_left ps n (c :: s) = c :: s.
Proof. intros Hp Hc. destruct n; cbn [trim_left]; [done|]. by rewrite cut_any_miss. Qed.

Lemma trim_printable c w d : printable c -> printable d -> TrimSpace (c :: w ++ [d]) = c :: w ++ [d].
Proof.
  intros Hc Hd. unfold TrimSpace. rewrite trim_left_miss by (done || by vm_compute). rewrite app_comm_cons, reverse_snoc.
  rewrite trim_left_miss by (done || by vm_compute). by rewrite <-reverse_snoc, reverse_involutive.
Qed.

Lemma trim_one c : printable c -> TrimSpace [c] = [c].
Proof. intros Hc. unfold TrimSpace. rewrite trim_left_miss by (done || by vm_compute). change (reverse [c]) with [c]. by rewrite trim_left_miss by (done || by vm_compute). Qed.

Lemma value_read b v t s : blank b -> spelled v t -> ends v s -> readValue (b ++ t ++ s) = (value_text v, s).
Proof.
  intros Hb Hv He. unfold readValue. destruct Hv as [w Hk H1 H2|w t Ht|w Hw].
  - destruct (key_token w s Hk) as (Htok & Hne & _). rewrite skip_blank by done. destruct w as [|c w]; [by destruct Hk as (_ & ? & _)|]. cbn [app] in *.
    destruct (Z.eqb_spec c 34) as [->|]; [done|]. destruct (Z.eqb_spec c 91) as [->|]; [done|]. destruct Hk as [Hk _]. exact (ident_read (c :: w) s Hk He).
  - rewrite skip_blank by (done || (by split)). cbn [app]. change (34 =? 34) with true. cbn match. rewrite <-app_assoc. by apply quoted_read.
  - rewrite skip_blank by (done || (by split)). cbn [app]. change (91 =? 34) with false. change (91 =? 91) with true. cbn match.
    cbn [read_list]. change (91 =? 91) with true. change (91 =? 93) with false. cbn [andb]. change (0 + 1) with 1. rewrite <-app_assoc. cbn [app].
    rewrite list_read by done. cbn [value_text]. by rewrite trim_printable by (unfold printable; lia).
Qed.

(** ** Decimal numbers *)

Lemma parse_digits_fuel n : forall v acc, 0 <= v < 2 ^ 63 -> v < 10 ^ Z.of_nat n -> (0 < n)%nat -> parse_digits (digits_fuel n v acc) 0 = parse_digits acc v.
Proof.
  induction n as [|n IH]; intros v acc Hv Hn Hpos; [lia|]. cbn [digits_fuel]. pose proof (Z.mod_pos_bound v 10 ltac:(lia)) as Hm. pose proof (Z.div_mod v 10 ltac:(lia)) as Hd.
  assert (forall u, 0 <= u < 2 ^ 60 -> u * 10 + v mod 10 = v -> parse_digits (48 + v mod 10 :: acc) u = parse_digits acc v) as Hstep.
  { intros u Hu He. cbn [parse_digits]. unfold within, maxUint64. rewrite (proj2 (Z.leb_le 48 _)), (proj2 (Z.leb_le _ 57)) by lia. cbn [andb].
    change ((2 ^ 64 - 1) / 10 + 1) with 1844674407370955162. rewrite (proj2 (Z.leb_gt _ _)) by lia. replace (u * 10 + (48 + v mod 10 - 48)) with v by lia.
    by rewrite (proj2 (Z.ltb_ge _ _)) by lia. }
  destruct (Z.ltb_spec v 10).
  - apply Hstep; [lia|]. rewrite Z.mod_small by lia. lia.
  - rewrite IH; [apply Hstep; [|lia]| | |].
    + split; [lia|]. lia.
    + split; lia.
    + rewrite Nat2Z.inj_succ, Z.pow_succ_r in Hn by lia. lia.
    + destruct n; [cbn in Hn; lia|lia].
Qed.

Lemma digits_shape n : forall v acc, 0 <= v -> (0 < n)%nat -> Forall (fun c => 48 <= c <= 57) acc -> Forall (fun c => 48 <= c <= 57) (digits_fuel n v acc) /\ digits_fuel n v acc <> [].
Proof.
  induction n as [|n IH]; intros v acc Hv Hn Ha; [lia|]. cbn [digits_fuel]. pose proof (Z.mod_pos_bound v 10 ltac:(lia)).
  assert (Forall (fun c => 48 <= c <= 57) (48 + v mod 10 :: acc)) by (constructor; [lia|done]).
  destruct (v <? 10); [done|]. destruct n; [done|]. apply IH; [apply Z.div_pos; lia|lia|done].
Qed.

Lemma decimal_digits v : 0 <= v -> Forall (fun c => 48 <= c <= 57) (decimal v) /\ decimal v <> [].
Proof. intros. apply digits_shape; [done|lia|done]. Qed.

Lemma parse_int_decimal v : 0 <= v < 2 ^ 63 -> ParseInt (decimal v) = (v, None).
Proof.
  intros Hv. destruct (decimal_digits v ltac:(lia)) as [Hd Hne]. assert (ParseUint (decimal v) = (v, None)) as Hu.
  { unfold ParseUint, decimal in *. assert (v < 10 ^ Z.of_nat 20) as Hb by (change (10 ^ Z.of_nat 20) with 100000000000000000000; lia).
    pose proof (parse_digits_fuel 20 v [] Hv Hb ltac:(lia)) as E. by destruct (digits_fuel 20 v []). }
  unfold ParseInt. destruct (decimal v) as [|c s] eqn:E; [done|]. inversion_clear Hd as [|? ? Hc _].
  rewrite (proj2 (Z.eqb_neq c 43)), (proj2 (Z.eqb_neq c 45)) by lia. cbn [orb]. rewrite Hu. cbn [negb andb]. by rewrite (proj2 (Z.leb_gt _ _)) by lia.
Qed.

Lemma trim_digits s : Forall (fun c => 48 <= c <= 57) s -> TrimSpace s = s.
Proof.
  intros Hs. assert (s = [] \/ exists w d, s = w ++ [d]) as [-> | (w & d & ->)] by (destruct s using rev_ind; eauto); [done|].
  apply Forall_app in Hs as [Hw Hd]. apply Forall_inv in Hd. destruct w as [|c w]; [apply (trim_one d); unfold printable; lia|].
  apply Forall_inv in Hw. apply trim_printable; unfold printable; lia.
Qed.

Lemma parse_decimal v : 0 <= v < 2 ^ 63 -> parseInt64 (decimal v) = v.
Proof. intros Hv. unfold parseInt64. destruct (decimal_digits v ltac:(lia)) as [Hd _]. by rewrite trim_digits, parse_int_decimal. Qed.

(** ** Texts: fields and blocks, with any blanks between them

    Braces in strings and comments are left out: [skipBlock] counts them. *)

Inductive node := Field (key : gostring) (v : value) | Block (key : gostring) (body : list node).

Inductive prints : list node -> gostring -> Prop :=
  | prints_nil w : blank w -> prints [] w
  | prints_field w k i b v t ns rest : blank w -> key_ok k -> inline i -> blank b -> spelled v t -> ends v rest -> prints ns rest ->
      prints (Field k v :: ns) (w ++ k ++ i ++ 61 :: b ++ t ++ rest)
  | prints_block w k i body tb ns rest : blank w -> key_ok k -> inline i -> prints body tb -> prints ns rest ->
      prints (Block k body :: ns) (w ++ k ++ i ++ 123 :: tb ++ 125 :: rest).

(** The part of a round before its value or its block. *)
Lemma key_read w k i c x : blank w -> key_ok k -> inline i -> isIdentByte c = false -> let s := w ++ k ++ i ++ c :: x in
  skipSpaceAndComments s = k ++ i ++ c :: x /\ eof (k ++ i ++ c :: x) = false /\ consume 125 (k ++ i ++ c :: x) = (false, k ++ i ++ c :: x) /\
  readIdent (k ++ i ++ c :: x) = (k, i ++ c :: x).
Proof.
  intros Hw Hk Hi Hc s. destruct (key_token k (i ++ c :: x) Hk) as (Ht & Hne & Hcl). split; [by apply skip_blank|].
  split; [by destruct (k ++ i ++ c :: x)|]. split; [done|]. destruct Hk as [Hk _]. apply ident_read; [done|by apply inline_stops].
Qed.

Lemma close_read w s : blank w -> skipSpaceAndComments (w ++ 125 :: s) = 125 :: s.
Proof. intros Hw. by apply skip_blank. Qed.

(** A loop over the fields and blocks of a body, up to the brace that closes it. *)
Lemma loop_nodes {A R} (round : A * scanner -> go ((A * scanner) + R)) (step : A -> node -> A) (fin : A -> scanner -> R) (allowed : A -> node -> Prop) :
  (forall a w s, blank w -> round (a, w ++ 125 :: s) = Ret (inr (fin a s))) ->
  (forall a w k i b v t rest, blank w -> key_ok k -> inline i -> blank b -> spelled v t -> ends v rest -> allowed a (Field k v) ->
     round (a, w ++ k ++ i ++ 61 :: b ++ t ++ rest) = Ret (inl (step a (Field k v), rest))) ->
  (forall a w k i body tb rest, blank w -> key_ok k -> inline i -> prints body tb -> allowed a (Block k body) ->
     round (a, w ++ k ++ i ++ 123 :: tb ++ 125 :: rest) = Ret (inl (step a (Block k body), rest))) ->
  forall ns t, prints ns t -> forall a s fuel, (length ns < fuel)%nat -> (forall pre n post, ns = pre ++ n :: post -> allowed (foldl step a pre) n) ->
  go_for fuel round (a, t ++ 125 :: s) = Ret (fin (foldl step a ns) s).
Proof.
  intros Hfin Hfield Hblock ns t Ht. induction Ht as [w Hw|w k i b v t ns rest Hw Hk Hi Hb Hv He _ IH|w k i body tb ns rest Hw Hk Hi Hbody _ _ IH];
    intros a s [|fuel] Hf Hall; cbn [length] in Hf; try lia.
  - cbn [go_for]. by rewrite Hfin.
  - cbn [go_for]. repeat (rewrite <-app_assoc; cbn [app]). rewrite (Hfield a w k i b v t (rest ++ 125 :: s)); try done; [|destruct v; try done; by destruct rest|exact (Hall [] _ _ eq_refl)].
    cbn [mbind go_bind]. apply IH; [lia|]. intros pre n post ->. exact (Hall (Field k v :: pre) n post eq_refl).
  - cbn [go_for]. repeat (rewrite <-app_assoc; cbn [app]). rewrite (Hblock a w k i body tb (rest ++ 125 :: s)); try done; [|exact (Hall [] _ _ eq_refl)].
    cbn [mbind go_bind]. apply IH; [lia|]. intros pre n post ->. exact (Hall (Block k body :: pre) n post eq_refl).
Qed.

Lemma prints_length ns t : prints ns t -> (length ns <= length t)%nat.
Proof. induction 1; cbn [length]; rewrite ?length_app; cbn [length]; rewrite ?length_app; cbn [length]; rewrite ?length_app; cbn [length]; lia. Qed.

(** ** Skipping *)

Lemma skip_plain w d s : Forall no_brace w -> skip_block d (w ++ s) = skip_block d s.
Proof. induction 1 as [|c w [H1 H2] Hw IH]; [done|]. cbn. by rewrite (proj2 (Z.eqb_neq _ _) H1), (proj2 (Z.eqb_neq _ _) H2). Qed.

Lemma blank_plain w : blank w -> Forall no_brace w.
Proof.
  induction 1 as [|c w Hc Hw IH|t w Ht Hw IH]; [constructor| |].
  - constructor; [|done]. unfold no_brace. split; intros ->; done.
  - constructor; [done|]. apply Forall_app. split; [eapply Forall_impl; [exact Ht|by intros ? [_ ?]]|]. by constructor.
Qed.

Lemma key_plain k : key_ok k -> Forall no_brace k.
Proof. intros [Hk _]. eapply Forall_impl; [exact Hk|]. by intros c (_ & _ & _ & _ & ?)%ident_char. Qed.

Lemma inline_plain i : inline i -> Forall no_brace i.
Proof. intros Hi. eapply Forall_impl; [exact Hi|]. intros c Hc. unfold no_brace. split; intros ->; done. Qed.

Lemma spelled_plain v t : spelled v t -> Forall no_brace t.
Proof.
  destruct 1 as [w Hk _ _|w t Ht|w Hw]; [by apply key_plain| |].
  - constructor; [done|]. apply Forall_app. split; [|by repeat constructor].
    induction Ht as [|c w t H1 H2 Hb Ht IH|c w t Hb Ht IH]; [constructor|by constructor|constructor; [done|by constructor]].
  - constructor; [done|]. apply Forall_app. split; [eapply Forall_impl; [exact Hw|by intros c (_ & _ & ?)]|by repeat constructor].
Qed.

Lemma skip_nodes ns t : prints ns t -> forall d s, 1 <= d -> skip_block d (t ++ s) = skip_block d s.
Proof.
  induction 1 as [w Hw|w k i b v t ns rest Hw Hk Hi Hb Hv He _ IH|w k i body tb ns rest Hw Hk Hi _ IHb _ IH]; intros d s Hd.
  - by apply skip_plain, blank_plain.
  - repeat (rewrite <-app_assoc; cbn [app]). rewrite skip_plain by (by apply blank_plain). rewrite skip_plain by (by apply key_plain). rewrite skip_plain by (by apply inline_plain).
    change (61 :: b ++ t ++ rest ++ s) with ([61] ++ b ++ t ++ rest ++ s). rewrite (skip_plain [61]) by (by repeat constructor). rewrite skip_plain by (by apply blank_plain). rewrite skip_plain by (by apply (spelled_plain v)). by apply IH.
  - repeat (rewrite <-app_assoc; cbn [app]). rewrite skip_plain by (by apply blank_plain). rewrite skip_plain by (by apply key_plain). rewrite skip_plain by (by apply inline_plain).
    cbn [skip_block]. change (123 =? 123) with true. cbn match. rewrite IHb by lia. cbn [skip_block]. change (125 =? 123) with false. change (125 =? 125) with true. cbn match.
    rewrite (proj2 (Z.eqb_neq _ _)) by lia. replace (d + 1 - 1) with d by lia. by apply IH.
Qed.

Lemma skip_body ns t s : prints ns t -> skipBlock (t ++ 125 :: s) = Ret s.
Proof. intros Ht. unfold skipBlock. rewrite (skip_nodes ns) by done. done. Qed.
