(* ===== verification/Lvm.v ===== *)
(** * Lvm: LVM2 physical volumes (lvm2/lvm2.go)

    The recursive descent parser of the metadata text, one definition per method, each with
    the scanner it is given and the scanner it leaves; the volume group that the source
    mutates through a pointer is threaded through them. Every loop is given one round more
    than bytes are left: each round of the source consumes at least one ([lvm_parse_total]). *)

From S2P Require Import Prelude Bytes ReaderAt Text LvmScan.
From Stdlib Require Import Sorted.

Definition sectorSize : Z := 512.
Definition textMarker : gostring := lit "contents = " ++ [34] ++ lit "Text Format Volume Group" ++ [34].
Definition ErrNotLVM : error := Errorf "not an LVM2 physical volume".

Record Extent := mkExtent { Start : Z; Size : Z }.
Record LogicalVolume := mkLV { lv_Name : gostring; lv_Size : Z; Extents : list Extent }.
Record VG := mkVG { Name : gostring; Seqno : Z; ExtentBytes : Z; PEStart : Z; PECount : Z; Volumes : list LogicalVolume }.

#[global] Instance extent_eq_dec : EqDecision Extent.
Proof. solve_decision. Defined.
#[global] Instance logical_volume_eq_dec : EqDecision LogicalVolume.
Proof. solve_decision. Defined.
#[global] Instance vg_eq_dec : EqDecision VG.
Proof. solve_decision. Defined.

Definition with_seqno (vg : VG) x := mkVG (Name vg) x (ExtentBytes vg) (PEStart vg) (PECount vg) (Volumes vg).
Definition with_extent (vg : VG) x := mkVG (Name vg) (Seqno vg) x (PEStart vg) (PECount vg) (Volumes vg).
Definition with_pv (vg : VG) start count := mkVG (Name vg) (Seqno vg) (ExtentBytes vg) start count (Volumes vg).
Definition with_volume (vg : VG) lv := mkVG (Name vg) (Seqno vg) (ExtentBytes vg) (PEStart vg) (PECount vg) (Volumes vg ++ [lv]).

(** ** Segments and extents *)

Record segment := mkSeg { stripeOffset : Z; extentCount : Z; stripeCount : Z; pvIndex : Z }.

(** [sort.SliceStable] by [Start]: the one stable order. *)
Fixpoint insert_extent (e : Extent) (l : list Extent) : list Extent :=
  match l with
  | [] => [e]
  | f :: l' => if Start f <? Start e then f :: insert_extent e l' else e :: l
  end.
Definition sort_extents (l : list Extent) : list Extent := foldr insert_extent [] l.

(** The loop of [mergeExtents]: [out] in reverse, its head the last extent. *)
Definition merge_step (out : list Extent) (e : Extent) : list Extent :=
  match out with
  | last :: out' =>
      if Start e <=? i64 (Start last + Size last) then
        let end_ := i64 (Start e + Size e) in
        if i64 (Start last + Size last) <? end_ then mkExtent (Start last) (i64 (end_ - Start last)) :: out' else out
      else e :: out
  | [] => [e]
  end.
Definition mergeExtents (in_ : list Extent) : list Extent := reverse (foldl merge_step [] (sort_extents in_)).

Fixpoint segment_extents (vg : VG) (segments : list segment) : option (list Extent) :=
  match segments with
  | [] => Some []
  | seg :: rest =>
      if negb (pvIndex seg =? 0) || (1 <? stripeCount seg) then None
      else (fun es => mkExtent (i64 (PEStart vg + i64 (stripeOffset seg * ExtentBytes vg))) (i64 (extentCount seg * ExtentBytes vg)) :: es) <$> segment_extents vg rest
  end.

Definition buildLogicalVolume (vg : VG) (name : gostring) (segments : list segment) : LogicalVolume :=
  match segment_extents vg segments with
  | None => mkLV name 0 []
  | Some exts => let exts := mergeExtents exts in mkLV name (foldl (fun n e => i64 (n + Size e)) 0 exts) exts
  end.

(** ["pv0"] and an offset; [inr] is an error. *)
Definition is_separator (r : Z) : bool := (r =? 44) || (r =? 32) || (r =? 9) || (r =? 10) || (r =? 34).
Definition parseStripes (val : gostring) : (Z * Z) + error :=
  let val := TrimSuffix (TrimPrefix (TrimSpace val) [91]) [93] in
  match FieldsFunc is_separator val [] with
  | p0 :: p1 :: _ =>
      if negb (bool_decide (p0 = lit "pv0")) then inl (-1, 0)
      else match ParseInt p1 with
           | (offset, None) => inl (0, offset)
           | (_, Some _) => inr (Wrapf "invalid stripe offset in %q: %w" (Errorf "strconv.ParseInt"))
           end
  | _ => inr (Errorf "unexpected stripes value %q")
  end.

(** ** The parser *)

(** One round of each loop gives either what the loop goes on with, or what it returns. *)
Definition set_segment (seg : segment) (key val : gostring) : segment :=
  if bool_decide (key = lit "extent_count") then mkSeg (stripeOffset seg) (parseInt64 val) (stripeCount seg) (pvIndex seg)
  else if bool_decide (key = lit "stripe_count") then mkSeg (stripeOffset seg) (extentCount seg) (parseInt64 val) (pvIndex seg)
  else if bool_decide (key = lit "stripes") then
    match parseStripes val with
    | inl (pv, off) => mkSeg off (extentCount seg) (stripeCount seg) pv
    | inr _ => mkSeg (stripeOffset seg) (extentCount seg) (stripeCount seg) (-1)
    end
  else seg.

(** [_ = s.skipBlock()]: at the end of an unterminated block the scanner is at the end. *)
Definition skip_quietly (s : scanner) : scanner := match skipBlock s with Ret s' => s' | _ => [] end.

Definition segment_round (st : segment * scanner) : go ((segment * scanner) + (segment * scanner)) :=
  let '(seg, s) := st in
  let s := skipSpaceAndComments s in
  let '(close, s) := consume 125 s in
  if eof s || close then mret (inr (seg, s))
  else
    let '(key, s) := readIdent s in
    let '(block, s) := consumeWithSpace 123 s in
    if block : bool then mret (inl (seg, skip_quietly s))
    else
      let '(assign, s) := consumeWithSpace 61 s in
      if negb assign then mret (inl (seg, skipToLineEnd s))
      else let '(val, s) := readValue s in mret (inl (set_segment seg key val, s)).
Definition parseSegmentBody (s : scanner) : go (segment * scanner) := go_for (S (length s)) segment_round (mkSeg 0 0 0 0, s).

Definition lv_round (st : list segment * scanner) : go ((list segment * scanner) + (list segment * scanner)) :=
  let '(segments, s) := st in
  let s := skipSpaceAndComments s in
  let '(close, s) := consume 125 s in
  if eof s || close then mret (inr (segments, s))
  else
    let '(_, s) := readIdent s in
    let '(block, s) := consumeWithSpace 123 s in
    if block : bool then '(seg, s) ← parseSegmentBody s; mret (inl (segments ++ [seg], s))
    else
      let '(assign, s) := consumeWithSpace 61 s in
      if assign : bool then let '(_, s) := readValue s in mret (inl (segments, s))
      else mret (inl (segments, skipToLineEnd s)).
Definition parseLVBody (vg : VG) (name : gostring) (s : scanner) : go (LogicalVolume * scanner) :=
  '(segments, s) ← go_for (S (length s)) lv_round ([], s); mret (buildLogicalVolume vg name segments, s).

Definition volumes_round (st : VG * scanner) : go ((VG * scanner) + (VG * scanner)) :=
  let '(vg, s) := st in
  let s := skipSpaceAndComments s in
  if eof s then Err EOF
  else
    let '(close, s) := consume 125 s in
    if close : bool then mret (inr (vg, s))
    else
      let '(name, s) := readIdent s in
      let '(block, s) := consumeWithSpace 123 s in
      if negb block then Err (Errorf "LVM2 metadata: expected block after %q")
      else '(lv, s) ← parseLVBody vg name s; mret (inl (with_volume vg lv, s)).
Definition parseLogicalVolumes (vg : VG) (s : scanner) : go (VG * scanner) := go_for (S (length s)) volumes_round (vg, s).

Definition pv_round (st : Z * Z * scanner) : go ((Z * Z * scanner) + (Z * Z * scanner)) :=
  let '(peStart, peCount, s) := st in
  let s := skipSpaceAndComments s in
  if eof s then Err EOF
  else
    let '(close, s) := consume 125 s in
    if close : bool then mret (inr (peStart, peCount, s))
    else
      let '(key, s) := readIdent s in
      let '(block, s) := consumeWithSpace 123 s in
      if block : bool then s ← skipBlock s; mret (inl (peStart, peCount, s))
      else
        let '(assign, s) := consumeWithSpace 61 s in
        if negb assign then Err (Errorf "LVM2 metadata: expected '=' after %q")
        else
          let '(val, s) := readValue s in
          mret (inl (if bool_decide (key = lit "pe_start") then parseInt64 val else peStart,
                     if bool_decide (key = lit "pe_count") then parseInt64 val else peCount, s)).
Definition parsePVBody (s : scanner) : go (Z * Z * scanner) := go_for (S (length s)) pv_round (0, 0, s).

Definition pvs_round (st : VG * scanner) : go ((VG * scanner) + (VG * scanner)) :=
  let '(vg, s) := st in
  let s := skipSpaceAndComments s in
  if eof s then Err EOF
  else
    let '(close, s) := consume 125 s in
    if close : bool then mret (inr (vg, s))
    else
      let '(name, s) := readIdent s in
      let '(block, s) := consumeWithSpace 123 s in
      if negb block then Err (Errorf "LVM2 metadata: expected block after %q")
      else if (PEStart vg =? 0) && (PECount vg =? 0) then
        '(peStart, peCount, s) ← parsePVBody s;
        mret (inl (with_pv vg (i64 (peStart * sectorSize)) peCount, s))
      else s ← skipBlock s; mret (inl (vg, s)).
Definition parsePhysicalVolumes (vg : VG) (s : scanner) : go (VG * scanner) := go_for (S (length s)) pvs_round (vg, s).

Definition set_group (vg : VG) (key val : gostring) : VG :=
  if bool_decide (key = lit "seqno") then with_seqno vg (parseInt64 val)
  else if bool_decide (key = lit "extent_size") then with_extent vg (i64 (parseInt64 val * sectorSize))
  else vg.

Definition vg_round (st : VG * scanner) : go ((VG * scanner) + VG) :=
  let '(vg, s) := st in
  let s := skipSpaceAndComments s in
  if eof s then Err (Errorf "LVM2 metadata: unterminated volume group")
  else
    let '(close, s) := consume 125 s in
    if close : bool then mret (inr vg)
    else
      let '(key, s) := readIdent s in
      let '(block, s) := consumeWithSpace 123 s in
      if block : bool then
        st ← (if bool_decide (key = lit "physical_volumes") then parsePhysicalVolumes vg s
              else if bool_decide (key = lit "logical_volumes") then parseLogicalVolumes vg s
              else s ← skipBlock s; mret (vg, s));
        mret (inl st)
      else
        let '(assign, s) := consumeWithSpace 61 s in
        if negb assign then Err (Errorf "LVM2 metadata: expected '=' or '{' after %q")
        else let '(val, s) := readValue s in mret (inl (set_group vg key val, s)).
Definition parseVGBody (name : gostring) (s : scanner) : go VG := go_for (S (length s)) vg_round (mkVG name 0 0 0 0 [], s).

Definition metadata_round (s : scanner) : go (scanner + VG) :=
  let s := skipSpaceAndComments s in
  if eof s then Err (Errorf "LVM2 metadata: missing volume group block")
  else
    let '(key, s) := readIdent s in
    let '(assign, s) := consumeWithSpace 61 s in
    if assign : bool then let '(_, s) := readValue s in mret (inl s)
    else
      let '(block, s) := consumeWithSpace 123 s in
      if block : bool then vg ← parseVGBody key s; mret (inr vg)
      else Err (Errorf "LVM2 metadata: unexpected token %q").
Definition parseMetadata (text : gostring) : go VG := go_for (S (length text)) metadata_round text.

(** ** Finding the metadata *)

(** The places of the marker, one behind the other. *)
Fixpoint find_all (n : nat) (base : nat) (haystack needle : gostring) : list nat :=
  match n with
  | O => []
  | S n' =>
      match Index haystack needle with
      | None => []
      | Some i => (base + i)%nat :: find_all n' (base + i + length needle) (drop (i + length needle) haystack) needle
      end
  end.
Definition findAll (haystack needle : gostring) : list nat := find_all (S (length haystack)) 0 haystack needle.

Definition checkLabel (ra : reader) (origin : Z) : go unit :=
  label ← make 0 1 sectorSize;
  r ← ra label (i64 (origin + sectorSize));
  match r_err r with
  | Some _ => Err ErrNotLVM
  | None =>
      a ← slice (r_buf r) 0 8; b ← slice (r_buf r) 24 32;
      if bool_decide (a = lit "LABELONE") && bool_decide (b = lit "LVM2 001") then mret tt else Err ErrNotLVM
  end.

Definition scanSize : Z := Z.shiftl 8 20.

(** The snapshot with the highest number so far. *)
Definition newer (best : option VG) (vg : VG) : option VG :=
  match best with
  | Some b => if Seqno b <? Seqno vg then Some vg else best
  | None => Some vg
  end.
Fixpoint scan_snapshots (buf : gostring) (places : list nat) (best : option VG) : go (option VG) :=
  match places with
  | [] => mret best
  | i :: rest =>
      r ← catch (parseMetadata (stripNUL (drop i buf)));
      scan_snapshots buf rest (match r with inl vg => newer best vg | inr _ => best end)
  end.

(** The part of [Open] behind the label, which reads [n] bytes. *)
Definition scan_metadata (ra : reader) (origin n : Z) : go VG :=
  buf ← make 0 1 n;
  r ← ra buf origin;
  match match r_err r with Some e => if bool_decide (e = EOF) then None else Some e | None => None end with
  | Some e => Err (Wrapf "read LVM2 metadata area: %w" e)
  | None =>
      buf ← slice (r_buf r) 0 (r_n r);
      best ← scan_snapshots buf (findAll buf textMarker) None;
      match best with
      | Some vg => mret vg
      | None => Err (Errorf "LVM2 metadata not found within the first %d bytes")
      end
  end.

Definition Open (ra : reader) (origin : Z) : go VG := checkLabel ra origin;; scan_metadata ra origin scanSize.

(** ** Every loop ends *)

Abbreviation any_err := (fun _ : error => True).

(** The scanner of a loop's state gets shorter in every round, and what the loop returns
    is not longer. *)
Lemma wp_shrinks {St R} (rest : St -> scanner) (out : R -> scanner) (body : St -> go (St + R)) st :
  (forall st, wp (body st) (fun r => match r with inl st' => (length (rest st') < length (rest st))%nat | inr v => (length (out v) <= length (rest st))%nat end) any_err) ->
  wp (go_for (S (length (rest st))) body st) (fun v => (length (out v) <= length (rest st))%nat) any_err.
Proof.
  intros Hb. apply (wp_for (fun st' => (length (rest st') <= length (rest st))%nat) (fun st' => length (rest st'))); [|done|lia].
  intros st' Hst'. eapply wp_mono; [apply Hb| |done]. intros [st2|v] Hr; [|lia]. lia.
Qed.

(** The next part of a round: its result and how much it consumed. *)
#[local] Ltac part :=
  match goal with
  | |- context [let '(_, _) := consume ?b ?s in _] => let E := fresh "E" in let x := fresh "x" in destruct (consume b s) as [x ?s'] eqn:E; pose proof (consume_length _ _ _ _ E)
  | |- context [let '(_, _) := readIdent ?s in _] => let E := fresh "E" in destruct (readIdent s) as [?key ?s'] eqn:E; pose proof (ident_length _ _ _ E)
  | |- context [let '(_, _) := consumeWithSpace ?b ?s in _] => let E := fresh "E" in let x := fresh "x" in destruct (consumeWithSpace b s) as [x ?s'] eqn:E; pose proof (consume_with_length _ _ _ _ E)
  | |- context [let '(_, _) := readValue ?s in _] => let E := fresh "E" in destruct (readValue s) as [?val ?s'] eqn:E; pose proof (value_length _ _ _ E)
  end; cbn beta iota in *.

Lemma eof_nil s : eof s = false -> s <> [].
Proof. by destruct s. Qed.

Lemma skip_quietly_length s : (length (skip_quietly s) <= length s)%nat.
Proof.
  unfold skip_quietly, skipBlock. pose proof (block_length s 1) as Hb. destruct (skip_block 1 s); cbn in *; lia.
Qed.

Lemma consume_false b s s' : consume b s = (false, s') -> s' = s.
Proof. destruct s; cbn; [by intros [= <-]|]. destruct (_ =? _); by intros [= <-]. Qed.

Lemma segment_total s : wp (parseSegmentBody s) (fun r => (length r.2 <= length s)%nat) any_err.
Proof.
  apply (wp_shrinks (St := segment * scanner) snd snd segment_round (mkSeg 0 0 0 0, s)). intros [seg s0]. unfold segment_round. cbn [snd].
  pose proof (skip_length s0) as Hs. pose proof (skip_token s0) as Ht. set (s1 := skipSpaceAndComments s0) in *. clearbody s1.
  part. destruct (eof s') eqn:He; cbn [orb]; [cbn; lia|]. destruct x; [cbn; lia|]. pose proof (consume_false _ _ _ E) as ->.
  part. part. destruct x; [pose proof (skip_quietly_length s'0); cbn; lia|].
  part. destruct x; cbn [negb]; [part; cbn; lia|]. cbn. pose proof (bad_line_length _ _ _ _ _ Ht (eof_nil _ He) E E0 E1 E2). lia.
Qed.

Lemma lv_total vg name s : wp (parseLVBody vg name s) (fun r => (length r.2 <= length s)%nat) any_err.
Proof.
  unfold parseLVBody. apply wp_bind. eapply (wp_mono _ (fun r : list segment * scanner => (length r.2 <= length s)%nat)); [|by intros [segs s']|done].
  apply (wp_shrinks (St := list segment * scanner) snd snd lv_round ([], s)). clear. intros [segs s0]. unfold lv_round. cbn [snd].
  pose proof (skip_length s0) as Hs. pose proof (skip_token s0) as Ht. set (s1 := skipSpaceAndComments s0) in *. clearbody s1.
  part. destruct (eof s') eqn:He; cbn [orb]; [cbn; lia|]. destruct x; [cbn; lia|]. pose proof (consume_false _ _ _ E) as ->.
  part. part. destruct x.
  - apply wp_bind. eapply wp_mono; [apply segment_total| |done]. intros [seg s2] Hl. cbn in *. lia.
  - part. destruct x; [part; cbn; lia|]. cbn. pose proof (bad_line_length _ _ _ _ _ Ht (eof_nil _ He) E E0 E1 E2). lia.
Qed.

Lemma volumes_total vg s : wp (parseLogicalVolumes vg s) (fun r => (length r.2 <= length s)%nat) any_err.
Proof.
  apply (wp_shrinks (St := VG * scanner) snd snd volumes_round (vg, s)). clear. intros [vg s0]. unfold volumes_round. cbn [snd].
  pose proof (skip_length s0) as Hs. set (s1 := skipSpaceAndComments s0) in *. clearbody s1.
  destruct (eof s1); [done|]. part. destruct x; [cbn; lia|]. part. part. destruct x; cbn [negb]; [|done].
  apply wp_bind. eapply wp_mono; [apply lv_total| |done]. intros [lv s2] Hl. cbn in *. lia.
Qed.

Lemma pv_total s : wp (parsePVBody s) (fun r => (length r.2 <= length s)%nat) any_err.
Proof.
  apply (wp_shrinks (St := Z * Z * scanner) snd snd pv_round (0, 0, s)). clear. intros [[a b] s0]. unfold pv_round. cbn [snd].
  pose proof (skip_length s0) as Hs. set (s1 := skipSpaceAndComments s0) in *. clearbody s1.
  destruct (eof s1); [done|]. part. destruct x; [cbn; lia|]. part. part. destruct x.
  - apply wp_bind. eapply wp_mono; [apply block_length| |done]. cbn. intros s2 Hl. lia.
  - part. destruct x; cbn [negb]; [|done]. part. cbn. lia.
Qed.

Lemma pvs_total vg s : wp (parsePhysicalVolumes vg s) (fun r => (length r.2 <= length s)%nat) any_err.
Proof.
  apply (wp_shrinks (St := VG * scanner) snd snd pvs_round (vg, s)). clear. intros [vg s0]. unfold pvs_round. cbn [snd].
  pose proof (skip_length s0) as Hs. set (s1 := skipSpaceAndComments s0) in *. clearbody s1.
  destruct (eof s1); [done|]. part. destruct x; [cbn; lia|]. part. part. destruct x; cbn [negb]; [|done]. destruct (_ && _); apply wp_bind.
  - eapply wp_mono; [apply pv_total| |done]. intros [[a b] s2] Hl. cbn in *. lia.
  - eapply wp_mono; [apply block_length| |done]. cbn. intros s2 Hl. lia.
Qed.

Lemma vg_total name s : wp (parseVGBody name s) (fun _ => True) any_err.
Proof.
  eapply wp_mono; [apply (wp_shrinks (St := VG * scanner) (R := VG) snd (fun _ => []) vg_round (mkVG name 0 0 0 0 [], s))|done|done].
  clear. intros [vg s0]. unfold vg_round. cbn [snd length].
  pose proof (skip_length s0) as Hs. set (s1 := skipSpaceAndComments s0) in *. clearbody s1.
  destruct (eof s1); [done|]. part. destruct x; [cbn; lia|]. part. part. destruct x.
  - apply wp_bind. eapply (wp_mono _ (fun r : VG * scanner => (length r.2 <= length s'1)%nat)); [|intros [vg' s2] Hl; cbn in *; lia|done].
    destruct (bool_decide _); [apply pvs_total|]. destruct (bool_decide _); [apply volumes_total|].
    apply wp_bind. eapply wp_mono; [apply block_length| |done]. cbn. intros s2 Hl. lia.
  - part. destruct x; cbn [negb]; [|done]. part. cbn. lia.
Qed.

Lemma lvm_total_parse text : wp (parseMetadata text) (fun _ => True) any_err.
Proof.
  eapply wp_mono; [apply (wp_shrinks (St := scanner) (R := VG) id (fun _ => []) metadata_round text)|done|done].
  clear. intros s0. unfold metadata_round, id. cbn [length].
  pose proof (skip_length s0) as Hs. set (s1 := skipSpaceAndComments s0) in *. clearbody s1.
  destruct (eof s1); [done|]. part. part. destruct x; [part; cbn; lia|]. part. destruct x; [|done].
  apply wp_bind. eapply wp_mono; [apply vg_total| |done]. cbn. lia.
Qed.

(** Parsing any text ends, and with a volume group or an error: every loop of the
    parser consumes at least one byte per round, on malformed lines and unterminated
    blocks too, and no access is out of range. *)
Theorem lvm_parse_total text : wp (parseMetadata text) (fun _ => True) any_err.
Proof. apply lvm_total_parse. Qed.

(** ** The meaning of a text

    What the parser makes of a tree of fields and blocks, whatever the layout of its text. *)

Definition seg_step (seg : segment) (n : node) : segment :=
  match n with Field k v => set_segment seg k (value_text v) | Block _ _ => seg end.
Definition segment_of (body : list node) : segment := foldl seg_step (mkSeg 0 0 0 0) body.
Definition lv_step (segs : list segment) (n : node) : list segment :=
  match n with Field _ _ => segs | Block _ body => segs ++ [segment_of body] end.
Definition volumes_step (vg : VG) (n : node) : VG :=
  match n with Field _ _ => vg | Block name body => with_volume vg (buildLogicalVolume vg name (foldl lv_step [] body)) end.
Definition pv_step (st : Z * Z) (n : node) : Z * Z :=
  match n with
  | Field k v => (if bool_decide (k = lit "pe_start") then parseInt64 (value_text v) else st.1, if bool_decide (k = lit "pe_count") then parseInt64 (value_text v) else st.2)
  | Block _ _ => st
  end.
Definition pvs_step (vg : VG) (n : node) : VG :=
  match n with
  | Field _ _ => vg
  | Block _ body =>
      if (PEStart vg =? 0) && (PECount vg =? 0) then let st := foldl pv_step (0, 0) body in with_pv vg (i64 (st.1 * sectorSize)) st.2 else vg
  end.
Definition vg_step (vg : VG) (n : node) : VG :=
  match n with
  | Field k v => set_group vg k (value_text v)
  | Block k body => if bool_decide (k = lit "physical_volumes") then foldl pvs_step vg body
                    else if bool_decide (k = lit "logical_volumes") then foldl volumes_step vg body else vg
  end.
Definition group_of (name : gostring) (body : list node) : VG := foldl vg_step (mkVG name 0 0 0 0 []) body.

Definition is_block (n : node) : Prop := match n with Block _ _ => True | Field _ _ => False end.
(** The two lists of the group hold blocks only. *)
Definition lists_ok (n : node) : Prop :=
  match n with Block k body => k = lit "physical_volumes" \/ k = lit "logical_volumes" -> Forall is_block body | Field _ _ => True end.

Lemma assign_read x : consumeWithSpace 61 (61 :: x) = (true, x).
Proof. done. Qed.

(** One round on the text of a field or of a block, up to the choice between them. *)
#[local] Ltac round_key Hw Hk Hi :=
  match goal with |- context [?w ++ ?k ++ ?i ++ ?c :: ?x] =>
    let E1 := fresh in let E2 := fresh in let E3 := fresh in let E4 := fresh in
    destruct (key_read w k i c x Hw Hk Hi eq_refl) as (E1 & E2 & E3 & E4);
    rewrite E1; clear E1; repeat (first [rewrite E2 | rewrite E3 | rewrite E4]; cbn beta iota); clear E2 E3 E4 end;
  cbn [orb]; first [rewrite (consume_hit 123 _ _ Hi eq_refl) | rewrite (consume_miss 123 61 _ _ Hi eq_refl ltac:(lia))].
#[local] Ltac round_value b v Hb Hv He :=
  rewrite assign_read; cbn [negb]; rewrite (value_read b v _ _ Hb Hv He).
#[local] Ltac round_close Hw := rewrite (close_read _ _ Hw); cbn [eof consume Z.eqb Pos.eqb]; rewrite ?orb_true_r; reflexivity.

Lemma nodes_fuel ns t s : prints ns t -> (length ns < S (length (t ++ 125%Z :: s)))%nat.
Proof. intros Ht%prints_length. rewrite length_app. lia. Qed.

Lemma segment_text ns t s : prints ns t -> parseSegmentBody (t ++ 125 :: s) = Ret (segment_of ns, s).
Proof.
  intros Ht. unfold parseSegmentBody. apply (loop_nodes segment_round seg_step pair (fun _ _ => True)); [| | |exact Ht|by apply nodes_fuel|done].
  - intros a w r Hw. unfold segment_round. round_close Hw.
  - intros a w k i b v t' rest Hw Hk Hi Hb Hv He _. unfold segment_round. round_key Hw Hk Hi. by round_value b v Hb Hv He.
  - intros a w k i body tb rest Hw Hk Hi Hbody _. unfold segment_round. round_key Hw Hk Hi. unfold skip_quietly. by rewrite (skip_body body).
Qed.

Lemma lv_text vg name ns t s : prints ns t -> parseLVBody vg name (t ++ 125 :: s) = Ret (buildLogicalVolume vg name (foldl lv_step [] ns), s).
Proof.
  intros Ht. unfold parseLVBody. rewrite (loop_nodes lv_round lv_step pair (fun _ _ => True)) with (ns := ns); [done| | | |exact Ht|by apply nodes_fuel|done].
  - intros a w r Hw. unfold lv_round. round_close Hw.
  - intros a w k i b v t' rest Hw Hk Hi Hb Hv He _. unfold lv_round. round_key Hw Hk Hi. by round_value b v Hb Hv He.
  - intros a w k i body tb rest Hw Hk Hi Hbody _. unfold lv_round. round_key Hw Hk Hi. by rewrite (segment_text body).
Qed.

Lemma blocks_only {St} (ns : list node) (P : St -> node -> Prop) : Forall is_block ns -> (forall st n, is_block n -> P st n) -> forall (f : list node -> St) pre n post, ns = pre ++ n :: post -> P (f pre) n.
Proof. intros Hb HP f pre n post ->. apply HP. apply Forall_app in Hb as [_ Hb]. by apply Forall_inv in Hb. Qed.

Lemma volumes_text vg ns t s : prints ns t -> Forall is_block ns -> parseLogicalVolumes vg (t ++ 125 :: s) = Ret (foldl volumes_step vg ns, s).
Proof.
  intros Ht Hb. unfold parseLogicalVolumes. apply (loop_nodes volumes_round volumes_step pair (fun _ => is_block)); [| | |exact Ht|by apply nodes_fuel|exact (blocks_only ns (fun (_ : VG) => is_block) Hb (fun _ _ H => H) (foldl volumes_step vg))].
  - intros a w r Hw. unfold volumes_round. round_close Hw.
  - by intros a w k i b v t' rest _ _ _ _ _ _ [].
  - intros a w k i body tb rest Hw Hk Hi Hbody _. unfold volumes_round. round_key Hw Hk Hi. by rewrite (lv_text a k body).
Qed.

Lemma pv_text ns t s : prints ns t -> parsePVBody (t ++ 125 :: s) = Ret (foldl pv_step (0, 0) ns, s).
Proof.
  intros Ht. unfold parsePVBody. apply (loop_nodes pv_round pv_step pair (fun _ _ => True)); [| | |exact Ht|by apply nodes_fuel|done].
  - intros [a1 a2] w r Hw. unfold pv_round. round_close Hw.
  - intros [a1 a2] w k i b v t' rest Hw Hk Hi Hb Hv He _. unfold pv_round. round_key Hw Hk Hi. by round_value b v Hb Hv He.
  - intros [a1 a2] w k i body tb rest Hw Hk Hi Hbody _. unfold pv_round. round_key Hw Hk Hi. by rewrite (skip_body body).
Qed.

Lemma pvs_text vg ns t s : prints ns t -> Forall is_block ns -> parsePhysicalVolumes vg (t ++ 125 :: s) = Ret (foldl pvs_step vg ns, s).
Proof.
  intros Ht Hb. unfold parsePhysicalVolumes. apply (loop_nodes pvs_round pvs_step pair (fun _ => is_block)); [| | |exact Ht|by apply nodes_fuel|exact (blocks_only ns (fun (_ : VG) => is_block) Hb (fun _ _ H => H) (foldl pvs_step vg))].
  - intros a w r Hw. unfold pvs_round. round_close Hw.
  - by intros a w k i b v t' rest _ _ _ _ _ _ [].
  - intros a w k i body tb rest Hw Hk Hi Hbody _. unfold pvs_round. round_key Hw Hk Hi. cbn [negb pvs_step]. destruct (_ && _).
    + rewrite (pv_text body) by done. by destruct (foldl pv_step (0, 0) body).
    + by rewrite (skip_body body).
Qed.

Lemma group_text name ns t s : prints ns t -> Forall lists_ok ns -> parseVGBody name (t ++ 125 :: s) = Ret (group_of name ns).
Proof.
  intros Ht Hl. unfold parseVGBody, group_of. rewrite (loop_nodes vg_round vg_step (fun vg _ => vg) (fun _ => lists_ok)) with (ns := ns); [done| | | |exact Ht|by apply nodes_fuel|].
  - intros a w r Hw. unfold vg_round. round_close Hw.
  - intros a w k i b v t' rest Hw Hk Hi Hb Hv He _. unfold vg_round. round_key Hw Hk Hi. by round_value b v Hb Hv He.
  - intros a w k i body tb rest Hw Hk Hi Hbody Hok. unfold vg_round. round_key Hw Hk Hi. cbn [vg_step]. cbn in Hok.
    case_bool_decide as Hp; [rewrite (pvs_text a body) by auto; done|]. case_bool_decide as Hv; [rewrite (volumes_text a body) by auto; done|]. by rewrite (skip_body body).
  - intros pre n post ->. apply Forall_app in Hl as [_ Hl]. by apply Forall_inv in Hl.
Qed.

(** The fields before the block of the group are read and dropped, and nothing is read
    behind it. *)
Definition is_field (n : node) : Prop := match n with Field _ _ => True | Block _ _ => False end.

Lemma metadata_field w k i b v t rest : blank w -> key_ok k -> inline i -> blank b -> spelled v t -> ends v rest -> metadata_round (w ++ k ++ i ++ 61 :: b ++ t ++ rest) = Ret (inl rest).
Proof.
  intros Hw Hk Hi Hb Hv He. unfold metadata_round. destruct (key_read w k i 61 (b ++ t ++ rest) Hw Hk Hi eq_refl) as (-> & -> & _ & ->).
  rewrite (consume_hit 61 _ _ Hi eq_refl). by rewrite (value_read b v t rest Hb Hv).
Qed.

Lemma metadata_block w k i body tb rest : blank w -> key_ok k -> inline i -> prints body tb -> Forall lists_ok body -> metadata_round (w ++ k ++ i ++ 123 :: tb ++ 125 :: rest) = Ret (inr (group_of k body)).
Proof.
  intros Hw Hk Hi Hb Hl. unfold metadata_round. destruct (key_read w k i 123 (tb ++ 125 :: rest) Hw Hk Hi eq_refl) as (-> & -> & _ & ->).
  rewrite (consume_miss 61 123 _ _ Hi eq_refl ltac:(lia)). change (consumeWithSpace 123 (123 :: tb ++ 125 :: rest)) with (true, tb ++ 125 :: rest).
  cbn match. by rewrite (group_text k body).
Qed.

Lemma metadata_text fields name body post ns t tail : prints ns t -> ns = fields ++ Block name body :: post -> Forall is_field fields -> Forall lists_ok body -> forall fuel, (length ns <= fuel)%nat ->
  go_for fuel metadata_round (t ++ tail) = Ret (group_of name body).
Proof.
  intros Ht. revert fields. induction Ht as [w Hw|w k i b v t ns rest Hw Hk Hi Hb Hv He Hrest IH|w k i bd tb ns rest Hw Hk Hi Hbody _ _ IH];
    intros fields Ens Hf Hl fuel Hn; [by destruct fields| |]; cbn [length] in Hn; (destruct fuel as [|fuel]; [lia|]); cbn [go_for]; repeat (rewrite <-app_assoc; cbn [app]).
  - destruct fields as [|f fields]; [done|]. injection Ens as <- ->. inversion_clear Hf. rewrite (metadata_field w k i b v t (rest ++ tail)); try done.
    + cbn [mbind go_bind mret go_ret]. apply (IH fields); [done|done|done|lia].
    + destruct v; try done. destruct rest; [|done]. apply prints_length in Hrest. rewrite length_app in Hrest. cbn in Hrest. lia.
  - destruct fields as [|f fields]; [|injection Ens as <- _; by inversion Hf]. injection Ens as -> -> _. by rewrite (metadata_block w name i body tb (rest ++ tail)).
Qed.

(** ** What a volume group looks like in the metadata *)

(** The last field with a key. *)
Definition field (key : gostring) (ns : list node) : option gostring :=
  foldl (fun acc n => match n with Field k v => if bool_decide (k = key) then Some (value_text v) else acc | Block _ _ => acc end) None ns.

Record seg_meta := mkSM { sm_pv : gostring; sm_offset : Z; sm_count : Z; sm_stripes : Z }.
Record lv_meta := mkLM { lm_name : gostring; lm_segments : list seg_meta }.
Record vg_meta := mkVM { vm_name : gostring; vm_seqno : Z; vm_extent : Z (* sectors *); vm_start : Z (* sectors *); vm_count : Z; vm_volumes : list lv_meta }.

Definition separators (w : gostring) : Prop := Forall (fun c => is_separator c = true) w.
Definition word (w : gostring) : Prop := Forall (fun c => is_separator c = false) w /\ w <> [].
(** The list of stripes: the first one, a name in quotes and a number. *)
Definition stripes_text (t pv : gostring) (off : Z) : Prop := exists a b c d,
  separators a /\ separators b /\ b <> [] /\ separators c /\ word pv /\ (c = [] -> d = []) /\
  t = 91 :: (a ++ pv ++ b ++ decimal off ++ c ++ d) ++ [93].

Definition number (n : Z) : Prop := 0 <= n < 2 ^ 63.
Definition is_segment (m : seg_meta) (body : list node) : Prop :=
  field (lit "extent_count") body = Some (decimal (sm_count m)) /\ field (lit "stripe_count") body = Some (decimal (sm_stripes m)) /\
  (exists t, field (lit "stripes") body = Some t /\ stripes_text t (sm_pv m) (sm_offset m)) /\
  number (sm_count m) /\ number (sm_stripes m) /\ number (sm_offset m).
Definition block_bodies (ns : list node) : list (list node) := omap (fun n => match n with Block _ body => Some body | Field _ _ => None end) ns.
Definition is_volume (m : lv_meta) (n : node) : Prop :=
  match n with Field _ _ => False | Block name body => name = lm_name m /\ Forall2 is_segment (lm_segments m) (block_bodies body) end.
Definition other (n : node) : Prop := match n with Block k _ => k <> lit "physical_volumes" /\ k <> lit "logical_volumes" | Field _ _ => True end.

(** The body of a group: its physical volumes before its logical ones, other fields and
    blocks anywhere; the first physical volume counts. *)
Definition is_group (m : vg_meta) (body : list node) : Prop := exists front pvname pv pvs mid lvs back,
  body = front ++ Block (lit "physical_volumes") (Block pvname pv :: pvs) :: mid ++ Block (lit "logical_volumes") lvs :: back /\
  Forall other front /\ Forall other mid /\ Forall other back /\ Forall is_block pvs /\
  field (lit "seqno") body = Some (decimal (vm_seqno m)) /\ number (vm_seqno m) /\
  field (lit "extent_size") body = Some (decimal (vm_extent m)) /\
  field (lit "extent_size") (front ++ mid) = Some (decimal (vm_extent m)) /\ 0 <= vm_extent m < 2 ^ 54 /\
  field (lit "pe_start") pv = Some (decimal (vm_start m)) /\ 0 < vm_start m < 2 ^ 54 /\
  field (lit "pe_count") pv = Some (decimal (vm_count m)) /\ number (vm_count m) /\
  Forall2 is_volume (vm_volumes m) lvs.

(** The volume group that the metadata means. *)
Definition the_segment (m : seg_meta) : segment :=
  if bool_decide (sm_pv m = lit "pv0") then mkSeg (sm_offset m) (sm_count m) (sm_stripes m) 0 else mkSeg 0 (sm_count m) (sm_stripes m) (-1).
Definition empty_group (m : vg_meta) : VG := mkVG (vm_name m) (vm_seqno m) (vm_extent m * 512) (vm_start m * 512) (vm_count m) [].
Definition the_volume (m : vg_meta) (lv : lv_meta) : LogicalVolume := buildLogicalVolume (empty_group m) (lm_name lv) (the_segment <$> lm_segments lv).
Definition the_group (m : vg_meta) : VG :=
  mkVG (vm_name m) (vm_seqno m) (vm_extent m * 512) (vm_start m * 512) (vm_count m) (the_volume m <$> vm_volumes m).

(** *** Fields *)

Lemma field_app key ns ns' : field key (ns ++ ns') = match field key ns' with Some t => Some t | None => field key ns end.
Proof.
  unfold field. rewrite foldl_app. generalize (foldl (fun acc n => match n with Field k v => if bool_decide (k = key) then Some (value_text v) else acc | Block _ _ => acc end) None ns).
  intros o. induction ns' as [|n ns' IH] using rev_ind; [done|]. rewrite !foldl_app. cbn [foldl]. destruct n as [k v|k b]; [|done]. by destruct (bool_decide _).
Qed.

Lemma field_last key ns n : field key (ns ++ [n]) = match n with Field k v => if bool_decide (k = key) then Some (value_text v) else field key ns | Block _ _ => field key ns end.
Proof. rewrite field_app. destruct n as [k v|k b]; cbn; [by destruct (bool_decide _)|done]. Qed.

(** Tests between two literal keys. *)
#[local] Ltac decide_keys :=
  repeat match goal with |- context [bool_decide (lit ?a = lit ?b)] =>
    let r := eval vm_compute in (bool_decide (lit a = lit b)) in change (bool_decide (lit a = lit b)) with r; cbn match end.

Definition num (t : option gostring) : Z := match t with Some t => parseInt64 t | None => 0 end.

Lemma pv_fields ns : foldl pv_step (0, 0) ns = (num (field (lit "pe_start") ns), num (field (lit "pe_count") ns)).
Proof.
  induction ns as [|n ns IH] using rev_ind; [done|]. rewrite foldl_app, !field_last, IH. destruct n as [k v|k b]; [|done].
  cbn [foldl pv_step fst snd]. by destruct (bool_decide (k = lit "pe_start")), (bool_decide (k = lit "pe_count")).
Qed.

Lemma segment_fields ns t pv off : field (lit "stripes") ns = Some t -> parseStripes t = inl (pv, off) ->
  segment_of ns = mkSeg off (num (field (lit "extent_count") ns)) (num (field (lit "stripe_count") ns)) pv.
Proof.
  intros Ht Hp. assert (extentCount (segment_of ns) = num (field (lit "extent_count") ns) /\ stripeCount (segment_of ns) = num (field (lit "stripe_count") ns) /\
    (field (lit "stripes") ns = Some t -> stripeOffset (segment_of ns) = off /\ pvIndex (segment_of ns) = pv)) as (H1 & H2 & H3).
  { clear Ht. unfold segment_of. induction ns as [|n ns (IH1 & IH2 & IH3)] using rev_ind; [done|]. rewrite foldl_app, !field_last. destruct n as [k v|k b]; [|done].
    cbn [foldl seg_step]. unfold set_segment. set (seg := foldl seg_step _ ns) in *.
    case_bool_decide as E1; [subst k; decide_keys; exact (conj eq_refl (conj IH2 IH3))|]. case_bool_decide as E2; [subst k; decide_keys; exact (conj IH1 (conj eq_refl IH3))|]. case_bool_decide as E3; [|exact (conj IH1 (conj IH2 IH3))].
    split; [destruct (parseStripes (value_text v)) as [[]|]; exact IH1|]. split; [destruct (parseStripes (value_text v)) as [[]|]; exact IH2|]. intros [= ->]. by rewrite Hp. }
  destruct (H3 Ht) as [H4 H5]. destruct (segment_of ns). cbn in *. by subst.
Qed.

(** *** The list of stripes *)

Lemma fields_separators a s : separators a -> FieldsFunc is_separator (a ++ s) [] = FieldsFunc is_separator s [].
Proof. induction 1 as [|c a Hc Ha IH]; [done|]. cbn [app FieldsFunc]. by rewrite Hc. Qed.

Lemma fields_word w s acc : Forall (fun c => is_separator c = false) w -> FieldsFunc is_separator (w ++ s) acc = FieldsFunc is_separator s (reverse w ++ acc).
Proof.
  intros Hw. revert acc. induction Hw as [|c w Hc Hw IH]; intros acc; [done|]. cbn [app FieldsFunc]. rewrite Hc, IH, reverse_cons, <-app_assoc. done.
Qed.

Lemma fields_end s acc : acc <> [] -> (match s with [] => True | c :: _ => is_separator c = true end) -> FieldsFunc is_separator s acc = reverse acc :: FieldsFunc is_separator s [].
Proof. intros Ha Hs. destruct acc as [|x acc]; [done|]. destruct s as [|c s]; [done|]. cbn [FieldsFunc]. by rewrite Hs. Qed.

Lemma fields_one w s : word w -> (match s with [] => True | c :: _ => is_separator c = true end) -> FieldsFunc is_separator (w ++ s) [] = w :: FieldsFunc is_separator s [].
Proof.
  intros [Hw Hne] Hs. rewrite fields_word, app_nil_r by done. rewrite fields_end; [by rewrite reverse_involutive| |done].
  intros E. apply (f_equal length) in E. rewrite length_reverse in E. by destruct w.
Qed.

Lemma head_separator w s : separators w -> w <> [] -> match w ++ s with [] => True | c :: _ => is_separator c = true end.
Proof. intros Hw Hne. destruct Hw as [|c w Hc _]; [done|]. exact Hc. Qed.

Lemma decimal_word n : 0 <= n -> word (decimal n).
Proof.
  intros Hn. destruct (decimal_digits n Hn) as [Hd Hne]. split; [|done]. eapply Forall_impl; [exact Hd|]. intros c Hc. cbn beta in Hc.
  unfold is_separator. rewrite !orb_false_iff, !Z.eqb_neq. lia.
Qed.

Lemma stripes_read t pv off : stripes_text t pv off -> number off -> parseStripes t = inl (if bool_decide (pv = lit "pv0") then (0, off) else (-1, 0)).
Proof.
  intros (a & b & c & d & Ha & Hb & Hbne & Hc & Hpv & Hcd & ->) Hoff. set (x := a ++ pv ++ b ++ decimal off ++ c ++ d). unfold parseStripes.
  rewrite trim_printable by (unfold printable; lia). change (TrimPrefix (91 :: x ++ [93]) [91]) with (x ++ [93]).
  assert (TrimSuffix (x ++ [93]) [93] = x) as ->.
  { unfold TrimSuffix. rewrite reverse_snoc. cbn. by rewrite reverse_involutive. }
  unfold x. rewrite fields_separators by done. rewrite fields_one by (done || by apply head_separator). rewrite fields_separators by done.
  rewrite fields_one; [|unfold number in Hoff; apply decimal_word; lia|destruct c as [|c0 c]; [by rewrite Hcd|by apply head_separator]].
  case_bool_decide as E; cbn [negb]; [|done]. by rewrite parse_int_decimal.
Qed.

(** *** The group *)

Lemma segment_meant m body : is_segment m body -> segment_of body = the_segment m.
Proof.
  intros (Hc & Hs & (t & Ht & Hst) & Nc & Ns & No). pose proof (stripes_read t _ _ Hst No) as Hp. unfold the_segment.
  case_bool_decide; rewrite (segment_fields body t _ _ Ht Hp), Hc, Hs; cbn [num]; by rewrite !parse_decimal.
Qed.

Lemma segments_meant segs ns acc : Forall2 is_segment segs (block_bodies ns) -> foldl lv_step acc ns = acc ++ (the_segment <$> segs).
Proof.
  revert segs acc. induction ns as [|[k v|k b] ns IH]; intros segs acc Hs; unfold block_bodies in Hs; cbn [omap list_omap] in Hs.
  - inversion Hs. by rewrite app_nil_r.
  - cbn [foldl lv_step]. by apply IH.
  - inversion Hs as [|m ? segs' ? Hm Hr]; subst. cbn [foldl lv_step]. rewrite (IH segs' _ Hr), (segment_meant m b Hm). by rewrite <-app_assoc.
Qed.

(** What a volume is built from. *)
Lemma build_same vg vg' name segs : PEStart vg = PEStart vg' -> ExtentBytes vg = ExtentBytes vg' -> buildLogicalVolume vg name segs = buildLogicalVolume vg' name segs.
Proof.
  intros H1 H2. unfold buildLogicalVolume. assert (segment_extents vg segs = segment_extents vg' segs) as ->; [|done].
  induction segs as [|s segs IH]; [done|]. cbn. by rewrite H1, H2, IH.
Qed.

Lemma volumes_meant m vols ns vg : Forall2 is_volume vols ns -> PEStart vg = vm_start m * 512 -> ExtentBytes vg = vm_extent m * 512 ->
  foldl volumes_step vg ns = mkVG (Name vg) (Seqno vg) (ExtentBytes vg) (PEStart vg) (PECount vg) (Volumes vg ++ (the_volume m <$> vols)).
Proof.
  intros Hv. revert vg. induction Hv as [|lv n vols ns Hn Hv IH]; intros vg Hs He; [rewrite app_nil_r; by destruct vg|].
  destruct n as [|name body]; [done|]. destruct Hn as [-> Hsegs]. cbn [foldl volumes_step]. rewrite IH by done. cbn [with_volume Name Seqno ExtentBytes PEStart PECount Volumes].
  rewrite (segments_meant _ _ _ Hsegs), <-app_assoc. cbn [app fmap list_fmap]. unfold the_volume at 2. by rewrite (build_same vg (empty_group m)).
Qed.

Lemma pvs_kept vg ns : PECount vg <> 0 \/ PEStart vg <> 0 -> foldl pvs_step vg ns = vg.
Proof.
  intros Hvg. induction ns as [|[k v|k b] ns IH]; [done|done|]. cbn [foldl pvs_step]. assert ((PEStart vg =? 0) && (PECount vg =? 0) = false) as ->; [|done].
  apply andb_false_iff. rewrite !Z.eqb_neq. tauto.
Qed.

(** The fields of a part of the body without the two lists. *)
Lemma others_meant ns vg : Forall other ns -> foldl vg_step vg ns =
  mkVG (Name vg) (match field (lit "seqno") ns with Some t => parseInt64 t | None => Seqno vg end)
    (match field (lit "extent_size") ns with Some t => i64 (parseInt64 t * 512) | None => ExtentBytes vg end) (PEStart vg) (PECount vg) (Volumes vg).
Proof.
  induction ns as [|n ns IH] using rev_ind; intros Ho; [by destruct vg|]. apply Forall_app in Ho as [Ho Hn]. apply Forall_inv in Hn. rewrite foldl_app, !field_last, IH by done.
  destruct n as [k v|k b]; cbn [foldl vg_step].
  - unfold set_group. case_bool_decide as E1; [subst k; by decide_keys|]. by case_bool_decide.
  - destruct Hn as [H1 H2]. by rewrite !bool_decide_false.
Qed.

Lemma field_skip key front k b ns : field key (front ++ Block k b :: ns) = field key (front ++ ns).
Proof. change (Block k b :: ns) with ([Block k b] ++ ns). rewrite !field_app. by destruct (field key ns). Qed.

Lemma group_meant m body : is_group m body -> group_of (vm_name m) body = the_group m /\ Forall lists_ok body.
Proof.
  intros (front & pvname & pv & pvs & mid & lvs & back & -> & Hf & Hm & Hb & Hpvs & Hseq & Nseq & Hext & Hext' & Next & Hstart & Nstart & Hcount & Ncount & Hvols).
  rewrite !field_skip, !app_assoc, !field_skip, <-!app_assoc in *. unfold number in *. split.
  - unfold group_of. rewrite foldl_app, (others_meant front) by done. cbn [foldl Name Seqno ExtentBytes PEStart PECount Volumes vg_step]. decide_keys.
    cbn [foldl pvs_step PEStart PECount]. change ((0 =? 0) && (0 =? 0)) with true. cbn match. rewrite pv_fields, Hstart, Hcount. cbn [num fst snd]. rewrite !parse_decimal by lia.
    unfold sectorSize. rewrite i64_id by lia. rewrite pvs_kept by (cbn [with_pv PEStart]; right; lia). cbn [with_pv Name Seqno ExtentBytes Volumes].
    rewrite foldl_app, (others_meant mid) by done. cbn [foldl Name Seqno ExtentBytes PEStart PECount Volumes vg_step]. decide_keys.
    rewrite (volumes_meant m (vm_volumes m) lvs) by (done || (cbn [ExtentBytes]; rewrite field_app in Hext'; destruct (field (lit "extent_size") mid); [by injection Hext' as ->; rewrite parse_decimal, i64_id by lia|by rewrite Hext', parse_decimal, i64_id by lia])).
    cbn [Name Seqno ExtentBytes PEStart PECount Volumes app]. rewrite others_meant by done. cbn [Name Seqno ExtentBytes PEStart PECount Volumes]. unfold the_group.
    rewrite !field_app in Hseq, Hext. f_equal.
    + destruct (field (lit "seqno") back); [injection Hseq as ->; by apply parse_decimal|]. destruct (field (lit "seqno") mid); [injection Hseq as ->; by apply parse_decimal|]. rewrite Hseq. by apply parse_decimal.
    + destruct (field (lit "extent_size") back); [injection Hext as ->|destruct (field (lit "extent_size") mid); [injection Hext as ->|rewrite Hext]]; by rewrite parse_decimal, i64_id by lia.
  - assert (forall ns, Forall other ns -> Forall lists_ok ns) as Ho.
    { intros ns Hns. eapply Forall_impl; [exact Hns|]. intros [k v|k b]; [done|]. intros [H1 H2] [H|H]; done. }
    apply Forall_app. split; [by apply Ho|]. constructor; [intros _; by constructor|]. apply Forall_app. split; [by apply Ho|]. constructor; [|by apply Ho].
    intros _. clear - Hvols. induction Hvols as [|lv [k v|k b] ? ? Hn ? IH]; [constructor|done|by constructor].
Qed.

(** C33. The metadata of a volume group is parsed into that group: its name, number, extent
    size, the start and size of the first physical volume, and one logical volume per block,
    built from its segments. The text may have any blanks, line breaks, comments and escapes
    in strings, and fields and blocks the parser does not know; comments, strings and lists
    have no braces in them (which the parser counts, see [lvm_brace_in_string]), and lists no
    brackets. The group's block is the first block of the text, and what follows it is not
    looked at. In the group the block of physical volumes comes before the one of logical
    volumes, each is there once and holds blocks only, the extent size is given before the
    logical volumes, the first physical volume does not start at sector 0, every segment has
    its counts and its list of stripes, and the numbers are natural ones below 2^63, the
    sizes in sectors below 2^54. *)
Theorem lvm_parse_printed m fields body post text tail :
  is_group m body -> Forall is_field fields -> prints (fields ++ Block (vm_name m) body :: post) text ->
  parseMetadata (text ++ tail) = Ret (the_group m).
Proof.
  intros Hg Hf Ht. destruct (group_meant m body Hg) as [<- Hl]. unfold parseMetadata.
  apply (metadata_text fields (vm_name m) body post _ text tail Ht eq_refl Hf Hl). pose proof (prints_length _ _ Ht). rewrite (length_app text). lia.
Qed.

(** ** The bytes of a volume *)

Definition End_ (e : Extent) : Z := Start e + Size e.
Definition extent_ok (e : Extent) : Prop := 0 <= Start e /\ 0 <= Size e /\ End_ e < 2 ^ 63.
Definition in_extents (b : Z) (l : list Extent) : Prop := Exists (fun e => Start e <= b < End_ e) l.
(** Sorted, with a gap between any two. *)
Definition separated (l : list Extent) : Prop := StronglySorted (fun e f => End_ e < Start f) l.
(** In order on the disk, and not overlapping. *)
Definition ascending (l : list Extent) : Prop := StronglySorted (fun e f => End_ e <= Start f) l.
(** The addresses of the bytes, first extent first. *)
Definition addresses (l : list Extent) : list Z := l ≫= (fun e => seqZ (Start e) (Size e)).

Lemma extents_snoc {A} (R : A -> A -> Prop) l x : StronglySorted R (l ++ [x]) <-> StronglySorted R l /\ Forall (fun y => R y x) l.
Proof.
  induction l as [|a l IH]; cbn; [split; [by split; constructor|by intros _; repeat constructor]|]. split.
  - intros H. apply StronglySorted_inv in H as [Hs Hf]. apply IH in Hs as [Hs Hx]. apply Forall_app in Hf as [Hf Ha]. apply Forall_inv in Ha.
    split; constructor; done.
  - intros [Hs Hx]. apply StronglySorted_inv in Hs as [Hs Hf]. inversion_clear Hx. constructor; [by apply IH|]. apply Forall_app. split; [done|by repeat constructor].
Qed.

Lemma insert_members e l (P : Extent -> Prop) : Forall P (insert_extent e l) <-> P e /\ Forall P l.
Proof.
  induction l as [|f l IH]; cbn [insert_extent]; [by rewrite Forall_cons|]. destruct (_ <? _); rewrite !Forall_cons, ?IH; tauto.
Qed.

Lemma insert_exists e l (P : Extent -> Prop) : Exists P (insert_extent e l) <-> P e \/ Exists P l.
Proof.
  induction l as [|f l IH]; cbn [insert_extent]; [by rewrite Exists_cons|]. destruct (_ <? _); rewrite !Exists_cons, ?IH; tauto.
Qed.

Definition by_start (l : list Extent) : Prop := StronglySorted (fun e f => Start e <= Start f) l.

Lemma insert_by_start e l : by_start l -> by_start (insert_extent e l).
Proof.
  unfold by_start. induction 1 as [|f l Hs IH Hf]; cbn [insert_extent]; [by repeat constructor|].
  destruct (Z.ltb_spec (Start f) (Start e)).
  - constructor; [done|]. apply insert_members. split; [lia|done].
  - constructor; [by constructor|]. constructor; [done|]. eapply Forall_impl; [exact Hf|]. cbn. lia.
Qed.

Lemma sort_by_start l : by_start (sort_extents l).
Proof. induction l as [|e l IH]; cbn; [constructor|]. by apply insert_by_start. Qed.
Lemma sort_members l (P : Extent -> Prop) : Forall P (sort_extents l) <-> Forall P l.
Proof. induction l as [|e l IH]; cbn; [done|]. by rewrite insert_members, Forall_cons, IH. Qed.
Lemma sort_exists l (P : Extent -> Prop) : Exists P (sort_extents l) <-> Exists P l.
Proof. induction l as [|e l IH]; cbn; [done|]. by rewrite insert_exists, Exists_cons, IH. Qed.
Lemma sort_sorted l : by_start l -> sort_extents l = l.
Proof.
  induction 1 as [|e l Hs IH Hf]; cbn; [done|]. fold (sort_extents l). rewrite IH. destruct Hf as [|f l Hf _]; [done|]. cbn. by rewrite (proj2 (Z.ltb_ge _ _)).
Qed.

(** One round of the loop: the result stays in order, has the bytes of [e] in addition, ends
    nowhere new, and has the addresses of [e] behind the others when [e] lies behind them. *)
Lemma merge_step_ok out e : extent_ok e -> Forall extent_ok out -> separated (reverse out) -> Forall (fun x => Start x <= Start e) out -> let out' := merge_step out e in
  Forall extent_ok out' /\ separated (reverse out') /\ Forall (fun x => Start x <= Start e) out' /\ (forall b, in_extents b out' <-> in_extents b out \/ Start e <= b < End_ e) /\
  (forall c, Forall (fun x => End_ x <= c) out -> End_ e <= c -> Forall (fun x => End_ x <= c) out') /\
  (Forall (fun x => End_ x <= Start e) out -> addresses (reverse out') = addresses (reverse out) ++ seqZ (Start e) (Size e)).
Proof.
  unfold separated, in_extents, extent_ok, End_. intros (He1 & He2 & He3) Hok Hsep Hle. destruct out as [|last out]; cbn [merge_step].
  { split; [by repeat constructor|]. split; [repeat constructor|]. split; [by repeat constructor|]. split; [intros b; rewrite Exists_cons; tauto|]. split; [by repeat constructor|].
    intros _. cbn. by rewrite app_nil_r. }
  inversion_clear Hok as [|? ? (Hl1 & Hl2 & Hl3) Hok']. inversion_clear Hle as [|? ? Hle1 Hle']. rewrite reverse_cons in Hsep. apply extents_snoc in Hsep as [Hsep Hlast].
  rewrite (i64_id (Start last + Size last)), (i64_id (Start e + Size e)) by lia. destruct (Z.leb_spec (Start e) (Start last + Size last)) as [Htouch|Hgap].
  - destruct (Z.ltb_spec (Start last + Size last) (Start e + Size e)) as [Hlonger|Hin].
    + rewrite i64_id by lia. split; [constructor; [cbn; lia|done]|]. split; [rewrite reverse_cons; apply extents_snoc; cbn; done|]. split; [by constructor|].
      split; [intros b; rewrite !Exists_cons; cbn; split; [intros [H|H]; [destruct (decide (b < Start last + Size last)); [left; left; lia|right; lia]|by left; right]|intros [[H|H]|H]; [left; lia|by right|left; lia]]|].
      split; [intros c [Hc1 Hc2]%Forall_cons Hc; constructor; [cbn; lia|done]|]. intros [Hend _]%Forall_cons.
      rewrite !reverse_cons. unfold addresses. rewrite !bind_app, <-app_assoc. f_equal. cbn. rewrite !app_nil_r.
      replace (Start e) with (Start last + Size last) at 2 by lia. rewrite <-seqZ_app by lia. f_equal. lia.
    + split; [by constructor|]. split; [rewrite reverse_cons; by apply extents_snoc|]. split; [by constructor|].
      split; [intros b; rewrite !Exists_cons; split; [by left|intros [H|H]; [done|left; lia]]|]. split; [done|]. intros [Hend _]%Forall_cons. replace (Size e) with 0 by lia. cbn. by rewrite app_nil_r.
  - split; [by repeat constructor|]. split; [rewrite (reverse_cons (last :: out)); apply extents_snoc; split; [rewrite reverse_cons; by apply extents_snoc|]|].
    { rewrite reverse_cons. apply Forall_app. split; [|repeat constructor; lia]. eapply Forall_impl; [exact Hlast|]. cbn. lia. }
    split; [repeat constructor; [lia|lia|done]|]. split; [intros b; rewrite !Exists_cons; tauto|]. split; [intros c Hc Hec; by constructor|].
    intros _. rewrite (reverse_cons (last :: out)). unfold addresses. rewrite bind_app. cbn. by rewrite app_nil_r.
Qed.

Lemma merge_inv l : forall seen out, by_start l -> Forall extent_ok l -> Forall extent_ok out -> separated (reverse out) ->
  Forall (fun f => Forall (fun e => Start e <= Start f) out) l -> (forall b, in_extents b out <-> in_extents b seen) -> (forall c, Forall (fun e => End_ e <= c) seen -> Forall (fun e => End_ e <= c) out) ->
  (ascending (seen ++ l) -> addresses (reverse out) = addresses seen) ->
  let res := foldl merge_step out l in
  separated (reverse res) /\ Forall extent_ok res /\ (forall b, in_extents b res <-> in_extents b (seen ++ l)) /\ (ascending (seen ++ l) -> addresses (reverse res) = addresses (seen ++ l)).
Proof.
  induction l as [|e l IH]; intros seen out Hs Hl Ho Hsep Hle Hin Hend Had; cbn [foldl]; [by rewrite app_nil_r in *|].
  apply StronglySorted_inv in Hs as [Hs Hse]. inversion_clear Hl as [|? ? He Hl']. inversion_clear Hle as [|? ? Hle1 Hle'].
  destruct (merge_step_ok out e He Ho Hsep Hle1) as (Ho' & Hsep' & Hlast & Hin' & Hend' & Had'). rewrite (cons_middle e seen l), app_assoc.
  apply IH; [done|done|done|done| | | |].
  - eapply Forall_impl; [exact Hse|]. cbn. intros f Hf. eapply Forall_impl; [exact Hlast|]. cbn. lia.
  - intros b. rewrite Hin', Hin. unfold in_extents. rewrite Exists_app, Exists_cons, Exists_nil. tauto.
  - intros c [Hc Hce]%Forall_app. apply Forall_inv in Hce. by apply Hend'; [apply Hend|].
  - intros Hasc. unfold addresses at 2. rewrite bind_app. cbn. rewrite app_nil_r. rewrite Had', Had; [done|by rewrite cons_middle, app_assoc|].
    apply Hend. rewrite <-app_assoc in Hasc. clear -Hasc. induction seen as [|x seen IH]; [constructor|]. apply StronglySorted_inv in Hasc as [Hs Hx].
    constructor; [|by apply IH]. apply Forall_app in Hx as [_ Hx]. by apply Forall_inv in Hx.
Qed.

Lemma ascending_by_start l : Forall extent_ok l -> ascending l -> by_start l.
Proof.
  intros Hok. induction 1 as [|e l Hs IH He]; [constructor|]. inversion_clear Hok as [|? ? Hoe Hl]. constructor; [by apply IH|].
  eapply Forall_impl; [exact He|]. unfold extent_ok, End_ in *. lia.
Qed.

Lemma merge_ok l : Forall extent_ok l -> separated (mergeExtents l) /\ Forall extent_ok (mergeExtents l) /\ (forall b, in_extents b (mergeExtents l) <-> in_extents b l) /\
  (ascending l -> addresses (mergeExtents l) = addresses l).
Proof.
  intros Hl. destruct (merge_inv (sort_extents l) [] []) as (H1 & H2 & H3 & H4); [apply sort_by_start|by apply sort_members|constructor|constructor|by apply Forall_true|done|done|done|].
  unfold mergeExtents. split; [done|]. split; [by apply Forall_reverse|]. split.
  - intros b. unfold in_extents in *. rewrite Exists_exists. setoid_rewrite elem_of_reverse. rewrite <-Exists_exists, H3. apply sort_exists.
  - intros Ha. rewrite (sort_sorted l) in * by (by apply ascending_by_start). by apply H4.
Qed.

Definition range_of (vg : VG) (seg : segment) : Extent := mkExtent (PEStart vg + stripeOffset seg * ExtentBytes vg) (extentCount seg * ExtentBytes vg).
Definition mappable (seg : segment) : Prop := pvIndex seg = 0 /\ stripeCount seg <= 1.

Lemma ranges_ok vg segs : 0 <= PEStart vg -> 0 <= ExtentBytes vg -> Forall (fun s => mappable s /\ 0 <= stripeOffset s /\ 0 <= extentCount s /\ End_ (range_of vg s) < 2 ^ 63) segs ->
  segment_extents vg segs = Some (range_of vg <$> segs) /\ Forall extent_ok (range_of vg <$> segs).
Proof.
  intros Hp He. induction 1 as [|s segs ([Hm1 Hm2] & Ho & Hc & Hend) Hs [IH1 IH2]]; [by split; [|constructor]|].
  unfold End_, range_of in Hend. cbn in Hend. assert (0 <= stripeOffset s * ExtentBytes vg /\ 0 <= extentCount s * ExtentBytes vg) as [H1 H2] by nia.
  cbn [segment_extents]. rewrite Hm1, (proj2 (Z.ltb_ge 1 (stripeCount s))) by lia. cbn [Z.eqb negb orb]. rewrite IH1. cbn [fmap option_fmap option_map list_fmap].
  rewrite (i64_id (stripeOffset s * ExtentBytes vg)), !i64_id by lia. split; [done|]. constructor; [|done]. unfold extent_ok, End_, range_of. cbn. lia.
Qed.

Lemma addresses_length l : Forall extent_ok l -> Z.of_nat (length (addresses l)) = foldr (fun e n => Size e + n) 0 l.
Proof.
  induction 1 as [|e l (_ & He & _) Hl IH]; [done|]. unfold addresses in *. cbn [mbind list_bind foldr]. rewrite length_app, length_seqZ. lia.
Qed.

Lemma total_size l : separated l -> Forall extent_ok l -> forall n, 0 <= n -> Forall (fun e => n <= Start e) l ->
  foldl (fun n e => i64 (n + Size e)) n l = n + foldr (fun e n => Size e + n) 0 l.
Proof.
  induction 1 as [|e l Hs IH Hf]; intros Hok n Hn Hle; cbn [foldl foldr]; [lia|]. inversion_clear Hok as [|? ? (H1 & H2 & H3) Hok']. apply Forall_inv in Hle. unfold End_ in *.
  rewrite i64_id by lia. rewrite IH; [lia|done|lia|]. eapply Forall_impl; [exact Hf|]. cbn. lia.
Qed.

(** C35. A volume whose segments are linear and on the first physical volume is mapped: its
    extents are sorted and separated by gaps, they have exactly the bytes of its segments,
    and its size is their number; when the segments are in the order of the disk and do
    not overlap, the extents give the same bytes in the same order. Any other volume
    has no extents and no size. *)
Theorem lvm_volume_extents vg name segs :
  (Forall mappable segs -> 0 <= PEStart vg -> 0 <= ExtentBytes vg ->
   Forall (fun s => 0 <= stripeOffset s /\ 0 <= extentCount s /\ End_ (range_of vg s) < 2 ^ 63) segs ->
   let lv := buildLogicalVolume vg name segs in let ranges := range_of vg <$> segs in
   lv_Name lv = name /\ separated (Extents lv) /\ (forall b, in_extents b (Extents lv) <-> in_extents b ranges) /\ lv_Size lv = len (addresses (Extents lv)) /\
   (ascending ranges -> addresses (Extents lv) = addresses ranges)) /\
  (Exists (fun s => ~ mappable s) segs -> buildLogicalVolume vg name segs = mkLV name 0 []).
Proof.
  split.
  - intros Hm Hp He Hs lv ranges. destruct (ranges_ok vg segs Hp He) as [Heq Hok]; [by apply Forall_and|].
    destruct (merge_ok _ Hok) as (Hsep & Hok' & Hin & Had). unfold lv, buildLogicalVolume. rewrite Heq. cbn [lv_Name lv_Size Extents]. fold ranges in Hsep, Hok', Hin, Had |- *.
    split; [done|]. split; [done|]. split; [done|]. split; [|done]. rewrite total_size; [unfold len; by rewrite addresses_length|done|done|done|].
    eapply Forall_impl; [exact Hok'|]. by intros e (? & _).
  - intros Hs. unfold buildLogicalVolume. assert (segment_extents vg segs = None) as ->; [|done]. induction Hs as [s segs Hs|s segs _ IH]; cbn [segment_extents].
    + unfold mappable in Hs. destruct (Z.eqb_spec (pvIndex s) 0); [|done]. destruct (Z.ltb_spec 1 (stripeCount s)); [done|tauto].
    + rewrite IH. by destruct (_ || _).
Qed.

(** ** The snapshots on the disk *)

Lemma cut_prefix_spec p s r : cut_prefix p s = Some r <-> s = p ++ r.
Proof.
  revert s. induction p as [|a p IH]; intros s; cbn; [split; [by intros [= ->]|by intros ->]|]. destruct s as [|b s]; [done|].
  destruct (Z.eqb_spec a b) as [->|Hne]; [rewrite IH; split; [by intros ->|by intros [= ->]]|split; [done|congruence]].
Qed.

(** The marker is at place [i]. *)
Definition occurs (needle s : gostring) (i : nat) : Prop := exists r, drop i s = needle ++ r.

Lemma occurs_cut needle s : occurs needle s 0 <-> is_Some (cut_prefix needle s).
Proof. unfold occurs, is_Some. setoid_rewrite cut_prefix_spec. by rewrite drop_0. Qed.

Lemma Index_spec needle s : needle <> [] -> match Index s needle with
  | Some k => (k < length s)%nat /\ occurs needle s k /\ forall j, (j < k)%nat -> ~ occurs needle s j
  | None => forall j, ~ occurs needle s j end.
Proof.
  intros Hne. assert (forall j, ~ occurs needle [] j) as Hnil. { intros j [r Hr]. rewrite drop_nil in Hr. by destruct needle. }
  induction s as [|c s IH]; cbn [Index]; [destruct (cut_prefix needle []) as [r|] eqn:E; [|exact Hnil]; apply cut_prefix_spec in E; by destruct needle|].
  destruct (cut_prefix needle (c :: s)) as [r|] eqn:E; [split; [cbn; lia|]; split; [by apply occurs_cut; rewrite E|lia]|].
  assert (~ occurs needle (c :: s) 0) as H0 by (rewrite occurs_cut, E; by intros [? ?]).
  destruct (Index s needle) as [k|]; cbn [fmap option_fmap option_map].
  - destruct IH as (Hk & Ho & Hj). split; [cbn; lia|]. split; [exact Ho|]. intros [|j] Hlt; [done|]. apply (Hj j). lia.
  - intros [|j]; [done|]. exact (IH j).
Qed.

(** No part of the needle is both a beginning and an end of it. *)
Definition no_border (needle : gostring) : Prop := forall d, (0 < d < length needle)%nat -> take (length needle - d) needle <> drop d needle.

Lemma occurs_apart needle s k j : no_border needle -> occurs needle s k -> occurs needle s j -> (k < j)%nat -> (k + length needle <= j)%nat.
Proof.
  intros Hnb [r Hr] [r' Hr'] Hlt. destruct (decide (k + length needle <= j)%nat) as [|Hn]; [done|exfalso].
  apply (Hnb (j - k)%nat ltac:(lia)). assert (drop (j - k) (needle ++ r) = needle ++ r') as E by (rewrite <-Hr, drop_drop, <-Hr'; f_equal; lia).
  rewrite drop_app_le in E by lia. apply (f_equal (take (length needle - (j - k)))) in E. rewrite take_app_le in E by (rewrite length_drop; lia).
  rewrite (take_ge (drop _ _)) in E by (rewrite length_drop; lia). rewrite E. by rewrite take_app_le by lia.
Qed.

Lemma occurs_drop needle s n i : occurs needle (drop n s) i <-> occurs needle s (n + i).
Proof. unfold occurs. by rewrite drop_drop. Qed.

Lemma find_all_spec needle : needle <> [] -> no_border needle -> forall fuel base s, (length s < fuel)%nat ->
  (forall i, i ∈ find_all fuel base s needle <-> exists k, i = (base + k)%nat /\ occurs needle s k) /\ StronglySorted lt (find_all fuel base s needle).
Proof.
  intros Hne Hnb. assert (0 < length needle)%nat as Hpos by (destruct needle; [done|cbn; lia]). induction fuel as [|fuel IH]; intros base s Hf; [lia|]. cbn [find_all].
  pose proof (Index_spec needle s Hne) as HI. destruct (Index s needle) as [k|].
  - destruct HI as (Hk & Ho & Hfirst). destruct (IH (base + k + length needle)%nat (drop (k + length needle) s) ltac:(rewrite length_drop; lia)) as [Hin Hs]. split.
    + intros i. rewrite elem_of_cons, Hin. split.
      * intros [->|(j & -> & Hj)]; [by exists k|]. apply occurs_drop in Hj. eexists. split; [|exact Hj]. lia.
      * intros (j & -> & Hj). destruct (Nat.lt_total j k) as [Hlt|[->|Hgt]]; [by destruct (Hfirst j Hlt)|by left|]. right.
        pose proof (occurs_apart needle s k j Hnb Ho Hj Hgt). exists (j - (k + length needle))%nat. split; [lia|]. apply occurs_drop. by replace (k + length needle + (j - (k + length needle)))%nat with j by lia.
    + constructor; [done|]. apply Forall_forall. intros i (j & -> & _)%Hin. lia.
  - split; [|constructor]. intros i. split; [by intros ?%elem_of_nil|]. intros (k & _ & Hk). by destruct (HI k).
Qed.

Lemma marker_no_border : no_border textMarker.
Proof.
  intros d Hd. change (length textMarker) with 37%nat in *. assert (d ∈ seq 1 36) as Hin by (apply elem_of_seq; lia). revert d Hin Hd.
  assert (Forall (fun d => take (37 - d) textMarker <> drop d textMarker) (seq 1 36)) as Hall by (apply (bool_decide_unpack _); vm_compute; exact I).
  intros d Hin _. exact (proj1 (Forall_forall _ _) Hall d Hin).
Qed.

Lemma findAll_spec buf : (forall i, i ∈ findAll buf textMarker <-> occurs textMarker buf i) /\ StronglySorted lt (findAll buf textMarker).
Proof.
  destruct (find_all_spec textMarker ltac:(done) marker_no_border (S (length buf)) 0 buf ltac:(lia)) as [Hin Hs]. split; [|done].
  intros i. rewrite Hin. split; [by intros (k & -> & Hk)|]. intros Hi. by exists i.
Qed.

(** The snapshot at a place. *)
Definition snapshot (buf : gostring) (i : nat) (vg : VG) : Prop := parseMetadata (stripNUL (drop i buf)) = Ret vg.

Definition newest_of (buf : gostring) (places : list nat) (best : option VG) (vg : VG) : Prop :=
  (forall b, best = Some b -> Seqno b <= Seqno vg) /\ (forall j v, j ∈ places -> snapshot buf j v -> Seqno v <= Seqno vg) /\
  (best = Some vg \/ exists i, i ∈ places /\ snapshot buf i vg /\ (forall b, best = Some b -> Seqno b < Seqno vg) /\
     forall j v, j ∈ places -> (j < i)%nat -> snapshot buf j v -> Seqno v < Seqno vg).

Lemma newer_spec best vg : exists b, newer best vg = Some b /\ (forall b0, best = Some b0 -> Seqno b0 <= Seqno b) /\ Seqno vg <= Seqno b /\
  (best = Some b \/ b = vg /\ forall b0, best = Some b0 -> Seqno b0 < Seqno vg).
Proof.
  unfold newer. destruct best as [b|]; [|eexists; split; [done|]; split; [done|]; split; [lia|]; right; done].
  destruct (Z.ltb_spec (Seqno b) (Seqno vg)); (eexists; split; [done|]; split; [intros b0 [= <-]; lia|]; split; [lia|]); [right|by left].
  split; [done|]. intros b0 [= <-]. lia.
Qed.

Lemma scan_ok buf places : StronglySorted lt places -> forall best, exists b, scan_snapshots buf places best = Ret b /\
  match b with None => best = None /\ forall j v, j ∈ places -> ~ snapshot buf j v | Some vg => newest_of buf places best vg end.
Proof.
  induction 1 as [|i places Hs IH Hi]; intros best; cbn [scan_snapshots].
  { exists best. split; [done|]. destruct best as [vg|]; [|split; [done|intros j v []%elem_of_nil]].
    split; [by intros b [= <-]|]. split; [intros j v []%elem_of_nil|by left]. }
  pose proof (lvm_total_parse (stripNUL (drop i buf))) as Hp. rewrite Forall_forall in Hi.
  assert (forall j v, j ∈ i :: places -> (j < i)%nat -> ~ snapshot buf j v) as Hfirst.
  { intros j v [->|Hj]%elem_of_cons Hlt; [lia|]. specialize (Hi j Hj). lia. }
  unfold catch. destruct (parseMetadata (stripNUL (drop i buf))) as [vg|e| |] eqn:E; try done; cbn [mbind go_bind].
  - destruct (newer_spec best vg) as (b & Hb & Hle & Hvg & Hfrom). rewrite Hb. destruct (IH (Some b)) as (b' & -> & Hb'). exists b'. split; [done|].
    destruct b' as [w|]; [|by destruct Hb']. destruct Hb' as (H1 & H2 & H3). specialize (H1 b eq_refl).
    split; [intros b0 Hb0; specialize (Hle b0 Hb0); lia|]. split.
    { intros j v [->|Hj]%elem_of_cons Hv; [|by apply (H2 j)]. unfold snapshot in Hv. rewrite E in Hv. injection Hv as <-. lia. }
    destruct H3 as [[= ->]|(k & Hk & Hw & Hlt & Hbefore)].
    + destruct Hfrom as [->|[-> Hlt]]; [by left|]. right. exists i. split; [by left|]. split; [done|]. split; [done|]. intros j v Hj Hji Hv. by destruct (Hfirst j v Hj Hji).
    + right. exists k. split; [by right|]. split; [done|]. specialize (Hlt b eq_refl). split; [intros b0 Hb0; specialize (Hle b0 Hb0); lia|].
      intros j v [->|Hj]%elem_of_cons Hjk Hv; [|by apply (Hbefore j)]. unfold snapshot in Hv. rewrite E in Hv. injection Hv as <-. lia.
  - destruct (IH best) as (b' & -> & Hb'). exists b'. split; [done|].
    assert (forall j v, j ∈ i :: places -> snapshot buf j v -> j ∈ places) as Hskip.
    { intros j v [->|Hj]%elem_of_cons Hv; [|done]. unfold snapshot in Hv. by rewrite E in Hv. }
    destruct b' as [w|]; [|destruct Hb' as [-> Hn]; split; [done|]; intros j v Hj Hv; by apply (Hn j v (Hskip j v Hj Hv))].
    destruct Hb' as (H1 & H2 & H3). split; [done|]. split; [intros j v Hj Hv; by apply (H2 j v (Hskip j v Hj Hv))|].
    destruct H3 as [->|(k & Hk & Hw & Hlt & Hbefore)]; [by left|]. right. exists k. split; [by right|]. split; [done|]. split; [done|].
    intros j v Hj Hjk Hv. by apply (Hbefore j v (Hskip j v Hj Hv)).
Qed.

(** The label of a physical volume, in its second sector. *)
Definition labelled (file : Z -> Z) (origin : Z) : Prop := span file (origin + 512) 8 = lit "LABELONE" /\ span file (origin + 536) 8 = lit "LVM2 001".

Lemma label_ok ra fsize file origin : Device ra fsize file -> 0 <= origin -> origin + 1024 <= fsize ->
  (labelled file origin -> checkLabel ra origin = Ret tt) /\ (~ labelled file origin -> checkLabel ra origin = Err ErrNotLVM).
Proof.
  intros Hra Ho Hf. pose proof (dev_size (Device := Hra)). unfold checkLabel, sectorSize. rewrite make_ok by (unfold maxAlloc; lia). cbn [mbind go_bind]. rewrite i64_id by lia.
  assert (len (replicate (Z.to_nat 512) 0) = 512) as Hl by (rewrite len_replicate; lia).
  rewrite (dev_read_full ra fsize file) by lia. rewrite Hl. cbn [mbind go_bind r_err r_buf]. rewrite !slice_ok by (rewrite ?len_span by lia; lia). cbn [mbind go_bind].
  rewrite !span_sub by lia. replace (origin + 512 + 0) with (origin + 512) by lia. replace (origin + 512 + 24) with (origin + 536) by lia. change (8 - 0) with 8. change (32 - 24) with 8.
  unfold labelled. split; intros Hlab; do 2 case_bool_decide; cbn [andb]; tauto.
Qed.

Lemma scan_metadata_ok ra fsize file origin n : Device ra fsize file -> 0 <= origin -> 0 <= n <= maxAlloc -> let buf := span file origin (Z.max 0 (Z.min n (fsize - origin))) in
  match scan_metadata ra origin n with
  | Ret vg => exists i, occurs textMarker buf i /\ snapshot buf i vg /\
      forall j v, occurs textMarker buf j -> snapshot buf j v -> Seqno v <= Seqno vg /\ ((j < i)%nat -> Seqno v < Seqno vg)
  | Err _ => forall j v, occurs textMarker buf j -> ~ snapshot buf j v
  | _ => False
  end.
Proof.
  intros Hra Ho Hn buf. unfold scan_metadata. rewrite make_ok by lia. cbn [mbind go_bind].
  set (p := replicate (Z.to_nat n) 0). assert (len p = n) as Hp by (unfold p; rewrite len_replicate; lia).
  destruct (wp_no_err_Ret _ _ (dev_read (Device := Hra) p origin Ho)) as (r & -> & Hlen & Hnr & Hb & _ & _ & Herr). cbn [mbind go_bind].
  assert (match r_err r with Some e => if bool_decide (e = EOF) then None else Some e | None => None end = None) as ->.
  { destruct Herr as [-> | ->]; [done|]. by rewrite bool_decide_true. }
  rewrite slice_ok by lia. cbn [mbind go_bind]. assert ((r_buf r).[0, r_n r] = buf) as ->.
  { rewrite Hb. unfold buf. f_equal. lia. }
  destruct (findAll_spec buf) as [Hin Hsort]. destruct (scan_ok buf _ Hsort None) as (b & -> & Hres). cbn [mbind go_bind].
  destruct b as [vg|]; cbn [mret go_ret].
  - destruct Hres as (_ & Hall & [|(i & Hi & Hsnap & _ & Hbefore)]); [done|]. exists i. split; [by apply Hin|]. split; [done|]. intros j v Hj Hv. apply Hin in Hj.
    split; [by apply (Hall j)|]. intros Hlt. by apply (Hbefore j).
  - destruct Hres as [_ Hres]. intros j v Hj. by apply Hres, Hin.
Qed.

(** C34. Open refuses a region without the label of a physical volume. With one, it looks
    at every place of the first eight megabytes where a snapshot of the metadata starts,
    and returns the snapshot with the highest sequence number among those that parse, the
    first one when several have it; it fails when none parses. *)
Theorem lvm_open_newest ra fsize file origin : Device ra fsize file -> 0 <= origin -> origin + 1024 <= fsize ->
  let buf := span file origin (Z.max 0 (Z.min scanSize (fsize - origin))) in
  (~ labelled file origin -> Open ra origin = Err ErrNotLVM) /\
  (labelled file origin ->
   match Open ra origin with
   | Ret vg => exists i, occurs textMarker buf i /\ snapshot buf i vg /\
       forall j v, occurs textMarker buf j -> snapshot buf j v -> Seqno v <= Seqno vg /\ ((j < i)%nat -> Seqno v < Seqno vg)
   | Err _ => forall j v, occurs textMarker buf j -> ~ snapshot buf j v
   | _ => False
   end).
Proof.
  intros Hra Ho Hf buf. destruct (label_ok ra fsize file origin Hra Ho Hf) as [Hyes Hno]. unfold Open. split; [by intros ->%Hno|]. intros ->%Hyes.
  apply scan_metadata_ok; [done|done|]. split; [by vm_compute|by vm_compute].
Qed.

(** ** A sample *)

Definition write_field (k : string) (t rest : gostring) : gostring := [10; 9] ++ lit k ++ [32] ++ 61 :: [32] ++ t ++ rest.
Definition write_block (k : string) (body rest : gostring) : gostring := (10 :: 35 :: lit " block" ++ [10]) ++ lit k ++ [32] ++ 123 :: body ++ 125 :: rest.
Definition quote (t : string) : gostring := 34 :: lit t ++ [34].

Definition sample_meta : vg_meta := mkVM (lit "vg1") 3 8 2048 100 [mkLM (lit "root") [mkSM (lit "pv0") 5 2 1]].
Definition sample_segment : list node :=
  [Field (lit "extent_count") (Token (decimal 2)); Field (lit "stripe_count") (Token (decimal 1)); Field (lit "stripes") (Listed (34 :: lit "pv0" ++ [34; 44; 32] ++ decimal 5))].
Definition sample_body : list node :=
  [Field (lit "seqno") (Token (decimal 3)); Field (lit "status") (Quoted (lit "READ")); Field (lit "extent_size") (Token (decimal 8));
   Block (lit "physical_volumes") [Block (lit "pv0") [Field (lit "pe_start") (Token (decimal 2048)); Field (lit "pe_count") (Token (decimal 100))]];
   Block (lit "logical_volumes") [Block (lit "root") [Block (lit "segment1") sample_segment]]].
Definition sample_text : gostring :=
  write_field "contents" (quote "Text Format Volume Group")
  (write_block "vg1"
    (write_field "seqno" (lit "3") (write_field "status" (quote "READ") (write_field "extent_size" (lit "8")
     (write_block "physical_volumes" (write_block "pv0" (write_field "pe_start" (lit "2048") (write_field "pe_count" (lit "100") [10])) [])
     (write_block "logical_volumes" (write_block "root" (write_block "segment1"
        (write_field "extent_count" (lit "2") (write_field "stripe_count" (lit "1") (write_field "stripes" (91 :: (34 :: lit "pv0" ++ [34; 44; 32] ++ lit "5") ++ [93]) [10]))) []) []) [])))))
  [10]).

Definition key_okb (k : gostring) : bool := forallb isIdentByte k && match k with [] => false | c :: _ => negb (c =? 35) end.
Lemma key_okb_ok k : key_okb k = true -> key_ok k.
Proof.
  unfold key_okb. intros [Hk Hh]%andb_true_iff. split; [apply Forall_forall; intros c Hc; rewrite forallb_forall in Hk; apply Hk; by apply list_elem_of_In|]. destruct k as [|c k]; [done|]. split; [done|].
  cbn. intros [= ->]. done.
Qed.
Definition plain_quotedb (t : gostring) : bool := forallb (fun c => negb (c =? 34) && negb (c =? 92) && negb (c =? 123) && negb (c =? 125)) t.
Lemma plain_escaped t : plain_quotedb t = true -> escaped t t.
Proof.
  unfold plain_quotedb. induction t as [|c t IH]; [constructor|]. cbn [forallb]. rewrite !andb_true_iff, !negb_true_iff, !Z.eqb_neq. intros [[[[H1 H2] H3] H4] Ht].
  constructor; [done|done|by split|by apply IH].
Qed.

Lemma write_field_prints k v t ns rest : key_okb (lit k) = true -> spelled v t -> ends v rest -> prints ns rest -> prints (Field (lit k) v :: ns) (write_field k t rest).
Proof. intros Hk Hv He Hr. apply prints_field; [by repeat constructor|by apply key_okb_ok|by repeat constructor|by repeat constructor|done|done|done]. Qed.
Lemma write_block_prints k body tb ns rest : key_okb (lit k) = true -> prints body tb -> prints ns rest -> prints (Block (lit k) body :: ns) (write_block k tb rest).
Proof.
  intros Hk Hb Hr. apply prints_block; [|by apply key_okb_ok|by repeat constructor|done|done].
  apply (blank_space 10); [reflexivity|]. apply (blank_comment (lit " block") []); [|constructor]. vm_compute. repeat constructor; intros H; discriminate H.
Qed.
Lemma token_spelled w : key_okb w = true -> head w <> Some 34 -> head w <> Some 91 -> spelled (Token w) w.
Proof. intros Hk. apply spelled_token. by apply key_okb_ok. Qed.

#[local] Ltac print_field := apply write_field_prints; [reflexivity|first [apply token_spelled; [exact eq_refl|vm_compute; congruence|vm_compute; congruence]|apply spelled_quoted, plain_escaped; reflexivity]|first [exact I|exact eq_refl]|].

Lemma sample_prints : prints ([Field (lit "contents") (Quoted (lit "Text Format Volume Group"))] ++ [Block (lit "vg1") sample_body]) sample_text.
Proof.
  cbn [app]. print_field. apply write_block_prints; [reflexivity| |by repeat constructor]. do 3 print_field.
  apply write_block_prints; [reflexivity|apply write_block_prints; [reflexivity| |by repeat constructor]; do 2 print_field; by repeat constructor|].
  apply write_block_prints; [reflexivity| |by repeat constructor]. apply write_block_prints; [reflexivity| |by repeat constructor]. apply write_block_prints; [reflexivity| |by repeat constructor].
  do 2 print_field. apply write_field_prints; [reflexivity| |done|by repeat constructor]. apply spelled_list. vm_compute. repeat constructor; intros H; discriminate H.
Qed.

Lemma sample_group : is_group sample_meta sample_body.
Proof.
  exists (take 3 sample_body), (lit "pv0"), [Field (lit "pe_start") (Token (decimal 2048)); Field (lit "pe_count") (Token (decimal 100))], [], [], [Block (lit "root") [Block (lit "segment1") sample_segment]], [].
  split; [reflexivity|]. split; [by repeat constructor|]. split; [constructor|]. split; [constructor|]. split; [constructor|]. unfold number.
  split; [reflexivity|]. split; [cbn; lia|]. split; [reflexivity|]. split; [reflexivity|]. split; [cbn; lia|]. split; [reflexivity|]. split; [cbn; lia|]. split; [reflexivity|]. split; [cbn; lia|].
  constructor; [|constructor]. split; [reflexivity|]. constructor; [|constructor]. split; [reflexivity|]. split; [reflexivity|]. split; [|unfold number; cbn; lia].
  eexists. split; [reflexivity|]. exists [34], [34; 44; 32], [], []. split; [by repeat constructor|]. split; [by repeat constructor|]. split; [done|]. split; [constructor|].
  split; [split; [by repeat constructor|done]|]. split; [done|reflexivity].
Qed.

Lemma lvm_parse_printed_witness : parseMetadata (sample_text ++ [0; 77]) = Ret (mkVG (lit "vg1") 3 4096 1048576 100 [mkLV (lit "root") 8192 [mkExtent 1069056 8192]]).
Proof. rewrite (lvm_parse_printed sample_meta [Field (lit "contents") (Quoted (lit "Text Format Volume Group"))] sample_body [] sample_text [0; 77] sample_group ltac:(by repeat constructor) sample_prints). vm_compute. reflexivity. Defined.

Definition sample_volume_group : VG := mkVG (lit "vg1") 3 4096 1048576 100 [].

Lemma lvm_volume_extents_witness :
  let lv := buildLogicalVolume sample_volume_group (lit "root") [mkSeg 5 2 1 0; mkSeg 7 1 1 0; mkSeg 9 1 1 0] in
  separated (Extents lv) /\ lv_Size lv = 16384 /\ len (addresses (Extents lv)) = 16384 /\ buildLogicalVolume sample_volume_group (lit "swap") [mkSeg 5 2 2 0] = mkLV (lit "swap") 0 [].
Proof.
  destruct (lvm_volume_extents sample_volume_group (lit "root") [mkSeg 5 2 1 0; mkSeg 7 1 1 0; mkSeg 9 1 1 0]) as [Hm _].
  destruct (lvm_volume_extents sample_volume_group (lit "swap") [mkSeg 5 2 2 0]) as [_ Hn].
  destruct Hm as (_ & Hsep & _ & Hsize & _).
  - repeat constructor; cbn; lia.
  - cbn; lia.
  - cbn; lia.
  - repeat constructor; cbn; lia.
  - cbv zeta. split; [exact Hsep|]. assert (lv_Size (buildLogicalVolume sample_volume_group (lit "root") [mkSeg 5 2 1 0; mkSeg 7 1 1 0; mkSeg 9 1 1 0]) = 16384) as Hs by (vm_compute; reflexivity).
    split; [exact Hs|]. split; [rewrite <-Hsize; exact Hs|]. apply Hn. constructor. intros [_ Hs1]. cbn in Hs1. lia.
Defined.

(** A disk with two snapshots, the newer one second. *)
Definition newer_text : gostring := lit "contents = " ++ [34] ++ lit "Text Format Volume Group" ++ [34; 10] ++ lit "vg1 { seqno = 4 }" ++ [10].
Definition older_text : gostring := lit "contents = " ++ [34] ++ lit "Text Format Volume Group" ++ [34; 10] ++ lit "vg1 { seqno = 3 }" ++ [10].
Definition lvm_disk : gostring :=
  replicate 512 0 ++ lit "LABELONE" ++ replicate 16 0 ++ lit "LVM2 001" ++ replicate 480 0 ++ older_text ++ replicate 9 0 ++ newer_text ++ replicate 20 0.

Lemma lvm_open_newest_witness : exists vg, Open (file_reader lvm_disk) 0 = Ret vg /\ 4 <= Seqno vg.
Proof.
  assert (Device (file_reader lvm_disk) (len lvm_disk) (file_content lvm_disk)) as Hd by (apply file_device; [by apply (bool_decide_unpack _); vm_compute|by vm_compute]).
  destruct (lvm_open_newest (file_reader lvm_disk) (len lvm_disk) (file_content lvm_disk) 0 Hd ltac:(lia) ltac:(by vm_compute)) as [_ Hopen].
  assert (exists v, Seqno v = 4 /\ snapshot (span (file_content lvm_disk) 0 (Z.max 0 (Z.min scanSize (len lvm_disk - 0)))) 1089 v) as (v & Hv & Hsnap).
  { eexists. split; [|unfold snapshot; vm_compute; reflexivity]. reflexivity. }
  assert (occurs textMarker (span (file_content lvm_disk) 0 (Z.max 0 (Z.min scanSize (len lvm_disk - 0)))) 1089) as Hocc.
  { eexists. vm_compute. reflexivity. }
  specialize (Hopen ltac:(split; vm_compute; reflexivity)). destruct (Open (file_reader lvm_disk) 0) as [vg|e| |].
  - exists vg. split; [reflexivity|]. destruct Hopen as (i & _ & _ & Hall). destruct (Hall 1089%nat v Hocc Hsnap). lia.
  - destruct (Hopen 1089%nat v Hocc Hsnap).
  - destruct Hopen.
  - destruct Hopen.
Defined.

(** The segments of a volume are sorted by their place on the disk: a volume whose second
    segment lies right in front of its first one becomes one extent, with the halves
    exchanged. *)
Example lvm_swapped_segments :
  let segs := [mkSeg 6 1 1 0; mkSeg 5 1 1 0] in let lv := buildLogicalVolume sample_volume_group (lit "root") segs in
  Extents lv = [mkExtent (1048576 + 5 * 4096) 8192] /\ addresses (Extents lv) <> addresses (range_of sample_volume_group <$> segs).
Proof.
  split; [vm_compute; reflexivity|]. intros E. apply (f_equal head) in E. vm_compute in E. discriminate E.
Qed.

(** Braces are counted in strings: a block that is skipped ends too early, and the metadata
    does not parse. *)
Example lvm_brace_in_string :
  parseMetadata (lit "vg1 { tags { t = " ++ quote "}" ++ lit " } seqno = 3 }") = Err (Errorf "LVM2 metadata: expected '=' or '{' after %q").
Proof. vm_compute. reflexivity. Qed.
