(* ===== verification/GoTime.v ===== *)
(** * GoTime: the timestamps of FAT directory entries
    diskkit/filesystem/fat12/directoryentry.go, [dateTimeToTime] and
    [timeToDateTime]. A [time.Time] is the wall clock it shows, in seconds since
    1 January of year 1; fractions of a second are never stored. *)
From S2P Require Import Prelude.

Abbreviation time := Z.

(** ** The calendar of Go's package time *)

Definition is_leap (y : Z) : bool := (y mod 4 =? 0) && (negb (y mod 100 =? 0) || (y mod 400 =? 0)).

(** Days before each month of a year that is not a leap year. *)
Definition daysBefore : list Z := [0; 31; 59; 90; 120; 151; 181; 212; 243; 273; 304; 334; 365].
Definition days_before (m : Z) : Z := default 365 (daysBefore !! Z.to_nat m).

(** Days from 1 January of year 1 to 1 January of year [y]. *)
Definition days_to_year (y : Z) : Z := let p := y - 1 in 365 * p + p / 4 - p / 100 + p / 400.

(** [time.Date]: a month out of range carries into the year, a day into the month. *)
Definition Date (year month day hour min sec : Z) : time :=
  let m := month - 1 in
  let y := year + m / 12 in
  let m := m mod 12 + 1 in
  let d := days_to_year y + days_before (m - 1) + (if is_leap y && (3 <=? m) then 1 else 0) + (day - 1) in
  d * 86400 + hour * 3600 + min * 60 + sec.

(** Year and day of the year, by cycles of 400, 100, 4 and 1 years. *)
Definition year_yday (days : Z) : Z * Z :=
  let n400 := days / 146097 in
  let d := days mod 146097 in
  let n100 := d / 36524 in
  let n100 := n100 - Z.shiftr n100 2 in
  let d := d - 36524 * n100 in
  let n4 := d / 1461 in
  let d := d - 1461 * n4 in
  let n1 := d / 365 in
  let n1 := n1 - Z.shiftr n1 2 in
  let d := d - 365 * n1 in
  (400 * n400 + 100 * n100 + 4 * n4 + n1 + 1, d).

(** Month and day of the month. *)
Definition month_day (leap : bool) (yday : Z) : Z * Z :=
  if leap && (yday =? 59) then (2, 29)
  else
    let day := if leap && (59 <? yday) then yday - 1 else yday in
    let month := day / 31 in
    let end_ := days_before (month + 1) in
    if end_ <=? day then (month + 2, day - end_ + 1) else (month + 1, day - days_before month + 1).

Definition date_of (t : time) : Z * Z * Z :=
  let '(y, yday) := year_yday (t / 86400) in
  let '(m, d) := month_day (is_leap y) yday in (y, m, d).
Definition Year (t : time) : Z := (date_of t).1.1.
Definition Month (t : time) : Z := (date_of t).1.2.
Definition Day (t : time) : Z := (date_of t).2.
Definition Hour (t : time) : Z := t mod 86400 / 3600.
Definition Minute (t : time) : Z := t mod 3600 / 60.
Definition Second (t : time) : Z := t mod 60.

(** ** FAT dates *)

Definition dateTimeToTime (d t : Z) : time :=
  let year := Z.shiftr d 9 + 1980 in
  let month := Z.land (Z.shiftr d 5) 0x0f in
  let date := Z.land d 0x1f in
  let second := u16 (Z.land t 0x1f * 2) in
  let minute := Z.land (Z.shiftr t 5) 0x3f in
  let hour := Z.shiftr t 11 in
  Date year month date hour minute second.

Definition timeToDateTime (t : time) : Z * Z :=
  let retDate := Z.shiftl (Year t - 1980) 9 + Z.shiftl (Month t) 5 + Day t in
  let retTime := Z.shiftl (Hour t) 11 + Z.shiftl (Minute t) 5 + Z.quot (Second t) 2 in
  (u16 retDate, u16 retTime).

(** A 16-bit date that names a day of the calendar, and a time of day. *)
Definition valid_date (d : Z) : bool :=
  let m := Z.land (Z.shiftr d 5) 0x0f in
  let day := Z.land d 0x1f in
  let y := Z.shiftr d 9 + 1980 in
  (1 <=? m) && (m <=? 12) && (1 <=? day) &&
  (day <=? days_before m - days_before (m - 1) + (if is_leap y && (m =? 2) then 1 else 0)).
Definition valid_time (t : Z) : bool :=
  (Z.land t 0x1f <? 30) && (Z.land (Z.shiftr t 5) 0x3f <? 60) && (Z.shiftr t 11 <? 24).

(** ** Round trip *)

#[local] Ltac Zify.zify_post_hook ::= Z.div_mod_to_equations.

(** The calendar inverts the count of days, in every year. *)
Lemma year_yday_cycles a b c d k :
  0 <= b <= 3 -> 0 <= c <= 24 -> 0 <= d <= 3 -> 0 <= k <= 365 -> (k = 365 -> d = 3 /\ (c = 24 -> b = 3)) ->
  year_yday (146097 * a + 36524 * b + 1461 * c + 365 * d + k) = (400 * a + 100 * b + 4 * c + d + 1, k).
Proof.
  intros Hb Hc Hd Hk Hleap. unfold year_yday.
  replace ((146097 * a + 36524 * b + 1461 * c + 365 * d + k) / 146097) with a by lia.
  replace ((146097 * a + 36524 * b + 1461 * c + 365 * d + k) mod 146097) with (36524 * b + 1461 * c + 365 * d + k) by lia.
  set (r := 36524 * b + 1461 * c + 365 * d + k).
  assert (r / 36524 - Z.shiftr (r / 36524) 2 = b) as ->.
  { rewrite Z.shiftr_div_pow2 by lia. change (2 ^ 2) with 4. assert (r / 36524 = b \/ (r / 36524 = 4 /\ b = 3)) as [E|[E E']] by lia; rewrite E; lia. }
  replace (r - 36524 * b) with (1461 * c + 365 * d + k) by lia.
  replace ((1461 * c + 365 * d + k) / 1461) with c by lia.
  replace (1461 * c + 365 * d + k - 1461 * c) with (365 * d + k) by lia.
  assert ((365 * d + k) / 365 - Z.shiftr ((365 * d + k) / 365) 2 = d) as ->.
  { rewrite Z.shiftr_div_pow2 by lia. change (2 ^ 2) with 4. assert ((365 * d + k) / 365 = d \/ ((365 * d + k) / 365 = 4 /\ d = 3)) as [E|[E E']] by lia; rewrite E; lia. }
  f_equal; lia.
Qed.

Lemma is_leap_true y : is_leap y = true <-> y mod 4 = 0 /\ (y mod 100 <> 0 \/ y mod 400 = 0).
Proof.
  unfold is_leap. rewrite andb_true_iff, orb_true_iff, negb_true_iff, !Z.eqb_eq, Z.eqb_neq. done.
Qed.

Lemma year_yday_spec y k : 0 <= k < 365 + (if is_leap y then 1 else 0) ->
  year_yday (days_to_year y + k) = (y, k).
Proof.
  intros Hk. assert (k <= 365 /\ (k = 365 -> is_leap y = true)) as [Hk' Hl] by (destruct (is_leap y); (split; [lia|]); (done || lia)).
  rewrite is_leap_true in Hl.
  set (p := y - 1). set (a := p / 400). set (b := p mod 400 / 100). set (c := p mod 100 / 4). set (d := p mod 4).
  pose proof (year_yday_cycles a b c d k) as H.
  assert (days_to_year y + k = 146097 * a + 36524 * b + 1461 * c + 365 * d + k) as -> by (unfold days_to_year; fold p; lia).
  rewrite H by lia. f_equal. lia.
Qed.

Definition month_days (leap : bool) (m : Z) : Z :=
  days_before m - days_before (m - 1) + (if leap && (m =? 2) then 1 else 0).

(** Twelve months of two kinds of year, day by day. *)
Lemma month_day_table : forallb (fun leap => forallb (fun m => forallb (fun day =>
    implb (day <=? month_days leap m)
      (bool_decide (month_day leap (days_before (m - 1) + (if leap && (3 <=? m) then 1 else 0) + (day - 1)) = (m, day)) &&
       (days_before (m - 1) + (if leap && (3 <=? m) then 1 else 0) + (day - 1) <? 365 + (if leap then 1 else 0))))
  (seqZ 1 31)) (seqZ 1 12)) [true; false] = true.
Proof. vm_compute. reflexivity. Qed.

Lemma month_day_spec leap m day : 1 <= m <= 12 -> 1 <= day <= month_days leap m ->
  month_day leap (days_before (m - 1) + (if leap && (3 <=? m) then 1 else 0) + (day - 1)) = (m, day) /\
  days_before (m - 1) + (if leap && (3 <=? m) then 1 else 0) + (day - 1) < 365 + (if leap then 1 else 0).
Proof.
  intros Hm Hd. assert (day <= 31) as Hd31.
  { assert (m ∈ seqZ 1 12) as Hin by (apply elem_of_seqZ; lia). change (seqZ 1 12) with [1; 2; 3; 4; 5; 6; 7; 8; 9; 10; 11; 12] in Hin.
    repeat (apply elem_of_cons in Hin as [->|Hin]; [etransitivity; [apply Hd|]; by destruct leap|]). by apply elem_of_nil in Hin. }
  pose proof month_day_table as H. rewrite forallb_forall in H. specialize (H leap). cbv beta in H.
  rewrite forallb_forall in H. specialize (H ltac:(destruct leap; cbn; auto) m). cbv beta in H.
  rewrite forallb_forall in H. specialize (H ltac:(apply list_elem_of_In, elem_of_seqZ; lia) day ltac:(apply list_elem_of_In, elem_of_seqZ; lia)).
  cbv beta in H. rewrite (proj2 (Z.leb_le day _)) in H by lia. cbn [implb] in H. apply andb_true_iff in H as [H1 H2].
  split; [by apply bool_decide_eq_true in H1|by apply Z.ltb_lt].
Qed.

(** The fields of a FAT date and of a FAT time of day. *)
Lemma date_fields d : Z.shiftr d 9 = d / 512 /\ Z.land (Z.shiftr d 5) 0x0f = d / 32 mod 16 /\ Z.land d 0x1f = d mod 32.
Proof.
  change 0x0f with (2 ^ 4 - 1). change 0x1f with (2 ^ 5 - 1). rewrite !land_mask, !Z.shiftr_div_pow2 by lia. done.
Qed.
Lemma time_fields t : Z.shiftr t 11 = t / 2048 /\ Z.land (Z.shiftr t 5) 0x3f = t / 32 mod 64 /\ Z.land t 0x1f = t mod 32.
Proof.
  change 0x3f with (2 ^ 6 - 1). change 0x1f with (2 ^ 5 - 1). rewrite !land_mask, !Z.shiftr_div_pow2 by lia. done.
Qed.

(** What the clock shows at a given day of the calendar and second of the day. *)
Lemma clock_shows y m day s : 1 <= m <= 12 -> 1 <= day <= month_days (is_leap y) m -> 0 <= s < 86400 ->
  let t := Date y m day 0 0 s in
  date_of t = (y, m, day) /\ Hour t = s / 3600 /\ Minute t = s mod 3600 / 60 /\ Second t = s mod 60.
Proof.
  intros Hm Hd Hs t. destruct (month_day_spec (is_leap y) m day Hm Hd) as [Hmd Hlt].
  set (k := days_before (m - 1) + (if is_leap y && (3 <=? m) then 1 else 0) + (day - 1)) in *.
  assert (0 <= k) as Hk.
  { unfold k. assert (0 <= days_before (m - 1)); [|destruct (_ && _); lia].
    unfold days_before. destruct (daysBefore !! Z.to_nat (m - 1)) as [x|] eqn:E; [|cbn; lia].
    assert (Forall (fun x => 0 <= x) daysBefore) as Hall by (repeat constructor; lia).
    rewrite Forall_lookup in Hall. by apply Hall in E. }
  assert (t = (days_to_year y + k) * 86400 + s) as ->.
  { unfold t, Date. cbv zeta. replace ((m - 1) / 12) with 0 by lia. replace ((m - 1) mod 12 + 1) with m by lia. replace (y + 0) with y by lia. unfold k. lia. }
  unfold date_of, Hour, Minute, Second. rewrite Z.div_add_l, (Z.div_small s), Z.add_0_r by lia.
  rewrite year_yday_spec by lia. rewrite Hmd. split_and!; [done|lia..].
Qed.

(** Timestamps: a FAT date and time that name a moment of the calendar survive being
    read into a [time.Time] and written back; the whole range 1980 to 2107. *)
Theorem fat_time_roundtrip d t : 0 <= d < 65536 -> 0 <= t < 65536 -> valid_date d = true -> valid_time t = true ->
  timeToDateTime (dateTimeToTime d t) = (d, t).
Proof.
  intros Hd Ht Hvd Hvt. unfold valid_date, valid_time in *.
  destruct (date_fields d) as (E1 & E2 & E3). destruct (time_fields t) as (F1 & F2 & F3).
  rewrite E1, E2, E3 in Hvd. rewrite F1, F2, F3 in Hvt. rewrite !andb_true_iff, !Z.leb_le in Hvd. rewrite !andb_true_iff, !Z.ltb_lt in Hvt.
  destruct Hvd as [[[Hm1 Hm2] Hd1] Hd2], Hvt as [[Hs Hm] Hh].
  set (s := t / 2048 * 3600 + t / 32 mod 64 * 60 + t mod 32 * 2).
  assert (dateTimeToTime d t = Date (d / 512 + 1980) (d / 32 mod 16) (d mod 32) 0 0 s) as ->.
  { unfold dateTimeToTime. rewrite E1, E2, E3, F1, F2, F3. rewrite wrap_u_id by (change (2 ^ 16) with 65536; lia). unfold Date, s. lia. }
  destruct (clock_shows (d / 512 + 1980) (d / 32 mod 16) (d mod 32) s) as (Hdate & HH & HM & HS); [lia|unfold month_days; lia|lia|].
  unfold timeToDateTime, Year, Month, Day. rewrite Hdate, HH, HM, HS. cbn [fst snd].
  rewrite !Z.shiftl_mul_pow2, Z.quot_div_nonneg by lia. change (2 ^ 9) with 512. change (2 ^ 5) with 32. change (2 ^ 11) with 2048.
  f_equal; rewrite wrap_u_id; change (2 ^ 16) with 65536; lia.
Qed.

Lemma fat_time_roundtrip_witness : timeToDateTime (dateTimeToTime 22621 48100) = (22621, 48100) /\
  date_of (dateTimeToTime 22621 48100) = (2024, 2, 29).
Proof. split; [apply fat_time_roundtrip; (reflexivity || (cbv; split; congruence))|reflexivity]. Defined.
