(* ===== verification/FatBoot.v ===== *)
(** * FatBoot: boot sectors of the FAT file systems
    diskkit/filesystem/fat12/dos20bpb.go, dos331bpb.go, dos40ebpb.go,
    msdosbootsector.go; fat32/dos71bpb.go, msdosbootsector.go, fsinfosector.go. The
    parsers and the serialisers, and that a sector which was parsed is written back
    byte for byte. *)
From S2P Require Import Prelude Bytes Text.

Definition SectorSize512 : Z := 512.
Definition SectorSize4096 : Z := 4096.

(** ** DOS 2.0 *)

Record Dos20BPB := mkDos20 {
  BytesPerSector : Z; SectorsPerCluster : Z; ReservedSectors : Z; FatCount : Z;
  RootDirectoryEntries : Z; TotalSectors16 : Z; MediaType : Z; SectorsPerFat : Z
}.

Definition Dos20BPBFromBytes (b : list Z) : go Dos20BPB :=
  if negb (len b =? 13) then Err (Errorf "cannot read DOS 2.0 BPB: must be exactly 13 bytes")
  else
    sectorSize ← get_le 2 b 0 2;
    if (sectorSize <? SectorSize512) || negb (Z.land sectorSize (u16 (sectorSize - 1)) =? 0)
    then Err (Errorf "invalid sector size %d: must be power of 2 and >= 512")
    else
      spc ← index b 2;
      reserved ← get_le 2 b 3 5;
      count ← index b 5;
      rootEntries ← get_le 2 b 6 8;
      total ← get_le 2 b 8 10;
      media ← index b 10;
      spf ← get_le 2 b 11 13;
      mret (mkDos20 sectorSize spc reserved count rootEntries total media spf).

Definition Dos20BPB_ToBytes (bpb : Dos20BPB) : go (list Z) :=
  b ← make 0 1 13;
  b ← put_word b 0 2 (put_le 2 (BytesPerSector bpb));
  b ← store b 2 (SectorsPerCluster bpb);
  b ← put_word b 3 5 (put_le 2 (ReservedSectors bpb));
  b ← store b 5 (FatCount bpb);
  b ← put_word b 6 8 (put_le 2 (RootDirectoryEntries bpb));
  b ← put_word b 8 10 (put_le 2 (TotalSectors16 bpb));
  b ← store b 10 (MediaType bpb);
  put_word b 11 13 (put_le 2 (SectorsPerFat bpb)).

(** ** DOS 3.31 *)

(** A structure that points to another one has the type of what it points to as a
    parameter: the structure itself where the code follows the pointer, which is then not
    nil, and an [option] where it looks for nil pointers, in the comparisons. *)
Record Dos331BPB_to (P : Type) := mkDos331 {
  dos20 : P; SectorsPerTrack : Z; Heads : Z; HiddenSectors : Z; TotalSectors32 : Z
}.
Arguments mkDos331 {P}.
Arguments dos20 {P}.
Arguments SectorsPerTrack {P}.
Arguments Heads {P}.
Arguments HiddenSectors {P}.
Arguments TotalSectors32 {P}.
Abbreviation Dos331BPB := (Dos331BPB_to Dos20BPB).
Abbreviation Dos331Pointers := (Dos331BPB_to (option Dos20BPB)).

Definition Dos331BPBFromBytes (b : list Z) : go Dos331BPB :=
  if negb (len b =? 25) then Err (Errorf "cannot read DOS 3.31 BPB: must be exactly 25 bytes")
  else
    s ← slice b 0 13;
    r ← catch (Dos20BPBFromBytes s);
    match r with
    | inr e => Err (Wrapf "error reading embedded DOS 2.0 BPB: %w" e)
    | inl dos20 =>
        spt ← get_le 2 b 13 15;
        heads ← get_le 2 b 15 17;
        hidden ← get_le 4 b 17 21;
        total ← get_le 4 b 21 25;
        mret (mkDos331 dos20 spt heads hidden total)
    end.

Definition Dos331BPB_ToBytes (bpb : Dos331BPB) : go (list Z) :=
  b ← make 0 1 25;
  d ← Dos20BPB_ToBytes (dos20 bpb);
  b ← copy_at b 0 13 d;
  b ← put_word b 13 15 (put_le 2 (SectorsPerTrack bpb));
  b ← put_word b 15 17 (put_le 2 (Heads bpb));
  b ← put_word b 17 21 (put_le 4 (HiddenSectors bpb));
  put_word b 21 25 (put_le 4 (TotalSectors32 bpb)).

#[global] Instance dos20_eq_dec : EqDecision Dos20BPB.
Proof. solve_decision. Defined.

(** Comparisons of pointers to structures start with the nil cases. *)
Definition equal_ptr {A} (eq : A -> A -> bool) (a b : option A) : bool :=
  match a, b with
  | None, None => true
  | Some a, Some b => eq a b
  | _, _ => false
  end.

Definition Dos331BPB_Equal : option Dos331Pointers -> option Dos331Pointers -> bool := equal_ptr (fun bpb a =>
  bool_decide (dos20 bpb <> None) && bool_decide (dos20 a <> None) && bool_decide (dos20 bpb = dos20 a) && (SectorsPerTrack bpb =? SectorsPerTrack a) && (Heads bpb =? Heads a) &&
  (HiddenSectors bpb =? HiddenSectors a) && (TotalSectors32 bpb =? TotalSectors32 a)).

(** ** The extended BPB of FAT12 and FAT16 *)

Definition shortEBPB : Z := 0x28.
Definition longEBPB : Z := 0x29.

Record Dos40EBPB_to (P : Type) := mkDos40 {
  dos331 : P; DriveNumber : Z; ReservedFlags : Z; ExtBootSignature : Z;
  VolumeSerialNumber : Z; VolumeLabel : gostring; FileSystemType : gostring
}.
Arguments mkDos40 {P}.
Arguments dos331 {P}.
Arguments DriveNumber {P}.
Arguments ReservedFlags {P}.
Arguments ExtBootSignature {P}.
Arguments VolumeSerialNumber {P}.
Arguments VolumeLabel {P}.
Arguments FileSystemType {P}.
Abbreviation Dos40EBPB := (Dos40EBPB_to Dos331BPB).
Abbreviation Dos40Pointers := (Dos40EBPB_to (option Dos331Pointers)).

Definition Dos40EBPBFromBytes (b : list Z) : go (Dos40EBPB * Z) :=
  if len b <? 26 then Err (Errorf "cannot parse Dos40EBPB: need at least 26 bytes, got %d")
  else
    s ← slice b 0 25;
    r ← catch (Dos331BPBFromBytes s);
    match r with
    | inr e => Err (Wrapf "error reading embedded DOS 3.31 BPB: %w" e)
    | inl d =>
        drive ← index b 25;
        flags ← index b 26;
        sig ← index b 27;
        serial ← get_le 4 b 28 32;
        if sig =? shortEBPB then mret (mkDos40 d drive flags sig serial [] [], 32)
        else if sig =? longEBPB then
          if len b <? 51 then Err (Errorf "cannot parse long Dos40EBPB: need 51 bytes, got %d")
          else
            label ← slice b 32 43;
            fstype ← slice b 43 51;
            mret (mkDos40 d drive flags sig serial (trim_spaces label) (trim_spaces fstype), 51)
        else Err (Errorf "unknown extended boot signature: 0x%02x")
    end.

Definition Dos40EBPB_ToBytes (bpb : Dos40EBPB) : go (list Z) :=
  let sig := ExtBootSignature bpb in
  if negb ((sig =? shortEBPB) || (sig =? longEBPB)) then Err (Errorf "unknown extended boot signature: 0x%02x")
  else
    b ← make 0 1 (if sig =? shortEBPB then 32 else 51);
    d ← Dos331BPB_ToBytes (dos331 bpb);
    b ← copy_at b 0 25 d;
    b ← store b 25 (DriveNumber bpb);
    b ← store b 26 (ReservedFlags bpb);
    b ← store b 27 sig;
    b ← put_word b 28 32 (put_le 4 (VolumeSerialNumber bpb));
    if sig =? longEBPB then
      if 11 <? len (VolumeLabel bpb) then Err (Errorf "volume label too long: %d chars, max 11")
      else
        b ← copy_at b 32 43 (pad_right 11 (VolumeLabel bpb));
        if 8 <? len (FileSystemType bpb) then Err (Errorf "filesystem type too long: %d chars, max 8")
        else copy_at b 43 51 (pad_right 8 (FileSystemType bpb))
    else mret b.

Definition Dos40EBPB_equal : option Dos40Pointers -> option Dos40Pointers -> bool := equal_ptr (fun bpb a =>
  Dos331BPB_Equal (dos331 bpb) (dos331 a) && (DriveNumber bpb =? DriveNumber a) &&
  (ReservedFlags bpb =? ReservedFlags a) && (ExtBootSignature bpb =? ExtBootSignature a) &&
  (VolumeSerialNumber bpb =? VolumeSerialNumber a) && bool_decide (VolumeLabel bpb = VolumeLabel a) &&
  bool_decide (FileSystemType bpb = FileSystemType a)).

Definition TotalSectors (bpb : Dos40EBPB) : Z :=
  if negb (TotalSectors32 (dos331 bpb) =? 0) then TotalSectors32 (dos331 bpb)
  else TotalSectors16 (dos20 (dos331 bpb)).

(** ** The boot sector of FAT12 and FAT16 *)

Definition msDosBootSectorSignature : Z := 0x55aa.

Module Boot12.

Record msDosBootSector_to (P : Type) := mkBootSector {
  jumpInstruction : list Z; oemName : gostring; biosParameterBlock : P; bootCode : list Z
}.
Arguments mkBootSector {P}.
Arguments jumpInstruction {P}.
Arguments oemName {P}.
Arguments biosParameterBlock {P}.
Arguments bootCode {P}.
Abbreviation msDosBootSector := (msDosBootSector_to Dos40EBPB).
Abbreviation BootPointers := (msDosBootSector_to (option Dos40Pointers)).

Definition equal : option BootPointers -> option BootPointers -> bool := equal_ptr (fun m a =>
  Dos40EBPB_equal (biosParameterBlock m) (biosParameterBlock a) && bool_decide (oemName m = oemName a) &&
  bool_decide (jumpInstruction m = jumpInstruction a) && bool_decide (bootCode m = bootCode a)).

Definition msDosBootSectorFromBytes (b : list Z) : go msDosBootSector :=
  if negb (len b =? SectorSize512) then Err (Errorf "boot sector must be exactly %d bytes, got %d")
  else
    jump ← slice b 0 3;
    oem ← slice b 3 11;
    rest ← slice b 11 (len b);
    r ← catch (Dos40EBPBFromBytes rest);
    match r with
    | inr e => Err (Wrapf "error parsing Dos40EBPB: %w" e)
    | inl (bpb, bpbSize) =>
        let bootEnd := SectorSize512 - 2 in
        code ← slice b (11 + bpbSize) bootEnd;
        sig ← get_be 2 b bootEnd (len b);
        if negb (sig =? msDosBootSectorSignature) then Err (Errorf "invalid boot sector signature: 0x%04x")
        else mret (mkBootSector jump oem bpb code)
    end.

Definition msDosBootSector_toBytes (m : msDosBootSector) : go (list Z) :=
  b ← make 0 1 SectorSize512;
  b ← copy_at b 0 3 (jumpInstruction m);
  if 8 <? len (oemName m) then Err (Errorf "OEM name too long: %s")
  else
    b ← copy_at b 3 11 (pad_right 8 (oemName m));
    r ← catch (Dos40EBPB_ToBytes (biosParameterBlock m));
    match r with
    | inr e => Err (Wrapf "error serialising BPB: %w" e)
    | inl bpbBytes =>
        b ← copy_at b 11 (len b) bpbBytes;
        let bpbLen := len bpbBytes in
        let bootEnd := SectorSize512 - 2 in
        if bootEnd - (11 + bpbLen) <? len (bootCode m) then Err (Errorf "boot code too long: %d bytes")
        else
          b ← copy_at b (11 + bpbLen) bootEnd (bootCode m);
          put_word b bootEnd (len b) (put_be 2 msDosBootSectorSignature)
    end.
End Boot12.

(** ** FAT32 *)

Module Boot32.

Definition shortDos71EBPB : Z := 0x28.
Definition longDos71EBPB : Z := 0x29.

Record dos71EBPB_to (P : Type) := mkDos71 {
  dos331 : P; sectorsPerFat : Z; mirrorFlags : Z; version : Z; rootDirectoryCluster : Z;
  fsInformationSector : Z; backupBootSector : Z; bootFileName : list Z; driveNumber : Z;
  reservedFlags : Z; extendedBootSignature : Z; volumeSerialNumber : Z;
  volumeLabel : gostring; fileSystemType : gostring
}.
Arguments mkDos71 {P}.
Arguments dos331 {P}.
Arguments sectorsPerFat {P}.
Arguments mirrorFlags {P}.
Arguments version {P}.
Arguments rootDirectoryCluster {P}.
Arguments fsInformationSector {P}.
Arguments backupBootSector {P}.
Arguments bootFileName {P}.
Arguments driveNumber {P}.
Arguments reservedFlags {P}.
Arguments extendedBootSignature {P}.
Arguments volumeSerialNumber {P}.
Arguments volumeLabel {P}.
Arguments fileSystemType {P}.
Abbreviation dos71EBPB := (dos71EBPB_to Dos331BPB).
Abbreviation dos71Pointers := (dos71EBPB_to (option Dos331Pointers)).

Definition dos71EBPB_equal : option dos71Pointers -> option dos71Pointers -> bool := equal_ptr (fun bpb a =>
  Dos331BPB_Equal (dos331 bpb) (dos331 a) && (sectorsPerFat bpb =? sectorsPerFat a) &&
  (mirrorFlags bpb =? mirrorFlags a) && (version bpb =? version a) &&
  (rootDirectoryCluster bpb =? rootDirectoryCluster a) && (fsInformationSector bpb =? fsInformationSector a) &&
  (backupBootSector bpb =? backupBootSector a) && bool_decide (bootFileName bpb = bootFileName a) &&
  (driveNumber bpb =? driveNumber a) && (reservedFlags bpb =? reservedFlags a) &&
  (extendedBootSignature bpb =? extendedBootSignature a) && (volumeSerialNumber bpb =? volumeSerialNumber a) &&
  bool_decide (volumeLabel bpb = volumeLabel a) && bool_decide (fileSystemType bpb = fileSystemType a)).

Definition dos71EBPBFromBytes (b : list Z) : go (dos71EBPB * Z) :=
  if negb (len b =? 60) && negb (len b =? 79)
  then Err (Errorf "cannot read DOS 7.1 EBPB from invalid byte slice, must be precisely 60 or 79 bytes ")
  else
    s ← slice b 0 25;
    r ← catch (Dos331BPBFromBytes s);
    match r with
    | inr e => Err (Errorf "could not read embedded DOS 3.31 BPB: %v")
    | inl d =>
        spf ← get_le 4 b 25 29;
        mirror ← get_le 2 b 29 31;
        ver ← get_le 2 b 31 33;
        if negb (ver =? 0) then Err (Errorf "invalid FAT32 version found: %v")
        else
          root ← get_le 4 b 33 37;
          info ← get_le 2 b 37 39;
          backup ← get_le 2 b 39 41;
          name ← slice b 41 53;
          drive ← index b 53;
          flags ← index b 54;
          sig ← index b 55;
          serial ← get_be 4 b 56 60;
          let bpb := mkDos71 d spf mirror 0 root info backup name drive flags sig serial in
          if sig =? shortDos71EBPB then mret (bpb [] [], 60)
          else if sig =? longDos71EBPB then
            label ← slice b 60 71;
            fstype ← slice b 71 79;
            mret (bpb (trim_spaces label) (trim_spaces fstype), 79)
          else Err (Errorf "unknown DOS 7.1 EBPB Signature: %v")
    end.

(** The strings of the long form, with the check that a rune is a byte. *)
Definition label_at (b : list Z) (lo hi max : Z) (s : gostring) (too_long non_ascii : error) : go (list Z) :=
  if max <? len s then Err too_long
  else if negb (len (runes s) =? len s) then Err non_ascii
  else copy_at b lo hi (pad_right 11 s).

Definition toBytes (bpb : dos71EBPB) : go (list Z) :=
  let sig := extendedBootSignature bpb in
  b ← (if sig =? shortDos71EBPB then make 0 1 60
       else if sig =? longDos71EBPB then
         b ← make 0 1 79;
         b ← label_at b 60 71 11 (volumeLabel bpb) (Errorf "invalid volume label: too long at %d characters, maximum is %d")
           (Errorf "invalid volume label: non-ascii characters");
         label_at b 71 79 8 (fileSystemType bpb) (Errorf "invalid filesystem type: too long at %d characters, maximum is %d")
           (Errorf "invalid filesystem type: non-ascii characters")
       else Err (Errorf "unknown DOS 7.1 EBPB Signature: %v"));
  d ← Dos331BPB_ToBytes (dos331 bpb);
  b ← copy_at b 0 25 d;
  b ← put_word b 25 29 (put_le 4 (sectorsPerFat bpb));
  b ← put_word b 29 31 (put_le 2 (mirrorFlags bpb));
  b ← put_word b 31 33 (put_le 2 (version bpb));
  b ← put_word b 33 37 (put_le 4 (rootDirectoryCluster bpb));
  b ← put_word b 37 39 (put_le 2 (fsInformationSector bpb));
  b ← put_word b 39 41 (put_le 2 (backupBootSector bpb));
  b ← copy_at b 41 53 (bootFileName bpb);
  b ← store b 53 (driveNumber bpb);
  b ← store b 54 (reservedFlags bpb);
  b ← store b 55 sig;
  put_word b 56 60 (put_be 4 (volumeSerialNumber bpb)).

Record msDosBootSector_to (P : Type) := mkBootSector {
  jumpInstruction : list Z; oemName : gostring; biosParameterBlock : P; bootCode : list Z
}.
Arguments mkBootSector {P}.
Arguments jumpInstruction {P}.
Arguments oemName {P}.
Arguments biosParameterBlock {P}.
Arguments bootCode {P}.
Abbreviation msDosBootSector := (msDosBootSector_to dos71EBPB).
Abbreviation BootPointers := (msDosBootSector_to (option dos71Pointers)).

Definition equal : option BootPointers -> option BootPointers -> bool := equal_ptr (fun m a =>
  dos71EBPB_equal (biosParameterBlock m) (biosParameterBlock a) && bool_decide (oemName m = oemName a) &&
  bool_decide (jumpInstruction m = jumpInstruction a) && bool_decide (bootCode m = bootCode a)).

Definition msDosBootSectorFromBytes (b : list Z) : go msDosBootSector :=
  if negb (len b =? SectorSize512) then Err (Errorf "cannot parse MS-DOS Boot Sector from %d bytes, must be exactly %d")
  else
    jump ← slice b 0 3;
    oem ← slice b 3 11;
    rest ← slice b 11 90;
    r ← catch (dos71EBPBFromBytes rest);
    match r with
    | inr e => Err (Errorf "could not read FAT32 BIOS Parameter Block from boot sector: %v")
    | inl (bpb, bpbSize) =>
        let bootSectorStart := 11 + bpbSize in
        let bootSectorEnd := SectorSize512 - 2 in
        code ← slice b bootSectorStart bootSectorEnd;
        sig ← get_be 2 b bootSectorEnd (len b);
        if negb (sig =? msDosBootSectorSignature) then Err (Errorf "invalid signature in last 2 bytes of boot sector: %v")
        else mret (mkBootSector jump oem bpb code)
    end.

Definition msDosBootSector_toBytes (m : msDosBootSector) (sectorSize : Z) : go (list Z) :=
  if sectorSize <? SectorSize512 then Err (Errorf "sector size is too small: %v")
  else
    b ← make 0 1 sectorSize;
    b ← copy_at b 0 3 (jumpInstruction m);
    let name := oemName m in
    if 8 <? len name then Err (Errorf "cannot use OEM Name > 8 bytes long: %s")
    else if negb (len (runes name) =? len name) then Err (Errorf "invalid OEM Name: non-ascii characters")
    else
      b ← copy_at b 3 11 (pad_right 8 name);
      r ← catch (toBytes (biosParameterBlock m));
      match r with
      | inr e => Err (Errorf "error getting FAT32 EBPB: %v")
      | inl bpbBytes =>
          b ← copy_at b 11 (len b) bpbBytes;
          let bpbLen := len bpbBytes in
          if SectorSize512 - 2 - (11 + bpbLen) <? len (bootCode m) then Err (Errorf "boot code too long at %d bytes")
          else
            b ← copy_at b (11 + bpbLen) (SectorSize512 - 2) (bootCode m);
            put_word b (SectorSize512 - 2) (len b) (put_be 2 msDosBootSectorSignature)
      end.

(** The information sector. *)
Record FSInformationSector := mkFsis { freeDataClustersCount : Z; lastAllocatedCluster : Z }.

Definition fsInfoSectorSignatureStart : Z := 0x52526141.
Definition fsInfoSectorSignatureMid : Z := 0x72724161.
Definition fsInfoSectorSignatureEnd : Z := 0x000055AA.

Definition fsInformationSectorFromBytes (b : list Z) : go FSInformationSector :=
  if negb (len b =? SectorSize512) then Err (Errorf "cannot read FAT32 FS Information Sector from %d bytes instead of expected %d")
  else
    signatureStart ← get_be 4 b 0 4;
    signatureMid ← get_be 4 b 484 488;
    signatureEnd ← get_be 4 b 508 512;
    if negb (signatureStart =? fsInfoSectorSignatureStart) then Err (Errorf "invalid signature at beginning of FAT 32 Filesystem Information Sector: %x")
    else if negb (signatureMid =? fsInfoSectorSignatureMid) then Err (Errorf "invalid signature at middle of FAT 32 Filesystem Information Sector: %x")
    else if negb (signatureEnd =? fsInfoSectorSignatureEnd) then Err (Errorf "invalid signature at end of FAT 32 Filesystem Information Sector: %x")
    else
      free ← get_le 4 b 488 492;
      last ← get_le 4 b 492 496;
      mret (mkFsis free last).

Definition fsis_toBytes (fsis : FSInformationSector) (sectorSize : Z) : go (list Z) :=
  if sectorSize <? SectorSize512 then Err (Errorf "sector size is too small: %v")
  else
    b ← make 0 1 sectorSize;
    b ← put_word b 0 4 (put_be 4 fsInfoSectorSignatureStart);
    b ← put_word b 484 488 (put_be 4 fsInfoSectorSignatureMid);
    b ← put_word b 508 512 (put_be 4 fsInfoSectorSignatureEnd);
    b ← put_word b 488 492 (put_le 4 (freeDataClustersCount fsis));
    put_word b 492 496 (put_le 4 (lastAllocatedCluster fsis)).
End Boot32.

(** ** What was read is written back *)

Ltac bind_ret := cbn [mbind go_bind mret go_ret].
Ltac get_fields H :=
  repeat (first
    [ rewrite get_word_ok in H by lia
    | rewrite index_byte_at in H by lia
    | rewrite slice_ok in H by lia ]; cbn [mbind go_bind mret go_ret] in H).
Ltac literals :=
  repeat match goal with
  | |- context [written ?b ?y (?k + 1)] => let v := eval compute in (k + 1) in change (written b y (k + 1)) with (written b y v)
  end.
Ltac put_fields :=
  bind_ret;
  repeat (first
    [ rewrite le_written by (done || lia) | rewrite be_written by (done || lia)
    | rewrite store_written by lia; literals ]; bind_ret).

Lemma dos20_written b x : bytes_ok b -> Dos20BPBFromBytes b = Ret x -> len b = 13 /\ Dos20BPB_ToBytes x = Ret b.
Proof.
  intros Hb H. unfold Dos20BPBFromBytes in H. destruct (Z.eqb_spec (len b) 13) as [Hl|]; [|done]. split; [done|].
  cbn [negb] in H. get_fields H.
  destruct (_ || _); [done|]. get_fields H. injection H as <-.
  unfold Dos20BPB_ToBytes. rewrite make_ok by (unfold maxAlloc; lia). cbn [mbind go_bind].
  cbn [BytesPerSector SectorsPerCluster ReservedSectors FatCount RootDirectoryEntries TotalSectors16 MediaType SectorsPerFat].
  set (y := replicate _ 0). assert (len y = 13) by done. rewrite (written_0 b y). put_fields.
  rewrite <-Hl at 1. by rewrite written_full by lia.
Qed.

Lemma copy_sub b y k hi : 0 <= k <= hi -> hi <= len b -> hi <= len y -> copy_at (written b y k) k hi b.[k, hi] = Ret (written b y hi).
Proof. intros. apply copy_written; [lia..|]. apply take_ge. rewrite length_len, len_sub by lia. lia. Qed.

Lemma dos331_written b x : bytes_ok b -> Dos331BPBFromBytes b = Ret x -> len b = 25 /\ Dos331BPB_ToBytes x = Ret b.
Proof.
  intros Hb H. unfold Dos331BPBFromBytes in H. destruct (Z.eqb_spec (len b) 25) as [Hl|]; [|done]. split; [done|].
  cbn [negb] in H. get_fields H. apply bind_catch_ret in H as [(d & Hd & H)|(e & _ & H)]; [|done].
  apply dos20_written in Hd as [_ Hd]; [|by apply bytes_ok_sub]. get_fields H. injection H as <-.
  unfold Dos331BPB_ToBytes. rewrite make_ok by (unfold maxAlloc; lia). cbn [mbind go_bind dos20 SectorsPerTrack Heads HiddenSectors TotalSectors32].
  rewrite Hd. cbn [mbind go_bind].
  set (y := replicate _ 0). assert (len y = 25) by done. rewrite (written_0 b y).
  rewrite (copy_sub b) by lia. put_fields.
  rewrite <-Hl at 1. by rewrite written_full by lia.
Qed.

(** A BPB that was parsed from the front of [b] is written as those bytes. *)
Lemma dos40_written b x n : bytes_ok b -> Dos40EBPBFromBytes b = Ret (x, n) ->
  n <= len b /\ (n = 32 \/ n = 51) /\ Dos40EBPB_ToBytes x = Ret b.[0, n].
Proof.
  intros Hb H. unfold Dos40EBPBFromBytes in H. destruct (Z.ltb_spec (len b) 26) as [|Hl]; [done|].
  rewrite (slice_ok b 0 25) in H by lia. cbn [mbind go_bind] in H.
  apply bind_catch_ret in H as [(d & Hd & H)|(e & _ & H)]; [|done].
  apply dos331_written in Hd as [_ Hd]; [|by apply bytes_ok_sub].
  assert (32 <= len b) as Hl32.
  { destruct (Z.leb_spec 32 (len b)); [done|]. exfalso. rewrite (index_byte_at b 25) in H by lia. cbn [mbind go_bind] in H.
    destruct (index b 26); [|done..]. cbn [mbind go_bind] in H. destruct (index b 27); [|done..]. cbn [mbind go_bind] in H.
    unfold get_word, slice in H. rewrite (proj2 (Z.leb_gt 32 (len b))) in H by lia. by rewrite andb_false_r in H. }
  get_fields H.
  destruct (Z.eqb_spec (byte_at b 27) shortEBPB) as [Es|Es]; [|destruct (Z.eqb_spec (byte_at b 27) longEBPB) as [El|El]; [|done]].
  - injection H as <- <-. split_and!; [lia|by left|]. unfold Dos40EBPB_ToBytes.
    cbn [ExtBootSignature dos331 DriveNumber ReservedFlags VolumeSerialNumber]. rewrite (proj2 (Z.eqb_eq _ _) Es). cbn [orb negb].
    rewrite make_ok by (unfold maxAlloc; lia). bind_ret. rewrite Hd. bind_ret.
    set (y := replicate _ 0). assert (len y = 32) by done. rewrite (written_0 b y).
    rewrite (copy_sub b) by lia. put_fields. rewrite written_end by done. by rewrite Es.
  - destruct (Z.ltb_spec (len b) 51); [done|]. get_fields H. injection H as <- <-. split_and!; [lia|by right|].
    unfold Dos40EBPB_ToBytes.
    cbn [ExtBootSignature dos331 DriveNumber ReservedFlags VolumeSerialNumber VolumeLabel FileSystemType].
    rewrite (proj2 (Z.eqb_neq _ _) Es), (proj2 (Z.eqb_eq _ _) El). cbn [orb negb].
    rewrite make_ok by (unfold maxAlloc; lia). bind_ret. rewrite Hd. bind_ret.
    set (y := replicate _ 0). assert (len y = 51) by done. rewrite (written_0 b y).
    rewrite (copy_sub b) by lia. put_fields.
    pose proof (trim_spaces_len b.[32, 43]) as H11. pose proof (trim_spaces_len b.[43, 51]) as H8. rewrite len_sub in H11, H8 by lia.
    rewrite (proj2 (Z.ltb_ge 11 _)), (proj2 (Z.ltb_ge 8 _)) by lia.
    rewrite (copy_written b y 32 43) by (lia || (apply (take_pad_trim 11); [by rewrite len_sub by lia|lia])). bind_ret.
    rewrite (copy_written b y 43 51) by (lia || (apply (take_pad_trim 8); [by rewrite len_sub by lia|lia])).
    by rewrite written_end.
Qed.

Lemma signature_bytes b lo hi : bytes_ok b -> 0 <= lo -> hi = lo + 2 -> hi <= len b -> BE b.[lo, hi] = msDosBootSectorSignature ->
  put_be 2 msDosBootSectorSignature = b.[lo, hi].
Proof. intros Hb Hlo -> Hl <-. by apply (put_be_sub b lo 2). Qed.

(** A FAT12 or FAT16 boot sector that [Boot12.msDosBootSectorFromBytes] accepts is
    serialised to the very bytes it was read from: jump instruction, OEM name, BPB in
    either form, label and type with their padding, boot code and signature. *)
Lemma fat12_boot_sector_rewrite b m : bytes_ok b -> Boot12.msDosBootSectorFromBytes b = Ret m ->
  Boot12.msDosBootSector_toBytes m = Ret b.
Proof.
  intros Hb H. unfold Boot12.msDosBootSectorFromBytes in H. destruct (Z.eqb_spec (len b) SectorSize512) as [Hl|]; [|done].
  unfold SectorSize512 in *. cbn [negb] in H. rewrite Hl in H. get_fields H.
  apply bind_catch_ret in H as [([bpb n] & Hd & H)|(e & _ & H)]; [|done].
  apply dos40_written in Hd as (_ & Hn & Hd); [|by apply bytes_ok_sub].
  rewrite sub_of_sub in Hd by lia. rewrite (Z.add_0_r 11) in Hd. get_fields H. change (512 - 2) with 510 in *.
  destruct (Z.eqb_spec (BE b.[510, 512]) msDosBootSectorSignature) as [Hs|]; [|done]. cbn [negb] in H. injection H as <-.
  unfold Boot12.msDosBootSector_toBytes, SectorSize512. rewrite make_ok by (unfold maxAlloc; lia). bind_ret.
  cbn [Boot12.jumpInstruction Boot12.oemName Boot12.biosParameterBlock Boot12.bootCode].
  set (y := replicate _ 0). assert (len y = 512) by done. rewrite (written_0 b y).
  rewrite (copy_sub b) by lia. bind_ret. rewrite (proj2 (Z.ltb_ge 8 _)) by (rewrite len_sub by lia; lia).
  rewrite (copy_written b y 3 11) by (lia || (apply (take_pad 8); by rewrite len_sub by lia)). bind_ret.
  rewrite Hd. cbn [catch]. bind_ret. change (512 - 2) with 510.
  assert (len b.[11, 11 + n] = n) as Hn' by (rewrite len_sub by lia; lia). rewrite Hn', len_written by lia.
  replace (copy_at _ 11 _ _) with (Ret (written b y (11 + n))).
  2:{ symmetry. rewrite <-(copy_sub b y 11 (11 + n)) by lia. unfold copy_at. rewrite !slice_ok by (rewrite ?len_written by lia; lia).
      bind_ret. rewrite !take_ge by (rewrite length_len, Hn'; lia). done. }
  bind_ret. rewrite (proj2 (Z.ltb_ge _ _)) by (rewrite len_sub by lia; lia).
  rewrite (copy_sub b) by lia. bind_ret. rewrite len_written by lia.
  replace (len y) with 512 by lia. rewrite (signature_bytes b 510 512) by (done || lia). rewrite word_written by (done || lia).
  rewrite <-Hl at 1. by rewrite written_full by lia.
Qed.

(** FAT32: the long form writes its strings first, the rest from the front. *)
Definition single_byte (s : gostring) : Prop := len (runes s) = len s.

Lemma label_at_ok b lo hi max s e1 e2 : 0 <= lo -> hi <= len b -> lo <= hi -> single_byte s -> len s <= max ->
  Boot32.label_at b lo hi max s e1 e2 = Ret (patch b lo (take (Z.to_nat (hi - lo)) (pad_right 11 s))).
Proof.
  intros. unfold Boot32.label_at. rewrite (proj2 (Z.ltb_ge _ _)) by lia. unfold single_byte in *.
  rewrite (proj2 (Z.eqb_eq _ _)) by done. cbn [negb]. unfold copy_at. by rewrite slice_ok by lia.
Qed.

(** The twelve fields up to byte 60, over any buffer. *)
Lemma dos71_fields b y bpb : bytes_ok b -> 60 <= len b -> 60 <= len y ->
  bpb = b.[0, 25] ->
  (b0 ← copy_at y 0 25 bpb; b0 ← put_word b0 25 29 (put_le 4 (LE b.[25, 29]));
   b0 ← put_word b0 29 31 (put_le 2 (LE b.[29, 31])); b0 ← put_word b0 31 33 (put_le 2 (LE b.[31, 33]));
   b0 ← put_word b0 33 37 (put_le 4 (LE b.[33, 37])); b0 ← put_word b0 37 39 (put_le 2 (LE b.[37, 39]));
   b0 ← put_word b0 39 41 (put_le 2 (LE b.[39, 41])); b0 ← copy_at b0 41 53 b.[41, 53];
   b0 ← store b0 53 (byte_at b 53); b0 ← store b0 54 (byte_at b 54); b0 ← store b0 55 (byte_at b 55);
   put_word b0 56 60 (put_be 4 (BE b.[56, 60]))) = Ret (written b y 60).
Proof.
  intros Hb Hl Hy ->. rewrite (written_0 b y). rewrite (copy_sub b) by lia. put_fields. rewrite (copy_sub b) by lia. by put_fields.
Qed.

Lemma dos71_written b x n : bytes_ok b -> Boot32.dos71EBPBFromBytes b = Ret (x, n) ->
  single_byte (Boot32.volumeLabel x) -> single_byte (Boot32.fileSystemType x) ->
  n <= len b /\ (n = 60 \/ n = 79) /\ Boot32.toBytes x = Ret b.[0, n].
Proof.
  intros Hb H Hs1 Hs2. unfold Boot32.dos71EBPBFromBytes in H.
  assert (len b = 60 \/ len b = 79) as Hl by (destruct (Z.eqb_spec (len b) 60), (Z.eqb_spec (len b) 79); auto; done).
  destruct (negb _ && negb _); [done|]. rewrite (slice_ok b 0 25) in H by lia. cbn [mbind go_bind] in H.
  apply bind_catch_ret in H as [(d & Hd & H)|(e & _ & H)]; [|done].
  apply dos331_written in Hd as [_ Hd]; [|by apply bytes_ok_sub].
  get_fields H.
  destruct (Z.eqb_spec (LE b.[31, 33]) 0) as [Hver|]; [|done]. cbn [negb] in H.
  get_fields H. rewrite (slice_ok b 41 53) in H by lia. cbn [mbind go_bind] in H.
  assert (60 <= len b) as H60 by lia.
  pose proof (fun y Hy => dos71_fields b y b.[0, 25] Hb H60 Hy eq_refl) as Hfields. rewrite Hver in Hfields.
  destruct (Z.eqb_spec (byte_at b 55) Boot32.shortDos71EBPB) as [Es|Es];
    [|destruct (Z.eqb_spec (byte_at b 55) Boot32.longDos71EBPB) as [El|El]; [|done]].
  - injection H as <- <-. split_and!; [lia|by left|]. unfold Boot32.toBytes. cbn [Boot32.extendedBootSignature].
    rewrite (proj2 (Z.eqb_eq _ _) Es). rewrite make_ok by (unfold maxAlloc; lia). bind_ret. cbn [Boot32.dos331]. rewrite Hd. bind_ret.
    rewrite Hfields by (done || lia). by rewrite written_end.
  - destruct Hl as [Hl|Hl]; [unfold slice in H; rewrite Hl in H; done|].
    get_fields H. injection H as <- <-. cbn [Boot32.volumeLabel Boot32.fileSystemType] in *.
    split_and!; [lia|by right|]. unfold Boot32.toBytes. cbn [Boot32.extendedBootSignature Boot32.volumeLabel Boot32.fileSystemType Boot32.dos331].
    rewrite (proj2 (Z.eqb_neq _ _) Es), (proj2 (Z.eqb_eq _ _) El). rewrite make_ok by (unfold maxAlloc; lia). bind_ret.
    pose proof (trim_spaces_len b.[60, 71]) as H11. pose proof (trim_spaces_len b.[71, 79]) as H8. rewrite len_sub in H11, H8 by lia.
    rewrite label_at_ok by (rewrite ?len_replicate; done || lia). bind_ret.
    rewrite take_pad_trim by (rewrite ?len_sub by lia; lia).
    set (y1 := patch _ _ _). assert (len y1 = 79) as Hy1 by (unfold y1; rewrite patch_len; rewrite ?len_sub, ?len_replicate by lia; lia).
    rewrite label_at_ok by (done || lia). bind_ret. rewrite take_pad_trim by (rewrite ?len_sub by lia; lia). rewrite Hd. bind_ret.
    set (y2 := patch y1 _ _). assert (len y2 = 79) as Hy2 by (unfold y2; rewrite patch_len; rewrite ?len_sub by lia; lia).
    rewrite Hfields by lia. f_equal. unfold written. rewrite <-(sub_cat b 0 60 79), <-(sub_cat b 60 71 79) by lia. f_equal.
    unfold y2, patch.
    assert (y1.[0, 71] = (replicate (Z.to_nat 79) 0).[0, 60] ++ b.[60, 71]) as E1.
    { unfold y1, patch. rewrite (assoc app). apply sub_app_l. rewrite len_app, !len_sub; rewrite ?len_replicate; lia. }
    rewrite E1, <-(assoc app). unfold from at 1. rewrite drop_app_ge by (rewrite length_len, len_sub; rewrite ?len_replicate; lia).
    rewrite length_len, len_sub by (rewrite ?len_replicate; lia). replace (Z.to_nat 60 - Z.to_nat (60 - 0))%nat with 0%nat by lia.
    rewrite drop_0. f_equal. unfold from. rewrite drop_ge by (rewrite len_sub by lia; unfold len in *; lia). apply app_nil_r.
Qed.

(** The same for FAT32, for any sector size: the first 512 bytes are the ones that
    were read, the rest of the sector is zero. The names must have one byte per
    character, as the serialiser requires. *)
Lemma fat32_boot_sector_rewrite b m size : bytes_ok b -> Boot32.msDosBootSectorFromBytes b = Ret m ->
  single_byte (Boot32.oemName m) -> single_byte (Boot32.volumeLabel (Boot32.biosParameterBlock m)) ->
  single_byte (Boot32.fileSystemType (Boot32.biosParameterBlock m)) -> 512 <= size <= maxAlloc ->
  Boot32.msDosBootSector_toBytes m size = Ret (b ++ replicate (Z.to_nat (size - 512)) 0).
Proof.
  intros Hb H Hs1 Hs2 Hs3 Hsize. unfold Boot32.msDosBootSectorFromBytes in H. destruct (Z.eqb_spec (len b) SectorSize512) as [Hl|]; [|done].
  unfold SectorSize512 in *. cbn [negb] in H. rewrite Hl in H. get_fields H.
  apply bind_catch_ret in H as [([bpb n] & Hd & H)|(e & _ & H)]; [|done].
  assert (Boot32.biosParameterBlock m = bpb) as Em.
  { destruct (slice b (11 + n) (512 - 2)); [|done..]. cbn [mbind go_bind] in H. destruct (negb _); [done|]. by injection H as <-. }
  rewrite Em in *. apply dos71_written in Hd as (_ & Hn & Hd); [|by apply bytes_ok_sub|done|done].
  rewrite sub_of_sub in Hd by lia. rewrite (Z.add_0_r 11) in Hd. get_fields H. change (512 - 2) with 510 in *.
  destruct (Z.eqb_spec (BE b.[510, 512]) msDosBootSectorSignature) as [Hs|]; [|done]. cbn [negb] in H. injection H as <-.
  unfold Boot32.msDosBootSector_toBytes, SectorSize512. cbn [Boot32.jumpInstruction Boot32.oemName Boot32.biosParameterBlock Boot32.bootCode] in *.
  rewrite (proj2 (Z.ltb_ge _ _)) by lia. rewrite make_ok by lia. bind_ret.
  set (y := replicate _ 0). assert (len y = size) as Hy by (unfold y; rewrite len_replicate; lia). rewrite (written_0 b y).
  rewrite (copy_sub b) by lia. bind_ret. rewrite (proj2 (Z.ltb_ge 8 _)) by (rewrite len_sub by lia; lia).
  unfold single_byte in Hs1. rewrite (proj2 (Z.eqb_eq _ _) Hs1). cbn [negb].
  rewrite (copy_written b y 3 11) by (lia || (apply (take_pad 8); by rewrite len_sub by lia)). bind_ret.
  rewrite Hd. cbn [catch]. bind_ret. change (512 - 2) with 510.
  assert (len b.[11, 11 + n] = n) as Hn' by (rewrite len_sub by lia; lia). rewrite Hn', len_written by lia.
  replace (copy_at _ 11 _ _) with (Ret (written b y (11 + n))).
  2:{ symmetry. rewrite <-(copy_sub b y 11 (11 + n)) by lia. unfold copy_at. rewrite !slice_ok by (rewrite ?len_written by lia; lia).
      bind_ret. rewrite !take_ge by (rewrite length_len, Hn'; lia). done. }
  bind_ret. rewrite (proj2 (Z.ltb_ge _ _)) by (rewrite len_sub by lia; lia).
  rewrite (copy_sub b) by lia. bind_ret. rewrite len_written by lia.
  assert (put_word (written b y 510) 510 (len y) (put_be 2 msDosBootSectorSignature) = Ret (written b y 512)) as ->.
  { rewrite (signature_bytes b 510 512) by (done || lia). rewrite <-(word_written b y 510 512) with (x := b.[510, 512]) by (done || lia).
    unfold put_word. rewrite !slice_ok by (rewrite ?len_written by lia; lia). bind_ret. rewrite !len_sub by (rewrite ?len_written by lia; lia).
    by rewrite !(proj2 (Z.ltb_ge _ _)) by lia. }
  unfold written. rewrite <-Hl at 1. rewrite sub_full. do 2 f_equal. unfold y, from. rewrite drop_replicate. f_equal. lia.
Qed.

(** The information sector reads back what was written. *)
Lemma fsis_roundtrip f size : 0 <= Boot32.freeDataClustersCount f < 2 ^ 32 -> 0 <= Boot32.lastAllocatedCluster f < 2 ^ 32 ->
  512 <= size <= maxAlloc -> exists b, Boot32.fsis_toBytes f size = Ret b /\ len b = size /\ bytes_ok b /\
  Boot32.fsInformationSectorFromBytes b.[0, 512] = Ret f.
Proof.
  intros Hf Hl Hsize. unfold Boot32.fsis_toBytes. rewrite (proj2 (Z.ltb_ge _ _)) by (unfold SectorSize512; lia). rewrite make_ok by lia. bind_ret.
  set (y := replicate _ 0). assert (len y = size) as Hy by (unfold y; rewrite len_replicate; lia).
  repeat (rewrite put_word_ok by patch_lens; bind_ret).
  eexists. split; [done|]. set (b := patch _ _ _). assert (len b = size) as Hlb by (unfold b; patch_lens).
  split; [done|]. split.
  { unfold b. repeat apply patch_bytes; try apply put_le_bytes; try apply Forall_rev, put_le_bytes. apply bytes_ok_zeros. }
  unfold Boot32.fsInformationSectorFromBytes. rewrite len_sub by lia.
  rewrite (proj2 (Z.eqb_eq _ _)) by (unfold SectorSize512; lia). cbn [negb].
  rewrite !get_word_ok by (rewrite ?len_sub by lia; lia). bind_ret. rewrite !sub_of_sub by lia. rewrite !Z.add_0_l.
  unfold b. patch_slices. rewrite !BE_put_be, !LE_put_le. change (256 ^ Z.of_nat 4) with (2 ^ 32). rewrite !Z.mod_small by (done || lia). by destruct f.
Qed.

(** ** Comparisons *)

(** No pointer to a DOS 2.0 BPB is nil: the comparison of the DOS 3.31 BPBs asks for that. *)
Definition whole331 (d : option Dos331Pointers) : Prop := match d with Some d => dos20 d <> None | None => True end.
Definition whole12 (m : option Boot12.BootPointers) : Prop :=
  match m with Some m => match Boot12.biosParameterBlock m with Some e => whole331 (dos331 e) | None => True end | None => True end.
Definition whole32 (m : option Boot32.BootPointers) : Prop :=
  match m with Some m => match Boot32.biosParameterBlock m with Some e => whole331 (Boot32.dos331 e) | None => True end | None => True end.

Lemma equal_ptr_spec {A} (eq : A -> A -> bool) (W : A -> Prop) : (forall a b, eq a b = true <-> a = b /\ W a) ->
  forall a b, equal_ptr eq a b = true <-> a = b /\ match a with Some a => W a | None => True end.
Proof. intros He [a|] [b|]; cbn; [rewrite He|..]; (split; [intros; destruct_and?; split; congruence|by intros [[= ->] ?]]) || done. Qed.

Ltac compare_fields :=
  intros [] []; cbn; rewrite ?andb_true_iff, ?bool_decide_eq_true, ?Z.eqb_eq; split; [|intros [[= ] ?]; subst; tauto]; intros; destruct_and?; subst; done.

Lemma dos331_equal a b : Dos331BPB_Equal a b = true <-> a = b /\ whole331 a.
Proof. revert a b. apply (equal_ptr_spec _ (fun d => dos20 d <> None)). compare_fields. Qed.

Lemma dos40_equal a b : Dos40EBPB_equal a b = true <-> a = b /\ match a with Some e => whole331 (dos331 e) | None => True end.
Proof.
  revert a b. apply (equal_ptr_spec _ (fun e => whole331 (dos331 e))). intros a b. rewrite !andb_true_iff, dos331_equal, !bool_decide_eq_true, !Z.eqb_eq.
  split; [destruct a, b; cbn; intros; destruct_and?; by subst|intros [-> ?]; tauto].
Qed.
Lemma dos71_equal a b : Boot32.dos71EBPB_equal a b = true <-> a = b /\ match a with Some e => whole331 (Boot32.dos331 e) | None => True end.
Proof.
  revert a b. apply (equal_ptr_spec _ (fun e => whole331 (Boot32.dos331 e))). intros a b. rewrite !andb_true_iff, dos331_equal, !bool_decide_eq_true, !Z.eqb_eq.
  split; [destruct a, b; cbn; intros; destruct_and?; by subst|intros [-> ?]; tauto].
Qed.

(** C40. The comparison functions of both kinds of boot sector decide equality of the
    structures, down to the last field of the BPBs they point to: a nil pointer, to a boot
    sector, to its parameter block or to the DOS 3.31 BPB in that, is equal to nil only. The
    one exception is a nil pointer to a DOS 2.0 BPB, which the code calls different from
    everything: a structure with one is not even equal to itself. *)
Theorem boot_sector_equal :
  (forall a b, Boot12.equal a b = true <-> a = b /\ whole12 a) /\ (forall a b, Boot32.equal a b = true <-> a = b /\ whole32 a).
Proof.
  split; [apply (equal_ptr_spec _ (fun m => match Boot12.biosParameterBlock m with Some e => whole331 (dos331 e) | None => True end))|
    apply (equal_ptr_spec _ (fun m => match Boot32.biosParameterBlock m with Some e => whole331 (Boot32.dos331 e) | None => True end))];
  intros a b; rewrite !andb_true_iff, ?dos40_equal, ?dos71_equal, !bool_decide_eq_true;
    (split; [destruct a, b; cbn; intros; destruct_and?; by subst|intros [-> ?]; tauto]).
Qed.

(** A BPB that points to no DOS 2.0 BPB. *)
Example nil_bpb_unequal : let d := Some (mkDos331 None 0 0 0 0) in Dos331BPB_Equal d d = false.
Proof. done. Qed.

(** C20. A boot sector that the parser accepts is serialised to the very bytes it was read
    from: jump instruction, OEM name, parameter block in each of its forms, label and type
    with their padding, boot code and signature. For FAT32 the sector may be larger, the rest
    of it is then zero, and the names must have one byte per character, as the serialiser
    requires. *)
Theorem boot_sector_rewrite b : bytes_ok b ->
  (forall m, Boot12.msDosBootSectorFromBytes b = Ret m -> Boot12.msDosBootSector_toBytes m = Ret b) /\
  (forall m size, Boot32.msDosBootSectorFromBytes b = Ret m ->
    single_byte (Boot32.oemName m) -> single_byte (Boot32.volumeLabel (Boot32.biosParameterBlock m)) ->
    single_byte (Boot32.fileSystemType (Boot32.biosParameterBlock m)) -> 512 <= size <= maxAlloc ->
    Boot32.msDosBootSector_toBytes m size = Ret (b ++ replicate (Z.to_nat (size - 512)) 0)).
Proof. intros Hb. split; intros; [by apply fat12_boot_sector_rewrite|by apply fat32_boot_sector_rewrite]. Qed.

(** ** Witnesses *)

(** The boot sector of a 1.44 MB floppy, with a little boot code. *)
Definition floppy_boot : list Z :=
  [0xEB; 0x3C; 0x90] ++ lit "MSDOS5.0" ++
  put_le 2 512 ++ [1] ++ put_le 2 1 ++ [2] ++ put_le 2 224 ++ put_le 2 2880 ++ [0xF0] ++ put_le 2 9 ++
  put_le 2 18 ++ put_le 2 2 ++ put_le 4 0 ++ put_le 4 0 ++
  [0; 0; 0x29] ++ put_le 4 0x12345678 ++ lit "MY DISK    " ++ lit "FAT12   " ++
  [0xFA; 0x33; 0xC0] ++ replicate 445 0 ++ [0x55; 0xAA].

Definition usb_boot : list Z :=
  [0xEB; 0x58; 0x90] ++ lit "MSWIN4.1" ++
  put_le 2 512 ++ [8] ++ put_le 2 32 ++ [2] ++ put_le 2 0 ++ put_le 2 0 ++ [0xF8] ++ put_le 2 0 ++
  put_le 2 63 ++ put_le 2 255 ++ put_le 4 0 ++ put_le 4 1048576 ++
  put_le 4 1024 ++ put_le 2 0 ++ put_le 2 0 ++ put_le 4 2 ++ put_le 2 1 ++ put_le 2 6 ++ replicate 12 0 ++
  [0x80; 0; 0x29] ++ put_be 4 0xCAFE0001 ++ lit "USB        " ++ lit "FAT32   " ++ replicate 420 0 ++ [0x55; 0xAA].

Lemma boot_sector_rewrite_witness :
  (exists m, Boot12.msDosBootSectorFromBytes floppy_boot = Ret m /\
    VolumeLabel (Boot12.biosParameterBlock m) = lit "MY DISK" /\ Boot12.msDosBootSector_toBytes m = Ret floppy_boot) /\
  (exists m, Boot32.msDosBootSectorFromBytes usb_boot = Ret m /\
    Boot32.msDosBootSector_toBytes m 512 = Ret (usb_boot ++ replicate (Z.to_nat (512 - 512)) 0)).
Proof.
  split.
  - eexists. split; [vm_compute; reflexivity|]. split; [vm_compute; reflexivity|].
    apply (boot_sector_rewrite floppy_boot); [apply bytes_okb_ok; vm_compute; reflexivity|vm_compute; reflexivity].
  - eexists. split; [vm_compute; reflexivity|].
    apply (boot_sector_rewrite usb_boot); [apply bytes_okb_ok; vm_compute; reflexivity|vm_compute; reflexivity..|].
    cbv; split; congruence.
Defined.
