(* ===== verification/FatTable.v ===== *)
(** * FatTable: the file allocation tables
    diskkit/filesystem/fat12/table.go, fat16/table.go, fat32/table.go. The Go
    interface [FATTable] is the class of that name; its three implementations are
    the Modules [Fat12], [Fat16] and [Fat32]. [FATLaws] states what the cluster
    chain code relies on; each Module proves it and the round trip of its on-disk
    encoding. *)
From S2P Require Import Prelude Bytes.

#[local] Ltac Zify.zify_post_hook ::= Z.div_mod_to_equations.

(** A table is mutated in place; an operation returns the table afterwards. *)
Class FATTable (T : Type) := {
  ClusterValue : T -> Z -> go Z;
  SetCluster : T -> Z -> Z -> go T;
  IsEOC : T -> Z -> bool;
  EOCMarker : T -> Z;
  UnusedMarker : T -> Z;
  MaxCluster : T -> Z;
  FATID : T -> Z;
  RootDirCluster : T -> Z;
  TableSize : T -> Z;
  FromBytes : T -> list Z -> go T;
  Bytes : T -> go (list Z)
}.

(** What a client may rely on, for tables that satisfy [ok]. *)
Class FATLaws (T : Type) `{FATTable T} (ok : T -> Prop) := {
  fat_max t : ok t -> 2 <= MaxCluster t < 2 ^ 32;
  fat_get t n : ok t -> 0 <= n <= MaxCluster t -> exists v, ClusterValue t n = Ret v;
  fat_set t n v : ok t -> 0 <= n <= MaxCluster t -> exists t',
    SetCluster t n v = Ret t' /\ ok t' /\ MaxCluster t' = MaxCluster t /\ EOCMarker t' = EOCMarker t /\
    TableSize t' = TableSize t /\
    forall m, 0 <= m -> ClusterValue t' m = if m =? n then Ret v else ClusterValue t m;
  fat_eoc t t' v : MaxCluster t = MaxCluster t' -> IsEOC t v = IsEOC t' v;
  fat_eoc_marker t : ok t -> IsEOC t (EOCMarker t) = true /\ EOCMarker t <> 0;
  fat_unused t : ok t -> UnusedMarker t = 0 /\ IsEOC t 0 = false;
  fat_bytes t : ok t -> exists b, Bytes t = Ret b /\ len b = TableSize t /\ bytes_ok b
}.

(** [t.clusters[n]] and its update, shared by the three tables. *)
Lemma clusters_get (l : list Z) max n : len l = max + 1 -> 0 <= n <= max -> exists v, index l n = Ret v.
Proof. intros Hl Hn. destruct (index_ok l n) as (v & _ & ->); [lia|]. eauto. Qed.

Lemma clusters_set (l : list Z) max n v : len l = max + 1 -> 0 <= n <= max ->
  store l n v = Ret (<[Z.to_nat n := v]> l) /\
  forall m, 0 <= m -> index (<[Z.to_nat n := v]> l) m = if m =? n then Ret v else index l m.
Proof.
  intros Hl Hn. rewrite store_ok by lia. split; [done|]. intros m Hm. unfold index.
  rewrite (proj2 (Z.ltb_ge m 0)) by lia. destruct_if.
  - subst. by rewrite list_lookup_insert_eq by (unfold len in Hl; lia).
  - by rewrite list_lookup_insert_ne by lia.
Qed.

(** ** FAT12 *)
Module Fat12.

Record fat12Table := mkTable {
  fatID : Z; eoc : Z; unused : Z; clusters : list Z; max : Z; size : Z
}.

Definition set_clusters (t : fat12Table) (cs : list Z) : fat12Table :=
  mkTable (fatID t) (eoc t) (unused t) cs (max t) (size t).

Definition newFat12Table (fatID sizeBytes : Z) : go fat12Table :=
  let maxCluster := u32 (sizeBytes * 2) / 3 in
  cs ← make 0 4 (u32 (maxCluster + 1));
  mret (mkTable fatID 0x0FFF 0x000 cs maxCluster sizeBytes).

Definition isEOC (t : fat12Table) (val : Z) : bool := (0xFF8 <=? val) && (val <=? 0xFFF).

Definition fat12ReadEntry (b : list Z) (i : Z) : go Z :=
  let byteOffset := u32 (i * 3) / 2 in
  if u32 (len b) <=? u32 (byteOffset + 1) then mret 0
  else
    lo ← index b byteOffset;
    hi ← index b (u32 (byteOffset + 1));
    let word := Z.lor lo (u32 (Z.shiftl hi 8)) in
    mret (if i mod 2 =? 0 then Z.land word 0x0FFF else Z.shiftr word 4).

Definition fat12WriteEntry (b : list Z) (i v : Z) : go (list Z) :=
  let byteOffset := u32 (i * 3) / 2 in
  let next := u32 (byteOffset + 1) in
  if u32 (len b) <=? next then mret b
  else if i mod 2 =? 0 then
    b ← store b byteOffset (u8 v);
    x ← index b next;
    store b next (Z.lor (Z.land x 0xF0) (u8 (Z.shiftr v 8)))
  else
    x ← index b byteOffset;
    b ← store b byteOffset (Z.lor (Z.land x 0x0F) (u8 (Z.shiftl v 4)));
    store b next (u8 (Z.shiftr v 4)).

Definition fromBytes (t : fat12Table) (b : list Z) : go fat12Table :=
  let maxIdx := u32 (u32 (Z.quot (i64 (len b * 2)) 3) - 1) in
  let maxIdx := if max t <? maxIdx then max t else maxIdx in
  cs ← go_range (fun i cs => v ← fat12ReadEntry b i; store cs i v) 2 (Z.to_nat (maxIdx - 1)) (clusters t);
  if 2 <=? len b then
    b0 ← index b 0;
    mret (mkTable (Z.lor b0 0x0F00) (eoc t) (unused t) cs (max t) (size t))
  else mret (set_clusters t cs).

Definition toBytes (t : fat12Table) : go (list Z) :=
  b ← make 0 1 (size t);
  let mediaByte := u8 (Z.land (fatID t) 0xFF) in
  b ← store b 0 mediaByte;
  b ← store b 1 0xFF;
  b ← store b 2 0x0F;
  b ← store b 0 mediaByte;
  b ← store b 1 0xFF;
  b ← store b 2 0xFF;
  go_range (fun i b => v ← index (clusters t) i;
                       if negb (v =? 0) then fat12WriteEntry b i v else mret b)
    2 (Z.to_nat (max t - 1)) b.

(** Defined for two FAT12 tables only; a nil pointer equals nil. *)
Definition tablesEqual (a b : option fat12Table) : bool :=
  match a, b with
  | None, None => true
  | Some at_, Some bt =>
      (fatID at_ =? fatID bt) && (eoc at_ =? eoc bt) && (max at_ =? max bt) && (size at_ =? size bt) &&
      bool_decide (clusters at_ = clusters bt)
  | _, _ => false
  end.

#[global] Instance fat12_table : FATTable fat12Table := {
  ClusterValue t n := index (clusters t) n;
  SetCluster t n val := cs ← store (clusters t) n val; mret (set_clusters t cs);
  IsEOC := isEOC;
  EOCMarker := eoc;
  UnusedMarker := unused;
  MaxCluster := max;
  FATID := fatID;
  RootDirCluster _ := 2;
  TableSize := size;
  FromBytes := fromBytes;
  Bytes := toBytes
}.

(** What [newFat12Table] establishes and every operation keeps. *)
Definition ok (t : fat12Table) : Prop :=
  len (clusters t) = max t + 1 /\ 2 <= max t < 2 ^ 31 /\ eoc t = 0x0FFF /\ unused t = 0 /\
  3 <= size t < 2 ^ 29 /\ max t = size t * 2 / 3.

End Fat12.

(** ** FAT16 *)
Module Fat16.

Record fat16Table := mkTable { fatID : Z; eoc : Z; clusters : list Z; max : Z; size : Z }.

Definition set_clusters (t : fat16Table) (cs : list Z) : fat16Table :=
  mkTable (fatID t) (eoc t) cs (max t) (size t).

Definition newFat16Table (fatID sizeBytes : Z) : go fat16Table :=
  let maxCluster := sizeBytes / 2 in
  cs ← make 0 4 (u32 (maxCluster + 1));
  mret (mkTable fatID 0xFFFF cs maxCluster sizeBytes).

Definition isEOC (t : fat16Table) (val : Z) : bool := (0xFFF8 <=? val) && (val <=? 0xFFFF).

(** [binary.LittleEndian.PutUint16(b[lo:hi], v)]. *)
Definition put16 (b : list Z) (lo hi v : Z) : go (list Z) :=
  q ← slice b lo hi;
  if len q <? 2 then Panic IndexOutOfRange else mret (patch b lo (put_le 2 v)).

Definition fromBytes (t : fat16Table) (b : list Z) : go fat16Table :=
  cs ← go_for (S (Z.to_nat (max t))) (fun '(i, cs) =>
    if (i <? max t) && (u32 (u32 (i * 2) + 2) <=? u32 (len b)) then
      q ← slice b (u32 (i * 2)) (u32 (u32 (i * 2) + 2));
      let val := LE q in
      cs ← (if negb (val =? 0) then store cs i val else mret cs);
      mret (inl (u32 (i + 1), cs))
    else mret (inr cs)) (2, clusters t);
  if 2 <=? len b then
    q ← slice b 0 2;
    mret (mkTable (LE q) (eoc t) cs (max t) (size t))
  else mret (set_clusters t cs).

Definition toBytes (t : fat16Table) : go (list Z) :=
  b ← make 0 1 (size t);
  b ← put16 b 0 2 (u16 (fatID t));
  b ← put16 b 2 4 (u16 (eoc t));
  go_range (fun i b => v ← index (clusters t) i;
                       put16 b (u32 (i * 2)) (u32 (u32 (i * 2) + 2)) (u16 v))
    2 (Z.to_nat (max t - 2)) b.

Definition equal (t a : fat16Table) : bool :=
  (fatID t =? fatID a) && (eoc t =? eoc a) && (max t =? max a) && (size t =? size a) &&
  bool_decide (clusters t = clusters a).

#[global] Instance fat16_table : FATTable fat16Table := {
  ClusterValue t n := index (clusters t) n;
  SetCluster t n val := cs ← store (clusters t) n val; mret (set_clusters t cs);
  IsEOC := isEOC;
  EOCMarker := eoc;
  UnusedMarker _ := 0x0000;
  MaxCluster := max;
  FATID := fatID;
  RootDirCluster _ := 2;
  TableSize := size;
  FromBytes := fromBytes;
  Bytes := toBytes
}.

Definition ok (t : fat16Table) : Prop :=
  len (clusters t) = max t + 1 /\ 2 <= max t < 2 ^ 31 /\ eoc t = 0xFFFF /\
  4 <= size t < 2 ^ 31 /\ max t = size t / 2.

End Fat16.

(** ** FAT32 *)
Module Fat32.

Record table := mkTable {
  fatID : Z; eocMarker : Z; unusedMarker : Z; clusters : list Z;
  rootDirCluster : Z; size : Z; maxCluster : Z
}.

Definition set_clusters (t : table) (cs : list Z) : table :=
  mkTable (fatID t) (eocMarker t) (unusedMarker t) cs (rootDirCluster t) (size t) (maxCluster t).

Definition isEOC (t : table) (val : Z) : bool := Z.land val 0xFFFFFF8 =? 0xFFFFFF8.

(** [binary.LittleEndian.PutUint32(b[lo:hi], v)] and [Uint32(b[lo:hi])]. *)
Definition put32 (b : list Z) (lo hi v : Z) : go (list Z) :=
  q ← slice b lo hi;
  if len q <? 4 then Panic IndexOutOfRange else mret (patch b lo (put_le 4 v)).
Definition get32 (b : list Z) (lo hi : Z) : go Z :=
  q ← slice b lo hi;
  if len q <? 4 then Panic IndexOutOfRange else mret (LE q.[0, 4]).

Definition fromBytes (t : table) (b : list Z) : go table :=
  cs ← go_range (fun i cs =>
    let bStart := u32 (i * 4) in
    val ← get32 b bStart (u32 (bStart + 4));
    if negb (val =? 0) then store cs i val else mret cs) 2 (Z.to_nat (maxCluster t - 2)) (clusters t);
  mret (set_clusters t cs).

Definition toBytes (t : table) : go (list Z) :=
  b ← make 0 1 (size t);
  b ← put32 b 0 4 (fatID t);
  b ← put32 b 4 8 (eocMarker t);
  go_range (fun i b =>
    let bStart := u32 (i * 4) in
    v ← index (clusters t) i;
    put32 b bStart (u32 (bStart + 4)) v) 2 (Z.to_nat (maxCluster t - 2)) b.

Definition tableFromBytes (b : list Z) : go table :=
  let maxCluster := u32 (Z.quot (len b) 4) in
  fatID ← get32 b 0 4;
  eocMarker ← get32 b 4 8;
  cs ← make 0 4 (u32 (maxCluster + 1));
  fromBytes (mkTable fatID eocMarker 0 cs 2 (u32 (len b)) maxCluster) b.

Definition equal (t a : option table) : bool :=
  match t, a with
  | None, None => true
  | Some t, Some a =>
      (fatID t =? fatID a) && (eocMarker t =? eocMarker a) && (rootDirCluster t =? rootDirCluster a) &&
      (size t =? size a) && (maxCluster t =? maxCluster a) && bool_decide (clusters a = clusters t)
  | _, _ => false
  end.

#[global] Instance fat32_table : FATTable table := {
  ClusterValue t n := index (clusters t) n;
  SetCluster t n val := cs ← store (clusters t) n val; mret (set_clusters t cs);
  IsEOC := isEOC;
  EOCMarker := eocMarker;
  UnusedMarker := unusedMarker;
  MaxCluster := maxCluster;
  FATID := fatID;
  RootDirCluster := rootDirCluster;
  TableSize := size;
  FromBytes := fromBytes;
  Bytes := toBytes
}.

(** The marker is read from the disk's entry 1, so its being one is part of [ok]. *)
Definition ok (t : table) : Prop :=
  len (clusters t) = maxCluster t + 1 /\ 2 <= maxCluster t < 2 ^ 30 /\
  isEOC t (eocMarker t) = true /\ unusedMarker t = 0 /\ size t < 2 ^ 32 /\ maxCluster t = size t / 4.

End Fat32.

(** ** The on-disk encodings *)

(** *** FAT12: two entries in three bytes *)

(** The 12-bit value at entry [i]. *)
Definition entry12 (b : list Z) (i : Z) : Z :=
  let o := i * 3 / 2 in
  let word := byte_at b o + 256 * byte_at b (o + 1) in
  if i mod 2 =? 0 then word mod 4096 else word / 16.

Lemma fat12_offset i : 0 <= i -> exists k, 0 <= k /\
  ((i = 2 * k /\ i mod 2 = 0 /\ i * 3 / 2 = 3 * k) \/ (i = 2 * k + 1 /\ i mod 2 = 1 /\ i * 3 / 2 = 3 * k + 1)).
Proof.
  intros Hi. exists (i / 2). pose proof (Z.div_mod i 2). pose proof (Z.mod_pos_bound i 2).
  pose proof (Z.div_mod (i * 3) 2). pose proof (Z.mod_pos_bound (i * 3) 2).
  split; [apply Z.div_pos; lia|]. destruct (Z.eq_dec (i mod 2) 0); [left|right]; lia.
Qed.

Lemma fat12_read b i : bytes_ok b -> len b < 2 ^ 30 -> 0 <= i < 2 ^ 30 ->
  Fat12.fat12ReadEntry b i = Ret (if i * 3 / 2 + 1 <? len b then entry12 b i else 0).
Proof.
  intros Hb Hl Hi. pose proof (len_nonneg b). unfold Fat12.fat12ReadEntry, entry12. cbn zeta.
  destruct (fat12_offset i) as (k & Hk & Ho); [lia|].
  rewrite (wrap_u_id 32 (i * 3)) by lia. set (o := i * 3 / 2) in *.
  rewrite !(wrap_u_id 32) by lia. destruct (Z.leb_spec (len b) (o + 1)).
  { rewrite (proj2 (Z.ltb_ge _ _)) by lia. done. }
  rewrite (proj2 (Z.ltb_lt _ _)) by lia. rewrite !index_byte_at by lia. cbn [mbind go_bind mret go_ret].
  pose proof (byte_at_range b o Hb). pose proof (byte_at_range b (o + 1) Hb). unfold is_byte in *.
  rewrite (wrap_u_id 32) by (rewrite Z.shiftl_mul_pow2 by lia; lia).
  rewrite lor_shiftl_add by lia. change 0x0FFF with (2 ^ 12 - 1). rewrite land_mask, Z.shiftr_div_pow2 by lia.
  replace (byte_at b o + byte_at b (o + 1) * 2 ^ 8) with (byte_at b o + 256 * byte_at b (o + 1)) by lia. done.
Qed.

Lemma nibble_high x : 0 <= x < 256 -> Z.land x 0xF0 = 16 * (x / 16).
Proof.
  intros Hx. rewrite <-shiftl_shiftr_16.
  apply Z.bits_inj'. intros i Hi. rewrite Z.land_spec, Z.shiftl_spec by done.
  destruct (Z.ltb_spec i 4).
  - rewrite (Z.testbit_neg_r (Z.shiftr x 4)) by lia.
    assert (i = 0 \/ i = 1 \/ i = 2 \/ i = 3) as [->|[->|[->| ->]]] by lia; apply andb_false_r.
  - rewrite Z.shiftr_spec by lia. replace (i - 4 + 4) with i by lia.
    destruct (Z.ltb_spec i 8).
    + assert (i = 4 \/ i = 5 \/ i = 6 \/ i = 7) as [->|[->|[->| ->]]] by lia; apply andb_true_r.
    + by rewrite (testbit_high 8 x) by lia.
Qed.

(** The bytes a write leaves. *)
Definition written12 (b : list Z) (i v : Z) : list Z :=
  let o := i * 3 / 2 in
  if i mod 2 =? 0 then <[Z.to_nat (o + 1) := 16 * (byte_at b (o + 1) / 16) + v / 256]> (<[Z.to_nat o := v mod 256]> b)
  else <[Z.to_nat (o + 1) := v / 16]> (<[Z.to_nat o := byte_at b o mod 16 + 16 * (v mod 16)]> b).

Lemma fat12_write b i v : bytes_ok b -> len b < 2 ^ 30 -> 0 <= i < 2 ^ 30 -> 0 <= v < 4096 ->
  Fat12.fat12WriteEntry b i v = Ret (if i * 3 / 2 + 1 <? len b then written12 b i v else b).
Proof.
  intros Hb Hl Hi Hv. pose proof (len_nonneg b). unfold Fat12.fat12WriteEntry, written12. cbn zeta.
  destruct (fat12_offset i) as (k & Hk & Ho); [lia|].
  rewrite (wrap_u_id 32 (i * 3)) by lia. set (o := i * 3 / 2) in *.
  rewrite (wrap_u_id 32 (o + 1)), (wrap_u_id 32 (len b)) by lia. destruct (Z.leb_spec (len b) (o + 1)).
  { rewrite (proj2 (Z.ltb_ge _ _)) by lia. done. }
  rewrite (proj2 (Z.ltb_lt _ _)) by lia.
  pose proof (byte_at_range b o Hb). pose proof (byte_at_range b (o + 1) Hb). unfold is_byte in *.
  destruct (i mod 2 =? 0).
  - rewrite store_ok by lia. cbn [mbind go_bind]. rewrite index_byte_at by (rewrite len_insert; lia). cbn [mbind go_bind].
    rewrite byte_at_insert by lia. rewrite (proj2 (Z.eqb_neq _ _)) by lia. rewrite store_ok by (rewrite len_insert; lia).
    do 3 f_equal. rewrite nibble_high by lia.
    rewrite Z.shiftr_div_pow2 by lia. change (2 ^ 8) with 256. rewrite (wrap_u_id 8 (v / 256)) by lia.
    rewrite Z.lor_comm.
    replace (16 * (byte_at b (o + 1) / 16)) with (Z.shiftl (byte_at b (o + 1) / 16) 4) at 1 by (rewrite Z.shiftl_mul_pow2 by lia; change (2 ^ 4) with 16; lia).
    rewrite lor_shiftl_add by lia. change (2 ^ 4) with 16. lia.
  - rewrite index_byte_at by lia. cbn [mbind go_bind]. rewrite store_ok by lia. cbn [mbind go_bind].
    rewrite store_ok by (rewrite len_insert; lia). do 2 f_equal; [rewrite wrap_u_id; rewrite Z.shiftr_div_pow2 by lia; change (2 ^ 8) with 256; change (2 ^ 4) with 16; lia|].
    f_equal. change 0x0F with (2 ^ 4 - 1). rewrite land_mask by lia.
    replace (u8 (Z.shiftl v 4)) with (Z.shiftl (v mod 16) 4).
    2:{ unfold wrap_u. rewrite !Z.shiftl_mul_pow2 by lia. change (2 ^ 8) with (16 * 16). change (2 ^ 4) with 16.
        rewrite (Z.mul_comm v), Z.mul_mod_distr_l by lia. lia. }
    rewrite lor_shiftl_add by (try apply Z.mod_pos_bound; lia). lia.
Qed.

Lemma written12_ok b i v : bytes_ok b -> 0 <= i -> i * 3 / 2 + 1 < len b -> 0 <= v < 4096 ->
  bytes_ok (written12 b i v) /\ len (written12 b i v) = len b.
Proof.
  intros Hb Hi Ho Hv. unfold written12.
  pose proof (byte_at_range b (i * 3 / 2) Hb). pose proof (byte_at_range b (i * 3 / 2 + 1) Hb). unfold is_byte in *.
  destruct (_ =? 0); rewrite !len_insert; (split; [|done]); repeat apply Forall_insert; try done; unfold is_byte;
    pose proof (Z.mod_pos_bound v 256); pose proof (Z.mod_pos_bound v 16);
    pose proof (Z.mod_pos_bound (byte_at b (i * 3 / 2)) 16);
    pose proof (Z.div_mod v 256); pose proof (Z.div_mod v 16); pose proof (Z.div_mod (byte_at b (i * 3 / 2 + 1)) 16);
    pose proof (Z.mod_pos_bound (byte_at b (i * 3 / 2 + 1)) 16); lia.
Qed.

(** A write changes its entry and no other, though they share bytes. *)
Lemma entry12_written b i v j : bytes_ok b -> 0 <= i -> i * 3 / 2 + 1 < len b -> 0 <= v < 4096 -> 0 <= j ->
  entry12 (written12 b i v) j = if j =? i then v else entry12 b j.
Proof.
  intros Hb Hi Ho Hv Hj. unfold entry12, written12.
  destruct (fat12_offset i) as (k & Hk & [(Ei & -> & ->)|(Ei & -> & ->)]); [done| |];
    destruct (fat12_offset j) as (m & Hm & [(Ej & -> & ->)|(Ej & -> & ->)]); try done; cbn [Z.eqb];
    rewrite ?byte_at_insert by (rewrite ?len_insert; lia);
    pose proof (byte_at_range b (3 * k) Hb); pose proof (byte_at_range b (3 * k + 1) Hb);
    pose proof (byte_at_range b (3 * k + 2) Hb); unfold is_byte in *;
    repeat (destruct_if; try lia); try done; subst; try (assert (m = k) as -> by lia);
    replace (3 * k + 1 + 1) with (3 * k + 2) by lia; try lia.
Qed.

(** The byte of the media descriptor is not part of the entries from 2 up. *)
Lemma byte0_written b i v : 2 <= i -> i * 3 / 2 + 1 < len b -> byte_at (written12 b i v) 0 = byte_at b 0.
Proof.
  intros Hi Ho. unfold written12. destruct (fat12_offset i) as (k & Hk & [(Ei & -> & ->)|(Ei & -> & ->)]); try lia;
    cbn [Z.eqb]; rewrite !byte_at_insert by (rewrite ?len_insert; lia); repeat (destruct_if; try lia); done.
Qed.

(** The table after reading the entries [2 .. hi]. *)
Lemma index_store_range (cs : list Z) (f : Z -> Z) hi : hi < len cs ->
  wp (go_range (fun i cs => store cs i (f i)) 2 (Z.to_nat (hi - 1)) cs)
     (fun cs' => len cs' = len cs /\ forall n, 0 <= n ->
        index cs' n = if (2 <=? n) && (n <=? hi) then Ret (f n) else index cs n) no_err.
Proof.
  intros Hhi. eapply wp_mono; [apply (wp_go_range (fun k cs' => len cs' = len cs /\ forall n, 0 <= n ->
    index cs' n = if (2 <=? n) && (n <? k) then Ret (f n) else index cs n))| |done]; cbn beta.
  - split; [done|]. intros n Hn. replace ((2 <=? n) && (n <? 2)) with false by lia. done.
  - intros i s Hi (Hl & Hs). rewrite store_ok by lia. cbn. rewrite len_insert. split; [done|].
    intros n Hn. destruct (clusters_set s (len s - 1) i (f i)) as [_ ->]; try lia. destruct_if.
    + subst. by replace ((2 <=? i) && (i <? i + 1)) with true by lia.
    + rewrite Hs by done. by replace (n <? i + 1) with (n <? i) by lia.
  - intros cs' (Hl & Hs). split; [done|]. intros n Hn. rewrite Hs by done.
    replace ((2 <=? n) && (n <? 2 + Z.of_nat (Z.to_nat (hi - 1)))) with ((2 <=? n) && (n <=? hi)); [done|].
    destruct (Z.leb_spec 2 n), (Z.leb_spec n hi), (Z.ltb_spec n (2 + Z.of_nat (Z.to_nat (hi - 1)))); cbn; done || lia.
Qed.

Lemma go_range_ext {St} (f g : Z -> St -> go St) n : forall lo s,
  (forall i s, lo <= i < lo + Z.of_nat n -> f i s = g i s) -> go_range f lo n s = go_range g lo n s.
Proof.
  induction n as [|n IH]; intros lo s Hfg; [done|]. cbn [go_range]. rewrite Hfg by lia.
  destruct (g lo s); [|done..]. cbn [mbind go_bind]. apply IH. intros. apply Hfg. lia.
Qed.

Lemma fat12_fromBytes t b : Fat12.ok t -> bytes_ok b -> len b = Fat12.size t ->
  exists t', Fat12.fromBytes t b = Ret t' /\ Fat12.ok t' /\ Fat12.max t' = Fat12.max t /\
    Fat12.fatID t' = Z.lor (byte_at b 0) 0x0F00 /\ Fat12.size t' = Fat12.size t /\
    (forall n, 0 <= n < 2 -> ClusterValue t' n = ClusterValue t n) /\
    forall n, 2 <= n < Fat12.max t -> ClusterValue t' n = Ret (entry12 b n).
Proof.
  intros (Hl & Hm & He & Hu & Hlen & Hmax) Hb El. rewrite <-El in Hlen, Hmax. unfold Fat12.fromBytes. cbn zeta.
  rewrite (i64_id (len b * 2)), Z.quot_div_nonneg by lia. rewrite (wrap_u_id 32 (len b * 2 / 3)) by lia.
  rewrite (wrap_u_id 32 _) by lia. rewrite <-Hmax.
  rewrite (proj2 (Z.ltb_ge (Fat12.max t) (Fat12.max t - 1))) by lia.
  rewrite (go_range_ext _ (fun i cs => store cs i (if i * 3 / 2 + 1 <? len b then entry12 b i else 0))).
  2:{ intros i s Hi. rewrite fat12_read by (done || lia). done. }
  destruct (wp_no_err_Ret _ _ (index_store_range (Fat12.clusters t)
    (fun i => if i * 3 / 2 + 1 <? len b then entry12 b i else 0) (Fat12.max t - 1) ltac:(lia))) as (cs & -> & Hcl & Hcs).
  cbn [mbind go_bind]. destruct_if; [|lia]. rewrite index_byte_at by lia. cbn [mbind go_bind mret go_ret].
  eexists. split; [done|]. unfold Fat12.ok. cbn. rewrite <-El. split_and!; try done; try lia; intros n Hn; rewrite Hcs by lia.
  { by replace (2 <=? n) with false by lia. }
  replace ((2 <=? n) && (n <=? Fat12.max t - 1)) with true by lia. by rewrite (proj2 (Z.ltb_lt _ _)) by lia.
Qed.

Lemma byte_at_replicate n (x : Z) i : 0 <= i < Z.of_nat n -> byte_at (replicate n x) i = x.
Proof. intros. unfold byte_at. by rewrite lookup_replicate_2 by lia. Qed.

(** The values of the clusters that have an entry. *)
Definition values_fit {T} `{FATTable T} (t : T) (bound : Z) : Prop := forall n, 2 <= n < MaxCluster t ->
  exists v, ClusterValue t n = Ret v /\ 0 <= v < bound.

Lemma fat12_toBytes t : Fat12.ok t -> values_fit t 4096 ->
  exists b, Fat12.toBytes t = Ret b /\ len b = Fat12.size t /\ bytes_ok b /\
    byte_at b 0 = Fat12.fatID t mod 256 /\
    forall n, 2 <= n < Fat12.max t -> ClusterValue t n = Ret (entry12 b n).
Proof.
  intros (Hl & Hm & He & Hu & Hs & Hmax) Hv. unfold Fat12.toBytes. cbn zeta.
  rewrite make_ok by (unfold maxAlloc; lia). cbn [mbind go_bind].
  set (m := u8 (Z.land (Fat12.fatID t) 0xFF)). set (z := replicate (Z.to_nat (Fat12.size t)) 0).
  assert (len z = Fat12.size t) as Hz by (unfold z; rewrite len_replicate; lia).
  assert (is_byte m) as Hmb by apply is_byte_u8.
  assert (m = Fat12.fatID t mod 256) as Hmm.
  { unfold m. change 0xFF with (2 ^ 8 - 1). rewrite land_mask by lia. rewrite wrap_u_id; [done|]. apply Z.mod_pos_bound. lia. }
  do 6 (rewrite store_ok by (rewrite ?len_insert; lia); cbn [mbind go_bind]).
  set (b0 := <[_ := 0xFF]> _).
  assert (bytes_ok b0 /\ len b0 = Fat12.size t /\ byte_at b0 0 = m /\ forall i, 3 <= i -> i < Fat12.size t -> byte_at b0 i = 0) as (Hb0 & Hl0 & Hm0 & Hr0).
  { unfold b0. rewrite !len_insert. split_and!; try done.
    - repeat apply Forall_insert; try done; try (unfold is_byte; lia). apply bytes_ok_zeros.
    - rewrite !byte_at_insert by (rewrite ?len_insert; lia). done.
    - intros i Hi Hi'. rewrite !byte_at_insert by (rewrite ?len_insert; lia). repeat (destruct_if; [lia|]).
      apply byte_at_replicate. lia. }
  assert (wp (go_range (fun i b => v ← index (Fat12.clusters t) i;
      if negb (v =? 0) then Fat12.fat12WriteEntry b i v else mret b) 2 (Z.to_nat (Fat12.max t - 1)) b0)
    (fun b => (len b = Fat12.size t /\ bytes_ok b /\ byte_at b 0 = m) /\
      forall n, 2 <= n < Fat12.max t -> n < 2 + Z.of_nat (Z.to_nat (Fat12.max t - 1)) -> ClusterValue t n = Ret (entry12 b n)) no_err) as Hw.
  { eapply wp_mono; [apply (wp_go_range (fun k b => (len b = Fat12.size t /\ bytes_ok b /\ byte_at b 0 = m) /\
      forall n, 2 <= n < Fat12.max t -> if n <? k then ClusterValue t n = Ret (entry12 b n) else entry12 b n = 0))| |done].
    - split; [done|]. intros n Hn. rewrite (proj2 (Z.ltb_ge _ _)) by lia. unfold entry12.
      rewrite !Hr0 by lia. by destruct (_ =? 0).
    - intros i b Hi ((Hbl & Hbb & Hbm) & Hbn).
      destruct (clusters_get (Fat12.clusters t) (Fat12.max t) i Hl ltac:(lia)) as (v & Hiv). rewrite Hiv. cbn [mbind go_bind].
      destruct (Z.eq_dec i (Fat12.max t)) as [->|Hne].
      + assert ((if negb (v =? 0) then Fat12.fat12WriteEntry b (Fat12.max t) v else mret b) = Ret b) as ->.
        { destruct (negb _); [|done]. unfold Fat12.fat12WriteEntry. cbn zeta.
          rewrite (wrap_u_id 32 (Fat12.max t * 3)), (wrap_u_id 32 (_ + 1)), (wrap_u_id 32 (len b)) by lia.
          by rewrite (proj2 (Z.leb_le _ _)) by lia. }
        cbn. split; [done|]. intros n Hn. specialize (Hbn n Hn). rewrite (proj2 (Z.ltb_lt n (Fat12.max t))) in Hbn by lia. by rewrite (proj2 (Z.ltb_lt _ _)) by lia.
      + destruct (Hv i ltac:(cbn; lia)) as (v' & Hv' & Hvr). cbn in Hv'. rewrite Hiv in Hv'. injection Hv' as <-.
        assert (exists b', (if negb (v =? 0) then Fat12.fat12WriteEntry b i v else mret b) = Ret b' /\
          len b' = Fat12.size t /\ bytes_ok b' /\ byte_at b' 0 = m /\
          forall j, 2 <= j < Fat12.max t -> entry12 b' j = if j =? i then v else entry12 b j) as (b' & -> & Hl' & Hb' & Hm' & Hj').
        { destruct (Z.eqb_spec v 0) as [->|]; cbn [negb].
          - exists b. split_and!; try done. intros j Hj. destruct_if; [|done]. subst j.
            specialize (Hbn i Hj). rewrite (proj2 (Z.ltb_ge i i)) in Hbn by lia. done.
          - rewrite fat12_write by (done || lia). rewrite (proj2 (Z.ltb_lt _ _)) by lia. eexists. split; [done|].
            destruct (written12_ok b i v) as [? ->]; try done; try lia.
            rewrite byte0_written by lia. split_and!; try done. intros j Hj. apply entry12_written; done || lia. }
        cbn. split; [done|]. intros n Hn. specialize (Hbn n Hn). rewrite Hj' by done.
        destruct (Z.ltb_spec n (i + 1)).
        * destruct (Z.eqb_spec n i) as [->|]; [done|]. by rewrite (proj2 (Z.ltb_lt _ _)) in Hbn by lia.
        * rewrite (proj2 (Z.eqb_neq _ _)) by lia. by rewrite (proj2 (Z.ltb_ge _ _)) in Hbn by lia.
    - intros b (Hb & Hn). split; [done|]. intros n Hn1 Hn2. specialize (Hn n Hn1). by rewrite (proj2 (Z.ltb_lt _ _)) in Hn by lia. }
  destruct (wp_no_err_Ret _ _ Hw) as (b & -> & (Hbl & Hbb & Hbm) & Hbn).
  exists b. rewrite <-Hmm. split_and!; try done. intros n Hn. apply Hbn; lia.
Qed.

(** Into a fresh table; the two entries in front of the first cluster stay empty. *)
Lemma fat12_reread t t0 id : Fat12.ok t -> values_fit t 4096 -> Fat12.newFat12Table id (Fat12.size t) = Ret t0 ->
  exists b t', Bytes t = Ret b /\ len b = TableSize t /\ FromBytes t0 b = Ret t' /\ Fat12.ok t' /\
    MaxCluster t' = MaxCluster t /\ TableSize t' = TableSize t /\ FATID t' = Z.lor (FATID t mod 256) 0x0F00 /\
    (forall n, 0 <= n < 2 -> ClusterValue t' n = Ret 0) /\
    forall n, 2 <= n < MaxCluster t -> ClusterValue t' n = ClusterValue t n.
Proof.
  intros Hok Hv Hnew. destruct (fat12_toBytes t Hok Hv) as (b & Hb & Hl & Hbb & Hm & Hn).
  pose proof Hok as (Hcl & Hmr & He & Hu & Hs & Hmax).
  unfold Fat12.newFat12Table in Hnew. rewrite (wrap_u_id 32 (_ * 2)) in Hnew by lia. rewrite <-Hmax in Hnew.
  rewrite (wrap_u_id 32) in Hnew by lia.
  rewrite make_ok in Hnew by (unfold maxAlloc; lia). injection Hnew as <-. cbn beta in *.
  destruct (fat12_fromBytes (Fat12.mkTable id 4095 0 (replicate (Z.to_nat (Fat12.max t + 1)) 0) (Fat12.max t) (Fat12.size t)) b)
    as (t' & Ht' & Hok' & Hm' & Hid & Hsz' & H0' & Hn'); try done; cbn; try lia.
  { unfold Fat12.ok; cbn. rewrite len_replicate. split_and!; done || lia. }
  exists b, t'. cbn in *. rewrite Hid, Hm. split_and!; try done.
  - intros n Hr. rewrite H0' by done. rewrite index_byte_at by (rewrite len_replicate; lia). by rewrite byte_at_replicate by lia.
  - intros n Hr. rewrite Hn', Hn by done. done.
Qed.

(** FAT12 on disk: writing a table whose values are 12-bit and reading the bytes
    back into a fresh table of the same size gives every cluster its value, though
    neighbouring entries share a byte; the media byte survives. *)
Lemma fat12_roundtrip t t0 : Fat12.ok t -> values_fit t 4096 ->
  Fat12.newFat12Table 0 (Fat12.size t) = Ret t0 ->
  exists b t', Bytes t = Ret b /\ len b = TableSize t /\ FromBytes t0 b = Ret t' /\ Fat12.ok t' /\
    MaxCluster t' = MaxCluster t /\ FATID t' = Z.lor (FATID t mod 256) 0x0F00 /\
    forall n, 2 <= n < MaxCluster t -> ClusterValue t' n = ClusterValue t n.
Proof. intros Hok Hv Hnew. destruct (fat12_reread t t0 0 Hok Hv Hnew) as (b & t' & ? & ? & ? & ? & ? & _ & ? & _ & ?). by exists b, t'. Qed.

(** *** FAT16 and FAT32: an array of little-endian words *)

(** Word [i] of [w] bytes. *)
Definition word_at (w : Z) (b : list Z) (i : Z) : Z := LE b.[w * i, w * i + w].


(** Writing word [i] changes that word and no other. *)
Lemma word_at_patch (n : nat) b i v j : (0 < n)%nat -> 0 <= i -> 0 <= j ->
  Z.of_nat n * i + Z.of_nat n <= len b -> Z.of_nat n * j + Z.of_nat n <= len b ->
  0 <= v < 256 ^ Z.of_nat n ->
  word_at (Z.of_nat n) (patch b (Z.of_nat n * i) (put_le n v)) j = if j =? i then v else word_at (Z.of_nat n) b j.
Proof.
  intros Hn Hi Hj Hil Hjl Hv. unfold word_at. destruct_if.
  - subst j. pose proof (sub_patch_same b (Z.of_nat n * i) (put_le n v)) as Hs. rewrite len_put_le in Hs.
    rewrite Hs by nia. rewrite LE_put_le. by apply Z.mod_small.
  - rewrite sub_patch_other; [done|rewrite ?len_put_le; nia..].
Qed.

(** The loop that writes the entries from 2 up. *)
Lemma write_words (n : nat) (cs : list Z) (put : Z -> list Z -> Z -> go (list Z)) bound max b0 :
  (0 < n)%nat -> len cs = max + 1 -> 2 <= max -> Z.of_nat n * max <= len b0 -> bytes_ok b0 ->
  bound <= 256 ^ Z.of_nat n ->
  (forall i v b, 2 <= i < max -> len b = len b0 -> 0 <= v < bound ->
     put i b v = Ret (patch b (Z.of_nat n * i) (put_le n v))) ->
  (forall i, 2 <= i < max -> exists v, index cs i = Ret v /\ 0 <= v < bound) ->
  wp (go_range (fun i b => v ← index cs i; put i b v) 2 (Z.to_nat (max - 2)) b0)
     (fun b => len b = len b0 /\ bytes_ok b /\ forall j, 0 <= j < max ->
        if 2 <=? j then index cs j = Ret (word_at (Z.of_nat n) b j)
        else word_at (Z.of_nat n) b j = word_at (Z.of_nat n) b0 j) no_err.
Proof.
  intros Hn Hl Hm Hb0 Hbb Hbd Hput Hv.
  eapply wp_mono; [apply (wp_go_range (fun k b => len b = len b0 /\ bytes_ok b /\ forall j, 0 <= j < max ->
    if (2 <=? j) && (j <? k) then index cs j = Ret (word_at (Z.of_nat n) b j)
    else word_at (Z.of_nat n) b j = word_at (Z.of_nat n) b0 j))| |done]; cbn beta.
  - split_and!; try done. intros j Hj. by replace ((2 <=? j) && (j <? 2)) with false by lia.
  - intros i b Hi (Hbl & Hbok & Hj). destruct (Hv i ltac:(lia)) as (v & Hiv & Hvr). rewrite Hiv. cbn [mbind go_bind].
    assert (len (put_le n v) = Z.of_nat n) as Hpl by apply len_put_le.
    rewrite Hput by (done || lia). cbn. rewrite patch_len by (rewrite ?Hpl; nia). split_and!; [done| |].
    + apply patch_bytes; [done|apply put_le_bytes].
    + intros j Hjr. rewrite word_at_patch by (done || nia). specialize (Hj j Hjr).
      destruct (Z.eqb_spec j i) as [->|].
      * by replace ((2 <=? i) && (i <? i + 1)) with true by lia.
      * by replace (j <? i + 1) with (j <? i) by lia.
  - intros b (Hbl & Hbok & Hj). split_and!; try done. intros j Hjr. specialize (Hj j Hjr).
    rewrite (proj2 (Z.ltb_lt j _)) in Hj by lia. by rewrite andb_true_r in Hj.
Qed.

(** The state of the loop that reads them, after entry [k - 1]: a zero word leaves
    the cluster alone. *)
Definition words_read (w : Z) (b cs0 : list Z) (k : Z) (cs : list Z) : Prop :=
  len cs = len cs0 /\ forall n, 0 <= n ->
    index cs n = if (2 <=? n) && (n <? k) && negb (word_at w b n =? 0) then Ret (word_at w b n) else index cs0 n.

Lemma words_read_start w b cs : words_read w b cs 2 cs.
Proof. split; [done|]. intros n Hn. by replace ((2 <=? n) && (n <? 2)) with false by lia. Qed.

Lemma words_read_step w b cs0 k cs : 2 <= k < len cs0 -> words_read w b cs0 k cs ->
  wp (if negb (word_at w b k =? 0) then store cs k (word_at w b k) else mret cs) (words_read w b cs0 (k + 1)) no_err.
Proof.
  intros Hk [Hl Hi]. destruct (Z.eqb_spec (word_at w b k) 0) as [E|E]; cbn [negb].
  - cbn. split; [done|]. intros n Hn. rewrite Hi by done. destruct (Z.eq_dec n k) as [->|].
    + rewrite E. by rewrite !andb_false_r.
    + by replace (n <? k + 1) with (n <? k) by lia.
  - rewrite store_ok by lia. cbn. split; [by rewrite len_insert|]. intros n Hn.
    destruct (clusters_set cs (len cs - 1) k (word_at w b k)) as [_ ->]; try lia. destruct_if.
    + subst. replace ((2 <=? k) && (k <? k + 1)) with true by lia. by rewrite (proj2 (Z.eqb_neq _ _)).
    + rewrite Hi by done. by replace (n <? k + 1) with (n <? k) by lia.
Qed.

(** Into a fresh table, every word arrives. *)
Lemma words_read_fresh w b n k cs i : words_read w b (replicate n 0) k cs ->
  2 <= i < k -> i < Z.of_nat n -> index cs i = Ret (word_at w b i).
Proof.
  intros [Hl Hi] Hik Hin. rewrite Hi by lia. replace ((2 <=? i) && (i <? k)) with true by lia.
  destruct (Z.eqb_spec (word_at w b i) 0) as [->|]; cbn; [|done].
  rewrite index_byte_at by (rewrite len_replicate; lia). by rewrite byte_at_replicate by lia.
Qed.

Lemma words_read_reserved w b n k cs i : words_read w b (replicate n 0) k cs -> 0 <= i < 2 -> i < Z.of_nat n -> index cs i = Ret 0.
Proof.
  intros [Hl Hi] Hi2 Hin. rewrite Hi by lia. replace (2 <=? i) with false by lia. cbn [andb].
  rewrite index_byte_at by (rewrite len_replicate; lia). by rewrite byte_at_replicate by lia.
Qed.

Lemma slice_le (b : list Z) lo n : 0 <= lo -> 0 <= n -> lo + n <= len b ->
  slice b lo (lo + n) = Ret b.[lo, lo + n] /\ len b.[lo, lo + n] = n.
Proof. intros. rewrite slice_ok, len_sub by lia. split; [done|lia]. Qed.

Lemma put16_ok b lo v : 0 <= lo -> lo + 2 <= len b -> Fat16.put16 b lo (lo + 2) v = Ret (patch b lo (put_le 2 v)).
Proof. intros. unfold Fat16.put16. destruct (slice_le b lo 2) as [-> Hl]; [lia..|]. cbn [mbind go_bind]. rewrite Hl. done. Qed.

Lemma put32_ok b lo v : 0 <= lo -> lo + 4 <= len b -> Fat32.put32 b lo (lo + 4) v = Ret (patch b lo (put_le 4 v)).
Proof. intros. unfold Fat32.put32. destruct (slice_le b lo 4) as [-> Hl]; [lia..|]. cbn [mbind go_bind]. rewrite Hl. done. Qed.

Lemma get32_ok b lo : 0 <= lo -> lo + 4 <= len b -> Fat32.get32 b lo (lo + 4) = Ret (LE b.[lo, lo + 4]).
Proof.
  intros. unfold Fat32.get32. destruct (slice_le b lo 4) as [-> Hl]; [lia..|]. cbn [mbind go_bind]. rewrite Hl.
  change (4 <? 4) with false. cbn iota. rewrite <-Hl at 2. by rewrite sub_full.
Qed.

(** Reading a table keeps its invariant, whatever the bytes are. *)
Lemma fat16_fromBytes t b : Fat16.ok t -> bytes_ok b -> len b = Fat16.size t ->
  exists t', Fat16.fromBytes t b = Ret t' /\ Fat16.ok t' /\ Fat16.max t' = Fat16.max t /\ Fat16.size t' = Fat16.size t /\
    Fat16.fatID t' = word_at 2 b 0 /\ words_read 2 b (Fat16.clusters t) (Fat16.max t) (Fat16.clusters t').
Proof.
  intros (Hcl & Hmr & He & Hs & Hmax) Hb Hlen. unfold Fat16.fromBytes.
  match goal with |- context [go_for ?f ?body ?s] =>
    assert (wp (go_for f body s) (words_read 2 b (Fat16.clusters t) (Fat16.max t)) no_err) as Hr end.
  { apply (wp_for (fun '(i, cs) => 2 <= i <= Fat16.max t /\ words_read 2 b (Fat16.clusters t) i cs) (fun '(i, _) => Z.to_nat (Fat16.max t - i)));
      [|split; [lia|apply words_read_start]|lia].
    intros [i cs] [Hi Hcs]. destruct (Z.eq_dec i (Fat16.max t)) as [->|].
    - rewrite Z.ltb_irrefl. done.
    - rewrite (wrap_u_id 32 (i * 2)), (wrap_u_id 32 (i * 2 + 2)), (wrap_u_id 32 (len b)) by lia.
      replace ((i <? Fat16.max t) && (i * 2 + 2 <=? len b)) with true by lia.
      destruct (slice_le b (i * 2) 2) as [-> _]; [lia..|]. cbn [mbind go_bind].
      replace (LE b.[i * 2, i * 2 + 2]) with (word_at 2 b i) by (unfold word_at; by rewrite Z.mul_comm).
      apply wp_bind. eapply wp_mono; [apply (words_read_step 2 b (Fat16.clusters t)); done || lia| |done].
      intros cs' Hcs'. cbn. rewrite wrap_u_id by lia. split; [split; [lia|done]|lia]. }
  destruct (wp_no_err_Ret _ _ Hr) as (cs & -> & Hcs). cbn [mbind go_bind].
  destruct_if; [|lia]. rewrite slice_ok by lia. cbn [mbind go_bind mret go_ret]. eexists. split_and!; [done|..]; cbn; try done.
  destruct Hcs as [Hl _]. unfold Fat16.ok; cbn. split_and!; done || lia.
Qed.

Lemma fat16_reread t t0 id : Fat16.ok t -> values_fit t (2 ^ 16) -> Fat16.newFat16Table id (Fat16.size t) = Ret t0 ->
  exists b t', Bytes t = Ret b /\ len b = TableSize t /\ FromBytes t0 b = Ret t' /\ Fat16.ok t' /\
    MaxCluster t' = MaxCluster t /\ TableSize t' = TableSize t /\ FATID t' = FATID t mod 2 ^ 16 /\
    (forall n, 0 <= n < 2 -> ClusterValue t' n = Ret 0) /\
    forall n, 2 <= n < MaxCluster t -> ClusterValue t' n = ClusterValue t n.
Proof.
  intros (Hcl & Hmr & He & Hs & Hmax) Hv Hnew.
  unfold Fat16.newFat16Table in Hnew. rewrite <-Hmax, (wrap_u_id 32), make_ok in Hnew by (unfold maxAlloc; lia).
  injection Hnew as <-. cbn [Bytes FromBytes Fat16.fat16_table]. unfold Fat16.toBytes.
  rewrite make_ok by (unfold maxAlloc; lia). cbn [mbind go_bind]. set (z := replicate (Z.to_nat (Fat16.size t)) 0).
  assert (len z = Fat16.size t) as Hz by (unfold z; rewrite len_replicate; lia).
  rewrite (put16_ok z 0) by lia. cbn [mbind go_bind]. set (z1 := patch z 0 _).
  assert (len z1 = Fat16.size t) as Hz1 by (unfold z1; rewrite patch_len; rewrite ?len_put_le; lia).
  rewrite (put16_ok z1 2) by lia. cbn [mbind go_bind]. set (b0 := patch z1 2 _).
  assert (len b0 = Fat16.size t) as Hb0 by (unfold b0; rewrite patch_len; rewrite ?len_put_le; lia).
  assert (word_at 2 b0 0 = Fat16.fatID t mod 2 ^ 16) as Hid.
  { unfold b0. rewrite (word_at_patch 2 z1 1) by (lia || apply wrap_u_range; lia). cbn [Z.eqb].
    unfold z1. rewrite (word_at_patch 2 z 0) by (lia || apply wrap_u_range; lia). done. }
  assert (bytes_ok b0) as Hbb0.
  { unfold b0, z1. apply patch_bytes; [apply patch_bytes; [apply bytes_ok_zeros|]|]; apply put_le_bytes. }
  destruct (wp_no_err_Ret _ _ (write_words 2 (Fat16.clusters t)
    (fun i b v => Fat16.put16 b (u32 (i * 2)) (u32 (u32 (i * 2) + 2)) (u16 v)) (2 ^ 16) (Fat16.max t) b0
    ltac:(lia) Hcl ltac:(lia) ltac:(lia) Hbb0 ltac:(done)
    ltac:(intros i v b Hi Hl Hvr; cbn beta; rewrite !(wrap_u_id 32), (wrap_u_id 16), put16_ok by lia; by replace (i * 2) with (2 * i) by lia)
    Hv)) as (b & Hb & Hbl & Hbok & Hw).
  rewrite Hb. cbn [mbind go_bind] in *. exists b.
  destruct (fat16_fromBytes (Fat16.mkTable id 0xFFFF (replicate (Z.to_nat (Fat16.max t + 1)) 0) (Fat16.max t) (Fat16.size t)) b)
    as (t' & Ht' & Hok' & Hm' & Hsz' & Hid' & Hcs); [|done|cbn; lia|].
  { unfold Fat16.ok; cbn. rewrite len_replicate. split_and!; done || lia. }
  exists t'. cbn in Hm', Hsz', Hid', Hcs. split_and!; [done|cbn; lia|done|done|done|done|..]; cbn.
  - rewrite Hid'. specialize (Hw 0 ltac:(lia)). change (word_at 2 b 0 = word_at 2 b0 0) in Hw. rewrite Hid in Hw. exact Hw.
  - intros n Hn. apply (words_read_reserved 2 b (Z.to_nat (Fat16.max t + 1)) (Fat16.max t) _ n Hcs); lia.
  - intros n Hn. rewrite (words_read_fresh 2 b (Z.to_nat (Fat16.max t + 1)) (Fat16.max t) _ n Hcs) by lia.
    specialize (Hw n ltac:(lia)). rewrite (proj2 (Z.leb_le 2 n)) in Hw by lia. done.
Qed.

(** FAT16 on disk: writing a table of 16-bit values and reading the bytes back
    into a fresh table of the same size gives every cluster its value and keeps the
    media word. *)
Lemma fat16_roundtrip t t0 : Fat16.ok t -> values_fit t (2 ^ 16) ->
  Fat16.newFat16Table 0 (Fat16.size t) = Ret t0 ->
  exists b t', Bytes t = Ret b /\ len b = TableSize t /\ FromBytes t0 b = Ret t' /\ Fat16.ok t' /\
    MaxCluster t' = MaxCluster t /\ FATID t' = FATID t mod 2 ^ 16 /\
    forall n, 2 <= n < MaxCluster t -> ClusterValue t' n = ClusterValue t n.
Proof. intros Hok Hv Hnew. destruct (fat16_reread t t0 0 Hok Hv Hnew) as (b & t' & ? & ? & ? & ? & ? & _ & ? & _ & ?). by exists b, t'. Qed.

Lemma fat32_reread t : Fat32.ok t -> 0 <= Fat32.fatID t < 2 ^ 32 -> 0 <= Fat32.eocMarker t < 2 ^ 32 -> values_fit t (2 ^ 32) ->
  exists b t', Bytes t = Ret b /\ len b = TableSize t /\ Fat32.tableFromBytes b = Ret t' /\ Fat32.ok t' /\
    MaxCluster t' = MaxCluster t /\ FATID t' = FATID t /\ EOCMarker t' = EOCMarker t /\ TableSize t' = TableSize t /\
    (forall n, 0 <= n < 2 -> ClusterValue t' n = Ret 0) /\
    forall n, 2 <= n < MaxCluster t -> ClusterValue t' n = ClusterValue t n.
Proof.
  intros (Hcl & Hmr & He & Hu & Hs & Hmax) Hfid Heoc Hv. cbn [Bytes Fat32.fat32_table]. unfold Fat32.toBytes.
  rewrite make_ok by (unfold maxAlloc; lia). cbn [mbind go_bind]. set (z := replicate (Z.to_nat (Fat32.size t)) 0).
  assert (len z = Fat32.size t) as Hz by (unfold z; rewrite len_replicate; lia).
  rewrite (put32_ok z 0) by lia. cbn [mbind go_bind]. set (z1 := patch z 0 _).
  assert (len z1 = Fat32.size t) as Hz1 by (unfold z1; rewrite patch_len; rewrite ?len_put_le; lia).
  rewrite (put32_ok z1 4) by lia. cbn [mbind go_bind]. set (b0 := patch z1 4 _).
  assert (len b0 = Fat32.size t) as Hb0 by (unfold b0; rewrite patch_len; rewrite ?len_put_le; lia).
  assert (word_at 4 b0 0 = Fat32.fatID t /\ word_at 4 b0 1 = Fat32.eocMarker t) as [Hw0 Hw1].
  { unfold b0. rewrite !(word_at_patch 4 z1 1) by lia. cbn [Z.eqb]. split; [|done].
    unfold z1. rewrite (word_at_patch 4 z 0) by lia. done. }
  assert (bytes_ok b0) as Hbb0.
  { unfold b0, z1. apply patch_bytes; [apply patch_bytes; [apply bytes_ok_zeros|]|]; apply put_le_bytes. }
  destruct (wp_no_err_Ret _ _ (write_words 4 (Fat32.clusters t)
    (fun i b v => Fat32.put32 b (u32 (i * 4)) (u32 (u32 (i * 4) + 4)) v) (2 ^ 32) (Fat32.maxCluster t) b0
    ltac:(lia) Hcl ltac:(lia) ltac:(lia) Hbb0 ltac:(done)
    ltac:(intros i v b Hi Hl Hvr; cbn beta; rewrite !(wrap_u_id 32), put32_ok by lia; by replace (i * 4) with (4 * i) by lia)
    Hv)) as (b & Hb & Hbl & Hbok & Hw).
  cbn zeta in *. rewrite Hb. exists b. unfold Fat32.tableFromBytes.
  rewrite Z.quot_div_nonneg, (wrap_u_id 32 (len b)), Hbl, Hb0, <-Hmax, !(wrap_u_id 32) by lia.
  change (Fat32.get32 b 0 4) with (Fat32.get32 b 0 (0 + 4)). change (Fat32.get32 b 4 8) with (Fat32.get32 b 4 (4 + 4)).
  rewrite (get32_ok b 0), (get32_ok b 4), make_ok by (unfold maxAlloc; lia). cbn [mbind go_bind].
  pose proof (Hw 0 ltac:(lia)) as Hr0. pose proof (Hw 1 ltac:(lia)) as Hr1.
  change (LE b.[0, 0 + 4] = word_at 4 b0 0) in Hr0. change (LE b.[4, 4 + 4] = word_at 4 b0 1) in Hr1.
  rewrite Hr0, Hr1, Hw0, Hw1.
  unfold Fat32.fromBytes. cbn [Fat32.clusters Fat32.maxCluster].
  set (cs0 := replicate (Z.to_nat (Fat32.maxCluster t + 1)) 0).
  assert (len cs0 = Fat32.maxCluster t + 1) as Hcs0 by (unfold cs0; rewrite len_replicate; lia).
  match goal with |- context [go_range ?f ?lo ?n ?s] =>
    assert (wp (go_range f lo n s) (words_read 4 b cs0 (lo + Z.of_nat n)) no_err) as Hr end.
  { apply (wp_go_range (words_read 4 b cs0)); [apply words_read_start|].
    intros i cs Hi Hcs. cbn zeta. rewrite (wrap_u_id 32 (i * 4)), (wrap_u_id 32 (_ + 4)), get32_ok by lia. cbn [mbind go_bind].
    replace (LE b.[i * 4, i * 4 + 4]) with (word_at 4 b i) by (unfold word_at; by rewrite Z.mul_comm).
    apply (words_read_step 4 b cs0); done || lia. }
  destruct (wp_no_err_Ret _ _ Hr) as (cs & -> & Hcs). cbn [mbind go_bind mret go_ret].
  eexists. split_and!; [done|cbn; lia|done|..]; cbn; try done.
  - destruct Hcs as [Hl _]. unfold Fat32.ok; cbn. split_and!; done || lia.
  - intros n Hn. eapply (words_read_reserved 4 b (Z.to_nat (Fat32.maxCluster t + 1)) _ cs n Hcs); lia.
  - intros n Hn. erewrite (words_read_fresh 4 b (Z.to_nat (Fat32.maxCluster t + 1)) _ cs n Hcs) by lia.
    specialize (Hw n ltac:(lia)). rewrite (proj2 (Z.leb_le 2 n)) in Hw by lia. done.
Qed.

(** FAT32 on disk: writing a table of 32-bit values and parsing the bytes gives
    a table of the same size with the same values, media word and end-of-chain
    marker. *)
Lemma fat32_roundtrip t : Fat32.ok t -> 0 <= Fat32.fatID t < 2 ^ 32 -> 0 <= Fat32.eocMarker t < 2 ^ 32 -> values_fit t (2 ^ 32) ->
  exists b t', Bytes t = Ret b /\ len b = TableSize t /\ Fat32.tableFromBytes b = Ret t' /\ Fat32.ok t' /\
    MaxCluster t' = MaxCluster t /\ FATID t' = FATID t /\ EOCMarker t' = EOCMarker t /\ TableSize t' = TableSize t /\
    forall n, 2 <= n < MaxCluster t -> ClusterValue t' n = ClusterValue t n.
Proof. intros Hok Hi He Hv. destruct (fat32_reread t Hok Hi He Hv) as (b & t' & ? & ? & ? & ? & ? & ? & ? & ? & _ & ?). by exists b, t'. Qed.

(** The three tables on disk: a table whose values have the width of its entries is
    written to bytes of the table's size; reading them (FAT12 and FAT16 into a fresh table
    of that size, FAT32 from the bytes alone) gives a table
    that satisfies the invariant and in which every cluster has its value, though two
    FAT12 entries share a byte; the media byte, or word, survives, and for FAT32 the
    end-of-chain marker too. *)
Theorem fat_tables_roundtrip :
  (forall t t0, Fat12.ok t -> values_fit t 4096 -> Fat12.newFat12Table 0 (Fat12.size t) = Ret t0 ->
    exists b t', Bytes t = Ret b /\ len b = TableSize t /\ FromBytes t0 b = Ret t' /\ Fat12.ok t' /\
      MaxCluster t' = MaxCluster t /\ FATID t' = Z.lor (FATID t mod 256) 0x0F00 /\
      forall n, 2 <= n < MaxCluster t -> ClusterValue t' n = ClusterValue t n) /\
  (forall t t0, Fat16.ok t -> values_fit t (2 ^ 16) -> Fat16.newFat16Table 0 (Fat16.size t) = Ret t0 ->
    exists b t', Bytes t = Ret b /\ len b = TableSize t /\ FromBytes t0 b = Ret t' /\ Fat16.ok t' /\
      MaxCluster t' = MaxCluster t /\ FATID t' = FATID t mod 2 ^ 16 /\
      forall n, 2 <= n < MaxCluster t -> ClusterValue t' n = ClusterValue t n) /\
  (forall t, Fat32.ok t -> 0 <= Fat32.fatID t < 2 ^ 32 -> 0 <= Fat32.eocMarker t < 2 ^ 32 -> values_fit t (2 ^ 32) ->
    exists b t', Bytes t = Ret b /\ len b = TableSize t /\ Fat32.tableFromBytes b = Ret t' /\ Fat32.ok t' /\
      MaxCluster t' = MaxCluster t /\ FATID t' = FATID t /\ EOCMarker t' = EOCMarker t /\ TableSize t' = TableSize t /\
      forall n, 2 <= n < MaxCluster t -> ClusterValue t' n = ClusterValue t n).
Proof. exact (conj fat12_roundtrip (conj fat16_roundtrip fat32_roundtrip)). Qed.

(** ** The laws *)

(** A loop that writes a buffer keeps its length and stays a buffer of bytes. *)
Definition buffer (n : Z) (b : list Z) : Prop := len b = n /\ bytes_ok b.

Lemma fat12_write_buffer n b i v : buffer n b -> n < 2 ^ 30 -> 0 <= i < 2 ^ 30 ->
  wp (Fat12.fat12WriteEntry b i v) (buffer n) no_err.
Proof.
  intros [Hl Hb] Hn Hi. unfold Fat12.fat12WriteEntry. cbn zeta. destruct (fat12_offset i) as (k & Hk & Ho); [lia|].
  pose proof (len_nonneg b). rewrite (wrap_u_id 32 (i * 3)) by lia. set (o := i * 3 / 2) in *.
  rewrite (wrap_u_id 32 (o + 1)), (wrap_u_id 32 (len b)) by lia. destruct (Z.leb_spec (len b) (o + 1)); [done|].
  pose proof (byte_at_range b o Hb). pose proof (byte_at_range b (o + 1) Hb).
  destruct (i mod 2 =? 0).
  - rewrite store_ok by lia. cbn [mbind go_bind]. rewrite index_byte_at by (rewrite len_insert; lia). cbn [mbind go_bind].
    rewrite store_ok by (rewrite len_insert; lia). cbn. split; [by rewrite !len_insert|].
    assert (bytes_ok (<[Z.to_nat o:=u8 v]> b)) as Hb1 by (apply Forall_insert; [done|apply is_byte_u8]).
    apply Forall_insert; [done|]. apply (lor_range 8); [done|apply (land_range_l 8); [done|by apply byte_at_range]|apply is_byte_u8].
  - rewrite index_byte_at by lia. cbn [mbind go_bind]. rewrite store_ok by lia. cbn [mbind go_bind].
    rewrite store_ok by (rewrite len_insert; lia). cbn. split; [by rewrite !len_insert|].
    repeat apply Forall_insert; try done; [|apply is_byte_u8].
    apply (lor_range 8); [done|by apply (land_range_l 8)|apply is_byte_u8].
Qed.

Lemma replicate_buffer n : 0 <= n -> buffer n (replicate (Z.to_nat n) 0).
Proof. split; [rewrite len_replicate; lia|apply bytes_ok_zeros]. Qed.

Lemma patch_buffer n b o x : buffer n b -> bytes_ok x -> 0 <= o -> o + len x <= n -> buffer n (patch b o x).
Proof. intros [Hl Hb] Hx Ho Hn. split; [rewrite patch_len; lia|by apply patch_bytes]. Qed.

Lemma buffer_loop {A} n (cs : list A) (body : Z -> A -> list Z -> go (list Z)) max k b :
  len cs = max + 1 -> 2 + Z.of_nat k <= max + 1 -> buffer n b ->
  (forall i v b, 2 <= i < 2 + Z.of_nat k -> buffer n b -> wp (body i v b) (buffer n) no_err) ->
  exists b', go_range (fun i b => v ← index cs i; body i v b) 2 k b = Ret b' /\ buffer n b'.
Proof.
  intros Hl Hk Hb Hbody. apply wp_no_err_Ret.
  apply (wp_go_range (fun _ => buffer n)); [done|]. intros i b' Hi Hb'.
  apply wp_bind, wp_index; [lia|]. intros v _. by apply Hbody.
Qed.

#[global] Instance fat12_laws : FATLaws Fat12.fat12Table Fat12.ok.
Proof.
  split; unfold Fat12.ok.
  - intros t. cbn. lia.
  - intros t n (Hl & _) Hn. cbn in *. by apply (clusters_get _ (Fat12.max t)).
  - intros t n v (Hl & Hm & He & Hu & Hs & Hx) Hn. cbn in *.
    destruct (clusters_set (Fat12.clusters t) (Fat12.max t) n v Hl Hn) as [-> Hg]. cbn. eexists. split; [done|].
    unfold Fat12.set_clusters; cbn. rewrite len_insert. split_and!; done || lia.
  - done.
  - intros t (_ & _ & He & _). cbn. by rewrite He.
  - intros t (_ & _ & _ & Hu & _). cbn. by rewrite Hu.
  - intros t (Hl & Hm & _ & _ & Hs & Hx). cbn [Bytes Fat12.fat12_table TableSize]. unfold Fat12.toBytes. cbn zeta.
    rewrite make_ok by (unfold maxAlloc; lia). cbn [mbind go_bind].
    destruct (replicate_buffer (Fat12.size t)) as [Hrl Hrb]; [lia|].
    do 6 (rewrite store_ok by (rewrite ?len_insert; lia); cbn [mbind go_bind]).
    match goal with |- context [go_range _ 2 ?k ?b0] =>
      destruct (buffer_loop (Fat12.size t) (Fat12.clusters t)
        (fun i v b => if negb (v =? 0) then Fat12.fat12WriteEntry b i v else mret b) (Fat12.max t) k b0) as (b' & Hb' & Hbuf) end.
    + done.
    + lia.
    + split; [by rewrite !len_insert|]. repeat apply Forall_insert; try done; try apply is_byte_u8; unfold is_byte; lia.
    + intros i v b Hi Hb. destruct (negb _); [|done]. apply fat12_write_buffer; done || lia.
    + exists b'. split; [exact Hb'|exact Hbuf].
Qed.

#[global] Instance fat16_laws : FATLaws Fat16.fat16Table Fat16.ok.
Proof.
  split; unfold Fat16.ok.
  - intros t. cbn. lia.
  - intros t n (Hl & _) Hn. cbn in *. by apply (clusters_get _ (Fat16.max t)).
  - intros t n v (Hl & Hm & He & Hs & Hx) Hn. cbn in *.
    destruct (clusters_set (Fat16.clusters t) (Fat16.max t) n v Hl Hn) as [-> Hg]. cbn. eexists. split; [done|].
    unfold Fat16.set_clusters; cbn. rewrite len_insert. split_and!; done || lia.
  - done.
  - intros t (_ & _ & He & _). cbn. by rewrite He.
  - done.
  - intros t (Hl & Hm & _ & Hs & Hx). cbn [Bytes Fat16.fat16_table TableSize]. unfold Fat16.toBytes.
    rewrite make_ok by (unfold maxAlloc; lia). cbn [mbind go_bind].
    assert (buffer (Fat16.size t) (replicate (Z.to_nat (Fat16.size t)) 0)) as Hb0 by (apply replicate_buffer; lia).
    rewrite put16_ok by (rewrite ?(proj1 Hb0); lia). cbn [mbind go_bind].
    eapply (patch_buffer _ _ 0 (put_le 2 (u16 (Fat16.fatID t)))) in Hb0; [|apply put_le_bytes|lia|rewrite len_put_le; lia].
    rewrite (put16_ok _ 2) by (rewrite ?(proj1 Hb0); lia). cbn [mbind go_bind].
    eapply (patch_buffer _ _ 2 (put_le 2 (u16 (Fat16.eoc t)))) in Hb0; [|apply put_le_bytes|lia|rewrite len_put_le; lia].
    destruct (buffer_loop (Fat16.size t) (Fat16.clusters t)
      (fun i v b => Fat16.put16 b (u32 (i * 2)) (u32 (u32 (i * 2) + 2)) (u16 v)) (Fat16.max t) (Z.to_nat (Fat16.max t - 2)) _
      Hl ltac:(lia) Hb0) as (b' & Hb' & Hbuf).
    + intros i v b Hi Hb. rewrite (wrap_u_id 32 (i * 2)), (wrap_u_id 32 (i * 2 + 2)), put16_ok by (rewrite ?(proj1 Hb); lia).
      apply patch_buffer; [done|apply put_le_bytes|lia|rewrite len_put_le; lia].
    + exists b'. split; [exact Hb'|exact Hbuf].
Qed.

#[global] Instance fat32_laws : FATLaws Fat32.table Fat32.ok.
Proof.
  split; unfold Fat32.ok.
  - intros t. cbn. lia.
  - intros t n (Hl & _) Hn. cbn in *. by apply (clusters_get _ (Fat32.maxCluster t)).
  - intros t n v (Hl & Hm & He & Hu & Hs & Hx) Hn. cbn in *.
    destruct (clusters_set (Fat32.clusters t) (Fat32.maxCluster t) n v Hl Hn) as [-> Hg]. cbn. eexists. split; [done|].
    unfold Fat32.set_clusters; cbn. rewrite len_insert. split_and!; done || lia.
  - done.
  - intros t (_ & _ & He & _). cbn. split; [done|]. intros E. by rewrite E in He.
  - intros t (_ & _ & _ & Hu & _). cbn. by rewrite Hu.
  - intros t (Hl & Hm & _ & _ & Hs & Hx). cbn [Bytes Fat32.fat32_table TableSize]. unfold Fat32.toBytes.
    rewrite make_ok by (unfold maxAlloc; lia). cbn [mbind go_bind].
    assert (buffer (Fat32.size t) (replicate (Z.to_nat (Fat32.size t)) 0)) as Hb0 by (apply replicate_buffer; lia).
    rewrite put32_ok by (rewrite ?(proj1 Hb0); lia). cbn [mbind go_bind].
    eapply (patch_buffer _ _ 0 (put_le 4 (Fat32.fatID t))) in Hb0; [|apply put_le_bytes|lia|rewrite len_put_le; lia].
    rewrite (put32_ok _ 4) by (rewrite ?(proj1 Hb0); lia). cbn [mbind go_bind].
    eapply (patch_buffer _ _ 4 (put_le 4 (Fat32.eocMarker t))) in Hb0; [|apply put_le_bytes|lia|rewrite len_put_le; lia].
    destruct (buffer_loop (Fat32.size t) (Fat32.clusters t)
      (fun i v b => Fat32.put32 b (u32 (i * 4)) (u32 (u32 (i * 4) + 4)) v) (Fat32.maxCluster t) (Z.to_nat (Fat32.maxCluster t - 2)) _
      Hl ltac:(lia) Hb0) as (b' & Hb' & Hbuf).
    + intros i v b Hi Hb. rewrite (wrap_u_id 32 (i * 4)), (wrap_u_id 32 (i * 4 + 4)), put32_ok by (rewrite ?(proj1 Hb); lia).
      apply patch_buffer; [done|apply put_le_bytes|lia|rewrite len_put_le; lia].
    + exists b'. split; [exact Hb'|exact Hbuf].
Qed.

(** ** Witnesses *)

Definition sample12 : Fat12.fat12Table := Fat12.mkTable 0xFF8 0xFFF 0 [0; 0; 3; 5; 0; 0xFFF; 0xABC] 6 9.
Definition sample16 : Fat16.fat16Table := Fat16.mkTable 0xFFF8 0xFFFF [0; 0; 3; 0xFFFF; 0; 0] 5 10.
Definition sample32 : Fat32.table := Fat32.mkTable 0x0FFFFFF8 0x0FFFFFFF 0 [0; 0; 3; 0x0FFFFFFF; 0; 0] 2 20 5.

Lemma values_fit_by {T} `{FATTable T} (t : T) bound : 2 <= MaxCluster t ->
  forallb (fun n => match ClusterValue t n with Ret v => (0 <=? v) && (v <? bound) | _ => false end)
    (seqZ 2 (MaxCluster t - 2)) = true -> values_fit t bound.
Proof.
  intros Hm Hf n Hn. rewrite forallb_forall in Hf.
  specialize (Hf n ltac:(apply list_elem_of_In, elem_of_seqZ; lia)).
  destruct (ClusterValue t n) as [v| | |]; try done. exists v. split; [done|].
  apply andb_true_iff in Hf as [?%Z.leb_le ?%Z.ltb_lt]. done.
Defined.

Lemma fat_tables_roundtrip_witness :
  (exists b t', Bytes sample12 = Ret b /\ FromBytes (Fat12.mkTable 0 0xFFF 0 (replicate 7 0) 6 9) b = Ret t' /\ ClusterValue t' 5 = Ret 0xFFF) /\
  (exists b t', Bytes sample16 = Ret b /\ FromBytes (Fat16.mkTable 0 0xFFFF (replicate 6 0) 5 10) b = Ret t' /\ ClusterValue t' 2 = Ret 3) /\
  (exists b t', Bytes sample32 = Ret b /\ Fat32.tableFromBytes b = Ret t' /\ ClusterValue t' 3 = Ret 0x0FFFFFFF).
Proof.
  destruct fat_tables_roundtrip as (H12 & H16 & H32). split; [|split].
  - destruct (H12 sample12 (Fat12.mkTable 0 0xFFF 0 (replicate 7 0) 6 9)) as (b & t' & Hb & _ & Ht & _ & _ & _ & Hn);
      [unfold Fat12.ok; cbn; split_and!; done || lia|apply values_fit_by; [cbn; lia|reflexivity]|reflexivity|].
    exists b, t'. split_and!; [done|done|]. rewrite Hn by (cbn; lia). reflexivity.
  - destruct (H16 sample16 (Fat16.mkTable 0 0xFFFF (replicate 6 0) 5 10)) as (b & t' & Hb & _ & Ht & _ & _ & _ & Hn);
      [unfold Fat16.ok; cbn; split_and!; done || lia|apply values_fit_by; [cbn; lia|reflexivity]|reflexivity|].
    exists b, t'. split_and!; [done|done|]. rewrite Hn by (cbn; lia). reflexivity.
  - destruct (H32 sample32) as (b & t' & Hb & _ & Ht & _ & _ & _ & _ & _ & Hn);
      [unfold Fat32.ok; cbn; split_and!; done || lia|cbn; lia|cbn; lia|apply values_fit_by; [cbn; lia|reflexivity]|].
    exists b, t'. split_and!; [done|done|]. rewrite Hn by (cbn; lia). reflexivity.
Defined.
