(* ===== verification/Storage.v ===== *)
(** * Storage: diskkit/backend
    The storage interface the file systems write through, as a class; what a
    device promises for reads and writes inside it, as a class of laws; and
    [SubStorage], the window onto one partition, as an instance. *)
From S2P Require Import Prelude Bytes ReaderAt.

(** [backend.Storage] and the [WritableFile] its [Writable] returns: an operation
    that changes the storage returns the storage afterwards. *)
Class Storage (D : Type) := {
  ReadAt : D -> reader;
  Writable : D -> option error;
  WriteAt : D -> list Z -> Z -> go (D * (Z * option error));
  Seek : D -> Z -> Z -> D * (Z * option error)
}.

Definition SeekStart : Z := 0.
Definition SeekCurrent : Z := 1.
Definition SeekEnd : Z := 2.
Definition ErrNotSuitable : error := Errorf "backing file is not suitable".

(** The content of a device after a write. *)
Definition overwrite (c : Z -> Z) (off : Z) (p : list Z) (i : Z) : Z :=
  if (off <=? i) && (i <? off + len p) then byte_at p (i - off) else c i.

(** A device that can be written, of [size] bytes and content [c]. *)
Class WritableDevice (D : Type) `{Storage D} (repr : D -> Z -> (Z -> Z) -> Prop) := {
  wd_size d size c : repr d size c -> 0 <= size < 2 ^ 63;
  wd_bytes d size c i : repr d size c -> 0 <= i < size -> is_byte (c i);
  wd_writable d size c : repr d size c -> Writable d = None;
  wd_read d size c p off : repr d size c -> 0 <= off -> off + len p <= size ->
    ReadAt d p off = Ret (mkR (span c off (len p)) (len p) None);
  wd_write d size c p off : repr d size c -> bytes_ok p -> 0 <= off -> off + len p <= size ->
    exists d', WriteAt d p off = Ret (d', (len p, None)) /\ repr d' size (overwrite c off p)
}.

(** ** SubStorage *)

Record SubStorage (U : Type) := mkSub { underlying : U; offset : Z; sub_size : Z }.
Arguments mkSub {U}.
Arguments underlying {U}.
Arguments offset {U}.
Arguments sub_size {U}.

Definition Sub {U} (u : U) (offset size : Z) : SubStorage U := mkSub u offset size.

Section sub.
Context {U : Type} `{Storage U}.

Definition sub_ReadAt (s : SubStorage U) : reader := fun p off => ReadAt (underlying s) p (i64 (offset s + off)).

Definition sub_WriteAt (s : SubStorage U) (p : list Z) (off : Z) : go (SubStorage U * (Z * option error)) :=
  '(u, r) ← WriteAt (underlying s) p (i64 (offset s + off));
  mret (mkSub u (offset s) (sub_size s), r).

Definition sub_Seek (s : SubStorage U) (off whence : Z) : SubStorage U * (Z * option error) :=
  let go_on (r : U * (Z * option error)) :=
    let '(u, (pos, err)) := r in
    (mkSub u (offset s) (sub_size s),
     match err with Some e => (-1, Some e) | None => (i64 (pos - offset s), None) end) in
  if whence =? SeekStart then go_on (Seek (underlying s) (i64 (off + offset s)) SeekStart)
  else if whence =? SeekCurrent then go_on (Seek (underlying s) off SeekCurrent)
  else if whence =? SeekEnd then go_on (Seek (underlying s) (i64 (offset s + sub_size s + off)) SeekStart)
  else (s, (-1, Some ErrNotSuitable)).

#[global] Instance sub_storage : Storage (SubStorage U) := {
  ReadAt := sub_ReadAt;
  Writable s := Writable (underlying s);
  WriteAt := sub_WriteAt;
  Seek := sub_Seek
}.
End sub.

(** ** A file in memory
    A concrete storage, which instantiates the interface: [os.File] opened for
    reading and writing, where a write past the end extends the file. *)

Record memory := mkMemory { data : list Z; readOnly : bool; position : Z }.

Definition memory_WriteAt (m : memory) (p : list Z) (off : Z) : go (memory * (Z * option error)) :=
  if off <? 0 then Ret (m, (0, Some (Errorf "negative offset")))
  else
    let padded := data m ++ replicate (Z.to_nat (off + len p - len (data m))) 0 in
    Ret (mkMemory (patch padded off p) (readOnly m) (position m), (len p, None)).

Definition memory_Seek (m : memory) (off whence : Z) : memory * (Z * option error) :=
  let target := if whence =? SeekStart then off
                else if whence =? SeekCurrent then position m + off else len (data m) + off in
  if target <? 0 then (m, (0, Some (Errorf "invalid argument")))
  else (mkMemory (data m) (readOnly m) target, (target, None)).

#[global] Instance memory_storage : Storage memory := {
  ReadAt m := file_reader (data m);
  Writable m := if readOnly m then Some (Errorf "disk file or device not open for write") else None;
  WriteAt := memory_WriteAt;
  Seek := memory_Seek
}.

Definition memory_is (m : memory) (size : Z) (c : Z -> Z) : Prop :=
  readOnly m = false /\ len (data m) = size /\ size < 2 ^ 63 /\ bytes_ok (data m) /\
  forall i, 0 <= i < size -> c i = byte_at (data m) i.

(** ** Lemmas *)

(** What a write leaves elsewhere and what it leaves in its place. *)
Lemma overwrite_out c off p i : ~ (off <= i < off + len p) -> overwrite c off p i = c i.
Proof. intros Hi. unfold overwrite. by replace ((_ <=? _) && (_ <? _)) with false by (symmetry; apply andb_false_iff; rewrite Z.leb_gt, Z.ltb_ge; lia). Qed.

Lemma overwrite_span c off p : span (overwrite c off p) off (len p) = p.
Proof.
  symmetry. apply span_ext; [done|]. intros i Hi. destruct (index_ok p i Hi) as (x & Hx & _). rewrite Hx. f_equal.
  unfold overwrite. rewrite (proj2 (Z.leb_le _ _)), (proj2 (Z.ltb_lt _ _)) by lia. cbn [andb]. unfold byte_at.
  replace (off + i - off) with i by lia. by rewrite Hx.
Qed.

Lemma span_same c d off n : (forall i, off <= i < off + n -> c i = d i) -> span c off n = span d off n.
Proof. intros H. apply span_congr. intros i Hi. apply H. lia. Qed.

Lemma file_reader_full b p off : bytes_ok b -> 0 <= off -> off + len p <= len b ->
  file_reader b p off = Ret (mkR (span (file_content b) off (len p)) (len p) None).
Proof.
  intros Hb Ho Hl. pose proof (len_nonneg p). unfold file_reader. destruct_if; [lia|]. cbn zeta.
  rewrite len_sub by lia. replace (off + len p - off) with (len p) by lia. rewrite sub_span by lia.
  unfold from. rewrite drop_ge by (unfold len; lia). rewrite app_nil_r.
  by rewrite Z.ltb_irrefl.
Qed.

#[global] Instance memory_device : WritableDevice memory memory_is.
Proof.
  split.
  - intros m size c (_ & <- & ? & _). split; [apply len_nonneg|done].
  - intros m size c i (_ & <- & _ & Hb & Hc) Hi. rewrite Hc by done. by apply byte_at_range.
  - intros m size c (Hr & _). cbn. by rewrite Hr.
  - intros m size c p off (_ & <- & _ & Hb & Hc) Ho Hl. cbn. rewrite file_reader_full by done.
    do 2 f_equal. apply span_congr. intros i Hi. rewrite Hc by lia. done.
  - intros m size c p off (Hr & <- & Hs & Hb & Hc) Hp Ho Hl. cbn. unfold memory_WriteAt. destruct_if; [lia|]. cbn zeta.
    replace (Z.to_nat _) with 0%nat by lia. cbn [replicate]. rewrite app_nil_r. eexists. split; [done|].
    unfold memory_is; cbn [readOnly data]. rewrite patch_len by done. split_and!; try done; [by apply patch_bytes|].
    intros i Hi. rewrite byte_at_patch by lia. unfold overwrite. destruct (_ && _); [done|by apply Hc].
Qed.

(** A window of [sub_size] bytes inside the device below. *)
Definition sub_is {U} `{Storage U} (repr : U -> Z -> (Z -> Z) -> Prop) (s : SubStorage U) (size : Z) (c : Z -> Z) : Prop :=
  exists usize uc, repr (underlying s) usize uc /\ 0 <= offset s /\ 0 <= size /\ sub_size s = size /\
    offset s + size <= usize /\ forall i, 0 <= i < size -> c i = uc (offset s + i).

(** The interface's client works on a partition as on a device: a window inside a
    device keeps the laws of one. *)
#[global] Instance sub_device {U} `{Hs : Storage U} repr `{Hw : !WritableDevice U repr} : WritableDevice (SubStorage U) (sub_is repr).
Proof.
  split.
  - intros s size c (usize & uc & Hu & ? & ? & ? & ? & _). apply wd_size in Hu. lia.
  - intros s size c i (usize & uc & Hu & ? & ? & ? & ? & Hc) Hi. rewrite Hc by done. apply (wd_bytes _ _ _ _ Hu). lia.
  - intros s size c (usize & uc & Hu & _). cbn. by apply wd_writable in Hu.
  - intros s size c p off (usize & uc & Hu & ? & ? & ? & ? & Hc) Ho Hl. cbn. unfold sub_ReadAt.
    pose proof (wd_size _ _ _ Hu). pose proof (len_nonneg p). rewrite i64_id by lia. rewrite (wd_read _ _ _ _ _ Hu) by lia.
    do 2 f_equal. apply span_congr. intros i Hi. rewrite Hc by lia. f_equal. lia.
  - intros s size c p off (usize & uc & Hu & ? & ? & ? & ? & Hc) Hp Ho Hl. cbn. unfold sub_WriteAt.
    pose proof (wd_size _ _ _ Hu). pose proof (len_nonneg p). rewrite i64_id by lia.
    destruct (wd_write _ _ _ p (offset s + off) Hu) as (u & Hwr & Hu'); [done|lia..|]. rewrite Hwr. cbn.
    eexists. split; [done|]. exists usize. eexists. split; [exact Hu'|]. cbn [offset sub_size underlying].
    split_and!; try done. intros i Hi. unfold overwrite. rewrite Hc by done.
    replace ((off <=? i) && (i <? off + len p)) with ((offset s + off <=? offset s + i) && (offset s + i <? offset s + off + len p)) by lia.
    destruct (_ && _); [f_equal; lia|done].
Qed.

(** A partition's storage is its window of the disk: reads and writes inside it
    act on the disk's bytes at the partition's offset and leave every byte before
    and after the partition alone. *)
Theorem sub_window {U} `{Storage U} repr `{!WritableDevice U repr} (s : SubStorage U) usize uc p off :
  repr (underlying s) usize uc -> 0 <= offset s -> offset s + sub_size s <= usize -> bytes_ok p ->
  0 <= off -> 0 < len p -> off + len p <= sub_size s ->
  ReadAt s p off = Ret (mkR (span uc (offset s + off) (len p)) (len p) None) /\
  exists s', WriteAt s p off = Ret (s', (len p, None)) /\ offset s' = offset s /\ sub_size s' = sub_size s /\
    exists uc', repr (underlying s') usize uc' /\
      (forall i, i < offset s \/ offset s + sub_size s <= i -> uc' i = uc i) /\
      forall q o, 0 <= o -> 0 < len q -> o + len q <= sub_size s ->
        ReadAt s' q o = Ret (mkR (span (overwrite (fun i => uc (offset s + i)) off p) o (len q)) (len q) None).
Proof.
  intros Hu Ho Hsz Hp Hoff Hlen Hl. pose proof (wd_size _ _ _ Hu).
  assert (sub_is repr s (sub_size s) (fun i => uc (offset s + i))) as Hs.
  { exists usize, uc. split_and!; done || lia. }
  split.
  - rewrite (wd_read _ _ _ p off Hs) by done. do 2 f_equal. apply span_congr. intros. f_equal. lia.
  - cbn. unfold sub_WriteAt. rewrite i64_id by lia.
    destruct (wd_write _ _ _ p (offset s + off) Hu) as (u & Hw & Hu'); [done|lia..|]. rewrite Hw. cbn.
    eexists. split; [done|]. cbn [offset sub_size underlying]. split_and!; [done|done|].
    eexists. split; [exact Hu'|]. split.
    + intros i Hi. unfold overwrite. destruct (Z.leb_spec (offset s + off) i), (Z.ltb_spec i (offset s + off + len p)); cbn; done || lia.
    + intros q o Ho' Hq Hlq. unfold sub_ReadAt; cbn. rewrite i64_id by lia. rewrite (wd_read _ _ _ _ _ Hu') by lia.
      do 2 f_equal. apply span_congr. intros i Hi. unfold overwrite.
      replace ((off <=? o + i) && (o + i <? off + len p)) with ((offset s + off <=? offset s + o + i) && (offset s + o + i <? offset s + off + len p)) by lia.
      destruct (_ && _); f_equal; lia.
Qed.

(** The window has no fence: [SubStorage] never looks at its size, so a write at
    an offset past the end of the partition succeeds and changes the bytes of the
    disk that follow it. *)
Theorem sub_write_escapes {U} `{Storage U} repr `{!WritableDevice U repr} (s : SubStorage U) usize uc p off :
  repr (underlying s) usize uc -> 0 <= offset s -> bytes_ok p -> 0 < len p ->
  0 <= sub_size s <= off -> offset s + off + len p <= usize ->
  exists s' uc', WriteAt s p off = Ret (s', (len p, None)) /\ repr (underlying s') usize uc' /\
    uc' (offset s + off) = byte_at p 0 /\ offset s + sub_size s <= offset s + off.
Proof.
  intros Hu Ho Hp Hlen Hoff Hl. pose proof (wd_size _ _ _ Hu). cbn. unfold sub_WriteAt. rewrite i64_id by lia.
  destruct (wd_write _ _ _ p (offset s + off) Hu) as (u & Hw & Hu'); [done|lia..|]. rewrite Hw. cbn.
  eexists _, _. split_and!; [done|exact Hu'| |lia]. unfold overwrite.
  rewrite (proj2 (Z.leb_le _ _)), (proj2 (Z.ltb_lt _ _)) by lia. cbn. f_equal. lia.
Qed.

(** ** Witnesses *)

Definition sample_disk : memory := mkMemory [1; 2; 3; 4; 5; 6; 7; 8] false 0.

Lemma st_sample_is : memory_is sample_disk 8 (file_content (data sample_disk)).
Proof. unfold memory_is. split_and!; try reflexivity. apply bytes_okb_ok. reflexivity. Defined.

Lemma sub_window_witness : exists s', WriteAt (Sub sample_disk 2 4) [9; 9] 1 = Ret (s', (2, None)) /\
  data (underlying s') = [1; 2; 3; 9; 9; 6; 7; 8].
Proof.
  destruct (sub_window memory_is (Sub sample_disk 2 4) 8 (file_content (data sample_disk)) [9; 9] 1) as [_ (s' & Hw & _)];
    [apply st_sample_is|cbv; congruence|cbv; congruence|apply bytes_okb_ok; reflexivity|cbv; congruence|reflexivity|cbv; congruence|].
  exists s'. split; [exact Hw|].
  change (WriteAt (Sub sample_disk 2 4) [9; 9] 1) with
    (Ret (mkSub (mkMemory [1; 2; 3; 9; 9; 6; 7; 8] false 0) 2 4, (2, @None error))) in Hw. by injection Hw as <-.
Defined.

Lemma sub_write_escapes_witness : exists s' uc', WriteAt (Sub sample_disk 2 4) [9] 4 = Ret (s', (1, None)) /\
  memory_is (underlying s') 8 uc' /\ uc' 6 = 9.
Proof.
  destruct (sub_write_escapes memory_is (Sub sample_disk 2 4) 8 (file_content (data sample_disk)) [9] 4) as (s' & uc' & Hw & Hi & Hb & _);
    [apply st_sample_is|cbv; congruence|apply bytes_okb_ok; reflexivity|reflexivity|cbv; split; congruence|cbv; congruence|].
  exists s', uc'. split_and!; [exact Hw|exact Hi|exact Hb].
Defined.
