(* ===== verification/FatChain.v ===== *)
(** * FatChain: the cluster chains of diskkit/filesystem/fat12/fat12.go
    [getClusterList], [allocateSpace] and the FAT writers, over any table that
    satisfies the [FATTable] interface and any storage: FAT12, FAT16 and FAT32 all
    run this code. *)
From S2P Require Import Prelude Bytes ReaderAt Text FatBoot FatTable Storage.

Section chains.
Context {T D : Type} `{FATTable T} `{Storage D}.

(** [bootSector] is [None] when [NewFileSystem] was given no BPB (FAT32). The two hooks
    are what FAT32 installs: its own boot sector writer, and the flush of its
    information sector after every change of the table. *)
Record FileSystem := mkFS {
  bootSector : option Boot12.msDosBootSector;
  table : T;
  dataStart : Z;
  bytesPerCluster : Z;
  size : Z;
  start : Z;
  backend : D;
  rootDirOffset : Z;
  rootDirMaxEntries : Z;
  fatPrimaryStart : Z;
  fatSecondaryStart : Z;
  WriteBootSectorFn : option (D -> go (D * option error));
  AfterWriteFAT : option (D -> go (D * option error))
}.

Definition with_table (fs : FileSystem) (t : T) : FileSystem :=
  mkFS (bootSector fs) t (dataStart fs) (bytesPerCluster fs) (size fs) (start fs) (backend fs) (rootDirOffset fs)
       (rootDirMaxEntries fs) (fatPrimaryStart fs) (fatSecondaryStart fs) (WriteBootSectorFn fs) (AfterWriteFAT fs).
Definition with_backend (fs : FileSystem) (d : D) : FileSystem :=
  mkFS (bootSector fs) (table fs) (dataStart fs) (bytesPerCluster fs) (size fs) (start fs) d (rootDirOffset fs)
       (rootDirMaxEntries fs) (fatPrimaryStart fs) (fatSecondaryStart fs) (WriteBootSectorFn fs) (AfterWriteFAT fs).

(** Operations that change the file system and may fail return it with the error. *)
Definition defaultWriteFAT (fs : FileSystem) : go (FileSystem * option error) :=
  fatBytes ← Bytes (table fs);
  match Writable (backend fs) with
  | Some e => mret (fs, Some e)
  | None =>
      '(d, (_, err)) ← WriteAt (backend fs) fatBytes (i64 (i64 (fatPrimaryStart fs) + start fs));
      let fs := with_backend fs d in
      match err with
      | Some e => mret (fs, Some (Wrapf "unable to write primary FAT: %w" e))
      | None =>
          '(d, (_, err)) ← WriteAt (backend fs) fatBytes (i64 (i64 (fatSecondaryStart fs) + start fs));
          let fs := with_backend fs d in
          match err with
          | Some e => mret (fs, Some (Wrapf "unable to write secondary FAT: %w" e))
          | None => mret (fs, None)
          end
      end
  end.

Definition WriteFat (fs : FileSystem) : go (FileSystem * option error) :=
  '(fs, err) ← defaultWriteFAT fs;
  match err with
  | Some e => mret (fs, Some e)
  | None =>
      match AfterWriteFAT fs with
      | Some hook => '(d, err) ← hook (backend fs); mret (with_backend fs d, err)
      | None => mret (fs, None)
      end
  end.

(** One round of [getClusterList]'s loop: the list so far and the current cluster. *)
Definition next_cluster (t : T) (s : list Z * Z) : go ((list Z * Z) + list Z) :=
  let '(clusterList, cluster) := s in
  let clusterList := clusterList ++ [cluster] in
  next ← ClusterValue t cluster;
  if IsEOC t next then mret (inr clusterList)
  else if MaxCluster t <? next then Err (Errorf "invalid cluster chain at %d")
  else if cluster <? 2 then Err (Errorf "invalid cluster chain at %d")
  else mret (inl (clusterList, next)).

(** The loop has no bound of its own: [fuel] is the number of rounds the model
    follows it for. *)
Definition getClusterList (fuel : nat) (fs : FileSystem) (firstCluster : Z) : go (list Z) :=
  let t := table fs in
  invalid ← (if MaxCluster t <? firstCluster then mret true
             else v ← ClusterValue t firstCluster; mret (v =? 0));
  if invalid : bool then Err (Errorf "invalid start cluster: %d")
  else go_for fuel (next_cluster t) ([], firstCluster).

(** The search for free clusters. *)
Definition find_free (t : T) (extraCount : Z) : go (list Z) :=
  go_for (S (Z.to_nat (MaxCluster t))) (fun '(i, allocated) =>
    if (i <? MaxCluster t) && (len allocated <? extraCount) then
      v ← ClusterValue t i;
      mret (inl (u32 (i + 1), if v =? 0 then allocated ++ [i] else allocated))
    else mret (inr allocated)) (2, []).

(** [for i := 0; i < lastAlloc; i++ { SetCluster(allocated[i], allocated[i+1]) }] and
    the end-of-chain marker after it. *)
Fixpoint link (t : T) (allocated : list Z) : go T :=
  match allocated with
  | [] => mret t
  | [c] => SetCluster t c (EOCMarker t)
  | c :: (n :: _) as rest => t ← SetCluster t c n; link t rest
  end.

(** The clusters given back, with the check of each. *)
Fixpoint release (t : T) (deallocated : list Z) : go (T * option error) :=
  match deallocated with
  | [] => mret (t, None)
  | cl :: rest =>
      if MaxCluster t <? cl then mret (t, Some (Errorf "invalid cluster chain at %d"))
      else t ← SetCluster t cl (UnusedMarker t); release t rest
  end.

Definition finish_allocation (fs : FileSystem) (result : list Z) : go (FileSystem * (list Z + error)) :=
  '(fs, err) ← WriteFat fs;
  match err with
  | Some e => mret (fs, inr (Wrapf "failed to write FAT: %w" e))
  | None => mret (fs, inl result)
  end.

(** The chain that is there: its clusters and, to link new ones to, its last one. *)
Definition existing_chain (fuel : nat) (fs : FileSystem) (previous : Z) : go (list Z * Z) :=
  if 2 <=? previous then
    r ← catch (getClusterList fuel fs previous);
    match r with
    | inr e => Err (Wrapf "unable to get cluster list: %w" e)
    | inl clusters => last ← index clusters (len clusters - 1); mret (clusters, last)
    end
  else mret ([], previous).

Definition allocateSpace (fuel : nat) (fs : FileSystem) (size previous : Z) : go (FileSystem * (list Z + error)) :=
  if MaxCluster (table fs) <? previous then mret (fs, inr (Errorf "invalid cluster chain at %d"))
  else if u64 (bytesPerCluster fs) =? 0 then Panic DivideByZero
  else
    let count := i64 (size / u64 (bytesPerCluster fs)) in
    let count := if 0 <? size mod u64 (bytesPerCluster fs) then i64 (count + 1) else count in
    r ← catch (existing_chain fuel fs previous);
    match r with
    | inr e => mret (fs, inr e)
    | inl (clusters, previous) =>
        let extraCount := i64 (count - len clusters) in
        let maxCluster := MaxCluster (table fs) in
        if extraCount =? 0 then mret (fs, inl clusters)
        else if 0 <? extraCount then
          allocated ← find_free (table fs) extraCount;
          if len allocated <? extraCount then mret (fs, inr (Errorf "no space left on device"))
          else
            t ← (if 0 <? previous
                 then first ← index allocated 0; SetCluster (table fs) previous first
                 else mret (table fs));
            t ← link t allocated;
            finish_allocation (with_table fs t) (clusters ++ allocated)
        else
          let toRemove := i64 (- extraCount) in
          let lastAlloc := i64 (i64 (len clusters - toRemove) - 1) in
          let lastAlloc := if lastAlloc <? 0 then 0 else lastAlloc in
          deallocated ← slice clusters (i64 (lastAlloc + 1)) (len clusters);
          last ← index clusters lastAlloc;
          if (maxCluster <? u32 lastAlloc) || (maxCluster <? last)
          then mret (fs, inr (Errorf "invalid cluster chain at %d"))
          else
            t ← SetCluster (table fs) last (EOCMarker (table fs));
            '(t, err) ← release t deallocated;
            match err with
            | Some e => mret (with_table fs t, inr e)
            | None => finish_allocation (with_table fs t) clusters
            end
    end.
End chains.
Arguments FileSystem : clear implicits.

(** ** Chains *)

Section chain_spec.
Context {T D : Type} `{Htab : FATTable T} `{Hst : Storage D}.

(** [x] is followed by [y] in its chain. *)
Definition follows (t : T) (x y : Z) : Prop :=
  ClusterValue t x = Ret y /\ IsEOC t y = false /\ y <= MaxCluster t /\ 2 <= x.

(** A whole chain: each cluster holds the next, the last an end-of-chain marker. *)
Inductive chain (t : T) : list Z -> Prop :=
  | chain_end c v : ClusterValue t c = Ret v -> IsEOC t v = true -> chain t [c]
  | chain_next c n l : follows t c n -> chain t (n :: l) -> chain t (c :: n :: l).

Definition free (t : T) (i : Z) : bool :=
  match ClusterValue t i with Ret v => v =? 0 | _ => false end.
Definition free_clusters (t : T) : list Z := filter (fun i => free t i) (seqZ 2 (MaxCluster t - 2)).

Context {ok : T -> Prop} {Hlaws : FATLaws T ok}.

Lemma chain_det t l : chain t l -> forall l', chain t l' -> head l' = head l -> l' = l.
Proof.
  induction 1 as [c v Hc Hv|c n l (Hc & Hn & _ & _) Hl IH]; intros l' Hl' Hh.
  - destruct Hl' as [c' v' Hc' _|c' n' l'' (Hc' & Hn' & _) _]; injection Hh as ->; [done|].
    assert (v = n') as -> by congruence. congruence.
  - destruct Hl' as [c' v' Hc' Hv'|c' n' l'' (Hc' & _) Hl'']; injection Hh as ->.
    + assert (n = v') as -> by congruence. congruence.
    + assert (n = n') as -> by congruence. f_equal. by apply IH.
Qed.

Lemma chain_inv t c l : chain t (c :: l) -> l <> [] -> exists n l', l = n :: l' /\ follows t c n /\ chain t l.
Proof. inversion 1; subst; [done|]. eauto. Qed.

Lemma app_cons_ne {A} (l1 : list A) x l2 : l1 ++ x :: l2 <> [].
Proof. by destruct l1. Qed.

Lemma chain_suffix t l1 c l2 : chain t (l1 ++ c :: l2) -> chain t (c :: l2).
Proof.
  induction l1 as [|x l1 IH]; [done|]. intros Hl. apply IH.
  by destruct (chain_inv _ _ _ Hl (app_cons_ne _ _ _)) as (_ & _ & _ & _ & ?).
Qed.

Lemma chain_NoDup t l : chain t l -> NoDup l.
Proof.
  intros Hl. induction Hl as [c v|c n l Hf Hl IH]; [apply NoDup_singleton|]. constructor; [|done].
  intros Hin. apply list_elem_of_split in Hin as (l1 & l2 & E). rewrite E in *.
  assert (chain t (c :: l2)) as Hs by (by eapply chain_suffix).
  assert (chain t (c :: l1 ++ c :: l2)) as Hw by (rewrite <-E in *; by constructor).
  pose proof (chain_det t _ Hw _ Hs eq_refl) as Heq. apply (f_equal length) in Heq.
  cbn in Heq. rewrite length_app in Heq. cbn in Heq. lia.
Qed.

Lemma chain_tail_range t c l : chain t (c :: l) -> Forall (fun x => x <= MaxCluster t) l.
Proof.
  remember (c :: l) as k eqn:E. intros Hl. revert c l E.
  induction Hl as [c v|c n l (_ & _ & Hn & _) Hl IH]; intros c' l' [= -> <-]; constructor; [done|]. by eapply IH.
Qed.

(** Entries 0 and 1 are no clusters: in memory they are zero. *)
Definition reserved (t : T) : Prop := ClusterValue t 0 = Ret 0 /\ ClusterValue t 1 = Ret 0.

Lemma chain_used t l x : ok t -> reserved t -> chain t l -> x ∈ l -> free t x = false.
Proof.
  intros Hok [H0 _] Hl. destruct (fat_unused t Hok) as [_ Hz].
  induction Hl as [c v Hc Hv|c n l (Hc & Hn & _ & H2) Hl IH]; intros Hx.
  - apply list_elem_of_singleton in Hx as ->. unfold free. rewrite Hc.
    destruct (Z.eqb_spec v 0); [subst; congruence|done].
  - apply elem_of_cons in Hx as [->|Hx]; [|auto]. unfold free. rewrite Hc.
    destruct (Z.eqb_spec n 0) as [->|]; [|done]. exfalso.
    inversion Hl as [? v Hv Hv' |? n' ? (_ & _ & _ & ?)]; subst; [|lia].
    rewrite H0 in Hv. congruence.
Qed.

Lemma chain_members t l : ok t -> reserved t -> chain t l -> Forall (fun x => 0 <= x) l ->
  forall x, x ∈ l -> 2 <= x.
Proof.
  intros Hok H0 Hl Hpos x Hx. rewrite Forall_forall in Hpos. specialize (Hpos x Hx).
  destruct (Z.leb_spec 2 x); [done|exfalso]. destruct H0 as [Z0 Z1].
  pose proof (chain_used t l x Hok (conj Z0 Z1) Hl Hx) as Hf. unfold free in Hf.
  assert (x = 0 \/ x = 1) as [->| ->] by lia; [by rewrite Z0 in Hf|by rewrite Z1 in Hf].
Qed.

(** A table that agrees on a chain's clusters has the chain. *)
Lemma chain_frame t t' l : MaxCluster t' = MaxCluster t ->
  (forall m, m ∈ l -> ClusterValue t' m = ClusterValue t m) -> chain t l -> chain t' l.
Proof.
  intros Hm Hv Hl. induction Hl as [c v Hc Hc'|c n l (Hc & Hn & Hle & H2) Hl IH].
  - econstructor; [rewrite Hv by set_solver; done|]. by rewrite (fat_eoc t' t).
  - constructor; [|apply IH; set_solver]. split_and!; [rewrite Hv by set_solver; done| |lia|done].
    by rewrite (fat_eoc t' t).
Qed.

(** Extending a chain by linking its last cluster to another. *)
Lemma chain_extend t t' l x n l2 : MaxCluster t' = MaxCluster t ->
  (forall m, m ∈ l -> ClusterValue t' m = ClusterValue t m) -> chain t (l ++ [x]) ->
  follows t' x n -> chain t' (n :: l2) -> chain t' (l ++ x :: n :: l2).
Proof.
  intros Hm Hv Hl Hf Hl2. induction l as [|c l IH]; [by constructor|].
  destruct (chain_inv _ _ _ Hl (app_cons_ne _ _ _)) as (y & k & E & (Hc & Hn & Hle & H2) & Hr).
  assert (exists k', l ++ x :: n :: l2 = y :: k') as (k' & E') by (destruct l; cbn in *; simplify_eq; eauto).
  assert (chain t' (l ++ x :: n :: l2)) as Hrest by (apply IH; [set_solver|done]).
  cbn. rewrite E' in *. constructor; [|done]. split_and!; [rewrite Hv by set_solver; done| |lia|done].
  by rewrite (fat_eoc t' t).
Qed.

(** Cutting a chain after one of its clusters. *)
Lemma chain_cut t t' l x l2 v : MaxCluster t' = MaxCluster t ->
  (forall m, m ∈ l -> ClusterValue t' m = ClusterValue t m) -> chain t (l ++ x :: l2) ->
  ClusterValue t' x = Ret v -> IsEOC t' v = true -> chain t' (l ++ [x]).
Proof.
  intros Hm Hv Hl Hx He. induction l as [|c l IH]; [by econstructor|].
  destruct (chain_inv _ _ _ Hl (app_cons_ne _ _ _)) as (y & k & E & (Hc & Hn & Hle & H2) & Hr).
  assert (exists k', l ++ [x] = y :: k') as (k' & E') by (destruct l; cbn in *; simplify_eq; eauto).
  assert (chain t' (l ++ [x])) as Hrest by (apply IH; [set_solver|done]).
  cbn. rewrite E' in *. constructor; [|done]. split_and!; [rewrite Hv by set_solver; done| |lia|done].
  by rewrite (fat_eoc t' t).
Qed.

(** ** [getClusterList] *)

Lemma next_cluster_follows t acc c n : follows t c n ->
  next_cluster t (acc, c) = Ret (inl (acc ++ [c], n)).
Proof.
  intros (Hc & Hn & Hle & H2). unfold next_cluster. rewrite Hc. cbn [mbind go_bind].
  by rewrite Hn, (proj2 (Z.ltb_ge _ _)), (proj2 (Z.ltb_ge _ _)) by lia.
Qed.

Lemma next_cluster_chain t fuel : forall c l acc, chain t (c :: l) -> (length (c :: l) <= fuel)%nat ->
  go_for fuel (next_cluster t) (acc, c) = Ret (acc ++ c :: l).
Proof.
  induction fuel as [|fuel IH]; intros c l acc Hl Hf; [cbn in Hf; lia|]. cbn [go_for].
  inversion Hl as [c' v Hc Hv|c' n l' Hf' Hl']; subst.
  - unfold next_cluster. rewrite Hc. cbn [mbind go_bind]. by rewrite Hv.
  - rewrite (next_cluster_follows _ _ _ n) by done. cbn [mbind go_bind].
    rewrite (IH n l') by (done || cbn in *; lia). by rewrite <-(assoc app).
Qed.

Lemma chain_length t c l : ok t -> 0 <= c <= MaxCluster t -> chain t (c :: l) ->
  Forall (fun x => 0 <= x) l -> (length (c :: l) <= Z.to_nat (MaxCluster t) + 1)%nat.
Proof.
  intros Hok Hc Hl Hpos. pose proof (fat_max t Hok).
  assert (c :: l ⊆+ seqZ 0 (MaxCluster t + 1)) as Hsub.
  { apply NoDup_submseteq; [by apply (chain_NoDup t)|]. intros x Hx. apply elem_of_seqZ.
    apply elem_of_cons in Hx as [->|Hx]; [lia|].
    pose proof (chain_tail_range t c l Hl) as Hr. rewrite Forall_forall in Hr, Hpos. specialize (Hr x Hx). specialize (Hpos x Hx). lia. }
  apply submseteq_length in Hsub. rewrite length_seqZ in Hsub. lia.
Qed.

(** A cluster whose chain comes back to itself. *)
Definition on_cycle (t : T) (c : Z) : Prop := exists x, rtc (follows t) c x /\ tc (follows t) x x.

Lemma follows_det t x y z : follows t x y -> follows t x z -> y = z.
Proof. intros (H1 & _) (H2 & _). rewrite H1 in H2. by injection H2. Qed.

Lemma on_cycle_next t c : on_cycle t c -> exists n, follows t c n /\ on_cycle t n.
Proof.
  intros (x & Hc & Hx). destruct Hc as [x|c n x Hn Hr].
  - inversion Hx as [? ? Hxx|? n ? Hn Hnx]; subst.
    + exists x. split; [done|]. exists x. split; [done|done].
    + exists n. split; [done|]. exists x. split; [by apply tc_rtc|done].
  - exists n. split; [done|]. by exists x.
Qed.

Lemma getClusterList_chain fs c l fuel : ok (table fs) -> 0 <= c <= MaxCluster (table fs) ->
  free (table fs) c = false -> chain (table fs) (c :: l) -> Forall (fun x => 0 <= x) l ->
  (Z.to_nat (MaxCluster (table fs)) < fuel)%nat -> getClusterList (D := D) fuel fs c = Ret (c :: l).
Proof.
  intros Hok Hc Hfree Hl Hpos Hfuel. unfold getClusterList. rewrite (proj2 (Z.ltb_ge _ _)) by lia.
  destruct (fat_get _ c Hok Hc) as (v & Hv). unfold free in Hfree. rewrite Hv in Hfree |- *.
  cbn [mbind go_bind mret go_ret]. rewrite Hfree.
  pose proof (chain_length _ _ _ Hok Hc Hl Hpos). rewrite (next_cluster_chain _ _ c l []); [done|done|lia].
Qed.

(** C11. Following a chain: the clusters of a well-formed chain are returned in
    order after at most one round per cluster of the table. On a corrupt table whose
    chain comes back to itself, [getClusterList] never returns: no number of rounds
    ends its loop. *)
Theorem fat_cluster_list fs c l fuel : ok (table fs) -> 0 <= c <= MaxCluster (table fs) ->
  free (table fs) c = false ->
  (chain (table fs) (c :: l) -> Forall (fun x => 0 <= x) l ->
     (Z.to_nat (MaxCluster (table fs)) < fuel)%nat -> getClusterList (D := D) fuel fs c = Ret (c :: l)) /\
  (on_cycle (table fs) c -> getClusterList fuel fs c = OutOfFuel).
Proof.
  intros Hok Hc Hfree. split; [by apply getClusterList_chain|].
  unfold getClusterList. rewrite (proj2 (Z.ltb_ge _ _)) by lia.
  destruct (fat_get _ c Hok Hc) as (v & Hv). unfold free in Hfree. rewrite Hv in Hfree |- *.
  cbn [mbind go_bind mret go_ret]. rewrite Hfree.
  clear l v Hv Hfree Hc. generalize (@nil Z) as acc. intros acc Hcyc. revert c acc Hcyc.
  induction fuel as [|fuel IH]; intros c acc Hcyc; [done|]. cbn [go_for].
  destruct (on_cycle_next _ _ Hcyc) as (n & Hn & Hcyc'). rewrite (next_cluster_follows _ _ _ n) by done.
  cbn [mbind go_bind]. by apply IH.
Qed.
End chain_spec.

(** ** [allocateSpace] *)

Section allocation.
Context {T D : Type} `{Htab : FATTable T} `{Hst : Storage D} {ok : T -> Prop} {Hlaws : FATLaws T ok}.

(** The table after changes to the clusters of [l] only. *)
Definition changed (l : list Z) (t t' : T) : Prop :=
  ok t' /\ MaxCluster t' = MaxCluster t /\ (EOCMarker t' = EOCMarker t /\ TableSize t' = TableSize t) /\
  forall m, 0 <= m -> m ∉ l -> ClusterValue t' m = ClusterValue t m.

Lemma changed_set t n v : ok t -> 0 <= n <= MaxCluster t ->
  exists t', SetCluster t n v = Ret t' /\ changed [n] t t' /\ ClusterValue t' n = Ret v.
Proof.
  intros Hok Hn. destruct (fat_set t n v Hok Hn) as (t' & Hs & Hok' & Hm & He & Hsz & Hv).
  exists t'. unfold changed. split_and!; try done.
  - intros m Hm0 Hne. rewrite Hv by done. destruct_if; [subst; set_solver|done].
  - rewrite Hv by lia. by rewrite Z.eqb_refl.
Qed.

Lemma changed_trans l1 l2 t1 t2 t3 : changed l1 t1 t2 -> changed l2 t2 t3 -> changed (l1 ++ l2) t1 t3.
Proof.
  intros (_ & Hm1 & (He1 & Hs1) & Hv1) (Hok & Hm2 & (He2 & Hs2) & Hv2). unfold changed. split_and!; [done|congruence..|].
  intros m Hm Hn. rewrite Hv2, Hv1 by set_solver. done.
Qed.

Lemma changed_weaken l l' t t' : changed l t t' -> l ⊆ l' -> changed l' t t'.
Proof. intros (? & ? & [? ?] & Hv) Hl. unfold changed. split_and!; try done. intros m Hm Hn. apply Hv; set_solver. Qed.

Lemma chain_changed l t t' k : changed l t t' -> chain t k -> Forall (fun x => 0 <= x) k -> k ## l -> chain t' k.
Proof.
  intros (_ & Hm & _ & Hv) Hk Hpos Hd. apply (chain_frame (ok := ok) t); [done| |done].
  rewrite Forall_forall in Hpos. intros m Hin. apply Hv; [auto|]. intros ?. by apply (Hd m).
Qed.

(** Linking new clusters makes a chain of them. *)
Lemma link_chain al : forall t, ok t -> al <> [] -> NoDup al ->
  Forall (fun n => 2 <= n <= MaxCluster t /\ IsEOC t n = false) al ->
  exists t', link t al = Ret t' /\ changed al t t' /\ chain t' al.
Proof.
  induction al as [|c al IH]; [done|]. intros t Hok _ Hnd Hr.
  apply NoDup_cons in Hnd as [Hc Hnd]. apply Forall_cons in Hr as [[Hcr Hce] Hr].
  destruct al as [|n al]; cbn [link].
  - destruct (changed_set t c (EOCMarker t) Hok ltac:(lia)) as (t' & -> & Hch & Hv).
    exists t'. split_and!; try done. econstructor; [done|]. destruct Hch as (Hok' & Hm & (He & _) & _). rewrite <-He.
    by apply fat_eoc_marker.
  - destruct (changed_set t c n Hok ltac:(lia)) as (t1 & -> & Hch & Hv). cbn [mbind go_bind].
    pose proof Hch as (Hok1 & Hm1 & He1 & _).
    destruct (IH t1) as (t' & Hl & Hch' & Hchain); try done.
    { eapply Forall_impl; [exact Hr|]. intros x [Hx Hxe]. rewrite Hm1, <-(fat_eoc t t1) by done. done. }
    exists t'. split; [exact Hl|]. split; [by apply (changed_trans [c] (n :: al) t t1)|].
    pose proof Hch' as (_ & Hm' & _ & Hv'). constructor; [|done].
    apply Forall_cons in Hr as [[Hnr Hne] _]. split_and!; try lia.
    + rewrite Hv' by (done || lia). done.
    + rewrite (fat_eoc t' t); [done|lia].
Qed.

(** Giving clusters back frees them. *)
Lemma release_frees de : forall t, ok t -> Forall (fun n => 0 <= n <= MaxCluster t) de ->
  exists t', release t de = Ret (t', None) /\ changed de t t' /\ Forall (fun n => free t' n = true) de.
Proof.
  induction de as [|c de IH]; intros t Hok Hr; cbn [release].
  - exists t. unfold changed. split_and!; done || constructor.
  - apply Forall_cons in Hr as [Hc Hr]. rewrite (proj2 (Z.ltb_ge _ _)) by lia.
    destruct (changed_set t c (UnusedMarker t) Hok Hc) as (t1 & -> & Hch & Hv). cbn [mbind go_bind].
    pose proof Hch as (Hok1 & Hm1 & _ & _). destruct (IH t1) as (t' & -> & Hch' & Hfr); [done|by rewrite Hm1|].
    exists t'. split_and!; [done|by apply (changed_trans [c] de t t1)|]. constructor; [|done].
    destruct (decide (c ∈ de)) as [Hin|Hin]; [rewrite Forall_forall in Hfr; by apply Hfr|].
    unfold free. destruct Hch' as (_ & _ & _ & Hv'). rewrite Hv', Hv by (done || lia).
    destruct (fat_unused t Hok) as [-> _]. done.
Qed.

(** The search returns the first free clusters, in order. *)
Lemma find_free_first t k : ok t -> 0 < k -> find_free t k = Ret (take (Z.to_nat k) (free_clusters t)).
Proof.
  intros Hok Hk. pose proof (fat_max t Hok).
  assert (wp (find_free t k) (eq (take (Z.to_nat k) (free_clusters t))) no_err) as Hw.
  2:{ destruct (wp_no_err_Ret _ _ Hw) as (l & -> & <-). done. }
  apply (wp_for (fun '(i, al) => 2 <= i <= MaxCluster t /\ al = filter (fun i => free t i) (seqZ 2 (i - 2)) /\ len al <= k)
                (fun '(i, _) => Z.to_nat (MaxCluster t - i))); [|split_and!; [lia|lia|done|len_nils; lia]|lia].
  intros [i al] (Hi & Hal & Hlen).
  assert (forall j, 2 <= j <= MaxCluster t -> free_clusters t = filter (fun i => free t i) (seqZ 2 (j - 2)) ++ filter (fun i => free t i) (seqZ j (MaxCluster t - j))) as Hsplit.
  { intros j Hj. unfold free_clusters. replace (MaxCluster t - 2) with (j - 2 + (MaxCluster t - j)) by lia.
    rewrite seqZ_app by lia. rewrite filter_app. do 3 f_equal. lia. }
  destruct (Z.ltb_spec i (MaxCluster t)); cbn [andb].
  2:{ cbn. rewrite (Hsplit i) by lia. replace (MaxCluster t - i) with 0 by lia. change (seqZ i 0) with (@nil Z).
      rewrite filter_nil, app_nil_r, <-Hal. apply take_ge. unfold len in Hlen. lia. }
  destruct (Z.ltb_spec (len al) k).
  2:{ cbn. rewrite (Hsplit i), <-Hal by lia. unfold len in *. rewrite take_app_le by lia. apply take_ge. lia. }
  destruct (fat_get t i Hok) as (v & Hv); [lia|]. rewrite Hv. cbn [mbind go_bind mret go_ret wp].
  rewrite wrap_u_id by lia.
  assert (filter (fun i => free t i) (seqZ 2 (i + 1 - 2)) = al ++ (if v =? 0 then [i] else [])) as Hnext.
  { replace (i + 1 - 2) with (i - 2 + 1) by lia. rewrite seqZ_app by lia. rewrite filter_app, <-Hal. f_equal.
    replace (2 + (i - 2)) with i by lia. change (seqZ i 1) with [0 + i]. replace (0 + i) with i by lia.
    rewrite filter_cons, filter_nil. unfold free. rewrite Hv. by destruct (v =? 0). }
  split; [|lia]. split; [lia|]. rewrite Hnext. destruct (v =? 0).
  - split; [done|]. rewrite len_app, len_cons. len_nils. lia.
  - rewrite app_nil_r. done.
Qed.

Lemma free_clusters_spec t n : n ∈ free_clusters t <-> free t n = true /\ 2 <= n < MaxCluster t.
Proof.
  unfold free_clusters. rewrite list_elem_of_filter, elem_of_seqZ.
  destruct (free t n); cbn; split; intros [? ?]; split; done || lia.
Qed.

Lemma free_clusters_NoDup t : NoDup (free_clusters t).
Proof. unfold free_clusters. apply NoDup_filter, NoDup_seqZ. Qed.

(** The number of clusters that hold [size] bytes. *)
Definition clusters_for (size bpc : Z) : Z := (size + bpc - 1) / bpc.

Lemma count_ok size bpc : 0 <= size < 2 ^ 62 -> 0 < bpc < 2 ^ 62 ->
  (if 0 <? size mod u64 bpc then i64 (i64 (size / u64 bpc) + 1) else i64 (size / u64 bpc)) = clusters_for size bpc /\
  0 <= clusters_for size bpc < 2 ^ 62.
Proof.
  intros Hs Hb. unfold clusters_for. rewrite wrap_u_id by lia.
  pose proof (Z.div_mod size bpc). pose proof (Z.mod_pos_bound size bpc). pose proof (Z.div_pos size bpc).
  assert (size / bpc <= size) by (apply Z.div_le_upper_bound; nia).
  destruct_if; rewrite !i64_id by (rewrite ?i64_id; lia).
  - replace (size + bpc - 1) with (size mod bpc - 1 + (size / bpc + 1) * bpc) by lia.
    rewrite Z.div_add, (Z.div_small (_ - 1)) by lia. lia.
  - replace (size + bpc - 1) with (bpc - 1 + (size / bpc) * bpc) by lia.
    rewrite Z.div_add, (Z.div_small (_ - 1)) by lia. lia.
Qed.

(** Writing the FAT back succeeds. *)
Definition flushes (fs : FileSystem T D) : Prop := forall t', ok t' -> TableSize t' = TableSize (table fs) -> exists d,
  WriteFat (with_table fs t') = Ret (with_backend (with_table fs t') d, None).

(** The chain the caller names: [l], starting at [previous], or none yet. *)
Definition names_chain (t : T) (previous : Z) (l : list Z) : Prop :=
  (previous = 0 /\ l = []) \/
  (2 <= previous <= MaxCluster t /\ head l = Some previous /\ chain t l /\ Forall (fun x => 0 <= x) l).

Lemma chain_ge2 t x l : chain t (x :: l) -> l <> [] -> 2 <= x.
Proof. intros Hl Hne. by destruct (chain_inv _ _ _ Hl Hne) as (n & l' & -> & (_ & _ & _ & ?) & _). Qed.

Lemma existing_chain_ok fuel fs previous l : ok (table fs) -> reserved (table fs) ->
  names_chain (table fs) previous l -> (Z.to_nat (MaxCluster (table fs)) < fuel)%nat ->
  catch (existing_chain (D := D) fuel fs previous) = Ret (inl (l, default 0 (last l))) /\ len l <= MaxCluster (table fs) + 1.
Proof.
  intros Hok H0 Hn Hfuel. pose proof (fat_max _ Hok). unfold existing_chain.
  destruct Hn as [[-> ->]|(Hp & Hh & Hl & Hpos)]; [split; [done|len_nils; lia]|].
  rewrite (proj2 (Z.leb_le _ _)) by lia. destruct l as [|c l]; [done|]. injection Hh as ->.
  assert (free (table fs) previous = false) as Hfr by (apply (chain_used (ok := ok) (table fs) (previous :: l)); done || set_solver).
  apply Forall_cons in Hpos as [_ Hpos].
  rewrite (getClusterList_chain (ok := ok) fs previous l fuel) by (done || lia). cbn [catch mbind go_bind].
  assert (0 <= previous <= MaxCluster (table fs)) as Hr by lia. pose proof (chain_length _ _ _ Hok Hr Hl Hpos) as Hlen. split; [|unfold len; lia].
  rewrite last_lookup. unfold index. pose proof (len_cons previous l). pose proof (len_nonneg l).
  rewrite (proj2 (Z.ltb_ge _ _)) by lia. replace (Z.to_nat _) with (pred (length (previous :: l))) by (unfold len in *; cbn in *; lia).
  destruct (lookup_lt_is_Some_2 (previous :: l) (pred (length (previous :: l)))) as [x ->]; [cbn; lia|done].
Qed.

(** The state in which a request is well posed. *)
Record request (fuel : nat) (fs : FileSystem T D) (size previous : Z) (l : list Z) : Prop := {
  rq_ok : ok (table fs);
  rq_reserved : reserved (table fs);
  rq_cluster : 0 < bytesPerCluster fs < 2 ^ 62;
  rq_size : 0 <= size < 2 ^ 62;
  rq_chain : names_chain (table fs) previous l;
  rq_fuel : (Z.to_nat (MaxCluster (table fs)) < fuel)%nat
}.

(** What [allocateSpace] does once it knows the clusters that are there. *)
Lemma allocate_start fuel fs size previous l : request fuel fs size previous l ->
  let want := clusters_for size (bytesPerCluster fs) - len l in
  0 <= len l <= MaxCluster (table fs) + 1 /\ - 2 ^ 33 < want < 2 ^ 62 /\
  allocateSpace fuel fs size previous =
  (let previous := default 0 (last l) in
   if want =? 0 then mret (fs, inl l)
   else if 0 <? want then
     allocated ← find_free (table fs) want;
     if len allocated <? want then mret (fs, inr (Errorf "no space left on device"))
     else
       t ← (if 0 <? previous
            then first ← index allocated 0; SetCluster (table fs) previous first
            else mret (table fs));
       t ← link t allocated;
       finish_allocation (with_table fs t) (l ++ allocated)
   else
     let lastAlloc := Z.max 0 (len l + want - 1) in
     deallocated ← slice l (lastAlloc + 1) (len l);
     last ← index l lastAlloc;
     if (MaxCluster (table fs) <? lastAlloc) || (MaxCluster (table fs) <? last)
     then mret (fs, inr (Errorf "invalid cluster chain at %d"))
     else
       t ← SetCluster (table fs) last (EOCMarker (table fs));
       '(t, err) ← release t deallocated;
       match err with
       | Some e => mret (with_table fs t, inr e)
       | None => finish_allocation (with_table fs t) l
       end).
Proof.
  intros [Hok H0 Hb Hs Hn Hf] want. pose proof (fat_max _ Hok).
  destruct (existing_chain_ok fuel fs previous l Hok H0 Hn Hf) as [He Hlen]. pose proof (len_nonneg l).
  destruct (count_ok size (bytesPerCluster fs) Hs Hb) as [Hc Hcr].
  split; [lia|]. split; [unfold want; lia|].
  assert (previous <= MaxCluster (table fs)) as Hp by (destruct Hn as [[-> _]|[? _]]; lia).
  unfold allocateSpace. rewrite (proj2 (Z.ltb_ge _ _)) by lia. rewrite (wrap_u_id 64 (bytesPerCluster fs)) in * by lia.
  rewrite (proj2 (Z.eqb_neq _ _)) by lia. cbn zeta. rewrite He. cbn [mbind go_bind]. rewrite Hc. fold want.
  rewrite (i64_id want) by lia.
  destruct (want =? 0); [done|]. destruct (Z.ltb_spec 0 want); [done|].
  unfold want in *. rewrite (i64_id (- _)) by lia. rewrite (i64_id (len l - _)), (i64_id (_ - 1)) by lia.
  replace (if _ <? 0 then 0 else _) with (Z.max 0 (len l + (clusters_for size (bytesPerCluster fs) - len l) - 1)) by (destruct_if; lia).
  rewrite (i64_id (_ + 1)), (wrap_u_id 32) by lia. done.
Qed.

(** When too few clusters are free nothing is changed. *)
Lemma allocate_full fuel fs size previous l : request fuel fs size previous l ->
  0 < clusters_for size (bytesPerCluster fs) - len l -> len (free_clusters (table fs)) < clusters_for size (bytesPerCluster fs) - len l ->
  allocateSpace fuel fs size previous = Ret (fs, inr (Errorf "no space left on device")).
Proof.
  intros Hrq Hwant Hfew. pose proof (allocate_start _ _ _ _ _ Hrq) as (Hl & Hw & ->). destruct Hrq as [Hok _ _ _ _ _].
  cbn zeta. rewrite (proj2 (Z.eqb_neq _ _)), (proj2 (Z.ltb_lt _ _)) by lia. rewrite find_free_first by done. cbn [mbind go_bind].
  rewrite (proj2 (Z.ltb_lt _ _)); [done|]. unfold len in *. rewrite length_take. lia.
Qed.

(** When the chain has the clusters the size needs nothing is changed. *)
Lemma allocate_same fuel fs size previous l : request fuel fs size previous l ->
  clusters_for size (bytesPerCluster fs) = len l -> allocateSpace fuel fs size previous = Ret (fs, inl l).
Proof.
  intros Hrq Hc. pose proof (allocate_start _ _ _ _ _ Hrq) as (Hl & Hw & ->). cbn zeta. by rewrite Hc, Z.sub_diag.
Qed.

(** C2. Growing a chain: when enough clusters are free, none of the first ones has a number
    that the table reads as an end of chain (a FAT12 table with room for 4096 entries has such
    numbers, from 0xFF8 on, and hands them out: see [fat12_grows_past_marker]), and the table
    can be written to the disk, then [allocateSpace] returns the chain that was there followed
    by the first free clusters, as many as the size needs; in the new table that list is a
    whole chain, every other cluster keeps its value and every other chain is intact. When too
    few are free it returns an error and changes nothing. *)
Theorem fat_allocate_grow fuel fs size previous l : request fuel fs size previous l ->
  let want := clusters_for size (bytesPerCluster fs) - len l in
  let fresh := take (Z.to_nat want) (free_clusters (table fs)) in
  0 < want ->
  (want <= len (free_clusters (table fs)) -> flushes fs ->
   Forall (fun n => IsEOC (table fs) n = false) fresh ->
   exists fs', allocateSpace fuel fs size previous = Ret (fs', inl (l ++ fresh)) /\
     ok (table fs') /\ chain (table fs') (l ++ fresh) /\
     (forall m, 0 <= m -> m ∉ l -> m ∉ fresh -> ClusterValue (table fs') m = ClusterValue (table fs) m) /\
     (forall l', chain (table fs) l' -> Forall (fun x => 0 <= x) l' -> l' ## l -> chain (table fs') l')) /\
  (len (free_clusters (table fs)) < want ->
   allocateSpace fuel fs size previous = Ret (fs, inr (Errorf "no space left on device"))).
Proof.
  intros Hrq want fresh Hwant. split; [|by apply allocate_full].
  pose proof (allocate_start _ _ _ _ _ Hrq) as (Hl & Hw & ->). destruct Hrq as [Hok H0 _ _ Hn _].
  fold want in Hw |- *. cbn zeta. rewrite (proj2 (Z.eqb_neq _ _)), (proj2 (Z.ltb_lt _ _)) by lia.
  rewrite find_free_first by done. fold fresh. cbn [mbind go_bind].
  intros Henough Hflush Heoc. assert (len fresh = want) as Hfl by (unfold fresh, len in *; rewrite length_take; lia).
  rewrite (proj2 (Z.ltb_ge _ _)) by lia. pose proof (fat_max _ Hok) as Hmax.
  assert (forall n, n ∈ fresh -> free (table fs) n = true /\ 2 <= n < MaxCluster (table fs)) as Hfree.
  { intros n Hin. apply free_clusters_spec. unfold fresh in Hin. eapply elem_of_submseteq; [done|]. apply sublist_submseteq, sublist_take. }
  assert (NoDup fresh) as Hnd.
  { eapply sublist_NoDup; [apply (free_clusters_NoDup (table fs))|apply sublist_take]. }
  assert (fresh <> []) as Hne by (intros E; rewrite E in Hfl; len_nils; lia).
  assert (forall l', chain (table fs) l' -> l' ## fresh) as Hdisj.
  { intros l' Hl' x Hx Hxf. apply Hfree in Hxf as [Hxf _]. by rewrite (chain_used _ l' x Hok H0 Hl' Hx) in Hxf. }
  destruct fresh as [|f fr] eqn:Efresh; [done|]. clear Hne.
  assert (exists t1, (if 0 <? default 0 (last l) then first ← index (f :: fr) 0; SetCluster (table fs) (default 0 (last l)) first
                      else mret (table fs)) = Ret t1 /\ changed (option_list (last l)) (table fs) t1 /\
          forall x, last l = Some x -> 2 <= x -> follows t1 x f) as (t1 & Ht1 & Hch1 & Hlast).
  { destruct Hn as [[-> ->]|(Hp & Hh & Hl' & Hpos)].
    { exists (table fs). unfold changed. split_and!; done. }
    destruct (last l) as [x|] eqn:Elast; [|apply last_None in Elast; by subst]. cbn [default option_list].
    assert (x ∈ l) as Hxin by (by apply last_Some_elem_of).
    assert (2 <= x <= MaxCluster (table fs)) as Hx.
    { split; [by apply (chain_members (table fs) l)|]. destruct l as [|c l]; [done|]. injection Hh as ->.
      apply elem_of_cons in Hxin as [->|Hxin]; [lia|].
      pose proof (chain_tail_range _ _ _ Hl') as Hr. rewrite Forall_forall in Hr. by apply Hr. }
    change (id x) with x. rewrite (proj2 (Z.ltb_lt 0 x)) by lia. change (index (f :: fr) 0) with (Ret f). cbn [mbind go_bind].
    destruct (changed_set (table fs) x f Hok) as (t1 & -> & Hch & Hv); [lia|]. exists t1. split_and!; [done|done|].
    intros y [= <-] _. pose proof Hch as (_ & Hm & _ & _).
    assert (f ∈ f :: fr) as Hf by set_solver. pose proof (Hfree f Hf) as [_ Hfr].
    split_and!; [done| |lia|lia]. rewrite (fat_eoc t1 (table fs)) by done.
    rewrite Forall_forall in Heoc. by apply Heoc. }
  rewrite Ht1. cbn [mbind go_bind]. pose proof Hch1 as (Hok1 & Hm1 & _ & _).
  destruct (link_chain (f :: fr) t1 Hok1) as (t2 & Ht2 & Hch2 & Hchain); [done|done| |].
  { apply Forall_forall. intros n Hin. rewrite Hm1. specialize (Hfree n Hin). split; [lia|].
    rewrite (fat_eoc t1 (table fs)) by done. rewrite Forall_forall in Heoc. by apply Heoc. }
  rewrite Ht2. cbn [mbind go_bind]. pose proof Hch2 as (Hok2 & Hm2 & _ & Hv2).
  destruct (Hflush t2 Hok2) as (d & Hd); [destruct Hch1 as (_ & _ & (_ & Hs1) & _), Hch2 as (_ & _ & (_ & Hs2) & _); congruence|]. unfold finish_allocation. rewrite Hd. cbn [mbind go_bind mret go_ret].
  eexists. split; [done|]. cbn [table with_backend with_table]. split; [done|].
  assert (changed (l ++ f :: fr) (table fs) t2) as Hch.
  { apply (changed_weaken (option_list (last l) ++ f :: fr)); [by apply (changed_trans _ _ _ t1)|].
    destruct (last l) eqn:E; [apply last_Some_elem_of in E|]; cbn; set_solver. }
  split_and!.
  - destruct Hn as [[_ ->]|(Hp & Hh & Hl' & Hpos)]; [done|].
    destruct (last l) as [x|] eqn:Elast; [|apply last_None in Elast; by subst].
    apply last_Some in Elast as [l0 ->]. rewrite <-(assoc app). cbn [app].
    assert (2 <= x) as Hx by (apply (chain_members (table fs) (l0 ++ [x])); done || set_solver).
    apply (chain_extend (ok := ok) (table fs)); [lia| |done| |done].
    + intros m Hm. pose proof (chain_NoDup _ _ Hl') as Hndl. apply NoDup_app in Hndl as (_ & Hnx & _).
      assert (2 <= m) by (apply (chain_members (table fs) (l0 ++ [x])); done || set_solver).
      rewrite Hv2 by (lia || (specialize (Hdisj _ Hl'); set_solver)).
      destruct Hch1 as (_ & _ & _ & Hv1). apply Hv1; [lia|]. cbn. specialize (Hnx m Hm). set_solver.
    + destruct (Hlast x eq_refl Hx) as (Hf1 & Hf2 & Hf3 & Hf4).
      split_and!; [|by rewrite (fat_eoc t2 t1)|lia|done].
      rewrite Hv2; [done|lia|]. specialize (Hdisj _ Hl'). set_solver.
  - intros m Hm Hml Hmf. destruct Hch as (_ & _ & _ & Hv). apply Hv; set_solver.
  - intros l' Hl' Hpos' Hd'. apply (chain_changed (l ++ f :: fr) (table fs)); try done.
    specialize (Hdisj _ Hl'). set_solver.
Qed.

(** C10. Shrinking a chain: when the size needs fewer clusters than the chain has,
    the chain is cut to the clusters needed (never to less than one), the clusters
    behind the cut are free again, and every other cluster and chain is as it was.
    The list that is returned is still the old one: it names the clusters that were
    just freed. *)
Theorem fat_allocate_shrink fuel fs size previous l : request fuel fs size previous l ->
  let count := clusters_for size (bytesPerCluster fs) in
  let keep := Z.max 1 count in
  count < len l -> flushes fs ->
  exists fs', allocateSpace fuel fs size previous = Ret (fs', inl l) /\
    ok (table fs') /\ chain (table fs') l.[0, keep] /\
    Forall (fun n => free (table fs') n = true) (from l keep) /\
    (forall m, 0 <= m -> m ∉ from l (keep - 1) -> ClusterValue (table fs') m = ClusterValue (table fs) m) /\
    (forall l', chain (table fs) l' -> Forall (fun x => 0 <= x) l' -> l' ## l -> chain (table fs') l').
Proof.
  intros Hrq count keep Hcount Hflush. pose proof (allocate_start _ _ _ _ _ Hrq) as (Hl & Hw & ->).
  destruct Hrq as [Hok H0 Hb Hs Hn _]. destruct (count_ok size (bytesPerCluster fs) Hs Hb) as [_ Hcr]. fold count in Hcr, Hw |- *.
  cbn zeta. rewrite (proj2 (Z.eqb_neq _ _)), (proj2 (Z.ltb_ge _ _)) by lia.
  pose proof (fat_max _ Hok) as Hmax.
  destruct Hn as [[_ ->]|(Hp & Hh & Hch & Hpos)]; [len_nils; lia|].
  replace (Z.max 0 (len l + (count - len l) - 1)) with (keep - 1) by lia. set (k := keep - 1) in *.
  rewrite slice_ok by lia. cbn [mbind go_bind].
  destruct (index_ok l k) as (x & Hx & ->); [lia|]. cbn [mbind go_bind].
  assert (x ∈ l) as Hxl by (by eapply list_elem_of_lookup_2).
  assert (forall y, y ∈ l -> 0 <= y <= MaxCluster (table fs)) as Hrange.
  { intros y Hy. rewrite Forall_forall in Hpos. split; [by apply Hpos|]. destruct l as [|c l]; [done|]. injection Hh as ->.
    apply elem_of_cons in Hy as [->|Hy]; [lia|]. pose proof (chain_tail_range _ _ _ Hch) as Hr.
    rewrite Forall_forall in Hr. by apply Hr. }
  assert (len l <= MaxCluster (table fs) + 1 /\ k <= len l - 1) as Hkl by lia.
  replace ((MaxCluster (table fs) <? k) || (MaxCluster (table fs) <? x)) with false.
  2:{ symmetry. apply orb_false_iff. specialize (Hrange x Hxl). split; apply Z.ltb_ge; lia. }
  destruct (changed_set (table fs) x (EOCMarker (table fs)) Hok (Hrange x Hxl)) as (t1 & -> & Hch1 & Hv1).
  cbn [mbind go_bind]. pose proof Hch1 as (Hok1 & Hm1 & (_ & Hs1) & _).
  assert (l.[k + 1, len l] = from l (k + 1)) as Efrom by (destruct (sub_from l (k + 1)); [done|lia]).
  assert (l = l.[0, k] ++ x :: from l (k + 1)) as El.
  { rewrite <-(sub_app_from l k) at 1 by lia. f_equal. unfold from.
    replace (Z.to_nat (k + 1)) with (S (Z.to_nat k)) by lia. by apply drop_S. }
  pose proof (chain_NoDup _ _ Hch) as Hnd. rewrite El in Hnd. apply NoDup_app in Hnd as (_ & Hnd0 & Hnd1).
  apply NoDup_cons in Hnd1 as [Hxn _].
  destruct (release_frees l.[k + 1, len l] t1 Hok1) as (t2 & -> & Hch2 & Hfree).
  { rewrite Efrom, Hm1. apply Forall_forall. intros y Hy. apply Hrange. rewrite El. set_solver. }
  cbn [mbind go_bind]. pose proof Hch2 as (Hok2 & Hm2 & (_ & Hs2) & Hv2).
  destruct (Hflush t2 Hok2) as (d & Hd); [congruence|]. unfold finish_allocation. rewrite Hd. cbn [mbind go_bind mret go_ret].
  eexists. split; [done|]. cbn [table with_backend with_table]. rewrite Efrom in Hfree, Hch2, Hv2.
  assert (changed (x :: from l (k + 1)) (table fs) t2) as Hc by (by apply (changed_trans [x] _ _ t1)).
  assert (from l k = x :: from l (k + 1)) as Efk.
  { unfold from. replace (Z.to_nat (k + 1)) with (S (Z.to_nat k)) by lia. by apply drop_S. }
  assert (l.[0, keep] = l.[0, k] ++ [x]) as Ek.
  { unfold sub. rewrite !Z.sub_0_r. cbn [Z.to_nat drop]. replace (Z.to_nat keep) with (S (Z.to_nat k)) by lia. by apply take_S_r. }
  split_and!; [done| | | |].
  - rewrite Ek. rewrite El in Hch. apply (chain_cut (ok := ok) (table fs) t2 _ _ (from l (k + 1)) (EOCMarker (table fs))); [lia| |done| |].
    + intros m Hm. destruct Hc as (_ & _ & _ & Hv). apply Hv; [apply Hrange; rewrite El; set_solver|]. by apply Hnd0.
    + rewrite Hv2 by (done || apply Hrange; done). done.
    + rewrite (fat_eoc t2 (table fs)) by lia. by apply fat_eoc_marker.
  - by replace keep with (k + 1) by lia.
  - rewrite Efk. apply Hc.
  - intros l' Hl' Hpos' Hd'. apply (chain_changed (x :: from l (k + 1)) (table fs)); try done.
    rewrite El in Hd'. set_solver.
Qed.

(** ** The copies on disk *)

Context {repr : D -> Z -> (Z -> Z) -> Prop} {Hdev : WritableDevice D repr}.

(** Where the two copies lie on the device below. *)
Record fat_layout (fs : FileSystem T D) (size : Z) : Prop := {
  fl_hook : AfterWriteFAT fs = None;
  fl_primary : 0 <= fatPrimaryStart fs /\ 0 <= start fs;
  fl_order : fatPrimaryStart fs + TableSize (table fs) <= fatSecondaryStart fs;
  fl_fit : fatSecondaryStart fs + start fs + TableSize (table fs) <= size
}.

(** What the writes leave on the device, whatever hook runs afterwards. *)
Lemma default_fat_device fs size c : ok (table fs) -> repr (backend fs) size c ->
  0 <= fatPrimaryStart fs -> 0 <= start fs -> fatPrimaryStart fs + TableSize (table fs) <= fatSecondaryStart fs ->
  fatSecondaryStart fs + start fs + TableSize (table fs) <= size ->
  exists b d c', Bytes (table fs) = Ret b /\ len b = TableSize (table fs) /\ defaultWriteFAT fs = Ret (with_backend fs d, None) /\ repr d size c' /\
    span c' (fatPrimaryStart fs + start fs) (len b) = b /\
    span c' (fatSecondaryStart fs + start fs) (len b) = b /\
    forall i, ~ (fatPrimaryStart fs + start fs <= i < fatPrimaryStart fs + start fs + len b) ->
              ~ (fatSecondaryStart fs + start fs <= i < fatSecondaryStart fs + start fs + len b) -> c' i = c i.
Proof.
  intros Hok Hr Hp Hst' Ho Hf. destruct (fat_bytes _ Hok) as (b & Hb & Hl & Hbb).
  pose proof (wd_size _ _ _ Hr) as Hsz. pose proof (len_nonneg b). unfold defaultWriteFAT.
  rewrite Hb. cbn [mbind go_bind]. rewrite (wd_writable _ _ _ Hr).
  rewrite (i64_id (fatPrimaryStart fs)), (i64_id (_ + _)) by lia.
  destruct (wd_write _ _ _ b (fatPrimaryStart fs + start fs) Hr) as (d1 & -> & Hr1); [done|lia|lia|].
  cbn [mbind go_bind with_backend backend fatSecondaryStart start]. rewrite (i64_id (fatSecondaryStart fs)), (i64_id (_ + _)) by lia.
  destruct (wd_write _ _ _ b (fatSecondaryStart fs + start fs) Hr1) as (d2 & -> & Hr2); [done|lia|lia|].
  eexists b, d2, _. split_and!; [done|done|done|exact Hr2|..].
  - etransitivity; [|apply (overwrite_span c (fatPrimaryStart fs + start fs))]. apply span_same. intros i Hi. apply overwrite_out. lia.
  - apply overwrite_span.
  - intros i H1 H2. by rewrite !overwrite_out by lia.
Qed.

Lemma write_fat_device fs size c : ok (table fs) -> repr (backend fs) size c -> fat_layout fs size ->
  exists b d c', Bytes (table fs) = Ret b /\ WriteFat fs = Ret (with_backend fs d, None) /\ repr d size c' /\
    span c' (fatPrimaryStart fs + start fs) (len b) = b /\
    span c' (fatSecondaryStart fs + start fs) (len b) = b /\
    forall i, ~ (fatPrimaryStart fs + start fs <= i < fatPrimaryStart fs + start fs + len b) ->
              ~ (fatSecondaryStart fs + start fs <= i < fatSecondaryStart fs + start fs + len b) -> c' i = c i.
Proof.
  intros Hok Hr [Hh [Hp Hst'] Ho Hf]. destruct (default_fat_device fs size c Hok Hr Hp Hst' Ho Hf) as (b & d & c' & Hb & _ & Hw & Hd).
  exists b, d, c'. split; [done|]. split; [|done]. unfold WriteFat. rewrite Hw. cbn [mbind go_bind]. change (AfterWriteFAT _) with (AfterWriteFAT fs). by rewrite Hh.
Qed.

Lemma flushes_device fs size c : ok (table fs) -> repr (backend fs) size c -> fat_layout fs size -> flushes fs.
Proof.
  intros Hok Hr [Hh Hp Ho Hf] t' Hok' Hsz.
  destruct (write_fat_device (with_table fs t') size c) as (b & d & c' & _ & Hw & _); [done|done| |].
  { split; cbn [with_table AfterWriteFAT fatPrimaryStart fatSecondaryStart start table]; rewrite ?Hsz; done. }
  eauto.
Qed.
(** Both copies of the table: [WriteFat] leaves the table's bytes at the primary
    and the secondary offset of the partition and changes no other byte of the
    device. *)
Theorem fat_write_copies fs size c : ok (table fs) -> repr (backend fs) size c -> fat_layout fs size ->
  exists b d c', Bytes (table fs) = Ret b /\ WriteFat fs = Ret (with_backend fs d, None) /\ repr d size c' /\
    span c' (fatPrimaryStart fs + start fs) (len b) = b /\
    span c' (fatSecondaryStart fs + start fs) (len b) = b /\
    forall i, ~ (fatPrimaryStart fs + start fs <= i < fatPrimaryStart fs + start fs + len b) ->
              ~ (fatSecondaryStart fs + start fs <= i < fatSecondaryStart fs + start fs + len b) -> c' i = c i.
Proof. apply write_fat_device. Qed.
End allocation.

(** ** Witnesses *)

Definition sample_fs : FileSystem Fat12.fat12Table memory :=
  mkFS None sample12 0 512 0 0 (mkMemory (replicate 18 0) false 0) 0 0 0 9 None None.

Lemma fc_sample_ok : Fat12.ok (table sample_fs).
Proof. unfold Fat12.ok; cbn; split_and!; done || lia. Defined.

Lemma fc_sample_repr : memory_is (backend sample_fs) 18 (file_content (replicate 18 0)).
Proof. unfold memory_is. split_and!; try reflexivity. apply bytes_ok_zeros. Defined.

Lemma fc_sample_layout : fat_layout sample_fs 18.
Proof. split; cbn; done || lia. Defined.

Lemma fc_sample_chain : chain (table sample_fs) [2; 3; 5].
Proof.
  constructor; [by repeat split; cbn|]. constructor; [by repeat split; cbn|].
  apply (chain_end _ 5 0xFFF); reflexivity.
Defined.

Lemma fc_sample_request size : 0 <= size < 2 ^ 62 -> request (ok := Fat12.ok) 20 sample_fs size 2 [2; 3; 5].
Proof.
  intros Hs. split; [apply fc_sample_ok|by split|cbn; lia|done| |cbn; lia].
  right. split; [cbn; lia|]. split; [done|]. split; [apply fc_sample_chain|repeat constructor; lia].
Defined.

Lemma fc_sample_flushes : flushes (ok := Fat12.ok) sample_fs.
Proof. eapply flushes_device; [apply fc_sample_ok|apply fc_sample_repr|apply fc_sample_layout]. Defined.

Lemma fat_cluster_list_witness : getClusterList 20 sample_fs 2 = Ret [2; 3; 5].
Proof.
  destruct (fat_cluster_list (ok := Fat12.ok) sample_fs 2 [3; 5] 20 fc_sample_ok) as [H _]; [cbn; lia|done|].
  apply H; [apply fc_sample_chain|repeat constructor; lia|cbn; lia].
Defined.

Lemma fat_allocate_grow_witness : exists fs', allocateSpace 20 sample_fs 1600 2 = Ret (fs', inl [2; 3; 5; 4]) /\
  chain (table fs') [2; 3; 5; 4].
Proof.
  assert (0 <= 1600 < 2 ^ 62) as Hs by lia.
  destruct (fat_allocate_grow (ok := Fat12.ok) 20 sample_fs 1600 2 [2; 3; 5] (fc_sample_request 1600 Hs)) as [H _]; [reflexivity|].
  destruct H as (fs' & H & _ & Hc & _); [cbv; congruence|apply fc_sample_flushes|repeat constructor|].
  exists fs'. split; [exact H|exact Hc].
Defined.

Lemma fat_allocate_shrink_witness : exists fs', allocateSpace 20 sample_fs 600 2 = Ret (fs', inl [2; 3; 5]) /\
  chain (table fs') [2; 3] /\ Forall (fun n => free (table fs') n = true) [5].
Proof.
  assert (0 <= 600 < 2 ^ 62) as Hs by lia.
  destruct (fat_allocate_shrink (ok := Fat12.ok) 20 sample_fs 600 2 [2; 3; 5] (fc_sample_request 600 Hs))
    as (fs' & H & _ & Hc & Hf & _); [reflexivity|apply fc_sample_flushes|].
  exists fs'. split; [exact H|]. split; [exact Hc|exact Hf].
Defined.

Lemma fat_write_copies_witness : exists b d c', Bytes (table sample_fs) = Ret b /\
  WriteFat sample_fs = Ret (with_backend sample_fs d, None) /\ memory_is d 18 c' /\ span c' 9 (len b) = b.
Proof.
  destruct (fat_write_copies (ok := Fat12.ok) (repr := memory_is) sample_fs 18 _ fc_sample_ok fc_sample_repr fc_sample_layout)
    as (b & d & c' & Hb & Hw & Hr & _ & Hs & _).
  exists b, d, c'. split_and!; [exact Hb|exact Hw|exact Hr|exact Hs].
Defined.

(** ** Observations on concrete volumes *)

(** A FAT12 table 2 -> 3 -> 2: the hypothesis of a cyclic chain is met. *)
Definition cyclic_fs : FileSystem Fat12.fat12Table memory :=
  mkFS None (Fat12.mkTable 0xFF8 0xFFF 0 [0; 0; 3; 2; 0; 0; 0] 6 9) 0 512 0 0 (mkMemory (replicate 18 0) false 0) 0 0 0 9 None None.

Lemma cyclic_list_diverges fuel : getClusterList fuel cyclic_fs 2 = OutOfFuel.
Proof.
  assert (forall x y, (x = 2 /\ y = 3) \/ (x = 3 /\ y = 2) -> follows (table cyclic_fs) x y) as Hf.
  { intros x y [[-> ->]|[-> ->]]; repeat split; cbn; lia. }
  assert (forall c acc, c = 2 \/ c = 3 -> go_for fuel (next_cluster (table cyclic_fs)) (acc, c) = OutOfFuel) as Hl.
  { induction fuel as [|fuel IH]; intros c acc [->| ->]; [done..| |]; cbn [go_for];
      [rewrite (next_cluster_follows _ _ _ 3) by auto|rewrite (next_cluster_follows _ _ _ 2) by auto];
      cbn [mbind go_bind]; auto. }
  apply (Hl 2 []). by left.
Qed.

(** A FAT32 table whose entry 1 has the "volume dirty" bit cleared, as a mounted
    volume has: the value is kept as the end-of-chain marker, and a chain that
    [allocateSpace] ends with it cannot be followed afterwards. *)
Definition dirty_fs : go (FileSystem Fat32.table memory) :=
  t ← Fat32.tableFromBytes (put_le 4 0x0FFFFFF8 ++ put_le 4 0x07FFFFFF ++ put_le 4 0x0FFFFFFF ++ replicate 20 0);
  mret (mkFS None t 0 512 0 0 (mkMemory (replicate 64 0) false 0) 0 0 0 32 None None).

Lemma fat32_dirty_chain_unreadable :
  (fs ← dirty_fs; '(fs', r) ← allocateSpace 20 fs 1 0;
   match r with inl l => mret (l, getClusterList 20 fs' 3) | inr e => Err e end) =
  Ret ([3], Err (Errorf "invalid cluster chain at %d")).
Proof. vm_compute. reflexivity. Qed.

(** A full volume of twenty data clusters behind a boot sector, two tables of a sector
    each and one sector of root directory, 12288 bytes in all: the table's sector has
    room for 341 entries, and the next cluster handed out lies past the end of the
    volume. *)
Definition full_volume : FileSystem Fat12.fat12Table memory :=
  mkFS None (Fat12.mkTable 0xFF0 0xFFF 0 ([0; 0] ++ replicate 20 0xFFF ++ replicate 320 0) 341 512)
       (4 * 512) 512 12288 0 (mkMemory (replicate 1536 0) false 0) 0 0 512 1024 None None.

Lemma full_volume_allocates_past_end :
  (match allocateSpace 400 full_volume 1 0 with Ret (_, inl [c]) => Some (dataStart full_volume + (c - 2) * 512) | _ => None end) =
  Some (size full_volume).
Proof. vm_compute. reflexivity. Qed.

(** A FAT12 table of twelve sectors has 4096 entries. With all but the last ten taken, a
    chain of two clusters is given 0xFF7 and 0xFF8, and reading it back ends after the first
    one, whose entry now is a mark of the end of a chain. *)
Definition large_fat12 : FileSystem Fat12.fat12Table memory :=
  mkFS None (Fat12.mkTable 0xFF0 0xFFF 0 ([0; 0] ++ replicate 4085 0xFFF ++ replicate 10 0) 4096 6144)
       (4 * 512) 512 (2 ^ 22) 0 (mkMemory (replicate 12800 0) false 0) 0 0 512 6656 None None.

Lemma fat12_grows_past_marker :
  (match allocateSpace 4100 large_fat12 1024 0 with Ret (fs', inl l) => Some (l, getClusterList 4100 fs' 0xFF7) | _ => None end) =
  Some ([0xFF7; 0xFF8], Ret [0xFF7]).
Proof. vm_compute. reflexivity. Qed.
