(* ===== verification/FatData.v ===== *)
(** * FatData: the content of a cluster chain
    Where the bytes of a chain of clusters lie on the device, and what it means that
    bytes are written into the chain: the specification against which the reads and
    writes of directories (FatFs) and of files (FatFile) are proved. *)
From S2P Require Import Prelude Bytes ReaderAt Text FatBoot FatTable Storage FatChain.

Section content.
Context {T D : Type} `{Htab : FATTable T} `{Hst : Storage D}.
Notation FS := (FileSystem T D).

(** The cluster of a chain at an index. *)
Definition nth_cluster (clusters : list Z) (i : Z) : Z := default 0 (clusters !! Z.to_nat i).
(** Where byte [k] of a chain lies on the device, and the byte there. *)
Definition dev_pos (fs : FS) (clusters : list Z) (k : Z) : Z :=
  start fs + dataStart fs + (nth_cluster clusters (k / bytesPerCluster fs) - 2) * bytesPerCluster fs + k mod bytesPerCluster fs.
Definition chain_byte (fs : FS) (clusters : list Z) (c : Z -> Z) (k : Z) : Z := c (dev_pos fs clusters k).

(** The clusters lie on a device of [size] bytes, behind the reserved area. *)
Record in_volume (fs : FS) (size : Z) (clusters : list Z) : Prop := {
  iv_size : size < 2 ^ 63;
  iv_bpc : 0 < bytesPerCluster fs <= 2 ^ 48;
  iv_start : 0 <= start fs;
  iv_data : 0 <= dataStart fs;
  iv_clusters : Forall (fun x => 2 <= x < 2 ^ 32 /\ start fs + dataStart fs + (x - 1) * bytesPerCluster fs <= size) clusters
}.

(** Where a cluster of the chain starts. *)
Definition cluster_base (fs : FS) (clusters : list Z) (i : Z) : Z :=
  start fs + dataStart fs + (nth_cluster clusters i - 2) * bytesPerCluster fs.

Lemma nth_cluster_ok clusters i : 0 <= i < len clusters ->
  index clusters i = Ret (nth_cluster clusters i) /\ nth_cluster clusters i ∈ clusters.
Proof.
  intros Hi. destruct (index_ok clusters i Hi) as (x & Hx & ->). unfold nth_cluster. rewrite Hx.
  split; [done|]. by eapply list_elem_of_lookup_2.
Qed.

Lemma cluster_base_bounds (fs : FS) size clusters i : in_volume fs size clusters -> 0 <= i < len clusters ->
  start fs + dataStart fs <= cluster_base fs clusters i /\ cluster_base fs clusters i + bytesPerCluster fs <= size /\
  u32 (nth_cluster clusters i - 2) = nth_cluster clusters i - 2 /\ 2 <= nth_cluster clusters i.
Proof.
  intros [Hs Hb Hst' Hd Hc] Hi. destruct (nth_cluster_ok clusters i Hi) as [_ Hin].
  rewrite Forall_forall in Hc. destruct (Hc _ Hin) as [Hr Hl]. unfold cluster_base.
  assert (0 <= (nth_cluster clusters i - 2) * bytesPerCluster fs) by nia. rewrite wrap_u_id by lia. lia.
Qed.

Lemma from_clusters clusters i x l : 0 <= i -> x :: l = from clusters i ->
  i < len clusters /\ x = nth_cluster clusters i /\ l = from clusters (i + 1).
Proof.
  intros Hi El. assert (i < len clusters) as Hl.
  { destruct (Z.leb_spec (len clusters) i); [|done]. unfold from in El. rewrite drop_ge in El by (unfold len in *; lia). done. }
  split; [done|]. unfold nth_cluster, from in *. replace (Z.to_nat (i + 1)) with (S (Z.to_nat i)) by lia.
  destruct (index_ok clusters i) as (y & Hy & _); [lia|]. rewrite Hy. rewrite (drop_S _ y) in El by done. by injection El as -> ->.
Qed.

Lemma from_split {A} (p : list A) t n : 0 <= t -> 0 <= n -> from p t = p.[t, t + n] ++ from p (t + n).
Proof.
  intros Ht Hn. rewrite <-(sub_app_from (from p t) n) by lia. rewrite from_from by lia. f_equal. unfold sub. rewrite Z.sub_0_r.
  change (Z.to_nat 0) with 0%nat. rewrite drop_0. by replace (t + n - t) with n by lia.
Qed.

(** Part of a cluster is part of the chain's content. *)
Lemma cluster_span (fs : FS) clusters c i r n : 0 < bytesPerCluster fs -> 0 <= r -> 0 <= n -> r + n <= bytesPerCluster fs ->
  span c (cluster_base fs clusters i + r) n =
  span (chain_byte fs clusters c) (i * bytesPerCluster fs + r) n.
Proof.
  intros Hb Hr Hn Hl. apply span_congr. intros k Hk. unfold chain_byte, dev_pos, cluster_base.
  replace (i * bytesPerCluster fs + r + k) with (r + k + i * bytesPerCluster fs) by lia.
  rewrite Z.div_add, Z_mod_plus_full, Z.div_small, Z.mod_small by lia. rewrite Z.add_0_l. f_equal. lia.
Qed.

(** The chain's content with [q] from [o] on, and the rest of the device as it was. *)
Definition stored_at (fs : FS) (clusters : list Z) (c : Z -> Z) (o : Z) (q : list Z) (c' : Z -> Z) : Prop :=
  (forall k, 0 <= k < len clusters * bytesPerCluster fs ->
     chain_byte fs clusters c' k = overwrite (chain_byte fs clusters c) o q k) /\
  (forall x, (forall i, 0 <= i < len clusters ->
     ~ (cluster_base fs clusters i <= x < cluster_base fs clusters i + bytesPerCluster fs)) -> c' x = c x).

Lemma overwrite_nil c o i : overwrite c o [] i = c i.
Proof. unfold overwrite. len_nils. rewrite Z.add_0_r. by destruct (Z.leb_spec o i), (Z.ltb_spec i o); try lia. Qed.

Lemma overwrite_app f o q1 q2 k : overwrite (overwrite f o q1) (o + len q1) q2 k = overwrite f o (q1 ++ q2) k.
Proof.
  unfold overwrite. rewrite len_app. pose proof (len_nonneg q1). pose proof (len_nonneg q2).
  destruct (Z.leb_spec (o + len q1) k), (Z.ltb_spec k (o + len q1 + len q2)), (Z.leb_spec o k), (Z.ltb_spec k (o + len q1)),
    (Z.ltb_spec k (o + (len q1 + len q2))); cbn [andb]; try lia; try done.
  - unfold byte_at, len in *. rewrite lookup_app_r by lia. do 2 f_equal. lia.
  - unfold byte_at, len in *. rewrite lookup_app_l by lia. done.
Qed.

Lemma overwrite_ext f g o q k : f k = g k -> overwrite f o q k = overwrite g o q k.
Proof. intros E. unfold overwrite. by rewrite E. Qed.

Lemma stored_nil (fs : FS) clusters c o : stored_at fs clusters c o [] c.
Proof. split; [|done]. intros k Hk. by rewrite overwrite_nil. Qed.

Lemma stored_app (fs : FS) clusters c o q1 c1 q2 c2 : stored_at fs clusters c o q1 c1 -> stored_at fs clusters c1 (o + len q1) q2 c2 ->
  stored_at fs clusters c o (q1 ++ q2) c2.
Proof.
  intros [Hc1 Hf1] [Hc2 Hf2]. split.
  - intros k Hk. rewrite Hc2 by done. rewrite (overwrite_ext _ (overwrite (chain_byte fs clusters c) o q1)) by auto.
    apply overwrite_app.
  - intros x Hx. by rewrite Hf2, Hf1 by done.
Qed.

Lemma stored_ext (fs : FS) clusters c1 c o q c' : (forall k, c1 k = c k) -> stored_at fs clusters c1 o q c' -> stored_at fs clusters c o q c'.
Proof.
  intros E [Hc Hf]. split; [|intros x Hx; by rewrite Hf].
  intros k Hk. rewrite Hc by done. apply overwrite_ext. apply E.
Qed.

(** Different clusters do not overlap. *)
Lemma nth_cluster_inj clusters i j : NoDup clusters -> 0 <= i < len clusters -> 0 <= j < len clusters ->
  nth_cluster clusters i = nth_cluster clusters j -> i = j.
Proof.
  intros Hnd Hi Hj E. destruct (index_ok clusters i Hi) as (x & Hx & _), (index_ok clusters j Hj) as (y & Hy & _).
  unfold nth_cluster in E. rewrite Hx, Hy in E. cbn in E. subst.
  pose proof (NoDup_lookup _ _ _ _ Hnd Hx Hy). lia.
Qed.

Lemma stored_part (fs : FS) clusters c i r q : NoDup clusters -> 0 < bytesPerCluster fs -> 0 <= i < len clusters ->
  0 <= r -> r + len q <= bytesPerCluster fs ->
  stored_at fs clusters c (i * bytesPerCluster fs + r) q (overwrite c (cluster_base fs clusters i + r) q).
Proof.
  intros Hnd Hb Hi Hr Hl. pose proof (len_nonneg q). split.
  - intros k Hk. unfold chain_byte, overwrite, dev_pos, cluster_base.
    pose proof (Z.mod_pos_bound k (bytesPerCluster fs) Hb). pose proof (Z.div_mod k (bytesPerCluster fs)).
    assert (0 <= k / bytesPerCluster fs < len clusters) as Hj by (split; [apply Z.div_pos; lia|apply Z.div_lt_upper_bound; lia]).
    destruct (Z.eq_dec (k / bytesPerCluster fs) i) as [E|E].
    + rewrite E in *. set (base := _ + (nth_cluster clusters i - 2) * _).
      replace (k mod bytesPerCluster fs) with (k - i * bytesPerCluster fs) by lia.
      replace (base + r <=? _) with (i * bytesPerCluster fs + r <=? k) by lia.
      replace (_ <? base + r + len q) with (k <? i * bytesPerCluster fs + r + len q) by lia.
      destruct (_ && _); f_equal; lia.
    + assert (nth_cluster clusters (k / bytesPerCluster fs) <> nth_cluster clusters i) as Hne.
      { intros E'. apply E. by apply (nth_cluster_inj clusters). }
      assert (forall a b m, a <> b -> 0 < m -> (a - 2) * m + m <= (b - 2) * m \/ (b - 2) * m + m <= (a - 2) * m) as Hsep by (intros; nia).
      pose proof (Hsep _ _ (bytesPerCluster fs) Hne Hb) as Hd.
      assert ((k / bytesPerCluster fs + 1) * bytesPerCluster fs <= i * bytesPerCluster fs \/
              (i + 1) * bytesPerCluster fs <= k / bytesPerCluster fs * bytesPerCluster fs) as Hk'.
      { destruct (Z.lt_trichotomy (k / bytesPerCluster fs) i) as [?|[?|?]]; [left|lia|right]; apply Z.mul_le_mono_nonneg_r; lia. }
      replace ((_ <=? _) && (_ <? _)) with false by (symmetry; apply andb_false_iff; rewrite Z.leb_gt, Z.ltb_ge; lia).
      replace ((_ <=? _) && (_ <? _)) with false by (symmetry; apply andb_false_iff; rewrite Z.leb_gt, Z.ltb_ge; lia).
      done.
  - intros x Hx. specialize (Hx i Hi). unfold overwrite.
    by replace ((_ <=? _) && (_ <? _)) with false by (symmetry; apply andb_false_iff; rewrite Z.leb_gt, Z.ltb_ge; lia).
Qed.


(** What was written is what is read. *)
Lemma stored_read (fs : FS) clusters c o q c' : 0 <= o -> o + len q <= len clusters * bytesPerCluster fs ->
  stored_at fs clusters c o q c' -> span (chain_byte fs clusters c') o (len q) = q.
Proof.
  intros Ho Hl [Hc _]. symmetry. apply span_ext; [done|]. intros i Hi. destruct (index_ok q i Hi) as (x & Hx & _). rewrite Hx.
  f_equal. rewrite Hc by lia. unfold overwrite. rewrite (proj2 (Z.leb_le _ _)), (proj2 (Z.ltb_lt _ _)) by lia. cbn [andb].
  unfold byte_at. replace (o + i - o) with i by lia. by rewrite Hx.
Qed.

Context {ok : T -> Prop} {Hlaws : FATLaws T ok}.

(** The clusters that hang on the first one are a chain of a sound table. *)
Record chain_at (fuel : nat) (fs : FS) (first : Z) (clusters : list Z) : Prop := {
  ch_table : ok (table fs) /\ reserved (table fs);
  ch_fuel : (Z.to_nat (MaxCluster (table fs)) < fuel)%nat;
  ch_first : 0 <= first <= MaxCluster (table fs);
  ch_chain : exists l, clusters = first :: l /\ chain (table fs) clusters /\ Forall (fun x => 0 <= x) l
}.

Lemma chain_at_list fuel fs first clusters : chain_at fuel fs first clusters ->
  getClusterList fuel fs first = Ret clusters /\ 0 < len clusters < 2 ^ 62 /\ NoDup clusters.
Proof.
  intros [[Hok H0] Hf Hr (l & -> & Hl & Hpos)].
  pose proof (fat_max _ Hok). pose proof (chain_length _ _ _ Hok Hr Hl Hpos).
  split; [|split; [unfold len; cbn in *; lia|by apply (chain_NoDup (table fs))]].
  apply (getClusterList_chain (ok := ok)); try done.
  apply (chain_used (ok := ok) (table fs) (first :: l)); done || set_solver.
Qed.

Lemma chain_at_request fuel fs first clusters size n : chain_at fuel fs first clusters -> in_volume fs size clusters ->
  0 <= n < 2 ^ 62 -> request (ok := ok) fuel fs n first clusters.
Proof.
  intros [[Hok H0] Hf Hr (l & -> & Hl & Hpos)] Hv Hn. pose proof (iv_bpc _ _ _ Hv). split; [done|done|lia|done| |done]. right.
  pose proof (iv_clusters _ _ _ Hv) as Hc. apply Forall_cons in Hc as [[Hx _] _].
  split; [lia|]. split; [done|]. split; [done|]. constructor; [lia|done].
Qed.
End content.

Lemma clusters_for_le n b k : 0 < b -> clusters_for n b = k -> n <= k * b.
Proof. unfold clusters_for. intros Hb <-. pose proof (Z.div_mod (n + b - 1) b). pose proof (Z.mod_pos_bound (n + b - 1) b). lia. Qed.
