(* ===== verification/FatDirent.v ===== *)
(** * FatDirent: directory entries of the FAT file systems
    diskkit/filesystem/fat12/directoryentry.go: the 32-byte entries with their long
    file name slots, parsed and serialised; short names and their checksum. *)
From S2P Require Import Prelude Bytes Text GoTime.

(** The third-party package asciiset: the set of the bytes of a string. *)
Class AsciiSet := { set_contains : gostring -> Z -> bool }.
Class AsciiSetLaws `{AsciiSet} := {
  set_contains_spec chars c : ascii_ok chars -> set_contains chars c = true <-> c ∈ chars
}.

Definition charsPerSlot : Z := 13.
Definition bytesPerSlot : Z := 32.
Definition maxCharsLongFilename : Z := 13.

(** The valid characters of a short name. *)
Definition validChars : gostring := lit "!#$%&'()-0123456789@ABCDEFGHIJKLMNOPQRSTUVWXYZ^_`{}~".

(** Without [filesystem], a pointer back that no code of an entry follows. *)
Record directoryEntry := mkEntry {
  filenameShort : gostring; fileExtension : gostring; filenameLong : gostring;
  isReadOnly : bool; isHidden : bool; isSystem : bool; isVolumeLabel : bool;
  isSubdirectory : bool; isArchiveDirty : bool; isDevice : bool;
  lowercaseShortname : bool; lowercaseExtension : bool;
  createTime : time; modifyTime : time; accessTime : time;
  acccessRights : Z; clusterLocation : Z; fileSize : Z; longFilenameSlots : Z; isNew : bool
}.

#[global] Instance directoryEntry_eq_dec : EqDecision directoryEntry.
Proof. solve_decision. Defined.

(** [FileInfo], what [Info] and [Stat] return. *)
Record FileInfo := mkInfo { modTime : time; mode : Z; info_name : gostring; shortName : gostring; info_size : Z; isDir : bool }.

Definition FileInfo_Name (fi : FileInfo) : gostring := match info_name fi with [] => shortName fi | n => n end.

Section names.
Context `{UnicodeTables}.

Definition fullShortName (de : directoryEntry) : gostring :=
  let name := if lowercaseShortname de then to_lower (filenameShort de) else filenameShort de in
  let ext := if lowercaseExtension de then to_lower (fileExtension de) else fileExtension de in
  match ext with [] => name | _ => name ++ lit "." ++ ext end.

Definition nameMatches (de : directoryEntry) (name : gostring) : bool :=
  equal_fold (filenameLong de) name || equal_fold (fullShortName de) name.

Definition Info (de : directoryEntry) : FileInfo :=
  mkInfo (modifyTime de) 0 (filenameLong de) (fullShortName de) (fileSize de) (isSubdirectory de).

Definition Name (de : directoryEntry) : gostring :=
  match filenameLong de with [] => fullShortName de | n => n end.

(** [IsDir] and [Type], the methods of [fs.DirEntry]. *)
Definition IsDir (de : directoryEntry) : bool := isSubdirectory de.
Definition ModeDir : Z := 2 ^ 31.
Definition Type_ (de : directoryEntry) : Z := if isSubdirectory de then ModeDir else 0.
End names.

(** ** Short names *)

(** Bytes of a string whose characters fit in a byte. The loop runs over the length
    in bytes and indexes the runes. *)
Fixpoint ascii_loop (r : list Z) (i : Z) (n : nat) : go (list Z) :=
  match n with
  | O => mret []
  | S n' =>
      val ← index r i;
      if 255 <? val then Err (Errorf "non-ASCII character in name: %s")
      else b ← ascii_loop r (i + 1) n'; mret (u8 val :: b)
  end.
Definition stringToASCIIBytes (s : gostring) : go (list Z) := ascii_loop (runes s) 0 (length s).

Section valid.
Context `{AsciiSet}.

Definition stringToValidASCIIBytes (s : gostring) : go (list Z) :=
  b ← stringToASCIIBytes s;
  if forallb (set_contains validChars) b then mret b else Err (Errorf "invalid 8.3 character").

Definition checksum_step (sum b : Z) : Z :=
  u8 (u8 (Z.shiftl (Z.land sum 0x01) 7) + Z.shiftr sum 1 + b).

Definition lfnChecksum (name extension : gostring) : go Z :=
  r ← catch (stringToValidASCIIBytes name);
  match r with
  | inr _ => Err (Errorf "invalid shortname character in filename: %s")
  | inl nameBytes =>
      r ← catch (stringToValidASCIIBytes extension);
      match r with
      | inr _ => Err (Errorf "invalid shortname character in extension: %s")
      | inl extensionBytes =>
          if 8 <? len nameBytes then Err (Errorf "short name for file is longer than allowed 8 bytes: %s")
          else
            let nameBytes := nameBytes ++ spaces (8 - len nameBytes) in
            if 3 <? len extensionBytes then Err (Errorf "extension for file is longer than allowed 3 bytes: %s")
            else
              let extensionBytes := extensionBytes ++ spaces (3 - len extensionBytes) in
              mret (foldl checksum_step 0 (nameBytes ++ extensionBytes))
      end
  end.

(** Upper case, with only valid characters. *)
Fixpoint ucase_runes (r : list Z) : list Z :=
  match r with
  | [] => []
  | val :: r' =>
      if set_contains validChars (u8 val) then val :: ucase_runes r'
      else if within 0x61 0x7a val then val - 32 :: ucase_runes r'
      else if (val =? 32) || (val =? 46) then ucase_runes r'
      else 95 :: ucase_runes r'
  end.
Definition uCaseValid (name : gostring) : gostring := string_of_runes (ucase_runes (runes name)).

(** Short name, extension, whether a long name is needed, whether the short name was
    cut. *)
Definition convertLfnSfn (name : gostring) : gostring * gostring * bool * bool :=
  let lastDot := last_index 46 name in
  let rawExtension := if -1 <? lastDot then from name (lastDot + 1) else [] in
  let isLFN := 3 <? len rawExtension in
  let rawExtension := take 3 rawExtension in
  let extension := if -1 <? lastDot then uCaseValid rawExtension else [] in
  let isLFN := isLFN || negb (bool_decide (extension = rawExtension)) in
  let rawShortName := if -1 <? lastDot then name.[0, lastDot] else name in
  let shortName := uCaseValid rawShortName in
  let isLFN := isLFN || negb (bool_decide (rawShortName = shortName)) in
  if 8 <? len shortName then (shortName.[0, 6] ++ lit "~1", extension, true, true)
  else (shortName, extension, isLFN, false).

(** ** Long names *)

Definition calculateSlots (s : gostring) : Z :=
  let slots := len s / charsPerSlot in
  if negb (len s mod charsPerSlot =? 0) then slots + 1 else slots.

(** The two bytes of one character: the name, one terminator, then padding. *)
Definition lfn_char (r : list Z) (i : Z) : list Z :=
  if i =? len r then [0x00; 0x00]
  else if len r <? i then [0xff; 0xff]
  else let val := u16 (default 0 (r !! Z.to_nat i)) in [Z.land val 0x00ff; u8 (Z.shiftr val 8)].

Definition lfn_chars (r : list Z) (maxChars : Z) : list Z := seqZ 0 maxChars ≫= lfn_char r.

Definition lfn_slot (b2 : list Z) (checksum count : Z) : go (list Z) :=
  let offset := (count - 1) * (maxCharsLongFilename * 2) in
  p1 ← slice b2 offset (offset + 10);
  p2 ← slice b2 (offset + 10) (offset + 22);
  p3 ← slice b2 (offset + 22) (offset + 26);
  mret ([u8 count] ++ p1 ++ [0x0f; 0x00] ++ [checksum] ++ p2 ++ [0x00; 0x00] ++ p3).

(** [for count := slots; count > 0; count--]. *)
Fixpoint lfn_slots (b2 : list Z) (checksum : Z) (count : nat) : go (list Z) :=
  match count with
  | O => mret []
  | S n => s ← lfn_slot b2 checksum (Z.of_nat count); rest ← lfn_slots b2 checksum n; mret (s ++ rest)
  end.

Definition longFilenameBytes (s shortName extension : gostring) : go (list Z) :=
  r ← catch (lfnChecksum shortName extension);
  match r with
  | inr _ => Err (Errorf "could not calculate checksum for 8.3 filename: %v")
  | inl checksum =>
      let slots := calculateSlots s in
      let b2 := lfn_chars (runes s) (slots * maxCharsLongFilename) in
      b ← lfn_slots b2 checksum (Z.to_nat slots);
      x ← index b 0;
      store b 0 (Z.lor x 0x40)
  end.

(** The characters of one slot, up to the terminator. *)
Fixpoint slot_runes (b2 : list Z) (n : nat) : list Z :=
  match n, b2 with
  | S n', lo :: hi :: rest =>
      let val := u16 (u16 (Z.shiftl hi 8) + lo) in
      if val =? 0 then [] else val :: slot_runes rest n'
  | _, _ => []
  end.

Definition longFilenameEntryFromBytes (b : list Z) : go gostring :=
  if negb (len b =? 32) then Err (Errorf "longFilenameEntryFromBytes only can parse byte of length 32, not %d")
  else
    p1 ← slice b 1 11;
    p2 ← slice b 14 26;
    p3 ← slice b 28 32;
    mret (string_of_runes (slot_runes (p1 ++ p2 ++ p3) (Z.to_nat maxCharsLongFilename))).

(** ** Entries *)

(** [b[i] |= mask] and [b[i] &= ^mask]. *)
Definition set_mask (on : bool) (b : list Z) (i mask : Z) : go (list Z) :=
  x ← index b i; store b i (if on then Z.lor x mask else Z.land x (255 - mask)).
Definition or_mask (on : bool) (b : list Z) (i mask : Z) : go (list Z) :=
  if on then x ← index b i; store b i (Z.lor x mask) else mret b.

Definition dos_bytes (de : directoryEntry) : go (list Z) :=
  b ← make 0 1 bytesPerSlot;
  let '(createDate, createTime) := timeToDateTime (createTime de) in
  let '(modifyDate, modifyTime) := timeToDateTime (modifyTime de) in
  let '(accessDate, _) := timeToDateTime (accessTime de) in
  b ← set_mask (isSystem de) b 11 0x04;
  b ← set_mask (isHidden de) b 11 0x02;
  b ← set_mask (isReadOnly de) b 11 0x01;
  b ← put_word b 14 16 (put_le 2 createTime);
  b ← put_word b 16 18 (put_le 2 createDate);
  b ← put_word b 18 20 (put_le 2 accessDate);
  b ← put_word b 22 24 (put_le 2 modifyTime);
  b ← put_word b 24 26 (put_le 2 modifyDate);
  r ← catch (stringToASCIIBytes (pad_right 8 (filenameShort de)));
  match r with
  | inr _ => Err (Errorf "error converting short filename to bytes: %v")
  | inl shortName =>
      r ← catch (stringToASCIIBytes (pad_right 3 (fileExtension de)));
      match r with
      | inr _ => Err (Errorf "error converting file extension to bytes: %v")
      | inl extension =>
          b ← copy_at b 0 8 shortName;
          b ← copy_at b 8 11 extension;
          b ← put_word b 28 32 (put_le 4 (fileSize de));
          let loc := put_le 4 (clusterLocation de) in
          b ← store b 26 (byte_at loc 0);
          b ← store b 27 (byte_at loc 1);
          b ← store b 20 (byte_at loc 2);
          b ← store b 21 (byte_at loc 3);
          b ← or_mask (isVolumeLabel de) b 11 0x08;
          b ← or_mask (isSubdirectory de) b 11 0x10;
          b ← or_mask (isArchiveDirty de) b 11 0x20;
          b ← or_mask (lowercaseExtension de) b 12 0x10;
          or_mask (lowercaseShortname de) b 12 0x08
      end
  end.

Definition toBytes (de : directoryEntry) : go (list Z) :=
  match filenameLong de with
  | [] => dos_bytes de
  | long =>
      r ← catch (longFilenameBytes long (filenameShort de) (fileExtension de));
      match r with
      | inr _ => Err (Errorf "could not convert long filename to directory entries: %v")
      | inl lfnBytes => dos ← dos_bytes de; mret (lfnBytes ++ dos)
      end
  end.

Definition bit_set (x mask : Z) : bool := Z.land x mask =? mask.

(** One entry that is no part of a long name. The source's [append] of the two halves
    of the cluster number overwrites bytes 28 and 29 of the buffer, after the file size
    was read from them; nothing reads them again. *)
Definition parse_entry (b : list Z) (i : Z) (lfn : gostring) : go directoryEntry :=
  attr ← index b (i + 11);
  createTime ← get_le 2 b (i + 14) (i + 16);
  createDate ← get_le 2 b (i + 16) (i + 18);
  accessDate ← get_le 2 b (i + 18) (i + 20);
  modifyTime ← get_le 2 b (i + 22) (i + 24);
  modifyDate ← get_le 2 b (i + 24) (i + 26);
  sfn ← slice b i (i + 8);
  extension ← slice b (i + 8) (i + 11);
  case ← index b (i + 12);
  fileSize ← get_le 4 b (i + 28) (i + 32);
  lo ← slice b (i + 26) (i + 28);
  hi ← slice b (i + 20) (i + 22);
  mret (mkEntry (trim_spaces sfn) (trim_spaces extension) lfn
    (bit_set attr 0x01) (bit_set attr 0x02) (bit_set attr 0x04) (bit_set attr 0x08) (bit_set attr 0x10) (bit_set attr 0x20) false
    (bit_set case 0x08) (bit_set case 0x10)
    (dateTimeToTime createDate createTime) (dateTimeToTime modifyDate modifyTime) (dateTimeToTime accessDate 0)
    0 (LE (lo ++ hi)) fileSize (calculateSlots lfn) false).

(** One round of the loop over the slots: the position, the long name collected so
    far, the entries found. *)
Definition parse_slot (b : list Z) (s : Z * gostring * list directoryEntry) :
    go ((Z * gostring * list directoryEntry) + list directoryEntry) :=
  let '(i, lfn, dirEntries) := s in
  if i <? len b then
    first ← index b i;
    if first =? 0 then mret (inr dirEntries)
    else if first =? 0xe5 then mret (inl (i + 32, lfn, dirEntries))
    else
      attr ← index b (i + 11);
      if attr =? 0x0f then
        let lfn := if bit_set first 0x40 then [] else lfn in
        q ← slice b i (i + 32);
        r ← catch (longFilenameEntryFromBytes q);
        match r with
        | inr _ => Err (Errorf "error parsing long filename at position %d: %v")
        | inl tmpLfn => mret (inl (i + 32, tmpLfn ++ lfn, dirEntries))
        end
      else
        entry ← parse_entry b i lfn;
        mret (inl (i + 32, [], dirEntries ++ [entry]))
  else mret (inr dirEntries).

Definition parseDirEntries (b : list Z) : go (list directoryEntry) :=
  go_for (S (length b)) (parse_slot b) (0, [], []).
End valid.

(** ** What an entry keeps on disk *)

(** Timestamps have the resolution and range of the packed fields, an access time its
    date only; what the entry format has no room for is reset. *)
Definition stored_time (t : time) : time := let '(d, c) := timeToDateTime t in dateTimeToTime d c.
Definition stored_date (t : time) : time := let '(d, _) := timeToDateTime t in dateTimeToTime d 0.

Definition stored (e : directoryEntry) : directoryEntry :=
  mkEntry (filenameShort e) (fileExtension e) (filenameLong e)
    (isReadOnly e) (isHidden e) (isSystem e) (isVolumeLabel e) (isSubdirectory e) (isArchiveDirty e) false
    (lowercaseShortname e) (lowercaseExtension e)
    (stored_time (createTime e)) (stored_time (modifyTime e)) (stored_date (accessTime e))
    0 (clusterLocation e) (fileSize e) (calculateSlots (filenameLong e)) false.

(** Names the format can hold. [0x0f] as attribute byte is the mark of a long name. *)
Record short_ok (e : directoryEntry) : Prop := {
  so_name : ascii_ok (filenameShort e) /\ no_trailing_space (filenameShort e) /\ 1 <= len (filenameShort e) <= 8;
  so_first : head (filenameShort e) <> Some 0;
  so_ext : ascii_ok (fileExtension e) /\ no_trailing_space (fileExtension e) /\ len (fileExtension e) <= 3;
  so_attr : isReadOnly e && isHidden e && isSystem e && isVolumeLabel e && negb (isSubdirectory e) && negb (isArchiveDirty e) = false;
  so_cluster : 0 <= clusterLocation e < 2 ^ 32;
  so_size : 0 <= fileSize e < 2 ^ 32
}.

Definition long_ok (e : directoryEntry) : Prop := filenameLong e = [] \/
  (Forall (fun c => 0 < c < 0x80) (filenameLong e) /\ len (filenameLong e) <= 63 * 13 /\
   Forall (.∈ validChars) (filenameShort e) /\ Forall (.∈ validChars) (fileExtension e)).

(** ** The 32 bytes of an entry *)

Lemma ascii_loop_ok r : forall i n, Forall is_byte r -> 0 <= i -> i + Z.of_nat n = len r ->
  ascii_loop r i n = Ret (from r i).
Proof.
  intros i n. revert i. induction n as [|n IH]; intros i Hr Hi Hl; cbn [ascii_loop].
  - unfold from. by rewrite drop_ge by (unfold len in Hl; lia).
  - destruct (index_ok r i) as (x & Hx & ->); [lia|]. cbn [mbind go_bind].
    rewrite Forall_lookup in Hr. pose proof (Hr _ _ Hx) as Hb. unfold is_byte in Hb. rewrite <-Forall_lookup in Hr.
    rewrite (proj2 (Z.ltb_ge _ _)) by lia. rewrite IH by (done || lia). cbn. rewrite wrap_u_id by (change (2 ^ 8) with 256; lia).
    f_equal. unfold from. rewrite (drop_S _ _ _ Hx). do 2 f_equal. lia.
Qed.

Lemma stringToASCIIBytes_ascii s : ascii_ok s -> stringToASCIIBytes s = Ret s.
Proof.
  intros Hs. unfold stringToASCIIBytes. rewrite runes_ascii by done. rewrite ascii_loop_ok; [done|by apply ascii_bytes|lia|unfold len; lia].
Qed.

Lemma pad_right_ascii n s : ascii_ok s -> ascii_ok (pad_right n s).
Proof. intros. unfold pad_right, spaces. apply Forall_app_2; [done|]. apply Forall_replicate. unfold is_ascii. lia. Qed.

Lemma or_mask_eq on b i m : 0 <= i < len b -> or_mask on b i m = store b i (if on then Z.lor (byte_at b i) m else byte_at b i).
Proof.
  intros Hi. unfold or_mask. destruct on; [by rewrite index_byte_at|]. rewrite store_ok by done. unfold mret, go_ret. f_equal.
  symmetry. unfold byte_at. destruct (index_ok b i Hi) as (x & Hx & _). rewrite Hx. by apply list_insert_id.
Qed.

Definition attr_byte (e : directoryEntry) : Z :=
  let x := if isSystem e then Z.lor 0 0x04 else Z.land 0 (255 - 0x04) in
  let x := if isHidden e then Z.lor x 0x02 else Z.land x (255 - 0x02) in
  let x := if isReadOnly e then Z.lor x 0x01 else Z.land x (255 - 0x01) in
  let x := if isVolumeLabel e then Z.lor x 0x08 else x in
  let x := if isSubdirectory e then Z.lor x 0x10 else x in
  if isArchiveDirty e then Z.lor x 0x20 else x.
Definition case_byte (e : directoryEntry) : Z :=
  let x := if lowercaseExtension e then Z.lor 0 0x10 else 0 in
  if lowercaseShortname e then Z.lor x 0x08 else x.

(** The layout of the 8.3 entry. *)
Definition dos_layout (name ext : list Z) (e : directoryEntry) : list Z :=
  let '(createDate, createTime) := timeToDateTime (createTime e) in
  let '(modifyDate, modifyTime) := timeToDateTime (modifyTime e) in
  let '(accessDate, _) := timeToDateTime (accessTime e) in
  let loc := put_le 4 (clusterLocation e) in
  name ++ ext ++ [attr_byte e; case_byte e; 0] ++ put_le 2 createTime ++ put_le 2 createDate ++ put_le 2 accessDate ++
  from loc 2 ++ put_le 2 modifyTime ++ put_le 2 modifyDate ++ take 2 loc ++ put_le 4 (fileSize e).

Lemma list_of_length_8 (l : list Z) : len l = 8 -> exists a b c d e f g h, l = [a; b; c; d; e; f; g; h].
Proof. intros H. do 8 (destruct l as [|? l]; [done|]). destruct l; [|unfold len in H; cbn in H; lia]. by eexists _, _, _, _, _, _, _, _. Qed.
Lemma list_of_length_3 (l : list Z) : len l = 3 -> exists a b c, l = [a; b; c].
Proof. intros H. do 3 (destruct l as [|? l]; [done|]). destruct l; [|unfold len in H; cbn in H; lia]. by eexists _, _, _. Qed.

Lemma dos_bytes_layout e : short_ok e ->
  dos_bytes e = Ret (dos_layout (pad_right 8 (filenameShort e)) (pad_right 3 (fileExtension e)) e).
Proof.
  intros [(Ha & _ & Hl) _ (Hea & _ & Hel) _ _ _]. unfold dos_bytes, dos_layout.
  rewrite (stringToASCIIBytes_ascii (pad_right 8 _)) by (by apply pad_right_ascii).
  rewrite (stringToASCIIBytes_ascii (pad_right 3 _)) by (by apply pad_right_ascii).
  destruct (list_of_length_8 (pad_right 8 (filenameShort e))) as (n1 & n2 & n3 & n4 & n5 & n6 & n7 & n8 & ->); [apply len_pad_right; [done|lia]|].
  destruct (list_of_length_3 (pad_right 3 (fileExtension e))) as (x1 & x2 & x3 & ->); [apply len_pad_right; [done|lia]|].
  destruct (timeToDateTime (createTime e)) as [cd ct], (timeToDateTime (modifyTime e)) as [md mt], (timeToDateTime (accessTime e)) as [ad at_].
  rewrite make_ok by (unfold maxAlloc, bytesPerSlot; lia). cbn [mbind go_bind catch].
  unfold attr_byte, case_byte. 
  destruct (isVolumeLabel e), (isSubdirectory e), (isArchiveDirty e), (lowercaseExtension e), (lowercaseShortname e); reflexivity.
Qed.

(** Parsing depends on the 32 bytes at the position only. *)
Section window.
Context (pre d post : list Z).

Lemma window_index k : 0 <= k < len d -> index (pre ++ d ++ post) (len pre + k) = index d k.
Proof.
  intros Hk. pose proof (len_nonneg pre). unfold index. rewrite !(proj2 (Z.ltb_ge _ _)) by lia.
  unfold len in *. rewrite lookup_app_r by lia. rewrite lookup_app_l by lia. by replace (Z.to_nat _ - _)%nat with (Z.to_nat k) by lia.
Qed.

Lemma window_slice lo hi : 0 <= lo <= hi -> hi <= len d -> slice (pre ++ d ++ post) (len pre + lo) (len pre + hi) = slice d lo hi.
Proof.
  intros Hlo Hhi. pose proof (len_nonneg pre). pose proof (len_nonneg post). rewrite !slice_ok by (rewrite ?len_app; lia). f_equal.
  unfold sub. rewrite drop_app_ge by (unfold len; lia). replace (Z.to_nat (len pre + lo) - length pre)%nat with (Z.to_nat lo) by (unfold len; lia).
  rewrite drop_app_le by (unfold len in *; lia). rewrite take_app_le by (rewrite length_drop; unfold len in *; lia). f_equal. lia.
Qed.

Lemma window_slice_0 hi : 0 <= hi <= len d -> slice (pre ++ d ++ post) (len pre) (len pre + hi) = slice d 0 hi.
Proof. intros. rewrite <-window_slice by lia. by rewrite Z.add_0_r. Qed.

Lemma window_word read n lo hi : 0 <= lo <= hi -> hi <= len d ->
  get_word read n (pre ++ d ++ post) (len pre + lo) (len pre + hi) = get_word read n d lo hi.
Proof. intros. unfold get_word. by rewrite window_slice. Qed.
End window.

Lemma parse_entry_window pre d post lfn : len d = 32 -> parse_entry (pre ++ d ++ post) (len pre) lfn = parse_entry d 0 lfn.
Proof.
  intros Hd. unfold parse_entry. rewrite !window_word, !window_index by lia.
  rewrite window_slice_0, !window_slice by lia. done.
Qed.

Lemma parse_dos name ext attr case ct cd ad mt md c size lfn : len name = 8 -> len ext = 3 ->
  parse_entry (name ++ ext ++ [attr; case; 0] ++ put_le 2 ct ++ put_le 2 cd ++ put_le 2 ad ++ from (put_le 4 c) 2 ++
    put_le 2 mt ++ put_le 2 md ++ take 2 (put_le 4 c) ++ put_le 4 size) 0 lfn =
  Ret (mkEntry (trim_spaces name) (trim_spaces ext) lfn
    (bit_set attr 0x01) (bit_set attr 0x02) (bit_set attr 0x04) (bit_set attr 0x08) (bit_set attr 0x10) (bit_set attr 0x20) false
    (bit_set case 0x08) (bit_set case 0x10)
    (dateTimeToTime (LE (put_le 2 cd)) (LE (put_le 2 ct))) (dateTimeToTime (LE (put_le 2 md)) (LE (put_le 2 mt)))
    (dateTimeToTime (LE (put_le 2 ad)) 0) 0 (LE (put_le 4 c)) (LE (put_le 4 size)) (calculateSlots lfn) false).
Proof.
  intros Hn Hx. destruct (list_of_length_8 name Hn) as (n1 & n2 & n3 & n4 & n5 & n6 & n7 & n8 & ->).
  destruct (list_of_length_3 ext Hx) as (x1 & x2 & x3 & ->). reflexivity.
Qed.

Lemma timeToDateTime_range t : 0 <= (timeToDateTime t).1 < 2 ^ 16 /\ 0 <= (timeToDateTime t).2 < 2 ^ 16.
Proof. unfold timeToDateTime. cbn [fst snd]. split; apply wrap_u_range; lia. Qed.

Lemma len_dos_layout name ext e : len name = 8 -> len ext = 3 -> len (dos_layout name ext e) = 32.
Proof.
  intros Hn Hx. unfold dos_layout. destruct (timeToDateTime (createTime e)), (timeToDateTime (modifyTime e)), (timeToDateTime (accessTime e)).
  rewrite !len_app, Hn, Hx, !len_put_le. done.
Qed.

(** An 8.3 entry that was written is read back. *)
Lemma parse_written_entry e pre post lfn : short_ok e -> lfn = filenameLong e ->
  parse_entry (pre ++ dos_layout (pad_right 8 (filenameShort e)) (pad_right 3 (fileExtension e)) e ++ post) (len pre) lfn =
  Ret (stored e).
Proof.
  intros [(Ha & Hs & Hl) _ (Hea & Hes & Hel) _ Hc Hz] ->.
  assert (len (pad_right 8 (filenameShort e)) = 8) as H8 by (apply len_pad_right; done || lia).
  assert (len (pad_right 3 (fileExtension e)) = 3) as H3 by (apply len_pad_right; done || lia).
  rewrite parse_entry_window by (by apply len_dos_layout). unfold dos_layout, stored, stored_time, stored_date.
  pose proof (timeToDateTime_range (createTime e)). pose proof (timeToDateTime_range (modifyTime e)). pose proof (timeToDateTime_range (accessTime e)).
  destruct (timeToDateTime (createTime e)) as [cd ct], (timeToDateTime (modifyTime e)) as [md mt], (timeToDateTime (accessTime e)) as [ad at_].
  cbn [fst snd] in *. rewrite parse_dos by done. rewrite !trim_pad by done. rewrite !LE_put_le.
  change (256 ^ Z.of_nat 4) with (2 ^ 32). change (256 ^ Z.of_nat 2) with (2 ^ 16). rewrite !Z.mod_small by lia.
  assert (bit_set (attr_byte e) 0x01 = isReadOnly e /\ bit_set (attr_byte e) 0x02 = isHidden e /\
    bit_set (attr_byte e) 0x04 = isSystem e /\ bit_set (attr_byte e) 0x08 = isVolumeLabel e /\
    bit_set (attr_byte e) 0x10 = isSubdirectory e /\ bit_set (attr_byte e) 0x20 = isArchiveDirty e) as (-> & -> & -> & -> & -> & ->).
  { unfold attr_byte. by destruct (isReadOnly e), (isHidden e), (isSystem e), (isVolumeLabel e), (isSubdirectory e), (isArchiveDirty e). }
  assert (bit_set (case_byte e) 0x08 = lowercaseShortname e /\ bit_set (case_byte e) 0x10 = lowercaseExtension e) as (-> & ->).
  { unfold case_byte. by destruct (lowercaseShortname e), (lowercaseExtension e). }
  done.
Qed.

(** ** Long names *)

Definition lfn_name (s : gostring) : Prop := Forall (fun c => 0 < c < 0x80) s.

Lemma lfn_name_ascii s : lfn_name s -> ascii_ok s.
Proof. intros Hs. eapply Forall_impl; [exact Hs|]. unfold is_ascii. lia. Qed.

Lemma len_lfn_char r i : length (lfn_char r i) = 2%nat.
Proof. unfold lfn_char. by repeat destruct_if. Qed.

Lemma len_lfn_range r a n : length (seqZ a n ≫= lfn_char r) = (2 * Z.to_nat n)%nat.
Proof.
  assert (forall k a, length (seqZ a (Z.of_nat k) ≫= lfn_char r) = (2 * k)%nat) as Hk.
  { clear a n. intros k. induction k as [|k IH]; intros a; [by rewrite seqZ_nil|].
    rewrite seqZ_cons by lia. rewrite bind_cons, length_app, len_lfn_char. replace (Z.pred _) with (Z.of_nat k) by lia. rewrite IH. lia. }
  destruct (Z.leb_spec 0 n); [|rewrite seqZ_nil by lia; by replace (Z.to_nat n) with 0%nat by lia].
  by rewrite <-(Hk _ a), Z2Nat.id by lia.
Qed.

(** The characters of a range of positions, cut out of all of them. *)
Lemma lfn_chars_sub r m a n : 0 <= a -> 0 <= n -> a + n <= m ->
  (lfn_chars r m).[2 * a, 2 * (a + n)] = seqZ a n ≫= lfn_char r.
Proof.
  intros Ha Hn Hm. unfold lfn_chars. replace m with (a + (n + (m - a - n))) by lia.
  rewrite seqZ_app, seqZ_app, !bind_app by lia. rewrite Z.add_0_l. unfold sub.
  rewrite drop_app_ge by (rewrite len_lfn_range; lia). rewrite len_lfn_range. replace (Z.to_nat (2 * a) - _)%nat with 0%nat by lia.
  rewrite drop_0, take_app_le by (rewrite len_lfn_range; lia). apply take_ge. rewrite len_lfn_range. lia.
Qed.

Lemma lfn_char_below s i c : lfn_name s -> 0 <= i -> s !! Z.to_nat i = Some c ->
  lfn_char s i = [c; 0] /\ 0 < c < 0x80.
Proof.
  intros Hs Hi Hc. pose proof (lookup_lt_Some _ _ _ Hc) as Hlt. unfold lfn_name in Hs. rewrite Forall_lookup in Hs. pose proof (Hs _ _ Hc) as Hr.
  split; [|done]. unfold lfn_char. rewrite (proj2 (Z.eqb_neq _ _)), (proj2 (Z.ltb_ge _ _)) by (unfold len; lia). rewrite Hc. cbn [default].
  change (id c) with c. rewrite wrap_u_id by (change (2 ^ 16) with 65536; lia).
  change 0x00ff with (2 ^ 8 - 1). rewrite land_mask by lia. change (2 ^ 8) with 256. rewrite Z.mod_small by lia.
  rewrite Z.shiftr_div_pow2 by lia. change (2 ^ 8) with 256. by rewrite Z.div_small by lia.
Qed.

(** Reading a slot back: the characters up to the end of the name. *)
Lemma slot_runes_chars s : lfn_name s -> forall n a, 0 <= a <= len s ->
  slot_runes (seqZ a (Z.of_nat n) ≫= lfn_char s) n = take n (from s a).
Proof.
  intros Hs n. induction n as [|n IH]; intros a Ha; [by destruct (_ ≫= _)|].
  rewrite seqZ_cons by lia. replace (Z.pred (Z.of_nat (S n))) with (Z.of_nat n) by lia. rewrite bind_cons.
  destruct (s !! Z.to_nat a) as [c|] eqn:Hc.
  - destruct (lfn_char_below s a c Hs ltac:(lia) Hc) as [-> Hr]. pose proof (lookup_lt_Some _ _ _ Hc). cbn [app slot_runes].
    assert (u16 (u16 (Z.shiftl 0 8) + c) = c) as -> by (rewrite Z.shiftl_0_l; change (u16 0) with 0; rewrite Z.add_0_l, wrap_u_id; [done|change (2 ^ 16) with 65536; lia]).
    rewrite (proj2 (Z.eqb_neq _ _)) by lia. change (Z.succ a) with (a + 1). rewrite IH by (unfold len; lia).
    unfold from. rewrite (drop_S _ _ _ Hc). cbn [take]. do 3 f_equal. lia.
  - apply lookup_ge_None_1 in Hc. assert (a = len s) as -> by (unfold len in *; lia).
    unfold lfn_char at 1. rewrite Z.eqb_refl. cbn [app slot_runes]. cbn. unfold from. by rewrite drop_ge by (unfold len; lia).
Qed.

Lemma calculateSlots_bounds s : s <> [] -> 1 <= calculateSlots s /\ 13 * (calculateSlots s - 1) < len s <= 13 * calculateSlots s.
Proof.
  intros Hs. assert (0 < len s) by (destruct s; [done|unfold len; cbn; lia]). unfold calculateSlots, charsPerSlot.
  pose proof (Z.div_mod (len s) 13). pose proof (Z.mod_pos_bound (len s) 13). destruct (Z.eqb_spec (len s mod 13) 0); cbn [negb]; lia.
Qed.

(** One slot: number, five characters, the mark of a long name, six characters, two. *)
Lemma lfn_slot_ok r slots checksum count : 1 <= count <= slots -> exists p1 p2 p3,
  lfn_slot (lfn_chars r (slots * 13)) checksum count =
    Ret ([u8 count] ++ p1 ++ [0x0f; 0x00] ++ [checksum] ++ p2 ++ [0x00; 0x00] ++ p3) /\
  len p1 = 10 /\ len p2 = 12 /\ len p3 = 4 /\ p1 ++ p2 ++ p3 = seqZ (13 * (count - 1)) 13 ≫= lfn_char r.
Proof.
  intros Hc. set (b2 := lfn_chars r (slots * 13)).
  assert (len b2 = 26 * slots) as Hl by (unfold b2, lfn_chars, len; rewrite len_lfn_range; lia).
  unfold lfn_slot, maxCharsLongFilename. set (o := (count - 1) * (13 * 2)).
  rewrite !slice_ok by lia. eexists _, _, _. split; [done|]. rewrite !len_sub by lia. split_and!; [lia..|].
  rewrite (sub_cat b2 (o + 10)), sub_cat by lia. unfold b2. rewrite <-(lfn_chars_sub r (slots * 13)) by lia. f_equal; lia.
Qed.

(** ** Reading a sequence of slots *)

Section slots.
Context `{AsciiSetLaws}.

Lemma go_for_next {St R} fuel (body : St -> go (St + R)) s s' : body s = Ret (inl s') -> go_for (S fuel) body s = go_for fuel body s'.
Proof. intros E. cbn [go_for]. by rewrite E. Qed.

Definition slot_bytes (first ck : Z) (p1 p2 p3 : list Z) : list Z :=
  [first] ++ p1 ++ [0x0f; 0x00] ++ [ck] ++ p2 ++ [0x00; 0x00] ++ p3.

Lemma parse_lfn_slot pre first ck p1 p2 p3 post lfn es :
  len p1 = 10 -> len p2 = 12 -> len p3 = 4 -> first <> 0 -> first <> 0xe5 ->
  parse_slot (pre ++ slot_bytes first ck p1 p2 p3 ++ post) (len pre, lfn, es) =
  Ret (inl (len pre + 32, string_of_runes (slot_runes (p1 ++ p2 ++ p3) 13) ++ (if bit_set first 0x40 then [] else lfn), es)).
Proof.
  intros H1 H2 H3 Hf0 Hfe. set (d := slot_bytes first ck p1 p2 p3).
  assert (len d = 32) as Hd by (unfold d, slot_bytes; rewrite !len_app, H1, H2, H3; done).
  pose proof (len_nonneg pre). pose proof (len_nonneg post). unfold parse_slot.
  rewrite (proj2 (Z.ltb_lt _ _)) by (rewrite !len_app; lia).
  assert (index (pre ++ d ++ post) (len pre) = Ret first) as ->.
  { rewrite <-(Z.add_0_r (len pre)). rewrite window_index by lia. done. }
  cbn [mbind go_bind]. rewrite (proj2 (Z.eqb_neq _ _) Hf0), (proj2 (Z.eqb_neq _ _) Hfe).
  assert (d = ([first] ++ p1) ++ [0x0f] ++ ([0x00] ++ [ck] ++ p2 ++ [0x00; 0x00] ++ p3)) as Ed.
  { unfold d, slot_bytes. rewrite <-!(assoc app). done. }
  assert (index d 11 = Ret 0x0f) as E11.
  { rewrite Ed. replace 11 with (len ([first] ++ p1) + 0) by (rewrite len_app, H1; done). by rewrite window_index. }
  rewrite window_index, E11 by lia. cbn [mbind go_bind]. rewrite Z.eqb_refl.
  rewrite window_slice_0 by lia. replace 32 with (len d) at 1. rewrite slice_ok by lia. rewrite sub_full. cbn [mbind go_bind].
  unfold longFilenameEntryFromBytes. rewrite Hd, Z.eqb_refl. cbn [negb].
  rewrite !slice_ok by lia. cbn [mbind go_bind catch mret go_ret].
  assert (d.[1, 11] = p1) as -> by (apply sub_mid; rewrite ?H1; done).
  assert (d.[14, 26] = p2) as ->.
  { unfold d, slot_bytes. rewrite !(assoc app), <-(assoc app _ [0x00; 0x00] p3), <-(assoc app _ p2).
    apply sub_mid; rewrite ?len_app, ?H1, ?H2; done. }
  assert (d.[28, 32] = p3) as ->.
  { unfold d, slot_bytes. rewrite !(assoc app). rewrite <-(app_nil_r p3) at 1. apply sub_mid; rewrite ?len_app, ?H1, ?H2, ?H3; done. }
  done.
Qed.

(** The slots of a name from number [n] down to 1, when the characters after them have
    been read. *)
Lemma run_slots s slots ck n : lfn_name s -> s <> [] -> slots = calculateSlots s -> Z.of_nat n <= slots <= 63 -> exists B,
  lfn_slots (lfn_chars s (slots * 13)) ck n = Ret B /\ len B = 32 * Z.of_nat n /\
  forall pre post fuel es, Z.of_nat n < slots ->
    go_for (n + fuel) (parse_slot (pre ++ B ++ post)) (len pre, from s (13 * Z.of_nat n), es) =
    go_for fuel (parse_slot (pre ++ B ++ post)) (len pre + 32 * Z.of_nat n, s, es).
Proof.
  intros Hs Hne Hslots. destruct (calculateSlots_bounds s Hne) as [Hs1 Hs2]. rewrite <-Hslots in *.
  induction n as [|n IH]; intros Hn.
  { exists []. split_and!; [done|done|]. intros. cbn. by rewrite Z.add_0_r. }
  destruct IH as (B & HB & HBl & Hrun); [lia|]. cbn [lfn_slots].
  destruct (lfn_slot_ok s slots ck (Z.of_nat (S n))) as (p1 & p2 & p3 & -> & H1 & H2 & H3 & Hp); [lia|].
  cbn [mbind go_bind]. rewrite HB. cbn [mbind go_bind mret go_ret]. eexists. split; [done|].
  set (d := [u8 _] ++ _).
  assert (d = slot_bytes (Z.of_nat (S n)) ck p1 p2 p3) as Ed.
  { unfold d, slot_bytes. rewrite wrap_u_id by (change (2 ^ 8) with 256; lia). done. }
  assert (len d = 32) as Hd by (rewrite Ed; unfold slot_bytes; rewrite !len_app, H1, H2, H3; done).
  split; [rewrite len_app; lia|]. intros pre post fuel es Hlt.
  replace (S n + fuel)%nat with (S (n + fuel))%nat by lia. rewrite <-(assoc app d).
  rewrite Ed. erewrite go_for_next by (apply parse_lfn_slot; done || lia). rewrite <-Ed.
  assert (bit_set (Z.of_nat (S n)) 0x40 = false) as ->.
  { unfold bit_set. apply Z.eqb_neq. change 0x40 with (2 ^ 6). intros E. assert (Z.testbit (Z.of_nat (S n)) 6 = false) as Ht by (apply (testbit_high 6); lia).
    assert (Z.land (Z.of_nat (S n)) (2 ^ 6) = 0) as E'; [|rewrite E' in E; done].
    apply Z.eqb_eq. rewrite land_bit by lia. by rewrite Ht. }
  rewrite Hp, (slot_runes_chars s Hs 13) by lia. rewrite string_of_ascii by (apply Forall_take, Forall_drop, lfn_name_ascii; done).
  assert (take 13 (from s (13 * (Z.of_nat (S n) - 1))) ++ from s (13 * Z.of_nat (S n)) = from s (13 * Z.of_nat n)) as ->.
  { unfold from. replace (Z.to_nat (13 * Z.of_nat (S n))) with (Z.to_nat (13 * (Z.of_nat (S n) - 1)) + 13)%nat by lia.
    rewrite <-drop_drop, take_drop. f_equal. lia. }
  specialize (Hrun (pre ++ d) post fuel es ltac:(lia)). rewrite <-(assoc app pre) in Hrun.
  replace (len pre + 32) with (len (pre ++ d)) by (rewrite len_app; lia). rewrite Hrun. f_equal. do 2 f_equal. rewrite len_app. lia.
Qed.
(** The first slot written carries the number of slots and the bit that starts a name. *)
Lemma first_number n : 1 <= n <= 63 -> Z.lor n 0x40 = n + 64 /\ bit_set (n + 64) 0x40 = true.
Proof.
  intros Hn. assert (Z.lor n 0x40 = n + 64) as E.
  { change (Z.lor n 0x40) with (Z.lor n (Z.shiftl 1 6)). rewrite lor_shiftl_add by lia. lia. }
  split; [done|]. rewrite <-E. unfold bit_set. apply Z.eqb_eq. apply Z.bits_inj'. intros i Hi. rewrite Z.land_spec, Z.lor_spec.
  destruct (Z.testbit 64 i); [by rewrite orb_true_r|by rewrite andb_false_r].
Qed.

Lemma store_head {A} (x y : A) l : store (x :: l) 0 y = Ret (y :: l).
Proof. reflexivity. Qed.

Lemma checksum_valid name ext : ascii_ok name -> ascii_ok ext -> len name <= 8 -> len ext <= 3 ->
  Forall (.∈ validChars) name -> Forall (.∈ validChars) ext -> exists ck, lfnChecksum name ext = Ret ck.
Proof using All.
  intros Hn He Hln Hle Hvn Hve.
  assert (forall s, ascii_ok s -> Forall (.∈ validChars) s -> stringToValidASCIIBytes s = Ret s) as Hv.
  { intros s Hs Hc. unfold stringToValidASCIIBytes. rewrite stringToASCIIBytes_ascii by done. cbn [mbind go_bind].
    assert (forallb (set_contains validChars) s = true) as ->; [|done]. apply forallb_forall. intros x Hx. apply list_elem_of_In in Hx.
    apply set_contains_spec; [repeat constructor; done|]. rewrite Forall_forall in Hc. by apply Hc. }
  unfold lfnChecksum. rewrite !Hv by done. cbn [catch mbind go_bind]. rewrite !(proj2 (Z.ltb_ge _ _)) by lia. eauto.
Qed.

Lemma parse_dos_slot e pre post es : short_ok e -> let d := dos_layout (pad_right 8 (filenameShort e)) (pad_right 3 (fileExtension e)) e in
  parse_slot (pre ++ d ++ post) (len pre, filenameLong e, es) = Ret (inl (len pre + 32, [], es ++ [stored e])).
Proof.
  intros Hok d. pose proof Hok as [(Ha & _ & Hl) Hf (Hea & _ & Hel) Hat _ _].
  assert (len (pad_right 8 (filenameShort e)) = 8) as H8 by (apply len_pad_right; done || lia).
  assert (len (pad_right 3 (fileExtension e)) = 3) as H3 by (apply len_pad_right; done || lia).
  assert (len d = 32) as Hd by (by apply len_dos_layout). pose proof (len_nonneg pre). pose proof (len_nonneg post).
  unfold parse_slot. rewrite (proj2 (Z.ltb_lt _ _)) by (rewrite !len_app; lia).
  assert (exists c, index (pre ++ d ++ post) (len pre) = Ret c /\ c <> 0 /\ c <> 0xe5) as (c & -> & Hc0 & Hce).
  { rewrite <-(Z.add_0_r (len pre)). rewrite window_index by lia. destruct (filenameShort e) as [|c s] eqn:En; [len_nils; lia|].
    exists c. split; [unfold d, dos_layout; by destruct (timeToDateTime (createTime e)), (timeToDateTime (modifyTime e)), (timeToDateTime (accessTime e))|].
    apply Forall_cons in Ha as [Hca _]. unfold is_ascii in Hca. split; [intros ->; by apply Hf|lia]. }
  cbn [mbind go_bind]. rewrite (proj2 (Z.eqb_neq _ _) Hc0), (proj2 (Z.eqb_neq _ _) Hce). rewrite window_index by lia.
  assert (index d 11 = Ret (attr_byte e)) as ->.
  { unfold d, dos_layout. destruct (timeToDateTime (createTime e)), (timeToDateTime (modifyTime e)), (timeToDateTime (accessTime e)).
    destruct (list_of_length_8 _ H8) as (? & ? & ? & ? & ? & ? & ? & ? & ->). destruct (list_of_length_3 _ H3) as (? & ? & ? & ->). done. }
  cbn [mbind go_bind]. assert (attr_byte e =? 0x0f = false) as ->.
  { unfold attr_byte. by destruct (isReadOnly e), (isHidden e), (isSystem e), (isVolumeLabel e), (isSubdirectory e), (isArchiveDirty e). }
  unfold d. by rewrite (parse_written_entry e pre post _ Hok eq_refl).
Qed.

(** One entry, with its long name: what [toBytes] wrote is read back, from any place
    in a directory. *)
Lemma run_entry e : short_ok e -> long_ok e -> exists d k, toBytes e = Ret d /\ len d = 32 * Z.of_nat k /\
  forall pre post fuel es,
    go_for (k + fuel) (parse_slot (pre ++ d ++ post)) (len pre, [], es) =
    go_for fuel (parse_slot (pre ++ d ++ post)) (len pre + len d, [], es ++ [stored e]).
Proof using All.
  intros Hok Hlong. pose proof Hok as [(Ha & _ & Hl) _ (Hea & _ & Hel) _ _ _].
  set (dos := dos_layout (pad_right 8 (filenameShort e)) (pad_right 3 (fileExtension e)) e).
  assert (len dos = 32) as Hdos by (apply len_dos_layout; apply len_pad_right; done || lia).
  unfold toBytes. rewrite (dos_bytes_layout e Hok). fold dos. destruct (filenameLong e) as [|c0 s0] eqn:En.
  { exists dos, 1%nat. split_and!; [done|lia|]. intros pre post fuel es. cbn [Nat.add].
    pose proof (parse_dos_slot e pre post es Hok) as Hp. rewrite En in Hp. rewrite (go_for_next _ _ _ _ Hp). by rewrite Hdos. }
  destruct Hlong as [|(Hs & Hls & Hvn & Hve)]; [congruence|]. rewrite En in Hs, Hls. set (s := c0 :: s0) in *.
  assert (s <> []) as Hne by done. destruct (calculateSlots_bounds s Hne) as [Hs1 Hs2].
  unfold longFilenameBytes. destruct (checksum_valid _ _ Ha Hea ltac:(lia) Hel Hvn Hve) as (ck & ->). cbn [catch mbind go_bind].
  rewrite runes_ascii by (by apply lfn_name_ascii). change maxCharsLongFilename with 13. set (slots := calculateSlots s) in *.
  destruct (Z_of_nat_complete (slots - 1)) as [m Hm]; [lia|].
  destruct (run_slots s slots ck m Hs Hne eq_refl) as (B & HB & HBl & Hrun); [lia|].
  replace (Z.to_nat slots) with (S m) by lia. cbn [lfn_slots].
  destruct (lfn_slot_ok s slots ck (Z.of_nat (S m))) as (p1 & p2 & p3 & -> & H1 & H2 & H3 & Hp); [lia|].
  cbn [mbind go_bind]. rewrite HB. cbn [mbind go_bind mret go_ret].
  rewrite wrap_u_id by (change (2 ^ 8) with 256; lia). cbn [app]. change (index (?x :: ?l) 0) with (Ret x). cbn [mbind go_bind].
  destruct (first_number (Z.of_nat (S m))) as [-> Hbit]; [lia|].
  rewrite store_head. cbn [catch mbind go_bind mret go_ret].
  eexists _, (S (S m)). split; [reflexivity|]. set (d := _ ++ dos).
  assert (d = slot_bytes (Z.of_nat (S m) + 64) ck p1 p2 p3 ++ B ++ dos) as Ed.
  { unfold d, slot_bytes. cbn [app]. rewrite <-!(assoc app). cbn [app]. by rewrite <-!(assoc app). }
  set (hd := slot_bytes _ _ _ _ _) in Ed.
  assert (len hd = 32) as Hhd by (unfold hd, slot_bytes; rewrite !len_app, H1, H2, H3; done).
  split; [rewrite Ed, !len_app; lia|]. intros pre post fuel es.
  rewrite Ed. rewrite <-!(assoc app). replace (S (S m) + fuel)%nat with (S (m + S fuel)) by lia.
  rewrite (go_for_next _ _ _ _ (parse_lfn_slot pre (Z.of_nat (S m) + 64) ck p1 p2 p3 (B ++ dos ++ post) [] es H1 H2 H3 ltac:(lia) ltac:(lia))).
  fold hd. rewrite Hbit, app_nil_r, Hp, (slot_runes_chars s Hs 13) by lia.
  rewrite string_of_ascii by (apply Forall_take, Forall_drop, lfn_name_ascii; done).
  assert (take 13 (from s (13 * (Z.of_nat (S m) - 1))) = from s (13 * Z.of_nat m)) as ->.
  { rewrite take_ge; [do 2 f_equal; lia|]. rewrite length_len, len_from by lia. lia. }
  replace (len pre + 32) with (len (pre ++ hd)) by (rewrite len_app; lia).
  specialize (Hrun (pre ++ hd) (dos ++ post) (S fuel) es ltac:(lia)). rewrite <-(assoc app pre) in Hrun. rewrite Hrun.
  replace (len (pre ++ hd) + 32 * Z.of_nat m) with (len (pre ++ hd ++ B)) by (rewrite !len_app; lia).
  pose proof (parse_dos_slot e (pre ++ hd ++ B) post es Hok) as Hp'. cbv zeta in Hp'. fold dos in Hp'. rewrite En in Hp'. fold s in Hp'.
  rewrite <-!(assoc app) in Hp'. rewrite (go_for_next _ _ _ _ Hp'). do 3 f_equal. rewrite !len_app. lia.
Qed.
End slots.

(** ** What is written is bytes *)

Section bytes.
Context `{AsciiSet}.

Lemma lfn_char_bytes r i : bytes_ok (lfn_char r i).
Proof.
  unfold lfn_char. destruct_if; [repeat (constructor; [unfold is_byte; lia|]); constructor|]. destruct_if; [repeat (constructor; [unfold is_byte; lia|]); constructor|].
  constructor; [|constructor; [apply is_byte_u8|constructor]]. unfold is_byte. rewrite Z.land_comm. apply (land_range_l 8); lia.
Qed.

Lemma slice_bytes b lo hi q : bytes_ok b -> slice b lo hi = Ret q -> bytes_ok q.
Proof. intros Hb. unfold slice. destruct (_ && _); [|discriminate]. intros [= <-]. by apply bytes_ok_sub. Qed.

Lemma lfn_slots_bytes b2 ck n : bytes_ok b2 -> is_byte ck -> forall B, lfn_slots b2 ck n = Ret B -> bytes_ok B.
Proof.
  intros Hb Hck. induction n as [|n IH]; intros B; cbn [lfn_slots]; [intros [= <-]; constructor|].
  unfold lfn_slot. set (o := _ * (_ * 2)).
  destruct (slice b2 o (o + 10)) as [p1| | |] eqn:E1; try discriminate. cbn [mbind go_bind].
  destruct (slice b2 (o + 10) (o + 22)) as [p2| | |] eqn:E2; try discriminate. cbn [mbind go_bind].
  destruct (slice b2 (o + 22) (o + 26)) as [p3| | |] eqn:E3; try discriminate. cbn [mbind go_bind mret go_ret].
  destruct (lfn_slots b2 ck n) as [B'| | |] eqn:E; try discriminate. cbn [mbind go_bind mret go_ret]. intros [= <-].
  apply slice_bytes in E1, E2, E3; [|done..].
  specialize (IH B' eq_refl).
  repeat first [apply Forall_app_2 | apply Forall_cons_2 | apply is_byte_u8 | by apply bytes_ok_sub | done | constructor].
Qed.

Lemma checksum_byte name ext ck : lfnChecksum name ext = Ret ck -> is_byte ck.
Proof.
  unfold lfnChecksum. destruct (catch (stringToValidASCIIBytes name)) as [[b|]| | |]; try discriminate. cbn [mbind go_bind].
  destruct (catch (stringToValidASCIIBytes ext)) as [[b'|]| | |]; try discriminate. cbn [mbind go_bind].
  do 2 (destruct_if; [discriminate|]). cbn [mret go_ret]. intros [= <-].
  assert (forall l s, is_byte s -> is_byte (foldl checksum_step s l)) as Hf; [|apply Hf, is_byte_0].
  intros l. induction l as [|x l IH]; intros s Hs; [done|]. cbn [foldl]. apply IH, is_byte_u8.
Qed.

Lemma longFilenameBytes_bytes s name ext B : longFilenameBytes s name ext = Ret B -> bytes_ok B.
Proof.
  unfold longFilenameBytes. destruct (lfnChecksum name ext) as [ck| | |] eqn:Eck; try discriminate. cbn [catch mbind go_bind].
  destruct (lfn_slots _ _ _) as [B'| | |] eqn:E; try discriminate. cbn [mbind go_bind].
  apply lfn_slots_bytes in E; [|apply Forall_bind, Forall_true; intros; apply lfn_char_bytes|by eapply checksum_byte].
  destruct B' as [|x B']; [discriminate|]. change (index (x :: B') 0) with (Ret x). cbn [mbind go_bind]. rewrite store_head.
  intros [= <-]. apply Forall_cons in E as [Hx HB]. constructor; [|done]. apply (lor_range 8); unfold is_byte in *; lia.
Qed.

Lemma dos_layout_bytes name ext e : bytes_ok name -> bytes_ok ext -> bytes_ok (dos_layout name ext e).
Proof.
  intros Hn He. unfold dos_layout. destruct (timeToDateTime (createTime e)), (timeToDateTime (modifyTime e)), (timeToDateTime (accessTime e)).
  assert (is_byte (attr_byte e) /\ is_byte (case_byte e)) as [Ha Hc].
  { unfold attr_byte, case_byte, is_byte.
    destruct (isReadOnly e), (isHidden e), (isSystem e), (isVolumeLabel e), (isSubdirectory e), (isArchiveDirty e), (lowercaseExtension e), (lowercaseShortname e);
      cbv; split; split; congruence. }
  repeat first [apply Forall_app_2 | apply Forall_cons_2 | apply put_le_bytes | apply Forall_take | apply bytes_ok_from | apply is_byte_0 | done | constructor];
    apply Z.mod_pos_bound; lia.
Qed.

Lemma toBytes_bytes e d : short_ok e -> toBytes e = Ret d -> bytes_ok d.
Proof.
  intros Hok. assert (forall s n, ascii_ok s -> bytes_ok (pad_right n s)) as Hpad by (intros; by apply ascii_bytes, pad_right_ascii).
  unfold toBytes. rewrite (dos_bytes_layout e Hok). pose proof Hok as [(Ha & _) _ (Hea & _) _ _ _].
  pose proof (dos_layout_bytes (pad_right 8 (filenameShort e)) (pad_right 3 (fileExtension e)) e (Hpad _ _ Ha) (Hpad _ _ Hea)) as Hd.
  destruct (filenameLong e) as [|c s]; [by intros [= <-]|].
  destruct (longFilenameBytes _ _ _) as [B| | |] eqn:E; try discriminate. cbn [catch mbind go_bind mret go_ret]. intros [= <-].
  apply Forall_app_2; [by eapply longFilenameBytes_bytes|done].
Qed.
End bytes.
