(* ===== verification/FatDir.v ===== *)
(** * FatDir: directories of the FAT file systems
    diskkit/filesystem/fat12/directory.go and the path helpers of util.go. A
    [Directory] holds pointers to its entries; an entry is named by its position. *)
From S2P Require Import Prelude Bytes Text GoTime FatDirent.

Record Directory := mkDir { self : directoryEntry; entries : list directoryEntry }.
Definition set_entries (d : Directory) (es : list directoryEntry) : Directory := mkDir (self d) es.

Definition with_names (e : directoryEntry) (short ext long : gostring) (slots : Z) (modified : time) : directoryEntry :=
  mkEntry short ext long (isReadOnly e) (isHidden e) (isSystem e) (isVolumeLabel e) (isSubdirectory e) (isArchiveDirty e)
    (isDevice e) (lowercaseShortname e) (lowercaseExtension e) (createTime e) modified (accessTime e)
    (acccessRights e) (clusterLocation e) (fileSize e) slots (isNew e).

(** The entry a composite literal with these fields makes; the rest is zero. *)
Definition new_entry (short ext long : gostring) (label dir : bool) (created modified accessed : time) (cluster slots : Z) (fresh : bool) : directoryEntry :=
  mkEntry short ext long false false false label dir false false false false created modified accessed 0 cluster 0 slots fresh.

(** ** Paths *)

Definition universalizePath (p : gostring) : go gostring :=
  let ps := map (fun c => if c =? 92 then 47 else c) p in
  first ← index ps 0;
  mret (if first =? 47 then from ps 1 else ps).

Definition splitPath (p : gostring) : go (list gostring) :=
  ps ← universalizePath p;
  mret (filter (fun w => w <> []) (split_on 47 ps)).

Section directory.
Context `{UnicodeTables} `{AsciiSet}.

Definition entriesFromBytes (d : Directory) (b : list Z) : go Directory :=
  es ← parseDirEntries b; mret (set_entries d es).

(** The entries one after the other. *)
Fixpoint concat_entries (es : list directoryEntry) : go (list Z) :=
  match es with
  | [] => mret []
  | de :: rest => b ← toBytes de; tl ← concat_entries rest; mret (b ++ tl)
  end.

Definition entriesToBytes (d : Directory) (bytesPerCluster : Z) : go (list Z) :=
  b ← concat_entries (entries d);
  remainder ← rem64 (len b) bytesPerCluster;
  if negb (remainder =? 0) then z ← make 0 1 (bytesPerCluster - remainder); mret (b ++ z)
  else mret b.

Fixpoint place_entries (fixedSize : Z) (b : list Z) (offset : Z) (es : list directoryEntry) : go (list Z) :=
  match es with
  | [] => mret b
  | de :: rest =>
      b2 ← toBytes de;
      if fixedSize <? offset + len b2 then Err (Errorf "root directory is full: exceeds fixed size of %d bytes")
      else b ← copy_at b offset (len b) b2; place_entries fixedSize b (offset + len b2) rest
  end.

Definition entriesToBytesFixed (d : Directory) (fixedSize : Z) : go (list Z) :=
  b ← make 0 1 fixedSize;
  place_entries fixedSize b 0 (entries d).

(** ** Short names that do not clash *)

Definition existing_names (es : list directoryEntry) : list gostring :=
  map (fun e => filenameShort e ++ fileExtension e) (filter (fun e => isVolumeLabel e = false) es).

Definition candidate (stem : gostring) (counter : Z) : gostring :=
  let suffix := lit "~" ++ decimal counter in
  let maxStem := 8 - len suffix in
  (if maxStem <? len stem then stem.[0, maxStem] else stem) ++ suffix.

Definition maxCounter : Z := 999999.

Definition uniqueShortName (stem ext : gostring) (es : list directoryEntry) : go gostring :=
  let existing := existing_names es in
  go_for (S (Z.to_nat maxCounter)) (fun counter =>
    if counter <=? maxCounter then
      let c := candidate stem counter in
      if bool_decide (c ++ ext ∈ existing) then mret (inl (counter + 1)) else mret (inr c)
    else s ← slice stem 0 6; mret (inr (s ++ lit "~1"))) 1.

(** The names a new or renamed entry gets in a directory with the entries [es]: only a
    short name that was cut is made unique. *)
Definition choose_names (name : gostring) (es : list directoryEntry) : go (gostring * gostring * gostring) :=
  let '(shortName, extension, isLFN, isTruncated) := convertLfnSfn name in
  r ← (if isTruncated : bool then
         stem ← slice shortName 0 6;
         s ← uniqueShortName stem extension es;
         mret (s, true)
       else mret (shortName, isLFN));
  let '(shortName, isLFN) := r in
  mret (shortName, extension, if isLFN : bool then name else []).

(** ** Changes *)

(** The new directory and the new entry, which is its last. *)
Definition createEntry (now : time) (d : Directory) (name : gostring) (cluster : Z) (dir : bool) : go (Directory * directoryEntry) :=
  '(shortName, extension, lfn) ← choose_names name (entries d);
  let entry := new_entry shortName extension lfn false dir now now now cluster (calculateSlots lfn) true in
  mret (set_entries d (entries d ++ [entry]), entry).

Definition removeEntry (d : Directory) (name : gostring) : go Directory :=
  match list_find (fun e => nameMatches e name = true) (entries d) with
  | None => Err (Errorf "cannot find entry for name %s")
  | Some (i, _) => mret (set_entries d (take i (entries d) ++ drop (S i) (entries d)))
  end.

(** The entries after the loop, and whether one was renamed. *)
Fixpoint rename_loop (now : time) (oldFileName newFileName short ext lfn : gostring) (es : list directoryEntry) : list directoryEntry * bool :=
  match es with
  | [] => ([], false)
  | e :: rest =>
      let '(es', replaced) := rename_loop now oldFileName newFileName short ext lfn rest in
      if nameMatches e newFileName then (es', replaced)
      else if nameMatches e oldFileName then (with_names e short ext lfn (calculateSlots lfn) now :: es', true)
      else (e :: es', replaced)
  end.

Definition renameEntry (now : time) (d : Directory) (oldFileName newFileName : gostring) : go Directory :=
  '(newShort, newExt, newLFN) ←
    choose_names newFileName (filter (fun e => nameMatches e oldFileName = false) (entries d));
  let '(newEntries, isReplaced) := rename_loop now oldFileName newFileName newShort newExt newLFN (entries d) in
  if isReplaced : bool then mret (set_entries d newEntries) else Err (Errorf "cannot find file entry for %s").

Definition createVolumeLabel (now : time) (d : Directory) (name : gostring) : go (Directory * directoryEntry) :=
  short ← slice name 0 8;
  ext ← slice name 8 11;
  let entry := new_entry short ext [] true false now now now 0 (-1) true in
  mret (set_entries d (entries d ++ [entry]), entry).
End directory.

(** ** A directory that was written is read back *)

Section roundtrip.
Context `{UnicodeTables} `{AsciiSetLaws}.

Definition entry_ok (e : directoryEntry) : Prop := short_ok e /\ long_ok e.

Lemma concat_run es : Forall entry_ok es -> exists b k, concat_entries es = Ret b /\ len b = 32 * Z.of_nat k /\
  forall pre post fuel found,
    go_for (k + fuel) (parse_slot (pre ++ b ++ post)) (len pre, [], found) =
    go_for fuel (parse_slot (pre ++ b ++ post)) (len pre + len b, [], found ++ map stored es).
Proof using All.
  induction 1 as [|e es [Hs Hl] _ (b & k & Hb & Hlen & Hrun)].
  - exists [], 0%nat. split_and!; [done|done|]. intros. rewrite app_nil_r, len_nil, Z.add_0_r. done.
  - destruct (run_entry e Hs Hl) as (d & j & Hd & Hdl & Hdrun). exists (d ++ b), (j + k)%nat. cbn [concat_entries].
    rewrite Hd. cbn [mbind go_bind]. rewrite Hb. split_and!; [done|rewrite len_app; lia|].
    intros pre post fuel found. rewrite <-!(assoc app), <-Nat.add_assoc. rewrite Hdrun.
    specialize (Hrun (pre ++ d) post fuel (found ++ [stored e])). rewrite <-!(assoc app) in Hrun.
    replace (len pre + len d) with (len (pre ++ d)) by (rewrite len_app; done). rewrite Hrun. do 3 f_equal. rewrite !len_app. lia.
Qed.

(** The directory ends at the first zero byte, or with the buffer. *)
Lemma parse_end b n found fuel : go_for (S fuel) (parse_slot (b ++ replicate n 0)) (len b, [], found) = Ret found.
Proof.
  cbn [go_for]. unfold parse_slot. rewrite len_app, len_replicate. destruct n as [|n].
  { rewrite (proj2 (Z.ltb_ge _ _)) by lia. done. }
  rewrite (proj2 (Z.ltb_lt _ _)) by lia.
  assert (index (b ++ replicate (S n) 0) (len b) = Ret 0) as ->; [|done].
  pose proof (window_index b [0] (replicate n 0) 0) as Hw. rewrite Z.add_0_r in Hw. apply Hw. done.
Qed.

Lemma parse_concat es b n : Forall entry_ok es -> concat_entries es = Ret b ->
  parseDirEntries (b ++ replicate n 0) = Ret (map stored es).
Proof using All.
  intros Hes Hb. destruct (concat_run es Hes) as (b' & k & Hb' & Hl & Hrun). rewrite Hb in Hb'. injection Hb' as <-.
  unfold parseDirEntries. assert (k <= length (b ++ replicate n 0%Z))%nat as Hk by (rewrite length_app; unfold len in Hl; lia).
  replace (S (length (b ++ replicate n 0))) with (k + S (length (b ++ replicate n 0%Z) - k))%nat by lia.
  specialize (Hrun [] (replicate n 0)). cbn [app] in Hrun. change (len []) with 0 in Hrun. rewrite Hrun, Z.add_0_l. apply parse_end.
Qed.

Lemma concat_bytes es b : Forall short_ok es -> concat_entries es = Ret b -> bytes_ok b.
Proof.
  intros Hes. revert b. induction Hes as [|e es He _ IH]; intros b; cbn [concat_entries]; [intros [= <-]; constructor|].
  destruct (toBytes e) as [d| | |] eqn:Ed; try discriminate. cbn [mbind go_bind].
  destruct (concat_entries es) as [tl| | |]; try discriminate. cbn [mbind go_bind mret go_ret]. intros [= <-].
  apply Forall_app_2; [by eapply toBytes_bytes|by apply IH].
Qed.
(** The padding [entriesToBytes] adds. *)
Definition padding (n c : Z) : Z := if n mod c =? 0 then 0 else c - n mod c.

Lemma entriesToBytes_eq d c b : concat_entries (entries d) = Ret b -> 0 < c <= maxAlloc ->
  entriesToBytes d c = Ret (b ++ replicate (Z.to_nat (padding (len b) c)) 0) /\
  0 <= padding (len b) c < c /\ (len b + padding (len b) c) mod c = 0.
Proof.
  intros Hb Hc. pose proof (len_nonneg b). unfold entriesToBytes, padding. rewrite Hb. cbn [mbind go_bind].
  rewrite rem64_ok by lia. cbn [mbind go_bind]. pose proof (Z.div_mod (len b) c). pose proof (Z.mod_pos_bound (len b) c).
  destruct (Z.eqb_spec (len b mod c) 0); cbn [negb].
  - rewrite app_nil_r, Z.add_0_r. split; [done|lia].
  - rewrite make_ok by lia. split; [done|]. split; [lia|].
    replace (len b + _) with ((len b / c + 1) * c) by lia. apply Z.mod_mul. lia.
Qed.

Definition zero_filled (size : Z) (pre : list Z) : list Z := pre ++ replicate (Z.to_nat (size - len pre)) 0.

Lemma copy_zero_filled size pre b : len pre + len b <= size ->
  copy_at (zero_filled size pre) (len pre) (len (zero_filled size pre)) b = Ret (zero_filled size (pre ++ b)).
Proof.
  intros Hl. pose proof (len_nonneg b). pose proof (len_nonneg pre). unfold zero_filled.
  rewrite copy_at_ok by (rewrite ?len_app, ?len_replicate; lia). f_equal.
  unfold patch. rewrite sub_app_l by done. rewrite <-(assoc app). do 2 f_equal. unfold from.
  rewrite drop_app_ge by (unfold len; lia). rewrite drop_replicate. f_equal. rewrite len_app. unfold len. lia.
Qed.

(** Placing entries in a fixed buffer: it holds what was written so far and zeros, or
    the entries do not fit. *)
Lemma place_entries_ok es : forall size pre b, concat_entries es = Ret b -> len pre <= size ->
  place_entries size (zero_filled size pre) (len pre) es =
  if size <? len pre + len b then Err (Errorf "root directory is full: exceeds fixed size of %d bytes")
  else Ret (zero_filled size (pre ++ b)).
Proof.
  induction es as [|e es IH]; intros size pre b Hb Hp; cbn [concat_entries place_entries] in *.
  - injection Hb as <-. rewrite len_nil, (proj2 (Z.ltb_ge _ _)) by lia. by rewrite app_nil_r.
  - destruct (toBytes e) as [b2| | |]; [|done..]. cbn [mbind go_bind] in *. destruct (concat_entries es) as [tl| | |] eqn:Etl; [|done..]. cbn [mbind go_bind] in Hb.
    injection Hb as <-. rewrite len_app. pose proof (len_nonneg b2). pose proof (len_nonneg tl).
    destruct (Z.ltb_spec size (len pre + len b2)); [by rewrite (proj2 (Z.ltb_lt _ _)) by lia|].
    rewrite copy_zero_filled by lia. cbn [mbind go_bind]. replace (len pre + len b2) with (len (pre ++ b2)) by (by rewrite len_app).
    rewrite (IH size (pre ++ b2) tl) by (done || (rewrite ?len_app; lia)). rewrite len_app, <-(assoc app), Z.add_assoc. done.
Qed.

Lemma entriesToBytesFixed_eq d size b : concat_entries (entries d) = Ret b -> 0 <= size <= maxAlloc ->
  entriesToBytesFixed d size =
  if size <? len b then Err (Errorf "root directory is full: exceeds fixed size of %d bytes") else Ret (zero_filled size b).
Proof.
  intros Hb Hs. unfold entriesToBytesFixed. rewrite make_ok by lia. cbn [mbind go_bind].
  replace (replicate (Z.to_nat size) 0) with (zero_filled size []) by (unfold zero_filled; by rewrite len_nil, Z.sub_0_r).
  change 0 with (len (@nil Z)) at 1. rewrite (place_entries_ok _ _ _ b) by (done || (rewrite ?len_nil; lia)). by rewrite len_nil, Z.add_0_l.
Qed.

(** C12. A directory that is written is read back entry for entry. Every entry has a short name of one to eight ASCII
    characters and an extension of at most three, neither with a space at its end, the first
    character not NUL, attributes that are not the mark of a long name, and a cluster and a
    size of 32 bits; its long name, if it has one, is ASCII without NUL, at most 63 * 13
    characters, next to a short name of valid characters (of other names more than the
    entry is written, see [non_ascii_name_grows]). Then
    from the clusters of a chain as from the fixed root of FAT12 and FAT16 the entries are read
    with their long names, attributes, short names with their padding, cluster and size; what
    changes is what the format cannot hold (the resolution of the timestamps, the in-memory
    flags). Entries that are longer than the fixed root are an error. *)
Theorem fat_directory_roundtrip d : Forall entry_ok (entries d) -> exists b, concat_entries (entries d) = Ret b /\
  (forall c, 0 < c <= maxAlloc -> exists b', entriesToBytes d c = Ret b' /\ len b' mod c = 0 /\
     len b <= len b' < len b + c /\ parseDirEntries b' = Ret (map stored (entries d))) /\
  (forall size, len b <= size <= maxAlloc -> exists b', entriesToBytesFixed d size = Ret b' /\ len b' = size /\
     parseDirEntries b' = Ret (map stored (entries d))) /\
  (forall size, 0 <= size <= maxAlloc -> size < len b ->
     entriesToBytesFixed d size = Err (Errorf "root directory is full: exceeds fixed size of %d bytes")).
Proof using All.
  intros Hok. destruct (concat_run _ Hok) as (b & k & Hb & _). exists b. split; [done|]. pose proof (len_nonneg b). split_and!.
  - intros c Hc. destruct (entriesToBytes_eq d c b Hb Hc) as (-> & Hp & Hm). eexists. split; [done|].
    rewrite len_app, len_replicate, Z2Nat.id by lia. split_and!; [done|lia|lia|by apply parse_concat].
  - intros size Hs. rewrite (entriesToBytesFixed_eq _ _ b) by (done || lia). rewrite (proj2 (Z.ltb_ge _ _)) by lia.
    eexists. split; [done|]. unfold zero_filled. rewrite len_app, len_replicate. split; [lia|]. by apply parse_concat.
  - intros size Hs Hlt. rewrite (entriesToBytesFixed_eq _ _ b) by (done || lia). by rewrite (proj2 (Z.ltb_lt _ _)) by lia.
Qed.
End roundtrip.

(** ** Names *)

Section names.
Context `{UnicodeTables} `{AsciiSet}.

Definition name_free (stem ext : gostring) (es : list directoryEntry) (n : Z) : Prop :=
  candidate stem n ++ ext ∉ existing_names es.

(** A short name that had to be cut gets the lowest numeric tail that no entry of
    the directory (volume labels aside) has: the one tried first that is free. If all
    999999 are taken the name is cut to six characters with tail 1, as before. *)
Theorem fat_unique_short_name stem ext es : 6 <= len stem ->
  (forall n, 1 <= n <= maxCounter -> name_free stem ext es n -> (forall m, 1 <= m < n -> ~ name_free stem ext es m) ->
     uniqueShortName stem ext es = Ret (candidate stem n)) /\
  ((forall m, 1 <= m <= maxCounter -> ~ name_free stem ext es m) -> uniqueShortName stem ext es = Ret (stem.[0, 6] ++ lit "~1")).
Proof.
  intros Hl. unfold uniqueShortName. set (body := fun counter => _).
  assert (forall k fuel lo, (forall m, lo <= m < lo + Z.of_nat k -> ~ name_free stem ext es m) -> lo + Z.of_nat k <= maxCounter + 1 ->
    go_for (k + fuel) body lo = go_for fuel body (lo + Z.of_nat k)) as Hskip.
  { intros k. induction k as [|k IH]; intros fuel lo Htaken Hle; [by rewrite Z.add_0_r|]. cbn [Nat.add].
    assert (body lo = Ret (inl (lo + 1))) as Hb.
    { unfold body. rewrite (proj2 (Z.leb_le _ _)) by lia. rewrite bool_decide_true; [done|].
      apply dec_stable. apply Htaken. lia. }
    rewrite (go_for_next _ _ _ _ Hb). rewrite IH by (lia || (intros; apply Htaken; lia)). f_equal. lia. }
  split.
  - intros n Hn Hfree Htaken. replace (S (Z.to_nat maxCounter)) with (Z.to_nat (n - 1) + S (Z.to_nat (maxCounter + 1 - n)))%nat by lia.
    rewrite Hskip by (lia || (intros; apply Htaken; lia)). replace (1 + Z.of_nat (Z.to_nat (n - 1))) with n by lia. cbn [go_for].
    unfold body. rewrite (proj2 (Z.leb_le _ _)) by lia. by rewrite bool_decide_false.
  - intros Htaken. replace (S (Z.to_nat maxCounter)) with (Z.to_nat maxCounter + 1)%nat by lia.
    rewrite Hskip by (unfold maxCounter in *; lia || (intros; apply Htaken; unfold maxCounter in *; lia)).
    replace (1 + Z.of_nat (Z.to_nat maxCounter)) with (maxCounter + 1) by (unfold maxCounter; lia). cbn [go_for]. unfold body.
    rewrite (proj2 (Z.leb_gt _ _)) by lia. by rewrite slice_ok by lia.
Qed.

(** The loop of [renameEntry], as a filter and a map. *)
Lemma rename_loop_spec now old new short ext lfn es :
  rename_loop now old new short ext lfn es =
  (map (fun e => if nameMatches e old then with_names e short ext lfn (calculateSlots lfn) now else e)
       (filter (fun e => nameMatches e new = false) es),
   existsb (fun e => negb (nameMatches e new) && nameMatches e old) es).
Proof.
  induction es as [|e es IH]; [done|]. cbn [rename_loop existsb]. rewrite IH, filter_cons.
  destruct (nameMatches e new); cbn [negb andb orb]; [by rewrite decide_False|]. rewrite decide_True by done. cbn [map].
  by destruct (nameMatches e old).
Qed.

(** Renaming: the entries that answer to the new name are dropped, those that
    answer to the old one get the new names and a new modification time, everything
    else is kept in place. If no entry answers to the old name and not to the new one,
    the directory is left alone and an error is returned: this includes renaming a
    file to another spelling of its own name. *)
Theorem fat_rename now d old new short ext lfn :
  choose_names new (filter (fun e => nameMatches e old = false) (entries d)) = Ret (short, ext, lfn) ->
  ((exists e, e ∈ entries d /\ nameMatches e old = true /\ nameMatches e new = false) ->
   renameEntry now d old new = Ret (set_entries d
     (map (fun e => if nameMatches e old then with_names e short ext lfn (calculateSlots lfn) now else e)
          (filter (fun e => nameMatches e new = false) (entries d))))) /\
  ((forall e, e ∈ entries d -> nameMatches e old = true -> nameMatches e new = true) ->
   renameEntry now d old new = Err (Errorf "cannot find file entry for %s")).
Proof.
  intros Hn. unfold renameEntry. rewrite Hn. cbn [mbind go_bind]. rewrite rename_loop_spec. split.
  - intros (e & He & Ho & Hnew). assert (existsb (fun e => negb (nameMatches e new) && nameMatches e old) (entries d) = true) as ->; [|done].
    apply existsb_exists. exists e. rewrite Ho, Hnew. split; [by apply list_elem_of_In|done].
  - intros Hall. destruct (existsb _ _) eqn:E; [|done]. apply existsb_exists in E as (e & He & E).
    apply andb_true_iff in E as [E1 E2]. apply list_elem_of_In in He. rewrite (Hall e He E2) in E1. done.
Qed.
End names.

(** ** Witnesses *)

#[local] Instance tables : UnicodeTables := ascii_tables.
#[local] Instance byte_set : AsciiSet := {| set_contains chars c := bool_decide (c ∈ chars) |}.
#[local] Instance byte_set_laws : AsciiSetLaws.
Proof. split. intros chars c _. apply bool_decide_eq_true. Qed.

Definition sample_file (short ext long : gostring) : directoryEntry :=
  new_entry short ext long false false 63871200000 63871200000 63871200000 5 0 true.
Definition sample_dir : Directory := mkDir (sample_file [] [] [])
  [sample_file (lit "README") (lit "TXT") []; sample_file (lit "AVERYL~1") (lit "JSO") (lit "a very long name.json")].

Ltac short_name := constructor; repeat split; try (vm_compute; congruence); repeat (constructor; [vm_compute; split; congruence|]); constructor.

Lemma dir_names_ok : Forall entry_ok (entries sample_dir).
Proof.
  apply Forall_cons; split; [split; [short_name|by left]|]. apply Forall_cons; split; [split; [short_name|right]|by apply Forall_nil].
  split; [repeat (constructor; [vm_compute; split; congruence|]); constructor|]. split; [vm_compute; congruence|].
  split; (refine (bool_decide_eq_true_1 _ _); vm_compute; reflexivity).
Defined.

Lemma fat_directory_roundtrip_witness : exists b, entriesToBytes sample_dir 512 = Ret b /\
  parseDirEntries b = Ret (map stored (entries sample_dir)).
Proof.
  destruct (fat_directory_roundtrip sample_dir dir_names_ok) as (b & _ & Hc & _).
  destruct (Hc 512) as (b' & Hb & _ & _ & Hp); [unfold maxAlloc; lia|]. exists b'. split; [exact Hb|exact Hp].
Defined.

Lemma fat_unique_short_name_witness : uniqueShortName (lit "AVERYL") (lit "JSO") (entries sample_dir) = Ret (lit "AVERYL~2").
Proof.
  apply (proj1 (fat_unique_short_name (lit "AVERYL") (lit "JSO") (entries sample_dir) ltac:(vm_compute; congruence)) 2).
  - vm_compute; split; congruence.
  - unfold name_free. refine (bool_decide_eq_true_1 _ _). vm_compute. reflexivity.
  - intros m Hm Hf. assert (m = 1) as -> by lia. apply Hf. refine (bool_decide_eq_true_1 _ _). vm_compute. reflexivity.
Defined.

Lemma fat_rename_witness : exists d', renameEntry 7 sample_dir (lit "readme.txt") (lit "notes.txt") = Ret d' /\
  map filenameShort (entries d') = [lit "NOTES"; lit "AVERYL~1"] /\
  renameEntry 7 sample_dir (lit "readme.txt") (lit "README.txt") = Err (Errorf "cannot find file entry for %s").
Proof.
  destruct (fat_rename 7 sample_dir (lit "readme.txt") (lit "notes.txt") (lit "NOTES") (lit "TXT") (lit "notes.txt")) as [Hr _];
    [vm_compute; reflexivity|].
  destruct (fat_rename 7 sample_dir (lit "readme.txt") (lit "README.txt") (lit "README") (lit "TXT") (lit "README.txt")) as [_ Hs];
    [vm_compute; reflexivity|].
  eexists. split; [apply Hr|split; [vm_compute; reflexivity|apply Hs]].
  - exists (sample_file (lit "README") (lit "TXT") []). split; [constructor|split; vm_compute; reflexivity].
  - intros e He. cbn in He. repeat (apply elem_of_cons in He as [->|He]; [vm_compute; congruence|]). destruct (not_elem_of_nil _ He).
Defined.

(** ** Observations *)

(** Two long names that differ only behind the third character of the extension get
    the same short name: no tail is added, since the stem was not cut. *)
Lemma short_names_clash :
  match ('(d, e1) ← createEntry 0 (mkDir (sample_file [] [] []) []) (lit "file.json") 3 false; createEntry 0 d (lit "file.jsonl") 4 false) with
  | Ret (d, _) => existing_names (entries d)
  | _ => []
  end = [lit "FILEJSO"; lit "FILEJSO"].
Proof. vm_compute. reflexivity. Qed.

(** A long name whose characters take more than one byte each: the slots are counted in
    bytes, so there is one too many, and it is read back as padding. *)
Lemma non_ascii_name_grows :
  let name := string_of_runes (replicate 7 0xE9) in
  match (b ← toBytes (sample_file (lit "E~1") [] name); parseDirEntries b) with
  | Ret [e] => runes (filenameLong e)
  | _ => []
  end = replicate 7 0xE9 ++ replicate 13 0xFFFF.
Proof. vm_compute. reflexivity. Qed.
