(* ===== verification/FatFs.v ===== *)
(** * FatFs: the file system operations of diskkit/filesystem/fat12/fat12.go
    Reading and writing directories, walking paths, and the operations of the
    [filesystem.FileSystem] interface that work on directories; FAT16 and FAT32 inherit
    them. A call that changes the file system runs in the monad [fsm]: the file system
    is returned with the result or with the error. *)
From S2P Require Import Prelude Bytes ReaderAt Text GoTime FatBoot FatTable Storage FatChain FatData FatDirent FatDir.

(** ** A state and error monad *)

Definition fsm (T D A : Type) : Type := FileSystem T D -> go (FileSystem T D * (A + error)).

#[global] Instance fsm_ret {T D} : MRet (fsm T D) := fun A a fs => Ret (fs, inl a).
#[global] Instance fsm_bind {T D} : MBind (fsm T D) := fun A B f m fs =>
  match m fs with
  | Ret (fs, inl a) => f a fs
  | Ret (fs, inr e) => Ret (fs, inr e)
  | Err e => Ret (fs, inr e)
  | Panic p => Panic p
  | OutOfFuel => OutOfFuel
  end.

Section monad.
Context {T D : Type}.

Definition fail {A} (e : error) : fsm T D A := fun fs => Ret (fs, inr e).
(** A call that does not change the file system. *)
Definition reading {A} (m : FileSystem T D -> go A) : fsm T D A := fun fs => r ← catch (m fs); Ret (fs, r).
Definition pure {A} (m : go A) : fsm T D A := reading (fun _ => m).
(** A call that returns an error or nil. *)
Definition calling (m : FileSystem T D -> go (FileSystem T D * option error)) : fsm T D unit := fun fs =>
  '(fs, err) ← m fs;
  Ret (fs, match err with Some e => inr e | None => inl tt end).
(** [if err != nil { return f(err) }]. *)
Definition wrapping {A} (f : error -> error) (m : fsm T D A) : fsm T D A := fun fs =>
  match m fs with
  | Ret (fs, inr e) => Ret (fs, inr (f e))
  | Err e => Ret (fs, inr (f e))
  | r => r
  end.
(** The error is looked at by the caller. *)
Definition attempt {A} (m : fsm T D A) : fsm T D (A + error) := fun fs =>
  match m fs with
  | Ret (fs, r) => Ret (fs, inl r)
  | Err e => Ret (fs, inl (inr e))
  | Panic p => Panic p
  | OutOfFuel => OutOfFuel
  end.

(** Rules for calls that succeed. *)
Lemma fsm_bind_ok {A B} (f : A -> fsm T D B) m fs fs' a : m fs = Ret (fs', inl a) -> mbind (M := fsm T D) f m fs = f a fs'.
Proof. intros E. unfold mbind, fsm_bind. by rewrite E. Qed.
Lemma fsm_bind_fail {A B} (f : A -> fsm T D B) m fs fs' e : m fs = Ret (fs', inr e) -> mbind (M := fsm T D) f m fs = Ret (fs', inr e).
Proof. intros E. unfold mbind, fsm_bind. by rewrite E. Qed.
Lemma wrapping_ok {A} f (m : fsm T D A) fs fs' a : m fs = Ret (fs', inl a) -> wrapping f m fs = Ret (fs', inl a).
Proof. intros E. unfold wrapping. by rewrite E. Qed.
Lemma pure_ok {A} (m : go A) fs a : m = Ret a -> pure m fs = Ret (fs, inl a).
Proof. intros E. unfold pure, reading. by rewrite E. Qed.
Lemma reading_ok {A} (m : FileSystem T D -> go A) fs a : m fs = Ret a -> reading m fs = Ret (fs, inl a).
Proof. intros E. unfold reading. by rewrite E. Qed.
End monad.

Definition as_v (format : string) (e : error) : error := Errorf format.

Definition ErrInvalid : error := Errorf "invalid argument".
Definition ErrNotSupported : error := Errorf "method not supported by this filesystem".
Definition ErrReadonlyFilesystem : error := Errorf "read-only filesystem".

(** Flags of package os. *)
Definition O_RDWR : Z := 2.
Definition O_APPEND : Z := 0x400.
Definition O_CREATE : Z := 0x40.
Definition O_TRUNC : Z := 0x200.

Section fs.
Context {T D : Type} `{FATTable T} `{Storage D} `{UnicodeTables} `{AsciiSet}.
(** Rounds the cluster list is followed for; what [timestamp.GetTime] returns; and the
    room [append] leaves behind a slice of a given length, which the runtime chooses:
    the slice can be extended into it, and its bytes are zero. *)
Context (fuel : nat) (now : time) (spare : Z -> Z).
Notation FS := (FileSystem T D).

(** ** Boot sector *)

Definition defaultWriteBootSector (fs : FS) : go (FS * option error) :=
  match Writable (backend fs) with
  | Some e => mret (fs, Some e)
  | None =>
      match bootSector fs with
      | None => Panic NilDereference
      | Some bs =>
          r ← catch (Boot12.msDosBootSector_toBytes bs);
          match r with
          | inr e => mret (fs, Some (Wrapf "error serialising boot sector: %w" e))
          | inl b =>
              '(d, (_, err)) ← WriteAt (backend fs) b (start fs);
              mret (with_backend fs d, match err with Some e => Some (Wrapf "error writing boot sector: %w" e) | None => None end)
          end
      end
  end.

Definition WriteBootSector (fs : FS) : go (FS * option error) :=
  match WriteBootSectorFn fs with
  | Some hook => '(d, err) ← hook (backend fs); mret (with_backend fs d, err)
  | None => defaultWriteBootSector fs
  end.

(** ** Directories on disk *)

Definition isRootCluster (fs : FS) (clusterLocation : Z) : bool :=
  (0 <? rootDirMaxEntries fs) && (clusterLocation =? 0).

(** Where a cluster starts on the device. *)
Definition cluster_start (fs : FS) (cluster : Z) : Z :=
  i64 (i64 (start fs + dataStart fs) + i64 (u32 (cluster - 2) * bytesPerCluster fs)).

(** The clusters one after the other; an error of [ReadAt] is ignored. *)
Fixpoint read_clusters (fs : FS) (clusterList : list Z) : go (list Z) :=
  match clusterList with
  | [] => mret []
  | cluster :: rest =>
      tmp ← make 0 1 (bytesPerCluster fs);
      r ← ReadAt (backend fs) tmp (cluster_start fs cluster);
      b ← read_clusters fs rest;
      mret (r_buf r ++ b)
  end.

Definition readDirectory (fs : FS) (dir : Directory) : go Directory :=
  if isRootCluster fs (clusterLocation (self dir)) then
    b ← make 0 1 (i64 (rootDirMaxEntries fs * 32));
    b ← read_or (ReadAt (backend fs)) "could not read root directory: %w" b (i64 (rootDirOffset fs + start fs));
    entriesFromBytes dir b
  else
    r ← catch (getClusterList fuel fs (clusterLocation (self dir)));
    match r with
    | inr e => Err (Wrapf "could not read cluster list: %w" e)
    | inl clusterList =>
        _ ← make 0 1 (i64 (len clusterList * bytesPerCluster fs));
        b ← read_clusters fs clusterList;
        entriesFromBytes dir b
    end.

(** [WriteAt] of bytes at an offset of the backend. *)
Definition write_at (b : list Z) (off : Z) : fsm T D Z := fun fs =>
  '(d, (n, err)) ← WriteAt (backend fs) b off;
  Ret (with_backend fs d, match err with Some e => inr e | None => inl n end).

Definition writable : fsm T D unit := fun fs =>
  Ret (fs, match Writable (backend fs) with Some e => inr e | None => inl tt end).

(** [for i, cluster := range clusterList]: one cluster of the bytes to each. [b] is the
    slice up to its capacity. *)
Fixpoint write_clusters (b : list Z) (i : Z) (clusterList : list Z) : fsm T D unit :=
  match clusterList with
  | [] => mret tt
  | cluster :: rest => fun fs =>
      (let bStart := i64 (i * bytesPerCluster fs) in
       q ← pure (slice b bStart (i64 (bStart + bytesPerCluster fs)));
       written ← wrapping (Wrapf "error writing directory entries: %w") (write_at q (cluster_start fs cluster));
       if negb (written =? bytesPerCluster fs) then fail (Errorf "wrote %d bytes to cluster %d instead of expected %d")
       else write_clusters b (i + 1) rest) fs
  end.

Definition write_fixed_root (dir : Directory) : fsm T D unit := fun fs =>
  let fixedSize := i64 (rootDirMaxEntries fs * 32) in
  (b ← wrapping (Wrapf "could not serialise root directory entries: %w") (pure (entriesToBytesFixed dir fixedSize));
   if fixedSize <? len b then fail (Errorf "root directory full: max %d entries for this FAT12/16 volume")
   else
     _ ← writable;
     _ ← wrapping (Wrapf "error writing root directory: %w") (write_at b (i64 (rootDirOffset fs + start fs)));
     mret tt) fs.

Definition write_chain_dir (dir : Directory) : fsm T D unit := fun fs =>
  (b ← wrapping (Wrapf "could not create byte stream for directory entries: %w") (pure (entriesToBytes dir (bytesPerCluster fs)));
   _ ← writable;
   clusterList ← wrapping (Wrapf "unable to get clusters for directory: %w")
     (reading (fun fs => getClusterList fuel fs (clusterLocation (self dir))));
   clusterList ←
     (if i64 (len clusterList * bytesPerCluster fs) <? len b then
        first ← pure (index clusterList 0);
        wrapping (Wrapf "unable to allocate space for directory entries: %w") (fun fs => allocateSpace fuel fs (u64 (len b)) first)
      else mret clusterList);
   write_clusters (b ++ replicate (Z.to_nat (spare (len b))) 0) 0 clusterList) fs.

Definition writeDirectoryEntries (dir : Directory) : fsm T D unit := fun fs =>
  if isRootCluster fs (clusterLocation (self dir)) then write_fixed_root dir fs else write_chain_dir dir fs.

(** ** Making entries *)

Definition mk_entry (what : string) (parent : Directory) (name : gostring) (dir : bool) : fsm T D (Directory * directoryEntry) :=
  clusters ← wrapping (Wrapf what) (fun fs => allocateSpace fuel fs 1 0);
  first ← pure (index clusters 0);
  pure (createEntry now parent name first dir).

Definition mkSubdir (parent : Directory) (name : gostring) : fsm T D (Directory * directoryEntry) :=
  mk_entry "could not allocate disk space for dir %s: %w" parent name true.
Definition mkFile (parent : Directory) (name : gostring) : fsm T D (Directory * directoryEntry) :=
  mk_entry "could not allocate disk space for file %s: %w" parent name false.
Definition mkLabel (parent : Directory) (name : gostring) : go (Directory * directoryEntry) := createVolumeLabel now parent name.

(** ** Paths *)

Definition with_modified (e : directoryEntry) (t : time) : directoryEntry :=
  with_names e (filenameShort e) (fileExtension e) (filenameLong e) (longFilenameSlots e) t.

(** The directory [subp] is made in [currentDir]: its own entries, then the parent. *)
Definition make_dir (currentDir : Directory) (subp : gostring) : fsm T D Directory :=
  '(currentDir, subdirEntry) ← wrapping (Wrapf "failed to create subdirectory %s: %w") (mkSubdir currentDir subp);
  let currentDir := mkDir (with_modified (self currentDir) (createTime subdirEntry)) (entries currentDir) in
  let me := self currentDir in
  let dir := mkDir (new_entry [] [] [] false false 0 0 0 (clusterLocation subdirEntry) 0 false)
    [ new_entry (lit ".") [] [] false true (createTime subdirEntry) (modifyTime subdirEntry) (accessTime subdirEntry) (clusterLocation subdirEntry) 0 false;
      new_entry (lit "..") [] [] false true (createTime me) (modifyTime me) (accessTime me) (clusterLocation me) 0 false ] in
  _ ← wrapping (Wrapf "error writing new directory entries: %w") (writeDirectoryEntries dir);
  _ ← wrapping (Wrapf "error writing directory entries: %w") (writeDirectoryEntries currentDir);
  mret (mkDir subdirEntry []).

Definition is_named (subp : gostring) (e : directoryEntry) : bool := negb (isVolumeLabel e) && nameMatches e subp.

Fixpoint walk (doMake : bool) (currentDir : Directory) (paths : list gostring) : fsm T D Directory :=
  match paths with
  | [] => mret currentDir
  | subp :: rest =>
      next ← match list_find (fun e => is_named subp e = true) (entries currentDir) with
             | Some (_, e) =>
                 if isSubdirectory e then mret (mkDir e [])
                 else fail (Errorf "cannot create directory at %s since it is a file")
             | None =>
                 if doMake then make_dir currentDir subp else fail (Errorf "path %s not found")
             end;
      currentDir ← wrapping (Wrapf "failed to read directory %s: %w") (reading (fun fs => readDirectory fs next));
      walk doMake currentDir rest
  end.

(** The root's entry has a zero [time.Time]. *)
Definition root_dir (fs : FS) : Directory :=
  let rootCluster := if rootDirMaxEntries fs =? 0 then RootDirCluster (table fs) else 0 in
  mkDir (new_entry [] [] [] false true 0 0 0 rootCluster 0 false) [].

(** The directory and its entries. *)
Definition readDirWithMkdir (p : gostring) (doMake : bool) : fsm T D Directory := fun fs =>
  (paths ← pure (splitPath p);
   currentDir ← wrapping (Wrapf "failed to read root directory: %w") (reading (fun fs => readDirectory fs (root_dir fs)));
   if bool_decide (p = dot) then mret currentDir else walk doMake currentDir paths) fs.

(** ** Operations *)

Definition Mkdir (p : gostring) : fsm T D unit := _ ← readDirWithMkdir p true; mret tt.

(** Operations a FAT file system does not have. *)
Definition Mknod : option error := Some ErrNotSupported.
Definition Link : option error := Some ErrNotSupported.
Definition Symlink : option error := Some ErrNotSupported.
Definition Chmod : option error := Some ErrNotSupported.
Definition Chown : option error := Some ErrNotSupported.

Definition set_times (e : directoryEntry) (ctime atime mtime : time) : directoryEntry :=
  mkEntry (filenameShort e) (fileExtension e) (filenameLong e) (isReadOnly e) (isHidden e) (isSystem e) (isVolumeLabel e)
    (isSubdirectory e) (isArchiveDirty e) (isDevice e) (lowercaseShortname e) (lowercaseExtension e) ctime mtime atime
    (acccessRights e) (clusterLocation e) (fileSize e) (longFilenameSlots e) (isNew e).
Definition set_archive (e : directoryEntry) (on : bool) : directoryEntry :=
  mkEntry (filenameShort e) (fileExtension e) (filenameLong e) (isReadOnly e) (isHidden e) (isSystem e) (isVolumeLabel e)
    (isSubdirectory e) on (isDevice e) (lowercaseShortname e) (lowercaseExtension e) (createTime e) (modifyTime e) (accessTime e)
    (acccessRights e) (clusterLocation e) (fileSize e) (longFilenameSlots e) (isNew e).

(** The position of the last entry that answers to a name: the loops that look for an
    entry without [break] keep the last. *)
Fixpoint last_match (name : gostring) (es : list directoryEntry) (i : nat) (found : option nat) : option nat :=
  match es with
  | [] => found
  | e :: rest => last_match name rest (S i) (if nameMatches e name then Some i else found)
  end.

(** The entry a path names, in its directory, changed by [f] and written back. *)
Definition change_entry (p : gostring) (refused : error) (f : directoryEntry -> directoryEntry) : fsm T D unit :=
  let dir := Dir p in
  let filename := Base p in
  if bool_decide (dir = filename) then fail refused
  else
    parentDir ← wrapping (Wrapf "could not read directory entries for %s: %w") (readDirWithMkdir dir false);
    match last_match filename (entries parentDir) 0 None with
    | None => fail (Errorf "path %s not found")
    | Some i => writeDirectoryEntries (set_entries parentDir (alter f i (entries parentDir)))
    end.

Definition Chtimes (p : gostring) (ctime atime mtime : time) : fsm T D unit :=
  change_entry p (Errorf "cannot open directory %s as file") (fun e => set_times e ctime atime mtime).
Definition SetArchiveBit (p : gostring) (on : bool) : fsm T D unit :=
  change_entry p (Errorf "cannot set archive bit on root directory %s") (fun e => set_archive e on).

Definition GetArchiveBit (p : gostring) : fsm T D bool :=
  let dir := Dir p in
  let filename := Base p in
  if bool_decide (dir = filename) then fail (Errorf "cannot get archive bit on root directory %s")
  else
    parentDir ← wrapping (Wrapf "could not read directory entries for %s: %w") (readDirWithMkdir dir false);
    match list_find (fun e => nameMatches e filename = true) (entries parentDir) with
    | Some (_, e) => mret (isArchiveDirty e)
    | None => fail (Errorf "path %s not found")
    end.

Definition validatePath (name : gostring) : option error := if ValidPath name then None else Some ErrInvalid.

Definition listed (e : directoryEntry) : bool :=
  negb (isVolumeLabel e || bool_decide (filenameShort e = [] \/ filenameShort e = dotdot \/ filenameShort e = dot)).

Definition ReadDir (p : gostring) : fsm T D (list directoryEntry) :=
  match validatePath p with
  | Some e => fail e
  | None =>
      dir ← wrapping (Wrapf "error reading directory %s: %w") (readDirWithMkdir p false);
      mret (filter (fun e => listed e = true) (entries dir))
  end.

(** The entry to remove: the last that answers to the name; every directory among
    those that do must be empty. *)
Fixpoint find_removable (pathname filename : gostring) (es : list directoryEntry) (found : bool) : fsm T D bool :=
  match es with
  | [] => mret found
  | e :: rest =>
      if negb (nameMatches e filename) then find_removable pathname filename rest found
      else if isSubdirectory e then
        content ← wrapping (Wrapf "error while checking if directory to delete is empty: %w") (ReadDir pathname);
        if 0 <? len content then fail (Errorf "cannot remove non-empty directory %s")
        else find_removable pathname filename rest true
      else find_removable pathname filename rest true
  end.

(** The last steps of [Remove] and [Rename]: the directory's chain is resized to the
    size its own entry gives, which is 0 for a directory, and its entries written. *)
Definition rewrite_parent (parentDir : Directory) : fsm T D unit :=
  _ ← wrapping (as_v "failed to allocate clusters: %v")
    (fun fs => allocateSpace fuel fs (fileSize (self parentDir)) (clusterLocation (self parentDir)));
  writeDirectoryEntries parentDir.

Definition Remove (pathname : gostring) : fsm T D unit :=
  let dir := Dir pathname in
  let filename := Base pathname in
  if bool_decide (dir = filename) then fail (Errorf "cannot remove directory %s as file")
  else
    parentDir ← wrapping (as_v "could not read directory entries for %s") (readDirWithMkdir dir false);
    found ← find_removable pathname filename (entries parentDir) false;
    if negb found then fail (Errorf "target file %s does not exist")
    else
      parentDir ← wrapping (as_v "failed to remove file %s: %v") (pure (removeEntry parentDir filename));
      rewrite_parent parentDir.

Definition Rename (oldpath newpath : gostring) : fsm T D unit :=
  let dir := Dir oldpath in
  let filename := Base oldpath in
  if negb (bool_decide (dir = Dir newpath)) then fail (Errorf "can only rename files within the same directory")
  else if bool_decide (dir = filename) then fail (Errorf "cannot rename directory %s as file")
  else
    parentDir ← wrapping (as_v "could not read directory entries for %s") (readDirWithMkdir dir false);
    match last_match filename (entries parentDir) 0 None with
    | None => fail (Errorf "target file %s does not exist")
    | Some _ =>
        parentDir ← wrapping (as_v "failed to rename file %s: %v") (pure (renameEntry now parentDir filename (Base newpath)));
        rewrite_parent parentDir
    end.

Definition Stat (name : gostring) : fsm T D FileInfo :=
  let dir := Dir name in
  let basename := Base name in
  des ← wrapping (as_v "could not read directory %s: %v") (ReadDir dir);
  if bool_decide (dir = basename) && (bool_decide (basename = [slash]) || bool_decide (basename = dot)) then
    rootDir ← wrapping (as_v "could not read root directory: %v") (readDirWithMkdir [slash] false);
    mret (Info (self rootDir))
  else
    match list_find (fun de => Name de = basename) des with
    | Some (_, de) => mret (Info de)
    | None => fail (Errorf "file %s not found in directory %s")
    end.

(** Empty when there is no label entry or the root cannot be read. *)
Definition Label : fsm T D gostring :=
  r ← attempt (readDirWithMkdir [slash] false);
  match r with
  | inr _ => mret []
  | inl dir =>
      mret match list_find (fun e => isVolumeLabel e = true) (entries dir) with
           | Some (_, e) => filenameShort e ++ fileExtension e
           | None => []
           end
  end.

Fixpoint last_label (es : list directoryEntry) (i : nat) (found : option nat) : option nat :=
  match es with
  | [] => found
  | e :: rest => last_label rest (S i) (if isVolumeLabel e then Some i else found)
  end.

Definition set_short (short ext : gostring) (e : directoryEntry) : directoryEntry :=
  with_names e short ext (filenameLong e) (longFilenameSlots e) (modifyTime e).

Definition SetRootDirLabel (volumeLabel : gostring) : fsm T D unit :=
  let volumeLabel := pad_exact 11 volumeLabel in
  rootDir ← wrapping (Wrapf "failed to locate root directory: %w") (readDirWithMkdir [slash] false);
  rootDir ← match last_label (entries rootDir) 0 None with
            | Some i =>
                short ← pure (slice volumeLabel 0 8);
                ext ← pure (slice volumeLabel 8 11);
                mret (set_entries rootDir (alter (set_short short ext) i (entries rootDir)))
            | None =>
                '(rootDir, _) ← wrapping (Wrapf "failed to create volume label entry '%s': %w") (pure (mkLabel rootDir volumeLabel));
                mret rootDir
            end;
  writeDirectoryEntries rootDir.

Definition set_boot_label (bs : Boot12.msDosBootSector) (label : gostring) : Boot12.msDosBootSector :=
  let p := Boot12.biosParameterBlock bs in
  Boot12.mkBootSector (Boot12.jumpInstruction bs) (Boot12.oemName bs)
    (mkDos40 (dos331 p) (DriveNumber p) (ReservedFlags p) (ExtBootSignature p) (VolumeSerialNumber p) label (FileSystemType p))
    (Boot12.bootCode bs).
Definition with_boot (fs : FS) (bs : Boot12.msDosBootSector) : FS :=
  mkFS (Some bs) (table fs) (dataStart fs) (bytesPerCluster fs) (size fs) (start fs) (backend fs) (rootDirOffset fs)
       (rootDirMaxEntries fs) (fatPrimaryStart fs) (fatSecondaryStart fs) (WriteBootSectorFn fs) (AfterWriteFAT fs).

Definition SetLabel (volumeLabel : gostring) : fsm T D unit := fun fs =>
  let volumeLabel := match volumeLabel with [] => lit "NO NAME" | _ => volumeLabel end in
  let volumeLabel := pad_exact 11 volumeLabel in
  match bootSector fs with
  | None => fail (Errorf "failed to load the boot sector") fs
  | Some bs =>
      (_ ← wrapping (Wrapf "failed to write the boot sector: %w") (calling WriteBootSector);
       SetRootDirLabel volumeLabel) (with_boot fs (set_boot_label bs volumeLabel))
  end.
End fs.

(** ** A directory on disk *)

Section on_disk.
Context {T D : Type} `{Htab : FATTable T} `{Hst : Storage D} {ok : T -> Prop} {Hlaws : FATLaws T ok}.
Context {repr : D -> Z -> (Z -> Z) -> Prop} {Hdev : WritableDevice D repr} `{UnicodeTables} `{AsciiSetLaws}.
Context (fuel : nat) (spare : Z -> Z).
Notation FS := (FileSystem T D).

Lemma cluster_start_ok (fs : FS) size clusters i : in_volume fs size clusters -> 0 <= i < len clusters ->
  cluster_start fs (nth_cluster clusters i) = cluster_base fs clusters i.
Proof.
  intros Hv Hi. destruct (cluster_base_bounds fs size clusters i Hv Hi) as (Hlo & Hhi & Hu & H2).
  destruct Hv as [Hs Hb Hst' Hd _]. unfold cluster_start. rewrite Hu. unfold cluster_base in *.
  rewrite (i64_id (_ * _)) by lia. rewrite (i64_id (start fs + _)) by lia. by rewrite i64_id by lia.
Qed.

(** The clusters from one on are read in order. *)
Lemma read_clusters_ok (fs : FS) size clusters c : in_volume fs size clusters -> repr (backend fs) size c ->
  forall l i, 0 <= i -> l = from clusters i ->
  read_clusters fs l = Ret (span (chain_byte fs clusters c) (i * bytesPerCluster fs) (len l * bytesPerCluster fs)).
Proof.
  intros Hv Hr. pose proof (iv_bpc _ _ _ Hv) as Hb. induction l as [|x l IH]; intros i Hi El; cbn [read_clusters]; [done|].
  destruct (from_clusters clusters i x l Hi El) as (Hil & -> & El').
  destruct (cluster_base_bounds fs size clusters i Hv) as (Hlo & Hhi & _); [lia|].
  pose proof (iv_start _ _ _ Hv). pose proof (iv_data _ _ _ Hv).
  rewrite make_ok by (unfold maxAlloc; lia). cbn [mbind go_bind]. rewrite (cluster_start_ok fs size) by (done || lia).
  rewrite (wd_read _ _ _ _ _ Hr) by (rewrite ?len_replicate; lia). cbn [mbind go_bind r_buf].
  rewrite (IH (i + 1)) by (done || lia). cbn [mbind go_bind mret go_ret]. f_equal.
  rewrite len_replicate, Z2Nat.id by lia. rewrite <-(Z.add_0_r (cluster_base fs clusters i)), (cluster_span fs clusters c i 0), Z.add_0_r by lia.
  rewrite len_cons. replace ((1 + len l) * bytesPerCluster fs) with (bytesPerCluster fs + len l * bytesPerCluster fs) by lia.
  pose proof (len_nonneg l). rewrite (span_app _ _ (bytesPerCluster fs)) by nia. do 2 f_equal. lia.
Qed.

(** One cluster of the bytes goes to each cluster of the chain. *)
Lemma write_clusters_ok size clusters b : bytes_ok b -> NoDup clusters -> forall l (fs : FS) c i,
  in_volume fs size clusters -> repr (backend fs) size c -> 0 <= i <= len clusters -> l = from clusters i ->
  len clusters * bytesPerCluster fs <= len b -> len b < 2 ^ 63 ->
  exists d c', write_clusters b i l fs = Ret (with_backend fs d, inl tt) /\ repr d size c' /\
    stored_at fs clusters c (i * bytesPerCluster fs) b.[i * bytesPerCluster fs, len clusters * bytesPerCluster fs] c'.
Proof.
  intros Hbb Hnd. induction l as [|x l IH]; intros fs c i Hv Hr Hi El Hlen Hl63; cbn [write_clusters].
  - exists (backend fs), c. assert (i = len clusters) as ->.
    { apply (f_equal len) in El. rewrite len_from in El by lia. change (len []) with 0 in El. lia. }
    split; [by destruct fs|]. split; [done|]. unfold sub. rewrite Z.sub_diag. apply stored_nil.
  - pose proof (iv_bpc _ _ _ Hv) as Hb. destruct (from_clusters clusters i x l) as (Hil & -> & El'); [lia|done|].
    destruct (cluster_base_bounds fs size clusters i Hv) as (Hlo & Hhi & _); [lia|].
    pose proof (iv_start _ _ _ Hv). pose proof (iv_data _ _ _ Hv).
    assert (0 <= i * bytesPerCluster fs /\ (i + 1) * bytesPerCluster fs <= len clusters * bytesPerCluster fs) as [Hlo' Hhi'].
    { split; [nia|]. apply Z.mul_le_mono_nonneg_r; lia. }
    set (q := b.[i * bytesPerCluster fs, i * bytesPerCluster fs + bytesPerCluster fs]).
    assert (len q = bytesPerCluster fs) as Hq by (unfold q; rewrite len_sub; lia).
    destruct (wd_write _ _ _ q (cluster_base fs clusters i) Hr) as (d & Hw & Hd); [by apply bytes_ok_sub|lia|lia|].
    destruct (IH (with_backend fs d) _ (i + 1) ltac:(by destruct Hv; split) Hd) as (d' & c' & Hrun & Hd' & Hsto); [lia|done|done|done|].
    exists d', c'. split; [|split; [done|]].
    + cbv beta zeta. rewrite !i64_id by (rewrite ?i64_id; lia).
      erewrite fsm_bind_ok by (apply pure_ok, slice_ok; lia). fold q.
      erewrite fsm_bind_ok by (apply wrapping_ok; unfold write_at; rewrite (cluster_start_ok fs size) by (done || lia); rewrite Hw; reflexivity).
      cbv beta. rewrite Hq, Z.eqb_refl. cbn [negb]. rewrite Hrun. by destruct fs.
    + replace (b.[_, len clusters * _]) with (q ++ b.[(i + 1) * bytesPerCluster fs, len clusters * bytesPerCluster fs]).
      2:{ unfold q. replace ((i + 1) * bytesPerCluster fs) with (i * bytesPerCluster fs + bytesPerCluster fs) by lia. apply sub_cat; lia. }
      eapply stored_app; [|rewrite Hq; replace (i * _ + _) with ((i + 1) * bytesPerCluster fs) by lia; exact Hsto].
      rewrite <-(Z.add_0_r (i * _)). rewrite <-(Z.add_0_r (cluster_base fs clusters i)). apply (stored_part fs); done || lia.
Qed.

Lemma parse_dir (dir : Directory) es b n : Forall entry_ok es -> concat_entries es = Ret b ->
  entriesFromBytes dir (b ++ replicate n 0) = Ret (set_entries dir (map stored es)).
Proof using H H0 H1. intros Hes Hb. unfold entriesFromBytes. by rewrite (parse_concat es b n). Qed.

(** The entries of a directory are saved: written, read back as they are stored, with
    the bytes outside as they were. *)
Definition saved (fs : FS) (size : Z) (c : Z -> Z) (dir : Directory) (outside : Z -> Prop) : Prop :=
  exists d c', writeDirectoryEntries fuel spare dir fs = Ret (with_backend fs d, inl tt) /\
    repr d size c' /\ readDirectory fuel (with_backend fs d) dir = Ret (set_entries dir (map stored (entries dir))) /\
    forall x, outside x -> c' x = c x.

Lemma entries_bytes es b : Forall entry_ok es -> concat_entries es = Ret b -> bytes_ok b.
Proof using H H0 H1. intros Hes Hb. eapply concat_bytes; [|exact Hb]. eapply Forall_impl; [exact Hes|]. by intros e [? _]. Qed.

Lemma chain_dir_saved (fs : FS) size c dir b clusters : Forall entry_ok (entries dir) -> concat_entries (entries dir) = Ret b ->
  repr (backend fs) size c -> let loc := clusterLocation (self dir) in
  let room := len clusters * bytesPerCluster fs in let used := len b + padding (len b) (bytesPerCluster fs) in
  isRootCluster fs loc = false -> chain_at (ok := ok) fuel fs loc clusters -> in_volume fs size clusters ->
  room <= maxAlloc -> used <= room <= used + spare used -> spare used < 2 ^ 62 ->
  saved fs size c dir (fun x => forall i, 0 <= i < len clusters ->
    ~ (cluster_base fs clusters i <= x < cluster_base fs clusters i + bytesPerCluster fs)).
Proof using All.
  intros Hes Hb Hr loc room used Hroot Hch Hv Hroom Hused Hsp. pose proof (len_nonneg b). pose proof (entries_bytes _ _ Hes Hb) as Hbb.
  pose proof (iv_bpc _ _ _ Hv) as Hbpc.
  destruct (chain_at_list _ _ _ _ Hch) as (Hcl & Hlen & Hnd).
  destruct (entriesToBytes_eq dir (bytesPerCluster fs) b Hb) as (Heb & Hpad & _); [unfold maxAlloc; lia|].
  set (p := padding (len b) (bytesPerCluster fs)) in *. set (b1 := b ++ replicate (Z.to_nat p) 0) in *.
  assert (len b1 = used) as Hb1 by (unfold b1; rewrite len_app, len_replicate; lia).
  set (B := b1 ++ replicate (Z.to_nat (spare (len b1))) 0).
  assert (B.[0, room] = b ++ replicate (Z.to_nat (room - len b)) 0) as HB.
  { unfold B, b1. rewrite <-(assoc app), <-replicate_add. unfold sub. rewrite Z.sub_0_r. change (Z.to_nat 0) with 0%nat. rewrite drop_0.
    rewrite take_app_ge by (unfold len in *; lia). f_equal. rewrite take_replicate. f_equal. fold b1. rewrite Hb1. unfold len in *. lia. }
  destruct (write_clusters_ok size clusters B) with (l := clusters) (fs := fs) (c := c) (i := 0) as (d & c' & Hw & Hd & Hsto); try done.
  { repeat apply Forall_app_2; try done; apply bytes_ok_zeros. }
  { lia. }
  { unfold B. rewrite len_app, len_replicate, Hb1. fold room. lia. }
  { unfold B. rewrite len_app, len_replicate, Hb1. unfold maxAlloc in *. lia. }
  exists d, c'. split_and!; [|done| |].
  + unfold writeDirectoryEntries. fold loc. rewrite Hroot. unfold write_chain_dir.
    erewrite fsm_bind_ok by (apply wrapping_ok, pure_ok; exact Heb).
    erewrite fsm_bind_ok by (unfold writable; rewrite (wd_writable _ _ _ Hr); reflexivity).
    erewrite fsm_bind_ok by (apply wrapping_ok, reading_ok; exact Hcl).
    rewrite i64_id by (fold room; unfold maxAlloc in *; lia). rewrite Hb1, (proj2 (Z.ltb_ge _ _)) by (fold room; lia).
    erewrite fsm_bind_ok by reflexivity. rewrite <-Hb1. exact Hw.
  + unfold readDirectory. change (isRootCluster (with_backend fs d) _) with (isRootCluster fs loc). rewrite Hroot.
    change (getClusterList fuel (with_backend fs d) _) with (getClusterList fuel fs loc). rewrite Hcl. cbn [catch mbind go_bind].
    change (bytesPerCluster (with_backend fs d)) with (bytesPerCluster fs).
    rewrite i64_id by (fold room; unfold maxAlloc in *; lia). rewrite make_ok by (fold room; lia). cbn [mbind go_bind].
    rewrite (read_clusters_ok (with_backend fs d) size clusters c') with (i := 0) by (try done; by destruct Hv; split).
    cbn [mbind go_bind]. change (bytesPerCluster (with_backend fs d)) with (bytesPerCluster fs). rewrite !Z.mul_0_l in *. fold room in Hsto |- *.
    rewrite HB in Hsto. assert (len (b ++ replicate (Z.to_nat (room - len b)) 0) = room) as HlB by (rewrite len_app, len_replicate; lia).
    pose proof (stored_read fs clusters c 0 _ c' ltac:(lia) ltac:(rewrite HlB; fold room; lia) Hsto) as Hrd.
    rewrite HlB in Hrd. change (chain_byte (with_backend fs d) clusters c') with (chain_byte fs clusters c'). rewrite Hrd.
    by apply parse_dir.
  + apply Hsto.
Qed.

Lemma fixed_root_saved (fs : FS) size c dir b : Forall entry_ok (entries dir) -> concat_entries (entries dir) = Ret b ->
  repr (backend fs) size c -> let loc := clusterLocation (self dir) in
  let n := rootDirMaxEntries fs * 32 in let at_ := rootDirOffset fs + start fs in
  isRootCluster fs loc = true -> len b <= n <= maxAlloc -> 0 <= rootDirOffset fs -> 0 <= start fs -> at_ + n <= size ->
  saved fs size c dir (fun x => ~ (at_ <= x < at_ + n)).
Proof using All.
  intros Hes Hb Hr loc n at_ Hroot Hn Ho Hs Hfit. pose proof (len_nonneg b). pose proof (wd_size _ _ _ Hr).
  pose proof (entries_bytes _ _ Hes Hb) as Hbb. unfold maxAlloc in *.
  pose proof (entriesToBytesFixed_eq dir n b Hb ltac:(unfold maxAlloc; lia)) as He. rewrite (proj2 (Z.ltb_ge _ _)) in He by lia.
  set (z := zero_filled n b) in *. assert (len z = n) as Hz by (unfold z, zero_filled; rewrite len_app, len_replicate; lia).
  assert (bytes_ok z) as Hzb by (apply Forall_app_2; [done|apply bytes_ok_zeros]).
  destruct (wd_write _ _ _ z at_ Hr) as (d & Hw & Hd); [done|lia|lia|].
  exists d, (overwrite c at_ z). split_and!; [|done| |].
  + unfold writeDirectoryEntries. fold loc. rewrite Hroot. unfold write_fixed_root. rewrite (i64_id (_ * 32)) by lia. fold n.
    erewrite fsm_bind_ok by (apply wrapping_ok, pure_ok; exact He). rewrite Hz, Z.ltb_irrefl.
    erewrite fsm_bind_ok by (unfold writable; rewrite (wd_writable _ _ _ Hr); reflexivity).
    rewrite i64_id by lia. fold at_.
    erewrite fsm_bind_ok by (apply wrapping_ok; unfold write_at; rewrite Hw; reflexivity). done.
  + unfold readDirectory. change (isRootCluster (with_backend fs d) _) with (isRootCluster fs loc). rewrite Hroot.
    change (rootDirMaxEntries (with_backend fs d)) with (rootDirMaxEntries fs). rewrite (i64_id (_ * 32)) by lia. fold n.
    rewrite make_ok by (unfold maxAlloc; lia). cbn [mbind go_bind]. unfold read_or.
    change (rootDirOffset (with_backend fs d) + start (with_backend fs d)) with at_. rewrite i64_id by lia.
    rewrite (wd_read _ _ _ _ _ Hd) by (rewrite ?len_replicate; lia). cbn [mbind go_bind r_err r_buf mret go_ret].
    rewrite len_replicate, Z2Nat.id by lia.
    assert (span (overwrite c at_ z) at_ n = z) as ->.
    { symmetry. apply span_ext; [done|]. intros i Hi. destruct (index_ok z i ltac:(lia)) as (x & Hx & _). rewrite Hx. f_equal.
      unfold overwrite. rewrite (proj2 (Z.leb_le _ _)), (proj2 (Z.ltb_lt _ _)) by lia. cbn [andb]. unfold byte_at.
      replace (at_ + i - at_) with i by lia. by rewrite Hx. }
    by apply parse_dir.
  + intros x Hx. unfold overwrite. rewrite Hz.
    by replace ((_ <=? _) && (_ <? _)) with false by (symmetry; apply andb_false_iff; rewrite Z.leb_gt, Z.ltb_ge; lia).
Qed.

(** C9. A directory on disk. Every entry has a short name of one to eight ASCII
    characters and an extension of at most three, neither with a space at its end, the first
    character not NUL, attributes that are not the mark of a long name, and a cluster and a
    size of 32 bits; its long name, if it has one, is ASCII without NUL, at most 63 * 13
    characters, next to a short name of valid characters (of other names more than the
    entry is written, see [non_ascii_name_grows]). When the clusters of the
    directory's chain have room for the entries ([append] having left the slice of entries the
    capacity for the clusters behind them), or the fixed root of a FAT12 or FAT16 volume has,
    [writeDirectoryEntries] succeeds, [readDirectory] on the volume afterwards gives the
    entries back, and no byte of the device outside the directory has changed. *)
Theorem fat_directory_on_disk (fs : FS) size c dir b : Forall entry_ok (entries dir) -> concat_entries (entries dir) = Ret b ->
  repr (backend fs) size c -> let loc := clusterLocation (self dir) in
  (forall clusters, let room := len clusters * bytesPerCluster fs in let used := len b + padding (len b) (bytesPerCluster fs) in
    isRootCluster fs loc = false -> chain_at (ok := ok) fuel fs loc clusters -> in_volume fs size clusters ->
    room <= maxAlloc -> used <= room <= used + spare used -> spare used < 2 ^ 62 ->
    saved fs size c dir (fun x => forall i, 0 <= i < len clusters ->
      ~ (cluster_base fs clusters i <= x < cluster_base fs clusters i + bytesPerCluster fs))) /\
  (let n := rootDirMaxEntries fs * 32 in let at_ := rootDirOffset fs + start fs in
    isRootCluster fs loc = true -> len b <= n <= maxAlloc -> 0 <= rootDirOffset fs -> 0 <= start fs -> at_ + n <= size ->
    saved fs size c dir (fun x => ~ (at_ <= x < at_ + n))).
Proof using All.
  intros Hes Hb Hr loc. split; [intros clusters room used|intros n at_]; intros.
  - by apply (chain_dir_saved fs size c dir b).
  - by apply (fixed_root_saved fs size c dir b).
Qed.
End on_disk.

(** ** Witnesses *)

#[local] Existing Instance tables.
#[local] Existing Instance byte_set.
#[local] Existing Instance byte_set_laws.

(** A volume of five clusters of 64 bytes: two tables of nine bytes at 0 and 9, a root of
    four slots at 18, the clusters from 146 on; 2 -> 3 -> 5 is the chain of the table. *)
Definition sample_volume : FileSystem Fat12.fat12Table memory :=
  mkFS None sample12 146 64 512 0 (mkMemory (replicate 512 0) false 0) 18 4 0 9 None None.

Definition sample_entries : list Z := match concat_entries (entries sample_dir) with Ret b => b | _ => [] end.
Lemma sample_entries_eq : concat_entries (entries sample_dir) = Ret sample_entries.
Proof. vm_compute. reflexivity. Defined.

Lemma sample_volume_is : memory_is (backend sample_volume) 512 (file_content (replicate 512 0)).
Proof. unfold memory_is. split_and!; [reflexivity|reflexivity|reflexivity|apply bytes_ok_zeros|done]. Defined.

Lemma sample_chain_at first l : chain sample12 (first :: l) -> 0 <= first <= 6 -> Forall (fun x => 0 <= x) l ->
  chain_at (ok := Fat12.ok) 20 sample_volume first (first :: l).
Proof.
  intros Hl Hf Hpos. split; [split; [apply fc_sample_ok|by split]|cbn; lia|exact Hf|by exists l].
Defined.

Definition in_cluster_3 (e : directoryEntry) : directoryEntry :=
  new_entry (filenameShort e) (fileExtension e) (filenameLong e) false true 0 0 0 3 0 false.

Lemma fat_directory_on_disk_witness :
  saved 20 (fun _ => 0) (repr := memory_is) sample_volume 512 (file_content (replicate 512 0))
    (mkDir (in_cluster_3 (self sample_dir)) (entries sample_dir)) (fun x => x < 210 \/ 402 <= x) /\
  saved 20 (fun _ => 0) (repr := memory_is) sample_volume 512 (file_content (replicate 512 0))
    (mkDir (new_entry [] [] [] false true 0 0 0 0 0 false) (entries sample_dir)) (fun x => ~ 18 <= x < 146).
Proof.
  split.
  - destruct (fat_directory_on_disk (ok := Fat12.ok) (repr := memory_is) 20 (fun _ => 0) sample_volume 512 (file_content (replicate 512 0))
      (mkDir (in_cluster_3 (self sample_dir)) (entries sample_dir)) sample_entries dir_names_ok sample_entries_eq sample_volume_is) as [Hc _].
    destruct (Hc [3; 5]) as (d & c' & Hw & Hd & Hrd & Hf); [reflexivity| | |vm_compute; congruence|vm_compute; split; congruence|vm_compute; reflexivity|].
    + apply sample_chain_at; [|lia|by repeat constructor].
      constructor; [by repeat split; cbn|]. apply (chain_end _ 5 0xFFF); reflexivity.
    + split; [reflexivity|cbn; lia|cbn; lia|cbn; lia|]. repeat constructor; cbn; lia.
    + exists d, c'. split; [exact Hw|]. split; [exact Hd|]. split; [exact Hrd|]. intros x Hx. apply Hf. intros i Hi.
      assert (i = 0 \/ i = 1) as [->| ->] by (change (len [3; 5]) with 2 in Hi; lia);
        [change (cluster_base _ _ _) with 210|change (cluster_base _ _ _) with 338]; change (bytesPerCluster sample_volume) with 64; lia.
  - destruct (fat_directory_on_disk (ok := Fat12.ok) (repr := memory_is) 20 (fun _ => 0) sample_volume 512 (file_content (replicate 512 0))
      (mkDir (new_entry [] [] [] false true 0 0 0 0 0 false) (entries sample_dir)) sample_entries dir_names_ok sample_entries_eq sample_volume_is) as [_ Hc].
    apply Hc; [reflexivity|vm_compute; split; congruence|cbn; lia|cbn; lia|cbn; lia].
Defined.
