(* ===== verification/FatFile.v ===== *)
(** * FatFile: open files of diskkit/filesystem/fat12/file.go
    Opening by path, reading, writing and seeking. An open file points to its entry in
    the parent directory, or to the parent's own entry for the root. *)
From S2P Require Import Prelude Bytes ReaderAt Text GoTime FatBoot FatTable Storage FatChain FatData FatDirent FatDir FatFs.

(** Which entry the file's [*directoryEntry] points to. *)
Inductive entry_ref := InParent (i : nat) | ParentSelf.

(** [filesystem] is nil after [Close]. *)
Record File := mkFile_ {
  entry : entry_ref; isReadWrite : bool; isAppend : bool; offset : Z; parent : Directory; is_open : bool
}.

Definition fl_entry (fl : File) : go directoryEntry :=
  match entry fl with
  | ParentSelf => Ret (self (parent fl))
  | InParent i => match entries (parent fl) !! i with Some e => Ret e | None => Panic NilDereference end
  end.
Definition update_entry (f : directoryEntry -> directoryEntry) (fl : File) : File :=
  let p := parent fl in
  let p := match entry fl with
           | ParentSelf => mkDir (f (self p)) (entries p)
           | InParent i => set_entries p (alter f i (entries p))
           end in
  mkFile_ (entry fl) (isReadWrite fl) (isAppend fl) (offset fl) p (is_open fl).
Definition with_offset (fl : File) (o : Z) : File :=
  mkFile_ (entry fl) (isReadWrite fl) (isAppend fl) o (parent fl) (is_open fl).

Definition set_size (n : Z) (e : directoryEntry) : directoryEntry :=
  mkEntry (filenameShort e) (fileExtension e) (filenameLong e) (isReadOnly e) (isHidden e) (isSystem e) (isVolumeLabel e)
    (isSubdirectory e) (isArchiveDirty e) (isDevice e) (lowercaseShortname e) (lowercaseExtension e)
    (createTime e) (modifyTime e) (accessTime e) (acccessRights e) (clusterLocation e) n (longFilenameSlots e) (isNew e).
Definition set_flags (ro hidden sys : bool) (e : directoryEntry) : directoryEntry :=
  mkEntry (filenameShort e) (fileExtension e) (filenameLong e) ro hidden sys (isVolumeLabel e)
    (isSubdirectory e) (isArchiveDirty e) (isDevice e) (lowercaseShortname e) (lowercaseExtension e)
    (createTime e) (modifyTime e) (accessTime e) (acccessRights e) (clusterLocation e) (fileSize e) (longFilenameSlots e) (isNew e).

Definition ErrClosed : error := Errorf "file already closed".

(** [DiskRange]. *)
Record DiskRange := mkRange { Offset : Z; Length : Z }.

Section file.
Context {T D : Type} `{FATTable T} `{Storage D} `{UnicodeTables} `{AsciiSet}.
Context (fuel : nat) (now : time) (spare : Z -> Z).
Notation FS := (FileSystem T D).

Definition Stat_ (fl : File) : go FileInfo := de ← fl_entry fl; mret (Info de).

Definition GetClusterChain (fs : FS) (fl : File) : go (list Z) :=
  if negb (is_open fl) then Err ErrClosed
  else
    de ← fl_entry fl;
    r ← catch (getClusterList fuel fs (clusterLocation de));
    match r with
    | inr _ => Err (Errorf "unable to get list of clusters for file: %v")
    | inl clusters => mret clusters
    end.

(** One cluster of the loop: the ranges so far and the last cluster. *)
Definition add_range (dataStart bytesPerCluster : Z) (s : list DiskRange * Z) (cluster : Z) : list DiskRange * Z :=
  let '(ranges, lastCluster) := s in
  (if negb (lastCluster =? 0) && (cluster =? u32 (lastCluster + 1)) then
     alter (fun r => mkRange (Offset r) (u64 (Length r + bytesPerCluster))) (length ranges - 1)%nat ranges
   else ranges ++ [mkRange (u64 (dataStart + u64 (u32 (cluster - 2) * bytesPerCluster))) bytesPerCluster],
   cluster).

Definition GetDiskRanges (fs : FS) (fl : File) : go (list DiskRange) :=
  clusters ← GetClusterChain fs fl;
  mret (foldl (add_range (dataStart fs) (u64 (bytesPerCluster fs))) ([], 0) clusters).1.

(** [int64(start) + int64(cluster-2)*int64(bytesPerCluster)]. *)
Definition data_offset (fs : FS) (cluster : Z) : Z := i64 (dataStart fs + i64 (u32 (cluster - 2) * bytesPerCluster fs)).

(** ** Read *)

(** [file.ReadAt(b[lo:hi], off)] with the results ignored: the buffer afterwards. *)
Definition read_part (fs : FS) (b : list Z) (lo hi off : Z) : go (list Z) :=
  q ← slice b lo hi;
  r ← ReadAt (backend fs) q off;
  mret (patch b lo (r_buf r)).

(** The loop over the clusters from [clusterIndex] on. *)
Definition read_body (fs : FS) (clusters : list Z) (maxRead : Z) (s : list Z * Z * Z) : go ((list Z * Z * Z) + (list Z * Z)) :=
  let '(b, totalRead, i) := s in
  if i <? len clusters then
    let left_ := i64 (maxRead - totalRead) in
    let toRead := if left_ <? bytesPerCluster fs then left_ else bytesPerCluster fs in
    cluster ← index clusters i;
    b ← read_part fs b totalRead (i64 (totalRead + toRead)) (i64 (data_offset fs cluster + start fs));
    let totalRead := i64 (totalRead + toRead) in
    if maxRead <=? totalRead then mret (inr (b, totalRead)) else mret (inl (b, totalRead, i64 (i + 1)))
  else mret (inr (b, totalRead)).

(** The part of the first cluster behind the offset: buffer, count, next cluster. *)
Definition read_first (fs : FS) (clusters : list Z) (offset : Z) (b : list Z) : go (list Z * Z * Z) :=
  if 0 <? offset then
    clusterIndex ← div64 offset (bytesPerCluster fs);
    lastCluster ← index clusters clusterIndex;
    remainder ← rem64 offset (bytesPerCluster fs);
    if negb (remainder =? 0) then
      let off := i64 (data_offset fs lastCluster + remainder) in
      let toRead := i64 (bytesPerCluster fs - remainder) in
      let toRead := if len b <? toRead then len b else toRead in
      b ← read_part fs b 0 toRead (i64 (off + start fs));
      mret (b, toRead, i64 (clusterIndex + 1))
    else mret (b, 0, clusterIndex)
  else mret (b, 0, 0).

(** The file afterwards, and the buffer, count and error. *)
Definition Read (fs : FS) (fl : File) (b : list Z) : go (File * rres) :=
  if negb (is_open fl) then mret (fl, mkR b 0 (Some ErrClosed))
  else
    de ← fl_entry fl;
    let size := i64 (fileSize de - offset fl) in
    r ← catch (getClusterList fuel fs (clusterLocation de));
    match r with
    | inr _ => mret (fl, mkR b 0 (Some (Errorf "unable to get list of clusters for file: %v")))
    | inl clusters =>
        if size <=? 0 then mret (fl, mkR b 0 (Some EOF))
        else
          let maxRead := if len b <? size then len b else size in
          '(b, totalRead, clusterIndex) ← read_first fs clusters (offset fl) b;
          '(b, totalRead) ← go_for (S (length clusters)) (read_body fs clusters maxRead) (b, totalRead, clusterIndex);
          let fl := with_offset fl (i64 (offset fl + totalRead)) in
          mret (fl, mkR b totalRead (if fileSize de <=? offset fl then Some EOF else None))
    end.

(** ** Write *)

Definition write_part (p : list Z) (lo hi : Z) (off : Z) : fsm T D unit :=
  q ← pure (slice p lo hi);
  _ ← wrapping (as_v "unable to write to file: %v") (write_at q off);
  mret tt.

Fixpoint write_rest (p : list Z) (totalWritten : Z) (clusters : list Z) : fsm T D Z :=
  match clusters with
  | [] => mret totalWritten
  | cluster :: rest => fun fs =>
      (let left_ := i64 (len p - totalWritten) in
       let toWrite := if left_ <? bytesPerCluster fs then left_ else bytesPerCluster fs in
       _ ← write_part p totalWritten (i64 (totalWritten + toWrite)) (i64 (data_offset fs cluster + start fs));
       write_rest p (i64 (totalWritten + toWrite)) rest) fs
  end.

(** The content: the part of the first cluster, then whole clusters. *)
Definition write_data (clusters : list Z) (offset : Z) (p : list Z) : fsm T D Z := fun fs =>
  (s ← (if 0 <? offset then
          clusterIndex ← pure (div64 offset (bytesPerCluster fs));
          lastCluster ← pure (index clusters clusterIndex);
          remainder ← pure (rem64 offset (bytesPerCluster fs));
          if negb (remainder =? 0) then
            let off := i64 (data_offset fs lastCluster + remainder) in
            let toWrite := i64 (bytesPerCluster fs - remainder) in
            let toWrite := if len p <? toWrite then len p else toWrite in
            _ ← write_part p 0 toWrite (i64 (off + start fs));
            mret (toWrite, i64 (clusterIndex + 1))
          else mret (0, clusterIndex)
        else mret (0, 0));
   let '(totalWritten, clusterIndex) := s in
   write_rest p totalWritten (from clusters clusterIndex)) fs.

(** The file system and the file afterwards, and the count or the error; the count that
    goes with an error is dropped. *)
Definition Write (fs : FS) (fl : File) (p : list Z) : go (FS * File * (Z + error)) :=
  if negb (is_open fl) then mret (fs, fl, inr ErrClosed)
  else
    match Writable (backend fs) with
    | Some e => mret (fs, fl, inr e)
    | None =>
        if negb (isReadWrite fl) then mret (fs, fl, inr ErrReadonlyFilesystem)
        else
          de ← fl_entry fl;
          let oldSize := fileSize de in
          let newSize := i64 (offset fl + len p) in
          let newSize := if newSize <? oldSize then oldSize else newSize in
          '(fs, r) ← allocateSpace fuel fs (u64 newSize) (clusterLocation de);
          match r with
          | inr _ => mret (fs, fl, inr (Errorf "unable to allocate clusters for file: %v"))
          | inl clusters =>
              let fl := if negb (oldSize =? newSize) then update_entry (set_size (u32 newSize)) fl else fl in
              '(fs, r) ← write_data clusters (offset fl) p fs;
              match r with
              | inr e => mret (fs, fl, inr e)
              | inl totalWritten =>
                  let fl := with_offset fl (i64 (offset fl + totalWritten)) in
                  '(fs, r) ← writeDirectoryEntries fuel spare (parent fl) fs;
                  match r with
                  | inr _ => mret (fs, fl, inr (Errorf "error writing directory entries to disk: %v"))
                  | inl _ => mret (fs, fl, inl totalWritten)
                  end
              end
          end
    end.

(** ** Seek and Close *)

Definition Seek (fl : File) (off whence : Z) : go (File * (Z + error)) :=
  if negb (is_open fl) then mret (fl, inr ErrClosed)
  else
    de ← fl_entry fl;
    let newOffset :=
      if whence =? SeekStart then off
      else if whence =? SeekEnd then i64 (fileSize de + off)
      else if whence =? SeekCurrent then i64 (offset fl + off)
      else 0 in
    if newOffset <? 0 then mret (fl, inr (Errorf "cannot set offset %d before start of file"))
    else mret (with_offset fl newOffset, inl newOffset).

Definition Close (fl : File) : File := mkFile_ (entry fl) (isReadWrite fl) (isAppend fl) (offset fl) (parent fl) false.

(** ** Attributes *)

Definition set_attribute (f : directoryEntry -> directoryEntry) (fs : FS) (fl : File) : go (FS * File * option error) :=
  if negb (is_open fl) then Panic NilDereference
  else
    let fl := update_entry f fl in
    '(fs, r) ← writeDirectoryEntries fuel spare (parent fl) fs;
    mret (fs, fl, match r with inr e => Some e | inl _ => None end).

Definition SetSystem (fs : FS) (fl : File) (on : bool) : go (FS * File * option error) :=
  set_attribute (fun e => set_flags (isReadOnly e) (isHidden e) on e) fs fl.
Definition SetHidden (fs : FS) (fl : File) (on : bool) : go (FS * File * option error) :=
  set_attribute (fun e => set_flags (isReadOnly e) on (isSystem e) e) fs fl.
Definition SetReadOnly (fs : FS) (fl : File) (on : bool) : go (FS * File * option error) :=
  set_attribute (fun e => set_flags on (isHidden e) (isSystem e) e) fs fl.
Definition IsSystem (fl : File) : go bool := de ← fl_entry fl; mret (isSystem de).
Definition IsHidden (fl : File) : go bool := de ← fl_entry fl; mret (isHidden de).
Definition IsReadOnly (fl : File) : go bool := de ← fl_entry fl; mret (isReadOnly de).

(** ** Open *)

(** The entry a path names, made if the flags ask for it: the directory and the place
    in it. *)
Definition target_entry (parentDir : Directory) (filename : gostring) (is_self : bool) (flag : Z) : fsm T D (Directory * entry_ref) :=
  if is_self then mret (parentDir, ParentSelf)
  else
    match last_match filename (entries parentDir) 0 None with
    | Some i => mret (parentDir, InParent i)
    | None =>
        if Z.land flag O_CREATE =? 0 then fail (Errorf "target file %s does not exist and was not asked to create")
        else
          '(parentDir, _) ← wrapping (Wrapf "failed to create file %s: %w") (mkFile fuel now parentDir filename);
          _ ← wrapping (Wrapf "error writing directory file %s to disk: %w") (writeDirectoryEntries fuel spare parentDir);
          mret (parentDir, InParent (length (entries parentDir) - 1)%nat)
    end.

Definition OpenFile (p : gostring) (flag : Z) : fsm T D File :=
  let dir := Dir p in
  let filename := Base p in
  parentDir ← wrapping (Wrapf "could not read directory entries for %s: %w") (readDirWithMkdir fuel now spare dir false);
  '(parentDir, target) ← target_entry parentDir filename (bool_decide (filename = dir)) flag;
  let fl := mkFile_ target (negb (Z.land flag O_RDWR =? 0)) (negb (Z.land flag O_APPEND =? 0)) 0 parentDir true in
  de ← pure (fl_entry fl);
  fl ← (if (Z.land flag O_TRUNC =? O_TRUNC) && negb (fileSize de =? 0) then
          let fl := update_entry (set_size 0) fl in
          _ ← wrapping (Wrapf "error writing directory file %s to disk: %w") (writeDirectoryEntries fuel spare (parent fl));
          _ ← wrapping (Wrapf "unable to resize cluster list: %w") (fun fs => allocateSpace fuel fs 1 (clusterLocation de));
          mret fl
        else mret fl);
  de ← pure (fl_entry fl);
  mret (if Z.land flag O_APPEND =? O_APPEND then with_offset fl (fileSize de) else fl).

Definition Open (p : gostring) : fsm T D File := OpenFile p 0.

(** [io.ReadAll]: reads into the room the buffer has left and appends, until the end.
    [grow] gives the room for the next read from what has been read so far; the runtime
    chooses it. *)
Definition read_all (rounds : nat) (grow : list Z -> Z) (fs : FS) (fl : File) : go (list Z) :=
  go_for rounds (fun '(fl, b) =>
    '(fl, r) ← Read fs fl (replicate (Z.to_nat (grow b)) 0);
    let b := b ++ (r_buf r).[0, r_n r] in
    match r_err r with
    | Some EOF => mret (inr b)
    | Some e => Err e
    | None => mret (inl (fl, b))
    end) (fl, []).

Definition ReadFile (rounds : nat) (grow : list Z -> Z) (name : gostring) : fsm T D (list Z) :=
  f ← Open name;
  reading (fun fs => read_all rounds grow fs f).
End file.

(** ** The content of a file *)

Section content.
Context {T D : Type} `{Htab : FATTable T} `{Hst : Storage D}.
Notation FS := (FileSystem T D).

(** The cluster with index [i], in the arithmetic of the source. *)
Lemma data_offset_ok (fs : FS) size clusters i : in_volume fs size clusters -> 0 <= i < len clusters ->
  0 <= cluster_base fs clusters i /\ cluster_base fs clusters i + bytesPerCluster fs <= size /\
  i64 (data_offset fs (nth_cluster clusters i) + start fs) = cluster_base fs clusters i /\
  0 <= data_offset fs (nth_cluster clusters i) <= cluster_base fs clusters i /\
  cluster_base fs clusters i = data_offset fs (nth_cluster clusters i) + start fs.
Proof.
  intros Hv Hi. destruct (cluster_base_bounds fs size clusters i Hv Hi) as (Hlo & Hhi & Hu & H2).
  destruct Hv as [Hs Hb Hst' Hd _]. unfold data_offset. rewrite Hu. unfold cluster_base in *.
  rewrite (i64_id (_ * _)) by lia. rewrite (i64_id (dataStart fs + _)) by lia. rewrite i64_id by lia. lia.
Qed.

Context {repr : D -> Z -> (Z -> Z) -> Prop} {Hdev : WritableDevice D repr}.

Lemma read_part_ok (fs : FS) size c b lo hi off : repr (backend fs) size c -> 0 <= lo <= hi -> hi <= len b ->
  0 <= off -> off + (hi - lo) <= size -> read_part fs b lo hi off = Ret (patch b lo (span c off (hi - lo))).
Proof.
  intros Hr Hlo Hhi Ho Hl. unfold read_part. rewrite slice_ok by lia. cbn [mbind go_bind].
  rewrite (wd_read _ _ _ _ _ Hr) by (rewrite ?len_sub; lia). cbn [mbind go_bind mret go_ret r_buf].
  by rewrite len_sub by lia.
Qed.

(** A buffer filled up to [t] with the content from [o] on. *)
Definition filled (f : Z -> Z) (o t : Z) (b : list Z) : list Z := span f o t ++ from b t.

Lemma len_filled f o t b : 0 <= t <= len b -> len (filled f o t b) = len b.
Proof. intros. unfold filled. rewrite len_app, len_span, len_from by lia. lia. Qed.
Lemma filled_0 f o b : filled f o 0 b = b.
Proof. unfold filled. by rewrite span_0, from_0. Qed.
Lemma fill_more f o t b n : 0 <= t -> 0 <= n -> t + n <= len b ->
  patch (filled f o t b) t (span f (o + t) n) = filled f o (t + n) b.
Proof.
  intros. unfold patch. rewrite len_span by lia. unfold filled. by apply (span_extend f b o t n).
Qed.
Lemma filled_patch f o t b : 0 <= t <= len b -> filled f o t b = patch b 0 (span f o t).
Proof. intros. unfold filled, patch. rewrite len_span by lia. done. Qed.

(** One whole cluster of the loop. *)
Lemma read_step (fs : FS) size clusters c b0 o maxRead i t : in_volume fs size clusters -> repr (backend fs) size c ->
  maxRead <= len b0 -> len b0 < 2 ^ 63 -> len clusters < 2 ^ 62 ->
  0 <= t <= maxRead -> 0 <= i < len clusters -> o + t = i * bytesPerCluster fs ->
  let f := chain_byte fs clusters c in
  let t' := t + Z.min (maxRead - t) (bytesPerCluster fs) in
  read_body fs clusters maxRead (filled f o t b0, t, i) =
  Ret (if maxRead <=? t' then inr (filled f o t' b0, t') else inl (filled f o t' b0, t', i + 1)).
Proof.
  intros Hv Hr Hm Hb0 Hcl Ht Hi Hal f t'. pose proof (iv_bpc _ _ _ Hv) as Hb. unfold read_body.
  rewrite (proj2 (Z.ltb_lt i _)) by lia. destruct (nth_cluster_ok clusters i Hi) as [-> _]. cbn [mbind go_bind].
  destruct (data_offset_ok fs size clusters i Hv Hi) as (Hlo & Hhi & -> & _).
  rewrite (i64_id (maxRead - t)) by lia. set (n := if _ <? bytesPerCluster fs then _ else _).
  assert (n = Z.min (maxRead - t) (bytesPerCluster fs)) as En by (unfold n; destruct_if; lia).
  rewrite !(i64_id (t + n)) by lia. rewrite (read_part_ok fs size c) by (done || (rewrite ?len_filled; lia)). cbn [mbind go_bind].
  replace (t + n - t) with n by lia.
  rewrite <-(Z.add_0_r (cluster_base fs clusters i)), (cluster_span fs clusters c i 0 n), Z.add_0_r, <-Hal by lia.
  rewrite fill_more by lia. replace (t + n) with t' by lia. rewrite i64_id by lia. by destruct (maxRead <=? t').
Qed.

(** The loop over whole clusters: it stops at [maxRead]. *)
Lemma read_loop (fs : FS) size clusters c b0 o maxRead : in_volume fs size clusters -> repr (backend fs) size c ->
  maxRead <= len b0 -> len b0 < 2 ^ 63 -> len clusters < 2 ^ 62 -> o + maxRead <= len clusters * bytesPerCluster fs ->
  forall fuel i t, 0 <= t <= maxRead -> 0 <= i -> o + t = i * bytesPerCluster fs ->
  (Z.to_nat (len clusters - i) < fuel)%nat ->
  go_for fuel (read_body fs clusters maxRead) (filled (chain_byte fs clusters c) o t b0, t, i) =
  Ret (filled (chain_byte fs clusters c) o maxRead b0, maxRead).
Proof.
  intros Hv Hr Hm Hb0 Hcl Hmax. pose proof (iv_bpc _ _ _ Hv) as Hb.
  induction fuel as [|fuel IH]; [lia|]. intros i t Ht Hi Hal Hf. cbn [go_for].
  destruct (Z.ltb_spec i (len clusters)) as [Hil|Hil].
  - rewrite (read_step _ size) by (done || lia). cbn [mbind go_bind].
    destruct (Z.leb_spec maxRead (t + Z.min (maxRead - t) (bytesPerCluster fs))); cbn [mret go_ret].
    + by replace (t + _) with maxRead by lia.
    + apply IH; lia.
  - assert (len clusters * bytesPerCluster fs <= i * bytesPerCluster fs) by (apply Z.mul_le_mono_nonneg_r; lia).
    unfold read_body at 2. rewrite (proj2 (Z.ltb_ge _ _)) by lia. cbn. replace t with maxRead by lia. done.
Qed.

(** The loop when the first part was enough, or too much. *)
Lemma read_loop_over (fs : FS) size clusters c b i t maxRead fuel : in_volume fs size clusters -> repr (backend fs) size c ->
  0 <= maxRead <= t -> t <= len b -> len b < 2 ^ 63 -> len clusters < 2 ^ 62 -> 0 <= i ->
  go_for (S fuel) (read_body fs clusters maxRead) (b, t, i) =
  if (i <? len clusters) && (maxRead <? t) then Panic SliceOutOfRange else Ret (b, t).
Proof.
  intros Hv Hr Ht Hb Hlb Hcl Hi. pose proof (iv_bpc _ _ _ Hv). cbn [go_for]. set (k := go_for fuel _). unfold read_body.
  destruct (Z.ltb_spec i (len clusters)); cbn [andb]; [|done].
  destruct (nth_cluster_ok clusters i) as [-> _]; [lia|]. cbn [mbind go_bind].
  destruct (data_offset_ok fs size clusters i Hv) as (Hlo & Hhi & -> & _); [lia|].
  rewrite (i64_id (maxRead - t)) by lia. rewrite (proj2 (Z.ltb_lt _ (bytesPerCluster fs))) by lia.
  rewrite !i64_id by lia. destruct (Z.ltb_spec maxRead t).
  - unfold read_part, slice. rewrite (proj2 (Z.leb_gt t _)) by lia. by rewrite andb_false_r.
  - rewrite (read_part_ok fs size c) by (done || lia). cbn [mbind go_bind].
    replace (t + (maxRead - t) - t) with 0 by lia. rewrite span_0, patch_nil by lia.
    replace (t + (maxRead - t)) with t by lia. by rewrite (proj2 (Z.leb_le _ _)) by lia.
Qed.

(** What the part behind the offset in its cluster gives. *)
Definition first_part (bpc o n : Z) : Z := if o mod bpc =? 0 then 0 else Z.min (bpc - o mod bpc) n.

Lemma first_part_range bpc o n : 0 < bpc -> 0 <= o -> 0 <= n ->
  let i := if o mod bpc =? 0 then o / bpc else o / bpc + 1 in
  0 <= first_part bpc o n <= n /\ first_part bpc o n <= bpc /\
  (first_part bpc o n < n -> o + first_part bpc o n = i * bpc).
Proof.
  intros Hb Ho Hn. pose proof (Z.mod_pos_bound o bpc). pose proof (Z.div_mod o bpc). unfold first_part.
  destruct_if; split_and!; lia.
Qed.

Lemma read_first_ok (fs : FS) size clusters c o b : in_volume fs size clusters -> repr (backend fs) size c ->
  0 <= o < len clusters * bytesPerCluster fs -> o < 2 ^ 63 -> len clusters < 2 ^ 62 -> len b < 2 ^ 63 ->
  let first := first_part (bytesPerCluster fs) o (len b) in
  let i := if o mod bytesPerCluster fs =? 0 then o / bytesPerCluster fs else o / bytesPerCluster fs + 1 in
  read_first fs clusters o b = Ret (filled (chain_byte fs clusters c) o first b, first, i).
Proof.
  intros Hv Hr Ho Ho' Hcl Hb first i. pose proof (iv_bpc _ _ _ Hv). pose proof (len_nonneg b).
  pose proof (Z.mod_pos_bound o (bytesPerCluster fs)). pose proof (Z.div_mod o (bytesPerCluster fs)).
  pose proof (Z.div_pos o (bytesPerCluster fs)).
  unfold read_first, first, i, first_part. destruct (Z.ltb_spec 0 o).
  2:{ assert (o = 0) as -> by lia. rewrite Zmod_0_l, Zdiv_0_l. cbn. by rewrite filled_0. }
  rewrite div64_ok by lia. cbn [mbind go_bind].
  assert (o / bytesPerCluster fs < len clusters) as Hlt by (apply Z.div_lt_upper_bound; lia).
  destruct (nth_cluster_ok clusters (o / bytesPerCluster fs)) as [-> _]; [lia|]. cbn [mbind go_bind].
  rewrite rem64_ok by lia. cbn [mbind go_bind]. destruct (Z.eqb_spec (o mod bytesPerCluster fs) 0) as [E|E]; cbn [negb]; [by rewrite filled_0|].
  destruct (data_offset_ok fs size clusters (o / bytesPerCluster fs) Hv) as (Hlo & Hhi & _ & Hd & Hbase); [lia|].
  pose proof (iv_size _ _ _ Hv). pose proof (iv_start _ _ _ Hv).
  rewrite (i64_id (bytesPerCluster fs - _)) by lia. cbn zeta.
  replace (if len b <? _ then _ else _) with (Z.min (bytesPerCluster fs - o mod bytesPerCluster fs) (len b)) by (destruct_if; lia).
  set (n := Z.min _ _). rewrite !i64_id by (rewrite ?i64_id; lia).
  rewrite (read_part_ok fs size c) by (done || lia). cbn [mbind go_bind]. rewrite Z.sub_0_r.
  do 3 f_equal. replace (data_offset fs _ + _ + start fs) with
    (cluster_base fs clusters (o / bytesPerCluster fs) + o mod bytesPerCluster fs) by lia.
  rewrite (cluster_span fs clusters c) by lia. rewrite filled_patch by lia. do 2 f_equal. lia.
Qed.

Context {ok : T -> Prop} {Hlaws : FATLaws T ok}.

(** An open file whose clusters are a chain on a device. *)
Record readable (fuel : nat) (fs : FS) (fl : File) (de : directoryEntry) (clusters : list Z) (size : Z) (c : Z -> Z) : Prop := {
  rd_open : is_open fl = true;
  rd_entry : fl_entry fl = Ret de;
  rd_chain : chain_at (ok := ok) fuel fs (clusterLocation de) clusters;
  rd_device : repr (backend fs) size c;
  rd_volume : in_volume fs size clusters;
  rd_size : 0 <= fileSize de < 2 ^ 32 /\ fileSize de <= len clusters * bytesPerCluster fs
}.

Lemma readable_list fuel fs fl de clusters size c : readable fuel fs fl de clusters size c ->
  getClusterList fuel fs (clusterLocation de) = Ret clusters /\ len clusters < 2 ^ 62.
Proof. intros [_ _ Hch _ _ _]. apply chain_at_list in Hch as (-> & ? & _). split; [done|lia]. Qed.

(** The bytes a call of [Read] asks the disk for, and delivers. *)
Definition read_count (bpc o n left_ : Z) : Z := Z.max (first_part bpc o n) (Z.min n left_).

Lemma Read_end fuel fs fl de clusters size c b : readable fuel fs fl de clusters size c ->
  0 <= offset fl < 2 ^ 63 -> fileSize de <= offset fl -> Read fuel fs fl b = Ret (fl, mkR b 0 (Some EOF)).
Proof.
  intros Hrd Ho Hl. destruct (readable_list _ _ _ _ _ _ _ Hrd) as [Hcl _]. destruct Hrd as [Hop He _ _ _ Hs].
  unfold Read. rewrite Hop, He. cbn [negb mbind go_bind]. rewrite Hcl, i64_id by lia. cbn [catch mbind go_bind].
  by rewrite (proj2 (Z.leb_le _ _)) by lia.
Qed.

(** Before the end of the file: [Read] is the loop over whole clusters, behind the part
    of the first one. *)
Lemma Read_start fuel fs fl de clusters size c b : readable fuel fs fl de clusters size c ->
  0 <= offset fl -> len b < 2 ^ 63 -> offset fl < fileSize de ->
  let first := first_part (bytesPerCluster fs) (offset fl) (len b) in
  let i := if offset fl mod bytesPerCluster fs =? 0 then offset fl / bytesPerCluster fs else offset fl / bytesPerCluster fs + 1 in
  let maxRead := Z.min (len b) (fileSize de - offset fl) in
  Read fuel fs fl b =
  ('(b, totalRead) ← go_for (S (length clusters)) (read_body fs clusters maxRead)
     (filled (chain_byte fs clusters c) (offset fl) first b, first, i);
   let fl := with_offset fl (i64 (offset fl + totalRead)) in
   mret (fl, mkR b totalRead (if fileSize de <=? offset fl then Some EOF else None))).
Proof.
  intros Hrd Ho Hb Hl first i maxRead. destruct (readable_list _ _ _ _ _ _ _ Hrd) as [Hcl Hlen].
  destruct Hrd as [Hop He _ Hr Hv Hs]. unfold Read. rewrite Hop, He. cbn [negb mbind go_bind]. rewrite Hcl. cbn [catch mbind go_bind].
  rewrite (i64_id (fileSize de - offset fl)) by lia. rewrite (proj2 (Z.leb_gt _ _)) by lia. cbn zeta.
  replace (if len b <? _ then _ else _) with maxRead by (unfold maxRead; destruct_if; lia).
  by rewrite (read_first_ok fs size clusters c) by (done || lia).
Qed.

Lemma Read_within fuel fs fl de clusters size c b : readable fuel fs fl de clusters size c ->
  0 <= offset fl -> len b < 2 ^ 63 -> offset fl < fileSize de ->
  let o := offset fl in
  let first := first_part (bytesPerCluster fs) o (len b) in
  let n := read_count (bytesPerCluster fs) o (len b) (fileSize de - o) in
  first <= fileSize de - o \/ len clusters <= o / bytesPerCluster fs + 1 ->
  Read fuel fs fl b = Ret (with_offset fl (o + n),
     mkR (patch b 0 (span (chain_byte fs clusters c) o n)) n (if fileSize de <=? o + n then Some EOF else None)).
Proof.
  intros Hrd Ho Hb Hl o first n Hin. rewrite (Read_start _ _ _ _ _ _ _ _ Hrd) by done. fold o first.
  destruct (readable_list _ _ _ _ _ _ _ Hrd) as [_ Hlen]. destruct Hrd as [_ _ _ Hr Hv Hs].
  pose proof (iv_bpc _ _ _ Hv) as Hbpc. pose proof (len_nonneg b). pose proof (Z.div_pos o (bytesPerCluster fs)) as Hdiv.
  pose proof (first_part_range (bytesPerCluster fs) o (len b) ltac:(lia) ltac:(lia) ltac:(lia)) as (Hf1 & Hf2 & Hf3). fold first in Hf1, Hf2, Hf3.
  cbn zeta. set (i := if _ =? 0 then _ else _) in Hf3 |- *. set (maxRead := Z.min _ _).
  assert (n = Z.max first maxRead) as En by done. assert (0 <= i) as Hi by (unfold i; destruct_if; lia).
  destruct (Z.ltb_spec first maxRead) as [Hlt|Hge].
  - rewrite (read_loop fs size) by (done || lia || (unfold len in *; lia)). cbn [mbind go_bind].
    rewrite filled_patch, i64_id by lia. by replace maxRead with n by lia.
  - rewrite (read_loop_over fs size clusters c) by (done || (rewrite ?len_filled by lia; lia)).
    replace (_ && _) with false. 2:{ symmetry. apply andb_false_iff. rewrite !Z.ltb_ge.
      unfold i, first, first_part in *. destruct (o mod bytesPerCluster fs =? 0); lia. }
    cbn [mbind go_bind]. rewrite filled_patch, i64_id by lia. by replace first with n by lia.
Qed.

Lemma readable_offset fuel fs fl de clusters size c o : readable fuel fs fl de clusters size c ->
  readable fuel fs (with_offset fl o) de clusters size c.
Proof. by intros [Hop He Hch Hd Hv Hs]. Qed.

(** C8. [Read] on a file whose clusters are a chain of the table: nothing is left behind
    the end of the file ([io.EOF]); otherwise the buffer is filled with the bytes of the
    chain from the file's offset on, as many as fit the buffer and the file, the offset
    moves behind them, and [io.EOF] comes with the last byte. When the part of the first
    cluster that the buffer has room for reaches over the end of the file, the call
    delivers the slack of the cluster as if it were content; and it panics if the chain
    has a cluster after that one. *)
Theorem fat_file_read fuel fs fl de clusters size c b : readable fuel fs fl de clusters size c ->
  0 <= offset fl < 2 ^ 63 -> len b < 2 ^ 63 ->
  let o := offset fl in
  let left_ := fileSize de - o in
  let first := first_part (bytesPerCluster fs) o (len b) in
  let n := read_count (bytesPerCluster fs) o (len b) left_ in
  let over := left_ < first /\ o / bytesPerCluster fs + 1 < len clusters in
  (left_ <= 0 -> Read fuel fs fl b = Ret (fl, mkR b 0 (Some EOF))) /\
  (0 < left_ -> ~ over ->
   Read fuel fs fl b = Ret (with_offset fl (o + n),
     mkR (patch b 0 (span (chain_byte fs clusters c) o n)) n (if fileSize de <=? o + n then Some EOF else None))) /\
  (0 < left_ -> over -> Read fuel fs fl b = Panic SliceOutOfRange).
Proof.
  intros Hrd Ho Hb o left_ first n over. split_and!.
  - intros Hl. apply (Read_end _ _ _ _ _ _ _ _ Hrd); unfold left_ in Hl; lia.
  - intros Hl Hno. apply (Read_within _ _ _ _ _ _ _ _ Hrd); try (unfold left_ in Hl; lia). fold o first left_.
    destruct (Z.leb_spec first left_); [by left|right]. apply Znot_gt_le. intros Hgt. apply Hno. split; lia.
  - intros Hl [Hov Hmore]. rewrite (Read_start _ _ _ _ _ _ _ _ Hrd) by (unfold left_ in Hl; lia). fold o first left_.
    destruct (readable_list _ _ _ _ _ _ _ Hrd) as [_ Hlen]. destruct Hrd as [_ _ _ Hr Hv _].
    pose proof (iv_bpc _ _ _ Hv) as Hbpc. pose proof (len_nonneg b). pose proof (Z.div_pos o (bytesPerCluster fs)) as Hdiv.
    pose proof (first_part_range (bytesPerCluster fs) o (len b) ltac:(lia) ltac:(lia) ltac:(lia)) as (Hf1 & _). fold first in Hf1.
    assert (first <> 0) as Hne by lia. unfold first, first_part in Hne.
    destruct (o mod bytesPerCluster fs =? 0); [done|]. cbn zeta.
    rewrite (read_loop_over fs size clusters c) by (done || (rewrite ?len_filled by lia; lia)).
    by rewrite !(proj2 (Z.ltb_lt _ _)) by lia.
Qed.

(** C21. [io.ReadAll] on a file that is opened at its start and whose chain has no more
    clusters than its size needs (with more of them [Read] can panic, see [fat_file_read])
    returns: whatever room the runtime gives to the reads, the result is the content of the
    chain from the start over the file's size, and at most to the end of the last cluster;
    when every read starts at a cluster's start, it is exactly the content of the file. *)
Theorem fat_read_all fuel fs fl de clusters size c rounds grow : readable fuel fs fl de clusters size c ->
  offset fl = 0 -> (len clusters - 1) * bytesPerCluster fs < Z.max 1 (fileSize de) ->
  (forall b, 0 < grow b < 2 ^ 63) -> (Z.to_nat (fileSize de) < rounds)%nat ->
  exists n, read_all fuel rounds grow fs fl = Ret (span (chain_byte fs clusters c) 0 n) /\
    fileSize de <= n <= len clusters * bytesPerCluster fs /\
    ((forall b, (len b + grow b) mod bytesPerCluster fs = 0) -> n = fileSize de).
Proof.
  intros Hrd Ho Hexact Hgrow Hrounds. pose proof (rd_volume _ _ _ _ _ _ _ Hrd) as Hv. pose proof (iv_bpc _ _ _ Hv) as Hbpc.
  destruct (rd_size _ _ _ _ _ _ _ Hrd) as [Hs Hsl].
  set (f := chain_byte fs clusters c). set (aligned := forall b, (len b + grow b) mod bytesPerCluster fs = 0).
  set (P := fun l => exists n, l = span f 0 n /\ fileSize de <= n <= len clusters * bytesPerCluster fs /\ (aligned -> n = fileSize de)).
  enough (wp (read_all fuel rounds grow fs fl) P no_err) as Hw.
  { destruct (wp_no_err_Ret _ _ Hw) as (l & -> & n & -> & Hn). by exists n. }
  apply (wp_for (fun '(fl', b) => exists o, fl' = with_offset fl o /\ b = span f 0 o /\ 0 <= o <= fileSize de /\
                   (o = fileSize de -> o = 0) /\ (aligned -> o mod bytesPerCluster fs = 0))
                (fun '(_, b) => Z.to_nat (fileSize de - len b))).
  2:{ exists 0. split_and!; try done || lia. destruct fl; cbn in *. by subst. }
  2:{ len_nils. lia. }
  intros [fl' b] (o & -> & -> & Hor & Hoz & Hal). set (g := grow _). assert (0 < g < 2 ^ 63) as Hg by (apply Hgrow).
  rewrite len_span by lia. pose proof (readable_offset _ _ _ _ _ _ _ o Hrd) as Hrd'.
  destruct (decide (o = fileSize de)) as [Ee|Ene].
  { rewrite (Read_end _ _ _ _ _ _ _ _ Hrd') by (cbn; lia). cbn. exists 0. specialize (Hoz Ee). split_and!; try lia.
    by rewrite Hoz. }
  set (q := replicate (Z.to_nat g) 0). assert (len q = g) as Hq by (unfold q; rewrite len_replicate; lia).
  pose proof (first_part_range (bytesPerCluster fs) o g ltac:(lia) ltac:(lia) ltac:(lia)) as (Hf1 & Hf2 & Hf3).
  pose proof (Z.mod_pos_bound o (bytesPerCluster fs)). pose proof (Z.div_mod o (bytesPerCluster fs)).
  assert (first_part (bytesPerCluster fs) o g <= bytesPerCluster fs - o mod bytesPerCluster fs) as Hf4.
  { unfold first_part. destruct_if; lia. }
  assert (o / bytesPerCluster fs + 1 < len clusters -> (o / bytesPerCluster fs + 2) * bytesPerCluster fs <= len clusters * bytesPerCluster fs) as Hmono.
  { intros. apply Z.mul_le_mono_nonneg_r; lia. }
  assert (o / bytesPerCluster fs < len clusters) as Hlt by (apply Z.div_lt_upper_bound; lia).
  assert ((o / bytesPerCluster fs + 1) * bytesPerCluster fs <= len clusters * bytesPerCluster fs) as Hmono' by (apply Z.mul_le_mono_nonneg_r; lia).
  rewrite (Read_within _ _ _ _ _ _ _ _ Hrd'); cbn [offset with_offset]; rewrite ?Hq; try lia.
  set (n := read_count _ _ _ _). unfold read_count in n.
  assert (0 < n <= g) as Hn by (unfold n; lia).
  cbn [mbind go_bind r_err r_buf r_n]. rewrite (sub_patch_at q 0 _ n) by (rewrite ?len_span; lia).
  fold f. assert (span f 0 o ++ span f o n = span f 0 (o + n)) as -> by (by rewrite (span_app f 0 o n) by lia).
  destruct (Z.leb_spec (fileSize de) (o + n)); cbn [wp mret go_ret].
  - exists (o + n). split_and!; [done|lia|unfold n; lia|]. intros Ha. specialize (Hal Ha).
    unfold n, first_part in *. rewrite (proj2 (Z.eqb_eq _ _) Hal) in *. lia.
  - split; [|rewrite !len_span by lia; lia]. exists (o + n). split_and!; try done || lia. intros Ha.
    specialize (Ha (span f 0 o)). fold g in Ha. rewrite len_span in Ha by lia. by replace n with g by (unfold n in *; lia).
Qed.

(** ** Writing *)

Lemma write_part_ok (fs : FS) size c p lo hi off : repr (backend fs) size c -> bytes_ok p -> 0 <= lo <= hi -> hi <= len p ->
  0 <= off -> off + (hi - lo) <= size ->
  exists d, write_part p lo hi off fs = Ret (with_backend fs d, inl tt) /\ repr d size (overwrite c off p.[lo, hi]).
Proof.
  intros Hr Hp Hlo Hhi Ho Hl. destruct (wd_write _ _ _ p.[lo, hi] off Hr) as (d & Hw & Hd);
    [by apply bytes_ok_sub|done|rewrite len_sub; lia|]. exists d. split; [|done].
  unfold write_part. erewrite fsm_bind_ok by (apply pure_ok, slice_ok; done).
  erewrite fsm_bind_ok; [done|]. apply wrapping_ok. unfold write_at. rewrite Hw. done.
Qed.

(** The chain's content after [q] is written at [o]. *)
Definition writes (m : fsm T D Z) (fs : FS) (clusters : list Z) (size : Z) (c : Z -> Z) (o : Z) (q : list Z) (n : Z) : Prop :=
  exists d c', m fs = Ret (with_backend fs d, inl n) /\ repr d size c' /\ stored_at fs clusters c o q c'.

Lemma write_rest_ok size clusters p o : bytes_ok p -> NoDup clusters -> len clusters < 2 ^ 62 -> len p < 2 ^ 62 ->
  forall l (fs : FS) c i t, in_volume fs size clusters -> repr (backend fs) size c -> 0 <= o ->
  o + len p <= len clusters * bytesPerCluster fs ->
  l = from clusters i -> 0 <= i <= len clusters -> 0 <= t <= len p -> (t < len p -> o + t = i * bytesPerCluster fs) ->
  writes (write_rest p t l) fs clusters size c (o + t) (from p t) (len p).
Proof.
  intros Hp Hnd Hcl Hpl. induction l as [|x l IH]; intros fs c i t Hv Hr Ho Hfit El Hi Ht Hal; cbn [write_rest].
  - exists (backend fs), c. assert (i = len clusters) as ->.
    { apply (f_equal len) in El. rewrite len_from in El by lia. change (len []) with 0 in El. lia. }
    assert (t = len p) as -> by (destruct (Z.ltb_spec t (len p)); [|lia]; specialize (Hal ltac:(lia)); lia).
    split; [by destruct fs|]. split; [done|]. unfold from. rewrite drop_ge by (unfold len; lia). apply stored_nil.
  - pose proof (iv_bpc _ _ _ Hv) as Hb.
    destruct (from_clusters clusters i x l) as (Hil & -> & El'); [lia|done|].
    unfold writes. cbv beta zeta. rewrite (i64_id (len p - t)) by lia. set (n := if _ <? bytesPerCluster fs then _ else _).
    assert (n = Z.min (len p - t) (bytesPerCluster fs)) as En by (unfold n; destruct_if; lia).
    rewrite !(i64_id (t + n)) by lia.
    destruct (data_offset_ok fs size clusters i Hv) as (Hlo & Hhi & Eb & _); [lia|].
    destruct (write_part_ok fs size c p t (t + n) (i64 (data_offset fs (nth_cluster clusters i) + start fs))) as (d & Hw & Hd);
      [done|done|lia|lia|rewrite Eb; lia|rewrite Eb; lia|].
    destruct (IH (with_backend fs d) (overwrite c (i64 (data_offset fs (nth_cluster clusters i) + start fs)) p.[t, t + n]) (i + 1) (t + n))
      as (d' & c' & Hrun & Hd' & Hsto); [by destruct Hv; split|done|done|done|done|lia|lia|cbn; lia|].
    exists d', c'. split; [|split; [done|]].
    + erewrite fsm_bind_ok by exact Hw. rewrite Hrun. by destruct fs.
    + rewrite (from_split p t n) by lia.
      rewrite Eb in Hsto. destruct (Z.eq_dec n 0) as [E0|E0].
      * assert (p.[t, t + n] = []) as E by (unfold sub; by rewrite E0, Z.add_simpl_l).
        rewrite E in Hsto |- *. rewrite E0, !Z.add_0_r in Hsto. rewrite E0, Z.add_0_r, app_nil_l.
        eapply stored_ext; [|exact Hsto]. intros k. apply overwrite_nil.
      * eapply stored_app; [|rewrite len_sub by lia]. 2:{ replace (o + t + (t + n - t)) with (o + (t + n)) by lia. exact Hsto. }
        rewrite Hal by lia. rewrite <-(Z.add_0_r (i * _)). rewrite <-(Z.add_0_r (cluster_base fs clusters i)).
        apply (stored_part fs); done || (rewrite ?len_sub by lia; lia).
Qed.

Lemma write_data_ok (fs : FS) clusters size c o p : in_volume fs size clusters -> repr (backend fs) size c ->
  NoDup clusters -> bytes_ok p -> len clusters < 2 ^ 62 -> len p < 2 ^ 62 -> 0 <= o < 2 ^ 62 ->
  o < len clusters * bytesPerCluster fs -> o + len p <= len clusters * bytesPerCluster fs ->
  writes (write_data clusters o p) fs clusters size c o p (len p).
Proof.
  intros Hv Hr Hnd Hp Hcl Hpl Ho Hoc Hfit. pose proof (iv_bpc _ _ _ Hv) as Hb. pose proof (len_nonneg p). pose proof (len_nonneg clusters).
  pose proof (Z.mod_pos_bound o (bytesPerCluster fs)). pose proof (Z.div_mod o (bytesPerCluster fs)).
  assert (forall i, 0 <= i <= len clusters -> o = i * bytesPerCluster fs ->
    writes (write_rest p 0 (from clusters i)) fs clusters size c o p (len p)) as Haligned.
  { intros i Hi Eo. pose proof (write_rest_ok size clusters p o Hp Hnd Hcl Hpl (from clusters i) fs c i 0) as Hw.
    rewrite Z.add_0_r, from_0 in Hw. apply Hw; done || lia. }
  unfold write_data. destruct (Z.ltb_spec 0 o).
  2:{ assert (o = 0) as -> by lia. apply (Haligned 0); lia. }
  assert (0 <= o / bytesPerCluster fs < len clusters) as Hdiv by (split; [apply Z.div_pos; lia|apply Z.div_lt_upper_bound; lia]).
  destruct (nth_cluster_ok clusters _ Hdiv) as [Hidx _].
  pose proof (div64_ok o (bytesPerCluster fs) ltac:(lia) ltac:(lia)) as Ediv.
  pose proof (rem64_ok o (bytesPerCluster fs) ltac:(lia) ltac:(lia)) as Erem.
  unfold writes. cbv beta zeta.
  destruct (Z.eqb_spec (o mod bytesPerCluster fs) 0) as [E|E].
  { erewrite fsm_bind_ok.
    2:{ erewrite fsm_bind_ok by (apply pure_ok, Ediv). erewrite fsm_bind_ok by (apply pure_ok, Hidx).
        erewrite fsm_bind_ok by (apply pure_ok, Erem). rewrite E. cbn [negb Z.eqb]. reflexivity. }
    apply Haligned; lia. }
  destruct (data_offset_ok fs size clusters _ Hv Hdiv) as (Hlo & Hhi & _ & Hd & Hbase).
  pose proof (iv_size _ _ _ Hv). pose proof (iv_start _ _ _ Hv).
  set (n := Z.min (bytesPerCluster fs - o mod bytesPerCluster fs) (len p)).
  destruct (write_part_ok fs size c p 0 n (data_offset fs (nth_cluster clusters (o / bytesPerCluster fs)) + o mod bytesPerCluster fs + start fs))
    as (d & Hw & Hd'); [done|done|lia|lia|lia|lia|].
  destruct (write_rest_ok size clusters p o Hp Hnd Hcl Hpl (from clusters (o / bytesPerCluster fs + 1)) (with_backend fs d) _ (o / bytesPerCluster fs + 1) n
    ltac:(by destruct Hv; split) Hd') as (d' & c' & Hrun & Hd'' & Hsto); [lia|done|done|lia|lia|cbn; lia|].
  exists d', c'. split; [|split; [done|]].
  - erewrite fsm_bind_ok.
    2:{ erewrite fsm_bind_ok by (apply pure_ok, Ediv). erewrite fsm_bind_ok by (apply pure_ok, Hidx).
        erewrite fsm_bind_ok by (apply pure_ok, Erem). rewrite (proj2 (Z.eqb_neq _ _) E). cbn [negb].
        rewrite (i64_id (bytesPerCluster fs - _)) by lia.
        replace (if len p <? _ then _ else _) with n by (unfold n; destruct_if; lia).
        rewrite !i64_id by (rewrite ?i64_id; lia). erewrite fsm_bind_ok by exact Hw. reflexivity. }
    cbv beta iota zeta. rewrite Hrun. by destruct fs.
  - rewrite <-(sub_app_from p n) by lia. eapply stored_app; [|rewrite len_sub by lia; rewrite Z.sub_0_r; exact Hsto].
    replace (data_offset fs _ + _ + start fs) with
      (cluster_base fs clusters (o / bytesPerCluster fs) + o mod bytesPerCluster fs) by lia.
    replace o with (o / bytesPerCluster fs * bytesPerCluster fs + o mod bytesPerCluster fs) at 1 by lia.
    apply (stored_part fs); done || (rewrite ?len_sub by lia; lia).
Qed.

(** The bytes a file's clusters get: [write_data], the body of [Write] behind the
    allocation, puts [p] into the content of the chain at the offset, across as many
    clusters as it reaches, returns its length, and changes no byte of the device
    outside the chain's clusters. *)
Theorem fat_write_data (fs : FS) clusters size c o p : in_volume fs size clusters -> repr (backend fs) size c ->
  NoDup clusters -> bytes_ok p -> len clusters < 2 ^ 62 -> len p < 2 ^ 62 -> 0 <= o < 2 ^ 62 ->
  o < len clusters * bytesPerCluster fs -> o + len p <= len clusters * bytesPerCluster fs ->
  exists d c', write_data clusters o p fs = Ret (with_backend fs d, inl (len p)) /\ repr d size c' /\
    (forall k, 0 <= k < len clusters * bytesPerCluster fs ->
       chain_byte fs clusters c' k = if (o <=? k) && (k <? o + len p) then byte_at p (k - o) else chain_byte fs clusters c k) /\
    (forall x, (forall i, 0 <= i < len clusters ->
       ~ (cluster_base fs clusters i <= x < cluster_base fs clusters i + bytesPerCluster fs)) -> c' x = c x).
Proof.
  intros. destruct (write_data_ok fs clusters size c o p) as (d & c' & Hw & Hd & Hc & Hf); try done.
  exists d, c'. by split_and!.
Qed.
End content.

(** ** Disk ranges *)

Section ranges.
Context {T D : Type} `{Htab : FATTable T} `{Hst : Storage D} {ok : T -> Prop} {Hlaws : FATLaws T ok}.
Notation FS := (FileSystem T D).

(** The clusters a range covers. *)
Definition range_clusters (dataStart bpc : Z) (r : DiskRange) : list Z :=
  seqZ ((Offset r - dataStart) / bpc + 2) (Length r / bpc).

(** No range ends where the next one starts. *)
Fixpoint apart (rs : list DiskRange) : Prop :=
  match rs with
  | r :: (r' :: _) as rest => Offset r + Length r <> Offset r' /\ apart rest
  | _ => True
  end.

Lemma apart_snoc rs r r' : apart (rs ++ [r]) -> Offset r + Length r <> Offset r' -> apart (rs ++ [r; r']).
Proof.
  intros Ha Hr. induction rs as [|x rs IH]; [done|]. destruct rs as [|y rs]; cbn in *; [tauto|].
  destruct Ha as [Hx Ha]. split; [done|]. by apply IH.
Qed.
Lemma apart_last rs r r' : Offset r' = Offset r -> apart (rs ++ [r]) -> apart (rs ++ [r']).
Proof.
  intros E. induction rs as [|x rs IH]; [done|]. destruct rs as [|y rs]; cbn in *; [by rewrite E|].
  intros [Hx Ha]. split; [done|]. by apply IH.
Qed.

(** The state of the loop after the clusters of [done_]. *)
Record ranges_inv (dataStart bpc : Z) (done_ : list Z) (s : list DiskRange * Z) : Prop := {
  ri_cover : concat (map (range_clusters dataStart bpc) s.1) = done_;
  ri_apart : apart s.1;
  ri_last : (s = ([], 0) /\ done_ = []) \/
    exists rs a n, s.1 = rs ++ [mkRange (dataStart + (a - 2) * bpc) (n * bpc)] /\ 2 <= a /\ 0 < n /\ s.2 = a + n - 1
}.

Lemma add_range_inv dataStart bpc size done_ s x : 0 < bpc -> 0 <= dataStart -> 2 <= x < 2 ^ 32 ->
  dataStart + (x - 1) * bpc <= size -> size < 2 ^ 63 -> s.2 < 2 ^ 32 ->
  ranges_inv dataStart bpc done_ s -> ranges_inv dataStart bpc (done_ ++ [x]) (add_range dataStart bpc s x).
Proof.
  intros Hb Hd Hx Hfit Hs Hlast [Hc Ha Hl]. destruct s as [ranges last]. cbn [fst snd] in *.
  assert (0 <= (x - 2) * bpc) by nia.
  assert (forall a n, 0 < n -> range_clusters dataStart bpc (mkRange (dataStart + (a - 2) * bpc) (n * bpc)) = seqZ a n) as Hrc.
  { intros a n Hn. unfold range_clusters; cbn [Offset Length]. replace (dataStart + (a - 2) * bpc - dataStart) with ((a - 2) * bpc) by lia.
    rewrite !Z.div_mul by lia. f_equal. lia. }
  unfold add_range. destruct (negb (last =? 0) && (x =? u32 (last + 1))) eqn:E.
  - apply andb_true_iff in E as [E1 E2]. destruct Hl as [[[= -> ->] _]|(rs & a & n & -> & H2 & Hn & El)]; [done|].
    assert (x = last + 1) as Ex.
    { apply Z.eqb_eq in E2. destruct (Z.eq_dec (last + 1) (2 ^ 32)) as [E|E]; [rewrite E in E2; change (u32 (2 ^ 32)) with 0 in E2; lia|].
      rewrite wrap_u_id in E2 by lia. done. }
    rewrite length_app. cbn [length]. replace (length rs + 1 - 1)%nat with (length rs + 0)%nat by lia.
    rewrite alter_app_r. change (alter ?f 0%nat [?r]) with [f r]. cbn [Offset Length].
    assert ((x - 2) * bpc = (a - 2) * bpc + n * bpc) as Hmul by (rewrite Ex, El; lia).
    assert (0 <= (a - 2) * bpc /\ 0 < n * bpc) as [? ?] by nia.
    rewrite wrap_u_id by lia. replace (n * bpc + bpc) with ((n + 1) * bpc) by lia. split; cbn [fst snd].
    + rewrite map_app, concat_app in Hc |- *. cbn [map concat] in *. rewrite app_nil_r in Hc |- *. rewrite Hrc in Hc by lia. rewrite Hrc by lia.
      rewrite <-Hc, <-(assoc app), seqZ_app by lia. do 2 f_equal. change (seqZ (a + n) 1) with [0 + (a + n)]. f_equal. lia.
    + eapply apart_last; [|exact Ha]. done.
    + right. exists rs, a, (n + 1). split_and!; [done|lia..].
  - assert (last = 0 \/ x <> last + 1) as Hne.
    { apply andb_false_iff in E as [E|E]; [left; destruct (Z.eqb_spec last 0); done|right; intros ->]. rewrite wrap_u_id in E by lia. lia. }
    rewrite (wrap_u_id 32) by lia. rewrite (wrap_u_id 64 (_ * _)) by lia. rewrite wrap_u_id by lia.
    replace (mkRange _ bpc) with (mkRange (dataStart + (x - 2) * bpc) (1 * bpc)) by (f_equal; lia). split; cbn [fst snd].
    + rewrite map_app, concat_app. cbn [map concat]. rewrite Hc, Hrc, app_nil_r by lia. f_equal.
    + destruct Hl as [[[= -> ->] _]|(rs & a & n & -> & H2 & Hn & El)]; [done|]. rewrite <-(assoc app). apply apart_snoc; [done|].
      cbn [Offset Length]. intros E'. assert ((a + n - x) * bpc = 0) by lia. nia.
    + right. exists ranges, x, 1. split_and!; [done|lia..].
Qed.

(** The ranges of a file cover its clusters in order, and two of them never touch:
    [GetDiskRanges] returns as few ranges as the chain allows. *)
Theorem fat_disk_ranges fuel (fs : FS) fl de clusters size : is_open fl = true -> fl_entry fl = Ret de ->
  chain_at (ok := ok) fuel fs (clusterLocation de) clusters -> in_volume fs size clusters ->
  exists ranges, GetDiskRanges fuel fs fl = Ret ranges /\
    concat (map (range_clusters (dataStart fs) (bytesPerCluster fs)) ranges) = clusters /\ apart ranges.
Proof.
  intros Hop He Hch [Hs Hb Hst' Hd Hcl]. destruct (chain_at_list _ _ _ _ Hch) as (Hlist & _).
  unfold GetDiskRanges, GetClusterChain. rewrite Hop, He. cbn [negb mbind go_bind]. rewrite Hlist. cbn [catch mbind go_bind mret go_ret].
  eexists. split; [done|]. rewrite wrap_u_id by lia.
  enough (forall k s, ranges_inv (dataStart fs) (bytesPerCluster fs) k s -> s.2 < 2 ^ 32 ->
    ranges_inv (dataStart fs) (bytesPerCluster fs) (k ++ clusters) (foldl (add_range (dataStart fs) (bytesPerCluster fs)) s clusters)) as Hinv.
  { destruct (Hinv [] ([], 0)) as [Hc Ha _]; [split; [done|done|by left]|done|]. by split. }
  clear Hlist Hch. induction Hcl as [|x l [Hx Hfit] _ IH]; intros k s Hk Hk2; cbn [foldl]; [by rewrite app_nil_r|].
  replace (k ++ x :: l) with ((k ++ [x]) ++ l) by (by rewrite <-(assoc app)). apply IH.
  - apply (add_range_inv _ _ size); done || lia.
  - unfold add_range. destruct s as [r last]. cbn. lia.
Qed.
End ranges.

(** ** Writing a file *)

Section write.
Context {T D : Type} `{Htab : FATTable T} `{Hst : Storage D} {ok : T -> Prop} {Hlaws : FATLaws T ok}.
Context {repr : D -> Z -> (Z -> Z) -> Prop} {Hdev : WritableDevice D repr} `{UnicodeTables} `{AsciiSet}.
Context (fuel : nat) (spare : Z -> Z).
Notation FS := (FileSystem T D).

(** The size of a file after [n] bytes are written at an offset. *)
Definition size_after (fl : File) (de : directoryEntry) (n : Z) : Z := Z.max (offset fl + n) (fileSize de).

(** A file open for writing on a device that can be written. *)
Record can_write (fs : FS) (fl : File) (de : directoryEntry) (n : Z) : Prop := {
  cw_open : is_open fl = true;
  cw_device : Writable (backend fs) = None;
  cw_mode : isReadWrite fl = true;
  cw_entry : fl_entry fl = Ret de;
  cw_offset : 0 <= offset fl;
  cw_size : size_after fl de n < 2 ^ 32
}.

(** The file after the write: its entry has the new size. *)
Definition resized (fl : File) (de : directoryEntry) (n : Z) : File :=
  if negb (fileSize de =? size_after fl de n) then update_entry (set_size (size_after fl de n)) fl else fl.

Lemma Write_start (fs : FS) fl de p : can_write fs fl de (len p) ->
  Write fuel spare fs fl p =
  ('(fs, r) ← allocateSpace fuel fs (size_after fl de (len p)) (clusterLocation de);
   match r with
   | inr _ => mret (fs, fl, inr (Errorf "unable to allocate clusters for file: %v"))
   | inl clusters =>
       let fl := resized fl de (len p) in
       '(fs, r) ← write_data clusters (offset fl) p fs;
       match r with
       | inr e => mret (fs, fl, inr e)
       | inl totalWritten =>
           let fl := with_offset fl (i64 (offset fl + totalWritten)) in
           '(fs, r) ← writeDirectoryEntries fuel spare (parent fl) fs;
           match r with
           | inr _ => mret (fs, fl, inr (Errorf "error writing directory entries to disk: %v"))
           | inl _ => mret (fs, fl, inl totalWritten)
           end
       end
   end).
Proof.
  intros [Hop Hw Hrw He Ho Hs]. pose proof (len_nonneg p). unfold Write. rewrite Hop, Hw, Hrw, He. cbn [negb mbind go_bind].
  unfold resized, size_after in *. rewrite (i64_id (offset fl + len p)) by lia.
  replace (if _ <? fileSize de then _ else _) with (Z.max (offset fl + len p) (fileSize de)) by (destruct_if; lia).
  rewrite !wrap_u_id by lia. done.
Qed.

(** C22. A write that is refused changes nothing: a closed file, a device that cannot be
    written, a file not opened for writing, and a volume with too few free clusters for
    the new size each give their error, with the volume and the file as they were. *)
Theorem fat_write_refused (fs : FS) fl p :
  (is_open fl = false -> Write fuel spare fs fl p = Ret (fs, fl, inr ErrClosed)) /\
  (is_open fl = true -> forall e, Writable (backend fs) = Some e -> Write fuel spare fs fl p = Ret (fs, fl, inr e)) /\
  (is_open fl = true -> Writable (backend fs) = None -> isReadWrite fl = false ->
   Write fuel spare fs fl p = Ret (fs, fl, inr ErrReadonlyFilesystem)) /\
  (forall de l, can_write fs fl de (len p) ->
   request (ok := ok) fuel fs (size_after fl de (len p)) (clusterLocation de) l ->
   len l + len (free_clusters (table fs)) < clusters_for (size_after fl de (len p)) (bytesPerCluster fs) ->
   Write fuel spare fs fl p = Ret (fs, fl, inr (Errorf "unable to allocate clusters for file: %v"))).
Proof.
  split_and!; [by unfold Write; intros ->|by unfold Write; intros -> e ->|by unfold Write; intros -> -> ->|].
  intros de l Hcw Hrq Hfull. rewrite (Write_start _ _ _ _ Hcw). pose proof (len_nonneg (free_clusters (table fs))).
  rewrite (allocate_full fuel fs _ _ l Hrq) by lia. cbn. reflexivity.
Qed.

(** The entry of a file after it is changed. *)
Lemma fl_entry_update f fl de : fl_entry fl = Ret de -> fl_entry (update_entry f fl) = Ret (f de).
Proof.
  unfold fl_entry, update_entry. destruct (entry fl) as [i|] eqn:E; cbn [entry parent]; [|by intros [= <-]].
  destruct (entries (parent fl) !! i) as [e|] eqn:Ee; [|done]. intros [= <-]. cbn [set_entries entries].
  by rewrite list_lookup_alter_eq, Ee.
Qed.

Lemma resized_entry fl de n : fl_entry fl = Ret de -> 
  fl_entry (resized fl de n) = Ret (set_size (size_after fl de n) de) /\ offset (resized fl de n) = offset fl /\
  is_open (resized fl de n) = is_open fl.
Proof.
  intros He. unfold resized. destruct (Z.eqb_spec (fileSize de) (size_after fl de n)) as [E|E]; cbn [negb].
  - split_and!; try done. rewrite He, <-E. by destruct de.
  - split_and!; try done. by apply fl_entry_update.
Qed.

(** C7. What is written is read. A file is open for reading and writing on a device that
    can be written, at an offset inside its clusters, and data are written, at least one byte,
    so that the file ends up with a size below 2^32 that needs exactly the clusters it has,
    neither more nor fewer (else the chain is grown or shrunk first); the directory that holds
    the file's entry is saved without touching those clusters. Then the write returns the
    length of the data, moves the offset behind it and gives the entry the new size; a read at
    the place of the write then returns the data, every other byte of the file is as it was,
    and no byte of the device outside the file's clusters and its directory changes. *)
Theorem fat_write_then_read (fs : FS) fl de clusters size c p outside : can_write fs fl de (len p) ->
  readable (ok := ok) (repr := repr) fuel fs fl de clusters size c -> bytes_ok p -> 0 < len p ->
  offset fl < len clusters * bytesPerCluster fs ->
  clusters_for (size_after fl de (len p)) (bytesPerCluster fs) = len clusters ->
  (forall d c1, repr d size c1 -> saved fuel spare (repr := repr) (with_backend fs d) size c1 (parent (resized fl de (len p))) outside) ->
  (forall i x, 0 <= i < len clusters -> cluster_base fs clusters i <= x < cluster_base fs clusters i + bytesPerCluster fs -> outside x) ->
  let o := offset fl in
  exists d c', Write fuel spare fs fl p = Ret (with_backend fs d, with_offset (resized fl de (len p)) (o + len p), inl (len p)) /\
    repr d size c' /\
    Read fuel (with_backend fs d) (with_offset (resized fl de (len p)) o) (replicate (length p) 0) =
      Ret (with_offset (resized fl de (len p)) (o + len p), mkR p (len p) (if fileSize de <=? o + len p then Some EOF else None)) /\
    (forall k, 0 <= k < len clusters * bytesPerCluster fs -> ~ (o <= k < o + len p) ->
       chain_byte fs clusters c' k = chain_byte fs clusters c k) /\
    (forall x, outside x -> (forall i, 0 <= i < len clusters ->
       ~ (cluster_base fs clusters i <= x < cluster_base fs clusters i + bytesPerCluster fs)) -> c' x = c x).
Proof.
  intros Hcw Hrd Hp Hp0 Hoc Hfit Hdir Hout o. rewrite (Write_start _ _ _ _ Hcw).
  destruct (readable_list _ _ _ _ _ _ _ Hrd) as [_ Hlen]. destruct Hcw as [Hop Hw Hrw He Ho Hs].
  destruct Hrd as [_ _ Hch Hr Hv Hsz]. destruct (chain_at_list _ _ _ _ Hch) as (_ & Hlen' & Hnd). pose proof (iv_bpc _ _ _ Hv).
  assert (0 <= size_after fl de (len p) < 2 ^ 62) as Hs62 by (unfold size_after in *; lia).
  assert (size_after fl de (len p) <= len clusters * bytesPerCluster fs) as Hcap by (apply clusters_for_le; [lia|done]).
  assert (request (ok := ok) fuel fs (size_after fl de (len p)) (clusterLocation de) clusters) as Hrq by (eapply chain_at_request; done).
  rewrite (allocate_same fuel fs _ _ clusters Hrq Hfit). cbn [mbind go_bind].
  destruct (resized_entry fl de (len p) He) as (He' & Ho' & Hop'). set (fl' := resized fl de (len p)) in *. rewrite Ho'. fold o.
  destruct (write_data_ok fs clusters size c o p Hv Hr Hnd Hp) as (d1 & c1 & -> & Hr1 & Hst1); [unfold size_after in *; lia..|].
  cbn [mbind go_bind]. rewrite i64_id by (unfold size_after in *; lia).
  destruct (Hdir d1 c1 Hr1) as (d2 & c2 & Hwd & Hr2 & _ & Hframe). cbn [parent with_offset].
  rewrite Hwd. cbn [mbind go_bind mret go_ret]. exists d2, c2. split; [by destruct fs|]. split; [done|].
  assert (forall k, 0 <= k < len clusters * bytesPerCluster fs -> chain_byte fs clusters c2 k = overwrite (chain_byte fs clusters c) o p k) as Hc2.
  { intros k Hk. rewrite <-(proj1 Hst1) by done. unfold chain_byte. apply Hframe.
    pose proof (Z.mod_pos_bound k (bytesPerCluster fs)). pose proof (Z.div_mod k (bytesPerCluster fs)).
    apply (Hout (k / bytesPerCluster fs)); [split; [apply Z.div_pos; lia|apply Z.div_lt_upper_bound; lia]|].
    unfold dev_pos, cluster_base. lia. }
  split_and!.
  - assert (readable (ok := ok) (repr := repr) fuel (with_backend fs d2) (with_offset fl' o) (set_size (size_after fl de (len p)) de) clusters size c2) as Hrd'.
    { split; [by rewrite <-Hop, <-Hop'|exact He'|by destruct Hch|done|by destruct Hv|]. cbn. lia. }
    assert (len (replicate (length p) 0) = len p) as Hlb by (by rewrite len_replicate).
    pose proof (first_part_range (bytesPerCluster fs) o (len p) ltac:(lia) ltac:(lia) ltac:(lia)) as ([? ?] & _).
    pose proof (Read_within _ _ _ _ _ _ _ (replicate (length p) 0) Hrd') as Hread. cbv zeta in Hread. rewrite Hlb in Hread.
    change (bytesPerCluster (with_backend fs d2)) with (bytesPerCluster fs) in Hread. cbn [offset with_offset set_size fileSize] in Hread.
    replace (read_count _ o _ _) with (len p) in Hread by (unfold read_count, size_after in *; lia).
    change (chain_byte (with_backend fs d2)) with (chain_byte fs) in Hread.
    assert (span (chain_byte fs clusters c2) o (len p) = p) as Hspan.
    { symmetry. apply span_ext; [done|]. intros i Hi. destruct (index_ok p i Hi) as (x & Hx & _). rewrite Hx, Hc2 by (unfold size_after in *; lia). f_equal.
      unfold overwrite. rewrite (proj2 (Z.leb_le _ _)), (proj2 (Z.ltb_lt _ _)) by lia. cbn [andb]. unfold byte_at.
      replace (o + i - o) with i by lia. by rewrite Hx. }
    rewrite Hspan in Hread. unfold size_after in *. rewrite Hread; [|lia|lia|lia|left; lia].
    unfold patch, sub, from. rewrite (drop_ge _ (Z.to_nat (0 + _))) by (rewrite length_replicate; unfold len; lia).
    rewrite app_nil_r. cbn. do 3 f_equal. unfold size_after in *. destruct_if; destruct_if; done || lia.
  - intros k Hk Hno. rewrite Hc2 by done. unfold overwrite.
    by replace ((_ <=? _) && (_ <? _)) with false by (symmetry; apply andb_false_iff; rewrite Z.leb_gt, Z.ltb_ge; lia).
  - intros x Hx Hno. rewrite Hframe by done. by apply Hst1.
Qed.
End write.

(** ** Witnesses *)

#[local] Existing Instance tables.
#[local] Existing Instance byte_set.
#[local] Existing Instance byte_set_laws.

(** README.TXT of 100 bytes in clusters 3 and 5, in the root of [sample_volume], on a
    device whose byte at [i] is [i mod 251]. *)
Definition file_entry : directoryEntry := set_size 100 (new_entry (lit "README") (lit "TXT") [] false false 0 0 0 3 0 false).
Definition file_root : Directory := mkDir (new_entry [] [] [] false true 0 0 0 0 0 false) [file_entry].
Definition file_bytes : list Z := map (fun i => i mod 251) (seqZ 0 512).
Definition file_volume : FileSystem Fat12.fat12Table memory := with_backend sample_volume (mkMemory file_bytes false 0).
Definition open_file (o : Z) : File := mkFile_ (InParent 0) true false o file_root true.

Lemma file_volume_is : memory_is (backend file_volume) 512 (file_content file_bytes).
Proof.
  unfold memory_is. split_and!; [reflexivity|vm_compute; reflexivity|reflexivity|apply bytes_okb_ok; vm_compute; reflexivity|done].
Defined.

Lemma file_chain_at : chain_at (ok := Fat12.ok) 20 file_volume 3 [3; 5].
Proof.
  split; [split; [apply fc_sample_ok|by split]|cbn; lia|cbn; lia|].
  exists [5]. split; [done|]. split; [|by repeat constructor].
  constructor; [by repeat split; cbn|]. apply (chain_end _ 5 0xFFF); reflexivity.
Defined.

Lemma file_in_volume : in_volume file_volume 512 [3; 5].
Proof.
  split; [reflexivity|cbn; lia|cbn; lia|cbn; lia|].
  apply Forall_cons; split; [cbn; lia|]. apply Forall_cons; split; [cbn; lia|by apply Forall_nil].
Defined.

Lemma file_readable o : readable (ok := Fat12.ok) (repr := memory_is) 20 file_volume (open_file o) file_entry [3; 5] 512 (file_content file_bytes).
Proof.
  split; [reflexivity|reflexivity|apply file_chain_at|apply file_volume_is|apply file_in_volume|change (0 <= 100 < 2 ^ 32 /\ 100 <= 2 * 64); lia].
Defined.

Ltac calc := vm_compute; repeat split; first [reflexivity | discriminate].

(** Four bytes around the boundary of the two clusters: 272 and 273, 338 and 339. *)
Lemma fat_file_read_witness : Read 20 file_volume (open_file 62) [0; 0; 0; 0] =
  Ret (with_offset (open_file 62) 66, mkR [21; 22; 87; 88] 4 None).
Proof.
  destruct (fat_file_read (ok := Fat12.ok) (repr := memory_is) 20 file_volume (open_file 62) file_entry [3; 5] 512 (file_content file_bytes) [0; 0; 0; 0]
    (file_readable 62)) as (_ & H & _); [calc|calc|].
  rewrite H; [vm_compute; reflexivity|calc|]. cbn. intros [Hl _]. vm_compute in Hl. congruence.
Defined.

(** With room for 40 bytes at a time the last read starts inside a cluster. *)
Lemma fat_read_all_witness : exists n, read_all 20 200 (fun _ => 40) file_volume (open_file 0) =
    Ret (span (chain_byte file_volume [3; 5] (file_content file_bytes)) 0 n) /\ 100 <= n <= 128.
Proof.
  destruct (fat_read_all (ok := Fat12.ok) (repr := memory_is) 20 file_volume (open_file 0) file_entry [3; 5] 512 (file_content file_bytes) 200 (fun _ => 40)
    (file_readable 0)) as (n & H & Hn & _); [reflexivity|calc|intros; lia|apply Nat.ltb_lt; reflexivity|].
  exists n. split; [exact H|exact Hn].
Defined.

Lemma fat_write_data_witness : exists d c', write_data [3; 5] 62 [1; 2; 3; 4] file_volume = Ret (with_backend file_volume d, inl 4) /\
  memory_is d 512 c' /\ c' 272 = 1 /\ c' 339 = 4 /\ c' 274 = 23.
Proof.
  destruct (fat_write_data (repr := memory_is) file_volume [3; 5] 512 (file_content file_bytes) 62 [1; 2; 3; 4] file_in_volume file_volume_is)
    as (d & c' & Hw & Hd & Hc & Hf); [refine (bool_decide_eq_true_1 _ _); vm_compute; reflexivity|apply bytes_okb_ok; reflexivity|calc..|].
  exists d, c'. split; [exact Hw|]. split; [exact Hd|]. split; [exact (Hc 62 ltac:(calc))|]. split; [exact (Hc 65 ltac:(calc))|].
  rewrite Hf; [vm_compute; reflexivity|]. intros i Hi. assert (i = 0 \/ i = 1) as [->| ->] by (change (len [3; 5]) with 2 in Hi; lia);
    [change (cluster_base _ _ _) with 210|change (cluster_base _ _ _) with 338]; change (bytesPerCluster file_volume) with 64; lia.
Defined.

Lemma fat_disk_ranges_witness : exists ranges, GetDiskRanges 20 file_volume (open_file 0) = Ret ranges /\
  concat (map (range_clusters 146 64) ranges) = [3; 5].
Proof.
  destruct (fat_disk_ranges (ok := Fat12.ok) 20 file_volume (open_file 0) file_entry [3; 5] 512) as (r & H & Hc & _);
    [reflexivity|reflexivity|apply file_chain_at|apply file_in_volume|]. exists r. split; [exact H|exact Hc].
Defined.

Lemma file_can_write o n : 0 <= o -> o + n < 2 ^ 32 -> can_write file_volume (open_file o) file_entry n.
Proof. intros Ho Hn. split; try reflexivity; [exact Ho|]. unfold size_after. cbn. lia. Defined.

Lemma fat_write_refused_witness : Write 20 (fun _ => 0) file_volume (open_file 62) (replicate 300 7) =
  Ret (file_volume, open_file 62, inr (Errorf "unable to allocate clusters for file: %v")).
Proof.
  destruct (fat_write_refused (ok := Fat12.ok) 20 (fun _ => 0) file_volume (open_file 62) (replicate 300 7)) as (_ & _ & _ & H).
  apply (H file_entry [3; 5]); [apply file_can_write; [calc|calc]| |vm_compute; reflexivity].
  eapply chain_at_request; [apply file_chain_at|apply file_in_volume|calc].
Defined.

Definition file_root_bytes : list Z := match concat_entries [file_entry] with Ret b => b | _ => [] end.

Lemma file_root_saved d c1 : memory_is d 512 c1 ->
  saved 20 (fun _ => 0) (repr := memory_is) (with_backend file_volume d) 512 c1 file_root (fun x => ~ 18 <= x < 146).
Proof.
  intros Hd. apply (fixed_root_saved (ok := Fat12.ok) 20 (fun _ => 0) (with_backend file_volume d) 512 c1 file_root file_root_bytes);
    [|vm_compute; reflexivity|exact Hd|reflexivity|calc|calc|calc|calc].
  apply Forall_cons; split; [|by apply Forall_nil]. split; [short_name|by left].
Defined.

Lemma fat_write_then_read_witness : exists d,
  Write 20 (fun _ => 0) file_volume (open_file 62) [1; 2; 3; 4] = Ret (with_backend file_volume d, with_offset (open_file 62) 66, inl 4) /\
  Read 20 (with_backend file_volume d) (open_file 62) [0; 0; 0; 0] = Ret (with_offset (open_file 62) 66, mkR [1; 2; 3; 4] 4 None).
Proof.
  destruct (fat_write_then_read (ok := Fat12.ok) (repr := memory_is) 20 (fun _ => 0) file_volume (open_file 62) file_entry [3; 5] 512
    (file_content file_bytes) [1; 2; 3; 4] (fun x => ~ 18 <= x < 146)) as (d & c' & Hw & _ & Hr & _);
    [apply file_can_write; calc|apply file_readable|apply bytes_okb_ok; reflexivity|reflexivity|reflexivity|reflexivity
    |intros d c1; apply file_root_saved| |].
  - intros i x Hi. assert (i = 0 \/ i = 1) as [->| ->] by (change (len [3; 5]) with 2 in Hi; lia);
      [change (cluster_base _ _ _) with 210|change (cluster_base _ _ _) with 338]; change (bytesPerCluster file_volume) with 64; lia.
  - exists d. split; [exact Hw|exact Hr].
Defined.

(** ** Observations *)

(** A file of 100 bytes read whole in reads of 40 bytes: the third read starts inside the
    second cluster and delivers the 20 bytes behind the end of the file. *)
Lemma read_delivers_slack : (b ← read_all 20 200 (fun _ => 40) file_volume (open_file 0); mret (len b)) = Ret 120.
Proof. vm_compute. reflexivity. Qed.

(** A file without clusters, as other systems leave an empty file, cannot be read: the
    error comes before the test for the end of the file. *)
Lemma empty_file_unreadable :
  Read 20 file_volume (mkFile_ (InParent 0) false false 0
    (mkDir (self file_root) [new_entry (lit "EMPTY") [] [] false false 0 0 0 0 0 false]) true) [0; 0] =
  Ret (mkFile_ (InParent 0) false false 0 (mkDir (self file_root) [new_entry (lit "EMPTY") [] [] false false 0 0 0 0 0 false]) true,
       mkR [0; 0] 0 (Some (Errorf "unable to get list of clusters for file: %v"))).
Proof. vm_compute. reflexivity. Qed.

(** The operations together, on a volume of 13 clusters of 64 bytes: a directory is made
    and a file created in it, 150 bytes are written, the directory is listed and the file
    opened again and read. *)
Definition empty_volume : FileSystem Fat12.fat12Table memory :=
  mkFS None (Fat12.mkTable 0xFF8 0xFFF 0 (replicate 11 0) 10 17) 162 64 1000 0 (mkMemory (replicate 1000 0) false 0) 34 4 0 17 None None.

Definition session : fsm Fat12.fat12Table memory (list gostring * list Z * list Z) :=
  _ ← Mkdir 20 7 (fun _ => 0) (lit "/sub");
  f ← OpenFile 20 7 (fun _ => 0) (lit "/sub/a.txt") (Z.lor O_RDWR O_CREATE);
  f ← (fun fs => '(fs, f, r) ← Write 20 (fun _ => 0) fs f (seqZ 1 150);
                 mret (fs, match r with inl _ => inl f | inr e => inr e end));
  es ← ReadDir 20 7 (fun _ => 0) (lit "sub");
  b ← ReadFile 20 7 (fun _ => 0) 100 (fun _ => 64) (lit "/sub/a.txt");
  l ← reading (fun fs => GetClusterChain 20 fs f);
  mret (map Name es, b, l).

Lemma volume_session : match session empty_volume with Ret (_, inl r) => Some r | _ => None end =
  Some ([lit "a.txt"], seqZ 1 150, [3; 5; 6]).
Proof. vm_compute. reflexivity. Qed.
