(* ===== verification/FatVolume.v ===== *)
(** * FatVolume: making and opening FAT12 and FAT16 volumes
    [NewFileSystem], [Create] and [Read] of diskkit/filesystem/fat12/fat12.go, and [Create]
    and [Read] of fat16/fat16.go: the layout of a volume of a given size, what is written
    to format it, and what is taken from the boot sector of an existing one. *)
From S2P Require Import Prelude Bytes ReaderAt Text GoTime FatBoot FatTable Storage FatChain FatData FatDirent FatDir FatFs.

Definition KB : Z := 1024.
Definition MB : Z := 1024 * KB.
Definition GB : Z := 1024 * MB.
Definition Fat12MaxSize : Z := 128 * MB.
Definition Fat16MaxSize : Z := 2 * GB.
Definition MediaFixedDisk : Z := 0xf8.
Definition Media35Inch : Z := 0xf0.

(** The volume id: the clock unless the image must be reproducible. *)
Definition volume_id (reproducible : bool) (unix nano : Z) : Z :=
  if reproducible then 0 else u32 (Z.lor (i64 (Z.shiftl unix 20)) (Z.quot nano 1000000)).

(** ** Layout *)

Record layout := mkLayout {
  l_bytesPerSector : Z; l_sectorsPerCluster : Z; l_reservedSectors : Z; l_fatCount : Z;
  l_rootDirEntries : Z; l_totalSectors : Z; l_sectorsPerFat : Z; l_numClusters : Z
}.

Definition rootDirSectors (rootDirEntries bytesPerSector : Z) : Z :=
  u32 (u32 (u32 (rootDirEntries * 32) + bytesPerSector) - 1) / bytesPerSector.

(** The size of the tables depends on the number of clusters and the other way round: an
    estimate without the tables, then a second round with them. [fatBytes] is the bytes
    the entries of that many clusters take. *)
Definition estimate (fatBytes : Z -> Z) (totalSectors reservedSectors rootDirEntries sectorsPerCluster : Z) : layout :=
  let bytesPerSector := 512 in
  let rds := rootDirSectors rootDirEntries bytesPerSector in
  let dataSectors := u32 (u32 (totalSectors - reservedSectors) - rds) in
  let numClusters := dataSectors / sectorsPerCluster in
  let sectorsPerFat := u16 (u32 (u32 (fatBytes numClusters + bytesPerSector) - 1) / bytesPerSector) in
  let dataSectors := u32 (u32 (u32 (totalSectors - reservedSectors) - rds) - u32 (2 * sectorsPerFat)) in
  let numClusters := dataSectors / sectorsPerCluster in
  mkLayout bytesPerSector sectorsPerCluster reservedSectors 2 rootDirEntries totalSectors sectorsPerFat numClusters.

Definition sectorsPerCluster12 (size : Z) : Z :=
  if size <=? 2 * MB then 1
  else if size <=? 4 * MB then 2
  else if size <? 8 * MB then 4
  else if size <=? 16 * MB then 8
  else if size <=? 32 * MB then 16
  else if size <=? 64 * MB then 32
  else 64.
Definition layout12 (size : Z) : layout :=
  estimate (fun n => u32 (n * 3) / 2) (u32 (Z.quot size 512)) 1 (if size <=? 512 * KB then 112 else 224) (sectorsPerCluster12 size).

Definition sectorsPerCluster16 (size : Z) : Z :=
  if size <=? 32 * MB then 2
  else if size <=? 128 * MB then 4
  else if size <=? 256 * MB then 8
  else if size <=? 512 * MB then 16
  else if size <=? GB then 32
  else 64.
Definition layout16 (size : Z) : layout :=
  estimate (fun n => u32 (n * 2)) (u32 (Z.quot size 512)) 4 512 (sectorsPerCluster16 size).

(** Byte offsets: reserved sectors, two tables, root directory, clusters. *)
Record places := mkPlaces {
  p_fatPrimaryStart : Z; p_fatSize : Z; p_fatSecondaryStart : Z; p_rootDirOff : Z; p_dataStart : Z; p_bytesPerCluster : Z
}.
Definition place (l : layout) : places :=
  let primary := u32 (l_reservedSectors l * l_bytesPerSector l) in
  let fatSize := u32 (l_sectorsPerFat l * l_bytesPerSector l) in
  let secondary := u32 (primary + fatSize) in
  let rootDirOff := u32 (secondary + fatSize) in
  let rds := rootDirSectors (l_rootDirEntries l) (l_bytesPerSector l) in
  mkPlaces primary fatSize secondary rootDirOff (u32 (rootDirOff + u32 (rds * l_bytesPerSector l)))
    (l_sectorsPerCluster l * l_bytesPerSector l).

Definition boot_of (bpb : Dos40EBPB) : Boot12.msDosBootSector :=
  Boot12.mkBootSector [0xeb; 0x3c; 0x90] (lit "godiskfs") bpb [].

Section new.
Context {T D : Type}.

Definition NewFileSystem (b : D) (bpb : option Dos40EBPB) (tbl : T) (dataStart bytesPerCluster size start rootDirOffset
    rootDirMaxEntries fatPrimaryStart fatSecondaryStart : Z) : FileSystem T D :=
  mkFS (boot_of <$> bpb) tbl dataStart bytesPerCluster size start b rootDirOffset rootDirMaxEntries
    fatPrimaryStart fatSecondaryStart None None.

(** Over a layout, with a fixed root. *)
Definition volume (b : D) (bpb : Dos40EBPB) (tbl : T) (l : layout) (size start : Z) : FileSystem T D :=
  let p := place l in
  NewFileSystem b (Some bpb) tbl (p_dataStart p) (p_bytesPerCluster p) size start (p_rootDirOff p) (l_rootDirEntries l)
    (p_fatPrimaryStart p) (p_fatSecondaryStart p).
End new.

(** The parameter block of a layout. *)
Definition bpb_of (l : layout) (media track heads drive serial : Z) (fstype : gostring) : Dos40EBPB :=
  let small := l_totalSectors l <=? 0xFFFF in
  mkDos40 (mkDos331 (mkDos20 512 (l_sectorsPerCluster l) (l_reservedSectors l) (l_fatCount l) (l_rootDirEntries l)
                       (if small then u16 (l_totalSectors l) else 0) media (l_sectorsPerFat l))
                    track heads 0 (if small then 0 else l_totalSectors l))
    drive 0 longEBPB serial (lit "NO NAME    ") fstype.

Section create.
Context {D : Type} `{Storage D} `{UnicodeTables} `{AsciiSet}.
Context (fuel : nat) (now : time) (spare : Z -> Z).

Section steps.
Context {T : Type} `{FATTable T}.

(** The root region is filled with zeros. *)
Definition zero_root : fsm T D unit := fun fs =>
  (zeros ← pure (make 0 1 (i64 (rootDirMaxEntries fs * 32)));
   _ ← wrapping (Wrapf "failed to zero root directory: %w") (write_at zeros (i64 (rootDirOffset fs + start fs)));
   mret tt) fs.

Definition write_boot : fsm T D unit := wrapping (Wrapf "failed to write boot sector: %w") (calling WriteBootSector).
Definition write_tables : fsm T D unit := wrapping (Wrapf "failed to write FAT: %w") (calling WriteFat).
Definition label_volume (volumeLabel : gostring) : fsm T D unit :=
  wrapping (Wrapf "failed to set volume label: %w") (SetLabel fuel now spare volumeLabel).

(** The device afterwards and the file system or the error. *)
Definition formatted (steps : fsm T D unit) (fs : FileSystem T D) : go (D * (FileSystem T D + error)) :=
  '(fs, r) ← steps fs;
  mret (backend fs, match r with inl _ => inl fs | inr e => inr e end).
End steps.

(** ** FAT12 *)

Definition Create12 (b : D) (size start blocksize : Z) (volumeLabel : gostring) (volid : Z) :
    go (D * (FileSystem Fat12.fat12Table D + error)) :=
  if negb (blocksize =? 512) && (0 <? blocksize) then mret (b, inr (Errorf "blocksize for FAT12 must be 512 or 0, not %d"))
  else if Fat12MaxSize <? size then mret (b, inr (Errorf "size %d exceeds FAT12 maximum of %d"))
  else if size <? 512 * 4 then mret (b, inr (Errorf "size %d is too small for a FAT12 filesystem"))
  else
    let l := layout12 size in
    if 4085 <=? l_numClusters l then mret (b, inr (Errorf "computed cluster count %d is too large for FAT12 (max 4084); use FAT16"))
    else
      let media := if size <=? 2 * MB then Media35Inch else MediaFixedDisk in
      let bpb := bpb_of l media 18 2 0x00 volid (lit "FAT12   ") in
      tbl ← Fat12.newFat12Table (Z.lor 0x0F00 media) (p_fatSize (place l));
      tbl ← SetCluster tbl 2 (Fat12.eoc tbl);
      formatted (_ ← writable; _ ← write_boot; _ ← write_tables; _ ← zero_root; label_volume volumeLabel)
        (volume b bpb tbl l size start).

(** The layout that a boot sector describes; its number of clusters decides the kind. *)
Definition layout_of (bpb : Dos40EBPB) : go layout :=
  let d := dos20 (dos331 bpb) in
  let bytesPerSector := BytesPerSector d in
  let rds := rootDirSectors (RootDirectoryEntries d) bytesPerSector in
  let fatSectors := u32 (FatCount d * SectorsPerFat d) in
  let dataSectors := u32 (u32 (u32 (TotalSectors bpb - ReservedSectors d) - fatSectors) - rds) in
  if SectorsPerCluster d =? 0 then Panic DivideByZero
  else mret (mkLayout bytesPerSector (SectorsPerCluster d) (ReservedSectors d) (FatCount d) (RootDirectoryEntries d)
               (TotalSectors bpb) (SectorsPerFat d) (dataSectors / SectorsPerCluster d)).

(** The table on disk. *)
Definition read_table {T} `{FATTable T} (b : D) (start : Z) (tbl : T) (p : places) : go T :=
  fatBytes ← make 0 1 (p_fatSize p);
  fatBytes ← read_or (ReadAt b) "could not read FAT: %w" fatBytes (i64 (p_fatPrimaryStart p + start));
  FromBytes tbl fatBytes.

Definition Read12 (b : D) (size start blocksize : Z) : go (FileSystem Fat12.fat12Table D) :=
  if negb (blocksize =? 0) && negb (blocksize =? 512) then Err (Errorf "blocksize for FAT12 must be 0 or 512, not %d")
  else
    raw ← make 0 1 512;
    raw ← read_or (ReadAt b) "could not read boot sector: %w" raw start;
    bs ← or_else (Wrapf "not a FAT12/16 filesystem (boot sector parse failed): %w") (Boot12.msDosBootSectorFromBytes raw);
    let bpb := Boot12.biosParameterBlock bs in
    if RootDirectoryEntries (dos20 (dos331 bpb)) =? 0
    then Err (Errorf "not a FAT12 filesystem: rootDirectoryEntries is zero (FAT32?)")
    else
      l ← layout_of bpb;
      if 4085 <=? l_numClusters l then Err (Errorf "not a FAT12 filesystem: cluster count %d >= 4085")
      else
        tbl ← Fat12.newFat12Table (Z.lor 0x0F00 (MediaType (dos20 (dos331 bpb)))) (p_fatSize (place l));
        tbl ← read_table b start tbl (place l);
        mret (volume b bpb tbl l size start).

(** ** FAT16 *)

Definition Create16 (b : D) (size start blocksize : Z) (volumeLabel : gostring) (volid : Z) :
    go (D * (FileSystem Fat16.fat16Table D + error)) :=
  if negb (blocksize =? 512) && (0 <? blocksize) then mret (b, inr (Errorf "blocksize for FAT16 must be 512 or 0, not %d"))
  else if Fat16MaxSize <? size then mret (b, inr (Errorf "size %d exceeds FAT16 maximum of %d"))
  else if size <? 512 * 8 then mret (b, inr (Errorf "size %d is too small for a FAT16 filesystem"))
  else
    let l := layout16 size in
    if 65525 <=? l_numClusters l then mret (b, inr (Errorf "computed cluster count %d too large for FAT16 (max 65524)"))
    else if l_numClusters l <? 4085 then mret (b, inr (Errorf "computed cluster count %d too small for FAT16 (min 4085); use FAT12"))
    else
      let bpb := bpb_of l MediaFixedDisk 63 255 0x80 volid (lit "FAT16   ") in
      tbl ← Fat16.newFat16Table (Z.lor 0xFF00 MediaFixedDisk) (p_fatSize (place l));
      tbl ← SetCluster tbl 2 (EOCMarker tbl);
      formatted (_ ← write_boot; _ ← write_tables; _ ← writable; _ ← zero_root; label_volume volumeLabel)
        (volume b bpb tbl l size start).

Definition Read16 (b : D) (size start blocksize : Z) : go (FileSystem Fat16.fat16Table D) :=
  if negb (blocksize =? 0) && negb (blocksize =? 512) then Err (Errorf "blocksize for FAT16 must be 0 or 512, not %d")
  else
    raw ← make 0 1 512;
    raw ← read_or (ReadAt b) "could not read boot sector: %w" raw start;
    rest ← slice raw 11 (len raw);
    '(bpb, _) ← or_else (Wrapf "not a FAT16 filesystem (BPB parse failed): %w") (Dos40EBPBFromBytes rest);
    if RootDirectoryEntries (dos20 (dos331 bpb)) =? 0
    then Err (Errorf "not a FAT16 filesystem: rootDirectoryEntries is zero (FAT32?)")
    else
      l ← layout_of bpb;
      if l_numClusters l <? 4085 then Err (Errorf "not a FAT16 filesystem: cluster count %d < 4085")
      else if 65525 <=? l_numClusters l then Err (Errorf "not a FAT16 filesystem: cluster count %d >= 65525")
      else
        tbl ← Fat16.newFat16Table (Z.lor 0xFF00 (MediaType (dos20 (dos331 bpb)))) (p_fatSize (place l));
        tbl ← read_table b start tbl (place l);
        mret (volume b bpb tbl l size start).
End create.

(** ** Layouts *)

#[local] Ltac Zify.zify_post_hook ::= Z.div_mod_to_equations.

Ltac estimate_words :=
  unfold estimate, place, rootDirSectors in *; cbn [l_numClusters l_reservedSectors l_bytesPerSector l_sectorsPerFat l_rootDirEntries l_sectorsPerCluster
    p_fatPrimaryStart p_fatSize p_fatSecondaryStart p_rootDirOff p_dataStart p_bytesPerCluster] in *;
  unfold wrap_u in *; change (2 ^ 32) with 4294967296 in *; change (2 ^ 16) with 65536 in *; change (2 ^ 23) with 8388608 in *; change (2 ^ 24) with 16777216 in *.

(** A volume without room for what comes before the tables is refused: the count wraps round. *)
Lemma estimate_underflow fatBytes total reserved rds spc : 0 <= total < reserved + rds -> 0 <= reserved <= 4 -> 0 <= rds <= 32 -> 0 < spc <= 64 ->
  65525 <= l_numClusters (estimate fatBytes total reserved (rds * 16) spc).
Proof.
  intros. estimate_words.
  assert ((((rds * 16 * 32) mod 4294967296 + 512) mod 4294967296 - 1) mod 4294967296 / 512 = rds) as -> by lia.
  assert (((total - reserved) mod 4294967296 - rds) mod 4294967296 = 4294967296 + total - reserved - rds) as -> by lia.
  set (f := (_ / 512) mod 65536). assert (0 <= f < 65536) by (unfold f; lia). clearbody f.
  set (d := (_ - (2 * f) mod _) mod _). assert (4294967296 - 131072 - 36 <= d) by (unfold d; lia). clearbody d.
  transitivity (d / 64); [lia|]. apply Z.div_le_compat_l; lia.
Qed.

Lemma estimate_places fatBytes total reserved rds spc : 
  0 <= reserved -> 0 < spc <= 64 -> 0 <= rds -> reserved + rds <= total < 2 ^ 23 ->
  let l := estimate fatBytes total reserved (rds * 16) spc in
  let n0 := (total - reserved - rds) / spc in
  0 <= fatBytes n0 < 2 ^ 24 -> let spf := (fatBytes n0 + 511) / 512 in
  l_numClusters l < 65525 ->
  reserved + rds + 2 * spf <= total /\ l_sectorsPerFat l = spf /\ l_numClusters l = (total - reserved - rds - 2 * spf) / spc /\
  place l = mkPlaces (reserved * 512) (spf * 512) ((reserved + spf) * 512) ((reserved + 2 * spf) * 512) ((reserved + 2 * spf + rds) * 512) (spc * 512).
Proof.
  intros Hr Hs Hrds Ht l n0 Hf spf Hn. unfold l in *. estimate_words.
  assert ((((rds * 16 * 32) mod 4294967296 + 512) mod 4294967296 - 1) mod 4294967296 / 512 = rds) as E by lia. rewrite E in *.
  assert (((total - reserved) mod 4294967296 - rds) mod 4294967296 = total - reserved - rds) as E2 by lia. rewrite E2 in *. fold n0 in Hn |- *.
  assert ((((fatBytes n0 + 512) mod 4294967296 - 1) mod 4294967296 / 512) mod 65536 = spf) as E3 by (unfold spf; lia). rewrite E3 in *.
  assert (0 <= spf < 65536) by (unfold spf; lia). clearbody spf n0. clear E E2 E3 Hf.
  set (d := (_ - (2 * spf) mod _) mod _) in *.
  assert (reserved + rds + 2 * spf <= total) as Hd.
  { assert (d < 65536 * spc) by (apply Z.div_lt_upper_bound in Hn || idtac; pose proof (Z.mul_succ_div_gt d spc); nia). unfold d in *. lia. }
  assert (d = total - reserved - rds - 2 * spf) as -> by (unfold d; lia).
  split_and!; [done..|]. f_equal; lia.
Qed.

(** The regions of a volume follow each other, and as many clusters as there is room for
    lie behind them. *)
Definition laid_out (l : layout) (size : Z) : Prop :=
  let p := place l in
  1 <= l_sectorsPerFat l /\ p_fatSize p = l_sectorsPerFat l * 512 /\ p_bytesPerCluster p = l_sectorsPerCluster l * 512 /\
  p_fatPrimaryStart p = l_reservedSectors l * 512 /\ p_fatSecondaryStart p = p_fatPrimaryStart p + p_fatSize p /\
  p_rootDirOff p = p_fatSecondaryStart p + p_fatSize p /\ p_dataStart p = p_rootDirOff p + l_rootDirEntries l * 32 /\
  p_dataStart p + l_numClusters l * p_bytesPerCluster p <= size < p_dataStart p + (l_numClusters l + 1) * p_bytesPerCluster p + 512.

Lemma estimate_laid_out fatBytes size reserved rds spc : let total := size / 512 in
  let l := estimate fatBytes total reserved (rds * 16) spc in let n0 := (total - reserved - rds) / spc in
  0 <= reserved -> 0 < spc <= 64 -> 0 <= rds -> reserved + rds <= total < 2 ^ 23 -> 0 < fatBytes n0 < 2 ^ 24 ->
  l_numClusters l < 65525 -> laid_out l size.
Proof.
  intros total l n0 Hr Hs Hrds Ht Hf Hn.
  destruct (estimate_places fatBytes total reserved rds spc) as (Hfit & Hspf & Hnum & Hp); [lia..|fold n0; lia|done|].
  fold l in Hspf, Hnum, Hp. fold n0 in Hfit, Hspf, Hnum, Hp. unfold laid_out. rewrite Hspf, Hp, Hnum.
  unfold l, estimate. cbn [l_sectorsPerCluster l_reservedSectors l_rootDirEntries p_fatPrimaryStart p_fatSize p_fatSecondaryStart p_rootDirOff p_dataStart p_bytesPerCluster].
  set (spf := (fatBytes n0 + 511) / 512) in *. assert (1 <= spf) by (unfold spf; lia). clearbody spf.
  set (d := total - reserved - rds - 2 * spf) in *. pose proof (Z.mul_div_le d spc ltac:(lia)). pose proof (Z.mul_succ_div_gt d spc ltac:(lia)).
  split_and!; [lia..| |]; unfold d, total in *; nia.
Qed.


(** The number of clusters shrinks by what the tables take. *)
Lemma estimate_clusters d spf spc k : 0 < spc -> 0 <= k -> k * spc <= 2 * spf -> (d - 2 * spf) / spc <= d / spc - k.
Proof. intros. transitivity ((d - k * spc) / spc); [apply Z.div_le_mono; lia|]. replace (d - k * spc) with (d + (- k) * spc) by lia. rewrite Z.div_add by lia. lia. Qed.

(** What [sectorsPerCluster12] and [sectorsPerCluster16] choose, in sectors of the volume. *)
Lemma sectorsPerCluster12_cases size : let t := size / 512 in
  sectorsPerCluster12 size = 1 /\ t <= 4096 \/ sectorsPerCluster12 size = 2 /\ 4096 <= t <= 8192 \/
  sectorsPerCluster12 size = 4 /\ 8192 <= t <= 16384 \/ sectorsPerCluster12 size = 8 /\ 16384 <= t \/ sectorsPerCluster12 size = 16 /\ 16384 <= t \/
  sectorsPerCluster12 size = 32 /\ 16384 <= t \/ sectorsPerCluster12 size = 64 /\ 16384 <= t.
Proof. unfold sectorsPerCluster12, MB, KB. repeat destruct_if; lia. Qed.

Lemma sectorsPerCluster16_cases size : let t := size / 512 in
  sectorsPerCluster16 size = 2 \/ sectorsPerCluster16 size = 4 \/ sectorsPerCluster16 size = 8 /\ 2 ^ 18 <= t \/
  sectorsPerCluster16 size = 16 /\ 2 ^ 19 <= t \/ sectorsPerCluster16 size = 32 /\ 2 ^ 20 <= t \/ sectorsPerCluster16 size = 64 /\ 2 ^ 21 <= t.
Proof. unfold sectorsPerCluster16, GB, MB, KB. repeat destruct_if; lia. Qed.

Lemma div_above d s : 0 < s -> d - s < d / s * s.
Proof. intros. pose proof (Z.mul_succ_div_gt d s). set (q := d / s) in *. clearbody q. lia. Qed.

(** The entries that so many sectors hold. *)
Lemma fat12_sectors n : 1 <= n -> let spf := (n * 3 / 2 + 511) / 512 in n <= spf * 512 * 2 / 3 + 1 /\ n * 3 / 2 <= spf * 512 /\ 1 <= spf.
Proof. intros Hn spf. assert (n * 3 / 2 <= spf * 512) by (unfold spf; lia). assert (1 <= spf) by (unfold spf; lia). clearbody spf. lia. Qed.

Lemma layout12_room (t rds d spc spf n0 : Z) : rds = 7 \/ rds = 14 -> (rds = 7 \/ 1024 <= t) -> d = t - 1 - rds -> t < 16384 ->
  spc = 1 /\ t <= 4096 \/ spc = 2 /\ 4096 <= t \/ spc = 4 /\ 8192 <= t \/ 16384 <= t ->
  d - spc < n0 * spc -> n0 * 3 / 2 <= spf * 512 -> 1 <= spf -> spc <= spf.
Proof. intros [-> | ->] Hr -> Ht [[-> ?]|[[-> ?]|[[-> ?]|?]]] Hd Hs H1; lia. Qed.

Lemma layout12_bounds size : 10 * 512 <= size <= Fat12MaxSize -> let l := layout12 size in l_numClusters l < 4085 ->
  laid_out l size /\ l_numClusters l <= p_fatSize (place l) * 2 / 3 + 1 /\
  (size < 8 * MB -> l_numClusters l + 1 <= p_fatSize (place l) * 2 / 3).
Proof.
  intros Hs l Hn. unfold l, layout12 in *. rewrite Z.quot_div_nonneg in * by lia. unfold Fat12MaxSize, MB, KB in *.
  assert (10 <= size / 512 <= 262144) as Ht by lia. rewrite (wrap_u_id 32 (size / 512)) in * by lia.
  assert (exists rds, (if size <=? 512 * 1024 then 112 else 224) = rds * 16 /\ (rds = 7 \/ rds = 14) /\ (rds = 7 \/ 1024 <= size / 512)) as (rds & Er & Hrds & Hr).
  { destruct_if; [exists 7|exists 14]; lia. }
  rewrite Er in *. clear Er. pose proof (sectorsPerCluster12_cases size) as Hspc. cbv zeta in Hspc.
  set (spc := sectorsPerCluster12 size) in *. clearbody spc. assert (0 < spc <= 64) as Hspc0 by lia.
  assert (size < 8 * (1024 * 1024) -> size / 512 < 16384) as H8 by lia. assert (1 + rds <= size / 512) as Hrt by lia.
  set (d := size / 512 - 1 - rds). assert (1 <= d / spc <= 262144) as Hd.
  { split; [apply Z.div_le_lower_bound; unfold d; lia|]. transitivity (d / 1); [apply Z.div_le_compat_l|]; unfold d; lia. }
  assert (u32 (d / spc * 3) / 2 = d / spc * 3 / 2) as Hw by (rewrite wrap_u_id by lia; done).
  assert (0 < d / spc * 3 / 2 < 2 ^ 24) as Hfb by lia. split.
  - apply estimate_laid_out; try lia; fold d; rewrite Hw; lia.
  - destruct (estimate_places (fun n => u32 (n * 3) / 2) (size / 512) 1 rds spc) as (Hfit & Hspf & Hnum & Hp); try lia; try (fold d; rewrite Hw; lia).
    rewrite Hp, Hnum. cbn [p_fatSize]. fold d. rewrite Hw. set (spf := (d / spc * 3 / 2 + 511) / 512).
    pose proof (fat12_sectors (d / spc) (proj1 Hd)) as (He & Hb & H1). fold spf in He, Hb, H1.
    pose proof (div_above d spc (proj1 Hspc0)) as Hn0.
    replace (size / 512 - 1 - rds - 2 * spf) with (d - 2 * spf) by (unfold d; ring).
    pose proof (estimate_clusters d spf spc 0 (proj1 Hspc0)) as Hc0. pose proof (estimate_clusters d spf spc 2 (proj1 Hspc0)) as Hc2.
    assert (size < 8 * (1024 * 1024) -> spc <= spf) as Hroom.
    { intros H. eapply (layout12_room (size / 512) rds d spc spf (d / spc)); eauto; clear - Hspc; lia. }
    set (q := (d - 2 * spf) / spc) in *. set (e := spf * 512 * 2 / 3) in *. clearbody q e spf. set (n0 := d / spc) in *. clearbody n0. clear - He Hc0 Hc2 Hroom H1.
    split; [lia|]. intros H. specialize (Hroom H). lia.
Qed.

Lemma layout16_room (t spc d n0 spf : Z) : d = t - 4 - 32 -> spc = 2 \/ spc = 4 \/ spc = 8 /\ 2 ^ 18 <= t \/ spc = 16 /\ 2 ^ 19 <= t \/ spc = 32 /\ 2 ^ 20 <= t \/ spc = 64 /\ 2 ^ 21 <= t ->
  d - spc < n0 * spc -> n0 * 2 <= spf * 512 -> 4085 <= n0 -> 2 * spc <= 2 * spf.
Proof. intros -> [->|[->|[[-> ?]|[[-> ?]|[[-> ?]|[-> ?]]]]]] Hd Hs H1; lia. Qed.

Lemma layout16_bounds size : 512 * 8 <= size <= Fat16MaxSize -> let l := layout16 size in 4085 <= l_numClusters l < 65525 ->
  laid_out l size /\ l_numClusters l + 2 <= p_fatSize (place l) / 2.
Proof.
  intros Hs l Hn. unfold l, layout16 in *. rewrite Z.quot_div_nonneg in * by lia. unfold Fat16MaxSize, GB, MB, KB in *.
  assert (8 <= size / 512 <= 4194304) as Ht0 by lia. rewrite (wrap_u_id 32 (size / 512)) in * by lia.
  pose proof (sectorsPerCluster16_cases size) as Hspc. cbv zeta in Hspc.
  set (spc := sectorsPerCluster16 size) in *. clearbody spc. assert (2 <= spc <= 64) as Hspc0 by lia.
  assert (36 <= size / 512) as Ht.
  { destruct (Z.le_gt_cases 36 (size / 512)); [done|]. pose proof (estimate_underflow (fun n => u32 (n * 2)) (size / 512) 4 32 spc) as Hu. change (32 * 16) with 512 in Hu. lia. }
  set (d := size / 512 - 4 - 32). assert (0 <= d / spc <= 2097152) as Hd.
  { split; [apply Z.div_pos; unfold d; lia|]. transitivity (d / 2); [apply Z.div_le_compat_l|]; unfold d; lia. }
  assert (u32 (d / spc * 2) = d / spc * 2) as Hw by (rewrite wrap_u_id by lia; done).
  assert (0 < spc) as Hsp by lia.
  destruct (estimate_places (fun n => u32 (n * 2)) (size / 512) 4 32 spc) as (Hfit & Hspf & Hnum & Hp); try lia; try (fold d; rewrite Hw; lia); [change (32 * 16) with 512; lia|].
  change (32 * 16) with 512 in *. assert (4085 <= d / spc) as Hn0.
  { rewrite Hnum in Hn. fold d in Hn. rewrite Hw in Hn. set (spf := _ / 512) in Hn. replace (size / 512 - 4 - 32 - 2 * spf) with (d - 2 * spf) in Hn by (unfold d; ring).
    transitivity ((d - 2 * spf) / spc); [lia|]. apply Z.div_le_mono; [done|]. assert (0 <= spf) by (apply Z.div_pos; lia). lia. }
  split; [apply (estimate_laid_out (fun n => u32 (n * 2)) size 4 32 spc); try lia; [fold d; rewrite Hw; lia|change (32 * 16) with 512; lia]|].
  rewrite Hp, Hnum. cbn [p_fatSize]. fold d. rewrite Hw. set (spf := (d / spc * 2 + 511) / 512).
  assert (d / spc * 2 <= spf * 512) as Hb by (unfold spf; clear; lia). pose proof (div_above d spc Hsp) as Hda.
  replace (size / 512 - 4 - 32 - 2 * spf) with (d - 2 * spf) by (unfold d; ring).
  pose proof (estimate_clusters d spf spc 2 Hsp ltac:(done)) as Hc2.
  specialize (Hc2 (layout16_room (size / 512) spc d (d / spc) spf eq_refl Hspc Hda Hb Hn0)).
  set (q := (d - 2 * spf) / spc) in *. set (n0 := d / spc) in *. clearbody q n0 spf. clear - Hc2 Hb. lia.
Qed.

(** C17. The layout that [Create] computes for a volume of [size] bytes. Reserved sectors,
    two tables of equal size, the root directory and the clusters follow each other
    without a gap or an overlap and without a wrap-around of the 32-bit offsets; the
    clusters end inside the volume, and what is left behind them is less than one more
    cluster and a sector. On FAT16 the table has an entry for every cluster; so it has on
    FAT12 below 8 MB, but from there on the last two clusters may be without one. *)
Theorem fat_layout_bounds size :
  (10 * 512 <= size <= Fat12MaxSize -> let l := layout12 size in l_numClusters l < 4085 ->
    laid_out l size /\ l_numClusters l <= p_fatSize (place l) * 2 / 3 + 1 /\
    (size < 8 * MB -> l_numClusters l + 1 <= p_fatSize (place l) * 2 / 3)) /\
  (512 * 8 <= size <= Fat16MaxSize -> let l := layout16 size in 4085 <= l_numClusters l < 65525 ->
    laid_out l size /\ l_numClusters l + 2 <= p_fatSize (place l) / 2).
Proof. split; [apply layout12_bounds|apply layout16_bounds]. Qed.

(** A floppy disk, and a FAT12 volume whose last cluster, 2732, has no entry in the table. *)
Lemma fat_layout_bounds_witness :
  (laid_out (layout12 1474560) 1474560 /\ l_numClusters (layout12 1474560) = 2847) /\
  (laid_out (layout16 (64 * MB)) (64 * MB) /\ l_numClusters (layout16 (64 * MB)) = 32695).
Proof.
  split; [split; [apply (fat_layout_bounds 1474560)|reflexivity]|split; [apply (fat_layout_bounds (64 * MB))|]];
    vm_compute; first [reflexivity|split; congruence].
Defined.

(** The FAT12 bound is met: 2731 clusters, the last of which has number 2732, and a table
    of 4096 bytes, whose last entry is 2730. *)
Example fat12_clusters_without_entry : let l := layout12 89505280 in
  l_numClusters l = 2731 /\ p_fatSize (place l) * 2 / 3 = 2730.
Proof. split; reflexivity. Qed.

(** From 8 to 8.99 sectors nothing is left for a table: [Create] indexes an empty one. *)
Example fat12_no_table : let l := layout12 4096 in l_sectorsPerFat l = 0 /\ l_numClusters l = 0.
Proof. split; reflexivity. Qed.
