(* ===== verification/FatFormat.v ===== *)
(** * FatFormat: a volume that is made is opened again
    The boot sector as [Create] writes it and as [Read] parses it; the effect of every
    step of [Create] on the device; and that [Read] opens what [Create] made. *)
From S2P Require Import Prelude Bytes ReaderAt Text GoTime FatBoot FatTable Storage FatChain FatData FatDirent FatDir FatFs FatVolume.

(** ** The parameter block as bytes *)

Definition word (n x : Z) : Prop := 0 <= x < 2 ^ n.
Definition dos20_fits (d : Dos20BPB) : Prop :=
  word 16 (BytesPerSector d) /\ word 8 (SectorsPerCluster d) /\ word 16 (ReservedSectors d) /\ word 8 (FatCount d) /\ word 16 (RootDirectoryEntries d) /\
  word 16 (TotalSectors16 d) /\ word 8 (MediaType d) /\ word 16 (SectorsPerFat d) /\
  512 <= BytesPerSector d /\ Z.land (BytesPerSector d) (BytesPerSector d - 1) = 0.
Definition dos331_fits (d : Dos331BPB) : Prop :=
  dos20_fits (dos20 d) /\ word 16 (SectorsPerTrack d) /\ word 16 (Heads d) /\ word 32 (HiddenSectors d) /\ word 32 (TotalSectors32 d).
Definition dos40_fits (d : Dos40EBPB) : Prop :=
  dos331_fits (dos331 d) /\ word 8 (DriveNumber d) /\ word 8 (ReservedFlags d) /\ ExtBootSignature d = longEBPB /\ word 32 (VolumeSerialNumber d) /\
  len (VolumeLabel d) = 11 /\ bytes_ok (VolumeLabel d) /\ len (FileSystemType d) = 8 /\ bytes_ok (FileSystemType d).

Lemma word_mod (n : nat) x : word (8 * Z.of_nat n) x -> LE (put_le n x) = x.
Proof. intros H. rewrite LE_put_le. apply Z.mod_small. unfold word in H. rewrite Z.pow_mul_r in H by lia. done. Qed.

Definition dos20_bytes (d : Dos20BPB) : list Z :=
  put_le 2 (BytesPerSector d) ++ [SectorsPerCluster d] ++ put_le 2 (ReservedSectors d) ++ [FatCount d] ++ put_le 2 (RootDirectoryEntries d) ++
  put_le 2 (TotalSectors16 d) ++ [MediaType d] ++ put_le 2 (SectorsPerFat d).
Definition dos331_bytes (d : Dos331BPB) : list Z :=
  dos20_bytes (dos20 d) ++ put_le 2 (SectorsPerTrack d) ++ put_le 2 (Heads d) ++ put_le 4 (HiddenSectors d) ++ put_le 4 (TotalSectors32 d).
Definition dos40_bytes (d : Dos40EBPB) : list Z :=
  dos331_bytes (dos331 d) ++ [DriveNumber d; ReservedFlags d; longEBPB] ++ put_le 4 (VolumeSerialNumber d) ++ VolumeLabel d ++ FileSystemType d.

Lemma dos20_readback d : dos20_fits d -> Dos20BPB_ToBytes d = Ret (dos20_bytes d) /\ Dos20BPBFromBytes (dos20_bytes d) = Ret d.
Proof.
  intros (H1 & H2 & H3 & H4 & H5 & H6 & H7 & H8 & H9 & H10). split; [reflexivity|].
  unfold Dos20BPBFromBytes. rewrite (proj2 (Z.eqb_eq _ _)) by done. cbn [negb]. set (b := dos20_bytes d). assert (len b = 13) as Hl by done.
  rewrite !get_word_ok by lia. bind_ret. change (b.[0, 2]) with (put_le 2 (BytesPerSector d)). rewrite (word_mod 2) by done.
  unfold word in *. rewrite (wrap_u_id 16) by lia. rewrite (proj2 (Z.ltb_ge _ _)), (proj2 (Z.eqb_eq _ _)) by (unfold SectorSize512; lia || done). cbn [orb negb].
  change (index b 2) with (Ret (SectorsPerCluster d)). change (index b 5) with (Ret (FatCount d)). change (index b 10) with (Ret (MediaType d)).
  bind_ret. change (b.[3, 5]) with (put_le 2 (ReservedSectors d)). change (b.[6, 8]) with (put_le 2 (RootDirectoryEntries d)).
  change (b.[8, 10]) with (put_le 2 (TotalSectors16 d)). change (b.[11, 13]) with (put_le 2 (SectorsPerFat d)). rewrite !(word_mod 2) by done. by destruct d.
Qed.

Lemma dos331_readback d : dos331_fits d -> Dos331BPB_ToBytes d = Ret (dos331_bytes d) /\ Dos331BPBFromBytes (dos331_bytes d) = Ret d.
Proof.
  intros (Hd & H1 & H2 & H3 & H4). destruct (dos20_readback _ Hd) as [_ E]. split; [reflexivity|].
  unfold Dos331BPBFromBytes. set (b := dos331_bytes d). assert (len b = 25) as Hl by done. rewrite Hl, Z.eqb_refl. cbn [negb].
  rewrite slice_ok by lia. bind_ret. change (b.[0, 13]) with (dos20_bytes (dos20 d)). rewrite E. cbn [catch]. bind_ret.
  rewrite !get_word_ok by lia. bind_ret. change (b.[13, 15]) with (put_le 2 (SectorsPerTrack d)). change (b.[15, 17]) with (put_le 2 (Heads d)).
  change (b.[17, 21]) with (put_le 4 (HiddenSectors d)). change (b.[21, 25]) with (put_le 4 (TotalSectors32 d)).
  rewrite !(word_mod 2), !(word_mod 4) by done. by destruct d.
Qed.

Ltac split_list l H := repeat (destruct l as [|? l]; [vm_compute in H; discriminate H|]); destruct l; [|rewrite !len_cons in H; pose proof (len_nonneg l); lia].

Lemma pad_right_full n s : exists k, pad_right n s = s ++ replicate k 32.
Proof. unfold pad_right, spaces. eauto. Qed.

Lemma dos40_readback d rest : dos40_fits d -> Dos40EBPB_ToBytes d = Ret (dos40_bytes d) /\ len (dos40_bytes d) = 51 /\
  exists d', Dos40EBPBFromBytes (dos40_bytes d ++ rest) = Ret (d', 51) /\ dos331 d' = dos331 d /\
    VolumeLabel d' = trim_spaces (VolumeLabel d).
Proof.
  destruct d as [d331 drv fl sig serial label fstype]. intros (Hd & H1 & H2 & H3 & H4 & H5 & H6 & H7 & H8).
  cbn [dos331 DriveNumber ReservedFlags ExtBootSignature VolumeSerialNumber VolumeLabel FileSystemType] in *. subst sig.
  destruct (dos331_readback _ Hd) as [_ E].
  destruct (pad_right_full 11 label) as [k1 E1]. destruct (pad_right_full 8 fstype) as [k2 E2].
  split_list label H5. split_list fstype H7. split.
  { unfold Dos40EBPB_ToBytes. cbn [VolumeLabel FileSystemType]. rewrite E1, E2. reflexivity. }
  split; [reflexivity|]. unfold Dos40EBPBFromBytes. rewrite len_app. set (b := dos40_bytes _). assert (len b = 51) as Hl by done.
  pose proof (len_nonneg rest). rewrite (proj2 (Z.ltb_ge _ _)) by lia. rewrite !slice_ok by (rewrite ?len_app; lia). bind_ret.
  change ((b ++ rest).[0, 25]) with (dos331_bytes d331). rewrite E. cbn [catch]. bind_ret.
  change (index (b ++ rest) 25) with (Ret drv). change (index (b ++ rest) 26) with (Ret fl). change (index (b ++ rest) 27) with (Ret longEBPB). bind_ret.
  rewrite get_word_ok by (rewrite ?len_app; lia). bind_ret. change ((b ++ rest).[28, 32]) with (put_le 4 serial). rewrite (word_mod 4) by done.
  change (longEBPB =? shortEBPB) with false. change (longEBPB =? longEBPB) with true. cbv iota. rewrite (proj2 (Z.ltb_ge _ _)) by lia.
  eexists. split; [done|]. split; [done|]. reflexivity.
Qed.

Definition boot_bytes (m : Boot12.msDosBootSector) : list Z :=
  [0xeb; 0x3c; 0x90] ++ lit "godiskfs" ++ dos40_bytes (Boot12.biosParameterBlock m) ++ replicate 448 0 ++ [0x55; 0xaa].

Lemma boot_readback bpb : dos40_fits bpb -> let m := boot_of bpb in
  Boot12.msDosBootSector_toBytes m = Ret (boot_bytes m) /\ len (boot_bytes m) = 512 /\ bytes_ok (boot_bytes m) /\
  exists m', Boot12.msDosBootSectorFromBytes (boot_bytes m) = Ret m' /\ dos331 (Boot12.biosParameterBlock m') = dos331 bpb /\
    VolumeLabel (Boot12.biosParameterBlock m') = trim_spaces (VolumeLabel bpb).
Proof.
  intros Hf m. destruct (dos40_readback bpb (replicate 448 0 ++ [0x55; 0xaa]) Hf) as (Hb & Hl & d' & Hp & Hd & Hv).
  pose proof (Hf) as (Hd331 & H1 & H2 & H3 & H4 & H5 & H6 & H7 & H8).
  assert (len (boot_bytes m) = 512) as Hlen by (unfold boot_bytes; rewrite !len_app; change (Boot12.biosParameterBlock m) with bpb; rewrite Hl; reflexivity).
  split_and!; [|done| |].
  - unfold Boot12.msDosBootSector_toBytes. change (Boot12.biosParameterBlock m) with bpb. rewrite Hb. cbn [catch]. bind_ret.
    clear - H5 H7. destruct bpb as [d331 drv fl sig serial label fstype]. cbn in *. split_list label H5. split_list fstype H7. reflexivity.
  - unfold boot_bytes, dos40_bytes, dos331_bytes, dos20_bytes. change (Boot12.biosParameterBlock m) with bpb.
    destruct Hd331 as [(?&?&?&?&?&?&?&?&?&?) ?]. unfold word in *.
    repeat apply Forall_app_2; try apply put_le_bytes; try apply bytes_ok_zeros; try done; repeat constructor; unfold longEBPB; lia || done.
  - unfold Boot12.msDosBootSectorFromBytes. rewrite Hlen. change (512 =? SectorSize512) with true. cbn [negb].
    assert (from (boot_bytes m) 11 = dos40_bytes bpb ++ (replicate 448 0 ++ [0x55; 0xaa])) as Ef by reflexivity.
    assert ((boot_bytes m).[11, 512] = from (boot_bytes m) 11) as Es by (rewrite <-Hlen; destruct (sub_from (boot_bytes m) 11); [done|lia]).
    rewrite !slice_ok by lia. bind_ret. rewrite Es, Ef, Hp. cbn [catch]. bind_ret. change (SectorSize512 - 2) with 510.
    rewrite slice_ok by lia. bind_ret. rewrite get_word_ok by lia. bind_ret.
    assert ((boot_bytes m).[510, 512] = [0x55; 0xaa]) as ->.
    { replace 512 with (len (boot_bytes m)). destruct (sub_from (boot_bytes m) 510) as [->|]; [|lia].
      change 510 with (11 + 499). rewrite <-from_from, Ef by lia. change 499 with (51 + 448). rewrite <-from_from, from_app_r by lia. by rewrite from_app_r by done. }
    cbn. eexists. split; [done|]. cbn. done.
Qed.

(** FAT16 looks at the parameter block only. *)
Lemma boot_bpb_readback bpb : dos40_fits bpb -> let raw := boot_bytes (boot_of bpb) in len raw = 512 /\
  exists bpb', Dos40EBPBFromBytes raw.[11, len raw] = Ret (bpb', 51) /\ dos331 bpb' = dos331 bpb.
Proof.
  intros Hf raw. destruct (boot_readback bpb Hf) as (_ & Hl & _). destruct (dos40_readback bpb (replicate 448 0 ++ [0x55; 0xaa]) Hf) as (_ & _ & d' & Hp & Hd & _).
  fold raw in Hl. split; [done|]. exists d'. split; [|done]. rewrite <-Hp. f_equal. by destruct (sub_from raw 11) as [->|]; [|lia].
Qed.

(** ** The label *)

Lemma take_runes_ascii n s : ascii_ok s -> take_runes n s = take n s.
Proof.
  intros Hs. revert n. induction Hs as [|x s Hx Hs IH]; intros [|n]; [done..|]. cbn [take_runes]. rewrite decode_ascii by done.
  rewrite IH. replace (length (x :: s) - length s)%nat with 1%nat by (cbn; lia). reflexivity.
Qed.

Lemma take_ascii n s : ascii_ok s -> ascii_ok (take n s).
Proof. intros Hs. by apply Forall_take. Qed.

(** Labels in ASCII that start with a character other than a space. *)
Record label_ok (s : gostring) : Prop := { lb_ascii : ascii_ok s; lb_first : exists x rest, s = x :: rest /\ x <> 0 /\ x <> 32 }.

Lemma pad_exact_label s : label_ok s -> let l := pad_exact 11 s in label_ok l /\ len l = 11 /\ pad_exact 11 l = l.
Proof.
  intros [Ha (x & rest & -> & H0 & H32)] l. unfold pad_exact in *. set (t := take_runes (Z.to_nat 11) (x :: rest)) in *.
  assert (t = take 11 (x :: rest)) as Et by (unfold t; by rewrite take_runes_ascii).
  assert (ascii_ok t) as Hta by (rewrite Et; by apply take_ascii).
  assert (len t <= 11) as Htl by (rewrite Et; unfold len; rewrite length_take; lia).
  assert (len l = 11) as Hl by (by apply len_pad_right).
  assert (ascii_ok l) as Hla by (apply Forall_app_2; [done|]; apply Forall_replicate; unfold is_ascii; lia).
  assert (exists r, l = x :: r) as [r Er] by (unfold l; rewrite Et; by eexists).
  split_and!; [split; [done|by exists x, r]|done|].
  rewrite take_runes_ascii by done. rewrite take_ge by (unfold len in Hl; lia). unfold pad_right, spaces.
  rewrite runes_ascii by done. rewrite Hl. by rewrite app_nil_r.
Qed.

Lemma trim_spaces_head x s : x <> 32 -> exists t, trim_spaces (x :: s) = x :: t.
Proof. intros Hx. cbn [trim_spaces]. destruct (trim_spaces s); [rewrite (proj2 (Z.eqb_neq _ _)) by done|]; eauto. Qed.

Lemma trim_spaces_no_trailing s : no_trailing_space (trim_spaces s).
Proof.
  unfold no_trailing_space. induction s as [|c s IH]; [done|]. cbn [trim_spaces]. destruct (trim_spaces s) as [|d t].
  - destruct (Z.eqb_spec c 32); [done|]. cbn. congruence.
  - exact IH.
Qed.

Lemma trim_spaces_ascii s : ascii_ok s -> ascii_ok (trim_spaces s).
Proof. intros Hs. destruct (trim_restore s) as [n E]. rewrite E in Hs. by apply Forall_app in Hs as [? _]. Qed.

Lemma pad_trim n s : ascii_ok s -> len s = n -> pad_right n (trim_spaces s) = pad_right n s.
Proof.
  intros Hs Hl. unfold pad_right, spaces. rewrite !runes_ascii by (try apply trim_spaces_ascii; done).
  destruct (trim_restore s) as [k E]. rewrite E at 3. rewrite E at 4. rewrite <-(assoc app), <-replicate_add. do 2 f_equal.
  rewrite E, len_app, len_replicate in Hl. rewrite len_app, len_replicate. lia.
Qed.

Section label.
Context `{UnicodeTables} `{AsciiSetLaws}.

(** The entry of a label, as the directory that is written has it, and as it is read. *)
Definition label_entry (now : time) (l : gostring) : directoryEntry :=
  new_entry l.[0, 8] l.[8, 11] [] true false now now now 0 (-1) true.
Definition label_trimmed (now : time) (l : gostring) : directoryEntry :=
  new_entry (trim_spaces l.[0, 8]) (trim_spaces l.[8, 11]) [] true false now now now 0 (-1) true.

Lemma sub_ascii (l : gostring) lo hi : ascii_ok l -> ascii_ok l.[lo, hi].
Proof. intros Hl. by apply Forall_take, Forall_drop. Qed.

Lemma label_entries now l : label_ok l -> len l = 11 ->
  concat_entries [label_entry now l] = concat_entries [label_trimmed now l] /\ Forall entry_ok [label_trimmed now l].
Proof.
  intros [Ha (x & rest & -> & H0' & H32)] Hl. set (l := x :: rest) in *.
  assert (len l.[0, 8] = 8 /\ len l.[8, 11] = 3) as [H8 H3] by (rewrite !len_sub by lia; lia).
  split.
  - cbn [concat_entries]. assert (toBytes (label_entry now l) = toBytes (label_trimmed now l)) as ->; [|done].
    unfold toBytes, label_entry, label_trimmed, new_entry. cbn [filenameLong]. unfold dos_bytes. cbn [filenameShort fileExtension].
    rewrite !pad_trim by (try apply sub_ascii; done). done.
  - constructor; [|done]. split; [|by left].
    assert (exists t, trim_spaces l.[0, 8] = x :: t) as [t Et].
    { unfold l, sub. change (Z.to_nat 0) with 0%nat. rewrite drop_0. change (Z.to_nat (8 - 0)) with 8%nat. cbn [take]. by apply trim_spaces_head. }
    split; cbn [filenameShort fileExtension label_trimmed new_entry isReadOnly isVolumeLabel clusterLocation fileSize andb].
    + split_and!; [by apply trim_spaces_ascii, sub_ascii|apply trim_spaces_no_trailing| |].
      * rewrite Et, len_cons. pose proof (len_nonneg t). lia.
      * pose proof (trim_spaces_len l.[0, 8]). lia.
    + rewrite Et. cbn. congruence.
    + split_and!; [by apply trim_spaces_ascii, sub_ascii|apply trim_spaces_no_trailing|]. pose proof (trim_spaces_len l.[8, 11]). lia.
    + done.
    + lia.
    + done.
Qed.

Lemma label_bytes now l b : label_ok l -> len l = 11 -> concat_entries [label_trimmed now l] = Ret b -> len b = 32.
Proof.
  intros Hl Hlen Hb. destruct (label_entries now l Hl Hlen) as [_ Hok]. apply Forall_cons in Hok as [[Hso _] _].
  cbn [concat_entries] in Hb. unfold toBytes in Hb. cbn [filenameLong label_trimmed new_entry] in Hb.
  fold (label_trimmed now l) in Hb. rewrite (dos_bytes_layout _ Hso) in Hb. injection Hb as <-. rewrite app_nil_r.
  destruct Hso as [(Ha & _ & Hl8) _ (Hea & _ & Hl3) _ _ _]. apply len_dos_layout; apply len_pad_right; first [done|apply Hl8|apply Hl3].
Qed.
End label.

(** ** The steps of [Create] *)

(** The parameter block with another label. *)
Definition relabel (bpb : Dos40EBPB) (label : gostring) : Dos40EBPB :=
  mkDos40 (dos331 bpb) (DriveNumber bpb) (ReservedFlags bpb) (ExtBootSignature bpb) (VolumeSerialNumber bpb) label (FileSystemType bpb).

Lemma relabel_fits bpb label : dos40_fits bpb -> len label = 11 -> ascii_ok label -> dos40_fits (relabel bpb label).
Proof. intros (?&?&?&?&?&?&?&?&?) Hl Ha. unfold dos40_fits. cbn. split_and!; try done. by apply ascii_bytes. Qed.

(** The fields of a volume. *)
Ltac vol := cbn [volume NewFileSystem table dataStart bytesPerCluster FatChain.size start backend rootDirOffset rootDirMaxEntries
  fatPrimaryStart fatSecondaryStart WriteBootSectorFn AfterWriteFAT].
Ltac vol_in H := cbn [volume NewFileSystem table dataStart bytesPerCluster FatChain.size start backend rootDirOffset rootDirMaxEntries
  fatPrimaryStart fatSecondaryStart WriteBootSectorFn AfterWriteFAT] in H.

Section steps.
Context {T D : Type} `{Htab : FATTable T} `{Hst : Storage D} {ok : T -> Prop} {Hlaws : FATLaws T ok}.
Context {repr : D -> Z -> (Z -> Z) -> Prop} {Hdev : WritableDevice D repr} `{UnicodeTables} `{AsciiSetLaws}.
Context (fuel : nat) (now : time) (spare : Z -> Z).
Notation FS := (FileSystem T D).

Lemma write_boot_ok (fs : FS) dsize c bpb : WriteBootSectorFn fs = None -> bootSector fs = Some (boot_of bpb) -> dos40_fits bpb ->
  repr (backend fs) dsize c -> 0 <= start fs -> start fs + 512 <= dsize ->
  exists d, calling WriteBootSector fs = Ret (with_backend fs d, inl tt) /\ repr d dsize (overwrite c (start fs) (boot_bytes (boot_of bpb))).
Proof.
  intros Hh Hbs Hf Hr Hs Hfit. destruct (boot_readback bpb Hf) as (Hb & Hl & Hbb & _).
  destruct (wd_write _ _ _ (boot_bytes (boot_of bpb)) (start fs) Hr) as (d & Hw & Hd); [done|done|lia|].
  exists d. split; [|done]. unfold calling, WriteBootSector. rewrite Hh. unfold defaultWriteBootSector.
  rewrite (wd_writable _ _ _ Hr), Hbs, Hb. cbn [catch mbind go_bind]. rewrite Hw. done.
Qed.

Lemma writable_ok (fs : FS) dsize c : repr (backend fs) dsize c -> writable fs = Ret (fs, inl tt).
Proof. intros Hr. unfold writable. by rewrite (wd_writable _ _ _ Hr). Qed.

Lemma zero_root_ok (fs : FS) dsize c : repr (backend fs) dsize c -> let n := rootDirMaxEntries fs * 32 in
  let at_ := rootDirOffset fs + start fs in 0 <= n <= maxAlloc -> 0 <= at_ -> at_ + n <= dsize ->
  exists d, zero_root fs = Ret (with_backend fs d, inl tt) /\ repr d dsize (overwrite c at_ (replicate (Z.to_nat n) 0)).
Proof.
  intros Hr n at_ Hn Ha Hfit. pose proof (wd_size _ _ _ Hr). unfold maxAlloc in *.
  assert (len (replicate (Z.to_nat n) 0) = n) as Hl by (rewrite len_replicate; lia).
  destruct (wd_write _ _ _ (replicate (Z.to_nat n) 0) at_ Hr) as (d & Hw & Hd); [apply bytes_ok_zeros|done|lia|].
  exists d. split; [|done]. unfold zero_root. rewrite (i64_id (_ * 32)) by lia. fold n.
  erewrite fsm_bind_ok by (apply pure_ok, make_ok; unfold maxAlloc; lia). rewrite i64_id by lia. fold at_.
  erewrite fsm_bind_ok by (apply wrapping_ok; unfold write_at; rewrite Hw; reflexivity). done.
Qed.

(** The root of a volume with a fixed root, whatever its entries. *)
Lemma fixed_root (fs : FS) : 0 < rootDirMaxEntries fs -> root_dir fs = mkDir (new_entry [] [] [] false true 0 0 0 0 0 false) [] /\
  isRootCluster fs 0 = true.
Proof.
  intros Hn. unfold root_dir, isRootCluster. rewrite (proj2 (Z.eqb_neq (rootDirMaxEntries fs) 0)), (proj2 (Z.ltb_lt 0 _)) by lia. done.
Qed.

Lemma read_root_region (fs : FS) dsize c es b n : repr (backend fs) dsize c -> 0 < rootDirMaxEntries fs <= 0xFFFF ->
  let at_ := rootDirOffset fs + start fs in 0 <= rootDirOffset fs -> 0 <= start fs -> at_ + rootDirMaxEntries fs * 32 <= dsize ->
  Forall entry_ok es -> concat_entries es = Ret b -> span c at_ (rootDirMaxEntries fs * 32) = b ++ replicate n 0 ->
  readDirectory fuel fs (root_dir fs) = Ret (set_entries (root_dir fs) (map stored es)).
Proof using All.
  intros Hr Hn at_ Ho Hs Hfit Hes Hb Hsp. pose proof (wd_size _ _ _ Hr). destruct (fixed_root fs) as [-> Hroot]; [lia|].
  unfold readDirectory. cbn [self clusterLocation new_entry]. rewrite Hroot. rewrite (i64_id (_ * 32)) by lia.
  rewrite make_ok by (unfold maxAlloc; lia). cbn [mbind go_bind]. unfold read_or. rewrite i64_id by lia. fold at_.
  rewrite (wd_read _ _ _ _ _ Hr) by (rewrite ?len_replicate; lia). cbn [mbind go_bind r_err r_buf mret go_ret].
  rewrite len_replicate, Z2Nat.id by lia. rewrite Hsp. by apply parse_dir.
Qed.

Lemma read_root (fs : FS) dir : readDirectory fuel fs (root_dir fs) = Ret dir -> readDirWithMkdir fuel now spare [slash] false fs = Ret (fs, inl dir).
Proof.
  intros Hr. unfold readDirWithMkdir. erewrite fsm_bind_ok by (apply pure_ok; reflexivity).
  erewrite fsm_bind_ok by (apply wrapping_ok, reading_ok; exact Hr). done.
Qed.

(** What is written to the fixed root depends on the bytes of the entries only. *)
Lemma write_fixed_congr (fs : FS) self es es' : 0 <= rootDirMaxEntries fs <= 0xFFFF -> isRootCluster fs (clusterLocation self) = true ->
  (exists b, concat_entries es' = Ret b) -> concat_entries es = concat_entries es' ->
  writeDirectoryEntries fuel spare (mkDir self es) fs = writeDirectoryEntries fuel spare (mkDir self es') fs.
Proof.
  intros Hn Hroot [b Hb] E. rewrite Hb in E. unfold writeDirectoryEntries. cbn [FatDir.self]. rewrite Hroot. unfold write_fixed_root.
  rewrite (i64_id (_ * 32)) by lia.
  by rewrite !(entriesToBytesFixed_eq _ _ b) by (done || (unfold maxAlloc; lia)).
Qed.

Lemma fixed_read_congr (fs fs' : FS) dir : backend fs = backend fs' -> start fs = start fs' -> rootDirOffset fs = rootDirOffset fs' ->
  rootDirMaxEntries fs = rootDirMaxEntries fs' -> isRootCluster fs (clusterLocation (self dir)) = true ->
  readDirectory fuel fs dir = readDirectory fuel fs' dir.
Proof.
  intros Eb Es Eo Em Hroot. unfold readDirectory, isRootCluster in *. rewrite Em in Hroot. rewrite Em, Hroot, Eb, Es, Eo. done.
Qed.

(** The label is the one entry of a root that was empty. *)
Lemma set_root_label_ok (fs : FS) dsize c l : repr (backend fs) dsize c -> 0 < rootDirMaxEntries fs <= 0xFFFF ->
  let n := rootDirMaxEntries fs * 32 in let at_ := rootDirOffset fs + start fs in
  0 <= rootDirOffset fs -> 0 <= start fs -> at_ + n <= dsize -> span c at_ n = replicate (Z.to_nat n) 0 ->
  label_ok l -> len l = 11 -> pad_exact 11 l = l ->
  exists d c', SetRootDirLabel fuel now spare l fs = Ret (with_backend fs d, inl tt) /\ repr d dsize c' /\
    readDirectory fuel (with_backend fs d) (root_dir fs) = Ret (set_entries (root_dir fs) [stored (label_trimmed now l)]) /\
    forall x, ~ (at_ <= x < at_ + n) -> c' x = c x.
Proof using All.
  intros Hr Hn n at_ Ho Hs Hfit Hz Hl Hlen Hpad. destruct (fixed_root fs) as [Er Hroot]; [lia|].
  destruct (label_entries now l Hl Hlen) as [Ec Hok].
  destruct (concat_run _ Hok) as (b & k & Hb & _). pose proof (label_bytes now l b Hl Hlen Hb) as Hb32.
  destruct (fixed_root_saved (ok := ok) (repr := repr) fuel spare fs dsize c (mkDir (self (root_dir fs)) [label_trimmed now l]) b)
    as (d & c' & Hw & Hd & Hrd & Hout); try done; try (rewrite Er; done); [unfold maxAlloc; lia|].
  exists d, c'. split_and!; [|done|exact Hrd|done].
  unfold SetRootDirLabel. rewrite Hpad.
  erewrite fsm_bind_ok.
  2:{ apply wrapping_ok, read_root, (read_root_region fs dsize c [] [] (Z.to_nat n)); done. }
  cbn [map set_entries entries last_label]. unfold mkLabel, createVolumeLabel.
  rewrite !slice_ok by lia. cbn [mbind go_bind mret go_ret].
  erewrite fsm_bind_ok by (erewrite fsm_bind_ok by (apply wrapping_ok, pure_ok; reflexivity); reflexivity).
  transitivity (writeDirectoryEntries fuel spare (mkDir (self (root_dir fs)) [label_trimmed now l]) fs); [|exact Hw].
  apply (write_fixed_congr fs (self (root_dir fs)) [label_entry now l]); [lia|by rewrite Er|by exists b|done].
Qed.

(** ** [Create] as a whole *)

Definition the_label (volumeLabel : gostring) : gostring :=
  pad_exact 11 (match volumeLabel with [] => lit "NO NAME" | _ => volumeLabel end).

Lemma the_label_ok s : s = [] \/ label_ok s -> label_ok (the_label s) /\ len (the_label s) = 11 /\ pad_exact 11 (the_label s) = the_label s.
Proof.
  intros Hs. apply pad_exact_label. destruct s as [|x s]; [|by destruct Hs].
  split; [repeat (constructor; [vm_compute; split; congruence|]); constructor|]. by exists 78, (lit "O NAME").
Qed.

(** The places of a volume of [size] bytes at [start], on a device of [dsize] bytes. *)
Record placed (l : layout) (size start dsize : Z) : Prop := {
  pc_laid : laid_out l size;
  pc_reserved : 1 <= l_reservedSectors l;
  pc_root : 0 < l_rootDirEntries l <= 0xFFFF;
  pc_clusters : 0 <= l_numClusters l /\ 0 < l_sectorsPerCluster l;
  pc_start : 0 <= start;
  pc_fit : start + size <= dsize
}.

(** What the root directory lists, whatever boot sector and table are in memory. *)
Definition root_listing (d : D) (l : layout) (size start : Z) (es : list directoryEntry) : Prop := forall bpb tbl,
  let fs := volume d bpb tbl l size start in readDirectory fuel fs (root_dir fs) = Ret (set_entries (root_dir fs) es).

(** The device after [Create]: boot sector, both tables, the root with the label. *)
Record formatted_device (d : D) (dsize : Z) (c c' : Z -> Z) (bpb : Dos40EBPB) (tbl : T) (l : layout) (size start : Z) (label : gostring) : Prop := {
  fd_repr : repr d dsize c';
  fd_boot : span c' start 512 = boot_bytes (boot_of (relabel bpb label));
  fd_fat : Bytes tbl = Ret (span c' (p_fatPrimaryStart (place l) + start) (p_fatSize (place l)));
  fd_copy : Bytes tbl = Ret (span c' (p_fatSecondaryStart (place l) + start) (p_fatSize (place l)));
  fd_root : root_listing d l size start [stored (label_trimmed now label)];
  fd_outside : forall x, ~ (start <= x < start + p_dataStart (place l)) -> c' x = c x
}.

Lemma label_volume_ok b bpb tbl l size start dsize c s : placed l size start dsize -> dos40_fits bpb -> repr b dsize c ->
  let fs := volume b bpb tbl l size start in
  span c (p_rootDirOff (place l) + start) (l_rootDirEntries l * 32) = replicate (Z.to_nat (l_rootDirEntries l * 32)) 0 ->
  s = [] \/ label_ok s -> exists d c', label_volume fuel now spare s fs = Ret (volume d (relabel bpb (the_label s)) tbl l size start, inl tt) /\
    repr d dsize c' /\ root_listing d l size start [stored (label_trimmed now (the_label s))] /\
    span c' start 512 = boot_bytes (boot_of (relabel bpb (the_label s))) /\
    forall x, ~ (start <= x < start + 512) -> ~ (p_rootDirOff (place l) + start <= x < p_dataStart (place l) + start) -> c' x = c x.
Proof using All.
  intros [Hla Hres Hroot [Hcl Hspc] Hs Hfit] Hf Hr fs Hz Hlab. destruct (the_label_ok s Hlab) as (Hok & Hl & Hp).
  destruct Hla as (Hspf & Hsz & Hbpc & Hp1 & Hp2 & Hp3 & Hp4 & Hend & _). pose proof (relabel_fits bpb _ Hf Hl (lb_ascii _ Hok)) as Hf'.
  set (bpb' := relabel bpb (the_label s)) in *. destruct (boot_readback bpb' Hf') as (_ & Hbl & _).
  assert (p_dataStart (place l) <= size) as Hds by nia.
  destruct (write_boot_ok (volume b bpb' tbl l size start) dsize c bpb') as (d & Hw & Hd); try done; [vol; lia|].
  destruct (set_root_label_ok (volume d bpb' tbl l size start) dsize (overwrite c start (boot_bytes (boot_of bpb'))) (the_label s))
    as (d' & c' & Hrun & Hd' & Hrd & Hout); try done; try (vol; lia).
  { etransitivity; [|exact Hz]. apply span_same. intros i Hi. apply overwrite_out. rewrite Hbl. vol_in Hi. lia. }
  exists d', c'. vol_in Hout. split_and!; [|done| | |].
  - unfold label_volume. apply wrapping_ok.
    change (SetLabel fuel now spare s fs) with ((_ ← wrapping (Wrapf "failed to write the boot sector: %w") (calling WriteBootSector);
      SetRootDirLabel fuel now spare (the_label s)) (volume b bpb' tbl l size start)).
    erewrite fsm_bind_ok by (apply wrapping_ok; exact Hw). exact Hrun.
  - intros bpb0 tbl0 fs0. destruct (fixed_root fs0) as [-> Hrc]; [apply Hroot|].
    destruct (fixed_root (volume d bpb' tbl l size start)) as [Er _]; [apply Hroot|]. rewrite Er in Hrd. rewrite <-Hrd.
    by apply fixed_read_congr.
  - etransitivity; [|apply (overwrite_span c start)]. rewrite Hbl. apply span_same. intros i Hi. apply Hout. lia.
  - intros x Hx1 Hx2. rewrite Hout by lia. apply overwrite_out. lia.
Qed.

Lemma formatted_ok b bpb tbl l size start dsize c s steps : placed l size start dsize -> dos40_fits bpb -> repr b dsize c ->
  ok tbl -> TableSize tbl = p_fatSize (place l) -> s = [] \/ label_ok s ->
  steps = (_ ← writable; _ ← write_boot; _ ← write_tables; _ ← zero_root; label_volume fuel now spare s) \/
  steps = (_ ← write_boot; _ ← write_tables; _ ← writable; _ ← zero_root; label_volume fuel now spare s) ->
  exists d c', formatted steps (volume b bpb tbl l size start) = Ret (d, inl (volume d (relabel bpb (the_label s)) tbl l size start)) /\
    formatted_device d dsize c c' bpb tbl l size start (the_label s).
Proof using All.
  intros Hpl Hf Hr Hok Hts Hlab Hsteps. pose proof Hpl as [Hla Hres Hroot [Hcl Hspc] Hs Hfit].
  destruct Hla as (Hspf & Hsz & Hbpc & Hp1 & Hp2 & Hp3 & Hp4 & Hend & _). assert (p_dataStart (place l) <= size) as Hds by nia.
  destruct (boot_readback bpb Hf) as (_ & Hbl & _).
  destruct (write_boot_ok (volume b bpb tbl l size start) dsize c bpb) as (d1 & Hw1 & Hd1); try done; [vol; lia|].
  destruct (write_fat_device (volume d1 bpb tbl l size start) dsize _ Hok Hd1) as (tb & d2 & c2 & Htb & Hw2 & Hd2 & Hf1 & Hf2 & Ho2).
  { split; vol; rewrite ?Hts; try done; lia. }
  vol_in Htb. assert (len tb = p_fatSize (place l)) as Hltb by (destruct (fat_bytes tbl Hok) as (tb' & E & Hl & _); rewrite Htb in E; injection E as <-; congruence).
  rewrite Hltb in *. vol_in Hf1. vol_in Hf2. vol_in Ho2.
  destruct (zero_root_ok (volume d2 bpb tbl l size start) dsize c2 Hd2) as (d3 & Hw3 & Hd3); [vol; unfold maxAlloc; lia|vol; lia|vol; lia|].
  vol_in Hd3. set (z := replicate (Z.to_nat (l_rootDirEntries l * 32)) 0) in *.
  assert (len z = l_rootDirEntries l * 32) as Hlz by (unfold z; rewrite len_replicate; lia).
  destruct (label_volume_ok d3 bpb tbl l size start dsize _ s Hpl Hf Hd3) as (d4 & c4 & Hw4 & Hd4 & Hrd & Hb4 & Ho4); [|done|].
  { fold z. rewrite <-Hlz. apply overwrite_span. }
  assert (calling WriteFat (volume d1 bpb tbl l size start) = Ret (volume d2 bpb tbl l size start, inl tt)) as Hc2 by (unfold calling; by rewrite Hw2).
  exists d4, c4. split.
  - unfold formatted. replace (steps _) with (Ret (volume d4 (relabel bpb (the_label s)) tbl l size start, inl (A := unit) (B := error) tt)); [done|].
    symmetry. destruct Hsteps as [-> | ->].
    + erewrite fsm_bind_ok by (eapply writable_ok; exact Hr). erewrite fsm_bind_ok by (apply wrapping_ok; exact Hw1).
      erewrite fsm_bind_ok by (apply wrapping_ok; exact Hc2).
      erewrite fsm_bind_ok by exact Hw3. exact Hw4.
    + erewrite fsm_bind_ok by (apply wrapping_ok; exact Hw1).
      erewrite fsm_bind_ok by (apply wrapping_ok; exact Hc2).
      erewrite fsm_bind_ok by (eapply writable_ok; exact Hd2).
      erewrite fsm_bind_ok by exact Hw3. exact Hw4.
  - assert (forall x, p_fatPrimaryStart (place l) + start <= x < p_rootDirOff (place l) + start -> c4 x = c2 x) as Hfat.
    { intros x Hx. rewrite Ho4 by lia. apply overwrite_out. lia. }
    split; try done.
    + rewrite Htb, <-Hf1. f_equal. apply span_same. intros i Hi. symmetry. apply Hfat. lia.
    + rewrite Htb, <-Hf2. f_equal. apply span_same. intros i Hi. symmetry. apply Hfat. lia.
    + intros x Hx. rewrite Ho4 by lia. rewrite overwrite_out by lia. rewrite Ho2 by lia. apply overwrite_out. lia.
Qed.

(** ** [Read] on the device *)

Lemma read_bytes d dsize c msg n off : repr d dsize c -> 0 <= n -> 0 <= off -> off + n <= dsize ->
  read_or (ReadAt d) msg (replicate (Z.to_nat n) 0) off = Ret (span c off n).
Proof.
  intros Hr Hn Ho Hf. unfold read_or. rewrite (wd_read _ _ _ _ _ Hr) by (rewrite ?len_replicate; lia).
  cbn [mbind go_bind r_err r_buf mret go_ret]. by rewrite len_replicate, Z2Nat.id by lia.
Qed.

Lemma read_table_ok d dsize c l size start t0 : repr d dsize c -> placed l size start dsize ->
  l_sectorsPerFat l < 2 ^ 16 -> l_reservedSectors l < 2 ^ 16 ->
  read_table d start t0 (place l) = FromBytes t0 (span c (p_fatPrimaryStart (place l) + start) (p_fatSize (place l))).
Proof.
  intros Hr [Hla Hres Hroot [Hcl Hspc] Hs Hfit] H16 H16'. pose proof (wd_size _ _ _ Hr).
  destruct Hla as (Hspf & Hsz & Hbpc & Hp1 & Hp2 & Hp3 & Hp4 & Hend & _). assert (p_dataStart (place l) <= size) by nia.
  unfold read_table. rewrite make_ok by (unfold maxAlloc; lia). cbn [mbind go_bind].
  rewrite (i64_id (_ + _)) by lia. rewrite (read_bytes d dsize c) by (done || lia). done.
Qed.
End steps.

(** ** The layout in the boot sector *)

Lemma layout_of_dos331 x y : dos331 x = dos331 y -> layout_of x = layout_of y.
Proof. intros E. unfold layout_of, TotalSectors. by rewrite E. Qed.

Lemma layout_of_bpb fatBytes total reserved root spc media track heads drive serial fstype : 0 < total < 2 ^ 32 -> 0 < spc ->
  let l := estimate fatBytes total reserved root spc in layout_of (bpb_of l media track heads drive serial fstype) = Ret l.
Proof.
  intros Ht Hs l. unfold layout_of.
  assert (TotalSectors (bpb_of l media track heads drive serial fstype) = total) as ->.
  { unfold TotalSectors, bpb_of. cbn [dos331 TotalSectors32 dos20 TotalSectors16]. change (l_totalSectors l) with total.
    destruct (Z.leb_spec total 0xFFFF); cbn [negb Z.eqb]; [rewrite wrap_u_id by lia; done|]. by rewrite (proj2 (Z.eqb_neq _ _)) by lia. }
  cbn [bpb_of dos331 dos20 BytesPerSector SectorsPerCluster ReservedSectors FatCount RootDirectoryEntries SectorsPerFat].
  unfold l, estimate. cbn [l_sectorsPerCluster l_reservedSectors l_fatCount l_rootDirEntries l_sectorsPerFat].
  rewrite (proj2 (Z.eqb_neq _ _)) by lia. set (spf := wrap_u 16 _). set (rds := rootDirSectors root 512). do 2 f_equal.
  unfold wrap_u at 1 2 5 6. f_equal. rewrite !Zminus_mod_idemp_l. f_equal. lia.
Qed.

Lemma bpb_of_fits l media track heads drive serial fstype : word 8 (l_sectorsPerCluster l) -> word 16 (l_reservedSectors l) ->
  word 8 (l_fatCount l) -> word 16 (l_rootDirEntries l) -> word 32 (l_totalSectors l) -> word 16 (l_sectorsPerFat l) -> word 8 media ->
  word 16 track -> word 16 heads -> word 8 drive -> word 32 serial -> len fstype = 8 -> bytes_ok fstype ->
  dos40_fits (bpb_of l media track heads drive serial fstype).
Proof.
  intros. unfold dos40_fits, dos331_fits, dos20_fits, bpb_of.
  cbn [dos331 dos20 BytesPerSector SectorsPerCluster ReservedSectors FatCount RootDirectoryEntries TotalSectors16 MediaType SectorsPerFat
    SectorsPerTrack Heads HiddenSectors TotalSectors32 DriveNumber ReservedFlags ExtBootSignature VolumeSerialNumber VolumeLabel FileSystemType].
  unfold word in *. split_and!; try done; try lia; try (destruct_if; [|lia]); try (destruct_if; lia);
    try (by apply bytes_okb_ok; vm_compute); try (apply wrap_u_range; lia).
  all: lia.
Qed.

(** ** The table of a fresh volume *)

(** Cluster 2 is marked as the end of a chain, the others are free. *)
Definition fresh {T} `{FATTable T} (t : T) : Prop := forall n, 0 <= n < MaxCluster t ->
  ClusterValue t n = Ret (if n =? 2 then EOCMarker t else 0).

Lemma index_zeros k n : 0 <= n < Z.of_nat k -> index (replicate k 0) n = Ret 0.
Proof. intros Hn. rewrite index_byte_at by (rewrite len_replicate; lia). by rewrite byte_at_replicate by lia. Qed.

Lemma new_fat12 id size : 3 <= size < 2 ^ 29 -> exists t0, Fat12.newFat12Table id size = Ret t0 /\ Fat12.ok t0 /\ TableSize t0 = size /\
  FATID t0 = id /\ forall n, 0 <= n <= MaxCluster t0 -> ClusterValue t0 n = Ret 0.
Proof.
  intros Hs. assert (2 <= size * 2 / 3 /\ size * 2 / 3 <= 2 ^ 29) as [Hm1 Hm2].
  { split; [apply Z.div_le_lower_bound; lia|]. apply Z.div_le_upper_bound; lia. }
  unfold Fat12.newFat12Table. rewrite (wrap_u_id 32 (_ * 2)), (wrap_u_id 32 (_ + 1)), make_ok by (unfold maxAlloc; lia). bind_ret.
  eexists. split; [done|]. unfold Fat12.ok. cbn. rewrite len_replicate. split_and!; try done; try lia.
  intros n Hn. by apply index_zeros; lia.
Qed.

Lemma new_fat16 id size : 4 <= size < 2 ^ 31 -> exists t0, Fat16.newFat16Table id size = Ret t0 /\ Fat16.ok t0 /\ TableSize t0 = size /\
  FATID t0 = id /\ forall n, 0 <= n <= MaxCluster t0 -> ClusterValue t0 n = Ret 0.
Proof.
  intros Hs. assert (2 <= size / 2 /\ size / 2 <= 2 ^ 30) as [Hm1 Hm2].
  { split; [apply Z.div_le_lower_bound; lia|]. apply Z.div_le_upper_bound; lia. }
  unfold Fat16.newFat16Table. rewrite (wrap_u_id 32 (_ + 1)), make_ok by (unfold maxAlloc; lia). bind_ret.
  eexists. split; [done|]. unfold Fat16.ok. cbn. rewrite len_replicate. split_and!; try done; try lia.
  intros n Hn. by apply index_zeros; lia.
Qed.

(** [tbl.clusters\[2\] = tbl.eoc]. *)
Lemma first_cluster_used {T} `{FATTable T} (ok : T -> Prop) `{!FATLaws T ok} t0 bound : ok t0 -> (forall n, 0 <= n <= MaxCluster t0 -> ClusterValue t0 n = Ret 0) ->
  0 <= EOCMarker t0 < bound -> 3 <= MaxCluster t0 ->
  exists t, SetCluster t0 2 (EOCMarker t0) = Ret t /\ ok t /\ MaxCluster t = MaxCluster t0 /\ TableSize t = TableSize t0 /\
    EOCMarker t = EOCMarker t0 /\ fresh t /\ values_fit t bound.
Proof.
  intros Hok Hz Hb Hm. destruct (fat_set t0 2 (EOCMarker t0) Hok) as (t & Hs & Hok' & Hm' & He & Hts & Hv); [lia|].
  assert (fresh t) as Hf. { intros n Hn. rewrite Hv, He by lia. destruct_if; [by subst|]. apply Hz. lia. }
  exists t. split_and!; try done. intros n Hn. rewrite Hf by lia. eexists. split; [done|]. destruct_if; [congruence|lia].
Qed.

(** The table that is read back is as fresh. *)
Lemma fresh_reread {T} `{FATTable T} (t t' : T) : fresh t -> MaxCluster t' = MaxCluster t -> EOCMarker t' = EOCMarker t ->
  (forall n, 0 <= n < 2 -> ClusterValue t' n = Ret 0) -> (forall n, 2 <= n < MaxCluster t -> ClusterValue t' n = ClusterValue t n) -> fresh t'.
Proof.
  intros Hf Hm He H01 Hv n Hn. destruct (Z.lt_ge_cases n 2).
  - rewrite H01 by lia. by rewrite (proj2 (Z.eqb_neq n 2)) by lia.
  - rewrite Hv, Hf, He by lia. done.
Qed.

Section create_read.
Context {D : Type} `{Hst : Storage D} {repr : D -> Z -> (Z -> Z) -> Prop} {Hdev : WritableDevice D repr} `{UnicodeTables} `{AsciiSetLaws}.
Context (fuel : nat) (now : time) (spare : Z -> Z).

(** The volume that was made and the one that was opened lie at the same place with the
    same regions on the same device. *)
Definition same_volume {T} (fs fs' : FileSystem T D) : Prop :=
  dataStart fs' = dataStart fs /\ bytesPerCluster fs' = bytesPerCluster fs /\ FatChain.size fs' = FatChain.size fs /\
  start fs' = start fs /\ backend fs' = backend fs /\ rootDirOffset fs' = rootDirOffset fs /\
  rootDirMaxEntries fs' = rootDirMaxEntries fs /\ fatPrimaryStart fs' = fatPrimaryStart fs /\ fatSecondaryStart fs' = fatSecondaryStart fs.

(** What [Create] and then [Read] give: a fresh volume whose root lists the label. *)
Definition made_and_opened {T} `{FATTable T} (ok : T -> Prop) (create : go (D * (FileSystem T D + error))) (read : D -> go (FileSystem T D))
    (dsize : Z) (c : Z -> Z) (size start : Z) (label : gostring) : Prop :=
  exists d c' fs fs', create = Ret (d, inl fs) /\ backend fs = d /\ repr d dsize c' /\ read d = Ret fs' /\ same_volume fs fs' /\
    ok (table fs') /\ reserved (table fs') /\ fresh (table fs') /\
    readDirectory fuel fs' (root_dir fs') = Ret (set_entries (root_dir fs') [stored (label_trimmed now (the_label label))]) /\
    forall x, ~ (start <= x < start + size) -> c' x = c x.

Definition blocksize_ok (blocksize : Z) : Prop := blocksize <= 0 \/ blocksize = 512.

Lemma blocksize_passes blocksize : blocksize_ok blocksize -> negb (blocksize =? 512) && (0 <? blocksize) = false.
Proof. intros [Hb| ->]; [|done]. rewrite (proj2 (Z.ltb_ge 0 _)) by lia. by rewrite andb_false_r. Qed.

(** Both layouts are in place, and their fields fit the parameter block. *)
Lemma layout_fields fatBytes size total reserved root spc : let l := estimate fatBytes total reserved root spc in
  0 < reserved < 2 ^ 16 -> 0 < root < 2 ^ 16 -> 0 < spc < 2 ^ 8 -> 0 < total < 2 ^ 32 ->
  (forall start dsize, laid_out l size -> 0 <= start -> start + size <= dsize -> placed l size start dsize) /\
  l_sectorsPerFat l < 2 ^ 16 /\
  forall media track heads drive serial fstype, word 8 media -> word 16 track -> word 16 heads -> word 8 drive -> word 32 serial ->
    len fstype = 8 -> bytes_ok fstype ->
    dos40_fits (bpb_of l media track heads drive serial fstype) /\ layout_of (bpb_of l media track heads drive serial fstype) = Ret l.
Proof.
  intros l Hres Hroot Hspc Ht. assert (word 16 (l_sectorsPerFat l)) as H16 by (apply wrap_u_range; lia).
  split_and!.
  - intros start dsize Hla Hs Hf. split; try done; try (unfold l, estimate; cbn [l_reservedSectors l_rootDirEntries]; lia).
    split; [|unfold l, estimate; cbn [l_sectorsPerCluster]; lia]. apply Z.div_pos; [apply wrap_u_range|]; lia.
  - apply H16.
  - intros. split; [|apply layout_of_bpb; lia]. apply bpb_of_fits; try done; unfold l, estimate, word;
      cbn [l_sectorsPerCluster l_reservedSectors l_fatCount l_rootDirEntries l_totalSectors]; lia.
Qed.

Lemma sectorsPerCluster_range size : 0 < sectorsPerCluster12 size < 2 ^ 8 /\ 0 < sectorsPerCluster16 size < 2 ^ 8.
Proof. unfold sectorsPerCluster12, sectorsPerCluster16. split; repeat destruct_if; lia. Qed.

(** The boot sector that [Read] finds. *)
Lemma boot_of_formatted {T} `{FATTable T} d dsize c c' bpb (tbl : T) l size start label : 
  formatted_device (repr := repr) fuel now d dsize c c' bpb tbl l size start label -> 0 <= start -> start + 512 <= dsize ->
  dos40_fits bpb -> len label = 11 -> ascii_ok label -> layout_of bpb = Ret l ->
  exists raw m, (forall msg, read_or (ReadAt d) msg (replicate (Z.to_nat 512) 0) start = Ret raw) /\
    Boot12.msDosBootSectorFromBytes raw = Ret m /\ dos331 (Boot12.biosParameterBlock m) = dos331 bpb /\
    layout_of (Boot12.biosParameterBlock m) = Ret l.
Proof.
  intros [Hr Hboot _ _ _ _] Hs Hfit Hf Hl Ha Hlay. destruct (boot_readback _ (relabel_fits bpb label Hf Hl Ha)) as (_ & _ & _ & m & Hp & Hd & _).
  eexists _, m. split; [intros msg; by apply (read_bytes d dsize c')|]. rewrite Hboot. split; [exact Hp|]. split; [exact Hd|].
  by rewrite (layout_of_dos331 _ bpb).
Qed.

Lemma open12_ok d dsize c c' bpb (tbl t0 t' : Fat12.fat12Table) l size start label :
  formatted_device (repr := repr) fuel now d dsize c c' bpb tbl l size start label -> placed l size start dsize ->
  dos40_fits bpb -> len label = 11 -> ascii_ok label -> layout_of bpb = Ret l -> l_numClusters l < 4085 ->
  RootDirectoryEntries (dos20 (dos331 bpb)) = l_rootDirEntries l -> l_sectorsPerFat l < 2 ^ 16 -> l_reservedSectors l < 2 ^ 16 ->
  Fat12.newFat12Table (Z.lor 0x0F00 (MediaType (dos20 (dos331 bpb)))) (p_fatSize (place l)) = Ret t0 ->
  FromBytes t0 (span c' (p_fatPrimaryStart (place l) + start) (p_fatSize (place l))) = Ret t' ->
  exists bpb', Read12 d size start 0 = Ret (volume d bpb' t' l size start).
Proof.
  intros Hfd Hpl Hf Hl Ha Hlay Hn Hroot H16 H16' Hnew Hft. pose proof Hpl as [Hla Hres Hre [Hcl Hspc] Hs Hfit].
  destruct Hla as (Hspf & Hsz & Hbpc & Hp1 & Hp2 & Hp3 & Hp4 & Hend & _).
  destruct (boot_of_formatted d dsize c c' bpb tbl l size start label) as (raw & m & Hraw & Hp & Hd & Hlm); try done; [nia|].
  exists (Boot12.biosParameterBlock m). unfold Read12. cbn [Z.eqb negb andb]. rewrite make_ok by (unfold maxAlloc; lia). bind_ret.
  rewrite Hraw. bind_ret. rewrite Hp. cbn [or_else]. bind_ret. rewrite Hd, Hroot, (proj2 (Z.eqb_neq _ _)) by lia.
  rewrite Hlm. bind_ret. rewrite (proj2 (Z.leb_gt 4085 _)) by lia. rewrite Hnew. bind_ret.
  rewrite (read_table_ok d dsize c' l size start t0 (fd_repr _ _ _ _ _ _ _ _ _ _ _ _ Hfd) Hpl H16 H16'), Hft. reflexivity.
Qed.

(** What is common to all sizes: a layout whose fields fit. *)
Record good_layout (l : layout) (size start dsize : Z) (bpb : Dos40EBPB) : Prop := {
  gl_placed : placed l size start dsize;
  gl_fat : l_sectorsPerFat l < 2 ^ 16;
  gl_reserved : l_reservedSectors l < 2 ^ 16;
  gl_fits : dos40_fits bpb;
  gl_layout : layout_of bpb = Ret l;
  gl_root : RootDirectoryEntries (dos20 (dos331 bpb)) = l_rootDirEntries l
}.

Lemma inside_volume l size start dsize x : placed l size start dsize -> ~ (start <= x < start + size) -> ~ (start <= x < start + p_dataStart (place l)).
Proof.
  intros [Hla _ _ [Hcl Hspc] _ _] Hx. destruct Hla as (_ & _ & Hbpc & _ & _ & _ & _ & Hend & _).
  assert (p_dataStart (place l) <= size) by nia. lia.
Qed.

Definition steps12 (b : D) (bpb : Dos40EBPB) (l : layout) (media size start : Z) (s : gostring) : go (D * (FileSystem Fat12.fat12Table D + error)) :=
  tbl ← Fat12.newFat12Table (Z.lor 0x0F00 media) (p_fatSize (place l));
  tbl ← SetCluster tbl 2 (Fat12.eoc tbl);
  formatted (_ ← writable; _ ← write_boot; _ ← write_tables; _ ← zero_root; label_volume fuel now spare s) (volume b bpb tbl l size start).

Lemma steps12_then_read b dsize c size start s l bpb : repr b dsize c -> good_layout l size start dsize bpb -> l_numClusters l < 4085 ->
  s = [] \/ label_ok s ->
  made_and_opened Fat12.ok (steps12 b bpb l (MediaType (dos20 (dos331 bpb))) size start s) (fun d => Read12 d size start 0) dsize c size start s.
Proof.
  intros Hr [Hpl H16 H16' Hfits Hlayout Hre] Hn Hlab. set (media := MediaType _).
  pose proof (pc_laid _ _ _ _ Hpl) as (Hspf1 & Hfsz & _). destruct (new_fat12 (Z.lor 0x0F00 media) (p_fatSize (place l))) as (t0 & Hnew & Hok0 & Hts0 & _ & Hz); [lia|].
  pose proof Hok0 as (_ & _ & Heoc & _ & _ & Hmax0). change (Fat12.size t0) with (TableSize t0) in Hmax0. rewrite Hts0, Hfsz in Hmax0.
  destruct (first_cluster_used Fat12.ok t0 4096 Hok0 Hz) as (tbl & Hset & Hok & Hmax & Hts & He & Hfr & Hvf).
  { cbn. rewrite Heoc. lia. }
  { cbn. rewrite Hmax0. apply Z.div_le_lower_bound; lia. }
  assert (TableSize tbl = p_fatSize (place l)) as Htt by congruence.
  destruct (formatted_ok (ok := Fat12.ok) (repr := repr) fuel now spare b bpb tbl l size start dsize c s _ Hpl Hfits Hr Hok Htt Hlab (or_introl eq_refl))
    as (d & c' & Hrun & Hfd).
  destruct (fat12_reread tbl t0 (Z.lor 0x0F00 media) Hok Hvf) as (tb & t' & Htb & Hltb & Hft & Hok' & Hm' & _ & _ & H01 & Hv').
  { cbn in Hts, Hts0 |- *. rewrite Hts, Hts0. exact Hnew. }
  pose proof (fresh_reread tbl t' Hfr Hm' ltac:(destruct Hok as (_ & _ & E & _), Hok' as (_ & _ & E' & _); cbn; congruence) H01 Hv') as Hfr'.
  pose proof (fd_fat _ _ _ _ _ _ _ _ _ _ _ _ Hfd) as Hfat. rewrite Htb in Hfat. apply Ret_inj in Hfat. rewrite Hfat in Hft.
  destruct (the_label_ok s Hlab) as (Hlok & Hll & _).
  destruct (open12_ok d dsize c c' bpb tbl t0 t' l size start (the_label s) Hfd Hpl Hfits Hll (lb_ascii _ Hlok) Hlayout Hn Hre H16 H16' Hnew Hft) as (bpb' & Hread).
  exists d, c', (volume d (relabel bpb (the_label s)) tbl l size start), (volume d bpb' t' l size start).
  destruct Hfd as [Hr' _ _ _ Hroot Hout]. split.
  { unfold steps12. rewrite Hnew. bind_ret. change (Fat12.eoc t0) with (EOCMarker t0). rewrite Hset. bind_ret. exact Hrun. }
  split; [reflexivity|]. split; [exact Hr'|]. split; [exact Hread|]. split; [repeat split|].
  split; [exact Hok'|]. split; [split; apply H01; lia|]. split; [exact Hfr'|]. split; [apply Hroot|].
  intros x Hx. apply Hout. by apply (inside_volume l size start dsize).
Qed.

Lemma estimate_good fatBytes size total reserved root spc media track heads drive serial fstype start dsize :
  0 < reserved < 2 ^ 16 -> 0 < root < 2 ^ 16 -> 0 < spc < 2 ^ 8 -> 0 < total < 2 ^ 32 ->
  let l := estimate fatBytes total reserved root spc in laid_out l size -> 0 <= start -> start + size <= dsize ->
  word 8 media -> word 16 track -> word 16 heads -> word 8 drive -> word 32 serial -> len fstype = 8 -> bytes_ok fstype ->
  good_layout l size start dsize (bpb_of l media track heads drive serial fstype).
Proof.
  intros Hr Hroot Hs Ht l Hla Hst0 Hf **. destruct (layout_fields fatBytes size total reserved root spc Hr Hroot Hs Ht) as (Hpl & H16 & Hb).
  fold l in Hpl, H16, Hb. destruct (Hb media track heads drive serial fstype) as [? ?]; try done.
  split; try done; [by apply Hpl|]. apply Hr.
Qed.

Lemma total_sectors size : 512 <= size < 2 ^ 32 -> 0 < u32 (size ÷ 512) < 2 ^ 32.
Proof.
  intros Hs. rewrite Z.quot_div_nonneg by lia. split; [|apply wrap_u_range; lia]. rewrite wrap_u_id; [apply Z.div_str_pos; lia|].
  split; [apply Z.div_pos; lia|apply Z.div_lt_upper_bound; lia].
Qed.

Lemma layout12_good size media serial start dsize : 10 * 512 <= size <= Fat12MaxSize -> laid_out (layout12 size) size -> 0 <= start -> start + size <= dsize ->
  word 8 media -> word 32 serial -> good_layout (layout12 size) size start dsize (bpb_of (layout12 size) media 18 2 0 serial (lit "FAT12   ")).
Proof.
  intros Hsize Hla Hs Hf Hm Hse. unfold Fat12MaxSize, MB, KB in Hsize.
  apply estimate_good; try done; [by destruct_if|apply sectorsPerCluster_range|apply total_sectors; lia|by apply bytes_okb_ok; vm_compute].
Qed.

Lemma create12_steps b size start blocksize s volid : blocksize_ok blocksize -> 10 * 512 <= size <= Fat12MaxSize -> l_numClusters (layout12 size) < 4085 ->
  exists media, word 8 media /\ Create12 fuel now spare b size start blocksize s volid =
    steps12 b (bpb_of (layout12 size) media 18 2 0 volid (lit "FAT12   ")) (layout12 size) media size start s.
Proof.
  intros Hb Hs Hn. exists (if size <=? 2 * MB then Media35Inch else MediaFixedDisk). split; [by destruct_if|].
  unfold Create12. rewrite (blocksize_passes _ Hb), !(proj2 (Z.ltb_ge _ _)) by lia. cbv zeta.
  rewrite (proj2 (Z.leb_gt 4085 (l_numClusters (layout12 size))) Hn). unfold steps12. reflexivity.
Qed.

Lemma create12_then_read b dsize c size start blocksize s volid : repr b dsize c -> blocksize_ok blocksize ->
  10 * 512 <= size <= Fat12MaxSize -> l_numClusters (layout12 size) < 4085 -> 0 <= start -> start + size <= dsize ->
  word 32 volid -> s = [] \/ label_ok s ->
  made_and_opened Fat12.ok (Create12 fuel now spare b size start blocksize s volid) (fun d => Read12 d size start 0) dsize c size start s.
Proof.
  intros Hr Hbs Hsize Hn Hs Hfit Hvol Hlab. destruct (layout12_bounds size Hsize Hn) as (Hla & _).
  destruct (create12_steps b size start blocksize s volid Hbs Hsize Hn) as (media & Hm & ->).
  pose proof (layout12_good size media volid start dsize Hsize Hla Hs Hfit Hm Hvol) as Hgood.
  exact (steps12_then_read b dsize c size start s _ _ Hr Hgood Hn Hlab).
Qed.

(** *** FAT16 *)

Definition steps16 (b : D) (bpb : Dos40EBPB) (l : layout) (media size start : Z) (s : gostring) : go (D * (FileSystem Fat16.fat16Table D + error)) :=
  tbl ← Fat16.newFat16Table (Z.lor 0xFF00 media) (p_fatSize (place l));
  tbl ← SetCluster tbl 2 (EOCMarker tbl);
  formatted (_ ← write_boot; _ ← write_tables; _ ← writable; _ ← zero_root; label_volume fuel now spare s) (volume b bpb tbl l size start).

Lemma open16_ok d dsize c c' bpb (tbl t0 t' : Fat16.fat16Table) l size start label :
  formatted_device (repr := repr) fuel now d dsize c c' bpb tbl l size start label -> good_layout l size start dsize bpb ->
  len label = 11 -> ascii_ok label -> 4085 <= l_numClusters l < 65525 ->
  Fat16.newFat16Table (Z.lor 0xFF00 (MediaType (dos20 (dos331 bpb)))) (p_fatSize (place l)) = Ret t0 ->
  FromBytes t0 (span c' (p_fatPrimaryStart (place l) + start) (p_fatSize (place l))) = Ret t' ->
  exists bpb', Read16 d size start 0 = Ret (volume d bpb' t' l size start).
Proof.
  intros Hfd [Hpl H16 H16' Hf Hlay Hroot] Hl Ha Hn Hnew Hft. pose proof Hpl as [Hla Hres Hre [Hcl Hspc] Hs Hfit].
  destruct Hla as (Hspf & Hsz & Hbpc & Hp1 & Hp2 & Hp3 & Hp4 & Hend & _). pose proof (fd_repr _ _ _ _ _ _ _ _ _ _ _ _ Hfd) as Hr.
  destruct (boot_bpb_readback _ (relabel_fits bpb label Hf Hl Ha)) as (Hlb & bpb' & Hp & Hd).
  exists bpb'. unfold Read16. cbn [Z.eqb negb andb]. rewrite make_ok by (unfold maxAlloc; lia). bind_ret.
  rewrite (read_bytes d dsize c') by (done || nia). bind_ret. rewrite (fd_boot _ _ _ _ _ _ _ _ _ _ _ _ Hfd).
  rewrite slice_ok by lia. bind_ret. rewrite Hp. cbn [or_else]. bind_ret.
  change (dos331 (relabel bpb label)) with (dos331 bpb) in Hd. rewrite Hd, Hroot, (proj2 (Z.eqb_neq _ _)) by lia.
  rewrite (layout_of_dos331 _ bpb Hd), Hlay. bind_ret. rewrite (proj2 (Z.ltb_ge (l_numClusters l) 4085)), (proj2 (Z.leb_gt 65525 _)) by lia.
  rewrite Hnew. bind_ret. rewrite (read_table_ok d dsize c' l size start t0 Hr Hpl H16 H16'), Hft. reflexivity.
Qed.

Lemma steps16_then_read b dsize c size start s l bpb : repr b dsize c -> good_layout l size start dsize bpb -> 4085 <= l_numClusters l < 65525 ->
  s = [] \/ label_ok s ->
  made_and_opened Fat16.ok (steps16 b bpb l (MediaType (dos20 (dos331 bpb))) size start s) (fun d => Read16 d size start 0) dsize c size start s.
Proof.
  intros Hr Hgood Hn Hlab. pose proof Hgood as [Hpl H16 H16' Hfits Hlayout Hre]. set (media := MediaType _).
  pose proof (pc_laid _ _ _ _ Hpl) as (Hspf1 & Hfsz & _). destruct (new_fat16 (Z.lor 0xFF00 media) (p_fatSize (place l))) as (t0 & Hnew & Hok0 & Hts0 & _ & Hz); [lia|].
  pose proof Hok0 as (_ & _ & Heoc & _ & Hmax0). change (Fat16.size t0) with (TableSize t0) in Hmax0. rewrite Hts0, Hfsz in Hmax0.
  destruct (first_cluster_used Fat16.ok t0 (2 ^ 16) Hok0 Hz) as (tbl & Hset & Hok & Hmax & Hts & He & Hfr & Hvf).
  { cbn [EOCMarker Fat16.fat16_table]. rewrite Heoc. lia. }
  { cbn [MaxCluster Fat16.fat16_table]. rewrite Hmax0. apply Z.div_le_lower_bound; lia. }
  assert (TableSize tbl = p_fatSize (place l)) as Htt by congruence.
  destruct (formatted_ok (ok := Fat16.ok) (repr := repr) fuel now spare b bpb tbl l size start dsize c s _ Hpl Hfits Hr Hok Htt Hlab (or_intror eq_refl))
    as (d & c' & Hrun & Hfd).
  destruct (fat16_reread tbl t0 (Z.lor 0xFF00 media) Hok Hvf) as (tb & t' & Htb & Hltb & Hft & Hok' & Hm' & _ & _ & H01 & Hv').
  { change (Fat16.size tbl) with (TableSize tbl). rewrite Htt. exact Hnew. }
  pose proof (fresh_reread tbl t' Hfr Hm' ltac:(destruct Hok as (_ & _ & E & _), Hok' as (_ & _ & E' & _); cbn; congruence) H01 Hv') as Hfr'.
  pose proof (fd_fat _ _ _ _ _ _ _ _ _ _ _ _ Hfd) as Hfat. rewrite Htb in Hfat. apply Ret_inj in Hfat. rewrite Hfat in Hft.
  destruct (the_label_ok s Hlab) as (Hlok & Hll & _).
  destruct (open16_ok d dsize c c' bpb tbl t0 t' l size start (the_label s) Hfd Hgood Hll (lb_ascii _ Hlok) Hn Hnew Hft) as (bpb' & Hread).
  exists d, c', (volume d (relabel bpb (the_label s)) tbl l size start), (volume d bpb' t' l size start).
  destruct Hfd as [Hr' _ _ _ Hroot Hout]. split.
  { unfold steps16. rewrite Hnew. bind_ret. rewrite Hset. bind_ret. exact Hrun. }
  split; [reflexivity|]. split; [exact Hr'|]. split; [exact Hread|]. split; [repeat split|].
  split; [exact Hok'|]. split; [split; apply H01; lia|]. split; [exact Hfr'|]. split; [apply Hroot|].
  intros x Hx. apply Hout. by apply (inside_volume l size start dsize).
Qed.

Lemma layout16_good size serial start dsize : 512 * 8 <= size <= Fat16MaxSize -> laid_out (layout16 size) size -> 0 <= start -> start + size <= dsize ->
  word 32 serial -> good_layout (layout16 size) size start dsize (bpb_of (layout16 size) MediaFixedDisk 63 255 0x80 serial (lit "FAT16   ")).
Proof.
  intros Hsize Hla Hs Hf Hse. unfold Fat16MaxSize, GB, MB, KB in Hsize.
  apply estimate_good; try done; [apply sectorsPerCluster_range|apply total_sectors; lia|by apply bytes_okb_ok; vm_compute].
Qed.

Lemma create16_steps b size start blocksize s volid : blocksize_ok blocksize -> 512 * 8 <= size <= Fat16MaxSize -> 4085 <= l_numClusters (layout16 size) < 65525 ->
  Create16 fuel now spare b size start blocksize s volid =
    steps16 b (bpb_of (layout16 size) MediaFixedDisk 63 255 0x80 volid (lit "FAT16   ")) (layout16 size) MediaFixedDisk size start s.
Proof.
  intros Hb Hs [Hlo Hhi]. unfold Create16. rewrite (blocksize_passes _ Hb), !(proj2 (Z.ltb_ge _ _)) by lia. cbv zeta.
  rewrite (proj2 (Z.leb_gt 65525 (l_numClusters (layout16 size))) Hhi).
  unfold steps16. reflexivity.
Qed.

Lemma create16_then_read b dsize c size start blocksize s volid : repr b dsize c -> blocksize_ok blocksize ->
  512 * 8 <= size <= Fat16MaxSize -> 4085 <= l_numClusters (layout16 size) < 65525 -> 0 <= start -> start + size <= dsize ->
  word 32 volid -> s = [] \/ label_ok s ->
  made_and_opened Fat16.ok (Create16 fuel now spare b size start blocksize s volid) (fun d => Read16 d size start 0) dsize c size start s.
Proof.
  intros Hr Hbs Hsize Hn Hs Hfit Hvol Hlab. destruct (layout16_bounds size Hsize Hn) as (Hla & _).
  rewrite (create16_steps b size start blocksize s volid Hbs Hsize Hn).
  pose proof (layout16_good size volid start dsize Hsize Hla Hs Hfit Hvol) as Hgood.
  exact (steps16_then_read b dsize c size start s _ _ Hr Hgood Hn Hlab).
Qed.

(** C5. A FAT12 or FAT16 volume that [Create] makes on any writable device, anywhere on it
    and of any size the kind of file system allows, is opened by [Read]: with the same
    regions; with a table that satisfies the invariant, in which cluster 2 is taken and
    every other cluster is free; and with a root directory that lists the label and
    nothing else. No byte of the device outside the volume has changed. *)
Theorem fat_create_then_read b dsize c size start blocksize s volid : repr b dsize c -> blocksize_ok blocksize ->
  0 <= start -> start + size <= dsize -> word 32 volid -> s = [] \/ label_ok s ->
  (10 * 512 <= size <= Fat12MaxSize -> l_numClusters (layout12 size) < 4085 ->
    made_and_opened Fat12.ok (Create12 fuel now spare b size start blocksize s volid) (fun d => Read12 d size start 0) dsize c size start s) /\
  (512 * 8 <= size <= Fat16MaxSize -> 4085 <= l_numClusters (layout16 size) < 65525 ->
    made_and_opened Fat16.ok (Create16 fuel now spare b size start blocksize s volid) (fun d => Read16 d size start 0) dsize c size start s).
Proof using All.
  intros Hr Hb Hs Hf Hv Hl. split; intros; [by apply create12_then_read|by apply create16_then_read].
Qed.
End create_read.

(** ** Opening any volume *)

Lemma dos20_parsed b d : bytes_ok b -> Dos20BPBFromBytes b = Ret d -> 512 <= BytesPerSector d < 2 ^ 16 /\ 0 <= SectorsPerCluster d < 256.
Proof.
  intros Hb H. unfold Dos20BPBFromBytes in H. destruct (Z.eqb_spec (len b) 13) as [Hl|]; [|done]. cbn [negb] in H. get_fields H.
  destruct (Z.ltb_spec (LE b.[0, 2]) SectorSize512); [done|]. cbn [orb] in H. destruct (negb _); [done|]. get_fields H. injection H as <-.
  cbn [BytesPerSector SectorsPerCluster]. split; [split; [done|by apply (LE_sub_range b 0 2)]|]. apply byte_at_range, Hb.
Qed.

Lemma dos40_parsed b x n : bytes_ok b -> Dos40EBPBFromBytes b = Ret (x, n) ->
  512 <= BytesPerSector (dos20 (dos331 x)) < 2 ^ 16 /\ 0 <= SectorsPerCluster (dos20 (dos331 x)) < 256.
Proof.
  intros Hb H. unfold Dos40EBPBFromBytes in H. destruct (len b <? 26); [done|].
  apply bind_Ret in H as (s & Hs & H). apply bind_catch_ret in H as [(d & Hd & H)|(e & _ & H)]; [|done].
  assert (dos331 x = d) as ->.
  { do 4 (apply bind_Ret in H as (? & _ & H)). destruct (_ =? _); [by injection H as <- <-|]. destruct (_ =? _); [|done].
    destruct (_ <? _); [done|]. do 2 (apply bind_Ret in H as (? & _ & H)). by injection H as <- <-. }
  unfold Dos331BPBFromBytes in Hd. destruct (negb _); [done|]. apply bind_Ret in Hd as (s' & Hs' & Hd).
  apply bind_catch_ret in Hd as [(d' & Hd' & Hd)|(e & _ & Hd)]; [|done].
  assert (dos20 d = d') as ->. { do 4 (apply bind_Ret in Hd as (? & _ & Hd)). by injection Hd as <-. }
  eapply dos20_parsed; [|exact Hd'].
  eapply slice_bytes; [|exact Hs']. by eapply slice_bytes.
Qed.

Lemma table12_opened id sz t0 tb t : Fat12.newFat12Table id sz = Ret t0 -> FromBytes t0 tb = Ret t -> bytes_ok tb -> len tb = sz ->
  3 <= TableSize t < 2 ^ 29 -> Fat12.ok t /\ reserved t.
Proof.
  intros Hnew Hrt Hb Hl Hsz. change (FromBytes t0 tb) with (Fat12.fromBytes t0 tb) in Hrt. assert (TableSize t = sz) as Hszt.
  { unfold Fat12.newFat12Table in Hnew. apply bind_Ret in Hnew as (cs & _ & Hnew). injection Hnew as <-.
    unfold Fat12.fromBytes in Hrt. apply bind_Ret in Hrt as (cs' & _ & Hrt). destruct (2 <=? len tb) in Hrt; [|by injection Hrt as <-].
    apply bind_Ret in Hrt as (? & _ & Hrt). by injection Hrt as <-. }
  rewrite Hszt in Hsz. destruct (new_fat12 id sz Hsz) as (t0' & Hnew' & Hok0 & Hts & _ & Hz0).
  rewrite Hnew in Hnew'. apply Ret_inj in Hnew' as <-.
  destruct (fat12_fromBytes t0 tb Hok0 Hb) as (t' & Ht' & Hok' & _ & _ & _ & H01 & _); [by rewrite Hl|].
  rewrite Hrt in Ht'. apply Ret_inj in Ht' as <-. pose proof (fat_max t0 Hok0). split; [done|]. split; rewrite H01 by lia; apply Hz0; lia.
Qed.

Lemma table16_opened id sz t0 tb t : Fat16.newFat16Table id sz = Ret t0 -> FromBytes t0 tb = Ret t -> bytes_ok tb -> len tb = sz ->
  4 <= TableSize t < 2 ^ 31 -> Fat16.ok t /\ reserved t.
Proof.
  intros Hnew Hrt Hb Hl Hsz. change (FromBytes t0 tb) with (Fat16.fromBytes t0 tb) in Hrt. assert (TableSize t = sz) as Hszt.
  { unfold Fat16.newFat16Table in Hnew. apply bind_Ret in Hnew as (cs & _ & Hnew). injection Hnew as <-.
    unfold Fat16.fromBytes in Hrt. apply bind_Ret in Hrt as (cs' & _ & Hrt). destruct (2 <=? len tb) in Hrt; [|by injection Hrt as <-].
    apply bind_Ret in Hrt as (? & _ & Hrt). by injection Hrt as <-. }
  rewrite Hszt in Hsz. destruct (new_fat16 id sz Hsz) as (t0' & Hnew' & Hok0 & Hts & _ & Hz0).
  rewrite Hnew in Hnew'. apply Ret_inj in Hnew' as <-.
  destruct (fat16_fromBytes t0 tb Hok0 Hb) as (t' & Ht' & Hok' & _ & _ & _ & Hw); [by rewrite Hl|].
  rewrite Hrt in Ht'. apply Ret_inj in Ht' as <-. pose proof (fat_max t0 Hok0). destruct Hok0 as (Hlc & Hm & _). split; [done|].
  destruct Hw as [_ Hw]. split; (etransitivity; [apply Hw; lia|]); cbn [andb Z.leb Z.compare]; apply Hz0; lia.
Qed.

Section opened.
Context {D : Type} `{Hst : Storage D}.

(** Where the clusters are found, and, when there is a table, its invariant: what the
    theorems on cluster chains and files start from. *)
Definition opened {T} `{FATTable T} (ok : T -> Prop) (least most : Z) (fs : FileSystem T D) : Prop :=
  512 <= bytesPerCluster fs <= 255 * 2 ^ 16 /\ (least <= TableSize (table fs) < most -> ok (table fs) /\ reserved (table fs)).

Lemma read_or_shape (b : D) msg n off r : ReaderShape (ReadAt b) -> (x ← make 0 1 n; read_or (ReadAt b) msg x off) = Ret r ->
  0 <= n /\ len r = n /\ bytes_ok r.
Proof.
  intros Hsh H. apply bind_Ret in H as (x & Hx & H). unfold make in Hx. destruct (Z.ltb_spec n 0); cbn [orb] in Hx; [done|].
  destruct (maxAlloc <? n * 1); [done|]. injection Hx as <-.
  assert (wp (read_or (ReadAt b) msg (replicate (Z.to_nat n) 0) off) (fun r => len r = n /\ bytes_ok r) (fun _ => True)) as Hw.
  { apply (wp_read_or (ReadAt b) _ _ _ _ _); [|intros e; exact I]. intros b' Hl Hb. rewrite Hl, len_replicate. split; [lia|]. apply Hb, bytes_ok_zeros. }
  split; [done|]. exact (wp_Ret _ _ _ _ Hw H).
Qed.

Lemma layout_of_opened bpb l : layout_of bpb = Ret l -> 512 <= BytesPerSector (dos20 (dos331 bpb)) < 2 ^ 16 -> 0 <= SectorsPerCluster (dos20 (dos331 bpb)) < 256 ->
  512 <= p_bytesPerCluster (place l) <= 255 * 2 ^ 16.
Proof.
  unfold layout_of. intros H Hb Hs. destruct (Z.eqb_spec (SectorsPerCluster (dos20 (dos331 bpb))) 0); [done|]. injection H as <-. cbn. nia.
Qed.

Lemma read12_opened (b : D) size start blocksize fs : ReaderShape (ReadAt b) -> Read12 b size start blocksize = Ret fs -> opened Fat12.ok 3 (2 ^ 29) fs.
Proof.
  intros Hsh H. unfold Read12 in H. destruct (_ && _); [done|].
  apply bind_Ret in H as (raw0 & Hm & H). apply bind_Ret in H as (raw & Hrd & H).
  destruct (read_or_shape b "could not read boot sector: %w" 512 start raw Hsh) as (_ & Hl & Hb); [by rewrite Hm|].
  apply bind_Ret in H as (bs & Hbs & H). unfold or_else in Hbs. destruct (Boot12.msDosBootSectorFromBytes raw) as [bs'|e|p|] eqn:Ebs; [|done..].
  injection Hbs as ->. unfold Boot12.msDosBootSectorFromBytes in Ebs. destruct (negb _) in Ebs; [done|].
  do 2 (apply bind_Ret in Ebs as (? & _ & Ebs)). apply bind_Ret in Ebs as (rest & Hrest & Ebs).
  apply bind_catch_ret in Ebs as [([bpb n] & Hx & Ebs)|(e & _ & Ebs)]; [|done].
  assert (Boot12.biosParameterBlock bs = bpb) as Ex.
  { do 2 (apply bind_Ret in Ebs as (? & _ & Ebs)). destruct (negb _) in Ebs; [done|]. by injection Ebs as <-. }
  apply dos40_parsed in Hx as [Hbps Hspc]; [|by eapply slice_bytes]. rewrite Ex in H.
  destruct (_ =? 0) in H; [done|]. apply bind_Ret in H as (l & Hlay & H). destruct (4085 <=? _); [done|].
  apply bind_Ret in H as (t0 & Hnew & H). apply bind_Ret in H as (t & Hrt & H). injection H as <-.
  split; [by eapply layout_of_opened|]. vol. unfold read_table in Hrt.
  apply bind_Ret in Hrt as (z & Hz & Hrt). apply bind_Ret in Hrt as (tb & Htb & Hrt).
  destruct (read_or_shape b "could not read FAT: %w" (p_fatSize (place l)) (i64 (p_fatPrimaryStart (place l) + start)) tb Hsh) as (_ & Hltb & Hbtb); [by rewrite Hz|].
  by eapply (table12_opened _ (p_fatSize (place l)) t0 tb).
Qed.

Lemma read16_opened (b : D) size start blocksize fs : ReaderShape (ReadAt b) -> Read16 b size start blocksize = Ret fs -> opened Fat16.ok 4 (2 ^ 31) fs.
Proof.
  intros Hsh H. unfold Read16 in H. destruct (_ && _); [done|].
  apply bind_Ret in H as (raw0 & Hm & H). apply bind_Ret in H as (raw & Hrd & H).
  destruct (read_or_shape b "could not read boot sector: %w" 512 start raw Hsh) as (_ & Hl & Hb); [by rewrite Hm|].
  apply bind_Ret in H as (rest & Hrest & H). apply bind_Ret in H as ([bpb n] & Hbs & H). unfold or_else in Hbs.
  destruct (Dos40EBPBFromBytes rest) as [r|e|p|] eqn:Hx; [|done..]. injection Hbs as ->.
  apply dos40_parsed in Hx as [Hbps Hspc]; [|by eapply slice_bytes].
  destruct (_ =? 0) in H; [done|]. apply bind_Ret in H as (l & Hlay & H). destruct (_ <? 4085); [done|]. destruct (65525 <=? _); [done|].
  apply bind_Ret in H as (t0 & Hnew & H). apply bind_Ret in H as (t & Hrt & H). injection H as <-.
  split; [by eapply layout_of_opened|]. vol. unfold read_table in Hrt.
  apply bind_Ret in Hrt as (z & Hz & Hrt). apply bind_Ret in Hrt as (tb & Htb & Hrt).
  destruct (read_or_shape b "could not read FAT: %w" (p_fatSize (place l)) (i64 (p_fatPrimaryStart (place l) + start)) tb Hsh) as (_ & Hltb & Hbtb); [by rewrite Hz|].
  by eapply (table16_opened _ (p_fatSize (place l)) t0 tb).
Qed.

(** C19. Whatever the bytes of an image are: if [Read] opens it as FAT12 or FAT16, clusters
    have at least 512 bytes, and unless the table is empty (or larger than any that
    [Create] makes) it satisfies the invariant from which the theorems on cluster chains,
    directories and files start. *)
Theorem fat_read_invariant (b : D) size start blocksize : ReaderShape (ReadAt b) ->
  (forall fs, Read12 b size start blocksize = Ret fs -> opened Fat12.ok 3 (2 ^ 29) fs) /\
  (forall fs, Read16 b size start blocksize = Ret fs -> opened Fat16.ok 4 (2 ^ 31) fs).
Proof. split; intros; [by eapply read12_opened|by eapply read16_opened]. Qed.
End opened.

(** ** Witnesses *)

#[local] Existing Instance tables.
#[local] Existing Instance byte_set.
#[local] Existing Instance byte_set_laws.

Definition blank (n : Z) : memory := mkMemory (replicate (Z.to_nat n) 0) false 0.

Lemma blank_is n : 0 <= n < 2 ^ 63 -> memory_is (blank n) n (file_content (replicate (Z.to_nat n) 0)).
Proof.
  intros Hn. unfold memory_is, blank. cbn [readOnly data]. rewrite len_replicate. split_and!; [done|lia|lia|apply bytes_ok_zeros|done].
Defined.

(** A floppy disk in the second half of a device of 3 MB, and 64 MB of FAT16 with a label. *)
Lemma fat_create_then_read_witness :
  made_and_opened (repr := memory_is) 10 63871200000 Fat12.ok (Create12 10 63871200000 (fun _ => 0) (blank 3145728) 1474560 1572864 512 [] 7)
    (fun d => Read12 d 1474560 1572864 0) 3145728 (file_content (replicate (Z.to_nat 3145728) 0)) 1474560 1572864 [] /\
  made_and_opened (repr := memory_is) 10 63871200000 Fat16.ok (Create16 10 63871200000 (fun _ => 0) (blank (64 * MB)) (64 * MB) 0 0 (lit "BACKUP") 7)
    (fun d => Read16 d (64 * MB) 0 0) (64 * MB) (file_content (replicate (Z.to_nat (64 * MB)) 0)) (64 * MB) 0 (lit "BACKUP").
Proof.
  split.
  - apply (fat_create_then_read (repr := memory_is) 10 63871200000 (fun _ => 0) (blank 3145728) 3145728 _ 1474560 1572864 512 [] 7);
      [apply blank_is; lia|by right|lia|lia|unfold word; lia|by left|unfold Fat12MaxSize, MB, KB; lia|vm_compute; reflexivity].
  - apply (fat_create_then_read (repr := memory_is) 10 63871200000 (fun _ => 0) (blank (64 * MB)) (64 * MB) _ (64 * MB) 0 0 (lit "BACKUP") 7);
      [apply blank_is; unfold MB, KB; lia|by left|lia|lia|unfold word; lia| |unfold Fat16MaxSize, GB, MB, KB; lia|vm_compute; split; congruence].
    right. split; [repeat (constructor; [vm_compute; split; congruence|]); constructor|]. by exists 66, (lit "ACKUP").
Defined.

(** An image of 20 sectors that another tool could have made: one sector of FAT. *)
Definition small_image : memory := mkMemory
  ([0xEB; 0x3C; 0x90] ++ lit "MSDOS5.0" ++
   put_le 2 512 ++ [1] ++ put_le 2 1 ++ [1] ++ put_le 2 16 ++ put_le 2 20 ++ [0xF0] ++ put_le 2 1 ++
   put_le 2 18 ++ put_le 2 2 ++ put_le 4 0 ++ put_le 4 0 ++
   [0; 0; 0x29] ++ put_le 4 7 ++ lit "SMALL      " ++ lit "FAT12   " ++ replicate 448 0 ++ [0x55; 0xAA] ++
   [0xF0; 0xFF; 0xFF] ++ replicate 1021 0) true 0.

Lemma fat_read_invariant_witness : exists fs, Read12 small_image 10240 0 512 = Ret fs /\ opened Fat12.ok 3 (2 ^ 29) fs.
Proof.
  assert (ReaderShape (ReadAt small_image)) as Hs by (apply file_shape, bytes_okb_ok; vm_compute; reflexivity).
  destruct (Read12 small_image 10240 0 512) as [fs|e|p|] eqn:E; [|vm_compute in E; discriminate..].
  exists fs. split; [reflexivity|]. apply (proj1 (fat_read_invariant small_image 10240 0 512 Hs)). exact E.
Defined.

(** A boot sector with no sectors per cluster stops [Read] with a division by zero. *)
Definition zero_spc_image : memory := mkMemory
  ([0xEB; 0x3C; 0x90] ++ lit "MSDOS5.0" ++
   put_le 2 512 ++ [0] ++ put_le 2 1 ++ [1] ++ put_le 2 16 ++ put_le 2 20 ++ [0xF0] ++ put_le 2 1 ++
   replicate 12 0 ++ [0; 0; 0x28] ++ replicate 471 0 ++ [0x55; 0xAA]) true 0.
Example read_divides_by_zero : Read12 zero_spc_image 10240 0 512 = Panic DivideByZero /\ Read16 zero_spc_image 10240 0 512 = Panic DivideByZero.
Proof. split; vm_compute; reflexivity. Qed.

(** A volume of 8 sectors, with no room for a table, stops [Create]. *)
Example create_without_table : Create12 10 0 (fun _ => 0) (blank 4096) 4096 0 512 [] 7 = Panic IndexOutOfRange.
Proof. vm_compute. reflexivity. Qed.
