(* ===== verification/Fat32Fs.v ===== *)
(** * Fat32Fs: diskkit/filesystem/fat32/fat32.go
    FAT32 shares the operations of fat12.go: a volume is a [FileSystem] whose boot sector
    is written, and whose information sector is flushed after every change of the table,
    by hooks. Its state and hooks, [SetLabel], [Create] and [Read]. *)
From S2P Require Import Prelude Bytes ReaderAt Text GoTime FatBoot FatTable Storage FatChain FatData FatDirent FatDir FatFs FatVolume.

Definition Fat32MaxSize : Z := 2198754099200.
Definition reservedSectors32 : Z := 32.

Section fat32.
Context {D : Type} `{Storage D} `{UnicodeTables} `{AsciiSet}.
Context (fuel : nat) (now : time) (spare : Z -> Z).
Notation FS := (FileSystem Fat32.table D).

Record FileSystem32 := mkFS32 { base : FS; fsis : Boot32.FSInformationSector; bpbFat32 : Boot32.dos71EBPB }.

Definition boot32 (bpb : Boot32.dos71EBPB) : Boot32.msDosBootSector :=
  Boot32.mkBootSector [0xeb; 0x58; 0x90] (lit "godiskfs") bpb [].

Definition sector_bytes (bpb : Boot32.dos71EBPB) : Z := BytesPerSector (dos20 (Boot32.dos331 bpb)).

(** [writableFile.WriteAt(b, off)] that must write all of [b]. *)
Definition write_whole (d : D) (b : list Z) (off : Z) (failed : error -> error) (incomplete : error) : go (D * option error) :=
  '(d, (count, err)) ← WriteAt d b off;
  mret (d, match err with
           | Some e => Some (failed e)
           | None => if negb (count =? len b) then Some incomplete else None
           end).

Definition writeBootSector (bpb : Boot32.dos71EBPB) (start : Z) (d : D) : go (D * option error) :=
  match Writable d with
  | Some e => mret (d, Some e)
  | None =>
      r ← catch (Boot32.msDosBootSector_toBytes (boot32 bpb) (sector_bytes bpb));
      match r with
      | inr e => mret (d, Some (Wrapf "error converting MS-DOS Boot Sector to bytes: %w" e))
      | inl b =>
          '(d, err) ← write_whole d b start (Wrapf "error writing MS-DOS Boot Sector to disk: %w")
            (Errorf "wrote %d bytes of MS-DOS Boot Sector instead of expected %d");
          match err with
          | Some e => mret (d, Some e)
          | None =>
              if 0 <? Boot32.backupBootSector bpb then
                write_whole d b (i64 (i64 (Boot32.backupBootSector bpb * sector_bytes bpb) + start))
                  (Wrapf "error writing backup MS-DOS Boot Sector to disk: %w")
                  (Errorf "wrote %d bytes of backup MS-DOS Boot Sector instead of expected %d")
              else mret (d, None)
          end
      end
  end.

Definition writeFsis (f : Boot32.FSInformationSector) (bpb : Boot32.dos71EBPB) (start : Z) (d : D) : go (D * option error) :=
  let bps := sector_bytes bpb in
  r ← catch (Boot32.fsis_toBytes f bps);
  match r with
  | inr e => mret (d, Some (Wrapf "error converting FSInfo sector to bytes: %w" e))
  | inl fsisBytes =>
      match Writable d with
      | Some e => mret (d, Some e)
      | None =>
          '(d, (_, err)) ← WriteAt d fsisBytes (i64 (i64 (Boot32.fsInformationSector bpb * bps) + start));
          match err with
          | Some e => mret (d, Some (Wrapf "unable to write primary FSIS: %w" e))
          | None =>
              if 0 <? Boot32.backupBootSector bpb then
                '(d, (_, err)) ← WriteAt d fsisBytes (i64 (i64 (u16 (Boot32.backupBootSector bpb + 1) * bps) + start));
                mret (d, match err with Some e => Some (Wrapf "unable to write backup FSIS: %w" e) | None => None end)
              else mret (d, None)
          end
      end
  end.

(** The inherited file system. Its hooks are methods of the FAT32 file system, so they see
    the parameter block and the information sector as they are when they run. *)
Definition inherited (fs : FileSystem32) : FS :=
  let b := base fs in
  mkFS (bootSector b) (table b) (dataStart b) (bytesPerCluster b) (size b) (start b) (backend b) (rootDirOffset b)
    (rootDirMaxEntries b) (fatPrimaryStart b) (fatSecondaryStart b)
    (Some (writeBootSector (bpbFat32 fs) (start b))) (Some (writeFsis (fsis fs) (bpbFat32 fs) (start b))).

(** An inherited operation. *)
Definition run32 {A} (m : fsm Fat32.table D A) (fs : FileSystem32) : go (FileSystem32 * (A + error)) :=
  '(b, r) ← m (inherited fs);
  mret (mkFS32 b (fsis fs) (bpbFat32 fs), r).

Definition with_label32 (bpb : Boot32.dos71EBPB) (label : gostring) : Boot32.dos71EBPB :=
  Boot32.mkDos71 (Boot32.dos331 bpb) (Boot32.sectorsPerFat bpb) (Boot32.mirrorFlags bpb) (Boot32.version bpb)
    (Boot32.rootDirectoryCluster bpb) (Boot32.fsInformationSector bpb) (Boot32.backupBootSector bpb) (Boot32.bootFileName bpb)
    (Boot32.driveNumber bpb) (Boot32.reservedFlags bpb) (Boot32.extendedBootSignature bpb) (Boot32.volumeSerialNumber bpb)
    label (Boot32.fileSystemType bpb).

Definition SetLabel32 (volumeLabel : gostring) (fs : FileSystem32) : go (FileSystem32 * (unit + error)) :=
  let volumeLabel := match volumeLabel with [] => lit "NO NAME" | _ => volumeLabel end in
  let volumeLabel := pad_exact 11 volumeLabel in
  run32 (_ ← wrapping (Wrapf "failed to write the boot sector: %w") (calling WriteBootSector);
         SetRootDirLabel fuel now spare volumeLabel)
    (mkFS32 (base fs) (fsis fs) (with_label32 (bpbFat32 fs) volumeLabel)).

(** ** Create *)

Definition clusterBytes (size : Z) : Z :=
  if size <=? 260 * MB then 512
  else if size <=? 8 * GB then 4 * KB
  else if size <=? 16 * GB then 8 * KB
  else if size <=? 32 * GB then 16 * KB
  else 32 * KB.
Definition sectorsPerCluster32 (size blocksize : Z) : Z :=
  let spc := u8 (Z.quot (clusterBytes size) blocksize) in
  if spc =? 0 then 1 else spc.
Definition sectorsPerFat32 (totalSectors blocksize sectorsPerCluster : Z) : Z :=
  let fatEntryDenom := u32 (u32 (u32 blocksize * sectorsPerCluster) + 8) in
  u16 (u32 (u32 (u32 (4 * u32 (totalSectors - reservedSectors32)) + fatEntryDenom) - 1) / fatEntryDenom).

Definition ebpb (blocksize sectorsPerCluster totalSectors sectorsPerFat volid : Z) : Boot32.dos71EBPB :=
  Boot32.mkDos71
    (mkDos331 (mkDos20 (u16 blocksize) sectorsPerCluster reservedSectors32 2 0 0 MediaFixedDisk 0) 1 1 0 totalSectors)
    sectorsPerFat 0 0 2 1 6 (replicate 12 0) 128 0 Boot32.longDos71EBPB volid (lit "NO NAME    ") (lit "FAT32   ").

(** The table with the root directory's cluster. *)
Definition new_table32 (fatSize : Z) : go Fat32.table :=
  let maxCluster := fatSize / 4 in
  clusters ← make 0 4 (u32 (maxCluster + 1));
  clusters ← store clusters 2 0x0fffffff;
  mret (Fat32.mkTable (0x0f000000 + 0xffff00 + MediaFixedDisk) 0x0fffffff 0 clusters 2 fatSize maxCluster).

Definition volume32 (b : D) (tbl : Fat32.table) (f : Boot32.FSInformationSector) (bpb : Boot32.dos71EBPB) (bytesPerCluster size start : Z)
    (fatPrimaryStart fatSize : Z) : FileSystem32 :=
  let fatSecondaryStart := u64 (fatPrimaryStart + fatSize) in
  mkFS32 (NewFileSystem b None tbl (u32 (u32 fatSecondaryStart + fatSize)) bytesPerCluster size start 0 0 fatPrimaryStart fatSecondaryStart) f bpb.

(** The root directory's cluster is filled with zeros. *)
Definition zero_root_cluster : fsm Fat32.table D unit := fun fs =>
  (_ ← writable;
   tmpb ← pure (make 0 1 (bytesPerCluster fs));
   written ← wrapping (Wrapf "failed to zero out root directory: %w") (write_at tmpb (i64 (start fs + dataStart fs)));
   if negb (written =? bytesPerCluster fs) then fail (Errorf "incomplete zero out of root directory, wrote %d bytes instead of %d")
   else mret tt) fs.

Definition Create32 (b : D) (size start blocksize : Z) (volumeLabel : gostring) (volid : Z) : go (D * (FileSystem32 + error)) :=
  match Writable b with
  | Some e => mret (b, inr e)
  | None =>
  if negb (blocksize =? 512) && negb (blocksize =? 4096) && (0 <? blocksize)
  then mret (b, inr (Errorf "blocksize for FAT32 must be either 512 bytes, 4096 bytes, or 0; not %d"))
  else
    let blocksize := if blocksize =? 0 then 512 else blocksize in
    if Fat32MaxSize <? size then mret (b, inr (Errorf "requested size is larger than maximum allowed FAT32, requested %d, maximum %d"))
    else if size <? i64 (reservedSectors32 * blocksize)
    then mret (b, inr (Errorf "requested size is smaller than minimum allowed FAT32, requested %d minimum %d"))
    else
      let sectorsPerCluster := sectorsPerCluster32 size blocksize in
      let totalSectors := u32 (Z.quot size blocksize) in
      let sectorsPerFat := sectorsPerFat32 totalSectors blocksize sectorsPerCluster in
      let dataSectors := totalSectors - reservedSectors32 - 2 * sectorsPerFat in
      if dataSectors <=? 0 then mret (b, inr (Errorf "requested size %d leaves no room for data after %d reserved sectors and 2x%d-sector FATs"))
      else if u32 (Z.quot dataSectors sectorsPerCluster) =? 0 then mret (b, inr (Errorf "requested size %d yields zero data clusters"))
      else if i64 (dataSectors * blocksize) <? 32 * KB
      then mret (b, inr (Errorf "requested size %d leaves only %d bytes of data area; >= 32 KiB required"))
      else
        let fatSize := u32 (sectorsPerFat * u32 blocksize) in
        fat ← new_table32 fatSize;
        let fs := volume32 b fat (Boot32.mkFsis 0xffffffff 0xffffffff) (ebpb blocksize sectorsPerCluster totalSectors sectorsPerFat volid)
                    (sectorsPerCluster * blocksize) size start (u64 (reservedSectors32 * u64 blocksize)) fatSize in
        '(fs, r) ← run32 (_ ← wrapping (Wrapf "failed to write the boot sector: %w") (calling WriteBootSector);
                          _ ← wrapping (Wrapf "failed to write FAT: %w") (calling WriteFat);
                          zero_root_cluster) fs;
        match r with
        | inr e => mret (backend (base fs), inr e)
        | inl _ =>
            '(fs, r) ← SetLabel32 volumeLabel fs;
            mret (backend (base fs), match r with inr e => inr (Wrapf "failed to set volume label to '%s': %w" e) | inl _ => inl fs end)
        end
  end.

(** ** Read *)

Definition Read32 (b : D) (size start blocksize : Z) : go FileSystem32 :=
  if negb (blocksize =? 0) && negb (blocksize =? 512) && negb (blocksize =? 4096)
  then Err (Errorf "blocksize for FAT32 must be 0, 512, or 4096 bytes, not %d")
  else if Fat32MaxSize <? size then Err (Errorf "requested size is larger than maximum allowed FAT32 size %d")
  else if size <? blocksize * 4 then Err (Errorf "requested size is smaller than minimum allowed FAT32 size %d")
  else
    bsb ← make 0 1 4096;
    r ← ReadAt b bsb start;
    match r_err r with
    | Some e => Err (Wrapf "could not read bytes from file: %w" e)
    | None =>
        if r_n r <? 512 then Err (Errorf "only could read %d bytes from file, need at least %d")
        else
          first ← slice (r_buf r) 0 512;
          bs ← or_else (Wrapf "error reading MS-DOS Boot Sector: %w") (Boot32.msDosBootSectorFromBytes first);
          let bpb := Boot32.biosParameterBlock bs in
          let d := dos20 (Boot32.dos331 bpb) in
          let fatSize := u32 (Boot32.sectorsPerFat bpb * BytesPerSector d) in
          let fatPrimaryStart := ReservedSectors d * BytesPerSector d in
          let fatSecondaryStart := fatPrimaryStart + fatSize in
          fsisBytes ← make 0 1 512;
          fsisBytes ← read_or (ReadAt b) "unable to read bytes for FSInformationSector: %w" fsisBytes
            (i64 (Boot32.fsInformationSector bpb * BytesPerSector d + start));
          f ← or_else (Wrapf "error reading FileSystem Information Sector: %w") (Boot32.fsInformationSectorFromBytes fsisBytes);
          partitionTableBytes ← make 0 1 fatSize;
          r ← ReadAt b partitionTableBytes (i64 (fatPrimaryStart + start));
          fat ← Fat32.tableFromBytes (r_buf r);
          r ← ReadAt b (r_buf r) (i64 (fatSecondaryStart + start));
          fat2 ← Fat32.tableFromBytes (r_buf r);
          if negb (Fat32.equal (Some fat) (Some fat2)) then Err (Errorf "fat tables did not match")
          else
            mret (volume32 b fat f bpb (SectorsPerCluster d * BytesPerSector d) size start fatPrimaryStart fatSize)
    end.
End fat32.

(** ** The layout *)

#[local] Ltac Zify.zify_post_hook ::= Z.div_mod_to_equations.

Lemma sectorsPerCluster32_cases size bs : bs = 512 \/ bs = 4096 -> let spc := sectorsPerCluster32 size bs in
  (bs * spc = 512 /\ size <= 260 * MB) \/ (bs * spc = 4096 /\ size <= 8 * GB) \/ (bs * spc = 8192 /\ size <= 16 * GB) \/
  (bs * spc = 16384 /\ size <= 32 * GB) \/ bs * spc = 32768.
Proof.
  intros Hbs. unfold sectorsPerCluster32, clusterBytes, GB, MB, KB. cbv zeta.
  destruct (Z.leb_spec size (260 * (1024 * 1024))); [|destruct (Z.leb_spec size (8 * (1024 * (1024 * 1024)))); [|
    destruct (Z.leb_spec size (16 * (1024 * (1024 * 1024)))); [|destruct (Z.leb_spec size (32 * (1024 * (1024 * 1024))))]]];
    destruct Hbs as [-> | ->]; cbv -[Z.le]; lia.
Qed.

(** The number of sectors of a table, where no conversion of the formula truncates. *)
Lemma sectorsPerFat32_eq size bs : bs = 512 \/ bs = 4096 -> 32 * bs <= size <= 256 * GB ->
  let spc := sectorsPerCluster32 size bs in let total := u32 (Z.quot size bs) in
  1 <= spc <= 64 /\ total = size / bs /\ 32 <= total <= 2 ^ 29 /\
  sectorsPerFat32 total bs spc = (4 * (total - 32) + (bs * spc + 8) - 1) / (bs * spc + 8) /\
  0 <= sectorsPerFat32 total bs spc < 2 ^ 16.
Proof.
  intros Hbs Hs spc total. pose proof (sectorsPerCluster32_cases size bs Hbs) as Hspc. cbv zeta in Hspc. fold spc in Hspc. clearbody spc.
  unfold GB, MB, KB in *. assert (total = size / bs) as Et by (unfold total; rewrite Z.quot_div_nonneg, wrap_u_id by lia; done).
  assert (1 <= spc <= 64) as Hspc' by lia. rewrite Et. clear Et total. set (total := size / bs).
  assert (32 <= total /\ total * bs <= size) as [Ht1 Ht2] by (unfold total; split; [apply Z.div_le_lower_bound; lia|rewrite Z.mul_comm; apply Z.mul_div_le; lia]).
  clearbody total. assert (total * 512 <= size) by lia.
  assert (sectorsPerFat32 total bs spc = u16 ((4 * (total - 32) + (bs * spc + 8) - 1) / (bs * spc + 8))) as ->.
  { unfold sectorsPerFat32, reservedSectors32. set (P := bs * spc) in *. assert (512 <= P <= 32768) by lia.
    rewrite (wrap_u_id 32 bs) by lia. fold P. rewrite (wrap_u_id 32 P), (wrap_u_id 32 (P + 8)), (wrap_u_id 32 (total - 32)), (wrap_u_id 32 (4 * _)) by lia.
    rewrite (wrap_u_id 32 (4 * _ + _)), (wrap_u_id 32 (_ - 1)) by lia. done. }
  set (P := bs * spc) in *. assert (0 <= (4 * (total - 32) + (P + 8) - 1) / (P + 8) < 2 ^ 16) as Hq.
  { split; [apply Z.div_pos; lia|apply Z.div_lt_upper_bound; [lia|]]. clearbody P. clear - H Hspc Hs. lia. }
  rewrite (wrap_u_id 16) by done. split_and!; try done; try lia.
Qed.

(** The sectors of a table, and those that are left for data. *)
Definition tableSectors32 (size bs : Z) : Z := sectorsPerFat32 (u32 (Z.quot size bs)) bs (sectorsPerCluster32 size bs).
Definition dataSectors32 (size bs : Z) : Z := u32 (Z.quot size bs) - reservedSectors32 - 2 * tableSectors32 size bs.

Lemma table_sectors size bs : bs = 512 \/ bs = 4096 -> 32 * bs <= size <= 256 * GB ->
  1 <= sectorsPerCluster32 size bs <= 64 /\ u32 (Z.quot size bs) = size / bs /\ 32 <= u32 (Z.quot size bs) <= 2 ^ 29 /\
  tableSectors32 size bs = (4 * (u32 (Z.quot size bs) - 32) + (bs * sectorsPerCluster32 size bs + 8) - 1) / (bs * sectorsPerCluster32 size bs + 8) /\
  0 <= tableSectors32 size bs < 2 ^ 16.
Proof. unfold tableSectors32. exact (sectorsPerFat32_eq size bs). Qed.

(** The layout from its parts: [n] clusters in [d] sectors. *)
Lemma layout_parts bs spc total spf size : bs = 512 \/ bs = 4096 -> 1 <= spc <= 64 -> total = size / bs ->
  spf = (4 * (total - 32) + (bs * spc + 8) - 1) / (bs * spc + 8) -> let d := total - 32 - 2 * spf in 0 < d -> 0 <= spf ->
  let n := d / spc in
  1 <= spf /\ (32 + 2 * spf) * bs + n * (spc * bs) <= size < (32 + 2 * spf) * bs + (n + 1) * (spc * bs) + bs /\ n <= spf * bs / 4.
Proof.
  intros Hbs Hspc Ht Hf d Hd Hfr n.
  assert (total * bs <= size < total * bs + bs) as Hts.
  { rewrite Ht. pose proof (Z.mul_div_le size bs). pose proof (Z.mul_succ_div_gt size bs). lia. }
  assert (n * spc <= d < n * spc + spc) as Hn.
  { unfold n. pose proof (Z.mul_div_le d spc). pose proof (Z.mul_succ_div_gt d spc). lia. }
  assert (4 * (total - 32) <= spf * (bs * spc + 8)) as Hcov.
  { rewrite Hf. set (P := bs * spc + 8). assert (0 < P) by (unfold P; nia). pose proof (Z.mul_succ_div_gt (4 * (total - 32) + P - 1) P). nia. }
  clearbody n. unfold d in *. clear d Hf Ht. assert (1 <= spf) by nia. split; [done|]. split; [nia|].
  apply Z.div_le_lower_bound; [lia|]. assert (4 * n * spc <= spf * bs * spc) by nia. nia.
Qed.

Lemma layout32_bounds size bs : bs = 512 \/ bs = 4096 -> 32 * bs <= size <= 256 * GB -> 0 < dataSectors32 size bs ->
  1 <= tableSectors32 size bs /\ dataSectors32 size bs / sectorsPerCluster32 size bs <= tableSectors32 size bs * bs / 4 /\
  (32 + 2 * tableSectors32 size bs) * bs + dataSectors32 size bs / sectorsPerCluster32 size bs * (sectorsPerCluster32 size bs * bs) <= size <
  (32 + 2 * tableSectors32 size bs) * bs + (dataSectors32 size bs / sectorsPerCluster32 size bs + 1) * (sectorsPerCluster32 size bs * bs) + bs.
Proof.
  intros Hbs Hs Hd. destruct (table_sectors size bs Hbs Hs) as (Hspc & Ht & _ & Hf & Hfr).
  destruct (layout_parts bs _ _ _ size Hbs Hspc Ht Hf Hd (proj1 Hfr)) as (H1 & H2 & H3). split; [exact H1|]. split; [exact H3|exact H2].
Qed.
