(* ===== verification/Fat32Format.v ===== *)
(** * Fat32Format: a FAT32 volume that is made is opened again
    The boot sector and the information sector as fat32.go writes and reads them, the
    effect of its hooks and of the steps of [Create] on the device, and that [Read] opens
    what [Create] made. *)
From S2P Require Import Prelude Bytes ReaderAt Text GoTime FatBoot FatTable Storage FatChain FatData FatDirent FatDir FatFs FatVolume FatFormat Fat32Fs.

(** ** The boot sector as bytes *)

Definition dos71_bytes (d : Boot32.dos71EBPB) : list Z :=
  dos331_bytes (Boot32.dos331 d) ++ put_le 4 (Boot32.sectorsPerFat d) ++ put_le 2 (Boot32.mirrorFlags d) ++ put_le 2 (Boot32.version d) ++
  put_le 4 (Boot32.rootDirectoryCluster d) ++ put_le 2 (Boot32.fsInformationSector d) ++ put_le 2 (Boot32.backupBootSector d) ++
  Boot32.bootFileName d ++ [Boot32.driveNumber d; Boot32.reservedFlags d; Boot32.longDos71EBPB] ++ put_be 4 (Boot32.volumeSerialNumber d) ++
  Boot32.volumeLabel d ++ Boot32.fileSystemType d.

Definition dos71_fits (d : Boot32.dos71EBPB) : Prop :=
  dos331_fits (Boot32.dos331 d) /\ word 32 (Boot32.sectorsPerFat d) /\ word 16 (Boot32.mirrorFlags d) /\ Boot32.version d = 0 /\
  word 32 (Boot32.rootDirectoryCluster d) /\ word 16 (Boot32.fsInformationSector d) /\ word 16 (Boot32.backupBootSector d) /\
  (len (Boot32.bootFileName d) = 12 /\ bytes_ok (Boot32.bootFileName d)) /\ word 8 (Boot32.driveNumber d) /\ word 8 (Boot32.reservedFlags d) /\
  Boot32.extendedBootSignature d = Boot32.longDos71EBPB /\ word 32 (Boot32.volumeSerialNumber d) /\
  (len (Boot32.volumeLabel d) = 11 /\ ascii_ok (Boot32.volumeLabel d)) /\ (len (Boot32.fileSystemType d) = 8 /\ ascii_ok (Boot32.fileSystemType d)).

Lemma len_put_be4 v : exists a b c d, put_be 4 v = [a; b; c; d].
Proof. by repeat eexists. Qed.

Lemma BE_word x : word 32 x -> BE (put_be 4 x) = x.
Proof. intros Hx. rewrite BE_put_be. by apply Z.mod_small. Qed.

Lemma label_at_full b lo hi max s e1 e2 : hi - lo = len s -> len s <= max -> ascii_ok s -> 0 <= lo -> hi <= len b ->
  Boot32.label_at b lo hi max s e1 e2 = Ret (patch b lo s).
Proof.
  intros Hl Hm Hs Hlo Hhi. pose proof (len_nonneg s). rewrite label_at_ok by (lia || (unfold single_byte; by rewrite runes_ascii)).
  do 2 f_equal. rewrite Hl. by apply take_pad.
Qed.

Lemma dos71_readback d : dos71_fits d -> Boot32.toBytes d = Ret (dos71_bytes d) /\ len (dos71_bytes d) = 79 /\
  exists d', Boot32.dos71EBPBFromBytes (dos71_bytes d) = Ret (d', 79) /\ Boot32.dos331 d' = Boot32.dos331 d /\
    Boot32.sectorsPerFat d' = Boot32.sectorsPerFat d /\ Boot32.fsInformationSector d' = Boot32.fsInformationSector d.
Proof.
  destruct d as [d331 spf mir ver root info backup name drv fl sig serial label fstype].
  intros (Hd & H1 & H2 & H3 & H4 & H5 & H6 & [H7 H7'] & H8 & H9 & H10 & H11 & [H12 H12'] & [H13 H13']).
  cbn [Boot32.dos331 Boot32.sectorsPerFat Boot32.mirrorFlags Boot32.version Boot32.rootDirectoryCluster Boot32.fsInformationSector
    Boot32.backupBootSector Boot32.bootFileName Boot32.driveNumber Boot32.reservedFlags Boot32.extendedBootSignature Boot32.volumeSerialNumber
    Boot32.volumeLabel Boot32.fileSystemType] in *. subst sig ver.
  destruct (dos331_readback _ Hd) as [Ed Ep]. split.
  { unfold Boot32.toBytes. cbn [Boot32.extendedBootSignature Boot32.volumeLabel Boot32.fileSystemType Boot32.dos331].
    change (Boot32.longDos71EBPB =? Boot32.shortDos71EBPB) with false. change (Boot32.longDos71EBPB =? Boot32.longDos71EBPB) with true. cbv iota.
    rewrite make_ok by (unfold maxAlloc; lia). bind_ret.
    rewrite label_at_full by (rewrite ?len_replicate; done || lia). bind_ret.
    rewrite label_at_full by (done || lia || (rewrite patch_len; rewrite ?len_replicate; lia)). bind_ret. rewrite Ed.
    clear - H7 H12 H13. split_list label H12. split_list fstype H13. split_list name H7. reflexivity. }
  clear H12' H13'. split_list label H12. split_list fstype H13. split_list name H7. split; [reflexivity|].
  unfold Boot32.dos71EBPBFromBytes. set (b := dos71_bytes _). assert (len b = 79) as Hl by done.
  rewrite Hl. change (79 =? 60) with false. change (79 =? 79) with true. cbn [negb andb].
  rewrite (slice_ok b 0 25) by lia. bind_ret. change (b.[0, 25]) with (dos331_bytes d331). rewrite Ep. cbn [catch]. bind_ret.
  rewrite !get_word_ok by lia. bind_ret. change (b.[25, 29]) with (put_le 4 spf). change (b.[29, 31]) with (put_le 2 mir).
  change (b.[31, 33]) with (put_le 2 0). rewrite (word_mod 4 spf), (word_mod 2 mir), (word_mod 2 0) by done. change (0 =? 0) with true. cbn [negb].
  change (b.[33, 37]) with (put_le 4 root). change (b.[37, 39]) with (put_le 2 info). change (b.[39, 41]) with (put_le 2 backup).
  rewrite (word_mod 4 root), (word_mod 2 info), (word_mod 2 backup) by done. rewrite (slice_ok b 41 53) by lia. bind_ret.
  change (index b 53) with (Ret drv). change (index b 54) with (Ret fl). change (index b 55) with (Ret Boot32.longDos71EBPB). bind_ret.
  rewrite !slice_ok by lia. bind_ret.
  eexists. split; [reflexivity|]. done.
Qed.

Definition boot32_bytes (bpb : Boot32.dos71EBPB) (bs : Z) : list Z :=
  ([0xeb; 0x58; 0x90] ++ lit "godiskfs" ++ dos71_bytes bpb ++ replicate 420 0 ++ [0x55; 0xaa]) ++ replicate (Z.to_nat (bs - 512)) 0.

Lemma dos71_bytes_ok d : dos71_fits d -> bytes_ok (dos71_bytes d).
Proof.
  intros (Hd & H1 & H2 & H3 & H4 & H5 & H6 & [H7 H7'] & H8 & H9 & H10 & H11 & [H12 H12'] & [H13 H13']).
  destruct Hd as [(?&?&?&?&?&?&?&?&?&?) ?]. unfold dos71_bytes, dos331_bytes, dos20_bytes. unfold word in *.
  repeat apply Forall_app_2; first [apply put_le_bytes | exact H7' | by apply ascii_bytes | apply Forall_rev, put_le_bytes |
    repeat (constructor; [unfold is_byte, Boot32.longDos71EBPB; lia|]); constructor].
  all: first [apply (wrap_u_range 8); lia|constructor].
Qed.

Lemma boot32_written bpb bs : bs = 512 \/ bs = 4096 -> dos71_fits bpb ->
  Boot32.msDosBootSector_toBytes (boot32 bpb) bs = Ret (boot32_bytes bpb bs) /\ len (boot32_bytes bpb bs) = bs /\ bytes_ok (boot32_bytes bpb bs).
Proof.
  intros Hbs Hf. destruct (dos71_readback bpb Hf) as (Hw & Hl & _). split_and!.
  - unfold Boot32.msDosBootSector_toBytes. cbn [boot32 Boot32.biosParameterBlock Boot32.jumpInstruction Boot32.oemName Boot32.bootCode].
    rewrite Hw. cbn [catch]. clear Hw Hf. unfold boot32_bytes. set (db := dos71_bytes bpb) in *. clearbody db.
    split_list db Hl. destruct Hbs as [-> | ->]; reflexivity.
  - unfold boot32_bytes. rewrite !len_app, Hl, !len_replicate. change (len (lit "godiskfs")) with 8. change (len [235; 88; 144]) with 3. change (len [85; 170]) with 2. lia.
  - unfold boot32_bytes. pose proof (dos71_bytes_ok bpb Hf). repeat match goal with |- Forall _ (_ ++ _) => apply Forall_app_2 end;
      first [done|apply bytes_ok_zeros|apply bytes_okb_ok; vm_compute; reflexivity].
Qed.

(** The first 512 bytes are what [Read] parses. *)
Lemma boot32_parsed bpb bs : bs = 512 \/ bs = 4096 -> dos71_fits bpb -> exists m, Boot32.msDosBootSectorFromBytes (boot32_bytes bpb bs).[0, 512] = Ret m /\
  Boot32.dos331 (Boot32.biosParameterBlock m) = Boot32.dos331 bpb /\ Boot32.sectorsPerFat (Boot32.biosParameterBlock m) = Boot32.sectorsPerFat bpb /\
  Boot32.fsInformationSector (Boot32.biosParameterBlock m) = Boot32.fsInformationSector bpb.
Proof.
  intros Hbs Hf. destruct (dos71_readback bpb Hf) as (_ & Hl & d' & Hp & Hd).
  unfold boot32_bytes. set (first := [235; 88; 144] ++ _). assert (len first = 512) as Hlf.
  { unfold first. rewrite !len_app, Hl, !len_replicate. reflexivity. }
  rewrite sub_app_l by done. unfold Boot32.msDosBootSectorFromBytes. rewrite Hlf. change (512 =? SectorSize512) with true. cbn [negb].
  rewrite !slice_ok by lia. bind_ret. assert (first.[11, 90] = dos71_bytes bpb) as ->.
  { unfold first. rewrite (assoc app [235; 88; 144]). apply sub_mid; [reflexivity|by rewrite Hl]. }
  rewrite Hp. cbn [catch]. bind_ret. change (SectorSize512 - 2) with 510. rewrite slice_ok by lia. bind_ret. rewrite get_word_ok by lia. bind_ret.
  assert (first.[510, 512] = [0x55; 0xaa]) as ->.
  { unfold first. rewrite (assoc app [235; 88; 144]), (assoc app (_ ++ _) (dos71_bytes bpb)), (assoc app (_ ++ _) (replicate 420 0)).
    rewrite <-(app_nil_r [85; 170]) at 1. apply sub_mid; [rewrite !len_app, Hl, len_replicate; reflexivity|reflexivity]. }
  change (BE [85; 170] =? msDosBootSectorSignature) with true. cbn [negb]. eexists. split; [reflexivity|]. exact Hd.
Qed.

(** ** The hooks *)

Section steps32.
Context {D : Type} `{Hst : Storage D} {repr : D -> Z -> (Z -> Z) -> Prop} {Hdev : WritableDevice D repr} `{UnicodeTables} `{AsciiSetLaws}.
Context (fuel : nat) (now : time) (spare : Z -> Z).
Notation FS := (FileSystem Fat32.table D).

Lemma write_whole_ok d dsize c b off f e : repr d dsize c -> bytes_ok b -> 0 <= off -> off + len b <= dsize ->
  exists d', write_whole d b off f e = Ret (d', None) /\ repr d' dsize (overwrite c off b).
Proof.
  intros Hr Hb Ho Hf. destruct (wd_write _ _ _ b off Hr Hb Ho Hf) as (d' & Hw & Hd). exists d'. split; [|done].
  unfold write_whole. rewrite Hw. cbn [mbind go_bind]. by rewrite Z.eqb_refl.
Qed.

(** What the boot sector's hook, and the information sector's, leave on the device. *)
Definition with_boot32 (c : Z -> Z) (start bs : Z) (raw : list Z) : Z -> Z := overwrite (overwrite c start raw) (6 * bs + start) raw.
Definition with_fsis (c : Z -> Z) (start bs : Z) (raw : list Z) : Z -> Z := overwrite (overwrite c (bs + start) raw) (7 * bs + start) raw.

(** A parameter block as [Create] makes it: sectors of [bs] bytes, copies at sector 6. *)
Record block32 (bpb : Boot32.dos71EBPB) (bs : Z) : Prop := {
  b32_size : bs = 512 \/ bs = 4096;
  b32_bytes : sector_bytes bpb = bs;
  b32_info : Boot32.fsInformationSector bpb = 1;
  b32_backup : Boot32.backupBootSector bpb = 6
}.

Lemma writeBootSector_ok bpb bs start d dsize c : block32 bpb bs -> dos71_fits bpb -> repr d dsize c -> 0 <= start -> start + 32 * bs <= dsize ->
  exists d', writeBootSector bpb start d = Ret (d', None) /\ repr d' dsize (with_boot32 c start bs (boot32_bytes bpb bs)).
Proof.
  intros [Hbs Hb _ Hbk] Hf Hr Hs Hfit. destruct (boot32_written bpb bs Hbs Hf) as (Hw & Hl & Hok). pose proof (wd_size _ _ _ Hr).
  unfold writeBootSector. rewrite (wd_writable _ _ _ Hr), Hb, Hw, Hbk. cbn [catch mbind go_bind].
  destruct (write_whole_ok d dsize c (boot32_bytes bpb bs) start (Wrapf "error writing MS-DOS Boot Sector to disk: %w")
    (Errorf "wrote %d bytes of MS-DOS Boot Sector instead of expected %d") Hr Hok Hs) as (d1 & -> & Hr1); [lia|]. cbn [mbind go_bind].
  change (0 <? 6) with true. cbv iota. rewrite (i64_id (6 * bs)), i64_id by lia.
  by apply write_whole_ok; [| |lia|lia].
Qed.

Lemma writeFsis_ok f bpb bs start d dsize c : block32 bpb bs -> word 32 (Boot32.freeDataClustersCount f) -> word 32 (Boot32.lastAllocatedCluster f) ->
  repr d dsize c -> 0 <= start -> start + 32 * bs <= dsize ->
  exists d' raw, writeFsis f bpb start d = Ret (d', None) /\ len raw = bs /\ Boot32.fsInformationSectorFromBytes raw.[0, 512] = Ret f /\
    repr d' dsize (with_fsis c start bs raw).
Proof.
  intros [Hbs Hb Hi Hbk] Hw1 Hw2 Hr Hs Hfit. destruct (fsis_roundtrip f bs Hw1 Hw2) as (raw & Hw & Hl & Hok & Hp); [unfold maxAlloc; lia|].
  pose proof (wd_size _ _ _ Hr). unfold writeFsis. rewrite Hb, Hw, Hi, Hbk. cbn [catch mbind go_bind]. rewrite (wd_writable _ _ _ Hr).
  rewrite Z.mul_1_l, (i64_id bs), (i64_id (bs + start)) by lia.
  destruct (wd_write _ _ _ raw (bs + start) Hr Hok) as (d1 & -> & Hr1); [lia|lia|]. cbn [mbind go_bind].
  change (0 <? 6) with true. change (u16 (6 + 1)) with 7. cbv iota. rewrite (i64_id (7 * bs)), i64_id by lia.
  destruct (wd_write _ _ _ raw (7 * bs + start) Hr1 Hok) as (d2 & -> & Hr2); [lia|lia|]. cbn [mbind go_bind].
  by exists d2, raw.
Qed.

(** ** A volume in place *)

(** [spf] sectors of table, clusters of [bpc] bytes. *)
Record placed32 (bs spf bpc size start dsize : Z) : Prop := {
  p32_bs : bs = 512 \/ bs = 4096;
  p32_spf : 1 <= spf < 2 ^ 16;
  p32_bpc : 512 <= bpc <= 2 ^ 16;
  p32_start : 0 <= start;
  p32_room : (32 + 2 * spf) * bs + bpc <= size;
  p32_fit : start + size <= dsize
}.

(** The inherited part of a volume, with the hooks in place. *)
Definition vol32 (f : Boot32.FSInformationSector) (bs spf bpc size start : Z) (d : D) (tbl : Fat32.table) (bpb : Boot32.dos71EBPB) : FS :=
  mkFS None tbl ((32 + 2 * spf) * bs) bpc size start d 0 0 (32 * bs) ((32 + spf) * bs)
    (Some (writeBootSector bpb start)) (Some (writeFsis f bpb start)).

Lemma volume32_inherited f bs spf bpc size start dsize d tbl bpb : placed32 bs spf bpc size start dsize ->
  inherited (volume32 d tbl f bpb bpc size start (32 * bs) (spf * bs)) = vol32 f bs spf bpc size start d tbl bpb.
Proof.
  intros [Hbs Hspf _ _ _ _]. unfold volume32, inherited, vol32, NewFileSystem.
  cbn [base bpbFat32 fsis FatChain.bootSector table dataStart bytesPerCluster FatChain.size FatChain.start backend rootDirOffset rootDirMaxEntries fatPrimaryStart fatSecondaryStart fmap option_fmap option_map].
  rewrite (wrap_u_id 64 (_ + _)), (wrap_u_id 32 (32 * bs + _)), (wrap_u_id 32 (_ + _)) by nia.
  f_equal; lia.
Qed.

Context (f : Boot32.FSInformationSector) (bs spf bpc size start dsize : Z) (Hpl : placed32 bs spf bpc size start dsize).
Context (Hfree : word 32 (Boot32.freeDataClustersCount f)) (Hlast : word 32 (Boot32.lastAllocatedCluster f)).
Notation vol := (vol32 f bs spf bpc size start).

(** Where the root directory's cluster starts. *)
Notation root_at := (start + (32 + 2 * spf) * bs).

Lemma call_boot32 d tbl bpb c : block32 bpb bs -> dos71_fits bpb -> repr d dsize c ->
  exists d', calling WriteBootSector (vol d tbl bpb) = Ret (vol d' tbl bpb, inl tt) /\
    repr d' dsize (with_boot32 c start bs (boot32_bytes bpb bs)).
Proof.
  intros Hb Hf Hr. destruct Hpl as [Hbs Hspf Hbpc Hs Hroom Hfit].
  destruct (writeBootSector_ok bpb bs start d dsize c Hb Hf Hr Hs) as (d' & Hw & Hd); [nia|].
  exists d'. split; [|done]. unfold calling, WriteBootSector. cbn [vol32 WriteBootSectorFn backend]. rewrite Hw. reflexivity.
Qed.

(** Both tables and both information sectors. *)
Record tables_written (c c' : Z -> Z) (tb : list Z) : Prop := {
  tw_first : span c' (32 * bs + start) (spf * bs) = tb;
  tw_second : span c' ((32 + spf) * bs + start) (spf * bs) = tb;
  tw_info : Boot32.fsInformationSectorFromBytes (span c' (bs + start) 512) = Ret f;
  tw_outside : forall x, ~ (bs + start <= x < 2 * bs + start) -> ~ (7 * bs + start <= x < 8 * bs + start) ->
    ~ (32 * bs + start <= x < root_at) -> c' x = c x
}.

Lemma call_tables d tbl bpb c : block32 bpb bs -> Fat32.ok tbl -> TableSize tbl = spf * bs -> repr d dsize c ->
  exists tb d' c', Bytes tbl = Ret tb /\ calling WriteFat (vol d tbl bpb) = Ret (vol d' tbl bpb, inl tt) /\ repr d' dsize c' /\ tables_written c c' tb.
Proof.
  intros Hb Hok Hts Hr. destruct Hpl as [Hbs Hspf Hbpc Hs Hroom Hfit].
  destruct (default_fat_device (ok := Fat32.ok) (repr := repr) (vol d tbl bpb) dsize c Hok Hr) as (tb & d1 & c1 & Htb & Hl & Hw & Hr1 & H1' & H2' & Ho);
    cbn [vol32 fatPrimaryStart fatSecondaryStart FatChain.start table] in *; rewrite ?Hts; [nia..|]. rewrite Hl, Hts in *.
  destruct (writeFsis_ok f bpb bs start d1 dsize c1 Hb Hfree Hlast Hr1 Hs) as (d2 & raw & Hw2 & Hlr & Hp & Hr2); [nia|].
  exists tb, d2, (with_fsis c1 start bs raw). split; [done|]. split; [|split; [done|]].
  { unfold calling, WriteFat. rewrite Hw. cbn [mbind go_bind AfterWriteFAT vol32 with_backend backend]. rewrite Hw2. reflexivity. }
  split.
  - rewrite <-H1'. apply span_same. intros i Hi. unfold with_fsis. rewrite !overwrite_out by nia. done.
  - rewrite <-H2'. apply span_same. intros i Hi. unfold with_fsis. rewrite !overwrite_out by nia. done.
  - rewrite <-Hp. f_equal. pose proof (overwrite_span c1 (bs + start) raw) as E. rewrite Hlr in E.
    assert (raw.[0, 512] = span (overwrite c1 (bs + start) raw) (bs + start) 512) as ->.
    { rewrite <-E at 1. rewrite span_sub by lia. f_equal; lia. }
    apply span_same. intros i Hi. unfold with_fsis. rewrite overwrite_out by lia. done.
  - intros x Hx1 Hx2 Hx3. unfold with_fsis. rewrite !overwrite_out by lia. apply Ho; lia.
Qed.

Lemma call_zero d tbl bpb c : repr d dsize c -> exists d', zero_root_cluster (vol d tbl bpb) = Ret (vol d' tbl bpb, inl tt) /\
  repr d' dsize (overwrite c root_at (replicate (Z.to_nat bpc) 0)).
Proof.
  intros Hr. pose proof (wd_size _ _ _ Hr). destruct Hpl as [Hbs Hspf Hbpc Hs Hroom Hfit].
  assert (len (replicate (Z.to_nat bpc) 0) = bpc) as Hl by (rewrite len_replicate; lia).
  destruct (wd_write _ _ _ (replicate (Z.to_nat bpc) 0) root_at Hr) as (d' & Hw & Hd); [apply bytes_ok_zeros|nia|nia|].
  exists d'. split; [|done]. unfold zero_root_cluster. erewrite fsm_bind_ok by (eapply writable_ok; exact Hr).
  cbn [vol32 bytesPerCluster FatChain.start dataStart].
  erewrite fsm_bind_ok by (apply pure_ok, make_ok; unfold maxAlloc; lia). rewrite i64_id by nia.
  erewrite fsm_bind_ok by (apply wrapping_ok; unfold write_at; cbn [vol32 backend]; rewrite Hw; reflexivity).
  cbv beta. rewrite Hl, Z.eqb_refl. reflexivity.
Qed.

(** ** The root directory *)

(** A table in which the root directory has one cluster. *)
Record rooted (tbl : Fat32.table) : Prop := {
  rt_ok : Fat32.ok tbl;
  rt_reserved : reserved tbl;
  rt_root : RootDirCluster tbl = 2;
  rt_end : ClusterValue tbl 2 = Ret (EOCMarker tbl);
  rt_fuel : (Z.to_nat (MaxCluster tbl) < fuel)%nat
}.

Lemma root_base d tbl bpb : cluster_base (vol d tbl bpb) [2] 0 = root_at.
Proof. unfold cluster_base. change (nth_cluster [2] 0) with 2. cbn [vol32 FatChain.start dataStart bytesPerCluster]. lia. Qed.

Lemma root_in_volume d tbl bpb c : repr d dsize c -> in_volume (vol d tbl bpb) dsize [2].
Proof.
  intros Hr. pose proof (wd_size _ _ _ Hr). destruct Hpl as [Hbs Hspf Hbpc Hs Hroom Hfit].
  split; cbn [vol32 bytesPerCluster FatChain.start dataStart]; [lia|lia|lia|nia|]. constructor; [|done]. split; [lia|]. nia.
Qed.

Lemma root_chain_at d tbl bpb : rooted tbl -> chain_at (ok := Fat32.ok) fuel (vol d tbl bpb) 2 [2].
Proof.
  intros [Hok Hres _ Hend Hf]. pose proof (fat_max tbl Hok). destruct (fat_eoc_marker tbl Hok) as [He _].
  split; cbn [vol32 table]; [done|done|lia|]. exists []. split; [done|]. split; [|by constructor]. by apply (chain_end tbl 2 (EOCMarker tbl)).
Qed.

Definition root32 : Directory := mkDir (new_entry [] [] [] false true 0 0 0 2 0 false) [].

Lemma root_dir32 d tbl bpb : rooted tbl -> root_dir (vol d tbl bpb) = root32.
Proof. intros [_ _ Hroot _ _]. unfold root_dir. cbn [vol32 rootDirMaxEntries table Z.eqb]. by rewrite Hroot. Qed.

Lemma read_root32 d tbl bpb c es b n : rooted tbl -> repr d dsize c -> Forall entry_ok es -> concat_entries es = Ret b ->
  span c root_at bpc = b ++ replicate n 0 -> readDirectory fuel (vol d tbl bpb) root32 = Ret (set_entries root32 (map stored es)).
Proof using All.
  intros Ht Hr Hes Hb Hsp. pose proof (root_chain_at d tbl bpb Ht) as Hch. pose proof (root_in_volume d tbl bpb c Hr) as Hv.
  destruct (chain_at_list _ _ _ _ Hch) as (Hcl & _). destruct Hpl as [_ _ Hbpc _ _ _].
  unfold readDirectory. change (isRootCluster _ _) with false. cbv iota. change (clusterLocation (self root32)) with 2. rewrite Hcl.
  cbn [catch mbind go_bind]. change (bytesPerCluster (vol d tbl bpb)) with bpc. change (len [2]) with 1. rewrite Z.mul_1_l, i64_id by lia.
  rewrite make_ok by (unfold maxAlloc; lia). cbn [mbind go_bind].
  rewrite (read_clusters_ok (vol d tbl bpb) dsize [2] c Hv Hr) with (i := 0) by done. cbn [mbind go_bind].
  change (bytesPerCluster (vol d tbl bpb)) with bpc. change (len [2]) with 1. rewrite Z.mul_1_l.
  pose proof (cluster_span (vol d tbl bpb) [2] c 0 0 bpc) as Hcs. change (bytesPerCluster (vol d tbl bpb)) with bpc in Hcs.
  rewrite !Z.add_0_r in Hcs. rewrite <-Hcs by lia.
  replace (cluster_base (vol d tbl bpb) [2] 0) with root_at by (symmetry; apply root_base).
  rewrite Hsp. by apply parse_dir.
Qed.

(** What is written to a chain depends on the bytes of the entries only. *)
Lemma write_chain_congr (fs : FS) self es es' : 0 < bytesPerCluster fs <= maxAlloc -> isRootCluster fs (clusterLocation self) = false ->
  (exists b, concat_entries es' = Ret b) -> concat_entries es = concat_entries es' ->
  writeDirectoryEntries fuel spare (mkDir self es) fs = writeDirectoryEntries fuel spare (mkDir self es') fs.
Proof.
  intros Hn Hroot [b Hb] E. rewrite Hb in E. unfold writeDirectoryEntries. cbn [FatDir.self]. rewrite Hroot. unfold write_chain_dir.
  destruct (entriesToBytes_eq (mkDir self es) (bytesPerCluster fs) b E Hn) as [-> _].
  by destruct (entriesToBytes_eq (mkDir self es') (bytesPerCluster fs) b Hb Hn) as [-> _].
Qed.

Lemma label_root32 d tbl bpb c l : rooted tbl -> repr d dsize c -> span c root_at bpc = replicate (Z.to_nat bpc) 0 ->
  label_ok l -> len l = 11 -> pad_exact 11 l = l -> 0 <= spare bpc < 2 ^ 62 ->
  exists d' c', SetRootDirLabel fuel now spare l (vol d tbl bpb) = Ret (vol d' tbl bpb, inl tt) /\ repr d' dsize c' /\
    readDirectory fuel (vol d' tbl bpb) root32 = Ret (set_entries root32 [stored (label_trimmed now l)]) /\
    forall x, ~ (root_at <= x < root_at + bpc) -> c' x = c x.
Proof using All.
  intros Ht Hr Hz Hl Hlen Hpad Hspare. destruct (label_entries now l Hl Hlen) as [Ec Hok].
  destruct (concat_run _ Hok) as (b & k & Hb & _). pose proof (label_bytes now l b Hl Hlen Hb) as Hb32.
  pose proof Hpl as [_ _ Hbpc _ _ _].
  assert (len b + padding (len b) bpc = bpc) as Hused.
  { unfold padding. rewrite Hb32, Z.mod_small by lia. change (32 =? 0) with false. cbv iota. lia. }
  destruct (chain_dir_saved (ok := Fat32.ok) (repr := repr) fuel spare (vol d tbl bpb) dsize c (mkDir (self root32) [label_trimmed now l]) b [2] Hok Hb Hr
    eq_refl (root_chain_at d tbl bpb Ht) (root_in_volume d tbl bpb c Hr)) as (d' & c' & Hw & Hd & Hrd & Hout).
  { change (1 * bpc <= maxAlloc). unfold maxAlloc. lia. }
  { change (len b + padding (len b) bpc <= 1 * bpc <= len b + padding (len b) bpc + spare (len b + padding (len b) bpc)). rewrite Hused. lia. }
  { change (spare (len b + padding (len b) bpc) < 2 ^ 62). rewrite Hused. exact (proj2 Hspare). }
  exists d', c'. split_and!; [|done|exact Hrd|].
  - unfold SetRootDirLabel. rewrite Hpad.
    erewrite fsm_bind_ok.
    2:{ apply wrapping_ok, read_root. rewrite (root_dir32 d tbl bpb Ht). apply (read_root32 d tbl bpb c [] [] (Z.to_nat bpc)); done. }
    cbn [map set_entries entries last_label]. unfold mkLabel, createVolumeLabel.
    rewrite !slice_ok by lia. cbn [mbind go_bind mret go_ret].
    erewrite fsm_bind_ok by (erewrite fsm_bind_ok by (apply wrapping_ok, pure_ok; reflexivity); reflexivity).
    transitivity (writeDirectoryEntries fuel spare (mkDir (self root32) [label_trimmed now l]) (vol d tbl bpb)); [|exact Hw].
    apply (write_chain_congr (vol d tbl bpb) (self root32) [label_entry now l]);
      [change (bytesPerCluster (vol d tbl bpb)) with bpc; unfold maxAlloc; lia|done|by exists b|done].
  - intros x Hx. apply Hout. intros i Hi. change (len [2]) with 1 in Hi. assert (i = 0) as -> by lia.
    replace (cluster_base (vol d tbl bpb) [2] 0) with root_at by (symmetry; apply root_base).
    change (bytesPerCluster (vol d tbl bpb)) with bpc. lia.
Qed.

(** ** The label, and [Create] as a whole *)

Lemma with_label32_fits bpb l : dos71_fits bpb -> len l = 11 -> ascii_ok l -> dos71_fits (with_label32 bpb l).
Proof. intros (?&?&?&?&?&?&?&?&?&?&?&?&?&?) Hl Ha. unfold dos71_fits. cbn [with_label32 Boot32.dos331 Boot32.sectorsPerFat Boot32.mirrorFlags Boot32.version Boot32.rootDirectoryCluster Boot32.fsInformationSector
    Boot32.backupBootSector Boot32.bootFileName Boot32.driveNumber Boot32.reservedFlags Boot32.extendedBootSignature Boot32.volumeSerialNumber Boot32.volumeLabel Boot32.fileSystemType]. tauto. Qed.

Lemma with_label32_block bpb l : block32 bpb bs -> block32 (with_label32 bpb l) bs.
Proof. intros [? ? ? ?]. by split. Qed.

(** The places that a change of label may write to. *)
Definition label_places (x : Z) : Prop := start <= x < start + bs \/ 6 * bs + start <= x < 7 * bs + start \/ root_at <= x < root_at + bpc.

Lemma set_label32_ok d tbl bpb c s : rooted tbl -> block32 bpb bs -> dos71_fits bpb -> repr d dsize c ->
  span c root_at bpc = replicate (Z.to_nat bpc) 0 -> s = [] \/ label_ok s -> 0 <= spare bpc < 2 ^ 62 ->
  let bpb' := with_label32 bpb (the_label s) in
  exists d' c', SetLabel32 fuel now spare s (mkFS32 (vol d tbl bpb) f bpb) = Ret (mkFS32 (vol d' tbl bpb') f bpb', inl tt) /\ repr d' dsize c' /\
    readDirectory fuel (vol d' tbl bpb') root32 = Ret (set_entries root32 [stored (label_trimmed now (the_label s))]) /\
    span c' start 512 = (boot32_bytes bpb' bs).[0, 512] /\ forall x, ~ label_places x -> c' x = c x.
Proof using All.
  intros Ht Hb Hf Hr Hz Hlab Hsp bpb'. destruct (the_label_ok s Hlab) as (Hok & Hl & Hp).
  pose proof (with_label32_fits bpb _ Hf Hl (lb_ascii _ Hok)) as Hf'. fold bpb' in Hf'.
  pose proof (with_label32_block bpb (the_label s) Hb) as Hb'. fold bpb' in Hb'.
  destruct (call_boot32 d tbl bpb' c Hb' Hf' Hr) as (d1 & Hw & Hr1).
  destruct Hpl as [Hbs Hspf Hbpc Hs Hroom Hfit]. destruct (boot32_written bpb' bs Hbs Hf') as (_ & Hlr & _). set (raw := boot32_bytes bpb' bs) in *.
  destruct (label_root32 d1 tbl bpb' _ (the_label s) Ht Hr1) as (d2 & c2 & Hrun & Hr2 & Hrd & Hout); try done.
  { rewrite <-Hz. apply span_same. intros i Hi. unfold with_boot32. rewrite !overwrite_out by nia. done. }
  exists d2, c2. split_and!; [|done|exact Hrd| |].
  - change (SetLabel32 fuel now spare s (mkFS32 (vol d tbl bpb) f bpb)) with
      ('(b, r) ← (_ ← wrapping (Wrapf "failed to write the boot sector: %w") (calling WriteBootSector);
         SetRootDirLabel fuel now spare (the_label s)) (vol d tbl bpb'); mret (mkFS32 b f bpb', r)).
    erewrite fsm_bind_ok by (apply wrapping_ok; exact Hw). rewrite Hrun. reflexivity.
  - pose proof (overwrite_span c start raw) as E. rewrite Hlr in E. rewrite <-E. rewrite span_sub by lia. rewrite Z.add_0_r, Z.sub_0_r.
    apply span_same. intros i Hi. rewrite Hout by nia. unfold with_boot32. rewrite overwrite_out by lia. done.
  - intros x Hx. unfold label_places in Hx. rewrite Hout by tauto. unfold with_boot32. rewrite !overwrite_out by lia. done.
Qed.

(** The device after [Create]. *)
Record formatted32 (d : D) (c c' : Z -> Z) (tbl : Fat32.table) (bpb : Boot32.dos71EBPB) (label : gostring) : Prop := {
  f32_repr : repr d dsize c';
  f32_boot : span c' start 512 = (boot32_bytes bpb bs).[0, 512];
  f32_info : Boot32.fsInformationSectorFromBytes (span c' (bs + start) 512) = Ret f;
  f32_fat : Bytes tbl = Ret (span c' (32 * bs + start) (spf * bs));
  f32_copy : Bytes tbl = Ret (span c' ((32 + spf) * bs + start) (spf * bs));
  f32_root : readDirectory fuel (vol d tbl bpb) root32 = Ret (set_entries root32 [stored (label_trimmed now label)]);
  f32_outside : forall x, ~ (start <= x < start + size) -> c' x = c x
}.

(** What [Create] does once the layout is known. *)
Definition steps32 (fs : FileSystem32) (volumeLabel : gostring) : go (D * (FileSystem32 + error)) :=
  '(fs, r) ← run32 (_ ← wrapping (Wrapf "failed to write the boot sector: %w") (calling WriteBootSector);
                    _ ← wrapping (Wrapf "failed to write FAT: %w") (calling WriteFat);
                    zero_root_cluster) fs;
  match r with
  | inr e => mret (backend (base fs), inr e)
  | inl _ =>
      '(fs, r) ← SetLabel32 fuel now spare volumeLabel fs;
      mret (backend (base fs), match r with inr e => inr (Wrapf "failed to set volume label to '%s': %w" e) | inl _ => inl fs end)
  end.

Lemma steps32_ok d tbl bpb c s : rooted tbl -> TableSize tbl = spf * bs -> block32 bpb bs -> dos71_fits bpb -> repr d dsize c ->
  s = [] \/ label_ok s -> 0 <= spare bpc < 2 ^ 62 ->
  let bpb' := with_label32 bpb (the_label s) in
  exists d' c', steps32 (volume32 d tbl f bpb bpc size start (32 * bs) (spf * bs)) s = Ret (d', inl (mkFS32 (vol d' tbl bpb') f bpb')) /\
    formatted32 d' c c' tbl bpb' (the_label s).
Proof using All.
  intros Ht Hts Hb Hf Hr Hlab Hsp bpb'. pose proof Hpl as [Hbs Hspf Hbpc Hs Hroom Hfit].
  destruct (call_boot32 d tbl bpb c Hb Hf Hr) as (d1 & Hw1 & Hr1).
  destruct (call_tables d1 tbl bpb _ Hb (rt_ok _ Ht) Hts Hr1) as (tb & d2 & c2 & Htb & Hw2 & Hr2 & Htw).
  destruct (call_zero d2 tbl bpb c2 Hr2) as (d3 & Hw3 & Hr3). set (z := replicate (Z.to_nat bpc) 0) in *.
  assert (len z = bpc) as Hlz by (unfold z; rewrite len_replicate; lia).
  destruct (set_label32_ok d3 tbl bpb _ s Ht Hb Hf Hr3) as (d4 & c4 & Hw4 & Hr4 & Hrd & Hb4 & Ho4); [|done|done|].
  { fold z. rewrite <-Hlz. apply overwrite_span. }
  exists d4, c4. split.
  - unfold steps32, run32. rewrite (volume32_inherited f bs spf bpc size start dsize d tbl bpb Hpl).
    erewrite fsm_bind_ok by (apply wrapping_ok; exact Hw1). erewrite fsm_bind_ok by (apply wrapping_ok; exact Hw2). rewrite Hw3.
    cbn [mbind go_bind mret go_ret]. change (fsis _) with f. change (bpbFat32 _) with bpb. rewrite Hw4. reflexivity.
  - destruct Htw as [H1' H2' Hi Hout]. destruct (boot32_written bpb bs Hbs Hf) as (_ & Hlr & _).
    assert (forall x, ~ label_places x -> c4 x = c2 x) as Hc42.
    { intros x Hx. rewrite Ho4 by done. unfold label_places in Hx. apply overwrite_out. lia. }
    split; [done|done| | | |exact Hrd|].
    + rewrite <-Hi. f_equal. apply span_same. intros i Hx. apply Hc42. unfold label_places. nia.
    + rewrite Htb, <-H1'. f_equal. apply span_same. intros i Hx. symmetry. apply Hc42. unfold label_places. nia.
    + rewrite Htb, <-H2'. f_equal. apply span_same. intros i Hx. symmetry. apply Hc42. unfold label_places. nia.
    + intros x Hx. rewrite Hc42 by (unfold label_places; nia). rewrite Hout by nia. unfold with_boot32. rewrite !overwrite_out by nia. done.
Qed.

(** ** [Read] on the device *)

Lemma table_equal_refl (t : Fat32.table) : Fat32.equal (Some t) (Some t) = true.
Proof. unfold Fat32.equal. rewrite !Z.eqb_refl. by rewrite bool_decide_true. Qed.

Lemma open32_ok d c c' tbl tb t' bpb label : formatted32 d c c' tbl bpb label -> dos71_fits bpb -> block32 bpb bs ->
  ReservedSectors (dos20 (Boot32.dos331 bpb)) = 32 -> SectorsPerCluster (dos20 (Boot32.dos331 bpb)) * bs = bpc -> Boot32.sectorsPerFat bpb = spf ->
  size <= Fat32MaxSize -> Bytes tbl = Ret tb -> Fat32.tableFromBytes tb = Ret t' ->
  exists bpb', Read32 d size start 0 = Ret (volume32 d t' f bpb' bpc size start (32 * bs) (spf * bs)).
Proof.
  intros [Hr Hboot Hinfo Hfat Hcopy _ _] Hf Hb Hres Hspc Hspf Hmax Htb Ht'. pose proof (wd_size _ _ _ Hr).
  destruct Hpl as [Hbs Hspfr Hbpc Hs Hroom Hfit]. destruct (boot32_parsed bpb bs Hbs Hf) as (m & Hm & Hd & Hsf & Hi).
  rewrite Htb in Hfat, Hcopy. apply Ret_inj in Hfat, Hcopy. destruct Hb as [_ Hbytes Hinf _]. unfold sector_bytes in Hbytes.
  exists (Boot32.biosParameterBlock m). unfold Read32. change (negb (0 =? 0)) with false. cbn [andb].
  rewrite (proj2 (Z.ltb_ge Fat32MaxSize size)), (proj2 (Z.ltb_ge size (0 * 4))) by nia.
  rewrite (make_ok _ _ 4096) by (unfold maxAlloc; lia). bind_ret.
  rewrite (wd_read _ _ _ _ _ Hr) by (rewrite ?len_replicate; nia). cbn [mbind go_bind r_err r_n r_buf]. rewrite len_replicate.
  change (Z.of_nat (Z.to_nat 4096)) with 4096. change (4096 <? 512) with false. cbv iota.
  rewrite slice_ok by (rewrite ?len_span; lia). bind_ret. rewrite span_sub by lia. rewrite Z.add_0_r, Z.sub_0_r. rewrite Hboot, Hm. cbn [or_else]. bind_ret.
  rewrite Hd, Hsf, Hi, Hinf, Hspf, Hres, Hbytes. rewrite (make_ok _ _ 512) by (unfold maxAlloc; lia). bind_ret.
  rewrite (i64_id (1 * bs + start)) by nia. rewrite (read_bytes d dsize c') by (done || nia). bind_ret.
  rewrite Z.mul_1_l, Hinfo. cbn [or_else]. bind_ret. rewrite (wrap_u_id 32 (spf * bs)) by nia. rewrite make_ok by (unfold maxAlloc; nia). bind_ret.
  rewrite (i64_id (32 * bs + start)), (i64_id (32 * bs + spf * bs + start)) by nia.
  rewrite (wd_read _ _ _ _ _ Hr) by (rewrite ?len_replicate; nia). cbn [mbind go_bind r_buf]. rewrite len_replicate, Z2Nat.id by nia.
  rewrite <-Hfat, Ht'. bind_ret. assert (len tb = spf * bs) as Hltb by (rewrite Hfat; apply len_span; nia).
  rewrite (wd_read _ _ _ _ _ Hr) by nia. cbn [mbind go_bind r_buf]. rewrite Hltb.
  replace (32 * bs + spf * bs + start) with ((32 + spf) * bs + start) by lia. rewrite <-Hcopy, Ht'. bind_ret.
  rewrite table_equal_refl. cbn [negb]. rewrite Hspc. reflexivity.
Qed.

Lemma root_congr d tbl t' bpb bpb' : rooted tbl -> rooted t' -> readDirectory fuel (vol d t' bpb') root32 = readDirectory fuel (vol d tbl bpb) root32.
Proof.
  intros H1' H2'. destruct (chain_at_list _ _ _ _ (root_chain_at d tbl bpb H1')) as (E1 & _).
  destruct (chain_at_list _ _ _ _ (root_chain_at d t' bpb' H2')) as (E2 & _).
  unfold readDirectory. change (isRootCluster _ _) with false. cbv iota. change (clusterLocation (self root32)) with 2. rewrite E1, E2. reflexivity.
Qed.
End steps32.

(** ** The table of a fresh volume *)

#[local] Ltac Zify.zify_post_hook ::= Z.div_mod_to_equations.

Lemma tableFromBytes_root b t : Fat32.tableFromBytes b = Ret t -> RootDirCluster t = 2.
Proof.
  unfold Fat32.tableFromBytes. intros E. do 3 (apply bind_Ret in E as (? & _ & E)).
  unfold Fat32.fromBytes in E. apply bind_Ret in E as (? & _ & E). by apply Ret_inj in E as <-.
Qed.

Lemma new_table32_ok sz : 12 <= sz < 2 ^ 32 -> exists t, new_table32 sz = Ret t /\ Fat32.ok t /\ TableSize t = sz /\ MaxCluster t = sz / 4 /\
  RootDirCluster t = 2 /\ FATID t = 0xffffff8 /\ EOCMarker t = 0x0fffffff /\ fresh t /\ values_fit t (2 ^ 32).
Proof.
  intros Hs. assert (3 <= sz / 4 < 2 ^ 30) as Hm by lia. unfold new_table32. set (m := sz / 4) in *.
  rewrite (wrap_u_id 32 (m + 1)), make_ok by (unfold maxAlloc; lia). bind_ret.
  set (z := replicate (Z.to_nat (m + 1)) 0). assert (len z = m + 1) as Hl by (unfold z; rewrite len_replicate; lia).
  rewrite store_ok by lia. bind_ret. eexists. split; [reflexivity|].
  assert (forall n, 0 <= n < m + 1 -> index (<[Z.to_nat 2:=268435455]> z) n = Ret (if n =? 2 then 268435455 else 0)) as Hv.
  { intros n Hn. rewrite index_byte_at by (rewrite len_insert, Hl; lia). rewrite byte_at_insert by lia.
    destruct (Z.eqb_spec n 2); [done|]. unfold z. by rewrite byte_at_replicate by lia. }
  split; [unfold Fat32.ok; cbn; rewrite len_insert, Hl; split_and!; try done; try lia|].
  do 5 (split; [done|]). split.
  - intros n Hn. apply Hv. cbn in Hn. lia.
  - intros n Hn. cbn in Hn. eexists. split; [apply Hv; lia|]. destruct_if; lia.
Qed.

Lemma rooted_fresh fuel t : Fat32.ok t -> fresh t -> RootDirCluster t = 2 -> 3 <= MaxCluster t -> (Z.to_nat (MaxCluster t) < fuel)%nat -> rooted fuel t.
Proof.
  intros Hok Hf Hr Hm Hfu. split; [done| |done| |done].
  - split; rewrite Hf by lia; reflexivity.
  - rewrite Hf by lia. reflexivity.
Qed.

Lemma ebpb_block bs spc total spf volid : bs = 512 \/ bs = 4096 -> block32 (ebpb bs spc total spf volid) bs.
Proof. intros Hbs. split; [done| |done|done]. by destruct Hbs as [-> | ->]. Qed.

Lemma ebpb_fits bs spc total spf volid : bs = 512 \/ bs = 4096 -> word 8 spc -> word 32 total -> word 32 spf -> word 32 volid ->
  dos71_fits (ebpb bs spc total spf volid).
Proof.
  intros Hbs H1 H2 H3 H4. unfold dos71_fits, ebpb. cbn [Boot32.dos331 Boot32.sectorsPerFat Boot32.mirrorFlags Boot32.version Boot32.rootDirectoryCluster
    Boot32.fsInformationSector Boot32.backupBootSector Boot32.bootFileName Boot32.driveNumber Boot32.reservedFlags Boot32.extendedBootSignature
    Boot32.volumeSerialNumber Boot32.volumeLabel Boot32.fileSystemType].
  assert (ascii_ok (lit "NO NAME    ") /\ ascii_ok (lit "FAT32   ")) as [Ha1 Ha2] by (split; repeat (constructor; [vm_compute; split; congruence|]); constructor).
  assert (u16 bs = bs) as -> by (by destruct Hbs as [-> | ->]).
  split_and!; unfold word in *; try done; try lia; [|apply bytes_ok_zeros].
  unfold dos331_fits, dos20_fits, MediaFixedDisk, reservedSectors32.
  cbn [dos331 dos20 BytesPerSector SectorsPerCluster ReservedSectors FatCount RootDirectoryEntries TotalSectors16 MediaType SectorsPerFat
    SectorsPerTrack Heads HiddenSectors TotalSectors32]. unfold word in *.
  assert (Z.land bs (bs - 1) = 0) by (by destruct Hbs as [-> | ->]).
  split_and!; try done; lia.
Qed.

(** ** [Create], then [Read] *)

(** The size of a sector. *)
Definition sector32 (blocksize : Z) : Z := if blocksize =? 0 then 512 else blocksize.

(** The sizes that [Create] accepts, up to the one where the size of a table fits its variable. *)
Record roomy32 (size bs : Z) : Prop := {
  ro_sector : bs = 512 \/ bs = 4096;
  ro_size : 32 * bs <= size <= 256 * GB;
  ro_cluster : sectorsPerCluster32 size bs <= dataSectors32 size bs;
  ro_data : 32 * KB <= dataSectors32 size bs * bs
}.

Lemma roomy_facts size bs : roomy32 size bs ->
  1 <= sectorsPerCluster32 size bs <= 64 /\ 512 <= sectorsPerCluster32 size bs * bs <= 2 ^ 15 /\ word 32 (u32 (Z.quot size bs)) /\
  1 <= tableSectors32 size bs < 2 ^ 16 /\ 12 <= tableSectors32 size bs * bs < 2 ^ 32 /\ 0 < dataSectors32 size bs < 2 ^ 32 /\
  (32 + 2 * tableSectors32 size bs) * bs + sectorsPerCluster32 size bs * bs <= size.
Proof.
  intros [Hbs Hs Hc Hd]. destruct (table_sectors size bs Hbs Hs) as (Hspc & _ & Htr & _ & Hf). pose proof (sectorsPerCluster32_cases size bs Hbs) as Hcb.
  assert (0 < dataSectors32 size bs) as Hpos by lia.
  destruct (layout32_bounds size bs Hbs Hs Hpos) as (H1 & _ & [H2 _]). cbv zeta in Hcb.
  assert (dataSectors32 size bs <= 2 ^ 29) by (unfold dataSectors32, reservedSectors32; lia).
  assert (1 <= dataSectors32 size bs / sectorsPerCluster32 size bs) by (apply Z.div_le_lower_bound; lia).
  revert Hspc Htr Hf Hcb Hpos H1 H2 H H0. clear Hc Hd. generalize (dataSectors32 size bs / sectorsPerCluster32 size bs), (dataSectors32 size bs),
    (sectorsPerCluster32 size bs), (tableSectors32 size bs), (u32 (Z.quot size bs)). intros n ds spc spf total **.
  unfold word. split_and!; try lia; nia.
Qed.

Section create32.
Context {D : Type} `{Hst : Storage D} {repr : D -> Z -> (Z -> Z) -> Prop} {Hdev : WritableDevice D repr} `{UnicodeTables} `{AsciiSetLaws}.
Context (fuel : nat) (now : time) (spare : Z -> Z).

Definition newFsis : Boot32.FSInformationSector := Boot32.mkFsis 0xffffffff 0xffffffff.

Lemma create32_steps b size start blocksize s volid tbl : roomy32 size (sector32 blocksize) -> blocksize = 0 \/ blocksize = 512 \/ blocksize = 4096 ->
  Writable b = None -> new_table32 (tableSectors32 size (sector32 blocksize) * sector32 blocksize) = Ret tbl ->
  let bs := sector32 blocksize in let spc := sectorsPerCluster32 size bs in let spf := tableSectors32 size bs in
  Create32 fuel now spare b size start blocksize s volid =
    steps32 fuel now spare (volume32 b tbl newFsis (ebpb bs spc (u32 (Z.quot size bs)) spf volid) (spc * bs) size start (32 * bs) (spf * bs)) s.
Proof.
  intros Hro Hblk Hwr Htbl. cbv zeta. destruct (roomy_facts _ _ Hro) as (Hspc & Hbpc & Ht & Hspf & Hsz & Hds & Hroom). destruct Hro as [Hbs Hs Hc Hd].
  unfold Create32. rewrite Hwr.
  assert (negb (blocksize =? 512) && negb (blocksize =? 4096) && (0 <? blocksize) = false) as -> by (destruct Hblk as [-> | [-> | ->]]; done).
  fold (sector32 blocksize). set (bs := sector32 blocksize) in *. clearbody bs. cbv zeta.
  rewrite (proj2 (Z.ltb_ge Fat32MaxSize size)) by (unfold Fat32MaxSize, GB, MB, KB in *; lia).
  unfold reservedSectors32 at 1. rewrite (i64_id (32 * bs)), (proj2 (Z.ltb_ge size _)) by lia.
  rewrite (eq_refl : sectorsPerFat32 (u32 (Z.quot size bs)) bs (sectorsPerCluster32 size bs) = tableSectors32 size bs).
  rewrite (eq_refl : u32 (Z.quot size bs) - reservedSectors32 - 2 * tableSectors32 size bs = dataSectors32 size bs). set (spf := tableSectors32 size bs) in *. set (spc := sectorsPerCluster32 size bs) in *.
  set (ds := dataSectors32 size bs) in *. clearbody ds spf spc.
  rewrite (proj2 (Z.leb_gt ds 0)) by lia. assert (1 <= ds / spc <= ds) as Hq by (split; [apply Z.div_le_lower_bound; lia|apply Z.div_le_upper_bound; nia]).
  rewrite Z.quot_div_nonneg, (wrap_u_id 32 (ds / spc)), (proj2 (Z.eqb_neq (ds / spc) 0)) by lia.
  rewrite (i64_id (ds * bs)), (proj2 (Z.ltb_ge (ds * bs) _)) by (unfold KB in *; nia).
  rewrite (wrap_u_id 32 bs), (wrap_u_id 32 (spf * bs)), Htbl by lia. bind_ret.
  unfold reservedSectors32. rewrite (wrap_u_id 64 bs), (wrap_u_id 64 (32 * bs)) by lia. reflexivity.
Qed.

(** A volume made by [Create], opened by [Read], and listed. *)
Definition made_and_opened32 (create : go (D * (FileSystem32 (D := D) + error))) (read : D -> go (FileSystem32 (D := D)))
    (dsize : Z) (c : Z -> Z) (size start : Z) (label : gostring) : Prop :=
  exists d c' fs fs', create = Ret (d, inl fs) /\ backend (base fs) = d /\ repr d dsize c' /\ read d = Ret fs' /\
    same_volume (base fs) (base fs') /\ fsis fs' = fsis fs /\
    Fat32.ok (table (base fs')) /\ reserved (table (base fs')) /\ fresh (table (base fs')) /\ MaxCluster (table (base fs')) = MaxCluster (table (base fs)) /\
    readDirectory fuel (inherited fs') (root_dir (inherited fs')) =
      Ret (set_entries (root_dir (inherited fs')) [stored (label_trimmed now (the_label label))]) /\
    forall x, ~ (start <= x < start + size) -> c' x = c x.

(** C6. A FAT32 volume that [Create] makes on any writable device, anywhere on it, of any
    accepted size up to 256 GiB and with sectors of 512 or 4096 bytes, is opened by [Read]:
    with the same regions and information sector; with two equal tables that satisfy the
    invariant, in which cluster 2, of the root directory, is taken and every other cluster
    is free; and with a root directory that lists the label and nothing else. No byte of
    the device outside the volume has changed. *)
Theorem fat32_create_then_read b dsize c size start blocksize s volid : repr b dsize c -> blocksize = 0 \/ blocksize = 512 \/ blocksize = 4096 ->
  let bs := sector32 blocksize in roomy32 size bs -> 0 <= start -> start + size <= dsize -> word 32 volid -> s = [] \/ label_ok s ->
  0 <= spare (sectorsPerCluster32 size bs * bs) < 2 ^ 62 -> (Z.to_nat (tableSectors32 size bs * bs / 4) < fuel)%nat ->
  made_and_opened32 (Create32 fuel now spare b size start blocksize s volid) (fun d => Read32 d size start 0) dsize c size start s.
Proof using All.
  intros Hr Hblk bs Hro Hs Hfit Hvol Hlab Hsp Hfu. destruct (roomy_facts _ _ Hro) as (Hspc & Hbpc & Ht & Hspf & Hsz & _ & Hroom).
  destruct (new_table32_ok _ Hsz) as (tbl & Htbl & Hok & Hts & Hmax & Hroot & Hid & Heoc & Hfresh & Hfitv).
  pose proof (create32_steps b size start blocksize s volid tbl Hro Hblk (wd_writable _ _ _ Hr) Htbl) as E. cbv zeta in E. rewrite E. clear E. fold bs.
  assert (3 <= MaxCluster tbl) as Hm by (rewrite Hmax; lia).
  assert (placed32 bs (tableSectors32 size bs) (sectorsPerCluster32 size bs * bs) size start dsize) as Hpl.
  { pose proof (ro_sector _ _ Hro). split; lia. }
  set (bpb := ebpb _ _ _ _ _). assert (dos71_fits bpb) as Hf.
  { apply ebpb_fits; [apply (ro_sector _ _ Hro)|unfold word; lia|done|unfold word; lia|done]. }
  assert (block32 bpb bs) as Hb by (apply ebpb_block, (ro_sector _ _ Hro)).
  assert (rooted fuel tbl) as Hrt by (apply rooted_fresh; try done; by rewrite Hmax).
  assert (word 32 (Boot32.freeDataClustersCount newFsis) /\ word 32 (Boot32.lastAllocatedCluster newFsis)) as [Hw1 Hw2] by (unfold word; cbn; lia).
  destruct (steps32_ok fuel now spare newFsis bs _ _ size start dsize Hpl Hw1 Hw2 b tbl bpb c s Hrt Hts Hb Hf Hr Hlab Hsp) as (d & c' & Hc & Hfd).
  destruct (fat32_reread tbl Hok) as (tb & t' & Htb & _ & Htf & Hok' & Hm' & _ & He' & _ & H01 & Hv); [change (0 <= FATID tbl < 2 ^ 32); by rewrite Hid|change (0 <= EOCMarker tbl < 2 ^ 32); by rewrite Heoc|done|].
  destruct (the_label_ok s Hlab) as (Hlo & Hll & _).
  assert (size <= Fat32MaxSize) as Hmaxs by (pose proof (ro_size _ _ Hro); unfold Fat32MaxSize, GB, MB, KB in *; lia).
  assert (dos71_fits (with_label32 bpb (the_label s))) as Hf' by (by apply with_label32_fits; [|..|apply lb_ascii]).
  assert (block32 (with_label32 bpb (the_label s)) bs) as Hb' by (by apply with_label32_block).
  destruct (open32_ok fuel now newFsis bs _ _ size start dsize Hpl d c c' tbl tb t' _ _ Hfd Hf' Hb') as (bpb' & Hread); try done.
  assert (fresh t') as Hfr' by (by apply (fresh_reread tbl)).
  pose proof (tableFromBytes_root _ _ Htf) as Hroot'.
  assert (rooted fuel t') as Hrt' by (apply rooted_fresh; try done; rewrite Hm'; [done|by rewrite Hmax]).
  pose proof (volume32_inherited newFsis bs _ _ size start dsize d t' bpb' Hpl) as Hinh.
  eexists d, c', _, _. split; [exact Hc|]. split; [done|]. split; [eapply f32_repr; exact Hfd|].
  split; [exact Hread|]. split.
  { pose proof (f_equal dataStart Hinh) as E1. pose proof (f_equal fatSecondaryStart Hinh) as E2. split; [exact E1|]. do 7 (split; [reflexivity|]). exact E2. }
  split; [reflexivity|]. split; [exact Hok'|]. split; [exact (rt_reserved _ _ Hrt')|]. split; [exact Hfr'|]. split; [exact Hm'|].
  split; [|eapply f32_outside; exact Hfd].
  rewrite Hinh. rewrite (root_dir32 fuel newFsis bs _ _ size start d t' bpb' Hrt').
  rewrite (root_congr fuel newFsis bs _ _ size start d tbl t' (with_label32 bpb (the_label s)) bpb' Hrt Hrt').
  eapply f32_root; exact Hfd.
Qed.
End create32.

(** C18. The layout of a FAT32 volume of any accepted size up to 256 GiB: the number of
    sectors of a table is not truncated; the reserved sectors, the two tables and the whole
    clusters fit the volume, with less than a cluster and a sector left over; a cluster is a
    power of two of at most 32 KiB; and a table has at least as many entries as the volume
    has clusters. *)
Theorem fat32_layout_bounds size bs : roomy32 size bs ->
  let spc := sectorsPerCluster32 size bs in let spf := tableSectors32 size bs in let clusters := dataSectors32 size bs / spc in
  1 <= spf < 2 ^ 16 /\ 1 <= clusters <= spf * bs / 4 /\ (exists k, 9 <= k <= 15 /\ spc * bs = 2 ^ k) /\
  (reservedSectors32 + 2 * spf) * bs + clusters * (spc * bs) <= size < (reservedSectors32 + 2 * spf) * bs + (clusters + 1) * (spc * bs) + bs.
Proof.
  intros Hro. destruct (roomy_facts _ _ Hro) as (Hspc & Hbpc & _ & Hspf & _ & Hds & _). destruct Hro as [Hbs Hs Hc Hd]. cbv zeta.
  destruct (layout32_bounds size bs Hbs Hs (proj1 Hds)) as (_ & Hn & Hfit). split; [done|]. split; [split; [|exact Hn]|]; [|split; [|exact Hfit]].
  - apply Z.div_le_lower_bound; lia.
  - destruct (sectorsPerCluster32_cases size bs Hbs) as [[E _]|[[E _]|[[E _]|[[E _]|E]]]]; rewrite Z.mul_comm, E; [exists 9|exists 12|exists 13|exists 14|exists 15]; lia.
Qed.

(** A table whose entries are as many as the clusters, two fewer than the numbers of the clusters need. *)
Example fat32_table_short : let size := 130032 * 512 in dataSectors32 size 512 / sectorsPerCluster32 size 512 = 128000 /\ tableSectors32 size 512 * 512 / 4 = 128000.
Proof. vm_compute. split; reflexivity. Qed.

(** Sizes below the maximum at which the number of sectors of a table is truncated. *)
Example fat32_table_truncated : tableSectors32 (512 * GB) 512 = 0 /\ 512 * GB <= Fat32MaxSize.
Proof. vm_compute. split; [reflexivity|congruence]. Qed.

(** ** Witnesses *)

#[local] Existing Instance tables.
#[local] Existing Instance byte_set.
#[local] Existing Instance byte_set_laws.

Lemma roomy32_small : roomy32 (512 * 1024) 512.
Proof. split; [by left| | |]; vm_compute; repeat split; congruence. Defined.

(** 512 KB of FAT32 with a label, in the second half of a device. *)
Lemma fat32_create_then_read_witness :
  made_and_opened32 (repr := memory_is) 2000 63871200000
    (Create32 2000 63871200000 (fun _ => 0) (blank (1024 * 1024)) (512 * 1024) (512 * 1024) 0 (lit "BACKUP") 7)
    (fun d => Read32 d (512 * 1024) (512 * 1024) 0) (1024 * 1024) (file_content (replicate (Z.to_nat (1024 * 1024)) 0)) (512 * 1024) (512 * 1024) (lit "BACKUP").
Proof.
  apply (fat32_create_then_read (repr := memory_is) 2000 63871200000 (fun _ => 0) (blank (1024 * 1024)) (1024 * 1024) _ (512 * 1024) (512 * 1024) 0 (lit "BACKUP") 7);
    [apply blank_is; lia|by left|exact roomy32_small|lia|lia|unfold word; lia| |lia|].
  - right. split; [repeat (constructor; [vm_compute; split; congruence|]); constructor|]. by exists 66, (lit "ACKUP").
  - change (tableSectors32 (512 * 1024) (sector32 0) * sector32 0 / 4) with (tableSectors32 (512 * 1024) 512 * 512 / 4).
    assert (tableSectors32 (512 * 1024) 512 * 512 / 4 < 2000) by (vm_compute; reflexivity). lia.
Defined.

Lemma fat32_layout_bounds_witness : let spf := tableSectors32 (512 * 1024) 512 in 1 <= spf < 2 ^ 16.
Proof. apply (fat32_layout_bounds (512 * 1024) 512 roomy32_small). Defined.
