(* ===== verification/PartIO.v ===== *)
(** * PartIO: the contents of a partition
    [WriteContents] and [ReadContents] of diskkit/partition/mbr/partition.go and of
    gpt/partition.go, which differ in the arithmetic of sizes and offsets only: the loops
    that copy an [io.Reader] to a device and a device to an [io.Writer], with what the
    documentation of [io.Reader] promises. *)
From S2P Require Import Prelude Bytes ReaderAt Storage.

(** [io.Reader]: [Read(b)] with a buffer of [n] bytes gives the bytes read and the error. *)
Class Stream (R : Type) := stream_read : R -> Z -> R * (list Z * option error).

(** The reader delivers [content] to buffers of [n] bytes in [k] reads, the last of which
    returns no bytes and [io.EOF]. A read may return fewer bytes than asked for, none at
    all, or an early [io.EOF] next to the last ones. *)
Inductive delivers {R} `{Stream R} (n : Z) : nat -> R -> list Z -> Prop :=
| delivers_end r r' : stream_read r n = (r', ([], Some EOF)) -> delivers n 1 r []
| delivers_more k r r' chunk rest err : stream_read r n = (r', (chunk, err)) -> err = None \/ (err = Some EOF /\ chunk <> []) ->
    len chunk <= n -> bytes_ok chunk -> delivers n k r' rest -> delivers n (S k) r (chunk ++ rest).

(** [bytes.Reader], as an instance. *)
#[global] Instance bytes_stream : Stream (list Z) := fun r n =>
  match r with [] => ([], ([], Some EOF)) | _ => (drop (Z.to_nat n) r, (take (Z.to_nat n) r, None)) end.

Definition incomplete_write : error := Errorf "wrote %d bytes to partition of size %d".

Section contents.
Context {D R : Type} `{Storage D} `{Stream R}.

(** One round: the device, the reader and the bytes written so far; or the result. The
    error of the read is forgotten when there was something to write. *)
Definition write_round (pss size : Z) (at_ : Z -> Z) : D * R * Z -> go (D * R * Z + D * R * (Z * option error)) := fun '(d, r, total) =>
  let '(r, (chunk, err)) := stream_read r pss in
  let read := len chunk in
  let failed := match err with Some e => negb (bool_decide (e = EOF)) | None => false end in
  if failed then mret (inr (d, r, (total, Some (Errorf "could not read contents to pass to partition: %v"))))
  else
    let tmpTotal := u64 (read + total) in
    if size <? tmpTotal then mret (inr (d, r, (total, Some (Errorf "requested to write at least %d bytes to partition but maximum size is %d"))))
    else if 0 <? read then
      '(d, (written, werr)) ← WriteAt d chunk (at_ total);
      match werr with
      | Some _ => mret (inr (d, r, (total, Some (Errorf "error writing to file: %v"))))
      | None => mret (inl (d, r, u64 (total + written)))
      end
    else match err with
         | Some _ => mret (inr (d, r, (total, if negb (total =? size) then Some incomplete_write else None)))
         | None => mret (inl (d, r, total))
         end.

Definition write_contents (fuel : nat) (pss size : Z) (at_ : Z -> Z) (d : D) (r : R) : go (D * R * (Z * option error)) :=
  _ ← make 0 1 pss;
  go_for fuel (write_round pss size at_) (d, r, 0).

(** One round of reading: the buffer, what the writer was given, the bytes read so far. *)
Definition read_round (size : Z) (at_ : Z -> Z) (d : D) : list Z * list Z * Z -> go (list Z * list Z * Z + list Z * (Z * option error)) := fun '(b, out, total) =>
  r ← ReadAt d b (at_ total);
  let failed := match r_err r with Some e => negb (bool_decide (e = EOF)) | None => false end in
  if failed then mret (inr (out, (total, Some (Errorf "error reading from file: %v"))))
  else
    part ← (if 0 <? r_n r then slice (r_buf r) 0 (r_n r) else mret []);
    let out := out ++ part in
    let total := i64 (total + r_n r) in
    if (match r_err r with Some _ => true | None => false end) || (size <=? total) then mret (inr (out, (total, None)))
    else mret (inl (r_buf r, out, total)).

Definition read_contents (fuel : nat) (pss size : Z) (at_ : Z -> Z) (d : D) : go (list Z * (Z * option error)) :=
  b ← make 0 1 pss;
  go_for fuel (read_round size at_ d) (b, [], 0).
End contents.

(** ** Lemmas *)

Lemma bytes_stream_delivers n l : 0 < n -> bytes_ok l -> exists k, (k <= S (length l))%nat /\ delivers n k l l.
Proof.
  intros Hn. assert (forall m l, (length l <= m)%nat -> bytes_ok l -> exists k, (k <= S m)%nat /\ delivers n k l l) as Hm; [|by apply Hm].
  clear l. induction m as [|m IH]; intros [|x l] Hl Hb; [exists 1%nat; split; [lia|by econstructor]|cbn in Hl; lia|exists 1%nat; split; [lia|by econstructor]|].
  set (y := x :: l) in *. destruct (IH (drop (Z.to_nat n) y)) as (j & Hj & Hd).
  { rewrite length_drop. lia. }
  { by apply Forall_drop. }
  exists (S j). split; [lia|]. rewrite <-(take_drop (Z.to_nat n) y) at 2.
  eapply delivers_more with (err := None); [reflexivity|by left| |by apply Forall_take|exact Hd].
  unfold len. rewrite length_take. lia.
Defined.

Lemma overwrite_inside c o a x : o <= x < o + len a -> overwrite c o a x = byte_at a (x - o).
Proof. intros Hx. unfold overwrite. by rewrite (proj2 (Z.leb_le _ _)), (proj2 (Z.ltb_lt _ _)) by lia. Qed.

(** Two writes next to each other are one. *)
Lemma overwrite_join c o a b x : overwrite (overwrite c o a) (o + len a) b x = overwrite c o (a ++ b) x.
Proof.
  pose proof (len_nonneg a). pose proof (len_nonneg b). destruct (Z.lt_ge_cases x o); [by rewrite !overwrite_out by (rewrite ?len_app; lia)|].
  destruct (Z.lt_ge_cases x (o + len a)).
  - rewrite overwrite_out, !overwrite_inside by (rewrite ?len_app; lia). unfold byte_at. by rewrite lookup_app_l by (unfold len in *; lia).
  - destruct (Z.lt_ge_cases x (o + len a + len b)); [|by rewrite !overwrite_out by (rewrite ?len_app; lia)].
    rewrite !overwrite_inside by (rewrite ?len_app; lia). unfold byte_at. rewrite lookup_app_r by (unfold len in *; lia).
    do 2 f_equal. unfold len in *. lia.
Qed.

Lemma overwrite_congr c c' o a : (forall x, c' x = c x) -> forall x, overwrite c' o a x = overwrite c o a x.
Proof. intros E x. unfold overwrite. by rewrite E. Qed.

Lemma span_eq c c' o n : (forall x, c' x = c x) -> span c' o n = span c o n.
Proof. intros E. by apply span_same. Qed.

Section laws.
Context {D R : Type} `{Hst : Storage D} {repr : D -> Z -> (Z -> Z) -> Prop} {Hdev : WritableDevice D repr} `{Hstr : Stream R}.

(** What writing a stream into an area of [size] bytes at [start] gives: the stream is
    written up to the end of the last read that fits; there is no error exactly if it has
    the size of the area. *)
Definition contents_written (dsize : Z) (c : Z -> Z) (start size : Z) (content : list Z) (res : go (D * R * (Z * option error))) : Prop :=
  exists d r p c' err, res = Ret (d, r, (len p, err)) /\ repr d dsize c' /\ (forall x, c' x = overwrite c start p x) /\
    p `prefix_of` content /\ len p <= size /\ (len content <= size -> p = content) /\ (err = None <-> len content = size).

Lemma write_rounds dsize pss start size at_ c : 0 < pss <= maxAlloc -> 0 <= size -> 0 <= start -> start + size <= dsize ->
  (forall t, 0 <= t < size -> at_ t = start + t) -> forall k r content, delivers pss k r content ->
  forall fuel d p c1, (k <= fuel)%nat -> repr d dsize c1 -> (forall x, c1 x = overwrite c start p x) -> len p <= size ->
  contents_written dsize c start size (p ++ content) (go_for fuel (write_round pss size at_) (d, r, len p)).
Proof.
  intros Hpss Hsize Hstart Hfit Hat k r content Hd. unfold maxAlloc in *.
  induction Hd as [r r' Hread|k r r' chunk rest err Hread Herr Hcl Hcb Hd IH]; intros fuel d p c1 Hfu Hr Hc Hp;
    (destruct fuel as [|fuel]; [lia|]); pose proof (len_nonneg p); pose proof (wd_size _ _ _ Hr); cbn [go_for]; unfold write_round at 2; rewrite Hread.
  - cbn [bool_decide negb]. rewrite bool_decide_true by done. cbn [negb]. change (len []) with 0. rewrite (wrap_u_id 64) by lia.
    rewrite (proj2 (Z.ltb_ge size _)) by lia. cbn [Z.ltb Z.compare mbind go_bind mret go_ret]. rewrite app_nil_r.
    eexists d, r', p, c1, _. split; [reflexivity|]. split_and!; try done.
    destruct (Z.eqb_spec (len p) size); cbn [negb]; split; intros; done.
  - pose proof (len_nonneg chunk). assert ((match err with Some e => negb (bool_decide (e = EOF)) | None => false end) = false) as ->.
    { destruct Herr as [->|[-> _]]; [done|]. by rewrite bool_decide_true. }
    rewrite (wrap_u_id 64) by lia. destruct (Z.ltb_spec size (len chunk + len p)) as [Hbig|Hroom].
    { cbn [mbind go_bind mret go_ret]. eexists d, r', p, c1, _. split; [reflexivity|].
      pose proof (len_nonneg rest). rewrite !len_app. split_and!; try done; [by eexists|lia|]. split; intros; [done|lia]. }
    destruct (Z.ltb_spec 0 (len chunk)).
    + rewrite Hat by lia. destruct (wd_write _ _ _ chunk (start + len p) Hr Hcb) as (d' & -> & Hr'); [lia|lia|].
      cbn [mbind go_bind mret go_ret]. rewrite (wrap_u_id 64), <-len_app by lia.
      rewrite (assoc_L app). apply (IH fuel d' (p ++ chunk) _ ltac:(lia) Hr'); [|rewrite len_app; lia].
      intros x. rewrite (overwrite_congr _ _ _ _ Hc). apply overwrite_join.
    + assert (chunk = []) as -> by (apply len_zero; lia). destruct Herr as [->|[_ ?]]; [|done].
      cbn [mbind go_bind mret go_ret]. cbn [app]. apply (IH fuel d p c1); [lia|done..].
Qed.

Lemma write_contents_ok dsize pss start size at_ c d k r content fuel : 0 < pss <= maxAlloc -> 0 <= size -> 0 <= start -> start + size <= dsize ->
  (forall t, 0 <= t < size -> at_ t = start + t) -> delivers pss k r content -> (k <= fuel)%nat -> repr d dsize c ->
  contents_written dsize c start size content (write_contents fuel pss size at_ d r).
Proof.
  intros Hpss Hsize Hstart Hfit Hat Hd Hfu Hr. unfold write_contents. rewrite make_ok by lia. cbn [mbind go_bind].
  change 0 with (len (@nil Z)). apply (write_rounds dsize pss start size at_ c) with (k := k) (p := []) (c1 := c); try done.
  intros x. by rewrite overwrite_out by (change (len []) with 0; lia).
Qed.

(** The rounds of a read: buffers of [pss] bytes up to the first that reaches the end. *)
Lemma read_rounds dsize pss start size at_ c d : 0 < pss <= maxAlloc -> repr d dsize c -> 0 <= start ->
  (forall t, 0 <= t -> t < Z.max 1 size -> at_ t = start + t) -> forall m fuel b t, (0 < m)%nat -> (m <= fuel)%nat -> len b = pss -> 0 <= t < Z.max 1 size ->
  t + Z.of_nat (pred m) * pss < Z.max 1 size -> size <= t + Z.of_nat m * pss -> start + t + Z.of_nat m * pss <= dsize ->
  go_for fuel (read_round size at_ d) (b, span c start t, t) = Ret (span c start (t + Z.of_nat m * pss), (t + Z.of_nat m * pss, None)).
Proof.
  intros Hpss Hr Hstart Hat m. pose proof (wd_size _ _ _ Hr). unfold maxAlloc in *. induction m as [|m IH]; intros fuel b t Hm Hfu Hb Ht Hlast Hend Hfit; [lia|].
  assert (0 <= Z.of_nat m * pss) by nia. replace (Z.of_nat (S m) * pss) with (Z.of_nat m * pss + pss) in * by nia.
  destruct fuel as [|fuel]; [lia|]. cbn [go_for]. unfold read_round at 2. rewrite Hat by lia.
  rewrite (wd_read _ _ _ _ _ Hr) by nia. cbn [mbind go_bind r_err r_n r_buf]. rewrite Hb, (proj2 (Z.ltb_lt 0 pss)) by lia.
  rewrite slice_ok by (rewrite ?len_span; lia). cbn [mbind go_bind]. rewrite (i64_id (t + pss)) by nia.
  assert ((span c (start + t) pss).[0, pss] = span c (start + t) pss) as ->.
  { rewrite span_sub by lia. f_equal; lia. }
  rewrite <-span_app by lia. cbn [orb]. destruct (Z.leb_spec size (t + pss)).
  - assert (m = 0)%nat as -> by (destruct m; [done|cbn [pred] in Hlast; nia]). cbn [mbind go_bind mret go_ret]. by replace (t + (Z.of_nat 0 * pss + pss)) with (t + pss) by lia.
  - cbn [mbind go_bind mret go_ret]. assert (m <> 0)%nat by (intros ->; lia).
    rewrite IH; [by replace (t + pss + Z.of_nat m * pss) with (t + (Z.of_nat m * pss + pss)) by lia|lia|lia|by apply len_span; lia|lia| |lia|lia].
    replace (Z.of_nat (pred m)) with (Z.of_nat m - 1) by lia. cbn [pred] in Hlast. nia.
Qed.

(** Reading an area of [size] bytes: whole buffers, and at least one. *)
Lemma read_contents_ok dsize pss start size at_ c d (m : nat) fuel : 0 < pss <= maxAlloc -> repr d dsize c -> 0 <= start ->
  (forall t, 0 <= t -> t < Z.max 1 size -> at_ t = start + t) -> (0 < m <= fuel)%nat -> Z.of_nat (pred m) * pss < Z.max 1 size -> size <= Z.of_nat m * pss ->
  start + Z.of_nat m * pss <= dsize ->
  read_contents fuel pss size at_ d = Ret (span c start (Z.of_nat m * pss), (Z.of_nat m * pss, None)).
Proof.
  intros Hpss Hr Hstart Hat Hm Hlast Hend Hfit. unfold read_contents. rewrite make_ok by (unfold maxAlloc in *; lia). cbn [mbind go_bind].
  rewrite <-(span_0 c start). rewrite (read_rounds dsize pss start size at_ c d Hpss Hr Hstart Hat m) by (rewrite ?len_replicate; lia). done.
Qed.
End laws.
