(* ===== verification/Mbr.v ===== *)
(** * Mbr: diskkit/partition/mbr
    The partition table in the master boot record: its four entries as bytes, reading the
    table from a disk and writing it back, comparing tables, and the contents of a
    partition. *)
From S2P Require Import Prelude Bytes ReaderAt Text Storage PartIO.

Definition mbrSize : Z := 512.
Definition partitionEntriesStart : Z := 446.
Definition partitionEntriesCount : Z := 4.
Definition signatureStart : Z := 510.
Definition partitionTableUUIDStart : Z := 440.
Definition partitionTableUUIDEnd : Z := 444.
Definition partitionEntrySize : Z := 16.
Definition defaultSectorSize : Z := 512.
Definition getMbrSignature : list Z := [0x55; 0xaa].

(** Hexadecimal digits, and [%0<width>x]. *)
Definition hex_digit (d : Z) : Z := if d <? 10 then 48 + d else 87 + d.
Fixpoint hex_fuel (n : nat) (v : Z) (acc : gostring) : gostring :=
  match n with
  | O => acc
  | S n' => if v <? 16 then hex_digit v :: acc else hex_fuel n' (v / 16) (hex_digit (v mod 16) :: acc)
  end.
Definition hex (width v : Z) : gostring :=
  let s := hex_fuel 16 v [] in replicate (Z.to_nat (width - len s)) 48 ++ s.

(** ** Partitions *)

Record Partition := mkPart {
  Index : Z; Bootable : bool; Type_ : Z; Start : Z; Size : Z;
  StartCylinder : Z; StartHead : Z; StartSector : Z; EndCylinder : Z; EndHead : Z; EndSector : Z;
  logicalSectorSize : Z; physicalSectorSize : Z; partitionUUID : gostring
}.

#[global] Instance mbr_partition_eq_dec : EqDecision Partition.
Proof. solve_decision. Defined.

Definition with_uuid (p : Partition) (u : gostring) : Partition :=
  mkPart (Index p) (Bootable p) (Type_ p) (Start p) (Size p) (StartCylinder p) (StartHead p) (StartSector p)
    (EndCylinder p) (EndHead p) (EndSector p) (logicalSectorSize p) (physicalSectorSize p) u.

(** [nil] slices are [None]. *)
Definition PartitionEqualBytes (b1 b2 : option (list Z)) : go bool :=
  match b1, b2 with
  | None, None => mret true
  | Some b1, Some b2 =>
      if negb (len b1 =? len b2) then mret false
      else
        x ← index b1 0; y ← index b2 0;
        if negb (x =? y) then mret false
        else
          x ← index b1 4; y ← index b2 4;
          if negb (x =? y) then mret false
          else
            s ← slice b1 8 12; t ← slice b2 8 12;
            if negb (bool_decide (s = t)) then mret false
            else s ← slice b1 12 16; t ← slice b2 12 16; mret (bool_decide (s = t))
  | _, _ => mret false
  end.

(** A call of [Equal] on a nil receiver panics, unless the argument is nil. *)
Definition Partition_Equal (p p2 : option Partition) : go bool :=
  match p2 with
  | None => mret false
  | Some p2 =>
      match p with
      | None => Panic NilDereference
      | Some p => mret (eqb (Bootable p) (Bootable p2) && (Type_ p =? Type_ p2) && (Start p =? Start p2) && (Size p =? Size p2))
      end
  end.

Definition sectorSizes (p : Partition) : Z * Z :=
  (if physicalSectorSize p =? 0 then defaultSectorSize else physicalSectorSize p,
   if logicalSectorSize p =? 0 then defaultSectorSize else logicalSectorSize p).
Definition GetSize (p : Partition) : Z := i64 (Size p * snd (sectorSizes p)).
Definition GetStart (p : Partition) : Z := i64 (Start p * snd (sectorSizes p)).

Definition partition_bytes (p : Partition) : list Z :=
  [if Bootable p then 0x80 else 0; StartHead p; StartSector p; StartCylinder p; Type_ p; EndHead p; EndSector p; EndCylinder p] ++
  put_le 4 (Start p) ++ put_le 4 (Size p).

Definition partitionFromBytes (i : Z) (b : list Z) (logicalSectorSize physicalSectorSize : Z) : go Partition :=
  if negb (len b =? partitionEntrySize) then Err (Errorf "data for partition was %d bytes instead of expected %d")
  else
    b0 ← index b 0;
    bootable ← (if b0 =? 0 then mret false else if b0 =? 0x80 then mret true else Err (Errorf "invalid partition"));
    b1 ← index b 1; b2 ← index b 2; b3 ← index b 3; b4 ← index b 4; b5 ← index b 5; b6 ← index b 6; b7 ← index b 7;
    start ← get_le 4 b 8 12;
    size ← get_le 4 b 12 16;
    mret (mkPart i bootable b4 start size b3 b1 b2 b7 b5 b6 logicalSectorSize physicalSectorSize []).

(** ** Tables *)

(** A nil slice is [None], a nil pointer in it too. *)
Record Table := mkTable {
  Partitions : option (list (option Partition));
  LogicalSectorSize : Z; PhysicalSectorSize : Z; partitionTableUUID : gostring
}.

Definition partitions (t : Table) : list (option Partition) := default [] (Partitions t).

Fixpoint compare_entries (p1 : list (option Partition)) (p2 : list (option Partition)) : go bool :=
  match p1 with
  | [] => mret true
  | p :: p1' =>
      match p with
      | None => mret false
      | Some _ =>
          q ← index p2 0;
          e ← Partition_Equal p q;
          if negb e then mret false else compare_entries p1' (from p2 1)
      end
  end.

Definition comparePartitionArray (p1 p2 : option (list (option Partition))) : go bool :=
  match p1, p2 with
  | None, None => mret true
  | Some p1, Some p2 => if negb (len p1 =? len p2) then mret false else compare_entries p1 p2
  | _, _ => mret false
  end.

Definition Equal (t : Table) (t2 : option Table) : go bool :=
  match t2 with
  | None => mret false
  | Some t2 =>
      partMatch ← comparePartitionArray (Partitions t) (Partitions t2);
      mret ((LogicalSectorSize t =? LogicalSectorSize t2) && (PhysicalSectorSize t =? PhysicalSectorSize t2) && partMatch)
  end.

Definition readPartitionTableUUID (b : list Z) : go gostring :=
  v ← get_le 4 b partitionTableUUIDStart partitionTableUUIDEnd;
  mret (hex 8 v).

Definition formatPartitionUUID (ptUUID : gostring) (i : Z) : gostring := take_runes 33 ptUUID ++ [45] ++ hex 2 i.

Definition tableFromBytes (b : list Z) : go Table :=
  if negb (len b =? mbrSize) then Err (Errorf "data for partition was %d bytes instead of expected %d")
  else
    mbrSignature ← slice b signatureStart (len b);
    if negb (bool_decide (mbrSignature = getMbrSignature)) then Err (Errorf "invalid MBR Signature %v")
    else
      ptUUID ← readPartitionTableUUID b;
      parts ← go_range (fun i parts =>
        let start := partitionEntriesStart + i * partitionEntrySize in
        e ← slice b start (start + partitionEntrySize);
        r ← catch (partitionFromBytes (i + 1) e defaultSectorSize defaultSectorSize);
        match r with
        | inr _ => Err (Errorf "error reading partition entry %d: %v")
        | inl p => mret (parts ++ [Some (with_uuid p (formatPartitionUUID ptUUID (i + 1)))])
        end) 0 (Z.to_nat partitionEntriesCount) [];
      mret (mkTable (Some parts) defaultSectorSize 512 ptUUID).

Definition table_toBytes (t : Table) : go (list Z) :=
  b ← go_range (fun i b =>
    if i <? len (partitions t) then
      p ← index (partitions t) i;
      match p with None => Panic NilDereference | Some p => mret (b ++ partition_bytes p) end
    else mret (b ++ replicate 16 0)) 0 (Z.to_nat partitionEntriesCount) [];
  mret (b ++ getMbrSignature).

Section disk.
Context {D : Type} `{Storage D}.

Definition Read (f : D) : go Table :=
  b ← make 0 1 mbrSize;
  r ← ReadAt f b 0;
  match r_err r with
  | Some _ => Err (Errorf "error reading MBR from file: %v")
  | None => if negb (r_n r =? len b) then Err (Errorf "read only %d bytes of MBR from file instead of expected %d")
            else tableFromBytes (r_buf r)
  end.

Definition Write (t : Table) (f : D) (size : Z) : go (D * option error) :=
  b ← table_toBytes t;
  '(f, (written, err)) ← WriteAt f b partitionEntriesStart;
  mret (f, match err with
           | Some _ => Some (Errorf "error writing partition table to disk: %v")
           | None => if negb (written =? len b) then Some (Errorf "partition table wrote %d bytes to disk instead of the expected %d") else None
           end).

Definition GetPartitions (t : Table) : list (option Partition) := partitions t.
Definition UUID (t : Table) : gostring := partitionTableUUID t.
Definition Partition_UUID (p : Partition) : gostring := partitionUUID p.
Definition Verify (t : Table) (f : D) (diskSize : Z) : option error := None.
Definition Repair (t : Table) (diskSize : Z) : option error := None.

(** Both offsets are products of 32-bit integers. *)
Definition contents_start (p : Partition) : Z := u32 (Start p * u32 (snd (sectorSizes p))).
Definition contents_size (p : Partition) : Z := u32 (Size p * u32 (snd (sectorSizes p))).

Definition WriteContents {R} `{Stream R} (fuel : nat) (p : Partition) (f : D) (contents : R) : go (D * R * (Z * option error)) :=
  write_contents fuel (fst (sectorSizes p)) (contents_size p) (fun total => i64 (contents_start p + i64 total)) f contents.

Definition ReadContents (fuel : nat) (p : Partition) (f : D) : go (list Z * (Z * option error)) :=
  read_contents fuel (fst (sectorSizes p)) (contents_size p) (fun total => i64 (contents_start p + total)) f.
End disk.

(** ** The bytes of a partition *)

Definition byte (x : Z) : Prop := 0 <= x < 256.
Record partition_fits (p : Partition) : Prop := {
  pf_type : byte (Type_ p); pf_start : 0 <= Start p < 2 ^ 32; pf_size : 0 <= Size p < 2 ^ 32;
  pf_first : byte (StartHead p) /\ byte (StartSector p) /\ byte (StartCylinder p);
  pf_last : byte (EndHead p) /\ byte (EndSector p) /\ byte (EndCylinder p)
}.

(** A partition as it is read: in its slot, with the sizes and the UUID of the table. *)
Definition placed_at (i lss pss : Z) (u : gostring) (p : Partition) : Partition :=
  mkPart i (Bootable p) (Type_ p) (Start p) (Size p) (StartCylinder p) (StartHead p) (StartSector p)
    (EndCylinder p) (EndHead p) (EndSector p) lss pss u.

Lemma partition_bytes_len p : len (partition_bytes p) = 16.
Proof. reflexivity. Qed.

Lemma partition_bytes_ok p : partition_fits p -> bytes_ok (partition_bytes p).
Proof.
  intros [? ? ? (? & ? & ?) (? & ? & ?)]. unfold byte in *. unfold partition_bytes, is_byte. rewrite !Forall_app.
  split; [|split; apply put_le_bytes]. repeat (constructor; [try destruct (Bootable p); lia|]). constructor.
Qed.

Lemma partition_readback i p lss pss : partition_fits p -> partitionFromBytes i (partition_bytes p) lss pss = Ret (placed_at i lss pss [] p).
Proof.
  intros [? Hs Hz ? ?]. unfold partitionFromBytes. set (b := partition_bytes p). change (len b) with 16. cbn [Z.eqb negb].
  rewrite (get_word_ok _ _ _ 8 12), (get_word_ok _ _ _ 12 16) by (reflexivity || lia || (vm_compute; congruence)). change (b.[8, 12]) with (put_le 4 (Start p)). change (b.[12, 16]) with (put_le 4 (Size p)).
  rewrite !LE_put_le. change (256 ^ Z.of_nat 4) with (2 ^ 32). rewrite !Z.mod_small by lia.
  unfold b, partition_bytes, placed_at. destruct (Bootable p); reflexivity.
Qed.

Lemma partition_rewrite i b lss pss p : bytes_ok b -> partitionFromBytes i b lss pss = Ret p -> partition_bytes p = b /\ partition_fits p.
Proof.
  intros Hb H. unfold partitionFromBytes in H. destruct (Z.eqb_spec (len b) partitionEntrySize) as [Hl|]; [|done]. unfold partitionEntrySize in Hl. cbn [negb] in H.
  rewrite (get_word_ok _ _ _ 8 12), (get_word_ok _ _ _ 12 16) in H by lia. pose proof (put_le_sub b 8 4 Hb ltac:(lia) ltac:(lia)) as E1. pose proof (put_le_sub b 12 4 Hb ltac:(lia) ltac:(lia)) as E2.
  change (8 + Z.of_nat 4) with 12 in E1. change (12 + Z.of_nat 4) with 16 in E2.
  pose proof (LE_sub_range b 8 4 Hb ltac:(lia)) as R1. pose proof (LE_sub_range b 12 4 Hb ltac:(lia)) as R2. change (8 + 4) with 12 in R1. change (12 + 4) with 16 in R2.
  set (w1 := LE b.[8, 12]) in *. set (w2 := LE b.[12, 16]) in *. clearbody w1 w2. do 16 (destruct b as [|? b]; [done|]). destruct b; [|unfold len in Hl; cbn in Hl; lia].
  set (b := [z; _; _; _; _; _; _; _; _; _; _; _; _; _; _; _]) in H.
  change (index b 0) with (Ret z) in H. change (index b 1) with (Ret z0) in H. change (index b 2) with (Ret z1) in H. change (index b 3) with (Ret z2) in H.
  change (index b 4) with (Ret z3) in H. change (index b 5) with (Ret z4) in H. change (index b 6) with (Ret z5) in H. change (index b 7) with (Ret z6) in H.
  clear b. cbn [mbind go_bind mret go_ret] in H. inversion Hb as [|x0 ? Hx0 Hb']; subst.
  assert (exists bo : bool, (if bo then 128 else 0) = z /\ p = mkPart i bo z3 w1 w2 z2 z0 z1 z6 z4 z5 lss pss []) as (bo & <- & ->).
  { destruct (Z.eqb_spec z 0) as [->|]; [exists false; split; [done|by injection H as <-]|].
    destruct (Z.eqb_spec z 128) as [->|]; [exists true; split; [done|by injection H as <-]|done]. }
  split.
  - unfold partition_bytes. cbn [Bootable StartHead StartSector StartCylinder Type_ EndHead EndSector EndCylinder Start Size]. rewrite E1, E2. reflexivity.
  - repeat match goal with Hf : Forall _ (_ :: _) |- _ => inversion Hf; clear Hf; subst end. unfold is_byte in *.
    split; unfold byte; cbn [Bootable StartHead StartSector StartCylinder Type_ EndHead EndSector EndCylinder Start Size]; lia.
Qed.

(** ** The table as bytes *)

(** Slot [i] of the table: an entry that the table does not have is empty. *)
Definition empty_partition : Partition := mkPart 0 false 0 0 0 0 0 0 0 0 0 0 0 [].
Definition slot (t : Table) (i : Z) : Partition :=
  match partitions t !! Z.to_nat i with Some (Some p) => p | _ => empty_partition end.

(** Every entry that is written is a partition whose fields fit. *)
Definition table_fits (t : Table) : Prop :=
  forall i q, 0 <= i < 4 -> partitions t !! Z.to_nat i = Some q -> exists p, q = Some p /\ partition_fits p.

Lemma empty_fits : partition_fits empty_partition.
Proof. split; unfold byte; cbn; lia. Qed.

Lemma slot_fits t i : table_fits t -> 0 <= i < 4 -> partition_fits (slot t i).
Proof.
  intros Ht Hi. unfold slot. destruct (partitions t !! Z.to_nat i) as [q|] eqn:E; [|exact empty_fits].
  by destruct (Ht i q Hi E) as (p & -> & ?).
Qed.

Definition slots_bytes (t : Table) : list Z :=
  partition_bytes (slot t 0) ++ partition_bytes (slot t 1) ++ partition_bytes (slot t 2) ++ partition_bytes (slot t 3) ++ getMbrSignature.

Lemma slot_written t i (b : list Z) : table_fits t -> 0 <= i < 4 ->
  (if i <? len (partitions t) then
     p ← Prelude.index (partitions t) i;
     match p with None => Panic NilDereference | Some p => mret (b ++ partition_bytes p) end
   else mret (b ++ replicate 16 0)) = Ret (b ++ partition_bytes (slot t i)).
Proof.
  intros Ht Hi. unfold slot. destruct (Z.ltb_spec i (len (partitions t))) as [Hl|Hl].
  - destruct (index_ok (partitions t) i ltac:(lia)) as (q & Hq & ->). cbn [mbind go_bind]. rewrite Hq.
    by destruct (Ht i q Hi Hq) as (p & -> & _).
  - rewrite lookup_ge_None_2 by (unfold len in Hl; lia). reflexivity.
Qed.

Lemma table_written t : table_fits t -> table_toBytes t = Ret (slots_bytes t).
Proof.
  intros Ht. unfold table_toBytes. change (Z.to_nat partitionEntriesCount) with 4%nat. cbn [go_range].
  rewrite (slot_written t 0) by (done || lia). cbn [mbind go_bind]. rewrite (slot_written t (0 + 1)) by (done || lia). cbn [mbind go_bind].
  rewrite (slot_written t (0 + 1 + 1)) by (done || lia). cbn [mbind go_bind]. rewrite (slot_written t (0 + 1 + 1 + 1)) by (done || lia).
  cbn [mbind go_bind mret go_ret]. rewrite <-!(assoc_L app). reflexivity.
Qed.

(** What a table in a sector of 512 bytes is read as. *)
Definition read_as (b : list Z) (p : Z -> Partition) : Table :=
  let u := hex 8 (LE b.[440, 444]) in
  let entry i := Some (placed_at i defaultSectorSize defaultSectorSize (formatPartitionUUID u i) (p (i - 1))) in
  mkTable (Some [entry 1; entry 2; entry 3; entry 4]) defaultSectorSize 512 u.

Lemma entry_read b i p (parts : list (option Partition)) u : partition_fits p -> 446 + i * 16 + 16 <= len b -> 0 <= i -> b.[446 + i * 16, 446 + i * 16 + 16] = partition_bytes p ->
  (e ← slice b (partitionEntriesStart + i * partitionEntrySize) (partitionEntriesStart + i * partitionEntrySize + partitionEntrySize);
   r ← catch (partitionFromBytes (i + 1) e defaultSectorSize defaultSectorSize);
   match r with
   | inr _ => Err (Errorf "error reading partition entry %d: %v")
   | inl p => mret (parts ++ [Some (with_uuid p (formatPartitionUUID u (i + 1)))])
   end) = Ret (parts ++ [Some (placed_at (i + 1) defaultSectorSize defaultSectorSize (formatPartitionUUID u (i + 1)) p)]).
Proof.
  intros Hp Hl Hi Hb. unfold partitionEntriesStart, partitionEntrySize. rewrite slice_ok by lia. cbn [mbind go_bind].
  rewrite Hb, partition_readback by done. reflexivity.
Qed.

Lemma table_read b (p : Z -> Partition) : len b = 512 -> b.[510, 512] = getMbrSignature ->
  (forall i, 0 <= i < 4 -> partition_fits (p i) /\ b.[446 + i * 16, 446 + i * 16 + 16] = partition_bytes (p i)) ->
  tableFromBytes b = Ret (read_as b p).
Proof.
  intros Hl Hs Hp. unfold tableFromBytes, mbrSize, signatureStart. rewrite Hl. cbn [Z.eqb Pos.eqb negb]. rewrite slice_ok by lia. cbn [mbind go_bind].
  rewrite Hs, bool_decide_true by done. cbn [negb]. unfold readPartitionTableUUID, partitionTableUUIDStart, partitionTableUUIDEnd.
  rewrite (get_word_ok _ _ _ 440 444) by lia. cbn [mbind go_bind mret go_ret].
  change (Z.to_nat partitionEntriesCount) with 4%nat. cbn [go_range].
  destruct (Hp 0) as [F0 E0]; [lia|]. destruct (Hp 1) as [F1 E1]; [lia|]. destruct (Hp 2) as [F2 E2]; [lia|]. destruct (Hp 3) as [F3 E3]; [lia|].
  rewrite (entry_read b 0 (p 0)) by (done || lia). cbn [mbind go_bind].
  rewrite (entry_read b (0 + 1) (p 1)) by (done || lia). cbn [mbind go_bind].
  rewrite (entry_read b (0 + 1 + 1) (p 2)) by (done || lia). cbn [mbind go_bind].
  rewrite (entry_read b (0 + 1 + 1 + 1) (p 3)) by (done || lia). cbn [mbind go_bind mret go_ret]. reflexivity.
Qed.

(** The steps of the parser, backwards. *)
Lemma entry_parsed b i (parts : list (option Partition)) u r : bytes_ok b -> len b = 512 -> 0 <= i < 4 ->
  (e ← slice b (partitionEntriesStart + i * partitionEntrySize) (partitionEntriesStart + i * partitionEntrySize + partitionEntrySize);
   r ← catch (partitionFromBytes (i + 1) e defaultSectorSize defaultSectorSize);
   match r with
   | inr _ => Err (Errorf "error reading partition entry %d: %v")
   | inl p => mret (parts ++ [Some (with_uuid p (formatPartitionUUID u (i + 1)))])
   end) = Ret r ->
  exists p, r = parts ++ [Some p] /\ partition_fits p /\ partition_bytes p = b.[446 + i * 16, 446 + i * 16 + 16].
Proof.
  unfold partitionEntriesStart, partitionEntrySize. intros Hb Hl Hi H. rewrite slice_ok in H by lia. cbn [mbind go_bind] in H.
  apply bind_catch_ret in H as [(p & Hp & H)|(e & _ & H)]; [|done]. apply Ret_inj in H as <-.
  apply partition_rewrite in Hp as [Hpb Hpf]; [|by apply bytes_ok_sub].
  eexists. split; [done|]. split; [by destruct Hpf; split|exact Hpb].
Qed.

Lemma table_parsed b t : bytes_ok b -> tableFromBytes b = Ret t -> len b = 512 /\ b.[510, 512] = getMbrSignature /\
  exists p1 p2 p3 p4, Partitions t = Some [Some p1; Some p2; Some p3; Some p4] /\
    Forall partition_fits [p1; p2; p3; p4] /\
    partition_bytes p1 = b.[446, 462] /\ partition_bytes p2 = b.[462, 478] /\ partition_bytes p3 = b.[478, 494] /\ partition_bytes p4 = b.[494, 510].
Proof.
  intros Hb H. unfold tableFromBytes, mbrSize, signatureStart in H. destruct (Z.eqb_spec (len b) 512) as [Hl|]; [|done]. cbn [negb] in H.
  rewrite Hl in H. rewrite slice_ok in H by lia. cbn [mbind go_bind] in H. case_bool_decide as Hs; [|done]. cbn [negb] in H.
  apply bind_Ret in H as (u & _ & H). apply bind_Ret in H as (parts & Hp & H). apply Ret_inj in H as <-.
  change (Z.to_nat partitionEntriesCount) with 4%nat in Hp. cbn [go_range] in Hp.
  apply bind_Ret in Hp as (q1 & Hq & Hp). apply (entry_parsed b 0) in Hq as (p1 & -> & F1 & E1); [|done|done|lia].
  apply bind_Ret in Hp as (q2 & Hq & Hp). apply (entry_parsed b (0 + 1)) in Hq as (p2 & -> & F2 & E2); [|done|done|lia].
  apply bind_Ret in Hp as (q3 & Hq & Hp). apply (entry_parsed b (0 + 1 + 1)) in Hq as (p3 & -> & F3 & E3); [|done|done|lia].
  apply bind_Ret in Hp as (q4 & Hq & Hp). apply (entry_parsed b (0 + 1 + 1 + 1)) in Hq as (p4 & -> & F4 & E4); [|done|done|lia].
  apply Ret_inj in Hp as <-. split; [done|]. split; [done|]. exists p1, p2, p3, p4. split; [done|]. split; [by do 4 (constructor; [assumption|])|]. done.
Qed.

Lemma partition_total i b lss pss : wp (partitionFromBytes i b lss pss) (fun _ => True) (fun _ => True).
Proof.
  unfold partitionFromBytes, partitionEntrySize. destruct (Z.eqb_spec (len b) 16); [|done]. cbn [negb].
  rewrite !index_byte_at, (get_word_ok _ _ _ 8 12), (get_word_ok _ _ _ 12 16) by lia. cbn [mbind go_bind].
  destruct (_ =? 0); [done|]. by destruct (_ =? 128).
Qed.

Lemma table_total b : wp (tableFromBytes b) (fun _ => True) (fun _ => True).
Proof.
  unfold tableFromBytes, mbrSize, signatureStart. destruct (Z.eqb_spec (len b) 512) as [Hl|]; [|done]. cbn [negb]. rewrite Hl.
  rewrite slice_ok by lia. cbn [mbind go_bind]. case_bool_decide; [|done]. cbn [negb].
  unfold readPartitionTableUUID, partitionTableUUIDStart, partitionTableUUIDEnd. rewrite (get_word_ok _ _ _ 440 444) by lia. cbn [mbind go_bind mret go_ret].
  apply wp_bind. apply wp_mono with (P := fun _ => True) (E := fun _ => True); [|done|done].
  apply (wp_go_range (fun _ _ => True)); [done|]. intros i s Hi _. cbn beta zeta. unfold partitionEntriesStart, partitionEntriesCount, partitionEntrySize in *.
  rewrite slice_ok by lia. cbn [mbind go_bind]. pose proof (partition_total (i + 1) b.[446 + i * 16, 446 + i * 16 + 16] defaultSectorSize defaultSectorSize) as Ht.
  by destruct (partitionFromBytes _ _ _ _).
Qed.

(** C16. An MBR that [tableFromBytes] accepts is written back byte for byte: the table in it
    has four partitions, whose fields fit, and [toBytes] gives the partition entries and
    the signature of the sector that was read. Whatever the sector holds, the parser
    returns a table or an error. *)
Theorem mbr_rewrite b : bytes_ok b ->
  wp (tableFromBytes b) (fun t => len b = 512 /\ table_fits t /\ len (partitions t) = 4 /\ table_toBytes t = Ret b.[446, 512]) (fun _ => True).
Proof.
  intros Hb. destruct (tableFromBytes b) as [t|e|p|] eqn:E; cbn [wp].
  - destruct (table_parsed b t Hb E) as (Hl & Hs & p1 & p2 & p3 & p4 & Hp & Hf & E1 & E2 & E3 & E4). split; [done|].
    assert (partitions t = [Some p1; Some p2; Some p3; Some p4]) as Hps by (unfold partitions; by rewrite Hp).
    assert (table_fits t) as Ht.
    { intros i q Hi Hq. rewrite Hps in Hq. rewrite !Forall_cons in Hf. destruct Hf as (? & ? & ? & ? & _).
      assert (i = 0 \/ i = 1 \/ i = 2 \/ i = 3) as [-> | [-> | [-> | ->]]] by lia; injection Hq as <-; eexists; split; done. }
    split; [done|]. split; [by rewrite Hps|]. rewrite (table_written t Ht). f_equal. unfold slots_bytes, slot. rewrite Hps.
    change (partition_bytes p1 ++ partition_bytes p2 ++ partition_bytes p3 ++ partition_bytes p4 ++ getMbrSignature = b.[446, 512]).
    rewrite E1, E2, E3, E4, <-Hs. rewrite !sub_cat by lia. done.
  - done.
  - pose proof (table_total b) as Ht. by rewrite E in Ht.
  - pose proof (table_total b) as Ht. by rewrite E in Ht.
Qed.

(** ** On the disk *)

Section laws.
Context {D : Type} `{Hst : Storage D} {repr : D -> Z -> (Z -> Z) -> Prop} {Hdev : WritableDevice D repr}.

Lemma mbr_slots_len t : len (slots_bytes t) = 66.
Proof. reflexivity. Qed.

Lemma slots_ok t : table_fits t -> bytes_ok (slots_bytes t).
Proof.
  intros Ht. unfold slots_bytes. rewrite !Forall_app. pose proof (slot_fits t) as Hs.
  split; [by apply partition_bytes_ok, Hs; [|lia]|]. split; [by apply partition_bytes_ok, Hs; [|lia]|].
  split; [by apply partition_bytes_ok, Hs; [|lia]|]. split; [by apply partition_bytes_ok, Hs; [|lia]|].
  unfold getMbrSignature, is_byte. repeat (constructor; [lia|]). constructor.
Qed.

Lemma slots_in_sector t x : len x = 446 -> (x ++ slots_bytes t).[510, 512] = getMbrSignature /\
  forall i, 0 <= i < 4 -> (x ++ slots_bytes t).[446 + i * 16, 446 + i * 16 + 16] = partition_bytes (slot t i).
Proof.
  intros Hx. unfold slots_bytes. pose proof (partition_bytes_len (slot t 0)). pose proof (partition_bytes_len (slot t 1)).
  pose proof (partition_bytes_len (slot t 2)). pose proof (partition_bytes_len (slot t 3)).
  set (s0 := partition_bytes (slot t 0)) in *. set (s1 := partition_bytes (slot t 1)) in *.
  set (s2 := partition_bytes (slot t 2)) in *. set (s3 := partition_bytes (slot t 3)) in *.
  split.
  - replace (x ++ s0 ++ s1 ++ s2 ++ s3 ++ getMbrSignature) with ((x ++ s0 ++ s1 ++ s2 ++ s3) ++ getMbrSignature ++ []) by (rewrite app_nil_r, <-!(assoc_L app); done).
    apply sub_mid; [rewrite !len_app; lia|reflexivity].
  - intros i Hi. assert (i = 0 \/ i = 1 \/ i = 2 \/ i = 3) as [-> | [-> | [-> | ->]]] by lia.
    + apply sub_mid; [by rewrite Hx|reflexivity].
    + fold s1. replace (x ++ s0 ++ s1 ++ s2 ++ s3 ++ getMbrSignature) with ((x ++ s0) ++ s1 ++ s2 ++ s3 ++ getMbrSignature) by (rewrite <-!(assoc_L app); done).
      apply sub_mid; [rewrite !len_app; lia|reflexivity].
    + fold s2. replace (x ++ s0 ++ s1 ++ s2 ++ s3 ++ getMbrSignature) with ((x ++ s0 ++ s1) ++ s2 ++ s3 ++ getMbrSignature) by (rewrite <-!(assoc_L app); done).
      apply sub_mid; [rewrite !len_app; lia|reflexivity].
    + fold s3. replace (x ++ s0 ++ s1 ++ s2 ++ s3 ++ getMbrSignature) with ((x ++ s0 ++ s1 ++ s2) ++ s3 ++ getMbrSignature) by (rewrite <-!(assoc_L app); done).
      apply sub_mid; [rewrite !len_app; lia|reflexivity].
Qed.

(** A table that is written to any writable device of a sector or more is read back:
    its first four partitions, those it lacks as empty entries, each with its number and
    the UUID made of the disk's identifier, which is what the device held at offset 440.
    Nothing changes outside the 66 bytes of the entries and the signature. *)
Theorem mbr_write_then_read t d dsize c size : table_fits t -> repr d dsize c -> 512 <= dsize ->
  exists d' c', Write t d size = Ret (d', None) /\ repr d' dsize c' /\ (forall x, ~ (446 <= x < 512) -> c' x = c x) /\
    Read d' = Ret (read_as (span c 0 512) (slot t)).
Proof.
  intros Ht Hr Hd. pose proof (wd_size _ _ _ Hr). destruct (wd_write _ _ _ (slots_bytes t) 446 Hr (slots_ok t Ht)) as (d' & Hw & Hr'); [lia|rewrite mbr_slots_len; lia|].
  exists d', (overwrite c 446 (slots_bytes t)). split; [|split; [exact Hr'|split]].
  - unfold Write, partitionEntriesStart. rewrite (table_written t Ht). cbn [mbind go_bind]. rewrite Hw. cbn [mbind go_bind mret go_ret].
    by rewrite Z.eqb_refl.
  - intros x Hx. apply overwrite_out. rewrite mbr_slots_len. lia.
  - unfold Read, mbrSize. rewrite make_ok by (unfold maxAlloc; lia). cbn [mbind go_bind].
    rewrite (wd_read _ _ _ _ _ Hr') by (rewrite ?len_replicate; lia). cbn [mbind go_bind r_err r_n r_buf]. rewrite Z.eqb_refl. cbn [negb].
    change (len (replicate (Z.to_nat 512) 0)) with (446 + 66). rewrite span_app by lia. rewrite (span_same _ c 0 446) by (intros; apply overwrite_out; lia).
    change (0 + 446) with 446. pose proof (overwrite_span c 446 (slots_bytes t)) as E. rewrite mbr_slots_len in E. rewrite E.
    destruct (slots_in_sector t (span c 0 446) (len_span c 0 446 ltac:(lia))) as [Hs Hp].
    rewrite (table_read _ (slot t)); [|by rewrite len_app, mbr_slots_len, len_span by lia|exact Hs|intros i Hi; split; [by apply slot_fits|by apply Hp]].
    reflexivity.
Qed.

(** ** The contents of a partition *)

(** Where a partition lies, with no product of 32 bits wrapped. *)
Record lies_in (p : Partition) (dsize : Z) : Prop := {
  li_sizes : 0 < fst (sectorSizes p) <= 2 ^ 16 /\ 0 < snd (sectorSizes p) < 2 ^ 32;
  li_start : 0 <= Start p /\ Start p * snd (sectorSizes p) < 2 ^ 32;
  li_size : 0 <= Size p /\ Size p * snd (sectorSizes p) < 2 ^ 32;
  li_fit : GetStart p + GetSize p <= dsize
}.

Lemma lies_where p dsize : lies_in p dsize -> contents_start p = GetStart p /\ contents_size p = GetSize p /\
  0 <= GetStart p < 2 ^ 32 /\ 0 <= GetSize p < 2 ^ 32.
Proof.
  intros [[_ Hl] Hs Hz _]. unfold contents_start, contents_size, GetStart, GetSize. rewrite (wrap_u_id 32 (snd _)) by lia.
  rewrite !(wrap_u_id 32), !i64_id by nia. nia.
Qed.

(** [WriteContents] on a partition that starts and ends below 4 GiB: the stream is
    written from the start of the partition up to its end, whatever the sizes of the reads;
    no byte outside the partition changes; there is no error exactly if the stream has the
    size of the partition. [ReadContents] of a partition of whole sectors then gives the
    stream back. *)
Theorem mbr_contents_roundtrip {R} `{Stream R} p d dsize c k (r : R) content fuel : lies_in p dsize -> repr d dsize c ->
  delivers (fst (sectorSizes p)) k r content -> (k <= fuel)%nat ->
  contents_written dsize c (GetStart p) (GetSize p) content (WriteContents fuel p d r) (repr := repr) /\
  (len content = GetSize p -> forall m, (0 < m <= fuel)%nat -> GetSize p = Z.of_nat m * fst (sectorSizes p) ->
    exists d' r', WriteContents fuel p d r = Ret (d', r', (GetSize p, None)) /\ ReadContents fuel p d' = Ret (content, (GetSize p, None))).
Proof.
  intros Hp Hr Hdel Hfu. destruct (lies_where p dsize Hp) as (Es & Ez & Rs & Rz). destruct Hp as [[Hpss Hlss] _ _ Hfit].
  pose proof (wd_size _ _ _ Hr).
  assert (contents_written (repr := repr) dsize c (GetStart p) (GetSize p) content (WriteContents fuel p d r)) as Hw.
  { unfold WriteContents. rewrite Ez. apply (write_contents_ok dsize _ _ _ _ c d k); try done; [unfold maxAlloc; lia|lia|lia|].
    intros t Ht. rewrite Es. rewrite !i64_id by (rewrite ?i64_id; lia). done. }
  split; [exact Hw|]. intros Hl m Hm Hsz. destruct Hw as (d' & r' & q & c' & err & Hres & Hr' & Hc' & _ & Hq & Hall & Herr).
  rewrite (Hall ltac:(lia)) in *. rewrite (proj2 Herr Hl), Hl in Hres. exists d', r'. split; [exact Hres|].
  unfold ReadContents. rewrite Ez. rewrite (read_contents_ok dsize _ (GetStart p) (GetSize p) _ c' d' m fuel); try done; try lia.
  - rewrite <-Hsz. rewrite (span_eq _ _ _ _ Hc'). rewrite <-Hl. by rewrite overwrite_span.
  - unfold maxAlloc. lia.
  - intros t Ht1 Ht2. rewrite Es, i64_id by lia. done.
Qed.
End laws.

(** Observations: a partition at 4 GiB is read and written at the start of the disk, and a
    table of more than four partitions loses the others. *)
Definition far_partition : Partition := mkPart 1 false 0x83 8388608 1 0 0 0 0 0 0 512 512 [].
Example far_partition_wraps : GetStart far_partition = 2 ^ 32 /\ contents_start far_partition = 0.
Proof. split; reflexivity. Qed.
Example fifth_partition_dropped : let p := Some far_partition in
  table_toBytes (mkTable (Some [p; p; p; p; p]) 512 512 []) = table_toBytes (mkTable (Some [p; p; p; p]) 512 512 []).
Proof. reflexivity. Qed.

(** ** Witnesses *)

Definition boot_record : list Z := replicate 440 0 ++ [0x78; 0x56; 0x34; 0x12; 0; 0] ++
  partition_bytes (mkPart 0 true 0x0c 2048 4096 1 2 3 4 5 6 0 0 []) ++ partition_bytes (mkPart 0 false 0x83 6144 64 1 2 3 4 5 6 0 0 []) ++ replicate 32 0 ++ [0x55; 0xaa].

Lemma mbr_rewrite_witness : exists t, tableFromBytes boot_record = Ret t /\ UUID t = lit "12345678" /\ table_toBytes t = Ret boot_record.[446, 512].
Proof.
  assert (bytes_ok boot_record) as Hb by (apply bytes_okb_ok; vm_compute; reflexivity).
  pose proof (mbr_rewrite boot_record Hb) as H. destruct (tableFromBytes boot_record) as [t|e|p|] eqn:E; [|vm_compute in E; discriminate..].
  exists t. split; [reflexivity|]. split; [|exact (proj2 (proj2 (proj2 H)))].
  vm_compute in E. injection E as <-. reflexivity.
Defined.

Definition two_partitions : Table := mkTable (Some [Some (mkPart 0 true 0x0c 2 4 1 2 3 4 5 6 0 0 []); Some (mkPart 0 false 0x83 6 8 1 2 3 4 5 6 0 0 [])]) 512 512 [].

Lemma two_partitions_fit : table_fits two_partitions.
Proof.
  intros i q Hi Hq. assert (i = 0 \/ i = 1 \/ i = 2 \/ i = 3) as [-> | [-> | [-> | ->]]] by lia; vm_compute in Hq; try discriminate;
    injection Hq as <-; eexists; (split; [reflexivity|]); split; unfold byte; cbn; lia.
Defined.

Definition disk8k : memory := mkMemory (replicate 8192 0) false 0.
Lemma disk8k_is : memory_is disk8k 8192 (file_content (replicate 8192 0)).
Proof. unfold memory_is, disk8k. cbn [readOnly data]. rewrite len_replicate. split_and!; [done|done|lia|apply bytes_ok_zeros|done]. Defined.

Lemma mbr_write_then_read_witness : exists d, Write two_partitions disk8k 8192 = Ret (d, None) /\ 
  Read d = Ret (read_as (span (file_content (replicate 8192 0)) 0 512) (slot two_partitions)).
Proof.
  destruct (mbr_write_then_read (repr := memory_is) two_partitions disk8k 8192 _ 8192 two_partitions_fit disk8k_is) as (d & c' & Hw & _ & _ & Hrd); [lia|].
  exists d. split; [exact Hw|exact Hrd].
Defined.

Lemma mbr_contents_roundtrip_witness : let p := mkPart 1 true 0x0c 2 4 1 2 3 4 5 6 512 512 [] in let content := replicate 2048 7 in
  exists d r, WriteContents 3000 p disk8k content = Ret (d, r, (2048, None)) /\ ReadContents 3000 p d = Ret (content, (2048, None)).
Proof.
  cbv zeta. set (p := mkPart _ _ _ _ _ _ _ _ _ _ _ _ _ _). set (content := replicate 2048 7).
  assert (bytes_ok content) as Hb by (apply Forall_replicate; unfold is_byte; lia).
  destruct (bytes_stream_delivers 512 content ltac:(lia) Hb) as (k & Hk & Hd).
  assert (lies_in p 8192) as Hp by (split; [split; cbn; lia|split; cbn; lia|split; cbn; lia|vm_compute; congruence]).
  assert (k <= 3000)%nat as Hk' by (unfold content in Hk; rewrite length_replicate in Hk; lia).
  destruct (proj2 (mbr_contents_roundtrip (repr := memory_is) p disk8k 8192 _ k content content 3000 Hp disk8k_is Hd Hk')) with (m := 4%nat) as (d & r & Hw & Hrd);
    [unfold content; rewrite len_replicate; reflexivity|lia|reflexivity|].
  exists d, r. split; [exact Hw|exact Hrd].
Defined.
