(* ===== verification/Crc32.v ===== *)
(** * Crc32: hash/crc32
    [crc32.ChecksumIEEE] and [crc32.Update] with the IEEE table, one bit at a time. *)
From S2P Require Import Prelude Bytes.

Definition ieee : Z := 0xEDB88320.
Definition crc_bit (c : Z) : Z := if Z.odd c then Z.lxor (Z.shiftr c 1) ieee else Z.shiftr c 1.
Definition crc_byte (c b : Z) : Z := Nat.iter 8 crc_bit (Z.lxor c b).
Definition crc_update (c : Z) (l : list Z) : Z := Z.lxor (foldl crc_byte (Z.lxor c 0xFFFFFFFF) l) 0xFFFFFFFF.
Definition ChecksumIEEE (l : list Z) : Z := crc_update 0 l.

Example crc_check : ChecksumIEEE (map (fun d => 48 + d) [1; 2; 3; 4; 5; 6; 7; 8; 9]) = 0xCBF43926.
Proof. reflexivity. Qed.

Lemma crc_bit_range c : 0 <= c < 2 ^ 32 -> 0 <= crc_bit c < 2 ^ 32.
Proof.
  intros Hc. assert (0 <= Z.shiftr c 1 < 2 ^ 32) by (rewrite Z.shiftr_div_pow2 by lia; split; [apply Z.div_pos; lia|apply Z.div_lt_upper_bound; lia]).
  unfold crc_bit. destruct (Z.odd c); [|done]. by apply lxor_range; [lia| |unfold ieee; lia].
Qed.

Lemma crc_byte_range c b : 0 <= c < 2 ^ 32 -> is_byte b -> 0 <= crc_byte c b < 2 ^ 32.
Proof.
  intros Hc Hb. unfold is_byte in Hb. unfold crc_byte. assert (0 <= Z.lxor c b < 2 ^ 32) as Hx by (apply lxor_range; lia).
  revert Hx. generalize (Z.lxor c b). generalize 8%nat; intros k; induction k as [|k IH]; intros x Hx; [done|]. cbn [Nat.iter nat_rect]. apply crc_bit_range, IH, Hx.
Qed.

(** A checksum fits its field. *)
Lemma checksum_range l : bytes_ok l -> 0 <= ChecksumIEEE l < 2 ^ 32.
Proof.
  intros Hl. unfold ChecksumIEEE, crc_update. apply lxor_range; [lia| |lia].
  assert (0 <= Z.lxor 0 0xFFFFFFFF < 2 ^ 32) as Hx by (cbv; split; congruence).
  revert Hx. generalize (Z.lxor 0 0xFFFFFFFF). induction Hl as [|b l Hb Hl IH]; intros x Hx; cbn [foldl]; [done|].
  apply IH. by apply crc_byte_range.
Qed.
