(* ===== verification/Utf16.v ===== *)
(** * Utf16: unicode/utf16
    [utf16.Encode] and [utf16.Decode], and that decoding undoes encoding. *)
From S2P Require Import Prelude Bytes Text.

Definition encode_utf16 (r : Z) : list Z :=
  if within 0 0xD7FF r || within 0xE000 0xFFFF r then [r]
  else if within 0x10000 0x10FFFF r then
    let r := r - 0x10000 in [0xD800 + Z.land (Z.shiftr r 10) 0x3FF; 0xDC00 + Z.land r 0x3FF]
  else [RuneError].
Definition Encode (rs : list Z) : list Z := rs ≫= encode_utf16.

Fixpoint Decode (u : list Z) : list Z :=
  match u with
  | [] => []
  | a :: u' =>
      if within 0xD800 0xDBFF a then
        match u' with
        | b :: u'' => if within 0xDC00 0xDFFF b then Z.lor (Z.shiftl (a - 0xD800) 10) (b - 0xDC00) + 0x10000 :: Decode u'' else RuneError :: Decode u'
        | [] => [RuneError]
        end
      else if within 0xDC00 0xDFFF a then RuneError :: Decode u'
      else a :: Decode u'
  end.

Lemma within_true lo hi x : lo <= x <= hi -> within lo hi x = true.
Proof. intros Hx. unfold within. apply andb_true_iff. rewrite !Z.leb_le. lia. Qed.

Lemma within_false lo hi x : x < lo \/ hi < x -> within lo hi x = false.
Proof. intros Hx. unfold within. apply andb_false_iff. rewrite !Z.leb_gt. lia. Qed.

Lemma Decode_plain a u : 0 <= a <= 0xD7FF \/ 0xE000 <= a -> Decode (a :: u) = a :: Decode u.
Proof. intros Ha. cbn [Decode]. by rewrite !within_false by lia. Qed.

Lemma Decode_pair r u : 0x10000 <= r <= 0x10FFFF -> Decode (encode_utf16 r ++ u) = r :: Decode u.
Proof.
  intros Hr. unfold encode_utf16. rewrite !within_false, within_true by lia. cbn [orb app]. set (x := r - 0x10000).
  assert (0 <= x < 2 ^ 20) as Hx by (unfold x; lia). change 0x3FF with (2 ^ 10 - 1).
  rewrite !land_mask, Z.shiftr_div_pow2 by lia. pose proof (Z.mod_pos_bound x (2 ^ 10)). pose proof (Z.mod_pos_bound (x / 2 ^ 10) (2 ^ 10)).
  cbn [Decode]. rewrite !within_true by lia. rewrite Z.lor_comm.
  replace (0xDC00 + x mod 2 ^ 10 - 0xDC00) with (x mod 2 ^ 10) by lia. replace (0xD800 + (x / 2 ^ 10) mod 2 ^ 10 - 0xD800) with ((x / 2 ^ 10) mod 2 ^ 10) by lia.
  rewrite lor_shiftl_add by lia. rewrite (Z.mod_small (x / 2 ^ 10)) by (split; [apply Z.div_pos; lia|apply Z.div_lt_upper_bound; lia]).
  f_equal. pose proof (Z.div_mod x (2 ^ 10)). unfold x in *. lia.
Qed.

Lemma Decode_Encode rs : Forall scalar rs -> Decode (Encode rs) = rs.
Proof.
  induction 1 as [|r rs Hr Hrs IH]; [done|]. unfold Encode. cbn [mbind list_bind]. fold (Encode rs). change (rs ≫= encode_utf16) with (Encode rs).
  destruct Hr as [Hr Hs]. destruct (Z.lt_ge_cases r 0x10000).
  - unfold encode_utf16. assert (within 0 0xD7FF r || within 0xE000 0xFFFF r = true) as ->.
    { apply orb_true_iff. destruct (Z.lt_ge_cases r 0xD800); [left|right]; apply within_true; lia. }
    cbn [app]. rewrite Decode_plain by lia. by rewrite IH.
  - by rewrite Decode_pair, IH by lia.
Qed.

(** The code units of a rune are words, and none is zero unless the rune is. *)
Lemma encode_units r u : scalar r -> u ∈ encode_utf16 r -> 0 <= u < 2 ^ 16 /\ (u = 0 -> r = 0).
Proof.
  intros [Hr Hs]. unfold encode_utf16. destruct (within 0 0xD7FF r || within 0xE000 0xFFFF r) eqn:E.
  - rewrite list_elem_of_singleton. intros ->. unfold within in E. apply orb_true_iff in E. rewrite !andb_true_iff, !Z.leb_le in E. lia.
  - destruct (within 0x10000 0x10FFFF r).
    + change 0x3FF with (2 ^ 10 - 1). rewrite !land_mask by lia. intros Hu. rewrite !elem_of_cons in Hu.
      pose proof (Z.mod_pos_bound (Z.shiftr (r - 65536) 10) (2 ^ 10)). pose proof (Z.mod_pos_bound (r - 65536) (2 ^ 10)).
      destruct Hu as [-> | [-> | Hu]]; [lia|lia|by apply elem_of_nil in Hu].
    + rewrite list_elem_of_singleton. intros ->. unfold RuneError. lia.
Qed.
