(* ===== verification/Guid.v ===== *)
(** * Guid: identifiers of GPT disks and partitions
    What gpt uses of package google/uuid, as a class with the documented behaviour as laws;
    gpt/common.go; and an instance of the class that formats and parses the canonical form. *)
From S2P Require Import Prelude Bytes Text.

(** [uuid.Parse], [UUID.String] and [uuid.FromBytes]; an identifier is its 16 bytes. *)
Class UUIDs := {
  uuid_Parse : gostring -> option (list Z);
  uuid_String : list Z -> gostring;
  uuid_FromBytes : list Z -> option (list Z)
}.

(** [strings.ToUpper] of a string of ASCII characters. *)
Definition ToUpper (s : gostring) : gostring := map (fun c => if within 97 122 c then c - 32 else c) s.

Definition guid_ok (g : list Z) : Prop := len g = 16 /\ bytes_ok g.

(** Parsing takes either case and inverts formatting in both, whose result is ASCII; a parsed
    identifier has 16 bytes, and 16 bytes are an identifier. *)
Class UUIDLaws `{UUIDs} : Prop := {
  uuid_parse_string g : guid_ok g -> uuid_Parse (ToUpper (uuid_String g)) = Some g;
  uuid_parse_lower g : guid_ok g -> uuid_Parse (uuid_String g) = Some g;
  uuid_parse_ok s g : uuid_Parse s = Some g -> guid_ok g;
  uuid_string_ascii g : guid_ok g -> ascii_ok (uuid_String g) /\ uuid_String g <> [];
  uuid_from_bytes g : len g = 16 -> uuid_FromBytes g = Some g
}.

(** The identifier as it is shown. *)
Definition shown `{UUIDs} (g : list Z) : gostring := ToUpper (uuid_String g).

(** The first three groups are little-endian on the disk. *)
Definition swapped (b : list Z) : list Z := rev b.[0, 4] ++ rev b.[4, 6] ++ rev b.[6, 8] ++ from b 8.
Definition bytesToUUIDBytes (b : list Z) : go (list Z) := b ← slice b 0 16; mret (swapped b).

Ltac split_16 b Hl := do 16 (destruct b as [|? b]; [discriminate Hl|]); destruct b; [|rewrite !len_cons in Hl; pose proof (len_nonneg b); lia].

Lemma swap_ok b : len b = 16 -> bytesToUUIDBytes b = Ret (swapped b).
Proof. intros Hl. unfold bytesToUUIDBytes. rewrite slice_ok by lia. cbn [mbind go_bind]. rewrite <-Hl, sub_full. done. Qed.

Lemma swap_swap b : len b = 16 -> swapped (swapped b) = b.
Proof. intros Hl. split_16 b Hl. reflexivity. Qed.

Lemma swap_guid b : guid_ok b -> guid_ok (swapped b).
Proof.
  intros [Hl Hb]. split; [clear Hb; split_16 b Hl; reflexivity|]. unfold swapped. rewrite !Forall_app.
  split; [by apply Forall_rev, bytes_ok_sub|]. split; [by apply Forall_rev, bytes_ok_sub|]. split; [by apply Forall_rev, bytes_ok_sub|]. by apply bytes_ok_from.
Qed.

(** ** The canonical form *)

Definition hex_char (d : Z) : Z := if d <? 10 then 48 + d else 87 + d.
Definition hex_value (c : Z) : option Z :=
  if within 48 57 c then Some (c - 48) else if within 65 70 c then Some (c - 55) else if within 97 102 c then Some (c - 87) else None.

Definition hex_byte (b : Z) : gostring := [hex_char (b / 16); hex_char (b mod 16)].
Fixpoint unhex (s : gostring) : option (list Z) :=
  match s with
  | [] => Some []
  | [_] => None
  | x :: y :: s' => h ← hex_value x; l ← hex_value y; r ← unhex s'; Some (16 * h + l :: r)
  end.

Definition format_uuid (g : list Z) : gostring :=
  (g.[0, 4] ≫= hex_byte) ++ [45] ++ (g.[4, 6] ≫= hex_byte) ++ [45] ++ (g.[6, 8] ≫= hex_byte) ++ [45] ++ (g.[8, 10] ≫= hex_byte) ++ [45] ++ (from g 10 ≫= hex_byte).
Definition parse_uuid (s : gostring) : option (list Z) :=
  if (len s =? 36) && bool_decide ([byte_at s 8; byte_at s 13; byte_at s 18; byte_at s 23] = [45; 45; 45; 45])
  then unhex (s.[0, 8] ++ s.[9, 13] ++ s.[14, 18] ++ s.[19, 23] ++ from s 24)
  else None.

Definition canonical_uuids : UUIDs := {|
  uuid_Parse := parse_uuid; uuid_String := format_uuid; uuid_FromBytes b := if len b =? 16 then Some b else None
|}.

Definition upper_char (c : Z) : Z := if within 97 122 c then c - 32 else c.

Lemma hex_value_char d : 0 <= d < 16 -> hex_value (upper_char (hex_char d)) = Some d /\ is_ascii (hex_char d).
Proof.
  intros Hd. assert (d = 0 \/ d = 1 \/ d = 2 \/ d = 3 \/ d = 4 \/ d = 5 \/ d = 6 \/ d = 7 \/ d = 8 \/ d = 9 \/ d = 10 \/ d = 11 \/ d = 12 \/ d = 13 \/ d = 14 \/ d = 15) as Hc by lia.
  unfold is_ascii. repeat (destruct Hc as [->|Hc]; [split; [reflexivity|cbv; split; congruence]|]). subst. split; [reflexivity|cbv; split; congruence].
Qed.

(** A function on digits that keeps their value: upper case, or none. *)
Definition keeps_digits (f : Z -> Z) : Prop := forall d, 0 <= d < 16 -> hex_value (f (hex_char d)) = Some d.

Lemma upper_keeps : keeps_digits upper_char.
Proof. intros d Hd. by apply hex_value_char. Qed.

Lemma id_keeps : keeps_digits (fun c => c).
Proof.
  intros d Hd. assert (d = 0 \/ d = 1 \/ d = 2 \/ d = 3 \/ d = 4 \/ d = 5 \/ d = 6 \/ d = 7 \/ d = 8 \/ d = 9 \/ d = 10 \/ d = 11 \/ d = 12 \/ d = 13 \/ d = 14 \/ d = 15) as Hc by lia.
  repeat (destruct Hc as [->|Hc]; [reflexivity|]). by subst.
Qed.

Lemma unhex_byte f b s r : keeps_digits f -> is_byte b -> unhex s = Some r -> unhex (f (hex_char (b / 16)) :: f (hex_char (b mod 16)) :: s) = Some (b :: r).
Proof.
  intros Hf Hb Hs. unfold is_byte in Hb. pose proof (Z.div_mod b 16). pose proof (Z.mod_pos_bound b 16). assert (0 <= b / 16 < 16) by (split; [apply Z.div_pos|apply Z.div_lt_upper_bound]; lia).
  cbn [unhex]. rewrite (Hf (b / 16)), (Hf (b mod 16)), Hs by lia. cbn. do 2 f_equal. lia.
Qed.

Lemma unhex_ok s g : unhex s = Some g -> bytes_ok g /\ len s = 2 * len g.
Proof.
  assert (forall c v, hex_value c = Some v -> 0 <= v < 16) as Hv.
  { intros c v. unfold hex_value, within. repeat destruct_if; intros [= <-]; rewrite ?andb_true_iff, ?Z.leb_le in *; lia. }
  assert (forall n s g, (length s <= n)%nat -> unhex s = Some g -> bytes_ok g /\ len s = 2 * len g) as Hn; [|by apply (Hn (length s))].
  clear s g. induction n as [|n IH]; intros s g Hl E; (destruct s as [|x [|y s]]; [by injection E as <-|discriminate E|]); [cbn in Hl; lia|].
  cbn [unhex] in E. destruct (hex_value x) as [h|] eqn:Eh; [|done]. destruct (hex_value y) as [l|] eqn:El; [|done]. cbn in E.
  destruct (unhex s) as [r|] eqn:Er; [|done]. injection E as <-. cbn in Hl. destruct (IH s r ltac:(lia) Er) as [Hr Hlen].
  apply Hv in Eh, El. split; [|rewrite !len_cons; lia]. constructor; [unfold is_byte; lia|done].
Qed.

Lemma unhex_bytes f g : keeps_digits f -> bytes_ok g -> forall s r, unhex s = Some r -> unhex (map f (g ≫= hex_byte) ++ s) = Some (g ++ r).
Proof.
  intros Hf. induction 1 as [|b g Hb Hg IH]; intros s r Hs; [done|]. cbn [mbind list_bind]. change (list_bind _ _ hex_byte g) with (g ≫= hex_byte).
  unfold hex_byte at 1. cbn [app map]. apply (unhex_byte f b _ (g ++ r) Hf Hb). by apply IH.
Qed.

Lemma upper_app a b : ToUpper (a ++ b) = ToUpper a ++ ToUpper b.
Proof. apply map_app. Qed.

Lemma hex_bytes_len g : len (ToUpper (g ≫= hex_byte)) = 2 * len g.
Proof. unfold ToUpper, len. rewrite length_map. induction g as [|b g IH]; [done|]. cbn [mbind list_bind]. rewrite length_app. change (list_bind _ _ hex_byte g) with (g ≫= hex_byte). cbn [length hex_byte]. lia. Qed.

Lemma parse_format g : guid_ok g -> parse_uuid (ToUpper (format_uuid g)) = Some g.
Proof.
  intros [Hl Hb]. assert (unhex (ToUpper (g ≫= hex_byte) ++ []) = Some (g ++ [])) as E by (by apply (unhex_bytes upper_char); [apply upper_keeps|..]).
  rewrite !app_nil_r in E. split_16 g Hl. unfold parse_uuid, format_uuid. 
  replace (_ =? 36) with true by reflexivity. exact E.
Qed.

Lemma parse_format_lower g : guid_ok g -> parse_uuid (format_uuid g) = Some g.
Proof.
  intros [Hl Hb]. assert (unhex (map (fun c => c) (g ≫= hex_byte) ++ []) = Some (g ++ [])) as E by (by apply unhex_bytes; [apply id_keeps|..]).
  rewrite !app_nil_r in E. split_16 g Hl. unfold parse_uuid, format_uuid.
  replace (_ =? 36) with true by reflexivity. exact E.
Qed.

#[global] Instance canonical_laws : @UUIDLaws canonical_uuids.
Proof.
  split; cbn.
  - exact parse_format.
  - exact parse_format_lower.
  - intros s g E. unfold parse_uuid in E. destruct (Z.eqb_spec (len s) 36) as [Hl|]; [|done]. cbn [andb] in E. case_bool_decide; [|done].
    apply unhex_ok in E as [Hb E]. split; [|done]. rewrite !len_app, !len_sub, len_from in E by lia. lia.
  - intros g [Hl Hb]. split; [|split_16 g Hl; done]. 
    assert (forall l, bytes_ok l -> ascii_ok (l ≫= hex_byte)) as Ha.
    { induction 1 as [|b l Hx Hl' IH]; [constructor|]. unfold is_byte in Hx. pose proof (Z.mod_pos_bound b 16).
      assert (0 <= b / 16 < 16) by (split; [apply Z.div_pos|apply Z.div_lt_upper_bound]; lia).
      cbn [mbind list_bind]. apply Forall_app. split; [|exact IH]. constructor; [by apply hex_value_char|]. constructor; [apply hex_value_char; lia|constructor]. }
    assert (ascii_ok [45]) by (repeat constructor; unfold is_ascii; lia).
    unfold format_uuid. rewrite !Forall_app. split_and!; try done; apply Ha; try apply bytes_ok_sub; try apply bytes_ok_from; done.
  - intros g Hl. by rewrite Hl.
Qed.
