(* ===== verification/Gpt.v ===== *)
(** * Gpt: diskkit/partition/gpt
    GUID partition tables: entries, the array, the header with its checksums, the
    protective MBR, the order in which [Write] updates the two copies, and [Read] with its
    fall-back to the backup. A partition is changed through its pointer when the table is
    serialised, so the operations return the table they leave. *)
From S2P Require Import Prelude Bytes ReaderAt Text Storage PartIO Crc32 Utf16 Guid.

Definition PartitionEntrySize : Z := 128.
Definition defaultSectorSize : Z := 512.
Definition mbrPartitionEntriesStart : Z := 446.
Definition gptHeaderSector : Z := 1.
Definition Unused : gostring := lit "00000000-0000-0000-0000-000000000000".
Definition EfiSignature : list Z := [0x45; 0x46; 0x49; 0x20; 0x50; 0x41; 0x52; 0x54].
Definition EfiRevision : list Z := [0; 0; 1; 0].
Definition EfiHeaderSize : list Z := [0x5c; 0; 0; 0].
Definition EfiZeroes : list Z := [0; 0; 0; 0].
Definition MbrSignature : list Z := [0x55; 0xaa].

(** A division of the machine: by zero it panics. *)
Definition divu (a b : Z) : go Z := if b =? 0 then Panic DivideByZero else mret (a / b).
Definition remu (a b : Z) : go Z := if b =? 0 then Panic DivideByZero else mret (a mod b).

(** ** Partitions *)

Record Partition := mkPart {
  Index : Z; Start : Z; End_ : Z; Size : Z; Type_ : gostring; Name : gostring; GUID : gostring; Attributes : Z;
  logicalSectorSize : Z; physicalSectorSize : Z
}.

#[global] Instance gpt_partition_eq_dec : EqDecision Partition.
Proof. solve_decision. Defined.

Definition with_guid (p : Partition) (g : gostring) : Partition :=
  mkPart (Index p) (Start p) (End_ p) (Size p) (Type_ p) (Name p) g (Attributes p) (logicalSectorSize p) (physicalSectorSize p).
Definition with_extent (p : Partition) (e s : Z) : Partition :=
  mkPart (Index p) (Start p) e s (Type_ p) (Name p) (GUID p) (Attributes p) (logicalSectorSize p) (physicalSectorSize p).

Section partition.
Context `{UUIDs}.

(** Four assignments of bytes, then the name in UTF-16 one unit at a time. *)
Definition toBytes (p : Partition) : go (list Z) :=
  b ← make 0 1 PartitionEntrySize;
  if bool_decide (Type_ p = Unused) then mret b
  else
    match uuid_Parse (Type_ p) with
    | None => Err (Errorf "unable to parse partition type GUID: %v")
    | Some typeGUID =>
        g ← bytesToUUIDBytes typeGUID; b ← copy_at b 0 16 g;
        match uuid_Parse (GUID p) with
        | None => Err (Errorf "unable to parse partition identifier GUID: %v")
        | Some idGUID =>
            g ← bytesToUUIDBytes idGUID; b ← copy_at b 16 32 g;
            b ← put_word b 32 40 (put_le 8 (Start p));
            b ← put_word b 40 48 (put_le 8 (End_ p));
            b ← put_word b 48 56 (put_le 8 (Attributes p));
            let r := runes (Name p) in
            if 36 <? len r then Err (Errorf "cannot use %s as partition name, has %d Unicode code units, maximum size is 36")
            else
              let nameb := Encode r in
              go_range (fun i b =>
                u ← index nameb i;
                let pos := 56 + i * 2 in
                put_word b pos (pos + 2) (put_le 2 u)) 0 (length nameb) b
        end
    end.

(** The code units up to the first zero. *)
Fixpoint name_units (n : nat) (nameb : list Z) (i : Z) : go (list Z) :=
  match n with
  | O => mret []
  | S n' =>
      if i <? len nameb then
        entry ← get_le 2 nameb i (i + 2);
        if entry =? 0 then mret [] else u ← name_units n' nameb (i + 2); mret (entry :: u)
      else mret []
  end.

Definition partitionFromBytes (i : Z) (b : list Z) (logicalSectorSize physicalSectorSize : Z) : go (option Partition) :=
  if negb (len b =? PartitionEntrySize) then Err (Errorf "data for partition was %d bytes instead of expected %d")
  else
    t ← slice b 0 16;
    if bool_decide (t = replicate 16 0) then mret None
    else
      g ← bytesToUUIDBytes t;
      match uuid_FromBytes g with
      | None => Err (Errorf "unable to read partition type GUID: %v")
      | Some typeGUID =>
          t ← slice b 16 32; g ← bytesToUUIDBytes t;
          match uuid_FromBytes g with
          | None => Err (Errorf "unable to read partition identifier GUID: %v")
          | Some uid =>
              firstLBA ← get_le 8 b 32 40;
              lastLBA ← get_le 8 b 40 48;
              attribs ← get_le 8 b 48 56;
              nameb ← slice b 56 (len b);
              u ← name_units 36 nameb 0;
              let name := string_of_runes (Decode u) in
              mret (Some (mkPart i firstLBA lastLBA 0 (shown typeGUID) name (shown uid) attribs logicalSectorSize physicalSectorSize))
          end
      end.

(** The partition as it is left, and the error; [fresh] is what [uuid.NewRandom] gives. *)
Definition initEntry (fresh : list Z) (blocksize : Z) (p : Partition) : go (Partition * option error) :=
  if bool_decide (Type_ p = Unused) then mret (p, None)
  else
    match (if bool_decide (GUID p = []) then Some fresh else uuid_Parse (GUID p)) with
    | None => mret (p, Some (Errorf "invalid UUID: %s"))
    | Some guid =>
        let p := with_guid p (shown guid) in
        let size := Size p in let start := Start p in let end_ := End_ p in
        let calculatedSize := u64 (u64 (u64 (end_ - start) + 1) * blocksize) in
        if start =? 0 then mret (p, Some (Errorf "invalid partition entry, start sector is 0"))
        else if (start <=? end_) && (size =? calculatedSize) then mret (p, None)
        else if (size =? 0) && (start <=? end_) then mret (with_extent p end_ calculatedSize, None)
        else
          whole ← (if 0 <? size then r ← remu size blocksize; mret (r =? 0) else mret false);
          if whole && (0 <? start) && (end_ =? 0) then
            q ← divu size blocksize;
            mret (with_extent p (u64 (u64 (start + q) - 1)) size, None)
          else mret (p, Some (Errorf "invalid partition entry, size %d bytes does not match start sector %d and end sector %d"))
    end.

Definition sectorSizes (p : Partition) : Z * Z :=
  (if physicalSectorSize p =? 0 then defaultSectorSize else physicalSectorSize p,
   if logicalSectorSize p =? 0 then defaultSectorSize else logicalSectorSize p).
Definition GetSize (p : Partition) : Z := i64 (Size p).
Definition GetStart (p : Partition) : Z := i64 (i64 (Start p) * snd (sectorSizes p)).
Definition Partition_UUID (p : Partition) : gostring := GUID p.
Definition Label (p : Partition) : gostring := Name p.
Definition Partition_Equal (p o : option Partition) : bool :=
  match p, o with Some p, Some o => bool_decide (p = o) | _, _ => false end.
Definition Expand (p : Partition) (sectors : Z) : Partition :=
  with_extent p (u64 (End_ p + sectors)) (u64 (Size p + u64 (sectors * u64 (logicalSectorSize p)))).
End partition.

(** The extent that [WriteContents] settles on. *)
Definition reconcile (p : Partition) : go (option Partition) :=
  let lss := u64 (snd (sectorSizes p)) in
  let calculatedSize := u64 (u64 (u64 (End_ p - Start p) + 1) * lss) in
  if (0 <? Size p) && (Size p =? calculatedSize) then mret (Some p)
  else if (Size p =? 0) && (Start p <=? End_ p) then mret (Some (with_extent p (End_ p) calculatedSize))
  else
    whole ← (if 0 <? Size p then r ← remu (Size p) lss; mret (r =? 0) else mret false);
    if whole && (End_ p =? 0) then
      q ← divu (Size p) lss;
      mret (Some (with_extent p (u64 (u64 (Start p + q) - 1)) (Size p)))
    else mret None.

Section contents.
Context {D R : Type} `{Storage D} `{Stream R}.

Definition WriteContents (fuel : nat) (p : Partition) (f : D) (contents : R) : go (Partition * (D * R * (Z * option error))) :=
  q ← reconcile p;
  match q with
  | None => mret (p, (f, contents, (0, Some (Errorf "cannot reconcile partition size %d with start %d / end %d"))))
  | Some p =>
      let start := u64 (Start p * u64 (snd (sectorSizes p))) in
      r ← write_contents fuel (fst (sectorSizes p)) (Size p) (fun total => i64 (u64 (start + total))) f contents;
      mret (p, r)
  end.

Definition ReadContents (fuel : nat) (p : Partition) (f : D) : go (list Z * (Z * option error)) :=
  read_contents fuel (fst (sectorSizes p)) (GetSize p) (fun total => i64 (GetStart p + total)) f.
End contents.

(** ** Tables *)

(** A nil slice of partitions is [None]. *)
Record Table := mkTable {
  Partitions : option (list Partition); LogicalSectorSize : Z; PhysicalSectorSize : Z; DiskGUID : gostring;
  ProtectiveMBR : bool; RecoveredFromBackup : bool; partitionArraySize : Z; partitionEntrySize : Z; partitionFirstLBA : Z;
  partitionEntryChecksum : Z; primaryHeader : Z; secondaryHeader : Z; firstDataSector : Z; lastDataSector : Z; initialized : bool
}.

Definition partitions (t : Table) : list Partition := default [] (Partitions t).

Definition with_partitions (t : Table) (ps : option (list Partition)) : Table :=
  mkTable ps (LogicalSectorSize t) (PhysicalSectorSize t) (DiskGUID t) (ProtectiveMBR t) (RecoveredFromBackup t) (partitionArraySize t)
    (partitionEntrySize t) (partitionFirstLBA t) (partitionEntryChecksum t) (primaryHeader t) (secondaryHeader t) (firstDataSector t)
    (lastDataSector t) (initialized t).
Definition with_sizes (t : Table) (mbr : bool) (lss pss : Z) : Table :=
  mkTable (Partitions t) lss pss (DiskGUID t) mbr (RecoveredFromBackup t) (partitionArraySize t)
    (partitionEntrySize t) (partitionFirstLBA t) (partitionEntryChecksum t) (primaryHeader t) (secondaryHeader t) (firstDataSector t)
    (lastDataSector t) true.
Definition with_headers (t : Table) (primary secondary : Z) : Table :=
  mkTable (Partitions t) (LogicalSectorSize t) (PhysicalSectorSize t) (DiskGUID t) (ProtectiveMBR t) (RecoveredFromBackup t) (partitionArraySize t)
    (partitionEntrySize t) (partitionFirstLBA t) (partitionEntryChecksum t) primary secondary (firstDataSector t)
    (lastDataSector t) (initialized t).
Definition recovered (t : Table) : Table :=
  mkTable (Partitions t) (LogicalSectorSize t) (PhysicalSectorSize t) (DiskGUID t) (ProtectiveMBR t) true (partitionArraySize t)
    (partitionEntrySize t) (partitionFirstLBA t) (partitionEntryChecksum t) (primaryHeader t) (secondaryHeader t) (firstDataSector t)
    (lastDataSector t) (initialized t).
(** The last sectors of a disk. *)
Definition with_end (t : Table) (secondary last_ : Z) : Table :=
  mkTable (Partitions t) (LogicalSectorSize t) (PhysicalSectorSize t) (DiskGUID t) (ProtectiveMBR t) (RecoveredFromBackup t) (partitionArraySize t)
    (partitionEntrySize t) (partitionFirstLBA t) (partitionEntryChecksum t) (primaryHeader t) secondary (firstDataSector t) last_ (initialized t).

(** Sectors of the array of entries, rounded down. *)
Definition partSectors (t : Table) : go Z :=
  divu (u64 (u64 (partitionArraySize t) * partitionEntrySize t)) (u64 (LogicalSectorSize t)).

Definition or_default (x d : Z) : Z := if x =? 0 then d else x.

Section table.
Context `{UUIDs}.

Definition initTable (fresh : list Z) (t : Table) (size : Z) : go Table :=
  let lss := or_default (LogicalSectorSize t) 512 in
  let pss := or_default (PhysicalSectorSize t) 512 in
  let primary := or_default (primaryHeader t) 1 in
  let guid := if bool_decide (DiskGUID t = []) then uuid_String fresh else DiskGUID t in
  let arraySize := or_default (partitionArraySize t) 128 in
  let entrySize := or_default (partitionEntrySize t) 128 in
  diskSectors ← divu (u64 size) (u64 lss);
  ps ← divu (u64 (u64 arraySize * entrySize)) (u64 lss);
  let first := or_default (firstDataSector t) (u64 (2 + ps)) in
  let secondary := or_default (secondaryHeader t) (u64 (diskSectors - 1)) in
  let last_ := or_default (lastDataSector t) (u64 (u64 (secondary - ps) - 1)) in
  mret (mkTable (Partitions t) lss pss guid (ProtectiveMBR t) (RecoveredFromBackup t) arraySize entrySize (partitionFirstLBA t)
    (partitionEntryChecksum t) primary secondary first last_ true).

Fixpoint compare_partitions (p1 p2 : list Partition) : go bool :=
  match p1 with
  | [] => mret true
  | p :: p1' =>
      q ← index p2 0;
      if bool_decide (Type_ p = Unused) && bool_decide (Type_ q = Unused) then compare_partitions p1' (from p2 1)
      else if negb (bool_decide (p = q)) then mret false else compare_partitions p1' (from p2 1)
  end.
Definition comparePartitionArray (p1 p2 : option (list Partition)) : go bool :=
  match p1, p2 with
  | None, None => mret true
  | Some p1, Some p2 => if negb (len p1 =? len p2) then mret false else compare_partitions p1 p2
  | _, _ => mret false
  end.
Definition Equal (t : Table) (t2 : option Table) : go bool :=
  match t2 with
  | None => mret false
  | Some t2 =>
      let basicMatch := (LogicalSectorSize t =? LogicalSectorSize t2) && (PhysicalSectorSize t =? PhysicalSectorSize t2) &&
        (partitionEntrySize t =? partitionEntrySize t2) && (primaryHeader t =? primaryHeader t2) && (secondaryHeader t =? secondaryHeader t2) &&
        (firstDataSector t =? firstDataSector t2) && (lastDataSector t =? lastDataSector t2) && (partitionArraySize t =? partitionArraySize t2) &&
        eqb (ProtectiveMBR t) (ProtectiveMBR t2) && bool_decide (DiskGUID t = DiskGUID t2) in
      partMatch ← comparePartitionArray (Partitions t) (Partitions t2);
      mret (basicMatch && partMatch)
  end.

Definition zeroMatch (b : list Z) : bool := forallb (fun v => v =? 0) b.

Definition readProtectiveMBR (b : list Z) (sectors : Z) : go bool :=
  let size := len b in
  if size <? 512 then mret false
  else
    s ← slice b (size - 2) size;
    if negb (bool_decide (s = MbrSignature)) then mret false
    else
      parts ← slice b mbrPartitionEntriesStart (mbrPartitionEntriesStart + 16 * 4);
      others ← slice parts 16 64;
      if negb (zeroMatch others) then mret false
      else
        p0 ← index parts 0; p4 ← index parts 4; lba ← get_le 4 parts 8 12; n ← get_le 4 parts 12 16;
        mret ((p0 =? 0) && (p4 =? 0xee) && (lba =? 1) && (n =? sectors)).

Definition partitionArraySector (t : Table) (primary : bool) : go Z :=
  if primary then mret (u64 (primaryHeader t + 1))
  else ps ← partSectors t; mret (u64 (secondaryHeader t - ps)).

Definition generateProtectiveMBR (t : Table) : list Z :=
  replicate 446 0 ++ [0; 0; 0; 0; 0xee; 0; 0; 0] ++ put_le 4 1 ++ put_le 4 (u32 (secondaryHeader t)) ++ replicate 48 0 ++ MbrSignature.

(** The entries in the slice are completed one after the other and numbered in a map. *)
Fixpoint init_entries (fresh : Z -> list Z) (blocksize arraySize : Z) (ps done_ : list Partition) (m : gmap Z Partition) :
    go (list Partition * (gmap Z Partition + error)) :=
  match ps with
  | [] => mret (done_, inl m)
  | p :: ps' =>
      '(p, err) ← initEntry (fresh (len done_)) blocksize p;
      match err with
      | Some _ => mret (done_ ++ p :: ps', inr (Errorf "could not initialize partition %d correctly: %v"))
      | None =>
          if (Index p <? 1) || (arraySize <? Index p) then mret (done_ ++ p :: ps', inr (Errorf "partition %d has invalid index %d for partition array size %d"))
          else match m !! Index p with
               | Some _ => mret (done_ ++ p :: ps', inr (Errorf "duplicate partition index %d found"))
               | None => init_entries fresh blocksize arraySize ps' (done_ ++ [p]) (<[Index p := p]> m)
               end
      end
  end.

(** One slot of the array. *)
Definition array_slot (t : Table) (m : gmap Z Partition) (i : Z) (bpart : list Z) : go (list Z) :=
  match m !! (i + 1) with
  | None => mret bpart
  | Some p =>
      r ← catch (toBytes p);
      match r with
      | inr _ => Err (Errorf "error preparing partition entry %d for writing to disk: %v")
      | inl b2 =>
          let slotStart := i * partitionEntrySize t in
          copy_at bpart slotStart (slotStart + partitionEntrySize t) b2
      end
  end.

Definition toPartitionArrayBytes (fresh : Z -> list Z) (t : Table) : go (Table * (list Z + error)) :=
  '(ps, r) ← init_entries fresh (u64 (LogicalSectorSize t)) (partitionArraySize t) (partitions t) [] ∅;
  let t := with_partitions t (match Partitions t with None => None | Some _ => Some ps end) in
  match r with
  | inr e => mret (t, inr e)
  | inl m =>
      bpart ← make 0 1 (u32 (partitionEntrySize t * u32 (partitionArraySize t)));
      r ← catch (go_range (array_slot t m) 0 (Z.to_nat (partitionArraySize t)) bpart);
      mret (t, r)
  end.

(** [fresh] gives the identifier of the disk, if it has none, and of the partitions. *)
Definition toGPTBytes (freshDisk : list Z) (fresh : Z -> list Z) (primary : bool) (t : Table) : go (Table * (list Z + error)) :=
  b ← make 0 1 (LogicalSectorSize t);
  b ← copy_at b 0 8 EfiSignature;
  b ← copy_at b 8 12 EfiRevision;
  b ← copy_at b 12 16 EfiHeaderSize;
  b ← copy_at b 16 20 [0; 0; 0; 0];
  b ← copy_at b 20 24 EfiZeroes;
  let '(my, alternate) := if primary then (primaryHeader t, secondaryHeader t) else (secondaryHeader t, primaryHeader t) in
  b ← put_word b 24 32 (put_le 8 my);
  b ← put_word b 32 40 (put_le 8 alternate);
  b ← put_word b 40 48 (put_le 8 (firstDataSector t));
  b ← put_word b 48 56 (put_le 8 (lastDataSector t));
  match (if bool_decide (DiskGUID t = []) then Some freshDisk else uuid_Parse (DiskGUID t)) with
  | None => mret (t, inr (Errorf "invalid UUID: %s"))
  | Some guid =>
      g ← slice guid 0 16; g ← bytesToUUIDBytes g; b ← copy_at b 56 72 g;
      sector ← partitionArraySector t primary;
      b ← put_word b 72 80 (put_le 8 sector);
      b ← put_word b 80 84 (put_le 4 (u32 (partitionArraySize t)));
      b ← put_word b 84 88 (put_le 4 0x80);
      '(t, r) ← toPartitionArrayBytes fresh t;
      match r with
      | inr _ => mret (t, inr (Errorf "error converting partition array to bytes: %v"))
      | inl bpart =>
          b ← put_word b 88 92 (put_le 4 (ChecksumIEEE bpart));
          h ← slice b 0 92;
          b ← put_word b 16 20 (put_le 4 (ChecksumIEEE h));
          b ← go_range (fun i b => store b i 0) 92 (Z.to_nat (LogicalSectorSize t - 92)) b;
          mret (t, inl b)
      end
  end.

Definition calculatePartitionArrayLocations (t : Table) : Z * Z :=
  (i64 (i64 (partitionFirstLBA t) * LogicalSectorSize t), i64 (partitionArraySize t * partitionEntrySize t)).

Definition readPartitionArrayBytes (b : list Z) (entrySize lss pss : Z) : go (list Partition) :=
  go_for (S (length b)) (fun '(i, c, parts) =>
    if entrySize <=? len c then
      bpart ← slice c 0 entrySize;
      r ← catch (partitionFromBytes (i + 1) bpart lss pss);
      match r with
      | inr _ => Err (Errorf "error reading partition entry %d: %v")
      | inl q =>
          let parts := match q with
                       | None => parts
                       | Some p => parts ++ [with_extent p (End_ p) (u64 (u64 (u64 (End_ p - Start p) + 1) * u64 lss))]
                       end in
          mret (inl (i + 1, from c entrySize, parts))
      end
    else mret (inr parts)) (0, b, []).
End table.

(** ** The header *)

Section header.
Context `{UUIDs}.

(** The fields are read before they are checked; the checksum is that of the header with
    its own field cleared. *)
Definition readGPTHeader (gpt : list Z) : go Table :=
  efiSignature ← slice gpt 0 8;
  efiRevision ← slice gpt 8 12;
  efiHeaderSize ← slice gpt 12 16;
  efiHeaderCrc ← get_le 4 gpt 16 20;
  efiZeroes ← slice gpt 20 24;
  primary ← get_le 8 gpt 24 32;
  secondary ← get_le 8 gpt 32 40;
  first ← get_le 8 gpt 40 48;
  last_ ← get_le 8 gpt 48 56;
  g ← slice gpt 56 72; g ← bytesToUUIDBytes g;
  match uuid_FromBytes g with
  | None => Err (Errorf "unable to read guid from disk: %v")
  | Some diskGUID =>
      firstLBA ← get_le 8 gpt 72 80;
      count ← get_le 4 gpt 80 84;
      entrySize ← get_le 4 gpt 84 88;
      entryChecksum ← get_le 4 gpt 88 92;
      gpt ← copy_at gpt 16 20 [0; 0; 0; 0];
      if negb (bool_decide (efiSignature = EfiSignature)) then Err (Errorf "invalid EFI Signature %v")
      else if negb (bool_decide (efiRevision = EfiRevision)) then Err (Errorf "invalid EFI Revision %v")
      else if negb (bool_decide (efiHeaderSize = EfiHeaderSize)) then Err (Errorf "invalid EFI Header size %v")
      else if negb (bool_decide (efiZeroes = EfiZeroes)) then Err (Errorf "invalid EFI Header, expected zeroes, got %v")
      else
        h ← slice gpt 0 92;
        if negb (efiHeaderCrc =? ChecksumIEEE h) then Err (Errorf "invalid EFI Header Checksum, expected %v, got %v")
        else mret (mkTable None 0 0 (shown diskGUID) false false count entrySize firstLBA entryChecksum primary secondary first last_ false)
  end.

(** When the header is in the first sector of [b], it is seen with its checksum cleared. *)
Definition tableHeaderFromBytes (b : list Z) (lbs pbs : Z) (skipMBR : bool) : go Table :=
  if len b <? lbs then Err (Errorf "data for partition was %d bytes instead of expected minimum %d")
  else
    gpt ← (if skipMBR then slice b lbs (len b) else mret b);
    t ← readGPTHeader gpt;
    b ← (if skipMBR then mret b else copy_at b 16 20 [0; 0; 0; 0]);
    s ← slice b 0 lbs;
    mbr ← readProtectiveMBR s (u32 (secondaryHeader t));
    mret (with_sizes t mbr lbs pbs).

Definition tableFromBytes (b : list Z) (lbs pbs : Z) : go Table :=
  if len b <? i64 (lbs * 2) then Err (Errorf "data for partition was %d bytes instead of expected minimum %d")
  else
    gpt ← slice b lbs (len b);
    t ← readGPTHeader gpt;
    s ← slice b 0 lbs;
    mbr ← readProtectiveMBR s (u32 (secondaryHeader t));
    mret (with_sizes t mbr lbs pbs).
End header.

(** ** The disk *)

Section disk.
Context {D : Type} `{Storage D} `{UUIDs}.

(** [Sync] of the file, where it has one. *)
Context (Sync : D -> D * option error).

Definition writeAtWithSync (buf : list Z) (off : Z) (f : D) : go (D * option error) :=
  '(f, (n, err)) ← WriteAt f buf off;
  match err with
  | Some _ => mret (f, Some (Errorf "error writing %s to disk: %v"))
  | None =>
      if negb (n =? len buf) then mret (f, Some (Errorf "wrote %d bytes of %s instead of %d"))
      else
        let '(f, err) := Sync f in
        mret (f, match err with Some _ => Some (Errorf "error syncing %s to disk: %v") | None => None end)
  end.

(** The writes in their order, up to the first that fails. *)
Fixpoint write_all (ws : list (list Z * Z)) (f : D) : go (D * option error) :=
  match ws with
  | [] => mret (f, None)
  | (buf, off) :: ws' =>
      '(f, err) ← writeAtWithSync buf off f;
      match err with Some e => mret (f, Some e) | None => write_all ws' f end
  end.

(** The serialised table: the protective MBR if there is one, then the backup and the
    primary, each with its array before its header. *)
Definition table_writes (t : Table) (primaryHeaderBytes secondaryHeaderBytes partitionArray : list Z) : go (list (list Z * Z)) :=
  let sectorBytes := LogicalSectorSize t in
  p ← partitionArraySector t true;
  s ← partitionArraySector t false;
  let primaryArrayOff := i64 (sectorBytes * i64 p) in
  let secondaryArrayOff := i64 (sectorBytes * i64 s) in
  let secondaryHeaderOff := i64 (i64 (secondaryHeader t) * sectorBytes) in
  mret ((if ProtectiveMBR t then [(from (generateProtectiveMBR t) mbrPartitionEntriesStart, mbrPartitionEntriesStart)] else []) ++
        [(partitionArray, secondaryArrayOff); (secondaryHeaderBytes, secondaryHeaderOff);
         (partitionArray, primaryArrayOff); (primaryHeaderBytes, sectorBytes)]).

(** The three serialisations that precede any write. *)
Definition serialise (freshDisk : list Z) (fresh : Z -> list Z) (t : Table) : go (Table * (list Z * list Z * list Z + error)) :=
  '(t, r) ← toGPTBytes freshDisk fresh true t;
  match r with
  | inr _ => mret (t, inr (Errorf "error converting primary GPT header to byte array: %v"))
  | inl primaryHeaderBytes =>
      '(t, r) ← toGPTBytes freshDisk fresh false t;
      match r with
      | inr _ => mret (t, inr (Errorf "error converting secondary GPT header to byte array: %v"))
      | inl secondaryHeaderBytes =>
          '(t, r) ← toPartitionArrayBytes fresh t;
          match r with
          | inr _ => mret (t, inr (Errorf "error converting GPT partition array to byte array: %v"))
          | inl partitionArray => mret (t, inl (primaryHeaderBytes, secondaryHeaderBytes, partitionArray))
          end
      end
  end.

Definition Write (freshDisk : list Z) (fresh : Z -> list Z) (t : Table) (f : D) (size : Z) : go (D * Table * option error) :=
  t ← (if initialized t then mret t else initTable freshDisk t size);
  '(t, r) ← serialise freshDisk fresh t;
  match r with
  | inr e => mret (f, t, Some e)
  | inl (primaryHeaderBytes, secondaryHeaderBytes, partitionArray) =>
      ws ← table_writes t primaryHeaderBytes secondaryHeaderBytes partitionArray;
      '(f, err) ← write_all ws f;
      mret (f, t, err)
  end.

(** [&primaryContentError{err}], which [errors.As] finds through wrapped errors. *)
Definition content_error (e : error) : error := Wrapf "primaryContentError" e.
Fixpoint is_content (e : error) : bool :=
  match e with Wrapf m e' => String.eqb m "primaryContentError" || is_content e' | _ => false end.

(** [f.ReadAt(b, off)] that must fill [b]. *)
Definition read_full (f : D) (n off : Z) (failed short : string) : go (list Z) :=
  b ← make 0 1 n;
  r ← ReadAt f b off;
  match r_err r with
  | Some e => Err (Wrapf failed e)
  | None => if negb (r_n r =? len b) then Err (Errorf short) else mret (r_buf r)
  end.

Definition loadEntries (f : D) (t : Table) (lbs pbs : Z) : go Table :=
  let '(start, size) := calculatePartitionArrayLocations t in
  b ← read_full f size start "error reading partitions from file: %w" "read only %d bytes of partition entries instead of expected %d";
  if negb (partitionEntryChecksum t =? ChecksumIEEE b)
  then Err (content_error (Errorf "invalid EFI Partition Entry Checksum, expected %v, got %v"))
  else
    parts ← or_else (Wrapf "error parsing partition data: %w") (readPartitionArrayBytes b (partitionEntrySize t) lbs pbs);
    mret (with_partitions t (Some parts)).

Definition readPrimary (f : D) (lbs pbs : Z) : go Table :=
  b ← read_full f (i64 (lbs * 2)) 0 "error reading GPT from file: %w" "read only %d bytes of GPT from file instead of expected %d";
  t ← or_else (fun e => content_error (Wrapf "error reading GPT table: %w" e)) (tableFromBytes b lbs pbs);
  loadEntries f t lbs pbs.

Definition readBackup (f : D) (lbs pbs secondaryLBA : Z) : go Table :=
  hdr ← read_full f lbs (i64 (i64 secondaryLBA * lbs)) "error reading backup GPT header at offset %d: %w" "read only %d bytes of backup GPT header instead of expected %d";
  t ← or_else (Wrapf "error parsing backup GPT header: %w") (readGPTHeader hdr);
  if negb (primaryHeader t =? secondaryLBA) then Err (Errorf "backup GPT header self-LBA mismatch: header says %d, found at %d")
  else
    let t := with_headers t (secondaryHeader t) (primaryHeader t) in
    b ← make 0 1 lbs;
    r ← ReadAt f b 0;
    mbr ← (match r_err r with
           | None => if r_n r =? len b then readProtectiveMBR (r_buf r) (u32 (secondaryHeader t)) else mret (ProtectiveMBR t)
           | Some _ => mret (ProtectiveMBR t)
           end);
    loadEntries f (with_sizes t mbr lbs pbs) lbs pbs.

Definition SeekEnd_ (f : D) : D * (Z * option error) := Seek f 0 SeekEnd.

Definition Read (f : D) (lbs pbs : Z) : go Table :=
  r ← catch (readPrimary f lbs pbs);
  match r with
  | inl t => mret t
  | inr primaryErr =>
      if negb (is_content primaryErr) then Err primaryErr
      else
        let '(f, (diskSize, sizeErr)) := SeekEnd_ f in
        match sizeErr with
        | Some e => Err (Wrapf "primary GPT invalid (%v); cannot determine disk size to read backup: %w" e)
        | None =>
            if diskSize <? i64 (lbs * 2) then Err (Errorf "primary GPT invalid (%v); disk too small (%d bytes) for backup GPT")
            else
              q ← (if lbs =? 0 then Panic DivideByZero else mret (Z.quot diskSize lbs));
              t ← or_else (Wrapf "primary GPT invalid (%v); backup GPT also invalid: %w") (readBackup f lbs pbs (u64 (u64 q - 1)));
              mret (recovered t)
        end
  end.

(** ** Maintenance *)

Definition Verify (t : Table) (f : D) (diskSize : Z) : go (option error) :=
  if LogicalSectorSize t =? 0 then mret (Some (Errorf "table is not initialized"))
  else
    let expectedDiskSize := u64 (u64 (secondaryHeader t + 1) * u64 (LogicalSectorSize t)) in
    if negb (diskSize =? expectedDiskSize) then mret (Some (Errorf "secondary Header is not at end of the disk, expected =>  %d / actual => %d"))
    else
      b ← make 0 1 (LogicalSectorSize t);
      r ← ReadAt f b (i64 (i64 (secondaryHeader t) * LogicalSectorSize t));
      match r_err r with
      | Some _ => mret (Some (Errorf "error reading GPT from file at %d / disksize %d : %v"))
      | None =>
          s ← catch (tableHeaderFromBytes (r_buf r) (LogicalSectorSize t) (PhysicalSectorSize t) false);
          match s with
          | inr _ => mret (Some (Errorf "error reading GPT from file at %d / disksize %d : %v"))
          | inl secondary =>
              if negb (firstDataSector t =? firstDataSector secondary) then mret (Some (Errorf "error comparing GPT headers expected =>  %d / actual => %d"))
              else
                ps ← partSectors t;
                if negb (lastDataSector t =? u64 (u64 (secondaryHeader t - ps) - 1))
                then mret (Some (Errorf "error comparing GPT secondary headers expected =>  %d / actual => %d"))
                else mret None
          end
      end.

Definition Repair (t : Table) (diskSize : Z) : go (Table * option error) :=
  if LogicalSectorSize t =? 0 then mret (t, Some (Errorf "table is not initialized"))
  else
    ps ← partSectors t;
    q ← divu diskSize (u64 (LogicalSectorSize t));
    let secondary := u64 (q - 1) in
    mret (with_end t secondary (u64 (u64 (secondary - ps) - 1)), None).

Definition TotalSize (t : Table) : Z := u64 (u64 (secondaryHeader t + gptHeaderSector) * u64 (LogicalSectorSize t)).
Definition LastDataSector (t : Table) : Z := lastDataSector t.
Definition GetPartitions (t : Table) : list Partition := partitions t.
Definition UUID (t : Table) : gostring := DiskGUID t.

Definition Resize (t : Table) (size : Z) : go Table :=
  diskSectors ← divu size (u64 (LogicalSectorSize t));
  ps ← partSectors t;
  let secondary := u64 (diskSectors - 1) in
  mret (with_end t secondary (u64 (u64 (secondary - 1) - ps))).
End disk.
