(* ===== verification/GptFormat.v ===== *)
(** * GptFormat: GPT entries, arrays and headers as bytes
    Each of the three is serialised to a list given in closed form, and parsing that list
    gives the entry, the partitions or the table back. *)
From S2P Require Import Prelude Bytes ReaderAt Text Storage PartIO Crc32 Utf16 Guid Gpt.

#[local] Ltac Zify.zify_post_hook ::= Z.div_mod_to_equations.

Lemma patch_middle (a x y z : list Z) : len x = len y -> patch (a ++ x ++ z) (len a) y = a ++ y ++ z.
Proof.
  intros Hl. pose proof (len_nonneg a). pose proof (len_nonneg y). unfold patch. rewrite sub_app_l by done. do 2 f_equal.
  rewrite (assoc_L app), from_app_r by (rewrite len_app; lia). done.
Qed.

(** Writing the next piece of a buffer of zeros. *)
Lemma patch_next p k x : len x <= Z.of_nat k -> patch (p ++ replicate k 0) (len p) x = (p ++ x) ++ replicate (k - length x) 0.
Proof.
  intros Hx. unfold len in Hx. replace k with (length x + (k - length x))%nat at 1 by lia.
  rewrite replicate_add, patch_middle by (unfold len; by rewrite length_replicate). apply (assoc_L app).
Qed.

Lemma put_next p k lo hi x : lo = len p -> hi = lo + len x -> len x <= Z.of_nat k ->
  put_word (p ++ replicate k 0) lo hi x = Ret ((p ++ x) ++ replicate (k - length x) 0).
Proof.
  intros -> -> Hx. pose proof (len_nonneg p). rewrite put_word_ok by (rewrite ?len_app, ?len_replicate; lia). by rewrite patch_next.
Qed.

Lemma copy_next p k lo hi x : lo = len p -> hi = lo + len x -> len x <= Z.of_nat k ->
  copy_at (p ++ replicate k 0) lo hi x = Ret ((p ++ x) ++ replicate (k - length x) 0).
Proof.
  intros -> -> Hx. pose proof (len_nonneg p). pose proof (len_nonneg x). rewrite copy_at_ok by (rewrite ?len_app, ?len_replicate; lia). by rewrite patch_next.
Qed.

(** ** Entries *)

Section entries.
Context `{UUIDLaws}.

Definition units (name : gostring) : list Z := Encode (runes name).
Definition le_units (u : list Z) : list Z := u ≫= put_le 2.

(** A partition as it is on the disk: its two identifiers, and a name of at most 36 units
    of UTF-16 without zeros. *)
Record entry_ok (p : Partition) (tg ig : list Z) : Prop := {
  eo_type : uuid_Parse (Type_ p) = Some tg; eo_used : Type_ p <> Unused; eo_nonzero : tg <> replicate 16 0;
  eo_guid : uuid_Parse (GUID p) = Some ig;
  eo_start : 0 <= Start p < 2 ^ 64; eo_end : 0 <= End_ p < 2 ^ 64; eo_attr : 0 <= Attributes p < 2 ^ 64;
  eo_utf8 : string_of_runes (runes (Name p)) = Name p; eo_scalar : Forall scalar (runes (Name p)); eo_no_nul : 0 ∉ runes (Name p);
  eo_name : len (units (Name p)) <= 36
}.

Definition entry_bytes (p : Partition) (tg ig : list Z) : list Z :=
  swapped tg ++ swapped ig ++ put_le 8 (Start p) ++ put_le 8 (End_ p) ++ put_le 8 (Attributes p) ++
  le_units (units (Name p)) ++ replicate (Z.to_nat (72 - 2 * len (units (Name p)))) 0.

Lemma le_units_len u : len (le_units u) = 2 * len u.
Proof. unfold len, le_units. induction u as [|x u IH]; [done|]. cbn [mbind list_bind]. rewrite length_app, length_put_le. cbn [length]. change (list_bind _ _ (put_le 2) u) with (u ≫= put_le 2). lia. Qed.

Lemma le_units_ok u : bytes_ok (le_units u).
Proof. unfold le_units. induction u as [|x u IH]; [constructor|]. cbn [mbind list_bind]. apply Forall_app. split; [apply put_le_bytes|exact IH]. Qed.

Lemma le_units_app u v : le_units (u ++ v) = le_units u ++ le_units v.
Proof. unfold le_units. apply bind_app. Qed.

Lemma swapped_len b : len b = 16 -> len (swapped b) = 16.
Proof. intros Hl. split_16 b Hl. reflexivity. Qed.

Lemma entry_len p tg ig : entry_ok p tg ig -> len (entry_bytes p tg ig) = 128.
Proof.
  intros Ho. destruct (uuid_parse_ok _ _ (eo_type _ _ _ Ho)) as [Ht _]. destruct (uuid_parse_ok _ _ (eo_guid _ _ _ Ho)) as [Hi _].
  pose proof (eo_name _ _ _ Ho). unfold entry_bytes. rewrite !len_app, !swapped_len, !len_put_le, le_units_len, len_replicate by done.
  pose proof (len_nonneg (units (Name p))). lia.
Qed.

Lemma entry_bytes_ok p tg ig : entry_ok p tg ig -> bytes_ok (entry_bytes p tg ig).
Proof.
  intros Ho. pose proof (swap_guid _ (uuid_parse_ok _ _ (eo_type _ _ _ Ho))) as [_ ?]. pose proof (swap_guid _ (uuid_parse_ok _ _ (eo_guid _ _ _ Ho))) as [_ ?].
  unfold entry_bytes. rewrite !Forall_app. split_and!; try apply put_le_bytes; try apply le_units_ok; try apply bytes_ok_zeros; done.
Qed.

(** A rune has one or two units, so the limit on runes is implied by that on units. *)
Lemma runes_units rs : len rs <= len (Encode rs).
Proof.
  unfold len, Encode. induction rs as [|r rs IH]; [done|]. cbn [mbind list_bind]. rewrite length_app. change (list_bind _ _ encode_utf16 rs) with (rs ≫= encode_utf16).
  cbn [length]. assert (1 <= length (encode_utf16 r))%nat; [|lia]. unfold encode_utf16. destruct (_ || _); [cbn; lia|]. destruct (within _ _ _); cbn; lia.
Qed.

(** The loop that writes the name. *)
Lemma name_loop (p : list Z) u k : len p = 56 -> 2 * len u <= Z.of_nat k ->
  go_range (fun i b => x ← index u i; put_word b (56 + i * 2) (56 + i * 2 + 2) (put_le 2 x)) 0 (length u) (p ++ replicate k 0) =
  Ret (p ++ le_units u ++ replicate (Z.to_nat (Z.of_nat k - 2 * len u)) 0).
Proof.
  intros Hp Hk. assert (forall v w, u = v ++ w -> go_range (fun i b => x ← index u i; put_word b (56 + i * 2) (56 + i * 2 + 2) (put_le 2 x)) (len v) (length w)
    ((p ++ le_units v) ++ replicate (Z.to_nat (Z.of_nat k - 2 * len v)) 0) = Ret (p ++ le_units u ++ replicate (Z.to_nat (Z.of_nat k - 2 * len u)) 0)) as Hgo.
  { intros v w. revert v. induction w as [|x w IH]; intros v Hu; cbn [go_range length].
    - rewrite app_nil_r in Hu. subst v. by rewrite <-(assoc_L app).
    - pose proof (len_nonneg v). pose proof (len_nonneg w). assert (len u = len v + 1 + len w) as Hl by (rewrite Hu, len_app, len_cons; lia).
      assert (index u (len v) = Ret x) as ->.
      { destruct (index_ok u (len v) ltac:(lia)) as (y & Hy & ->). rewrite Hu in Hy. unfold len in Hy. rewrite Nat2Z.id, lookup_app_r, Nat.sub_diag in Hy by lia. by injection Hy as ->. }
      cbn [mbind go_bind]. rewrite put_word_ok; [|lia|done|rewrite !len_app, le_units_len, len_replicate, Hp; lia]. cbn [mbind go_bind].
      assert (len (p ++ le_units v) = 56 + len v * 2) as El by (rewrite len_app, le_units_len; lia).
      rewrite <-El. rewrite patch_next by (rewrite len_put_le; lia). rewrite length_put_le.
      assert (len v + 1 = len (v ++ [x])) as -> by (rewrite len_app; done). rewrite <-(IH (v ++ [x])) by (by rewrite <-(assoc_L app)).
      f_equal. rewrite le_units_app, <-!(assoc_L app). assert (le_units [x] = put_le 2 x) as -> by (unfold le_units; cbn [mbind list_bind]; by rewrite app_nil_r).
      do 3 f_equal. rewrite len_app. change (len [x]) with 1. f_equal. lia. }
  specialize (Hgo [] u eq_refl). cbn [le_units mbind list_bind] in Hgo. rewrite app_nil_r, Z.sub_0_r, Nat2Z.id in Hgo. exact Hgo.
Qed.

Lemma toBytes_ok p tg ig : entry_ok p tg ig -> toBytes p = Ret (entry_bytes p tg ig).
Proof.
  intros Ho. destruct (uuid_parse_ok _ _ (eo_type _ _ _ Ho)) as [Ht _]. destruct (uuid_parse_ok _ _ (eo_guid _ _ _ Ho)) as [Hi _].
  pose proof (swapped_len _ Ht) as Hts. pose proof (swapped_len _ Hi) as His. pose proof (eo_name _ _ _ Ho) as Hn.
  unfold toBytes, PartitionEntrySize. rewrite make_ok by (unfold maxAlloc; lia). cbn [mbind go_bind].
  rewrite bool_decide_false by (exact (eo_used _ _ _ Ho)). rewrite (eo_type _ _ _ Ho). rewrite swap_ok by done. cbn [mbind go_bind].
  change (replicate (Z.to_nat 128) 0) with ([] ++ replicate 128 0). rewrite copy_next by (rewrite ?Hts; done || lia). cbn [mbind go_bind].
  rewrite (eo_guid _ _ _ Ho). rewrite swap_ok by done. cbn [mbind go_bind]. cbn [app].
  assert (forall x : list Z, len x = 16 -> length x = 16%nat) as L16 by (unfold len; lia). rewrite !(L16 _ Hts).
  rewrite copy_next by (rewrite ?Hts, ?His; done || lia). cbn [mbind go_bind]. rewrite !(L16 _ His).
  rewrite put_next by (rewrite ?len_app, ?len_put_le, ?Hts, ?His; lia). cbn [mbind go_bind].
  rewrite put_next by (rewrite ?len_app, ?len_put_le, ?Hts, ?His; rewrite ?length_put_le; lia). cbn [mbind go_bind].
  rewrite put_next by (rewrite ?len_app, ?len_put_le, ?Hts, ?His; rewrite ?length_put_le; lia). cbn [mbind go_bind].
  pose proof (runes_units (runes (Name p))) as Hru. unfold units in *. rewrite (proj2 (Z.ltb_ge 36 _)) by lia.
  rewrite !length_put_le. change (128 - 16 - 16 - 8 - 8 - 8)%nat with 72%nat.
  rewrite name_loop by (rewrite ?len_app, ?len_put_le, ?Hts, ?His; lia).
  unfold entry_bytes, units. by rewrite <-!(assoc_L app).
Qed.

Lemma LE_unit x : 0 <= x < 2 ^ 16 -> LE (put_le 2 x) = x.
Proof. intros Hx. rewrite LE_put_le. apply Z.mod_small. change (256 ^ Z.of_nat 2) with (2 ^ 16). lia. Qed.

(** The units of a name, read back up to the padding. *)
Lemma name_units_ok u : Forall (fun x => 0 < x < 2 ^ 16) u -> len u <= 36 ->
  name_units 36 (le_units u ++ replicate (Z.to_nat (72 - 2 * len u)) 0) 0 = Ret u.
Proof.
  intros Hu Hl. set (b := le_units u ++ _). assert (len b = 72) as Hb by (unfold b; rewrite len_app, le_units_len, len_replicate; lia).
  assert (forall w v n, u = v ++ w -> Z.of_nat n + len v = 36 -> name_units n b (2 * len v) = Ret w) as Hgo; [|by apply (Hgo u [])].
  induction w as [|x w IH]; intros v n Hv Hn; pose proof (len_nonneg v).
  - destruct n as [|n]; [done|]. cbn [name_units]. rewrite app_nil_r in Hv. subst v. rewrite (proj2 (Z.ltb_lt _ _)) by lia.
    rewrite get_word_ok by lia. cbn [mbind go_bind]. assert (b.[2 * len u, 2 * len u + 2] = [0; 0]) as ->; [|done].
    unfold b. replace (Z.to_nat (72 - 2 * len u)) with (2 + Z.to_nat (70 - 2 * len u))%nat by lia. rewrite replicate_add.
    apply sub_mid; [by rewrite le_units_len|done].
  - pose proof (len_nonneg w). assert (len u = len v + 1 + len w) as Hlu by (rewrite Hv, len_app, len_cons; lia).
    destruct n as [|n]; [lia|]. cbn [name_units]. rewrite (proj2 (Z.ltb_lt _ _)) by lia. rewrite get_word_ok by lia. cbn [mbind go_bind].
    assert (0 < x < 2 ^ 16) as Hx by (rewrite Hv in Hu; apply Forall_app in Hu as [_ Hu]; by inversion Hu).
    assert (b.[2 * len v, 2 * len v + 2] = put_le 2 x) as ->.
    { unfold b. rewrite Hv, le_units_app. cbn [le_units mbind list_bind]. rewrite <-!(assoc_L app). apply sub_mid; [by rewrite le_units_len|by rewrite len_put_le]. }
    rewrite LE_unit, (proj2 (Z.eqb_neq x 0)) by lia. replace (2 * len v + 2) with (2 * len (v ++ [x])) by (rewrite len_app; change (len [x]) with 1; lia).
    rewrite (IH (v ++ [x])); [done|by rewrite <-(assoc_L app)|rewrite len_app; change (len [x]) with 1; lia].
Qed.

Lemma units_words name : Forall scalar (runes name) -> 0 ∉ runes name -> Forall (fun x => 0 < x < 2 ^ 16) (units name).
Proof.
  intros Hs Hn. unfold units, Encode. apply Forall_bind. apply Forall_forall. intros r Hr. apply Forall_forall. intros u Hu. rewrite Forall_forall in Hs.
  destruct (encode_units r u (Hs r Hr) Hu) as [H16 H0']. assert (u <> 0) by (intros E; apply Hn; by rewrite <-(H0' E)). lia.
Qed.

(** The partition that is read from the slot of another. *)
Definition as_read (i lss pss : Z) (p : Partition) (tg ig : list Z) : Partition :=
  mkPart i (Start p) (End_ p) 0 (shown tg) (Name p) (shown ig) (Attributes p) lss pss.

Lemma swapped_zero tg : guid_ok tg -> swapped tg = replicate 16 0 -> tg = replicate 16 0.
Proof. intros [Hl _] E. rewrite <-(swap_swap tg Hl), E. reflexivity. Qed.

Lemma partition_read i lss pss p tg ig : entry_ok p tg ig -> partitionFromBytes i (entry_bytes p tg ig) lss pss = Ret (Some (as_read i lss pss p tg ig)).
Proof.
  intros Ho. pose proof (uuid_parse_ok _ _ (eo_type _ _ _ Ho)) as Htok. pose proof (uuid_parse_ok _ _ (eo_guid _ _ _ Ho)) as Hiok.
  pose proof (swapped_len _ (proj1 Htok)) as Hts. pose proof (swapped_len _ (proj1 Hiok)) as His. pose proof (entry_len _ _ _ Ho) as Hlen.
  unfold partitionFromBytes, PartitionEntrySize. rewrite Hlen. cbn [Z.eqb Pos.eqb negb].
  set (b := entry_bytes p tg ig) in *. set (nm := le_units (units (Name p)) ++ replicate (Z.to_nat (72 - 2 * len (units (Name p)))) 0).
  assert (b = swapped tg ++ swapped ig ++ put_le 8 (Start p) ++ put_le 8 (End_ p) ++ put_le 8 (Attributes p) ++ nm) as Eb by done.
  assert (len nm = 72) as Hnm by (pose proof Hlen as Hl; rewrite Eb, !len_app, !len_put_le in Hl; lia).
  assert (b.[0, 16] = swapped tg) as E0 by (rewrite Eb; apply (sub_mid []); lia || done).
  assert (b.[16, 32] = swapped ig) as E1 by (rewrite Eb; apply sub_mid; lia).
  assert (b.[32, 40] = put_le 8 (Start p)) as E2 by (rewrite Eb, (assoc_L app); apply sub_mid; rewrite ?len_app, ?len_put_le; lia).
  assert (b.[40, 48] = put_le 8 (End_ p)) as E3 by (rewrite Eb, !(assoc_L app), <-(assoc_L app), <-(assoc_L app); apply sub_mid; rewrite ?len_app, ?len_put_le; lia).
  assert (b.[48, 56] = put_le 8 (Attributes p)) as E4 by (rewrite Eb, !(assoc_L app), <-(assoc_L app); apply sub_mid; rewrite ?len_app, ?len_put_le; lia).
  assert (b.[56, 128] = nm) as E5.
  { rewrite Eb. rewrite <-(app_nil_r nm) at 1. rewrite !(assoc_L app), <-(assoc_L app). apply sub_mid; rewrite ?len_app, ?len_put_le; lia. }
  rewrite !slice_ok by lia. cbn [mbind go_bind]. rewrite E0.
  rewrite bool_decide_false by (intros E; apply (eo_nonzero _ _ _ Ho); by apply swapped_zero).
  rewrite (swap_ok (swapped tg)), (swap_swap tg) by (done || apply (proj1 Htok)). cbn [mbind go_bind]. rewrite (uuid_from_bytes tg) by (apply (proj1 Htok)).
  rewrite E1, (swap_ok (swapped ig)), (swap_swap ig) by (done || apply (proj1 Hiok)). cbn [mbind go_bind]. rewrite (uuid_from_bytes ig) by (apply (proj1 Hiok)).
  rewrite (get_word_ok _ _ _ 32 40), (get_word_ok _ _ _ 40 48), (get_word_ok _ _ _ 48 56) by lia. cbn [mbind go_bind].
  rewrite E2, E3, E4, E5, !LE_put_le. change (256 ^ Z.of_nat 8) with (2 ^ 64).
  rewrite !Z.mod_small by (apply (eo_start _ _ _ Ho) || apply (eo_end _ _ _ Ho) || apply (eo_attr _ _ _ Ho)).
  unfold nm. rewrite name_units_ok; [|by apply units_words; destruct Ho|by destruct Ho]. cbn [mbind go_bind mret go_ret].
  unfold units. rewrite Decode_Encode by (by destruct Ho). by rewrite (eo_utf8 _ _ _ Ho).
Qed.
End entries.

(** ** Completed entries *)

Section arrays.
Context `{UUIDLaws}.

Definition type_id (p : Partition) : list Z := default [] (uuid_Parse (Type_ p)).
Definition part_id (p : Partition) : list Z := default [] (uuid_Parse (GUID p)).
Definition entry (p : Partition) : list Z := entry_bytes p (type_id p) (part_id p).

(** An entry that can be written as it is, in sectors of [blk] bytes. *)
Record settled (blk : Z) (p : Partition) : Prop := {
  se_ok : entry_ok p (type_id p) (part_id p);
  se_guid : GUID p = shown (part_id p);
  se_extent : 1 <= Start p <= End_ p /\ Size p = (End_ p - Start p + 1) * blk /\ Size p < 2 ^ 64
}.

Lemma shown_nonempty g : guid_ok g -> shown g <> [].
Proof. intros Hg. destruct (uuid_string_ascii g Hg) as [_ Hn]. unfold shown, ToUpper. by destruct (uuid_String g). Qed.

Lemma with_guid_same p : with_guid p (GUID p) = p.
Proof. by destruct p. Qed.

Lemma settled_init blk fresh p : 0 < blk < 2 ^ 32 -> settled blk p -> initEntry fresh blk p = Ret (p, None).
Proof.
  intros Hb [Ho Hg (Hs & Hz & Hzr)]. pose proof (uuid_parse_ok _ _ (eo_guid _ _ _ Ho)) as Hgo. pose proof (eo_end _ _ _ Ho). unfold initEntry.
  rewrite bool_decide_false by (exact (eo_used _ _ _ Ho)). rewrite bool_decide_false by (rewrite Hg; by apply shown_nonempty).
  rewrite (eo_guid _ _ _ Ho). rewrite <-Hg, with_guid_same. rewrite (proj2 (Z.eqb_neq (Start p) 0)) by lia.
  assert (u64 (u64 (u64 (End_ p - Start p) + 1) * blk) = Size p) as ->.
  { rewrite (wrap_u_id 64 (_ - _)) by lia. assert (End_ p - Start p + 1 < 2 ^ 64) by nia. rewrite (wrap_u_id 64 (_ + 1)) by lia. rewrite <-Hz. apply wrap_u_id. nia. }
  by rewrite (proj2 (Z.leb_le _ _)), Z.eqb_refl by lia.
Qed.

(** What [initEntry] does: an entry whose size is not set, or whose end is not set, is
    completed so that a second pass leaves it alone; its identifier is kept, or made from
    the fresh one. *)
Lemma init_settles blk fresh p p' : 0 < blk < 2 ^ 32 -> guid_ok fresh -> Type_ p <> Unused ->
  0 <= Start p < 2 ^ 64 -> 0 <= End_ p < 2 ^ 64 -> 0 <= Size p < 2 ^ 64 -> Start p + Size p / blk <= 2 ^ 64 -> (End_ p - Start p + 1) * blk < 2 ^ 64 ->
  initEntry fresh blk p = Ret (p', None) ->
  Index p' = Index p /\ Start p' = Start p /\ Type_ p' = Type_ p /\ Name p' = Name p /\ Attributes p' = Attributes p /\
  GUID p' = shown (part_id p') /\ (GUID p = [] -> part_id p' = fresh) /\ (GUID p <> [] -> part_id p' = part_id p) /\
  1 <= Start p' <= End_ p' /\ End_ p' < 2 ^ 64 /\ Size p' = (End_ p' - Start p' + 1) * blk /\ Size p' < 2 ^ 64 /\
  (Size p <> 0 -> Size p' = Size p) /\ (End_ p <> 0 -> End_ p' = End_ p).
Proof.
  intros Hb Hf Hu Hs He Hz Hq Hext Hi. unfold initEntry in Hi. rewrite bool_decide_false in Hi by done.
  destruct (if bool_decide (GUID p = []) then Some fresh else uuid_Parse (GUID p)) as [g|] eqn:Eg; [|done].
  assert (guid_ok g) as Hg by (case_bool_decide; [by injection Eg as <-|by eapply uuid_parse_ok]).
  assert (part_id (with_guid p (shown g)) = g) as Hpid.
  { unfold part_id. cbn [GUID with_guid]. unfold shown. by rewrite uuid_parse_string. }
  assert ((GUID p = [] -> g = fresh) /\ (GUID p <> [] -> g = part_id p)) as [Hg1 Hg2].
  { unfold part_id. case_bool_decide as E; split; intros E'; try done; [by injection Eg|]. by rewrite Eg. }
  cbv zeta in Hi. cbn [Size Start End_ with_guid] in Hi. destruct (Z.eqb_spec (Start p) 0); [done|].
  assert (forall e s, part_id (with_extent (with_guid p (shown g)) e s) = g) as Hpid' by (intros; exact Hpid).
  destruct (Z.leb_spec (Start p) (End_ p)) as [Hse|Hse]; cbn [andb] in Hi.
  - assert (u64 (u64 (u64 (End_ p - Start p) + 1) * blk) = (End_ p - Start p + 1) * blk) as Ec.
    { rewrite (wrap_u_id 64 (_ - _)) by lia. assert (End_ p - Start p + 1 < 2 ^ 64) by nia. rewrite (wrap_u_id 64 (_ + 1)) by lia. apply wrap_u_id. nia. }
    rewrite Ec in Hi. destruct (Z.eqb_spec (Size p) ((End_ p - Start p + 1) * blk)) as [Hsz|Hsz].
    { injection Hi as <-. rewrite Hpid. cbn [Index Start Type_ Name Attributes GUID End_ Size with_guid]. split_and!; try done; lia. }
    destruct (Z.eqb_spec (Size p) 0) as [Hz0|Hz0].
    { cbn [andb] in Hi. injection Hi as <-. rewrite Hpid'. cbn [Index Start Type_ Name Attributes GUID End_ Size with_guid with_extent]. split_and!; try done; lia. }
    cbn [andb] in Hi. rewrite (proj2 (Z.ltb_lt 0 (Size p))) in Hi by lia. unfold remu in Hi. rewrite (proj2 (Z.eqb_neq blk 0)) in Hi by lia.
    cbn [mbind go_bind mret go_ret] in Hi. rewrite (proj2 (Z.eqb_neq (End_ p) 0)) in Hi by lia. by rewrite andb_false_r in Hi.
  - rewrite andb_false_r in Hi. destruct (Z.ltb_spec 0 (Size p)); [|cbn in Hi; done]. unfold remu, divu in Hi. rewrite (proj2 (Z.eqb_neq blk 0)) in Hi by lia.
    cbn [mbind go_bind mret go_ret] in Hi. destruct (Z.eqb_spec (Size p mod blk) 0) as [Hr|]; [|done]. rewrite (proj2 (Z.ltb_lt 0 (Start p))) in Hi by lia.
    cbn [andb] in Hi. destruct (Z.eqb_spec (End_ p) 0) as [He0|]; [|done]. injection Hi as <-. rewrite Hpid'.
    cbn [Index Start Type_ Name Attributes GUID End_ Size with_guid with_extent].
    assert (Size p = blk * (Size p / blk)) as Hd by (pose proof (Z.div_mod (Size p) blk); lia). assert (1 <= Size p / blk) by nia.
    assert (u64 (u64 (Start p + Size p / blk) - 1) = Start p + Size p / blk - 1) as ->.
    { unfold wrap_u. rewrite Zminus_mod_idemp_l. apply Z.mod_small. lia. }
    split_and!; try done; nia.
Qed.

(** ** The array *)

Definition slot_bytes (m : gmap Z Partition) (i : Z) : list Z :=
  match m !! (i + 1) with Some p => entry p | None => replicate 128 0 end.
Definition array_bytes (m : gmap Z Partition) (n : Z) : list Z := seqZ 0 n ≫= slot_bytes m.

(** The partitions that the slots hold, in the order of the slots. *)
Definition loaded (lss pss : Z) (p : Partition) : Partition := with_extent (as_read (Index p) lss pss p (type_id p) (part_id p)) (End_ p) (Size p).
Definition array_partitions (m : gmap Z Partition) (n lss pss : Z) : list Partition := omap (fun i => loaded lss pss <$> m !! (i + 1)) (seqZ 0 n).

Definition add_all (m : gmap Z Partition) (ps : list Partition) : gmap Z Partition := foldl (fun m p => <[Index p := p]> m) m ps.
Definition index_map (ps : list Partition) : gmap Z Partition := add_all ∅ ps.

(** The entries of a table that can be written: complete, with different numbers from 1. *)
Record entries_ok (blk n : Z) (ps : list Partition) : Prop := {
  es_settled : Forall (settled blk) ps; es_index : Forall (fun p => 1 <= Index p <= n) ps; es_distinct : NoDup (Index <$> ps)
}.

Definition map_ok (blk : Z) (m : gmap Z Partition) : Prop := forall k p, m !! k = Some p -> settled blk p /\ Index p = k.

Lemma add_all_ok blk ps : Forall (settled blk) ps -> forall m, map_ok blk m -> map_ok blk (add_all m ps).
Proof.
  induction 1 as [|p ps Hp Hps IH]; intros m Hm; [done|]. cbn [add_all foldl]. apply IH. intros k q. rewrite lookup_insert_Some.
  intros [[<- <-]|[_ Hq]]; [done|by apply Hm].
Qed.

Lemma init_entries_ok blk n fresh ps : 0 < blk < 2 ^ 32 -> Forall (settled blk) ps -> Forall (fun p => 1 <= Index p <= n) ps -> NoDup (Index <$> ps) ->
  forall done_ m, (forall p, p ∈ ps -> m !! Index p = None) -> init_entries fresh blk n ps done_ m = Ret (done_ ++ ps, inl (add_all m ps)).
Proof.
  intros Hb. induction ps as [|p ps IH]; intros Hs Hi Hd done_ m Hm; [by rewrite app_nil_r|].
  apply Forall_cons in Hs as [Hp Hs], Hi as [Hpi Hi]. cbn [fmap list_fmap] in Hd. apply NoDup_cons in Hd as [Hn Hd].
  cbn [init_entries]. rewrite settled_init by done. cbn [mbind go_bind]. rewrite (proj2 (Z.ltb_ge (Index p) 1)), (proj2 (Z.ltb_ge n _)) by lia. cbn [orb].
  rewrite Hm by apply list_elem_of_here. rewrite IH; [by rewrite <-(assoc_L app)|done|done|done|]. intros q Hq. rewrite lookup_insert_ne; [by apply Hm, list_elem_of_further|].
  intros E. apply Hn. rewrite E. by apply list_elem_of_fmap_2.
Qed.

Lemma slot_len blk m i : map_ok blk m -> len (slot_bytes m i) = 128.
Proof. intros Hm. unfold slot_bytes. destruct (m !! (i + 1)) as [p|] eqn:E; [|by rewrite len_replicate]. apply entry_len. by destruct (Hm _ _ E) as [[? _ _] _]. Qed.

Lemma slot_bytes_ok blk m i : map_ok blk m -> bytes_ok (slot_bytes m i).
Proof. intros Hm. unfold slot_bytes. destruct (m !! (i + 1)) as [p|] eqn:E; [|apply bytes_ok_zeros]. apply entry_bytes_ok. by destruct (Hm _ _ E) as [[? _ _] _]. Qed.

Lemma slots_len blk m i k : map_ok blk m -> len (seqZ i (Z.of_nat k) ≫= slot_bytes m) = 128 * Z.of_nat k.
Proof.
  intros Hm. revert i. induction k as [|k IH]; intros i; [done|]. rewrite seqZ_cons by lia. cbn [mbind list_bind].
  rewrite len_app, (slot_len blk) by done. replace (Z.pred (Z.of_nat (S k))) with (Z.of_nat k) by lia.
  change (list_bind _ _ (slot_bytes m) ?l) with (l ≫= slot_bytes m). rewrite IH. lia.
Qed.

Lemma array_len blk m n : map_ok blk m -> 0 <= n -> len (array_bytes m n) = 128 * n.
Proof. intros Hm Hn. unfold array_bytes. rewrite <-(Z2Nat.id n) at 1 by done. rewrite (slots_len blk) by done. lia. Qed.

Lemma array_bytes_ok blk m n : map_ok blk m -> bytes_ok (array_bytes m n).
Proof. intros Hm. unfold array_bytes. apply Forall_bind, Forall_forall. intros i _. by apply (slot_bytes_ok blk). Qed.

(** The loop over the slots. *)
Lemma array_loop blk t m k : map_ok blk m -> partitionEntrySize t = 128 -> forall i (a : list Z), 0 <= i -> len a = 128 * i ->
  go_range (array_slot t m) i k (a ++ replicate (128 * k) 0) = Ret (a ++ (seqZ i (Z.of_nat k) ≫= slot_bytes m)).
Proof.
  intros Hm He. induction k as [|k IH]; intros i a Hi Ha; cbn [go_range]; [done|].
  assert (array_slot t m i (a ++ replicate (128 * S k) 0) = Ret (a ++ slot_bytes m i ++ replicate (128 * k) 0)) as ->.
  { replace (128 * S k)%nat with (128 + 128 * k)%nat by lia. rewrite replicate_add. unfold array_slot, slot_bytes. destruct (m !! (i + 1)) as [p|] eqn:E; [|done].
    destruct (Hm _ _ E) as [[Ho _ _] _]. rewrite (toBytes_ok _ _ _ Ho). cbn [catch mbind go_bind]. rewrite He.
    pose proof (entry_len _ _ _ Ho) as Hl. pose proof (len_nonneg a). rewrite copy_at_ok; [|lia|lia|rewrite !len_app, !len_replicate; lia].
    f_equal. replace (i * 128) with (len a) by lia. apply patch_middle. rewrite len_replicate. unfold entry. lia. }
  cbn [mbind go_bind]. rewrite (assoc_L app). rewrite IH; [|lia|rewrite len_app, (slot_len blk) by done; lia].
  rewrite (seqZ_cons i) by lia. replace (Z.pred (Z.of_nat (S k))) with (Z.of_nat k) by lia. cbn [mbind list_bind].
  rewrite <-(assoc_L app). by replace (Z.succ i) with (i + 1) by lia.
Qed.

Definition array_table (t : Table) (n lss : Z) : Prop :=
  partitionArraySize t = n /\ partitionEntrySize t = 128 /\ LogicalSectorSize t = lss /\ 0 < n < 2 ^ 25 /\ 0 < lss < 2 ^ 32.

Lemma array_written t n lss fresh : array_table t n lss -> entries_ok lss n (partitions t) ->
  toPartitionArrayBytes fresh t = Ret (t, inl (array_bytes (index_map (partitions t)) n)).
Proof.
  intros (Hn & He & Hl & Hnr & Hlr) [Hs Hi Hd]. unfold toPartitionArrayBytes. rewrite Hl, Hn. rewrite (wrap_u_id 64 lss) by lia.
  rewrite (init_entries_ok lss n fresh (partitions t)) by (done || lia). cbn [mbind go_bind app].
  assert (with_partitions t (match Partitions t with None => None | Some _ => Some (partitions t) end) = t) as Et.
  { unfold partitions. destruct t as [[ps|] ? ? ? ? ? ? ? ? ? ? ? ? ? ?]; reflexivity. }
  rewrite Et, He, Hn. rewrite (wrap_u_id 32 n), (wrap_u_id 32 (128 * n)), make_ok by (unfold maxAlloc; lia). cbn [mbind go_bind].
  assert (map_ok lss (index_map (partitions t))) as Hm by (apply add_all_ok; [done|by intros ??]).
  replace (Z.to_nat (128 * n)) with (128 * Z.to_nat n)%nat by lia. pose proof (array_loop lss t _ (Z.to_nat n) Hm He 0 [] ltac:(lia) eq_refl) as El.
  cbn [app] in El. fold (index_map (partitions t)). rewrite El. cbn [catch mbind go_bind mret go_ret]. unfold array_bytes. by rewrite Z2Nat.id by lia.
Qed.

(** Reading the array back. *)
Lemma array_read blk m n lss pss : map_ok blk m -> 0 < blk < 2 ^ 32 -> lss = blk -> 0 <= n < 2 ^ 25 ->
  readPartitionArrayBytes (array_bytes m n) 128 lss pss = Ret (array_partitions m n lss pss).
Proof.
  intros Hm Hb Hlss Hn. subst lss. unfold readPartitionArrayBytes. 
  match goal with |- go_for _ ?body _ = _ => assert (forall k i parts fuel, (k < fuel)%nat -> 0 <= i ->
    go_for fuel body (i, (seqZ i (Z.of_nat k) ≫= slot_bytes m), parts) = Ret (parts ++ omap (fun i => loaded blk pss <$> m !! (i + 1)) (seqZ i (Z.of_nat k)))) as Hgo end.
  { induction k as [|k IH]; intros i parts fuel Hf Hi; (destruct fuel as [|fuel]; [lia|]); cbn [go_for].
    - rewrite app_nil_r. reflexivity.
    - rewrite (seqZ_cons i) by lia. replace (Z.pred (Z.of_nat (S k))) with (Z.of_nat k) by lia. replace (Z.succ i) with (i + 1) by lia. cbn [mbind list_bind].
      change (list_bind _ _ (slot_bytes m) ?l) with (l ≫= slot_bytes m). set (rest := seqZ (i + 1) (Z.of_nat k) ≫= slot_bytes m).
      pose proof (slot_len blk m i Hm) as Hl. pose proof (len_nonneg rest). rewrite len_app, Hl, (proj2 (Z.leb_le 128 _)) by lia.
      rewrite slice_ok by (rewrite ?len_app; lia). cbn [mbind go_bind]. rewrite sub_app_l by done. rewrite from_app_r by done.
      assert (partitionFromBytes (i + 1) (slot_bytes m i) blk pss = Ret ((fun p => as_read (i + 1) blk pss p (type_id p) (part_id p)) <$> m !! (i + 1))) as ->.
      { unfold slot_bytes. destruct (m !! (i + 1)) as [p|] eqn:E; [|reflexivity]. destruct (Hm _ _ E) as [[Ho _ _] _]. by apply partition_read. }
      cbn [catch mbind go_bind mret go_ret]. unfold rest. rewrite IH by lia. f_equal. cbn [omap list_omap]. destruct (m !! (i + 1)) as [p|] eqn:E; [|done].
      cbn [fmap option_fmap option_map]. rewrite <-(assoc_L app). destruct (Hm _ _ E) as [[Ho Hg (Hs & Hz & Hzr)] Hi'].
      assert (with_extent (as_read (i + 1) blk pss p (type_id p) (part_id p)) (End_ p) (u64 (u64 (u64 (End_ p - Start p) + 1) * u64 blk)) = loaded blk pss p) as <-; [|done].
      unfold loaded. rewrite Hi'. f_equal. pose proof (eo_end _ _ _ Ho). rewrite (wrap_u_id 64 (_ - _)) by lia. assert (End_ p - Start p + 1 < 2 ^ 64) by nia.
      rewrite (wrap_u_id 64 (_ + 1)), (wrap_u_id 64 blk) by lia. rewrite <-Hz. apply wrap_u_id. nia. }
  unfold array_bytes, array_partitions. rewrite <-(Z2Nat.id n) by lia. rewrite Hgo; [done| |lia].
  pose proof (slots_len blk m 0 (Z.to_nat n) Hm) as Hl. unfold len in Hl. lia.
Qed.
End arrays.

(** ** The header *)

(** What a header holds. *)
Record header := mkHeader { h_my : Z; h_alternate : Z; h_first : Z; h_last : Z; h_guid : list Z; h_array : Z; h_count : Z; h_checksum : Z }.

Definition header_head : list Z := EfiSignature ++ EfiRevision ++ EfiHeaderSize.
Definition header_tail (h : header) : list Z :=
  EfiZeroes ++ put_le 8 (h_my h) ++ put_le 8 (h_alternate h) ++ put_le 8 (h_first h) ++ put_le 8 (h_last h) ++ swapped (h_guid h) ++
  put_le 8 (h_array h) ++ put_le 4 (h_count h) ++ put_le 4 0x80 ++ put_le 4 (h_checksum h).
Definition header_crc (h : header) : Z := ChecksumIEEE (header_head ++ [0; 0; 0; 0] ++ header_tail h).
Definition header_bytes (h : header) (lss : Z) : list Z :=
  header_head ++ put_le 4 (header_crc h) ++ header_tail h ++ replicate (Z.to_nat (lss - 92)) 0.

Record header_ok (h : header) : Prop := {
  ho_guid : guid_ok (h_guid h); ho_my : 0 <= h_my h < 2 ^ 64; ho_alternate : 0 <= h_alternate h < 2 ^ 64;
  ho_first : 0 <= h_first h < 2 ^ 64; ho_last : 0 <= h_last h < 2 ^ 64; ho_array : 0 <= h_array h < 2 ^ 64;
  ho_count : 0 <= h_count h < 2 ^ 32; ho_checksum : 0 <= h_checksum h < 2 ^ 32
}.

Lemma tail_len h : header_ok h -> len (header_tail h) = 72.
Proof. intros Ho. unfold header_tail. rewrite !len_app, !len_put_le, swapped_len by apply (ho_guid _ Ho). reflexivity. Qed.

Lemma header_len h lss : header_ok h -> 92 <= lss -> len (header_bytes h lss) = lss.
Proof. intros Ho Hl. unfold header_bytes. rewrite !len_app, len_put_le, tail_len, len_replicate by done. change (len header_head) with 16. lia. Qed.

Lemma header_bytes_ok h lss : header_ok h -> bytes_ok (header_bytes h lss).
Proof.
  intros Ho. pose proof (swap_guid _ (ho_guid _ Ho)) as [_ Hg]. unfold header_bytes, header_tail, header_head. rewrite !Forall_app.
  assert (forall l, bytes_okb l = true -> bytes_ok l) as Hb by apply bytes_okb_ok.
  split; [split; [by apply Hb|split; by apply Hb]|]. split; [apply put_le_bytes|]. split; [|apply bytes_ok_zeros].
  split; [by apply Hb|]. do 4 (split; [apply put_le_bytes|]). split; [done|]. do 3 (split; [apply put_le_bytes|]). apply put_le_bytes.
Qed.

Lemma store_zeros k : forall i (a : list Z), len a = i -> go_range (fun i b => store b i 0) i k (a ++ replicate k 0) = Ret (a ++ replicate k 0).
Proof.
  induction k as [|k IH]; intros i a Ha; cbn [go_range]; [done|]. pose proof (len_nonneg a).
  rewrite store_patch by (rewrite len_app, len_replicate; lia). cbn [mbind go_bind]. rewrite <-Ha. rewrite patch_next by (change (len [0]) with 1; lia).
  change (length [0]) with 1%nat. replace (S k - 1)%nat with k by lia. rewrite IH by (rewrite len_app; done).
  rewrite <-(assoc_L app). done.
Qed.

(** The pieces of a concatenation that is nested to the left. *)
Lemma sub_prefix {A} (l d : list A) lo hi : 0 <= lo <= hi -> hi <= len l -> (l ++ d).[lo, hi] = l.[lo, hi].
Proof.
  intros Hlo Hhi. unfold sub. rewrite drop_app_le, take_app_le by (rewrite ?length_drop; unfold len in *; lia). done.
Qed.
Lemma sub_suffix {A} (a x : list A) lo hi : lo = len a -> hi = len a + len x -> (a ++ x).[lo, hi] = x.
Proof. intros -> ->. rewrite <-(app_nil_r x) at 1. by apply sub_mid. Qed.

Lemma len_signature : len EfiSignature = 8. Proof. done. Qed.
Lemma len_revision : len EfiRevision = 4. Proof. done. Qed.
Lemma len_header_size : len EfiHeaderSize = 4. Proof. done. Qed.
Lemma len_zeroes : len EfiZeroes = 4. Proof. done. Qed.
Lemma len_four : len [0; 0; 0; 0] = 4. Proof. done. Qed.
#[local] Hint Rewrite @len_app @len_nil len_put_le len_signature len_revision len_header_size len_zeroes len_four : lens.
#[local] Ltac lens := autorewrite with lens; lia.

Lemma put_nextZ p k lo hi x : lo = len p -> hi = lo + len x -> len x <= k ->
  put_word (p ++ replicate (Z.to_nat k) 0) lo hi x = Ret ((p ++ x) ++ replicate (Z.to_nat (k - len x)) 0).
Proof. intros. pose proof (len_nonneg x). rewrite put_next by lia. do 3 f_equal. unfold len in *. lia. Qed.

Lemma copy_nextZ p k lo hi x : lo = len p -> hi = lo + len x -> len x <= k ->
  copy_at (p ++ replicate (Z.to_nat k) 0) lo hi x = Ret ((p ++ x) ++ replicate (Z.to_nat (k - len x)) 0).
Proof. intros. pose proof (len_nonneg x). rewrite copy_next by lia. do 3 f_equal. unfold len in *. lia. Qed.

(** A field of a header that is a concatenation nested to the left. *)
#[local] Ltac piece Eb Hsl := rewrite Eb; repeat (rewrite sub_prefix by (autorewrite with lens; rewrite ?Hsl; lia)); apply sub_suffix; autorewrite with lens; rewrite ?Hsl; lia.

Section header.
Context `{UUIDLaws}.

(** The header that [toGPTBytes] writes for a table. *)
Definition header_of (t : Table) (primary : bool) (n lss : Z) : header :=
  mkHeader (if primary then primaryHeader t else secondaryHeader t) (if primary then secondaryHeader t else primaryHeader t)
    (firstDataSector t) (lastDataSector t) (default [] (uuid_Parse (DiskGUID t)))
    (if primary then u64 (primaryHeader t + 1) else u64 (secondaryHeader t - n * 128 / lss)) n
    (ChecksumIEEE (array_bytes (index_map (partitions t)) n)).

Lemma array_sector t n lss primary : array_table t n lss ->
  partitionArraySector t primary = Ret (if primary then u64 (primaryHeader t + 1) else u64 (secondaryHeader t - n * 128 / lss)).
Proof.
  intros (Hn & He & Hl & Hnr & Hlr). unfold partitionArraySector, partSectors, divu. destruct primary; [done|].
  rewrite Hn, He, Hl, (wrap_u_id 64 n), (wrap_u_id 64 (n * 128)), (wrap_u_id 64 lss) by lia. by rewrite (proj2 (Z.eqb_neq lss 0)) by lia.
Qed.

Lemma header_written t n lss primary fd fresh g : array_table t n lss -> entries_ok lss n (partitions t) -> 92 <= lss ->
  uuid_Parse (DiskGUID t) = Some g -> DiskGUID t <> [] -> lss <= maxAlloc ->
  toGPTBytes fd fresh primary t = Ret (t, inl (header_bytes (header_of t primary n lss) lss)).
Proof.
  intros Ha He Hlss Hg Hne Hmax. pose proof (array_sector t n lss primary Ha) as Hsec. pose proof (array_written t n lss fresh Ha He) as Harr.
  destruct Ha as (Hn & Hes & Hl & Hnr & Hlr). pose proof (uuid_parse_ok _ _ Hg) as [Hgl _]. pose proof (swapped_len _ Hgl) as Hsl.
  unfold toGPTBytes. rewrite Hl, Hn, make_ok by lia. cbn [mbind go_bind].
  set (h := header_of t primary n lss) in *.
  replace (if primary then (primaryHeader t, secondaryHeader t) else (secondaryHeader t, primaryHeader t)) with (h_my h, h_alternate h) by (by destruct primary).
  change (replicate (Z.to_nat lss) 0) with ([] ++ replicate (Z.to_nat lss) 0).
  do 5 (rewrite copy_nextZ by lens; cbn [mbind go_bind]). do 4 (rewrite put_nextZ by lens; cbn [mbind go_bind]).
  rewrite bool_decide_false, Hg by done. assert (slice g 0 16 = Ret g) as -> by (rewrite slice_ok by lia; f_equal; rewrite <-Hgl; apply sub_full).
  cbn [mbind go_bind]. rewrite swap_ok by done. cbn [mbind go_bind].
  rewrite copy_nextZ by (autorewrite with lens; rewrite ?Hsl; lia). cbn [mbind go_bind]. rewrite Hsec. cbn [mbind go_bind].
  do 3 (rewrite put_nextZ by (autorewrite with lens; rewrite ?Hsl; lia); cbn [mbind go_bind]).
  rewrite Harr. cbn [mbind go_bind]. rewrite put_nextZ by (autorewrite with lens; rewrite ?Hsl; lia). cbn [mbind go_bind].
  rewrite slice_ok by (autorewrite with lens; rewrite ?Hsl; rewrite ?len_replicate; lia). cbn [mbind go_bind].
  rewrite sub_app_l by (autorewrite with lens; rewrite ?Hsl; lia). rewrite (wrap_u_id 32 n) by lia.
  match goal with |- context [put_word (?P ++ replicate (Z.to_nat ?k) 0) 16 20 _] =>
    assert (k = lss - 92) as -> by (autorewrite with lens; rewrite ?Hsl; lia); assert (P = header_head ++ [0; 0; 0; 0] ++ header_tail h) as -> end.
  { unfold header_head, header_tail. subst h. unfold header_of. cbn [h_my h_alternate h_first h_last h_guid h_array h_count h_checksum]. rewrite Hg. cbn [default].
    rewrite <-!(assoc_L app). reflexivity. }
  fold (header_crc h). rewrite <-!(assoc_L app).
  assert (len (header_tail h) = 72) as Htl by (unfold header_tail; autorewrite with lens; subst h; unfold header_of; cbn [h_guid]; rewrite Hg; change (default [] (Some g)) with g; rewrite Hsl; lia).
  assert (len header_head = 16) as Hhl by done.
  rewrite put_word_ok by (autorewrite with lens; rewrite ?Htl, ?len_replicate; lia). cbn [mbind go_bind]. rewrite <-Hhl at 1.
  rewrite patch_middle by lens. rewrite Hl. rewrite !(assoc_L app).
  rewrite store_zeros by (autorewrite with lens; rewrite Htl; lia). cbn [mbind go_bind mret go_ret].
  unfold header_bytes. by rewrite <-!(assoc_L app).
Qed.

(** The table that a header alone describes. *)
Definition header_table (h : header) : Table :=
  mkTable None 0 0 (shown (h_guid h)) false false (h_count h) 128 (h_array h) (h_checksum h) (h_my h) (h_alternate h) (h_first h) (h_last h) false.

Lemma LE_field (n : nat) x : 0 <= x < 256 ^ Z.of_nat n -> LE (put_le n x) = x.
Proof. intros Hx. rewrite LE_put_le. by apply Z.mod_small. Qed.

Lemma header_read h z : header_ok h -> readGPTHeader (header_head ++ put_le 4 (header_crc h) ++ header_tail h ++ z) = Ret (header_table h).
Proof.
  intros Ho. pose proof (tail_len h Ho) as Htl. pose proof (swapped_len _ (proj1 (ho_guid h Ho))) as Hsl.
  assert (0 <= header_crc h < 2 ^ 32) as Hcrc.
  { apply checksum_range. pose proof (header_bytes_ok h 92 Ho) as Hb. unfold header_bytes in Hb. rewrite !Forall_app in *. destruct Hb as (? & _ & ? & _).
    split_and!; try done. by apply bytes_okb_ok. }
  set (crc := header_crc h) in *. set (b := header_head ++ put_le 4 crc ++ header_tail h ++ z). assert (len b = 92 + len z) as Hlb by (unfold b; autorewrite with lens; change (len header_head) with 16; rewrite Htl; lia).
  pose proof (len_nonneg z). unfold readGPTHeader.
  assert (len header_head = 16) as Hhl by done.
  assert (b = (((((((((((((EfiSignature ++ EfiRevision) ++ EfiHeaderSize) ++ put_le 4 crc) ++ EfiZeroes) ++ put_le 8 (h_my h)) ++ put_le 8 (h_alternate h)) ++
    put_le 8 (h_first h)) ++ put_le 8 (h_last h)) ++ swapped (h_guid h)) ++ put_le 8 (h_array h)) ++ put_le 4 (h_count h)) ++ put_le 4 128) ++ put_le 4 (h_checksum h)) ++ z) as Eb.
  { unfold b, header_tail, header_head. by rewrite <-!(assoc_L app). }
  assert (b.[0, 8] = EfiSignature) as E0 by (rewrite Eb; repeat (rewrite sub_prefix by (autorewrite with lens; rewrite ?Hsl; lia)); apply (sub_suffix []); lens).
  assert (b.[8, 12] = EfiRevision) as E1 by piece Eb Hsl. assert (b.[12, 16] = EfiHeaderSize) as E2 by piece Eb Hsl.
  assert (b.[16, 20] = put_le 4 crc) as E3 by piece Eb Hsl. assert (b.[20, 24] = EfiZeroes) as E4 by piece Eb Hsl.
  assert (b.[24, 32] = put_le 8 (h_my h)) as E5 by piece Eb Hsl. assert (b.[32, 40] = put_le 8 (h_alternate h)) as E6 by piece Eb Hsl.
  assert (b.[40, 48] = put_le 8 (h_first h)) as E7 by piece Eb Hsl. assert (b.[48, 56] = put_le 8 (h_last h)) as E8 by piece Eb Hsl.
  assert (b.[56, 72] = swapped (h_guid h)) as E9 by piece Eb Hsl. assert (b.[72, 80] = put_le 8 (h_array h)) as E10 by piece Eb Hsl.
  assert (b.[80, 84] = put_le 4 (h_count h)) as E11 by piece Eb Hsl. assert (b.[84, 88] = put_le 4 128) as E12 by piece Eb Hsl.
  assert (b.[88, 92] = put_le 4 (h_checksum h)) as E13 by piece Eb Hsl.
  destruct Ho as [Hg Hmy Halt Hfirst Hlast Harr Hcnt Hsum].
  rewrite (slice_ok b 0 8), (slice_ok b 8 12), (slice_ok b 12 16), (slice_ok b 20 24), (slice_ok b 56 72) by lia. cbn [mbind go_bind].
  rewrite (get_word_ok _ _ b 16 20), (get_word_ok _ _ b 24 32), (get_word_ok _ _ b 32 40), (get_word_ok _ _ b 40 48), (get_word_ok _ _ b 48 56),
    (get_word_ok _ _ b 72 80), (get_word_ok _ _ b 80 84), (get_word_ok _ _ b 84 88), (get_word_ok _ _ b 88 92) by lia. cbn [mbind go_bind].
  rewrite E0, E1, E2, E3, E4, E5, E6, E7, E8, E9, E10, E11, E12, E13.
  rewrite (swap_ok (swapped (h_guid h))), (swap_swap (h_guid h)) by (done || apply (proj1 Hg)). cbn [mbind go_bind]. rewrite (uuid_from_bytes (h_guid h)) by (apply (proj1 Hg)).
  rewrite !LE_field by (done || (change (256 ^ Z.of_nat 4) with (2 ^ 32); lia) || (change (256 ^ Z.of_nat 8) with (2 ^ 64); lia)).
  rewrite copy_at_ok by (rewrite ?len_four; lia). cbn [mbind go_bind]. rewrite !bool_decide_true by done. cbn [negb].
  assert (patch b 16 [0; 0; 0; 0] = (header_head ++ [0; 0; 0; 0] ++ header_tail h) ++ z) as ->.
  { unfold b. rewrite <-Hhl at 1. rewrite patch_middle by lens. by rewrite <-!(assoc_L app). }
  rewrite slice_ok by (autorewrite with lens; rewrite ?Htl; lia). cbn [mbind go_bind]. rewrite sub_app_l by (autorewrite with lens; rewrite ?Htl; lia).
  fold (header_crc h). fold crc. rewrite Z.eqb_refl. reflexivity.
Qed.
End header.
