(* ===== verification/GptDisk.v ===== *)
(** * GptDisk: a partition table on a disk
    Where the two copies of a table lie, what [Write] leaves on the disk after each of its
    steps, and what [Read] makes of a disk one copy of which is damaged. *)
From S2P Require Import Prelude Bytes ReaderAt Text Storage PartIO Crc32 Utf16 Guid Gpt GptFormat.

(** A device whose size is found by seeking to its end. *)
Class SeekableDevice (D : Type) `{Storage D} (repr : D -> Z -> (Z -> Z) -> Prop) :=
  seek_end d size c : repr d size c -> exists d', Seek d 0 SeekEnd = (d', (size, None)) /\ repr d' size c.

#[global] Instance memory_seekable : SeekableDevice memory memory_is.
Proof.
  intros m size c (Hro & Hl & Hs & Hb & Hc). cbn [Seek memory_storage]. unfold memory_Seek. change (SeekEnd =? SeekStart) with false. change (SeekEnd =? SeekCurrent) with false.
  cbv iota. pose proof (len_nonneg (data m)). rewrite (proj2 (Z.ltb_ge _ _)) by lia. rewrite Z.add_0_r, Hl. eexists. split; [reflexivity|].
  unfold memory_is. cbn [readOnly data]. done.
Defined.

Lemma protective_total b s : exists f, readProtectiveMBR b s = Ret f.
Proof.
  unfold readProtectiveMBR, mbrPartitionEntriesStart. cbv zeta. destruct (Z.ltb_spec (len b) 512); [by eexists|]. rewrite (slice_ok b (len b - 2)), (slice_ok b 446) by lia. cbn [mbind go_bind].
  case_bool_decide; [|by eexists]. cbn [negb]. change (446 + 16 * 4) with 510.
  assert (len b.[446, 510] = 64) as Hl by (rewrite len_sub by lia; lia).
  rewrite slice_ok by lia. cbn [mbind go_bind]. destruct (zeroMatch _); cbn [negb]; [|by eexists].
  rewrite !index_byte_at, (get_word_ok _ _ _ 8 12), (get_word_ok _ _ _ 12 16) by lia. by eexists.
Qed.

Definition mbr_flag (b : list Z) (s : Z) : bool := match readProtectiveMBR b s with Ret f => f | _ => false end.

Lemma mbr_flag_ok b s : readProtectiveMBR b s = Ret (mbr_flag b s).
Proof. unfold mbr_flag. by destruct (protective_total b s) as [f ->]. Qed.

Section disk.
Context {D : Type} `{Hst : Storage D} {repr : D -> Z -> (Z -> Z) -> Prop} {Hdev : WritableDevice D repr} {Hseek : SeekableDevice D repr}.
Context `{UUIDLaws}.

Lemma read_full_ok d dsize c n off m1 m2 : repr d dsize c -> 0 <= n <= maxAlloc -> 0 <= off -> off + n <= dsize -> read_full d n off m1 m2 = Ret (span c off n).
Proof.
  intros Hr Hn Ho Hf. unfold read_full. rewrite make_ok by lia. cbn [mbind go_bind].
  rewrite (wd_read _ _ _ _ _ Hr) by (rewrite ?len_replicate; lia). cbn [mbind go_bind r_err r_n r_buf]. rewrite Z.eqb_refl. cbn [negb mret go_ret].
  by rewrite len_replicate, Z2Nat.id by lia.
Qed.

Lemma header_sector_read h lss : header_ok h -> readGPTHeader (header_bytes h lss) = Ret (header_table h).
Proof. apply header_read. Qed.

(** ** Reading *)

(** The table that a copy describes: its header, and the partitions of its array. *)
Definition copy_table (h : header) (m : gmap Z Partition) (primary : bool) (flag rec : bool) (lss pss : Z) : Table :=
  mkTable (Some (array_partitions m (h_count h) lss pss)) lss pss (shown (h_guid h)) flag rec (h_count h) 128 (h_array h) (h_checksum h)
    (if primary then h_my h else h_alternate h) (if primary then h_alternate h else h_my h) (h_first h) (h_last h) true.

(** An intact copy: its header in sector [h_my h], its array where the header says. *)
Record intact (c : Z -> Z) (dsize lss : Z) (h : header) (m : gmap Z Partition) : Prop := {
  in_header : span c (h_my h * lss) lss = header_bytes h lss;
  in_array : span c (h_array h * lss) (128 * h_count h) = array_bytes m (h_count h);
  in_checksum : h_checksum h = ChecksumIEEE (array_bytes m (h_count h));
  in_ok : header_ok h; in_map : map_ok lss m; in_count : 0 <= h_count h < 2 ^ 25;
  in_fits : h_my h * lss + lss <= dsize /\ h_array h * lss + 128 * h_count h <= dsize
}.

Lemma load_ok d dsize c t h m lss pss : repr d dsize c -> intact c dsize lss h m -> 512 <= lss <= 2 ^ 16 ->
  partitionArraySize t = h_count h -> partitionEntrySize t = 128 -> partitionFirstLBA t = h_array h -> LogicalSectorSize t = lss -> partitionEntryChecksum t = h_checksum h ->
  loadEntries d t lss pss = Ret (with_partitions t (Some (array_partitions m (h_count h) lss pss))).
Proof.
  intros Hr [Hh Ha Hsum Ho Hm Hc [Hf1 Hf2]] Hlss E1 E2 E3 E4 E5. pose proof (wd_size _ _ _ Hr). pose proof (ho_array _ Ho).
  unfold loadEntries, calculatePartitionArrayLocations. rewrite E1, E2, E3, E4, E5.
  assert (h_array h < 2 ^ 63) by nia. rewrite (i64_id (h_array h)) by lia. rewrite (i64_id (h_array h * lss)), (i64_id (h_count h * 128)) by nia.
  rewrite (read_full_ok d dsize c) by (done || (unfold maxAlloc; lia) || nia). cbn [mbind go_bind]. rewrite (Z.mul_comm (h_count h)), Ha, Hsum, Z.eqb_refl. cbn [negb].
  rewrite (array_read lss m (h_count h) lss pss) by (done || lia). reflexivity.
Qed.

(** Reading the primary copy. *)
Lemma read_primary_ok d dsize c h m lss pss : repr d dsize c -> intact c dsize lss h m -> 512 <= lss <= 2 ^ 16 -> h_my h = 1 ->
  Gpt.Read d lss pss = Ret (copy_table h m true (mbr_flag (span c 0 lss) (u32 (h_alternate h))) false lss pss).
Proof.
  intros Hr Hin Hlss Hmy. pose proof (wd_size _ _ _ Hr). pose proof Hin as [Hh Ha Hsum Ho Hm Hc [Hf1 Hf2]]. rewrite Hmy, Z.mul_1_l in *.
  unfold Gpt.Read, readPrimary. rewrite (i64_id (lss * 2)) by lia. rewrite (read_full_ok d dsize c) by (done || (unfold maxAlloc; lia) || lia). cbn [mbind go_bind].
  assert (span c 0 (lss * 2) = span c 0 lss ++ header_bytes h lss) as E by (replace (lss * 2) with (lss + lss) by lia; rewrite span_app by lia; by rewrite Z.add_0_l, Hh).
  assert (len (span c 0 lss) = lss) as Hl0 by (apply len_span; lia). pose proof (header_len h lss Ho ltac:(lia)) as Hl1.
  unfold tableFromBytes. rewrite E, len_app, Hl0, Hl1, (i64_id (lss * 2)) by lia. rewrite (proj2 (Z.ltb_ge _ _)) by lia.
  rewrite (slice_ok _ lss (lss + lss)) by (rewrite ?len_app; lia). cbn [mbind go_bind].
  assert ((span c 0 lss ++ header_bytes h lss).[lss, lss + lss] = header_bytes h lss) as -> by (apply sub_suffix; lia).
  rewrite header_sector_read by done. cbn [mbind go_bind]. rewrite (slice_ok _ 0 lss) by (rewrite ?len_app; lia). cbn [mbind go_bind].
  rewrite sub_app_l by done. change (secondaryHeader (header_table h)) with (h_alternate h). rewrite mbr_flag_ok. cbn [mbind go_bind mret go_ret or_else].
  rewrite (load_ok d dsize c _ h m lss pss Hr Hin) by (done || lia). cbn [catch mbind go_bind mret go_ret].
  unfold with_partitions, with_sizes, header_table, copy_table. cbn [LogicalSectorSize PhysicalSectorSize DiskGUID ProtectiveMBR RecoveredFromBackup partitionArraySize partitionEntrySize partitionFirstLBA partitionEntryChecksum primaryHeader secondaryHeader firstDataSector lastDataSector initialized].
  by rewrite Hmy.
Qed.

(** Reading the backup when the primary copy has been refused. *)
Lemma read_backup_ok d dsize c h m lss pss e : repr d dsize c -> intact c dsize lss h m -> 512 <= lss <= 2 ^ 16 -> h_my h = dsize / lss - 1 -> 2 * lss <= dsize ->
  readPrimary d lss pss = Err e -> is_content e = true ->
  Gpt.Read d lss pss = Ret (copy_table h m false (mbr_flag (span c 0 lss) (u32 (h_my h))) true lss pss).
Proof.
  intros Hr Hin Hlss Hmy Hsize He Hc. pose proof (wd_size _ _ _ Hr). pose proof Hin as [Hh Ha Hsum Ho Hm Hcn [Hf1 Hf2]].
  destruct (seek_end d dsize c Hr) as (d' & Hs & Hr'). unfold Gpt.Read. rewrite He. cbn [catch mbind go_bind]. rewrite Hc. cbn [negb].
  unfold SeekEnd_. rewrite Hs. rewrite (i64_id (lss * 2)), (proj2 (Z.ltb_ge dsize _)), (proj2 (Z.eqb_neq lss 0)) by lia. cbn [mbind go_bind mret go_ret].
  pose proof (ho_my _ Ho) as Hmyr. rewrite Z.quot_div_nonneg by lia. rewrite (wrap_u_id 64 (dsize / lss)), <-Hmy, (wrap_u_id 64 (h_my h)) by lia.
  unfold readBackup. rewrite (i64_id (h_my h)), (i64_id (h_my h * lss)) by nia. rewrite (read_full_ok d' dsize c) by (done || (unfold maxAlloc; lia) || nia). cbn [mbind go_bind].
  rewrite Hh. rewrite header_sector_read by done. cbn [or_else mbind go_bind]. change (primaryHeader (header_table h)) with (h_my h). rewrite Z.eqb_refl. cbn [negb].
  rewrite make_ok by (unfold maxAlloc; lia). cbn [mbind go_bind]. rewrite (wd_read _ _ _ _ _ Hr') by (rewrite ?len_replicate; lia). cbn [mbind go_bind r_err r_n r_buf].
  rewrite Z.eqb_refl, len_replicate, Z2Nat.id by lia. change (secondaryHeader (with_headers (header_table h) (secondaryHeader (header_table h)) (h_my h))) with (h_my h).
  rewrite mbr_flag_ok. cbn [mbind go_bind]. rewrite (load_ok d' dsize c _ h m lss pss Hr' Hin) by (done || lia). reflexivity.
Qed.

(** A primary copy whose header is intact but whose array has another checksum is refused. *)
Lemma primary_array_refused d dsize c h lss pss : repr d dsize c -> span c lss lss = header_bytes h lss -> header_ok h -> 0 <= h_count h < 2 ^ 25 -> 512 <= lss <= 2 ^ 16 ->
  h_array h * lss + 128 * h_count h <= dsize -> 2 * lss <= dsize -> ChecksumIEEE (span c (h_array h * lss) (128 * h_count h)) <> h_checksum h ->
  exists e, readPrimary d lss pss = Err e /\ is_content e = true.
Proof.
  intros Hr Hh Ho Hc Hlss Hf Hf2 Hne. pose proof (wd_size _ _ _ Hr). pose proof (ho_array _ Ho).
  unfold readPrimary. rewrite (i64_id (lss * 2)) by lia. rewrite (read_full_ok d dsize c) by (done || (unfold maxAlloc; lia) || lia). cbn [mbind go_bind].
  assert (span c 0 (lss * 2) = span c 0 lss ++ header_bytes h lss) as E by (replace (lss * 2) with (lss + lss) by lia; rewrite span_app by lia; by rewrite Z.add_0_l, Hh).
  assert (len (span c 0 lss) = lss) as Hl0 by (apply len_span; lia). pose proof (header_len h lss Ho ltac:(lia)) as Hl1.
  unfold tableFromBytes. rewrite E, len_app, Hl0, Hl1, (i64_id (lss * 2)) by lia. rewrite (proj2 (Z.ltb_ge _ _)) by lia.
  rewrite (slice_ok _ lss (lss + lss)) by (rewrite ?len_app; lia). cbn [mbind go_bind].
  assert ((span c 0 lss ++ header_bytes h lss).[lss, lss + lss] = header_bytes h lss) as -> by (apply sub_suffix; lia).
  rewrite header_sector_read by done. cbn [mbind go_bind]. rewrite (slice_ok _ 0 lss) by (rewrite ?len_app; lia). cbn [mbind go_bind].
  rewrite mbr_flag_ok. cbn [mbind go_bind mret go_ret or_else].
  unfold loadEntries, calculatePartitionArrayLocations. cbn [with_sizes header_table partitionFirstLBA LogicalSectorSize partitionArraySize partitionEntrySize partitionEntryChecksum].
  assert (h_array h < 2 ^ 63) by nia. rewrite (i64_id (h_array h)) by lia. rewrite (i64_id (h_array h * lss)), (i64_id (h_count h * 128)) by nia.
  rewrite (read_full_ok d dsize c) by (done || (unfold maxAlloc; lia) || nia). cbn [mbind go_bind]. rewrite (Z.mul_comm (h_count h)).
  rewrite (proj2 (Z.eqb_neq _ _)) by (intros E'; by apply Hne). cbn [negb]. eexists. split; reflexivity.
Qed.

(** ** Writing *)

(** A table that can be written to a disk of [dsize] bytes: initialized, complete, its
    array of whole sectors, the two copies apart. *)
Record geometry (t : Table) (n lss dsize : Z) : Prop := {
  ge_array : array_table t n lss; ge_entries : entries_ok lss n (partitions t); ge_init : initialized t = true;
  ge_sector : 512 <= lss <= 2 ^ 16; ge_whole : n * 128 = n * 128 / lss * lss;
  ge_primary : primaryHeader t = 1; ge_secondary : secondaryHeader t = dsize / lss - 1; ge_room : 2 + 2 * (n * 128 / lss) <= secondaryHeader t;
  ge_data : 0 <= firstDataSector t < 2 ^ 64 /\ 0 <= lastDataSector t < 2 ^ 64;
  ge_guid : exists g, uuid_Parse (DiskGUID t) = Some g; ge_named : DiskGUID t <> []
}.

Context (Sync : D -> D * option error).
Context (Hsync : forall d size c, repr d size c -> exists d', Sync d = (d', None) /\ repr d' size c).

(** The content after a list of writes. *)
Definition after (ws : list (list Z * Z)) (c : Z -> Z) : Z -> Z := foldl (fun c w => overwrite c (snd w) (fst w)) c ws.
Definition write_fits (dsize : Z) (w : list Z * Z) : Prop := bytes_ok (fst w) /\ 0 <= snd w /\ snd w + len (fst w) <= dsize.

Lemma write_all_ok dsize ws : Forall (write_fits dsize) ws -> forall d c, repr d dsize c ->
  exists d', write_all Sync ws d = Ret (d', None) /\ repr d' dsize (after ws c).
Proof.
  induction 1 as [|[buf off] ws (Hb & Ho & Hf) Hws IH]; intros d c Hr; [by exists d|]. cbn [fst snd] in *.
  destruct (wd_write _ _ _ buf off Hr Hb Ho Hf) as (d1 & Hw & Hr1). destruct (Hsync _ _ _ Hr1) as (d2 & Hs & Hr2).
  destruct (IH d2 _ Hr2) as (d' & Hd & Hr'). exists d'. split; [|exact Hr'].
  cbn [write_all]. unfold writeAtWithSync. rewrite Hw. cbn [mbind go_bind]. rewrite Z.eqb_refl. cbn [negb]. rewrite Hs. cbn [mbind go_bind mret go_ret]. exact Hd.
Qed.

Lemma span_after_out ws : forall c o n, Forall (fun w => snd w + len (fst w) <= o \/ o + n <= snd w) ws -> span (after ws c) o n = span c o n.
Proof.
  induction ws as [|[buf off] ws IH]; intros c o n Hf; [done|]. apply Forall_cons in Hf as [Hw Hf]. cbn [fst snd] in Hw. cbn [after foldl fst snd].
  change (foldl _ (overwrite c off buf) ws) with (after ws (overwrite c off buf)). rewrite IH by done. apply span_same. intros x Hx. apply overwrite_out. lia.
Qed.

Lemma span_after_here ws : forall c buf off o n, o = off -> n = len buf -> Forall (fun w => snd w + len (fst w) <= o \/ o + n <= snd w) ws ->
  span (after ((buf, off) :: ws) c) o n = buf.
Proof.
  intros c buf off o n -> -> Hf. cbn [after foldl fst snd]. change (foldl _ (overwrite c off buf) ws) with (after ws (overwrite c off buf)).
  rewrite span_after_out by done. apply overwrite_span.
Qed.

Section geometry.
Context (t : Table) (n lss dsize : Z) (Hg : geometry t n lss dsize) (Hds : dsize < 2 ^ 63).
Notation ps := (n * 128 / lss).
Notation last_ := (secondaryHeader t).
Notation m := (index_map (partitions t)).
Notation arr := (array_bytes m n).
Notation hdr := (fun primary => header_of t primary n lss).

Lemma geo_map : map_ok lss m.
Proof. destruct Hg as [_ [Hs _ _] _ _ _ _ _ _ _ _ _]. apply add_all_ok; [done|by intros ??]. Qed.

Lemma geo_bounds : 0 < n < 2 ^ 25 /\ 0 <= ps /\ (last_ + 1) * lss <= dsize < (last_ + 2) * lss /\ len arr = ps * lss /\ 0 < last_ < 2 ^ 54.
Proof.
  pose proof geo_map as Hm. destruct Hg as [(_ & _ & _ & Hn & _) _ _ Hl Hw _ Hsec Hroom _ _ _].
  rewrite (array_len lss) by (done || lia). assert (0 <= ps) by (apply Z.div_pos; lia). pose proof (Z.mul_div_le dsize lss). pose proof (Z.mul_succ_div_gt dsize lss). split_and!; nia.
Qed.

Lemma geo_header primary : header_ok (hdr primary) /\ h_my (hdr primary) = (if primary then 1 else last_) /\ h_array (hdr primary) = (if primary then 2 else last_ - ps) /\
  h_count (hdr primary) = n /\ h_alternate (hdr primary) = (if primary then last_ else 1) /\ h_checksum (hdr primary) = ChecksumIEEE arr.
Proof.
  destruct geo_bounds as (Hn & Hps & Hd & Hl & Hla). pose proof (array_bytes_ok lss m n geo_map) as Hab. pose proof (checksum_range _ Hab) as Hc.
  destruct Hg as [_ _ _ _ _ Hp _ Hroom [Hf1 Hf2] [g Hgu] _]. unfold header_of. cbn [h_my h_array h_count h_alternate h_checksum]. rewrite Hp, Hgu.
  change (default [] (Some g)) with g. pose proof (uuid_parse_ok _ _ Hgu).
  rewrite (wrap_u_id 64 (1 + 1)), (wrap_u_id 64 (last_ - ps)) by lia.
  split; [|by destruct primary]. split; cbn [h_guid h_my h_alternate h_first h_last h_array h_count h_checksum]; try done; try lia; destruct primary; lia.
Qed.

Lemma geo_serialise fd fresh : serialise fd fresh t = Ret (t, inl (header_bytes (hdr true) lss, header_bytes (hdr false) lss, arr)).
Proof.
  destruct Hg as [Ha He _ Hl _ _ _ _ _ [g Hgu] Hne]. unfold serialise. rewrite (header_written t n lss true fd fresh g Ha He) by (done || (unfold maxAlloc; lia) || lia). cbn [mbind go_bind].
  rewrite (header_written t n lss false fd fresh g Ha He) by (done || (unfold maxAlloc; lia) || lia). cbn [mbind go_bind].
  rewrite (array_written t n lss fresh Ha He). reflexivity.
Qed.

(** The five writes, and where they go. *)
Definition mbr_write : list (list Z * Z) := if ProtectiveMBR t then [(from (generateProtectiveMBR t) 446, 446)] else [].
Definition copies : list (list Z * Z) :=
  [(arr, (last_ - ps) * lss); (header_bytes (hdr false) lss, last_ * lss); (arr, 2 * lss); (header_bytes (hdr true) lss, lss)].

Lemma geo_writes : table_writes t (header_bytes (hdr true) lss) (header_bytes (hdr false) lss) arr = Ret (mbr_write ++ copies).
Proof.
  destruct geo_bounds as (Hn & Hps & Hd & Hl & Hla). pose proof Hg as [Ha _ _ Hls _ Hp _ Hroom _ _ _]. unfold table_writes.
  rewrite !(array_sector t n lss) by done. cbn [mbind go_bind]. rewrite Hp. destruct Ha as (_ & _ & -> & _ & _).
  rewrite (wrap_u_id 64 (1 + 1)), (wrap_u_id 64 (last_ - ps)), (i64_id (1 + 1)), (i64_id (last_ - ps)), (i64_id last_) by lia.
  rewrite (i64_id (lss * (1 + 1))), (i64_id (lss * (last_ - ps))), (i64_id (last_ * lss)) by nia. unfold mbr_write, copies, mbrPartitionEntriesStart. cbn [mret go_ret].
  by rewrite (Z.mul_comm lss (1 + 1)), (Z.mul_comm lss (last_ - ps)).
Qed.

Lemma mbr_len : Forall (fun w : list Z * Z => len (fst w) = 66 /\ snd w = 446 /\ bytes_ok (fst w)) mbr_write.
Proof.
  unfold mbr_write. destruct (ProtectiveMBR t); [|constructor]. constructor; [|constructor]. split; [reflexivity|]. split; [reflexivity|].
  cbn [fst]. apply bytes_ok_from. unfold generateProtectiveMBR. rewrite !Forall_app. split; [apply bytes_ok_zeros|]. split; [by apply bytes_okb_ok|].
  split; [apply put_le_bytes|]. split; [apply put_le_bytes|]. split; [apply bytes_ok_zeros|by apply bytes_okb_ok].
Qed.

Lemma geo_fits : Forall (write_fits dsize) (mbr_write ++ copies).
Proof.
  destruct geo_bounds as (Hn & Hps & Hd & Hl & Hla). pose proof (ge_room _ _ _ _ Hg). pose proof (ge_sector _ _ _ _ Hg). pose proof (array_bytes_ok lss m n geo_map) as Hab.
  destruct (geo_header true) as (Ho1 & _), (geo_header false) as (Ho2 & _). pose proof (header_len _ lss Ho1 ltac:(lia)). pose proof (header_len _ lss Ho2 ltac:(lia)).
  apply Forall_app. split.
  - eapply Forall_impl; [exact mbr_len|]. intros [b o] (Hb & Ho & Hok). cbn [fst snd] in *. split; [done|]. cbn [fst snd]. nia.
  - unfold copies. repeat (constructor; [split; [try done; by apply header_bytes_ok|cbn [fst snd]; nia]|]). constructor.
Qed.
End geometry.
End disk.
