(* ===== verification/GptWrite.v ===== *)
(** * GptWrite: writing a GUID partition table, whole and interrupted
    What can be read back after [Write], after each of its writes, and when the primary
    copy is damaged. *)
From S2P Require Import Prelude Bytes ReaderAt Text Storage PartIO Crc32 Utf16 Guid Gpt GptFormat GptDisk.

(** Nothing of [w] falls into the [n] bytes at [o]. *)
Definition misses (o n : Z) (w : list Z * Z) : Prop := snd w + len (fst w) <= o \/ o + n <= snd w.

Lemma intact_frame `{UUIDLaws} c ws dsize lss h m : intact c dsize lss h m ->
  Forall (misses (h_my h * lss) lss) ws -> Forall (misses (h_array h * lss) (128 * h_count h)) ws -> intact (after ws c) dsize lss h m.
Proof. intros [Hh Ha ? ? ? ? ?] Hm1 Hm2. split; try done; by rewrite span_after_out. Qed.

Lemma after_app ws1 ws2 c : after (ws1 ++ ws2) c = after ws2 (after ws1 c).
Proof. apply foldl_app. Qed.

Lemma Forall_firstn {A} (P : A -> Prop) k l : Forall P l -> Forall P (take k l).
Proof. apply Forall_take. Qed.

Section write.
Context {D : Type} `{Hst : Storage D} {repr : D -> Z -> (Z -> Z) -> Prop} {Hdev : WritableDevice D repr} {Hseek : SeekableDevice D repr}.
Context `{UUIDLaws}.
Context (Sync : D -> D * option error).
Context (Hsync : forall d size c, repr d size c -> exists d', Sync d = (d', None) /\ repr d' size c).
Context (t : Table) (n lss dsize : Z) (Hg : geometry t n lss dsize) (Hds : dsize < 2 ^ 63).
Notation ps := (n * 128 / lss).
Notation last_ := (secondaryHeader t).
Notation m := (index_map (partitions t)).
Notation arr := (array_bytes m n).
Notation hdr := (fun primary => header_of t primary n lss).
Notation primary_writes := [(arr, 2 * lss); (header_bytes (hdr true) lss, lss)].
Notation backup_writes := [(arr, (last_ - ps) * lss); (header_bytes (hdr false) lss, last_ * lss)].

(** Both copies of the new table, once they are written. *)
Lemma copy_intact (primary : bool) ws c : let h := hdr primary in
  Forall (misses (h_my h * lss) lss) ws -> Forall (misses (h_array h * lss) (128 * n)) ws ->
  intact (after ((arr, h_array h * lss) :: (header_bytes h lss, h_my h * lss) :: ws) c) dsize lss h m.
Proof.
  cbv zeta. intros Hm1 Hm2. destruct (geo_bounds t n lss dsize Hg Hds) as (Hn & Hps & Hd & Hl & Hla). pose proof (geo_map t n lss dsize Hg) as Hm.
  destruct (geo_header t n lss dsize Hg Hds primary) as (Ho & Emy & Earr & Ecnt & Ealt & Esum). pose proof (ge_sector _ _ _ _ Hg). pose proof (ge_room _ _ _ _ Hg). pose proof (ge_whole _ _ _ _ Hg).
  pose proof (header_len _ lss Ho ltac:(lia)) as Hhl. set (h := header_of t primary n lss) in *.
  split; rewrite ?Ecnt; try done; try lia.
  - cbn [after foldl fst snd]. change (foldl _ _ ws) with (after ((header_bytes h lss, h_my h * lss) :: ws) (overwrite c (h_array h * lss) arr)). by apply span_after_here.
  - apply span_after_here; [done|lia|]. constructor; [|done]. unfold misses. cbn [fst snd]. rewrite Hhl, Emy, Earr. destruct primary; nia.
  - rewrite Emy, Earr. destruct primary; nia.
Qed.

(** The writes of one copy do not touch the other, nor the area of the protective MBR. *)
Lemma writes_apart : Forall (misses lss lss) (mbr_write t ++ backup_writes) /\ Forall (misses (2 * lss) (128 * n)) (mbr_write t ++ backup_writes) /\
  Forall (misses (last_ * lss) lss) primary_writes /\ Forall (misses ((last_ - ps) * lss) (128 * n)) primary_writes.
Proof.
  destruct (geo_bounds t n lss dsize Hg Hds) as (Hn & Hps & Hd & Hl & Hla).
  destruct (geo_header t n lss dsize Hg Hds true) as (Ho1 & _), (geo_header t n lss dsize Hg Hds false) as (Ho2 & _).
  pose proof (ge_sector _ _ _ _ Hg). pose proof (ge_room _ _ _ _ Hg). pose proof (ge_whole _ _ _ _ Hg).
  pose proof (header_len _ lss Ho1 ltac:(lia)). pose proof (header_len _ lss Ho2 ltac:(lia)).
  assert (forall o k, 512 <= o -> Forall (misses o k) (mbr_write t)) as Hmbr.
  { intros o k Ho. eapply Forall_impl; [apply (mbr_len t)|]. intros [b p] (E1 & E2 & _). unfold misses. cbn [fst snd] in *. lia. }
  rewrite !Forall_app. split_and!; try (apply Hmbr; lia); repeat (constructor; [unfold misses; cbn [fst snd]; nia|]); constructor.
Qed.

Lemma new_primary c : intact (after (mbr_write t ++ copies t n lss) c) dsize lss (hdr true) m.
Proof.
  change (copies t n lss) with (backup_writes ++ primary_writes). rewrite (assoc_L app), after_app.
  destruct (geo_header t n lss dsize Hg Hds true) as (_ & Emy & Earr & _).
  pose proof (copy_intact true [] (after (mbr_write t ++ backup_writes) c) ltac:(constructor) ltac:(constructor)) as Hi. cbv beta zeta in Hi.
  rewrite Emy, Earr, Z.mul_1_l in Hi. exact Hi.
Qed.

Lemma new_backup c pw : Forall (misses (last_ * lss) lss) pw -> Forall (misses ((last_ - ps) * lss) (128 * n)) pw ->
  intact (after ((mbr_write t ++ backup_writes) ++ pw) c) dsize lss (hdr false) m.
Proof.
  intros H1 H2. rewrite <-(assoc_L app), after_app. destruct (geo_header t n lss dsize Hg Hds false) as (_ & Emy & Earr & _).
  pose proof (copy_intact false pw (after (mbr_write t) c)) as Hi. cbv beta zeta in Hi. rewrite Emy, Earr in Hi. by apply Hi.
Qed.

Lemma old_primary c k ho mo : intact c dsize lss ho mo -> h_my ho = 1 -> h_array ho = 2 -> h_count ho = n ->
  intact (after (take k (mbr_write t ++ backup_writes)) c) dsize lss ho mo.
Proof.
  intros Hi E1 E2 E3. destruct writes_apart as (H1 & H2 & _ & _).
  apply intact_frame; [done|rewrite E1, Z.mul_1_l; by apply Forall_take|rewrite E2, E3; by apply Forall_take].
Qed.

(** A disk whose primary copy is half updated: the old header, and an array that is
    the old one if it has its checksum. *)
Lemma half_read d c ho mo A pss : repr d dsize c -> intact c dsize lss (hdr false) m -> header_ok ho -> map_ok lss mo ->
  h_my ho = 1 -> h_array ho = 2 -> h_count ho = n -> h_checksum ho = ChecksumIEEE (array_bytes mo n) ->
  span c lss lss = header_bytes ho lss -> span c (2 * lss) (128 * n) = A -> (ChecksumIEEE A = h_checksum ho -> A = array_bytes mo n) ->
  exists flag, Gpt.Read d lss pss = Ret (copy_table ho mo true flag false lss pss) \/ Gpt.Read d lss pss = Ret (copy_table (hdr false) m false flag true lss pss).
Proof.
  intros Hr Hb Ho Hm E1 E2 E3 Es Hh HA Hcoll. destruct (geo_bounds t n lss dsize Hg Hds) as (Hn & Hps & Hd & Hl & Hla).
  pose proof (ge_sector _ _ _ _ Hg). pose proof (ge_room _ _ _ _ Hg). pose proof (ge_whole _ _ _ _ Hg).
  destruct (decide (ChecksumIEEE A = h_checksum ho)) as [E|Hne].
  - eexists. left. apply (read_primary_ok d dsize c); [done| |lia|done].
    split; rewrite ?E1, ?E2, ?E3, ?Z.mul_1_l; [exact Hh|by rewrite HA, Hcoll|exact Es|exact Ho|exact Hm|lia|split; nia].
  - destruct (primary_array_refused d dsize c ho lss pss) as (e & He & Hc); rewrite ?E2, ?E3; [exact Hr|exact Hh|exact Ho|lia|lia|nia|nia|by rewrite HA|].
    destruct (geo_header t n lss dsize Hg Hds false) as (_ & Emy & _).
    eexists. right. apply (read_backup_ok d dsize c _ _ lss pss e); try done; [rewrite Emy; by apply Hg|nia].
Qed.
End write.

(** ** Interrupted writes *)

(** The first [k] writes, and [j] sectors of the next. *)
Definition interrupted (lss : Z) (ws : list (list Z * Z)) (k j : nat) : list (list Z * Z) :=
  take k ws ++ match ws !! k with Some (buf, off) => [(take (j * Z.to_nat lss) buf, off)] | None => [] end.

Lemma interrupted_Forall (P : list Z * Z -> Prop) lss ws k j : (forall b b' o, P (b, o) -> b' `prefix_of` b -> P (b', o)) -> Forall P ws -> Forall P (interrupted lss ws k j).
Proof.
  intros Hp Hf. apply Forall_app. split; [by apply Forall_take|]. destruct (ws !! k) as [[b o]|] eqn:E; [|constructor].
  constructor; [|constructor]. apply (Hp b); [exact (proj1 (Forall_lookup _ _) Hf _ _ E)|]. exists (drop (j * Z.to_nat lss) b). by rewrite take_drop.
Qed.

Lemma prefix_len {A} (l k : list A) : l `prefix_of` k -> len l <= len k.
Proof. intros [r ->]. rewrite len_app. pose proof (len_nonneg r). lia. Qed.

Lemma interrupted_misses lss ws k j o n : Forall (misses o n) ws -> Forall (misses o n) (interrupted lss ws k j).
Proof. apply interrupted_Forall. intros b b' p Hm Hpre%prefix_len. unfold misses in *. cbn [fst snd] in *. lia. Qed.

Lemma interrupted_fits lss ws k j dsize : Forall (write_fits dsize) ws -> Forall (write_fits dsize) (interrupted lss ws k j).
Proof.
  apply interrupted_Forall. intros b b' p (Hb & H1 & H2) Hpre. pose proof (prefix_len _ _ Hpre). destruct Hpre as [r ->]. apply Forall_app in Hb as [Hb _].
  unfold write_fits. cbn [fst snd] in *. split; [done|lia].
Qed.

Lemma misses_prefix o n b b' p : b' `prefix_of` b -> misses o n (b, p) -> misses o n (b', p).
Proof. intros Hpre%prefix_len. unfold misses. cbn [fst snd]. lia. Qed.

Lemma firstn_prefix {A} i (l : list A) : take i l `prefix_of` l.
Proof. exists (drop i l). by rewrite take_drop. Qed.

(** Where the interruption falls, when two writes are singled out. *)
Lemma interrupted_cases lss l1 b1 o1 b2 o2 k j : let ws := l1 ++ [(b1, o1); (b2, o2)] in
  interrupted lss ws k j = interrupted lss l1 k j \/ (exists i, interrupted lss ws k j = l1 ++ [(take i b1, o1)]) \/
  (interrupted lss ws k j = l1 ++ [(b1, o1); (take (j * Z.to_nat lss) b2, o2)]) \/ interrupted lss ws k j = ws.
Proof.
  cbv zeta. unfold interrupted. destruct (Nat.lt_ge_cases k (length l1)); [left; rewrite take_app_le by lia; by rewrite lookup_app_l|right].
  rewrite take_app_ge, lookup_app_r by lia. destruct (k - length l1)%nat as [|[|i]]; cbn [take lookup list_lookup].
  - left. eexists. by rewrite app_nil_r.
  - right. left. by rewrite <-(assoc_L app).
  - right. right. destruct i; by rewrite app_nil_r.
Qed.

(** An area after a write of the first bytes of [a] over it. *)
Lemma span_torn c o a i n : n = len a -> span (overwrite c o (take i a)) o n = take i a ++ drop i (span c o n).
Proof.
  intros ->. set (b := take i a). assert (len b + len (drop i a) = len a) as E by (rewrite <-len_app; unfold b; by rewrite take_drop).
  pose proof (len_nonneg b). pose proof (len_nonneg (drop i a)). replace (len a) with (len b + len (drop i a)) by lia.
  rewrite !span_app by done. rewrite overwrite_span. f_equal. rewrite (span_same _ c) by (intros x Hx; apply overwrite_out; lia).
  pose proof (len_span c o (len b) ltac:(done)) as Hl. set (y := span c o (len b)) in *. clearbody y.
  assert (length b = i `min` length a)%nat as Hb by (unfold b; apply length_take). unfold len in Hl.
  destruct (Nat.le_gt_cases i (length a)).
  - symmetry. apply drop_app_length'. lia.
  - rewrite (drop_ge a) by lia. change (len []) with 0. symmetry. rewrite drop_ge; [done|]. rewrite length_app. change (length (span c (o + len b) 0)) with 0%nat. lia.
Qed.

Section theorems.
Context {D : Type} `{Hst : Storage D} {repr : D -> Z -> (Z -> Z) -> Prop} {Hdev : WritableDevice D repr} {Hseek : SeekableDevice D repr}.
Context `{UUIDLaws}.
Context (Sync : D -> D * option error).
Context (Hsync : forall d size c, repr d size c -> exists d', Sync d = (d', None) /\ repr d' size c).

(** The bytes that [Write] may change: those of the protective MBR, and the two copies. *)
Definition table_area (t : Table) (n lss x : Z) : Prop :=
  (ProtectiveMBR t = true /\ 446 <= x < 512) \/ lss <= x < 2 * lss + 128 * n \/ secondaryHeader t * lss - 128 * n <= x < secondaryHeader t * lss + lss.

Lemma after_out ws : forall c x, Forall (misses x 1) ws -> after ws c x = c x.
Proof.
  intros c x Hf. pose proof (span_after_out ws c x 1 Hf) as E. unfold span in E. rewrite (seqZ_cons x 1) in E by lia. by injection E.
Qed.

Lemma outside_area t n lss dsize c x : geometry t n lss dsize -> dsize < 2 ^ 63 -> ~ table_area t n lss x ->
  after (mbr_write t ++ copies t n lss) c x = c x.
Proof.
  intros Hg Hds Hx. apply after_out. destruct (geo_bounds t n lss dsize Hg Hds) as (Hn & Hps & Hd & Hl & Hla).
  destruct (geo_header t n lss dsize Hg Hds true) as (Ho1 & _), (geo_header t n lss dsize Hg Hds false) as (Ho2 & _).
  pose proof (ge_sector _ _ _ _ Hg). pose proof (ge_room _ _ _ _ Hg). pose proof (ge_whole _ _ _ _ Hg).
  pose proof (header_len _ lss Ho1 ltac:(lia)). pose proof (header_len _ lss Ho2 ltac:(lia)). unfold table_area in Hx. apply Forall_app. split.
  - unfold mbr_write. destruct (ProtectiveMBR t); [|constructor]. constructor; [|constructor]. unfold misses. cbn [fst snd].
    change (len (from (generateProtectiveMBR t) 446)) with 66. lia.
  - unfold copies. repeat (constructor; [unfold misses; cbn [fst snd]; nia|]). constructor.
Qed.

Lemma sub_shift {A} (a b : list A) lo hi : 0 <= lo <= hi -> (a ++ b).[len a + lo, len a + hi] = b.[lo, hi].
Proof. intros Hlo. unfold sub, len. rewrite Z2Nat.inj_add, Nat2Z.id by lia. rewrite drop_app_add. do 2 f_equal. lia. Qed.

(** The sector of the protective MBR, when there is one and sectors have 512 bytes. *)
Lemma protective_read t n dsize c : geometry t n 512 dsize -> dsize < 2 ^ 63 -> ProtectiveMBR t = true ->
  mbr_flag (span (after (mbr_write t ++ copies t n 512) c) 0 512) (u32 (secondaryHeader t)) = true.
Proof.
  intros Hg Hds Hp. set (c' := after _ c). assert (span c' 446 66 = from (generateProtectiveMBR t) 446) as E.
  { unfold c', mbr_write. rewrite Hp. apply span_after_here; [done|done|].
    destruct (geo_bounds t n 512 dsize Hg Hds) as (Hn & Hps & Hd & Hl & Hla). pose proof (ge_room _ _ _ _ Hg).
    pose proof (ge_whole _ _ _ _ Hg). unfold copies. repeat (constructor; [cbn [fst snd]; nia|]). constructor. }
  assert (span c' 0 512 = span c' 0 446 ++ from (generateProtectiveMBR t) 446) as -> by (rewrite <-E; by apply (span_app c' 0 446 66)).
  assert (len (span c' 0 446) = 446) as Hl by (by apply len_span). set (a := span c' 0 446) in *. clearbody a. clear E c'.
  assert (from (generateProtectiveMBR t) 446 = [0; 0; 0; 0; 0xee; 0; 0; 0] ++ put_le 4 1 ++ put_le 4 (u32 (secondaryHeader t)) ++ replicate 48 0 ++ MbrSignature) as -> by reflexivity.
  set (tl := _ ++ put_le 4 1 ++ _). assert (len tl = 66) as Htl by reflexivity. assert (len (a ++ tl) = 512) as Hlen by (rewrite len_app; lia).
  unfold mbr_flag, readProtectiveMBR, mbrPartitionEntriesStart. cbv zeta. rewrite Hlen. cbn [Z.ltb Z.compare Pos.compare Pos.compare_cont].
  rewrite (slice_ok _ (512 - 2) 512), (slice_ok _ 446 (446 + 16 * 4)) by lia. cbn [mbind go_bind].
  assert (forall lo hi, 0 <= lo <= hi -> hi <= 66 -> (a ++ tl).[446 + lo, 446 + hi] = tl.[lo, hi]) as Hsub.
  { intros lo hi Hlo Hhi. rewrite <-Hl. by apply sub_shift. }
  assert ((a ++ tl).[512 - 2, 512] = MbrSignature) as -> by exact (Hsub 64 66 ltac:(lia) ltac:(lia)).
  assert ((a ++ tl).[446, 446 + 16 * 4] = tl.[0, 64]) as -> by exact (Hsub 0 64 ltac:(lia) ltac:(lia)). clear Hsub Hlen.
  rewrite bool_decide_true by done. cbn [negb mbind go_bind].
  assert (slice tl.[0, 64] 16 64 = Ret (replicate 48 0)) as -> by reflexivity. cbn [mbind go_bind]. assert (zeroMatch (replicate 48 0) = true) as -> by reflexivity.
  assert (index tl.[0, 64] 0 = Ret 0) as -> by reflexivity. assert (index tl.[0, 64] 4 = Ret 0xee) as -> by reflexivity. cbn [mbind go_bind negb].
  assert (get_le 4 tl.[0, 64] 8 12 = Ret 1) as -> by reflexivity. assert (get_le 4 tl.[0, 64] 12 16 = Ret (LE (put_le 4 (u32 (secondaryHeader t))))) as -> by reflexivity.
  cbn [mbind go_bind mret go_ret]. pose proof (wrap_u_range 32 (secondaryHeader t) ltac:(lia)). rewrite LE_field by lia. by rewrite (Z.eqb_refl (u32 (secondaryHeader t))).
Qed.

(** [Write] is its list of writes. *)
Lemma write_is t n lss dsize fd fresh size (d : D) : geometry t n lss dsize -> dsize < 2 ^ 63 ->
  Write Sync fd fresh t d size = ('(f, err) ← write_all Sync (mbr_write t ++ copies t n lss) d; mret (f, t, err)).
Proof.
  intros Hg Hds. unfold Write. rewrite (ge_init _ _ _ _ Hg). cbn [mbind go_bind mret go_ret].
  rewrite (geo_serialise t n lss dsize Hg). cbn [mbind go_bind]. by rewrite (geo_writes t n lss dsize Hg Hds).
Qed.

(** What is on the disk after an interruption: the old primary copy; or a complete backup,
    the old header and a mixture of the arrays; or the new primary copy. *)
Lemma crash_states t n lss dsize : geometry t n lss dsize -> dsize < 2 ^ 63 -> forall c ho mo k j,
  intact c dsize lss ho mo -> h_my ho = 1 -> h_array ho = 2 -> h_count ho = n ->
  let c' := after (interrupted lss (mbr_write t ++ copies t n lss) k j) c in let m := index_map (partitions t) in
  intact c' dsize lss ho mo \/
  (intact c' dsize lss (header_of t false n lss) m /\ exists i, span c' lss lss = header_bytes ho lss /\
     span c' (2 * lss) (128 * n) = take i (array_bytes m n) ++ drop i (array_bytes mo n)) \/
  intact c' dsize lss (header_of t true n lss) m.
Proof.
  intros Hg Hds c ho mo k j Hold E1 E2 E3. cbv zeta. set (m := index_map (partitions t)). set (arr := array_bytes m n). set (hp := header_bytes (header_of t true n lss) lss).
  set (bw := [(arr, (secondaryHeader t - n * 128 / lss) * lss); (header_bytes (header_of t false n lss) lss, secondaryHeader t * lss)]).
  destruct (geo_bounds t n lss dsize Hg Hds) as (Hn & Hps & Hd & Hl & Hla). destruct (geo_header t n lss dsize Hg Hds true) as (Ho & _).
  pose proof (ge_sector _ _ _ _ Hg). pose proof (ge_whole _ _ _ _ Hg). pose proof (ge_room _ _ _ _ Hg). pose proof (header_len _ lss Ho ltac:(lia)) as Hhl.
  pose proof (array_len lss mo n (in_map _ _ _ _ _ Hold) ltac:(lia)) as Hlo. change (len arr = n * 128 / lss * lss) in Hl. change (len hp = lss) in Hhl.
  destruct (writes_apart t n lss dsize Hg Hds) as (M1 & M2 & M3 & M4).
  pose proof (new_primary t n lss dsize Hg Hds c) as Hnew. pose proof (in_header _ _ _ _ _ Hold) as Hh0. pose proof (in_array _ _ _ _ _ Hold) as HA0.
  rewrite E1, Z.mul_1_l in Hh0. rewrite E2, E3 in HA0.
  assert (mbr_write t ++ copies t n lss = (mbr_write t ++ bw) ++ [(arr, 2 * lss); (hp, lss)]) as Ews by (by rewrite <-(assoc_L app)).
  destruct (interrupted_cases lss (mbr_write t ++ bw) arr (2 * lss) hp lss k j) as [Ei|[[i Ei]|[Ei|Ei]]]; rewrite Ews, Ei.
  - left. apply intact_frame; rewrite ?E1, ?E2, ?E3, ?Z.mul_1_l; [done|by apply interrupted_misses..].
  - right. left. split.
    + apply (new_backup t n lss dsize Hg Hds); (constructor; [|constructor]); (eapply misses_prefix; [apply firstn_prefix|]).
      * exact (Forall_inv M3).
      * exact (Forall_inv M4).
    + exists i. rewrite after_app, (span_after_out [_]). 2: { constructor; [|constructor]. cbn [fst snd]. lia. }
      split; [by rewrite span_after_out|]. cbn [after foldl fst snd]. rewrite span_torn by lia. f_equal. f_equal. by rewrite span_after_out.
  - destruct j as [|j]; cbn [Nat.mul take].
    + right. left. split.
      * apply (new_backup t n lss dsize Hg Hds c [(arr, 2 * lss); ([], lss)]); (constructor; [|constructor; [|constructor]]); left; cbn [fst snd]; change (len (@nil Z)) with 0;
          fold m; fold arr; rewrite ?Hl; nia.
      * exists (length arr). rewrite after_app. cbn [after foldl fst snd]. split.
        -- rewrite (span_same _ (after (mbr_write t ++ bw) c)); [by rewrite span_after_out|]. intros x Hx. rewrite firstn_O. assert (len (@nil Z) = 0) as En by done. pose proof (len_nonneg arr). rewrite !overwrite_out; [done|lia..].
        -- rewrite firstn_O, (take_ge arr), (drop_ge (array_bytes mo n)), app_nil_r by (unfold len in *; lia).
           rewrite (span_same _ (overwrite (after (mbr_write t ++ bw) c) (2 * lss) arr)).
           ++ replace (128 * n) with (len arr) by lia. apply overwrite_span.
           ++ intros x Hx. apply overwrite_out. assert (len (@nil Z) = 0) by done. lia.
    + right. right. rewrite (take_ge hp); [by rewrite <-Ews|]. unfold len in Hhl. nia.
  - right. right. by rewrite <-Ews.
Qed.

(** C4. A table that is complete and fits the disk is written to its two
    copies, and reading the disk gives its identifier, its partitions in the order of their
    numbers, and the places of the two headers; with sectors of 512 bytes its protective
    MBR is recognised. Nothing else on the disk changes. *)
Theorem gpt_write_then_read t n lss dsize d c fd fresh size pss : geometry t n lss dsize -> repr d dsize c ->
  exists d' c' flag, Write Sync fd fresh t d size = Ret (d', t, None) /\ repr d' dsize c' /\
    Gpt.Read d' lss pss = Ret (mkTable (Some (array_partitions (index_map (partitions t)) n lss pss)) lss pss (shown (default [] (uuid_Parse (DiskGUID t))))
      flag false n 128 2 (ChecksumIEEE (array_bytes (index_map (partitions t)) n)) 1 (secondaryHeader t) (firstDataSector t) (lastDataSector t) true) /\
    (ProtectiveMBR t = true -> lss = 512 -> flag = true) /\ (forall x, ~ table_area t n lss x -> c' x = c x).
Proof.
  intros Hg Hr. pose proof (wd_size _ _ _ Hr) as Hds. pose proof (ge_sector _ _ _ _ Hg).
  destruct (write_all_ok Sync Hsync dsize _ (geo_fits t n lss dsize Hg ltac:(lia)) d c Hr) as (d' & Hw & Hr').
  destruct (geo_header t n lss dsize Hg ltac:(lia) true) as (_ & Emy & Earr & Ecnt & Ealt & Esum).
  pose proof (read_primary_ok d' dsize _ _ _ lss pss Hr' (new_primary t n lss dsize Hg ltac:(lia) c) ltac:(lia) Emy) as Hread.
  unfold copy_table in Hread. rewrite Emy, Earr, Ecnt, Ealt, Esum in Hread.
  eexists d', _, _. split; [|split; [exact Hr'|split; [exact Hread|split]]].
  - rewrite (write_is t n lss dsize) by (done || lia). rewrite Hw. reflexivity.
  - intros Hp ->. apply (protective_read t n dsize); [done|lia|done].
  - intros x Hx. apply (outside_area t n lss dsize); [done|lia|done].
Qed.

(** C1. The order of the writes of [Write] keeps a table readable at every moment.
    Whatever complete table of the standard layout was on the disk - its header in sector 1,
    its array in sector 2, and as many entries as the new table has - however many writes and
    further whole sectors reach the disk before an interruption, reading gives the old table
    or the new one: if the primary copy is half updated its checksum fails, and the backup is
    already new. It is assumed that no mixture of the two arrays collides with the checksum
    of the old. *)
Theorem gpt_write_crash_safe t n lss dsize d c fd fresh size pss ho mo k j : geometry t n lss dsize -> repr d dsize c ->
  intact c dsize lss ho mo -> h_my ho = 1 -> h_array ho = 2 -> h_count ho = n ->
  (forall i, let A := take i (array_bytes (index_map (partitions t)) n) ++ drop i (array_bytes mo n) in ChecksumIEEE A = h_checksum ho -> A = array_bytes mo n) ->
  exists ws, Write Sync fd fresh t d size = ('(f, err) ← write_all Sync ws d; mret (f, t, err)) /\
    exists d' flag, write_all Sync (interrupted lss ws k j) d = Ret (d', None) /\
      (Gpt.Read d' lss pss = Ret (copy_table ho mo true flag false lss pss) \/
       Gpt.Read d' lss pss = Ret (copy_table (header_of t true n lss) (index_map (partitions t)) true flag false lss pss) \/
       Gpt.Read d' lss pss = Ret (copy_table (header_of t false n lss) (index_map (partitions t)) false flag true lss pss)).
Proof.
  intros Hg Hr Hold E1 E2 E3 Hcoll. pose proof (wd_size _ _ _ Hr) as Hds. pose proof (ge_sector _ _ _ _ Hg). assert (dsize < 2 ^ 63) as Hd by lia.
  destruct (write_all_ok Sync Hsync dsize _ (interrupted_fits lss _ k j dsize (geo_fits t n lss dsize Hg Hd)) d c Hr) as (d' & Hw & Hr').
  eexists. split; [by apply (write_is t n lss dsize)|]. exists d'. rewrite Hw.
  destruct (crash_states t n lss dsize Hg Hd c ho mo k j Hold E1 E2 E3) as [Hi|[(Hb & i & Hh & HA)|Hi]].
  - eexists. split; [done|]. left. by apply (read_primary_ok d' dsize _ ho mo lss pss Hr' Hi).
  - assert (h_checksum ho = ChecksumIEEE (array_bytes mo n)) as Es by (rewrite <-E3; apply Hold).
    destruct (half_read t n lss dsize Hg Hd d' _ ho mo _ pss Hr' Hb (in_ok _ _ _ _ _ Hold) (in_map _ _ _ _ _ Hold) E1 E2 E3 Es Hh HA (Hcoll i)) as [flag [H2|H2]];
      exists flag; (split; [done|auto]).
  - eexists. split; [done|]. right. left. destruct (geo_header t n lss dsize Hg Hd true) as (_ & Emy & _). by apply (read_primary_ok d' dsize _ _ _ lss pss Hr' Hi).
Qed.
End theorems.
