(* ===== verification/GptTable.v ===== *)
(** * GptTable: laying out, repairing, verifying and filling GPT partitions
    The layout that [initTable] chooses, reading a disk whose primary header is gone,
    [Verify] and [Repair], and the contents of a partition. *)
From S2P Require Import Prelude Bytes ReaderAt Text Storage PartIO Crc32 Utf16 Guid Gpt GptFormat GptDisk GptWrite.

#[local] Ltac Zify.zify_post_hook ::= Z.div_mod_to_equations.

Section recovery.
Context {D : Type} `{Hst : Storage D} {repr : D -> Z -> (Z -> Z) -> Prop} {Hdev : WritableDevice D repr} {Hseek : SeekableDevice D repr}.
Context `{UUIDLaws}.

(** A header without the signature is refused, whatever else it holds. *)
Lemma unsigned_refused b : 92 <= len b -> b.[0, 8] <> EfiSignature -> exists e, readGPTHeader b = Err e.
Proof.
  intros Hl Hne. unfold readGPTHeader. rewrite (slice_ok b 0 8), (slice_ok b 8 12), (slice_ok b 12 16), (slice_ok b 20 24), (slice_ok b 56 72) by lia.
  rewrite (get_word_ok LE 4 b 16 20), (get_word_ok LE 8 b 24 32), (get_word_ok LE 8 b 32 40), (get_word_ok LE 8 b 40 48), (get_word_ok LE 8 b 48 56),
    (get_word_ok LE 8 b 72 80), (get_word_ok LE 4 b 80 84), (get_word_ok LE 4 b 84 88), (get_word_ok LE 4 b 88 92) by lia. cbn [mbind go_bind].
  assert (len b.[56, 72] = 16) as Hg by (rewrite len_sub by lia; lia). rewrite swap_ok by done. cbn [mbind go_bind].
  rewrite uuid_from_bytes by (by apply swapped_len). rewrite copy_at_ok by (try done; change (len [0; 0; 0; 0]) with 4; lia). cbn [mbind go_bind].
  rewrite bool_decide_false by done. by eexists.
Qed.

(** C13. A disk whose first sectors were overwritten, so that sector 1 no longer
    starts with the signature of a header, is read from the backup at its end: the table
    has the partitions, the identifier and the two positions that were written, and says
    that it was recovered. *)
Theorem gpt_backup_recovers d dsize c h m lss pss : repr d dsize c -> 512 <= lss <= 2 ^ 16 -> 2 * lss <= dsize ->
  intact c dsize lss h m -> h_my h = dsize / lss - 1 -> span c lss 8 <> EfiSignature ->
  exists t, Read d lss pss = Ret t /\ RecoveredFromBackup t = true /\ Partitions t = Some (array_partitions m (h_count h) lss pss) /\
    DiskGUID t = shown (h_guid h) /\ primaryHeader t = h_alternate h /\ secondaryHeader t = h_my h /\
    firstDataSector t = h_first h /\ lastDataSector t = h_last h.
Proof.
  intros Hr Hlss Hsize Hin Hmy Hsig. pose proof (wd_size _ _ _ Hr).
  assert (exists e, readPrimary d lss pss = Err e /\ is_content e = true) as (e & He & Hc).
  { unfold readPrimary. rewrite (i64_id (lss * 2)) by lia. rewrite (read_full_ok d dsize c) by (done || (unfold maxAlloc; lia) || lia). cbn [mbind go_bind].
    unfold tableFromBytes. rewrite len_span, (i64_id (lss * 2)), (proj2 (Z.ltb_ge _ _)) by lia.
    assert (span c 0 (lss * 2) = span c 0 lss ++ span c lss lss) as E by (replace (lss * 2) with (lss + lss) by lia; rewrite span_app by lia; done).
    rewrite E, (slice_ok _ lss) by (rewrite ?len_app, ?len_span by lia; lia). cbn [mbind go_bind].
    rewrite (sub_suffix (span c 0 lss) (span c lss lss)) by (rewrite ?len_span by lia; lia).
    destruct (unsigned_refused (span c lss lss)) as [e ->]; [rewrite len_span; lia| |by eexists].
    rewrite span_sub by lia. by rewrite Z.add_0_r. }
  eexists. split; [by apply (read_backup_ok d dsize c h m lss pss e)|]. repeat split.
Qed.
End recovery.

Section layout.
Context `{UUIDLaws}.

(** Arrays of whole sectors, and a disk with room for the two copies and some data. *)
Record room (n lss size : Z) : Prop := {
  ro_sector : 512 <= lss <= 2 ^ 16; ro_count : 0 < n < 2 ^ 25; ro_whole : n * 128 = n * 128 / lss * lss;
  ro_size : size < 2 ^ 63; ro_fits : 2 * (n * 128 / lss) + 4 <= size / lss
}.

(** A table of which only the partitions and perhaps sizes and identifier are given. *)
Record blank (t : Table) : Prop := {
  bl_primary : primaryHeader t = 0; bl_secondary : secondaryHeader t = 0; bl_first : firstDataSector t = 0; bl_last : lastDataSector t = 0;
  bl_entry : partitionEntrySize t = 0 \/ partitionEntrySize t = 128;
  bl_guid : DiskGUID t = [] \/ exists g, uuid_Parse (DiskGUID t) = Some g
}.

Lemma shown_lower g : guid_ok g -> uuid_String g <> [].
Proof. apply uuid_string_ascii. Qed.

(** [initTable] lays a new table out on a disk with room for it: the headers
    are in sector 1 and in the last sector, the data lies between the two arrays, and
    includes every sector that neither copy needs; no arithmetic wraps. The result is a
    table that can be written as it is, and writing the table that was given is writing
    that result. *)
Theorem gpt_init_layout fresh t size n lss : lss = or_default (LogicalSectorSize t) 512 -> n = or_default (partitionArraySize t) 128 ->
  room n lss size -> blank t -> guid_ok fresh -> entries_ok lss n (partitions t) ->
  exists t', initTable fresh t size = Ret t' /\ geometry t' n lss size /\ Partitions t' = Partitions t /\
    primaryHeader t' = 1 /\ secondaryHeader t' = size / lss - 1 /\
    firstDataSector t' = 2 + n * 128 / lss /\ lastDataSector t' = size / lss - 2 - n * 128 / lss /\ firstDataSector t' <= lastDataSector t' /\
    (forall {D} `{Storage D} Sync fds (d : D), initialized t = false -> Write Sync fresh fds t d size = Write Sync fresh fds t' d size).
Proof.
  intros El En [Hl Hn Hw Hs Hf] [B1 B2 B3 B4 B5 B6] Hfr He. set (ps := n * 128 / lss) in *.
  assert (0 <= ps) by (apply Z.div_pos; lia). assert (size / lss < 2 ^ 63) by (apply Z.div_lt_upper_bound; nia).
  assert (or_default (partitionEntrySize t) 128 = 128) as Ee by (by destruct B5 as [-> | ->]).
  assert (exists t', initTable fresh t size = Ret t' /\ t' = mkTable (Partitions t) lss (or_default (PhysicalSectorSize t) 512) (if bool_decide (DiskGUID t = []) then uuid_String fresh else DiskGUID t)
    (ProtectiveMBR t) (RecoveredFromBackup t) n 128 (partitionFirstLBA t) (partitionEntryChecksum t) 1 (size / lss - 1) (2 + ps) (size / lss - 2 - ps) true) as (t' & Hi & ->).
  { eexists. split; [|reflexivity]. assert (0 <= size) by (apply Z.lt_le_incl, (Z.lt_le_trans _ (4 * 512)); [lia|]; nia).
    unfold initTable. rewrite <-El, <-En, Ee, B1, B2, B3, B4. unfold divu.
    rewrite (wrap_u_id 64 size), (wrap_u_id 64 lss), (wrap_u_id 64 n), (wrap_u_id 64 (n * 128)) by lia.
    rewrite (proj2 (Z.eqb_neq lss 0)) by lia. cbn [mbind go_bind mret go_ret]. fold ps. unfold or_default. cbn [Z.eqb].
    rewrite (wrap_u_id 64 (size / lss - 1)), (wrap_u_id 64 (2 + ps)), (wrap_u_id 64 (size / lss - 1 - ps)) by lia.
    rewrite (wrap_u_id 64 (size / lss - 1 - ps - 1)) by lia. by replace (size / lss - 1 - ps - 1) with (size / lss - 2 - ps) by lia. }
  eexists. split; [exact Hi|]. split; [|split_and!; cbn; try done; try lia].
  - split; cbn [partitions Partitions initialized primaryHeader secondaryHeader firstDataSector lastDataSector DiskGUID]; try done; try lia.
    + unfold array_table. cbn. lia.
    + case_bool_decide as Hg; [exists fresh; by apply uuid_parse_lower|by destruct B6].
    + case_bool_decide; [by apply shown_lower|done].
  - intros D HD Sync fds d Hini. unfold Write. rewrite Hini. cbn [initialized]. rewrite Hi. reflexivity.
Qed.
End layout.

Section verify.
Context {D : Type} `{Hst : Storage D} {repr : D -> Z -> (Z -> Z) -> Prop} {Hdev : WritableDevice D repr} {Hseek : SeekableDevice D repr}.
Context `{UUIDLaws}.
Context (Sync : D -> D * option error).
Context (Hsync : forall d size c, repr d size c -> exists d', Sync d = (d', None) /\ repr d' size c).

(** What [Verify] accepts, when there is a sound header at the end of the disk. *)
Lemma verify_ok t n lss d dsize c h diskSize : array_table t n lss -> 512 <= lss <= 2 ^ 16 -> repr d dsize c ->
  0 <= secondaryHeader t -> (secondaryHeader t + 1) * lss <= dsize -> n * 128 / lss + 1 <= secondaryHeader t ->
  span c (secondaryHeader t * lss) lss = header_bytes h lss -> header_ok h ->
  diskSize = (secondaryHeader t + 1) * lss -> firstDataSector t = h_first h -> lastDataSector t = secondaryHeader t - n * 128 / lss - 1 ->
  Verify t d diskSize = Ret None.
Proof.
  intros Ha Hlss Hr Hs0 Hs Hps Hh Ho -> Hfirst Hlast. pose proof (wd_size _ _ _ Hr). destruct Ha as (En & Ee & El & Hn & _).
  assert (0 <= n * 128 / lss) by (apply Z.div_pos; lia).
  unfold Verify. rewrite El. rewrite (proj2 (Z.eqb_neq lss 0)) by lia. assert (secondaryHeader t + 1 < 2 ^ 63) by nia.
  rewrite (wrap_u_id 64 lss), (wrap_u_id 64 (secondaryHeader t + 1)), (wrap_u_id 64 (_ * lss)) by lia. rewrite Z.eqb_refl. cbn [negb].
  rewrite make_ok by (unfold maxAlloc; lia). cbn [mbind go_bind]. rewrite (i64_id (secondaryHeader t)), (i64_id (_ * lss)) by nia.
  rewrite (wd_read _ _ _ _ _ Hr) by (rewrite ?len_replicate; nia). cbn [mbind go_bind r_err r_buf]. rewrite len_replicate, Z2Nat.id, Hh by lia.
  pose proof (header_len h lss Ho ltac:(lia)) as Hhl. unfold tableHeaderFromBytes. rewrite Hhl, Z.ltb_irrefl. cbn [mbind go_bind mret go_ret].
  rewrite header_sector_read by done. cbn [mbind go_bind]. rewrite copy_at_ok by (try done; change (len [0; 0; 0; 0]) with 4; lia). cbn [mbind go_bind].
  assert (len (patch (header_bytes h lss) 16 [0; 0; 0; 0]) = lss) as Hpl by (rewrite patch_len; change (len [0; 0; 0; 0]) with 4; lia).
  rewrite slice_ok by (rewrite ?Hpl; lia). cbn [mbind go_bind]. rewrite mbr_flag_ok. cbn [mbind go_bind mret go_ret catch].
  rewrite Hfirst. change (firstDataSector (with_sizes (header_table h) _ lss _)) with (h_first h). rewrite Z.eqb_refl. cbn [negb].
  unfold partSectors, divu. rewrite En, Ee, El, (wrap_u_id 64 n), (wrap_u_id 64 (n * 128)), (wrap_u_id 64 lss), (proj2 (Z.eqb_neq lss 0)) by lia. cbn [mbind go_bind mret go_ret].
  rewrite (wrap_u_id 64 (_ - n * 128 / lss)), (wrap_u_id 64 (_ - 1)), Hlast, Z.eqb_refl by lia. done.
Qed.

Lemma repair_is t n lss size : array_table t n lss -> room n lss size -> 0 <= size ->
  Repair t size = Ret (with_end t (size / lss - 1) (size / lss - 2 - n * 128 / lss), None) /\
  Resize t size = Ret (with_end t (size / lss - 1) (size / lss - 2 - n * 128 / lss)).
Proof.
  intros (En & Ee & El & Hn & _) [Hl _ Hw Hs Hf] H0'. assert (0 <= n * 128 / lss) by (apply Z.div_pos; lia). assert (size / lss < 2 ^ 63) by (apply Z.div_lt_upper_bound; nia).
  unfold Repair, Resize, partSectors, divu. rewrite En, Ee, El, (proj2 (Z.eqb_neq lss 0)) by lia.
  rewrite (wrap_u_id 64 n), (wrap_u_id 64 (n * 128)), (wrap_u_id 64 lss), (proj2 (Z.eqb_neq lss 0)) by lia. cbn [mbind go_bind mret go_ret].
  rewrite (wrap_u_id 64 (size / lss - 1)), (wrap_u_id 64 (size / lss - 1 - n * 128 / lss)), (wrap_u_id 64 (size / lss - 1 - 1)) by lia.
  rewrite (wrap_u_id 64 (size / lss - 1 - 1 - _)), (wrap_u_id 64 (size / lss - 1 - n * 128 / lss - 1)) by lia.
  by replace (size / lss - 1 - n * 128 / lss - 1) with (size / lss - 2 - n * 128 / lss) by lia; replace (size / lss - 1 - 1 - n * 128 / lss) with (size / lss - 2 - n * 128 / lss) by lia.
Qed.

(** C15. After the disk has grown or shrunk to [dsize] bytes, [Repair] and
    [Resize] give the same table, whose backup is at the new end and whose data ends before
    it; writing that table succeeds, and [Verify] then accepts it on a disk of whole
    sectors. *)
Theorem gpt_repair_then_verify t n lss old dsize d c fd fresh size : geometry t n lss old -> room n lss dsize -> repr d dsize c -> dsize = dsize / lss * lss ->
  exists t' d' c', Repair t dsize = Ret (t', None) /\ Resize t dsize = Ret t' /\ Write Sync fd fresh t' d size = Ret (d', t', None) /\ repr d' dsize c' /\
    Verify t' d' dsize = Ret None /\ secondaryHeader t' = dsize / lss - 1 /\ partitions t' = partitions t.
Proof.
  intros Hg Hro Hr Hw. pose proof (wd_size _ _ _ Hr). pose proof (ge_array _ _ _ _ Hg) as Ha. destruct (repair_is t n lss dsize Ha Hro ltac:(lia)) as [E1 E2].
  set (t' := with_end t _ _) in *. assert (geometry t' n lss dsize) as Hg'.
  { destruct Hg as [G1 G2 G3 G4 G5 G6 _ _ [G9 _] G11 G12]. destruct Hro as [Hl Hn _ Hs Hf]. assert (dsize / lss < 2 ^ 63) by (apply Z.div_lt_upper_bound; nia).
    assert (0 <= n * 128 / lss) by (apply Z.div_pos; lia).
    split; cbn [secondaryHeader firstDataSector lastDataSector with_end t']; try done; lia. }
  destruct (write_all_ok Sync Hsync dsize _ (geo_fits t' n lss dsize Hg' ltac:(lia)) d c Hr) as (d' & Hws & Hr').
  exists t', d', (after (mbr_write t' ++ copies t' n lss) c). split; [done|]. split; [done|].
  split; [rewrite (write_is Sync t' n lss dsize) by (done || lia); by rewrite Hws|]. split; [done|]. split; [|done].
  destruct (geo_header t' n lss dsize Hg' ltac:(lia) false) as (Ho & Emy & _). destruct Hro as [Hl Hn _ Hs Hf].
  assert (intact (after (mbr_write t' ++ copies t' n lss) c) dsize lss (header_of t' false n lss) (index_map (partitions t'))) as [Hin _ _ _ _ _ [Hfit _]].
  { change (copies t' n lss) with ([(array_bytes (index_map (partitions t')) n, (secondaryHeader t' - n * 128 / lss) * lss); (header_bytes (header_of t' false n lss) lss, secondaryHeader t' * lss)] ++
      [(array_bytes (index_map (partitions t')) n, 2 * lss); (header_bytes (header_of t' true n lss) lss, lss)]).
    rewrite (assoc_L app). destruct (writes_apart t' n lss dsize Hg' ltac:(lia)) as (_ & _ & M3 & M4). by apply (new_backup t' n lss dsize Hg' ltac:(lia)). }
  rewrite Emy in *. assert (0 <= n * 128 / lss) by (apply Z.div_pos; lia).
  apply (verify_ok t' n lss d' dsize _ (header_of t' false n lss) dsize (ge_array _ _ _ _ Hg') Hl Hr'); [..|exact Hin|exact Ho| | |]; cbn [t' with_end secondaryHeader lastDataSector firstDataSector header_of h_first]; lia.
Qed.
End verify.

(** ** The contents of a partition *)

Section contents.
Context {D : Type} `{Hst : Storage D} {repr : D -> Z -> (Z -> Z) -> Prop} {Hdev : WritableDevice D repr}.

(** Where a complete partition lies on a disk. *)
Record lies_in (p : Partition) (dsize : Z) : Prop := {
  li_sizes : 0 < fst (sectorSizes p) <= 2 ^ 16 /\ 0 < snd (sectorSizes p) < 2 ^ 32;
  li_start : 0 <= Start p <= End_ p;
  li_size : Size p = (End_ p - Start p + 1) * snd (sectorSizes p);
  li_fit : (End_ p + 1) * snd (sectorSizes p) <= dsize
}.

Lemma extent_area p dsize : lies_in p dsize -> dsize < 2 ^ 63 ->
  GetStart p = Start p * snd (sectorSizes p) /\ GetSize p = Size p /\ u64 (Start p * u64 (snd (sectorSizes p))) = GetStart p /\
  0 <= GetStart p /\ 0 < Size p /\ GetStart p + Size p <= dsize.
Proof.
  intros [[_ Hl] Hs Hz Hf] Hd. assert (End_ p < 2 ^ 63) by nia. assert (0 < Size p <= dsize) by nia. unfold GetStart, GetSize.
  rewrite (i64_id (Start p)), (i64_id (Start p * _)), (i64_id (Size p)), (wrap_u_id 64 (snd _)), (wrap_u_id 64 (Start p * _)) by nia. nia.
Qed.

Lemma reconcile_complete p dsize : lies_in p dsize -> dsize < 2 ^ 63 -> reconcile p = Ret (Some p).
Proof.
  intros Hp Hd. destruct (extent_area p dsize Hp Hd) as (_ & _ & _ & _ & Hpos & Hle). destruct Hp as [[_ Hl] Hs Hz Hf]. assert (End_ p < 2 ^ 63) by nia.
  unfold reconcile. rewrite (wrap_u_id 64 (snd _)), (wrap_u_id 64 (_ - _)), (wrap_u_id 64 (_ + 1)), <-Hz, (wrap_u_id 64 (Size p)) by lia.
  by rewrite (proj2 (Z.ltb_lt _ _)), Z.eqb_refl by lia.
Qed.

(** A partition of which the end is not set; the size it would have does not wrap to the
    size it has. *)
Lemma reconcile_end p dsize : lies_in p dsize -> dsize < 2 ^ 63 -> 1 <= Start p -> reconcile (with_extent p 0 (Size p)) = Ret (Some p).
Proof.
  intros Hp Hd H1. destruct (extent_area p dsize Hp Hd) as (_ & _ & _ & _ & Hpos & Hle). destruct Hp as [[_ Hl] Hs Hz Hf]. assert (End_ p < 2 ^ 63) by nia.
  unfold reconcile. change (sectorSizes (with_extent p 0 (Size p))) with (sectorSizes p). cbn [with_extent Size Start End_]. rewrite (wrap_u_id 64 (snd _)) by lia.
  set (lss := snd (sectorSizes p)) in *. rewrite (proj2 (Z.ltb_lt 0 (Size p))) by lia. rewrite (proj2 (Z.eqb_neq (Size p) _)); cycle 1.
  { unfold wrap_u. rewrite Zmult_mod_idemp_l, <-Zmult_mod_idemp_l, Zplus_mod_idemp_l, Zmult_mod_idemp_l. intros E.
    pose proof (Z.div_mod ((0 - Start p + 1) * lss) (2 ^ 64) ltac:(lia)) as Em. rewrite <-E, Hz in Em. assert (0 < End_ p * lss <= dsize) by nia.
    assert (- (End_ p * lss) = 2 ^ 64 * ((0 - Start p + 1) * lss / 2 ^ 64)) by nia. nia. }
  cbn [andb]. rewrite (proj2 (Z.eqb_neq (Size p) 0)) by lia. cbn [andb]. unfold remu, divu. rewrite (proj2 (Z.eqb_neq lss 0)) by lia. cbn [mbind go_bind mret go_ret].
  assert (Size p mod lss = 0) as -> by (rewrite Hz; apply Z_mod_mult). assert (Size p / lss = End_ p - Start p + 1) as -> by (rewrite Hz; apply Z.div_mul; lia).
  cbn [Z.eqb andb mbind go_bind]. rewrite (wrap_u_id 64 (Start p + _)), (wrap_u_id 64 (_ - 1)) by lia. replace (Start p + (End_ p - Start p + 1) - 1) with (End_ p) by lia. by destruct p.
Qed.

(** [WriteContents] completes the extent of a partition of which the size
    or the end is not set; the stream is written from the start of the partition up to its
    end, whatever the sizes of the reads; no byte outside changes; there is no error exactly
    if the stream has the size of the partition. [ReadContents] of a partition of whole
    physical sectors then gives the stream back. *)
Lemma contents_roundtrip {R} `{Stream R} p0 p d dsize c k (r : R) content fuel : lies_in p dsize -> repr d dsize c ->
  p0 = p \/ (End_ p = End_ p0 /\ p0 = with_extent p (End_ p) 0) \/ (1 <= Start p /\ p0 = with_extent p 0 (Size p)) ->
  delivers (fst (sectorSizes p)) k r content -> (k <= fuel)%nat ->
  exists res, WriteContents fuel p0 d r = (x ← res; mret (p, x)) /\
    contents_written dsize c (GetStart p) (GetSize p) content res (repr := repr) /\
    (len content = GetSize p -> forall m, (0 < m <= fuel)%nat -> GetSize p = Z.of_nat m * fst (sectorSizes p) ->
      exists d' r', res = Ret (d', r', (GetSize p, None)) /\ ReadContents fuel p d' = Ret (content, (GetSize p, None))).
Proof.
  intros Hp Hr Hp0 Hdel Hfu. pose proof (wd_size _ _ _ Hr) as Hds. destruct (extent_area p dsize Hp ltac:(lia)) as (Es & Ez & Eu & Hs0 & Hpos & Hfit).
  assert (reconcile p0 = Ret (Some p)) as Erec.
  { destruct Hp0 as [-> | [[_ ->] | [H1 ->]]]; [by apply (reconcile_complete p dsize); [|lia]| |by apply (reconcile_end p dsize); [|lia|]]. destruct Hp as [[_ Hl] Hs Hz Hf]; assert (End_ p < 2 ^ 63) by nia.
    unfold reconcile; cbn [sectorSizes with_extent Size Start End_ logicalSectorSize physicalSectorSize];
      change (sectorSizes (with_extent p ?e ?z)) with (sectorSizes p).
    rewrite (wrap_u_id 64 (snd _)), (wrap_u_id 64 (_ - _)), (wrap_u_id 64 (_ + 1)), <-Hz, (wrap_u_id 64 (Size p)) by lia.
    cbn [Z.ltb Z.compare andb Z.eqb]. rewrite (proj2 (Z.leb_le _ _)) by lia. by destruct p. }
  exists (write_contents fuel (fst (sectorSizes p)) (Size p) (fun total => i64 (u64 (GetStart p + total))) d r).
  split; [unfold WriteContents; rewrite Erec; cbn [mbind go_bind]; by rewrite Eu|].
  destruct Hp as [[Hpss Hlss] _ _ _]. assert (contents_written (repr := repr) dsize c (GetStart p) (GetSize p) content (write_contents fuel (fst (sectorSizes p)) (Size p) (fun total => i64 (u64 (GetStart p + total))) d r)) as Hw.
  { rewrite Ez. apply (write_contents_ok dsize _ _ _ _ c d k); try done; [unfold maxAlloc; lia|lia|].
    intros t Ht. rewrite (wrap_u_id 64), i64_id by lia. done. }
  split; [exact Hw|]. intros Hl m Hm Hsz. destruct Hw as (d' & r' & q & c' & err & Hres & Hr' & Hc' & _ & Hq & Hall & Herr).
  rewrite (Hall ltac:(lia)) in *. rewrite (proj2 Herr Hl), Hl in Hres. exists d', r'. split; [exact Hres|].
  unfold ReadContents. rewrite (read_contents_ok dsize _ (GetStart p) (GetSize p) _ c' d' m fuel); try done; try lia.
  - rewrite <-Hsz. rewrite (span_eq _ _ _ _ Hc'). rewrite <-Hl. by rewrite overwrite_span.
  - unfold maxAlloc. lia.
  - intros t Ht1 Ht2. rewrite i64_id by lia. done.
Qed.
End contents.

(** ** Witnesses *)

#[local] Existing Instance canonical_uuids.

Definition linux_type : gostring := lit "0FC63DAF-8483-4772-8E79-3D69D8477DE4".
Definition sample_partition (i start end_ : Z) (name guid : gostring) : Partition :=
  mkPart i start end_ ((end_ - start + 1) * 512) linux_type name guid 4 512 512.
Definition root_partition : Partition := sample_partition 2 3 8 (lit "root") (lit "01234567-89AB-CDEF-0123-456789ABCDEF").
Definition data_partition : Partition := sample_partition 1 9 13 (lit "data") (lit "01234567-89AB-CDEF-0123-456789ABCDE0").
Definition gpt_sample (ps : list Partition) (secondary : Z) : Table :=
  mkTable (Some ps) 512 512 (lit "89ABCDEF-0123-4567-89AB-CDEF01234567") true false 4 128 0 0 1 secondary 3 (secondary - 2) true.

Definition plain (name : gostring) : bool := forallb (fun c => (1 <=? c) && (c <? 0x80)) name && (len name <=? 36).

Lemma plain_name name : plain name = true -> string_of_runes (runes name) = name /\ Forall scalar (runes name) /\ 0 ∉ runes name /\ len (units name) <= 36.
Proof.
  unfold plain. rewrite andb_true_iff, forallb_forall, Z.leb_le. intros [Hc Hl].
  assert (Forall (fun c => 1 <= c < 0x80) name) as Hp by (apply Forall_forall; intros c Hin%list_elem_of_In%Hc; lia).
  assert (ascii_ok name) as Ha by (eapply Forall_impl; [exact Hp|]; unfold is_ascii; intros; cbn in *; lia).
  rewrite (runes_ascii name Ha). split; [by apply string_of_ascii|]. split; [eapply Forall_impl; [exact Hp|]; unfold scalar; cbn; lia|].
  split; [intros Hin; pose proof (proj1 (Forall_forall _ _) Hp 0 Hin); cbn in *; lia|]. unfold units. rewrite (runes_ascii name Ha).
  assert (Encode name = name) as ->; [|done]. clear Hl Hc Ha. unfold Encode. induction Hp as [|c l Hc Hl IH]; [done|]. cbn [mbind list_bind].
  change (list_bind _ _ encode_utf16 l) with (l ≫= encode_utf16). rewrite IH. unfold encode_utf16. rewrite within_true by lia. done.
Defined.

Lemma sample_settled i start end_ name guid g : 1 <= start <= end_ -> end_ < 2 ^ 32 -> uuid_Parse guid = Some g -> guid = shown g ->
  plain name = true -> settled 512 (sample_partition i start end_ name guid).
Proof.
  intros Hs He Hg Eg (H1 & H2 & H3 & H4)%plain_name.
  assert (exists tg, uuid_Parse linux_type = Some tg /\ tg <> replicate 16 0 /\ linux_type <> Unused) as (tg & Ht & Htz & Htu) by (eexists; split; [vm_compute; reflexivity|split; vm_compute; congruence]).
  split.
  - unfold type_id, part_id. cbn [Type_ GUID sample_partition]. rewrite Ht, Hg. split; cbn [Type_ GUID sample_partition Start End_ Attributes Name]; try done; lia.
  - unfold part_id. cbn [GUID sample_partition]. by rewrite Hg.
  - cbn. lia.
Defined.

Lemma root_settled : settled 512 root_partition.
Proof. eapply sample_settled; [lia|lia|vm_compute; reflexivity..]. Defined.
Lemma data_settled : settled 512 data_partition.
Proof. eapply sample_settled; [lia|lia|vm_compute; reflexivity..]. Defined.

Lemma sample_entries : entries_ok 512 4 [root_partition; data_partition].
Proof.
  split; [constructor; [apply root_settled|constructor; [apply data_settled|constructor]]|repeat (constructor; [cbn; lia|]); constructor|].
  cbn. constructor; [intros [E|E%elem_of_nil]%elem_of_cons; done|]. constructor; [by intros ?%elem_of_nil|constructor].
Defined.

Lemma sample_geometry secondary : 6 <= secondary < 100 -> geometry (gpt_sample [root_partition; data_partition] secondary) 4 512 ((secondary + 1) * 512).
Proof.
  intros Hs. change (4 * 128) with 512. split; change (4 * 128 / 512) with 1; change (secondaryHeader (gpt_sample _ secondary)) with secondary;
    [unfold array_table; cbn; lia|exact sample_entries|done|lia|reflexivity|done| |lia|cbn; lia|eexists; vm_compute; reflexivity|done].
  rewrite Z.div_mul by lia. lia.
Defined.

Definition sync_memory (d : memory) : memory * option error := (d, None).
Lemma sync_memory_ok d size c : memory_is d size c -> exists d', sync_memory d = (d', None) /\ memory_is d' size c.
Proof. intros Hd. by exists d. Defined.

Definition blank_disk (n : Z) : memory := mkMemory (replicate (Z.to_nat n) 0) false 0.
Lemma blank_disk_is n : 0 <= n < 2 ^ 63 -> memory_is (blank_disk n) n (file_content (replicate (Z.to_nat n) 0)).
Proof. intros Hn. unfold memory_is, blank_disk. cbn [readOnly data]. rewrite len_replicate. rewrite Z2Nat.id by lia. split; [done|]. split; [done|]. split; [lia|]. split; [apply bytes_ok_zeros|done]. Defined.

Lemma gpt_write_then_read_witness : exists d' flag, let t := gpt_sample [root_partition; data_partition] 15 in
  Write sync_memory [] (fun _ => []) t (blank_disk 8192) 8192 = Ret (d', t, None) /\
  (exists t', Gpt.Read d' 512 4096 = Ret t' /\ ProtectiveMBR t' = flag /\ map (fun p => (Index p, Start p, End_ p, Size p, Name p)) (partitions t') =
    [(1, 9, 13, 2560, lit "data"); (2, 3, 8, 3072, lit "root")]) /\ flag = true.
Proof.
  destruct (gpt_write_then_read sync_memory sync_memory_ok (gpt_sample [root_partition; data_partition] 15) 4 512 8192 (blank_disk 8192) _ [] (fun _ => []) 8192 4096
    (sample_geometry 15 ltac:(lia)) (blank_disk_is 8192 ltac:(lia))) as (d' & c' & flag & Hw & _ & Hr & Hf & _).
  exists d', flag. cbv zeta. split; [exact Hw|]. split; [|by apply Hf]. eexists. split; [exact Hr|]. split; [reflexivity|]. vm_compute. reflexivity.
Defined.

Lemma gpt_backup_recovers_witness : exists d t', RecoveredFromBackup t' = true /\ Gpt.Read d 512 512 = Ret t' /\ map Name (partitions t') = [lit "data"; lit "root"].
Proof.
  set (t := gpt_sample [root_partition; data_partition] 15). pose proof (sample_geometry 15 ltac:(lia)) as Hg. fold t in Hg.
  set (c := file_content (replicate (Z.to_nat 8192) 0)).
  destruct (write_all_ok sync_memory sync_memory_ok 8192 (take 3 (mbr_write t ++ copies t 4 512)) ltac:(apply Forall_take; exact (geo_fits t 4 512 8192 Hg ltac:(lia)))
    (blank_disk 8192) c (blank_disk_is 8192 ltac:(lia))) as (d & _ & Hr).
  pose proof (new_backup t 4 512 8192 Hg ltac:(lia) c [] ltac:(constructor) ltac:(constructor)) as Hi.
  destruct (gpt_backup_recovers d 8192 _ _ _ 512 512 Hr ltac:(lia) ltac:(lia) Hi) as (t' & Hread & Hrec & Hps & _).
  - vm_compute. reflexivity.
  - vm_compute. discriminate.
  - exists d, t'. split; [exact Hrec|]. split; [exact Hread|]. unfold partitions. rewrite Hps. vm_compute. reflexivity.
Defined.

Lemma gpt_init_layout_witness : exists t', initTable (replicate 16 7) (mkTable (Some [root_partition; data_partition]) 0 0 [] true false 4 0 0 0 0 0 0 0 false) 8192 = Ret t' /\
  (firstDataSector t', lastDataSector t', secondaryHeader t') = (3, 13, 15).
Proof.
  destruct (gpt_init_layout (replicate 16 7) (mkTable (Some [root_partition; data_partition]) 0 0 [] true false 4 0 0 0 0 0 0 0 false) 8192 4 512 eq_refl eq_refl) as (t' & Hi & _ & _ & _ & H2 & H3 & H4 & _).
  - split; try lia; reflexivity.
  - split; try reflexivity; by left.
  - split; [reflexivity|]. apply Forall_replicate. unfold is_byte. lia.
  - exact sample_entries.
  - exists t'. split; [exact Hi|]. rewrite H2, H3, H4. reflexivity.
Defined.

Lemma gpt_repair_then_verify_witness : exists t' d', Repair (gpt_sample [root_partition; data_partition] 15) 16384 = Ret (t', None) /\
  Write sync_memory [] (fun _ => []) t' (blank_disk 16384) 16384 = Ret (d', t', None) /\ Verify t' d' 16384 = Ret None /\ secondaryHeader t' = 31.
Proof.
  destruct (gpt_repair_then_verify sync_memory sync_memory_ok (gpt_sample [root_partition; data_partition] 15) 4 512 8192 16384 (blank_disk 16384) (file_content (replicate (Z.to_nat 16384) 0)) [] (fun _ => []) 16384
    (sample_geometry 15 ltac:(lia))) as (t' & d' & c' & Hrep & _ & Hw & _ & Hv & Hs & _).
  - split; try lia; reflexivity.
  - exact (blank_disk_is 16384 ltac:(lia)).
  - reflexivity.
  - exists t', d'. split; [exact Hrep|]. split; [exact Hw|]. split; [exact Hv|exact Hs].
Defined.

(** A mixture of two arrays that differ in one place is one of them. *)
Lemma mix_one {A} (a b : list A) x y i : let l := take i (a ++ x :: b) ++ drop i (a ++ y :: b) in l = a ++ y :: b \/ l = a ++ x :: b.
Proof.
  cbv zeta. destruct (Nat.le_gt_cases i (length a)).
  - left. rewrite take_app_le, drop_app_le, (assoc_L app), take_drop by lia. done.
  - right. rewrite take_app_ge, drop_app_ge by lia. destruct (i - length a)%nat as [|j] eqn:E; [lia|]. cbn [take drop].
    rewrite <-(assoc_L app). cbn [app]. by rewrite take_drop.
Defined.

Definition renamed_partition : Partition := sample_partition 1 9 13 (lit "date") (lit "01234567-89AB-CDEF-0123-456789ABCDE0").

Lemma renamed_geometry : geometry (gpt_sample [root_partition; renamed_partition] 15) 4 512 8192.
Proof.
  destruct (sample_geometry 15 ltac:(lia)) as [G1 G2 G3 G4 G5 G6 G7 G8 G9 G10 G11]. split; try exact G1; try done. destruct G2 as [[]%Forall_cons Hi Hd].
  split; [|repeat (constructor; [cbn; lia|]); constructor|exact Hd].
  constructor; [apply root_settled|constructor; [|constructor]]. eapply sample_settled; [lia|lia|vm_compute; reflexivity..].
Defined.

Lemma gpt_write_crash_safe_witness : let told := gpt_sample [root_partition; data_partition] 15 in let t := gpt_sample [root_partition; renamed_partition] 15 in
  exists d0 d ws flag, Write sync_memory [] (fun _ => []) told (blank_disk 8192) 8192 = Ret (d0, told, None) /\ write_all sync_memory (interrupted 512 ws 4 0) d0 = Ret (d, None) /\
    exists t', Gpt.Read d 512 512 = Ret t' /\ ProtectiveMBR t' = flag.
Proof.
  cbv zeta. set (told := gpt_sample [root_partition; data_partition] 15). set (t := gpt_sample [root_partition; renamed_partition] 15).
  pose proof (sample_geometry 15 ltac:(lia)) as Hgo. fold told in Hgo. pose proof renamed_geometry as Hg. fold t in Hg. set (c := file_content (replicate (Z.to_nat 8192) 0)).
  destruct (write_all_ok sync_memory sync_memory_ok 8192 _ (geo_fits told 4 512 8192 Hgo ltac:(lia)) (blank_disk 8192) c (blank_disk_is 8192 ltac:(lia))) as (d0 & Hw0 & Hr0).
  set (aold := array_bytes (index_map (partitions told)) 4). set (anew := array_bytes (index_map (partitions t)) 4).
  assert (aold = aold.[0, 62] ++ 97 :: from aold 63) as Eo by (vm_compute; reflexivity).
  assert (anew = aold.[0, 62] ++ 101 :: from aold 63) as En by (vm_compute; reflexivity).
  destruct (gpt_write_crash_safe sync_memory sync_memory_ok t 4 512 8192 d0 _ [] (fun _ => []) 8192 512 (header_of told true 4 512) (index_map (partitions told)) 4 0 Hg Hr0) as (ws & _ & d & flag & Hw & Hread).
  - exact (new_primary told 4 512 8192 Hgo ltac:(lia) c).
  - reflexivity.
  - reflexivity.
  - reflexivity.
  - intros i. cbv zeta. fold anew. fold aold. destruct (mix_one aold.[0, 62] (from aold 63) 101 97 i) as [E|E]; rewrite <-Eo, <-En in E; rewrite E; [done|].
    intros Hc. exfalso. vm_compute in Hc. discriminate.
  - exists d0, d, ws, flag. split; [rewrite (write_is sync_memory told 4 512 8192) by (exact Hgo || lia); rewrite Hw0; reflexivity|]. split; [exact Hw|].
    destruct Hread as [Hread|[Hread|Hread]]; eexists; (split; [exact Hread|reflexivity]).
Defined.

(** ** Observations *)

(** With sectors of 4096 bytes the signature of the protective MBR is looked for at the end
    of the sector, and the MBR that was written is not recognised. *)
Example protective_mbr_4096 : let b := generateProtectiveMBR (gpt_sample [] 15) in
  readProtectiveMBR b 15 = Ret true /\ readProtectiveMBR (b ++ replicate (Z.to_nat 3584) 0) 15 = Ret false.
Proof. vm_compute. split; reflexivity. Qed.

(** A name of 36 characters outside the basic plane passes the check of its length, and
    writing its 72 units panics. *)
Definition long_name : gostring := mjoin (replicate 36 [0xF0; 0x9F; 0x98; 0x80]).
Example long_name_panics : toBytes (sample_partition 1 9 13 long_name (lit "01234567-89AB-CDEF-0123-456789ABCDE0")) = Panic SliceOutOfRange.
Proof. vm_compute. reflexivity. Qed.

(** The size of the array is the product of two fields of the header, which are not checked. *)
Example array_size_unchecked : loadEntries (blank_disk 1024) (mkTable None 512 512 [] true false (2 ^ 32 - 1) (2 ^ 32 - 1) 2 0 1 1 0 0 true) 512 512 = Panic MakeLenOutOfRange.
Proof. vm_compute. reflexivity. Qed.

(** An array of less than a sector has no sector of its own before the backup header. *)
Example small_array_overlaps :
  match initTable [] (mkTable None 512 512 (lit "x") true false 1 128 0 0 0 0 0 0 false) 8192 with
  | Ret t => partitionArraySector t false = Ret (secondaryHeader t)
  | _ => False
  end.
Proof. vm_compute. reflexivity. Qed.

(** On a disk without a sector the last sectors wrap around. *)
Example empty_disk_wraps :
  match initTable [] (mkTable None 512 512 (lit "x") true false 0 0 0 0 0 0 0 0 false) 0 with
  | Ret t => secondaryHeader t = 2 ^ 64 - 1
  | _ => False
  end.
Proof. vm_compute. reflexivity. Qed.
