(* ===== verification/Disk.v ===== *)
(** * Disk: diskkit/disk/disk.go and partition/partition.go
    A disk with its partition table of either kind: reading the table, applying one, and
    the contents of a partition found by its number. The interfaces [partition.Table] and
    [part.Partition] are the sums of their two implementations. *)
From S2P Require Import Prelude Bytes ReaderAt Text Storage PartIO Crc32 Utf16 Guid Mbr Gpt GptFormat GptDisk GptWrite GptTable.

(** [part.Partition]; a pointer in a table of the MBR can be nil. *)
Inductive any_partition := GptPartition (p : Gpt.Partition) | MbrPartition (p : option Mbr.Partition).
(** [partition.Table]. *)
Inductive any_table := GptTable (t : Gpt.Table) | MbrTable (t : Mbr.Table).

Definition GetPartitions (t : any_table) : list any_partition :=
  match t with GptTable t => GptPartition <$> Gpt.GetPartitions t | MbrTable t => MbrPartition <$> Mbr.GetPartitions t end.

Definition GetIndex (p : any_partition) : go Z :=
  match p with GptPartition p => mret (Gpt.Index p) | MbrPartition (Some p) => mret (Mbr.Index p) | MbrPartition None => Panic NilDereference end.

(** The table with its [k]-th partition changed through its pointer. *)
Definition set_partition (t : any_table) (k : nat) (p : any_partition) : any_table :=
  match t, p with
  | GptTable t, GptPartition p => GptTable (Gpt.with_partitions t (<[k := p]> <$> Gpt.Partitions t))
  | _, _ => t
  end.

Record Disk (D : Type) := mkDisk {
  Backend : D; disk_size : Z; LogicalBlocksize : Z; PhysicalBlocksize : Z; table : option any_table; DefaultBlocks : bool
}.
Arguments mkDisk {D}.
Arguments Backend {D}.
Arguments disk_size {D}.
Arguments LogicalBlocksize {D}.
Arguments PhysicalBlocksize {D}.
Arguments table {D}.
Arguments DefaultBlocks {D}.

Definition NoPartitionTableError : error := Errorf "no partition table found on disk".
Definition InvalidPartitionError : error := Errorf "requested partition %d not found".

Section disk.
Context {D : Type} `{Storage D} `{UUIDs} (Sync : D -> D * option error).

Definition with_table (d : Disk D) (t : option any_table) : Disk D :=
  mkDisk (Backend d) (disk_size d) (LogicalBlocksize d) (PhysicalBlocksize d) t (DefaultBlocks d).
Definition with_backend (d : Disk D) (b : D) : Disk D :=
  mkDisk b (disk_size d) (LogicalBlocksize d) (PhysicalBlocksize d) (table d) (DefaultBlocks d).

(** Each kind of table in turn. *)
Definition Read (f : D) (logicalBlocksize physicalBlocksize : Z) : go any_table :=
  r ← catch (Gpt.Read f logicalBlocksize physicalBlocksize);
  match r with
  | inl t => mret (GptTable t)
  | inr _ =>
      r ← catch (Mbr.Read f);
      match r with
      | inl t => mret (MbrTable t)
      | inr _ => Err (Errorf "unknown disk partition type")
      end
  end.

Definition GetPartitionTable (d : Disk D) : go (Disk D * any_table) :=
  t ← Read (Backend d) (LogicalBlocksize d) (PhysicalBlocksize d);
  mret (with_table d (Some t), t).

Definition table_Write (freshDisk : list Z) (fresh : Z -> list Z) (t : any_table) (f : D) (size : Z) : go (D * any_table * option error) :=
  match t with
  | GptTable t => '(f, t, err) ← Gpt.Write Sync freshDisk fresh t f size; mret (f, GptTable t, err)
  | MbrTable t => '(f, err) ← Mbr.Write t f size; mret (f, MbrTable t, err)
  end.

(** As built for Windows, and for a file elsewhere: the kernel has nothing to read again. *)
Definition ReReadPartitionTable (d : Disk D) : option error := None.

Definition Partition (freshDisk : list Z) (fresh : Z -> list Z) (d : Disk D) (t : any_table) : go (Disk D * option error) :=
  match Writable (Backend d) with
  | Some e => mret (d, Some e)
  | None =>
      '(f, t, err) ← table_Write freshDisk fresh t (Backend d) (disk_size d);
      let d := with_backend d f in
      match err with
      | Some _ => mret (d, Some (Errorf "failed to write partition table: %v"))
      | None => let d := with_table d (Some t) in mret (d, ReReadPartitionTable d)
      end
  end.

(** The first partition with the number, and its place. *)
Fixpoint find_partition (ps : list any_partition) (partIndex : Z) (k : nat) : go (nat * any_partition) :=
  match ps with
  | [] => Err InvalidPartitionError
  | p :: ps' => i ← GetIndex p; if i =? partIndex then mret (k, p) else find_partition ps' partIndex (S k)
  end.

Definition GetPartition (d : Disk D) (partIndex : Z) : go (nat * any_partition) :=
  match table d with
  | None => Err NoPartitionTableError
  | Some t => find_partition (GetPartitions t) partIndex 0
  end.

Definition WritePartitionContents {R} `{Stream R} (fuel : nat) (d : Disk D) (partIndex : Z) (reader : R) : go (Disk D * R * (Z * option error)) :=
  match Writable (Backend d) with
  | Some e => mret (d, reader, (-1, Some e))
  | None =>
      r ← catch (GetPartition d partIndex);
      match r with
      | inr e => mret (d, reader, (-1, Some e))
      | inl (k, p) =>
          match p with
          | GptPartition p =>
              '(p, (f, reader, (written, err))) ← Gpt.WriteContents fuel p (Backend d) reader;
              mret (with_backend (with_table d ((fun t => set_partition t k (GptPartition p)) <$> table d)) f, reader, (i64 written, err))
          | MbrPartition (Some p) =>
              '(f, reader, (written, err)) ← Mbr.WriteContents fuel p (Backend d) reader;
              mret (with_backend d f, reader, (i64 written, err))
          | MbrPartition None => Panic NilDereference
          end
      end
  end.

Definition ReadPartitionContents (fuel : nat) (d : Disk D) (partIndex : Z) : go (list Z * (Z * option error)) :=
  r ← catch (GetPartition d partIndex);
  match r with
  | inr e => mret ([], (-1, Some e))
  | inl (_, GptPartition p) => Gpt.ReadContents fuel p (Backend d)
  | inl (_, MbrPartition (Some p)) => Mbr.ReadContents fuel p (Backend d)
  | inl (_, MbrPartition None) => Panic NilDereference
  end.

End disk.

Section laws.
Context {D : Type} `{Hst : Storage D} {repr : D -> Z -> (Z -> Z) -> Prop} {Hdev : WritableDevice D repr} {Hseek : SeekableDevice D repr}.
Context `{UUIDLaws}.
Context (Sync : D -> D * option error).
Context (Hsync : forall d size c, repr d size c -> exists d', Sync d = (d', None) /\ repr d' size c).

(** The bytes between the two copies of a table. *)
Definition data_area (t : Table) (n lss x : Z) : Prop := (2 + n * 128 / lss) * lss <= x < (secondaryHeader t - n * 128 / lss) * lss.

(** What is done between the copies does not touch the primary one. *)
Lemma table_isolated t n lss dsize c c' pss d : geometry t n lss dsize -> repr d dsize c' ->
  intact c dsize lss (header_of t true n lss) (index_map (partitions t)) -> (forall x, ~ data_area t n lss x -> c' x = c x) ->
  Gpt.Read d lss pss = Ret (copy_table (header_of t true n lss) (index_map (partitions t)) true (mbr_flag (span c 0 lss) (u32 (secondaryHeader t))) false lss pss).
Proof.
  intros Hg Hr [Hh Ha Hs Ho Hm Hc Hf] Hout. pose proof (wd_size _ _ _ Hr) as Hds. pose proof (ge_sector _ _ _ _ Hg). pose proof (ge_whole _ _ _ _ Hg).
  destruct (geo_bounds t n lss dsize Hg ltac:(lia)) as (Hn & Hps & Hd & Hl & Hla). destruct (geo_header t n lss dsize Hg ltac:(lia) true) as (_ & Emy & Earr & Ecnt & Ealt & Esum).
  assert (forall o k, o + k <= (2 + n * 128 / lss) * lss -> span c' o k = span c o k) as Hsame by (intros o k Hok; apply span_same; intros x Hx; apply Hout; unfold data_area; lia).
  assert (intact c' dsize lss (header_of t true n lss) (index_map (partitions t))) as Hi.
  { split; [rewrite Hsame by (rewrite Emy; nia); exact Hh|rewrite Hsame by (rewrite Earr, Ecnt; nia); exact Ha|done..]. }
  rewrite (read_primary_ok d dsize c' _ _ lss pss Hr Hi ltac:(lia) Emy). by rewrite Hsame, Ealt by nia.
Qed.

(** The partition of a number, in the table that is read. *)
Lemma find_in_slots (m : gmap Z Gpt.Partition) lss pss i p : (forall k q, m !! k = Some q -> Gpt.Index q = k) -> m !! i = Some p ->
  forall len_ lo j, lo < i <= lo + Z.of_nat len_ ->
  exists k, find_partition (GptPartition <$> omap (fun x => loaded lss pss <$> m !! (x + 1)) (seqZ lo (Z.of_nat len_))) i j = Ret ((j + k)%nat, GptPartition (loaded lss pss p)) /\
    omap (fun x => loaded lss pss <$> m !! (x + 1)) (seqZ lo (Z.of_nat len_)) !! k = Some (loaded lss pss p).
Proof.
  intros Hm Hp. induction len_ as [|n IH]; intros lo j Hi; [lia|]. rewrite seqZ_cons by lia. replace (Z.succ lo) with (lo + 1) by lia. replace (Z.pred (Z.of_nat (S n))) with (Z.of_nat n) by lia.
  cbn [omap list_omap]. change (list_omap _ _ ?f ?l) with (omap f l).
  destruct (m !! (lo + 1)) as [q|] eqn:Eq; [change (loaded lss pss <$> Some q) with (Some (loaded lss pss q))|change (loaded lss pss <$> None) with (@None Gpt.Partition)]; cbv iota.
  - rewrite fmap_cons. cbn [find_partition GetIndex mbind go_bind mret go_ret].
    change (Gpt.Index (loaded lss pss q)) with (Gpt.Index q). rewrite (Hm _ _ Eq). destruct (Z.eqb_spec (lo + 1) i) as [<-|Hne].
    + exists 0%nat. rewrite Nat.add_0_r. assert (q = p) as -> by congruence. done.
    + destruct (IH (lo + 1) (S j) ltac:(lia)) as (k & Hf & Hk). exists (S k). split; [rewrite Hf; do 2 f_equal; lia|exact Hk].
  - assert (lo + 1 <> i) by congruence. apply IH. lia.
Qed.

Lemma add_all_out ps : forall (m : gmap Z Gpt.Partition) i, i ∉ Gpt.Index <$> ps -> add_all m ps !! i = m !! i.
Proof.
  induction ps as [|p ps IH]; intros m i Hi; [done|]. rewrite fmap_cons in Hi. apply not_elem_of_cons in Hi as [Hne Hi]. cbn [add_all foldl].
  change (foldl _ (<[Gpt.Index p:=p]> m) ps) with (add_all (<[Gpt.Index p:=p]> m) ps). rewrite IH by done. by apply lookup_insert_ne.
Qed.

Lemma add_all_in ps p : p ∈ ps -> NoDup (Gpt.Index <$> ps) -> forall m : gmap Z Gpt.Partition, add_all m ps !! Gpt.Index p = Some p.
Proof.
  induction 1 as [p ps|p q ps Hin IH]; rewrite fmap_cons; intros [Hni Hnd]%NoDup_cons m; cbn [add_all foldl].
  - change (foldl _ (<[Gpt.Index p:=p]> m) ps) with (add_all (<[Gpt.Index p:=p]> m) ps). rewrite add_all_out by done. apply lookup_insert_eq.
  - by apply IH.
Qed.

(** A table that was written and read: any partition is found by its number. *)
Lemma found t n lss pss p : entries_ok lss n (partitions t) -> 0 <= n -> p ∈ partitions t ->
  exists k, find_partition (GptPartition <$> array_partitions (index_map (partitions t)) n lss pss) (Gpt.Index p) 0 = Ret (k, GptPartition (loaded lss pss p)) /\
    array_partitions (index_map (partitions t)) n lss pss !! k = Some (loaded lss pss p).
Proof.
  intros [Hs Hi Hd] Hn Hp. assert (map_ok lss (index_map (partitions t))) as Hm by (apply add_all_ok; [done|by intros ??]).
  pose proof (proj1 (Forall_forall _ _) Hi p Hp) as Hr. cbn beta in Hr.
  destruct (find_in_slots (index_map (partitions t)) lss pss (Gpt.Index p) p) with (len_ := Z.to_nat n) (lo := 0) (j := 0%nat) as (k & Hk); [intros k q Hq; by apply (Hm k)|by apply add_all_in|lia|].
  exists k. unfold array_partitions. by rewrite Z2Nat.id in Hk by done.
Qed.

(** What applying a table to a disk gives: any state of the disk that differs between the
    copies only has the same table, in which every partition is found. *)
Lemma partitioned t n lss dsize (d : Disk D) c fd fresh : geometry t n lss dsize -> repr (Backend d) dsize c -> LogicalBlocksize d = lss ->
  let pss := PhysicalBlocksize d in
  exists b c1 tb, Partition Sync fd fresh d (GptTable t) = Ret (with_table (with_backend d b) (Some (GptTable t)), None) /\ repr b dsize c1 /\
    (forall (e : Disk D) c', LogicalBlocksize e = lss -> PhysicalBlocksize e = pss -> repr (Backend e) dsize c' -> (forall x, ~ data_area t n lss x -> c' x = c1 x) ->
       GetPartitionTable e = Ret (with_table e (Some (GptTable tb)), GptTable tb)) /\
    (forall (e : Disk D) p, table e = Some (GptTable tb) -> p ∈ partitions t ->
       exists i, GetPartition e (Gpt.Index p) = Ret (i, GptPartition (loaded lss pss p)) /\ set_partition (GptTable tb) i (GptPartition (loaded lss pss p)) = GptTable tb).
Proof.
  intros Hg Hr El pss. pose proof (wd_size _ _ _ Hr) as Hds. destruct (geo_bounds t n lss dsize Hg ltac:(lia)) as (Hn & _).
  destruct (write_all_ok Sync Hsync dsize _ (geo_fits t n lss dsize Hg ltac:(lia)) (Backend d) c Hr) as (b1 & Hw & Hr1). set (c1 := after _ c) in *.
  pose proof (new_primary t n lss dsize Hg ltac:(lia) c) as Hi1. fold c1 in Hi1.
  set (tb := copy_table (header_of t true n lss) (index_map (partitions t)) true (mbr_flag (span c1 0 lss) (u32 (secondaryHeader t))) false lss pss).
  exists b1, c1, tb. split; [|split; [exact Hr1|split]].
  - unfold Partition. rewrite (wd_writable _ _ _ Hr). unfold table_Write. rewrite (write_is Sync t n lss dsize) by (done || lia). rewrite Hw. reflexivity.
  - intros e c' E1 E2 Hre Hout. unfold GetPartitionTable, Read. rewrite E1, E2. by rewrite (table_isolated t n lss dsize c1 c').
  - intros e p E Hp. destruct (found t n lss pss p (ge_entries _ _ _ _ Hg) ltac:(lia) Hp) as (i & Hfind & Hlook). exists i. split; [unfold GetPartition; rewrite E; exact Hfind|].
    cbn [set_partition]. f_equal. unfold Gpt.with_partitions, tb, copy_table. cbn [Gpt.Partitions fmap option_fmap option_map]. f_equal. f_equal. by apply list_insert_id.
Qed.

(** Where a partition between the copies lies. *)
Definition between (t : Table) (n lss : Z) (p : Gpt.Partition) : Prop := 2 + n * 128 / lss <= Gpt.Start p /\ Gpt.End_ p < secondaryHeader t - n * 128 / lss.

Lemma between_ok t n lss dsize pss p : geometry t n lss dsize -> dsize < 2 ^ 63 -> p ∈ partitions t -> between t n lss p -> 0 < pss <= 2 ^ 16 ->
  let q := loaded lss pss p in sectorSizes q = (pss, lss) /\ lies_in q dsize /\ Gpt.GetSize q = Gpt.Size p /\ Gpt.GetStart q = Gpt.Start p * lss /\
  0 < Gpt.Size p < 2 ^ 63 /\ Gpt.Start p * lss + Gpt.Size p = (Gpt.End_ p + 1) * lss /\ forall x, Gpt.Start p * lss <= x < (Gpt.End_ p + 1) * lss -> data_area t n lss x.
Proof.
  intros Hg Hds Hp [Hfirst Hend] Hpss q. pose proof (ge_sector _ _ _ _ Hg) as Hlss. destruct (geo_bounds t n lss dsize Hg Hds) as (Hn & Hps & Hd & Hl & Hla).
  pose proof (proj1 (Forall_forall _ _) (es_settled _ _ _ (ge_entries _ _ _ _ Hg)) p Hp) as [_ _ (Hse & Hsz & _)].
  assert ((2 + n * 128 / lss) * lss <= Gpt.Start p * lss) as A1 by (apply Z.mul_le_mono_nonneg_r; lia).
  assert ((Gpt.End_ p + 1) * lss <= (secondaryHeader t - n * 128 / lss) * lss) as A2 by (apply Z.mul_le_mono_nonneg_r; lia).
  assert (Gpt.Start p * lss + Gpt.Size p = (Gpt.End_ p + 1) * lss) as A3 by (rewrite Hsz; ring).
  assert (sectorSizes q = (pss, lss)) as Esz.
  { unfold sectorSizes, q. cbn. by rewrite (proj2 (Z.eqb_neq pss 0)), (proj2 (Z.eqb_neq lss 0)) by lia. }
  assert (lies_in q dsize) as Hlies by (split; rewrite ?Esz; cbn [fst snd]; cbn [q loaded as_read with_extent Gpt.Start Gpt.End_ Gpt.Size]; nia).
  destruct (extent_area q dsize Hlies Hds) as (Ego & Egs & _ & Hs0 & Hpos & Hle). rewrite Esz in Ego. change (Gpt.Size q) with (Gpt.Size p) in *. change (Gpt.Start q) with (Gpt.Start p) in *. cbn [snd] in Ego.
  split; [done|]. split; [done|]. split; [done|]. split; [done|]. split; [lia|]. split; [done|]. unfold data_area. lia.
Qed.

(** C3. A disk is partitioned with a GPT, the table is read back, and the contents of a
    partition that lies between the two copies of the table are written and read by its
    number. For a partition whose size is a whole number of physical sectors (else reading
    returns bytes behind its end) and contents that fill it exactly (else writing returns an
    error), the same contents are read, no byte outside the partition changes, and the disk
    still gives the same table. *)
Theorem disk_partition_contents {R} `{Stream R} t n lss dsize (d : Disk D) c p k (r : R) content (m : nat) fuel fd fresh :
  geometry t n lss dsize -> repr (Backend d) dsize c -> LogicalBlocksize d = lss -> 0 < PhysicalBlocksize d <= 2 ^ 16 ->
  p ∈ partitions t -> between t n lss p ->
  delivers (PhysicalBlocksize d) k r content -> len content = Gpt.Size p -> Gpt.Size p = Z.of_nat m * PhysicalBlocksize d -> (k <= fuel)%nat -> (0 < m <= fuel)%nat ->
  exists d1 d2 tb d3 d4 r' c2 c3,
    Partition Sync fd fresh d (GptTable t) = Ret (d1, None) /\ GetPartitionTable d1 = Ret (d2, tb) /\
    WritePartitionContents fuel d2 (Gpt.Index p) r = Ret (d3, r', (Gpt.Size p, None)) /\
    ReadPartitionContents fuel d3 (Gpt.Index p) = Ret (content, (Gpt.Size p, None)) /\
    GetPartitionTable d3 = Ret (d4, tb) /\
    repr (Backend d2) dsize c2 /\ repr (Backend d3) dsize c3 /\ forall x, ~ (Gpt.Start p * lss <= x < (Gpt.End_ p + 1) * lss) -> c3 x = c2 x.
Proof.
  intros Hg Hr El Hpss Hp Hbt Hdel Hcl Hm Hfu Hmf. pose proof (wd_size _ _ _ Hr) as Hds.
  destruct (partitioned t n lss dsize d c fd fresh Hg Hr El) as (b1 & c1 & tb & Hpart & Hr1 & Hget & Hfind).
  set (pss := PhysicalBlocksize d) in *. destruct (between_ok t n lss dsize pss p Hg ltac:(lia) Hp Hbt Hpss) as (Esz & Hlies & Egs & Ego & Hpos & Hend & Harea).
  set (q := loaded lss pss p) in *.
  destruct (contents_roundtrip (repr := repr) q q b1 dsize c1 k r content fuel Hlies Hr1) as (res & Hwc & (b3 & r' & pre & c3 & err & Hres & Hr3 & Hc3 & _ & Hpl & Hall & Herr) & Hback); [by left|by rewrite Esz|done|].
  rewrite Egs in *. destruct (Hback Hcl m Hmf ltac:(by rewrite Esz)) as (b3' & r'' & Hres' & Hrc). rewrite Hres in Hres'. injection Hres' as <- <- Hlp ->. rewrite Hlp in Hres.
  set (d1 := with_table (with_backend d b1) (Some (GptTable t))) in *. set (d2 := with_table d1 (Some (GptTable tb))).
  destruct (Hfind d2 p eq_refl Hp) as (i & Hgp & Hset).
  change (loaded lss pss p) with q in Hgp, Hset.
  exists d1, d2, (GptTable tb), (with_backend d2 b3), (with_backend d2 b3), r', c1, c3.
  assert (forall x, ~ (Gpt.Start p * lss <= x < (Gpt.End_ p + 1) * lss) -> c3 x = c1 x) as Hout.
  { intros x Hx. rewrite Hc3. apply overwrite_out. rewrite Hlp, Ego. lia. }
  split; [exact Hpart|]. split; [by apply (Hget d1 c1)|]. split; [|split; [|split; [|split; [exact Hr1|split; [exact Hr3|exact Hout]]]]].
  - unfold WritePartitionContents. change (Backend d2) with b1. rewrite (wd_writable _ _ _ Hr1), Hgp. cbn [catch mbind go_bind]. rewrite Hwc, Hres. cbn [mbind go_bind mret go_ret].
    rewrite i64_id by lia. do 3 f_equal. unfold with_table. cbn [table d2 with_table fmap option_fmap option_map]. by rewrite Hset.
  - unfold ReadPartitionContents. change (GetPartition (with_backend d2 b3)) with (GetPartition d2). rewrite Hgp. cbn [catch mbind go_bind]. exact Hrc.
  - apply (Hget (with_backend d2 b3) c3); [exact El|reflexivity|exact Hr3|]. intros x Hx. apply Hout. intros Hin. by apply Hx, Harea.
Qed.

End laws.

(** ** Witnesses *)

#[local] Existing Instance canonical_uuids.

Definition sample_gdisk : Disk memory := mkDisk (blank_disk 8192) 8192 512 512 None false.
Notation sample_table := (gpt_sample [root_partition; data_partition] 15).

Lemma disk_partition_contents_witness : let content := replicate (Z.to_nat 3072) 7 in
  exists d1 d2 tb d3 r', Partition sync_memory [] (fun _ => []) sample_gdisk (GptTable sample_table) = Ret (d1, None) /\ GetPartitionTable d1 = Ret (d2, tb) /\
    WritePartitionContents 4000 d2 2 content = Ret (d3, r', (3072, None)) /\ ReadPartitionContents 4000 d3 2 = Ret (content, (3072, None)).
Proof.
  cbv zeta. set (content := replicate (Z.to_nat 3072) 7).
  assert (bytes_ok content) as Hb by (apply Forall_replicate; unfold is_byte; lia).
  destruct (bytes_stream_delivers 512 content ltac:(lia) Hb) as (k & Hk & Hd).
  assert (k <= 4000)%nat as Hk' by (unfold content in Hk; rewrite length_replicate in Hk; lia).
  destruct (disk_partition_contents (repr := memory_is) sync_memory sync_memory_ok sample_table 4 512 8192 sample_gdisk _ root_partition k content content 6 4000 [] (fun _ => [])
    (sample_geometry 15 ltac:(lia)) (blank_disk_is 8192 ltac:(lia)) eq_refl) as (d1 & d2 & tb & d3 & d4 & r' & c2 & c3 & H1 & H2 & H3 & H4 & _).
  - cbn. lia.
  - by left.
  - split; vm_compute; congruence.
  - exact Hd.
  - unfold content. rewrite len_replicate. reflexivity.
  - reflexivity.
  - exact Hk'.
  - lia.
  - exists d1, d2, tb, d3, r'. split; [exact H1|]. split; [exact H2|]. split; [exact H3|exact H4].
Defined.

