(* ===== verification/NtfsRuns.v ===== *)
(** * NtfsRuns: cluster runs (ntfs/read.go, ntfs/alloc.go)
    The compact encoding of the extents of a non-resident attribute, the clusters a list of
    runs stands for, and what the index code does with such lists. *)
From S2P Require Import Prelude Bytes.

(** [lcn] is -1 for a sparse run. The field [length] of the source is [run_length]. *)
Record run := mkRun { lcn : Z; run_length : Z }.

#[global] Instance run_eq_dec : EqDecision run.
Proof. solve_decision. Defined.

(** [for j := 0; j < n; j++ { x |= int64(data[i+j]) << (8 * uint(j)) }] *)
Definition or_bytes (data : list Z) (i n : Z) : go Z :=
  go_range (fun j x => b ← index data (i + j); mret (Z.lor x (shl64s b (8 * j)))) 0 (Z.to_nat n) 0.

Definition decode_entry (data : list Z) '(i, prevLCN, runs) : go (Z * Z * list run + list run) :=
  if negb (i <? len data) then mret (inr runs) else
  hdr ← index data i;
  let i := i + 1 in
  if hdr =? 0 then mret (inr runs) else
  let lenBytes := Z.land hdr 0x0F in
  let offBytes := Z.shiftr hdr 4 in
  if len data <? i + lenBytes + offBytes then Err (Errorf "runlist: entry at %d overflows buffer") else
  runLen ← or_bytes data i lenBytes;
  let i := i + lenBytes in
  prevLCN ← (if 0 <? offBytes then
               lcnDelta ← or_bytes data i offBytes;
               top ← index data (i + offBytes - 1);
               let lcnDelta := if negb (Z.land top 0x80 =? 0) then Z.lor lcnDelta (shl64s (-1) (8 * offBytes)) else lcnDelta in
               mret (i64 (prevLCN + lcnDelta))
             else mret prevLCN);
  let i := i + offBytes in
  let lcn := if 0 <? offBytes then prevLCN else -1 in
  mret (inl (i, prevLCN, runs ++ [mkRun lcn runLen])).

Definition decodeRunlist (data : list Z) : go (list run) :=
  go_for (S (length data)) (decode_entry data) (0, 0, []).

Definition minBytesUnsigned (v : Z) : go Z :=
  if v =? 0 then mret 1 else
  go_for 9 (fun '(n, v) => if 0 <? v then mret (inl (n + 1, Z.shiftr v 8)) else mret (inr n)) (0, v).

Definition signed_step '(n, tmp) : go (Z * Z + Z) :=
  let tmp := Z.shiftr tmp 8 in
  if (tmp =? 0) || (tmp =? -1) then mret (inr n) else mret (inl (n + 1, tmp)).

Definition minBytesSigned (v : Z) : go Z :=
  if v =? 0 then mret 1 else
  n ← go_for 9 signed_step (1, v);
  let n := if (0 <? v) && negb (Z.shiftr v (8 * n - 1) =? 0) then n + 1 else n in
  mret (if (v <? 0) && negb (Z.shiftr v (8 * n - 1) =? -1) then n + 1 else n).

(** [for j := 0; j < n; j++ { out = append(out, byte(v >> (8 * uint(j)))) }] *)
Definition low_bytes (v n : Z) : list Z := (fun j => u8 (Z.shiftr v (8 * j))) <$> seqZ 0 n.

Definition encode_run '(out, prevLCN) (r : run) : go (list Z * Z) :=
  lenBytes ← minBytesUnsigned (run_length r);
  '(lcnDelta, offBytes, prevLCN) ← (if 0 <=? lcn r then
      let lcnDelta := i64 (lcn r - prevLCN) in
      offBytes ← minBytesSigned lcnDelta;
      mret (lcnDelta, offBytes, lcn r)
    else mret (0, 0, prevLCN));
  let hdr := Z.lor (u8 (Z.shiftl offBytes 4)) (u8 lenBytes) in
  mret (out ++ [hdr] ++ low_bytes (run_length r) lenBytes ++ low_bytes lcnDelta offBytes, prevLCN).

Fixpoint encode_runs (runs : list run) (st : list Z * Z) : go (list Z * Z) :=
  match runs with
  | [] => mret st
  | r :: runs' => st' ← encode_run st r; encode_runs runs' st'
  end.

Definition encodeRunlist (runs : list run) : go (list Z) :=
  '(out, _) ← encode_runs runs ([], 0);
  mret (out ++ [0]).

Example encode_runs_example : encodeRunlist [mkRun 0x1234 0x80; mkRun (-1) 5; mkRun 0x1000 1] =
  Ret [0x21; 0x80; 0x34; 0x12; 0x01; 5; 0x21; 1; 0xcc; 0xfd; 0].
Proof. reflexivity. Qed.
Example decode_runs_example : decodeRunlist [0x21; 0x80; 0x34; 0x12; 0x01; 5; 0x21; 1; 0xcc; 0xfd; 0; 7] =
  Ret [mkRun 0x1234 0x80; mkRun (-1) 5; mkRun 0x1000 1].
Proof. reflexivity. Qed.

(** ** Words of bytes *)

Lemma sub_none {A} (l : list A) i : l.[i, i] = [].
Proof. unfold sub. by rewrite Z.sub_diag. Qed.

Lemma testbit_sign z n : - 2 ^ 63 <= z < 2 ^ 63 -> 63 <= n -> Z.testbit z n = (z <? 0).
Proof.
  intros Hz Hn. destruct (Z.ltb_spec z 0).
  - rewrite <-(Z.lnot_involutive z), Z.lnot_spec, (testbit_high 63) by (unfold Z.lnot; lia). done.
  - by rewrite (testbit_high 63) by lia.
Qed.

Lemma testbit_i64 z n : 0 <= n -> Z.testbit (i64 z) n = Z.testbit z (Z.min n 63).
Proof.
  assert (forall k, 0 <= k < 64 -> Z.testbit (i64 z) k = Z.testbit z k) as Hlow.
  { intros k Hk. transitivity (Z.testbit (i64 z mod 2 ^ 64) k).
    - rewrite Z.testbit_mod_pow2 by lia. by rewrite (proj2 (Z.ltb_lt k 64)) by lia.
    - destruct (i64_eqm z) as [q ->]. rewrite Z_mod_plus_full, Z.testbit_mod_pow2 by lia. by rewrite (proj2 (Z.ltb_lt k 64)) by lia. }
  intros Hn. rewrite <-Hlow by lia. destruct (Z.leb_spec n 63); [f_equal; lia|].
  pose proof (i64_range z). rewrite !testbit_sign by lia. done.
Qed.

Lemma i64_lor a b : i64 (Z.lor a b) = Z.lor (i64 a) (i64 b).
Proof. apply Z.bits_inj'. intros n Hn. by rewrite Z.lor_spec, !testbit_i64, Z.lor_spec by done. Qed.

(** Reading and writing [n] bytes, the lowest first. *)
Lemma or_bytes_ok data i n : bytes_ok data -> 0 <= i -> 0 <= n -> i + n <= len data ->
  or_bytes data i n = Ret (i64 (LE data.[i, i + n])).
Proof.
  intros Hd Hi Hn Hl. unfold or_bytes.
  match goal with |- ?m = _ => enough (wp m (fun x => x = i64 (LE data.[i, i + (0 + Z.of_nat (Z.to_nat n))])) no_err) as H end.
  { rewrite Z2Nat.id in H by done. by destruct (wp_no_err_Ret _ _ H) as (x & -> & ->). }
  apply (wp_go_range (fun j x => x = i64 (LE data.[i, i + j]))); [by rewrite Z.add_0_r, sub_none|].
  intros j x Hj ->. destruct (index_ok data (i + j)) as (b & Hb & ->); [lia|]. cbn.
  rewrite <-(sub_cat data i (i + j) (i + (j + 1))) by lia. rewrite LE_app, len_sub by lia.
  replace (i + (j + 1)) with (i + j + 1) by lia.
  assert (data.[i + j, i + j + 1] = [b]) as ->.
  { rewrite <-byte_at_sub by lia. unfold byte_at. by rewrite Hb. }
  unfold shl64s. rewrite <-i64_lor. f_equal. cbn [LE].
  pose proof (LE_sub_range data i j Hd ltac:(lia)) as Hr. replace (i + j - i) with j by lia.
  change 256 with (2 ^ 8) in *. rewrite <-Z.pow_mul_r in * by lia. rewrite lor_shiftl_add by lia. lia.
Qed.

Lemma low_bytes_ok v n : low_bytes v n = put_le (Z.to_nat n) v.
Proof.
  unfold low_bytes. destruct (Z.leb_spec 0 n); [|by destruct n].
  rewrite <-(Z2Nat.id n) at 1 by done. generalize (Z.to_nat n). clear. intros n.
  revert v. induction n as [|n IH]; intros v; [done|]. rewrite Nat2Z.inj_succ, seqZ_cons by lia. cbn [fmap list_fmap put_le]. f_equal.
  rewrite <-IH, Z.pred_succ. apply list_eq. intros k. rewrite !list_lookup_fmap.
  destruct (decide (Z.of_nat k < Z.of_nat n)).
  - rewrite <-(Nat2Z.id k), !lookup_seqZ_lt by lia. cbn [fmap option_fmap option_map]. do 2 f_equal.
    change 256 with (2 ^ 8). rewrite <-Z.shiftr_div_pow2, Z.shiftr_shiftr by lia. f_equal. lia.
  - by rewrite !lookup_seqZ_ge by lia.
Qed.

(** ** The widths the encoder chooses *)

Lemma shiftr_byte v : Z.shiftr v 8 = v / 256.
Proof. by rewrite Z.shiftr_div_pow2 by lia. Qed.

Lemma width_unsigned fuel k : forall n v, (k < fuel)%nat -> 0 <= v < 256 ^ Z.of_nat k ->
  exists m, go_for fuel (fun '(n, v) => if 0 <? v then mret (inl (n + 1, Z.shiftr v 8)) else mret (inr n)) (n, v) = Ret (n + m) /\
    0 <= m <= Z.of_nat k /\ v < 256 ^ m /\ (0 < v -> 1 <= m).
Proof.
  revert fuel. induction k as [|k IH]; intros [|fuel] n v Hk Hv; [lia| |lia|]; cbn [go_for mbind go_bind mret go_ret].
  - change (256 ^ Z.of_nat 0) with 1 in Hv. rewrite (proj2 (Z.ltb_ge 0 v)) by lia. exists 0. rewrite Z.add_0_r. change (256 ^ 0) with 1. split; [done|lia].
  - destruct (Z.ltb_spec 0 v) as [Hp|Hp]; cbn [mbind go_bind mret go_ret].
    + rewrite Nat2Z.inj_succ, Z.pow_succ_r in Hv by lia. rewrite shiftr_byte.
      destruct (IH fuel (n + 1) (v / 256)) as (m & -> & Hm & Hb & _); [lia|pose proof (Z.div_mod v 256); pose proof (Z.mod_pos_bound v 256); split; [lia|apply Z.div_lt_upper_bound; lia]|].
      exists (1 + m). split; [f_equal; lia|]. rewrite Z.pow_add_r, Z.pow_1_r by lia. pose proof (Z.div_mod v 256). pose proof (Z.mod_pos_bound v 256). lia.
    + exists 0. rewrite Z.add_0_r. change (256 ^ 0) with 1. split; [done|lia].
Qed.

Lemma minBytesUnsigned_ok v : 0 <= v < 2 ^ 63 -> exists n, minBytesUnsigned v = Ret n /\ 1 <= n <= 8 /\ v < 256 ^ n.
Proof.
  intros Hv. unfold minBytesUnsigned. destruct (Z.eqb_spec v 0) as [->|]; [exists 1; split; [done|lia]|].
  destruct (width_unsigned 9 8 0 v) as (m & -> & ?); [lia|change (256 ^ Z.of_nat 8) with (2 ^ 64); lia|]. exists m. split; [done|lia].
Qed.

Lemma signed_step_eq n v : signed_step (n, v) = if (v / 256 =? 0) || (v / 256 =? -1) then mret (inr n) else mret (inl (n + 1, v / 256)).
Proof. unfold signed_step. by rewrite shiftr_byte. Qed.

Lemma width_signed fuel k : forall n v, (k < fuel)%nat -> - 256 ^ (Z.of_nat k + 1) <= v < 256 ^ (Z.of_nat k + 1) ->
  exists m, go_for fuel signed_step (n, v) = Ret (n + m) /\
    0 <= m <= Z.of_nat k /\ - 256 ^ (m + 1) <= v < 256 ^ (m + 1).
Proof.
  revert fuel. induction k as [|k IH]; intros [|fuel] n v Hk Hv; [lia| |lia|]; cbn [go_for]; rewrite signed_step_eq;
    pose proof (Z.div_mod v 256); pose proof (Z.mod_pos_bound v 256).
  - change (256 ^ (Z.of_nat 0 + 1)) with 256 in Hv. exists 0. rewrite Z.add_0_r. change (256 ^ (0 + 1)) with 256.
    destruct (Z.eqb_spec (v / 256) 0), (Z.eqb_spec (v / 256) (-1)); cbn [orb mbind go_bind mret go_ret]; (split; [done|lia]) || lia.
  - destruct ((v / 256 =? 0) || (v / 256 =? -1)) eqn:E; cbn [mbind go_bind mret go_ret].
    + apply orb_true_iff in E. rewrite !Z.eqb_eq in E. exists 0. rewrite Z.add_0_r. change (256 ^ (0 + 1)) with 256. split; [done|lia].
    + rewrite Nat2Z.inj_succ in Hv. replace (Z.succ (Z.of_nat k) + 1) with (1 + (Z.of_nat k + 1)) in Hv by lia. rewrite Z.pow_add_r, Z.pow_1_r in Hv by lia.
      destruct (IH fuel (n + 1) (v / 256)) as (m & -> & Hm & Hb); [lia|lia|].
      exists (1 + m). split; [f_equal; lia|]. replace (1 + m + 1) with (1 + (m + 1)) by lia. rewrite Z.pow_add_r, Z.pow_1_r by lia. lia.
Qed.

Lemma minBytesSigned_ok v : - 2 ^ 63 <= v < 2 ^ 63 -> exists n, minBytesSigned v = Ret n /\ 1 <= n <= 8 /\ - 2 ^ (8 * n - 1) <= v < 2 ^ (8 * n - 1).
Proof.
  intros Hv. unfold minBytesSigned. destruct (Z.eqb_spec v 0) as [->|]; [exists 1; split; [done|lia]|].
  destruct (width_signed 9 7 1 v) as (m & -> & Hm & Hb); [lia|change (256 ^ (Z.of_nat 7 + 1)) with (2 ^ 64); lia|]. cbn [mbind go_bind mret go_ret]. cbv zeta.
  change 256 with (2 ^ 8) in Hb. rewrite <-Z.pow_mul_r in Hb by lia. replace (8 * (m + 1)) with (8 * (1 + m)) in Hb by lia.
  assert (2 ^ (8 * (1 + m)) = 2 * 2 ^ (8 * (1 + m) - 1)) as Hp by (rewrite <-Z.pow_succ_r by lia; f_equal; lia).
  assert (2 ^ (8 * (1 + m + 1) - 1) = 128 * 2 ^ (8 * (1 + m))) as Hq by (change 128 with (2 ^ 7); rewrite <-Z.pow_add_r by lia; f_equal; lia).
  assert (m = 7 -> 2 ^ (8 * (1 + m) - 1) = 2 ^ 63) as H7 by (intros ->; done).
  pose proof (Z.shiftr_div_pow2 v (8 * (1 + m) - 1) ltac:(lia)) as Hs. set (p := 2 ^ (8 * (1 + m) - 1)) in *. assert (0 < p) by (unfold p; lia).
  pose proof (Z.div_mod v p ltac:(lia)). pose proof (Z.mod_pos_bound v p ltac:(lia)).
  destruct (Z.ltb_spec 0 v); cbn [andb].
  - assert (v <? 0 = false) as -> by (apply Z.ltb_ge; lia). cbn [andb]. rewrite Hs. destruct (Z.eqb_spec (v / p) 0); cbn [negb].
    + exists (1 + m). split; [done|]. split; [lia|]. fold p. nia.
    + assert (p <= v) by nia. destruct (Z.eq_dec m 7); [lia|]. exists (1 + m + 1). split; [done|]. lia.
  - assert (v <? 0 = true) as -> by (apply Z.ltb_lt; lia). cbn [andb]. rewrite Hs. destruct (Z.eqb_spec (v / p) (-1)); cbn [negb].
    + exists (1 + m). split; [done|]. split; [lia|]. fold p. nia.
    + assert (v < - p) by nia. destruct (Z.eq_dec m 7); [lia|]. exists (1 + m + 1). split; [done|]. lia.
Qed.

(** ** Decoding undoes encoding *)

Lemma nibbles a b : 0 <= a < 16 -> 0 <= b < 16 ->
  let h := Z.lor (u8 (Z.shiftl b 4)) (u8 a) in Z.land h 0x0F = a /\ Z.shiftr h 4 = b.
Proof.
  intros Ha Hb h. assert (h = a + b * 2 ^ 4) as ->.
  { unfold h. rewrite <-(lor_shiftl_add a b 4), Z.lor_comm by lia. f_equal; apply wrap_u_id; rewrite ?Z.shiftl_mul_pow2; lia. }
  change 0x0F with (2 ^ 4 - 1). rewrite land_mask, Z.shiftr_div_pow2, Z_mod_plus_full, Z.mod_small, Z.div_add, Z.div_small by lia. lia.
Qed.

(** The bytes of a signed number, sign-extended. *)
Definition sign_extend (n top x : Z) : Z := if negb (Z.land top 0x80 =? 0) then Z.lor x (shl64s (-1) (8 * n)) else x.

Lemma sign_extend_ok n v : 1 <= n <= 8 -> - 2 ^ (8 * n - 1) <= v < 2 ^ (8 * n - 1) ->
  sign_extend n (byte_at (put_le (Z.to_nat n) v) (n - 1)) (i64 (LE (put_le (Z.to_nat n) v))) = v.
Proof.
  intros Hn Hv. rewrite LE_put_le, Z2Nat.id by lia. change 256 with (2 ^ 8). rewrite <-Z.pow_mul_r by lia.
  assert (byte_at (put_le (Z.to_nat n) v) (n - 1) = v / 2 ^ (8 * (n - 1)) mod 256) as ->.
  { rewrite <-low_bytes_ok. unfold byte_at, low_bytes. rewrite list_lookup_fmap, lookup_seqZ_lt by lia. cbn [fmap option_fmap option_map default]. rewrite Z.shiftr_div_pow2, Z.add_0_l, Z2Nat.id by lia. done. }
  assert (2 ^ (8 * n) = 256 * 2 ^ (8 * (n - 1))) as Hp by (change 256 with (2 ^ 8); rewrite <-Z.pow_add_r by lia; f_equal; lia).
  assert (2 ^ (8 * n - 1) = 128 * 2 ^ (8 * (n - 1))) as Hq by (change 128 with (2 ^ 7); rewrite <-Z.pow_add_r by lia; f_equal; lia).
  assert (2 ^ (8 * n - 1) <= 2 ^ 63) as Hmax by (apply Z.pow_le_mono_r; lia).
  unfold sign_extend, shl64s. change 0x80 with (2 ^ 7). rewrite land_bit, negb_involutive, <-i64_lor by lia.
  change 256 with (2 ^ 8). rewrite Z.mod_pow2_bits_low, Z.div_pow2_bits by lia. replace (7 + 8 * (n - 1)) with (8 * n - 1) by lia.
  rewrite Z.testbit_eqb by lia. rewrite Hp, Hq in *. set (p := 2 ^ (8 * (n - 1))) in *. assert (0 < p) by (unfold p; lia).
  destruct (Z.leb_spec 0 v).
  - rewrite (Z.div_small v) by lia. change (0 mod 2 =? 1) with false. cbv match. rewrite (Z.mod_small v) by lia. apply i64_id. lia.
  - assert (v / (128 * p) = -1) as -> by (symmetry; apply (Z.div_unique v (128 * p) (-1) (v + 128 * p)); lia). change (-1 mod 2 =? 1) with true. cbv match. rewrite lor_shiftl_add; [|lia|rewrite Hp; apply Z.mod_pos_bound; lia].
    assert (v mod (256 * p) = v + 256 * p) as ->.
    { symmetry. apply (Z.mod_unique v (256 * p) (-1)); lia. }
    rewrite Hp. replace (v + 256 * p + -1 * (256 * p)) with v by lia. apply i64_id. lia.
Qed.

Lemma decode_entry_ok pre post prev acc lenBytes offBytes length delta :
  1 <= lenBytes <= 8 -> 0 <= offBytes <= 8 -> bytes_ok pre -> bytes_ok post ->
  0 <= length < 256 ^ lenBytes -> length < 2 ^ 63 -> (0 < offBytes -> - 2 ^ (8 * offBytes - 1) <= delta < 2 ^ (8 * offBytes - 1)) ->
  let h := Z.lor (u8 (Z.shiftl offBytes 4)) (u8 lenBytes) in
  let data := pre ++ ([h] ++ put_le (Z.to_nat lenBytes) length ++ put_le (Z.to_nat offBytes) delta) ++ post in
  let prev' := if 0 <? offBytes then i64 (prev + delta) else prev in
  decode_entry data (len pre, prev, acc) = Ret (inl (len pre + 1 + lenBytes + offBytes, prev', acc ++ [mkRun (if 0 <? offBytes then prev' else -1) length])).
Proof.
  intros Hl Ho Hpre Hpost Hlen Hlen63 Hdelta h data prev'. pose proof (len_nonneg pre). pose proof (len_nonneg post).
  destruct (nibbles lenBytes offBytes ltac:(lia) ltac:(lia)) as [Hlo Hhi]. fold h in Hlo, Hhi.
  assert (is_byte h) as Hh.
  { unfold h, is_byte. apply (lor_range 8); [lia| |]; apply wrap_u_range; lia. }
  assert (len data = len pre + 1 + lenBytes + offBytes + len post) as Hd by (unfold data; rewrite !len_app, !len_put_le, len_cons, len_nil by lia; lia).
  assert (bytes_ok data) as Hb by (unfold data; repeat apply Forall_app_2; auto using put_le_bytes).
  set (L := put_le (Z.to_nat lenBytes) length) in *. set (O := put_le (Z.to_nat offBytes) delta) in *.
  assert (len L = lenBytes) as HL by (unfold L; rewrite len_put_le; lia). assert (len O = offBytes) as HO by (unfold O; rewrite len_put_le; lia).
  assert (data.[len pre, len pre + 1] = [h]) as Eh by (unfold data; rewrite <-!(assoc app); apply sub_mid; done).
  assert (data.[len pre + 1, len pre + 1 + lenBytes] = L) as EL.
  { unfold data. rewrite <-!(assoc app), (assoc app pre [h]). apply sub_mid; rewrite ?len_app, ?len_cons, ?len_nil; lia. }
  assert (data.[len pre + 1 + lenBytes, len pre + 1 + lenBytes + offBytes] = O) as EO.
  { unfold data. rewrite <-!(assoc app), (assoc app pre [h]), (assoc app _ L). apply sub_mid; rewrite ?len_app, ?len_cons, ?len_nil; lia. }
  unfold decode_entry. rewrite (proj2 (Z.ltb_lt _ _)) by lia. cbn [negb]. rewrite index_byte_at by lia. cbn [mbind go_bind].
  assert (byte_at data (len pre) = h) as -> by (pose proof (byte_at_sub data (len pre) ltac:(lia)); congruence).
  destruct (Z.eqb_spec h 0) as [E|_]; [exfalso; rewrite E in Hlo; change (0 = lenBytes) in Hlo; lia|]. rewrite Hlo, Hhi. cbv zeta.
  rewrite (proj2 (Z.ltb_ge _ _)) by lia. rewrite (or_bytes_ok data (len pre + 1)) by (done || lia). cbn [mbind go_bind]. rewrite EL. unfold L. rewrite LE_put_le, Z2Nat.id, Z.mod_small, i64_id by lia.
  unfold prev'. destruct (Z.ltb_spec 0 offBytes); [|done]. rewrite or_bytes_ok by (done || lia). cbn [mbind go_bind]. rewrite EO, index_byte_at by lia. cbn [mbind go_bind].
  assert (byte_at data (len pre + 1 + lenBytes + offBytes - 1) = byte_at O (offBytes - 1)) as ->.
  { rewrite <-EO. rewrite byte_at_of_sub by lia. f_equal. lia. }
  fold (sign_extend offBytes (byte_at O (offBytes - 1)) (i64 (LE O))). unfold O. rewrite sign_extend_ok by (try apply Hdelta; lia). done.
Qed.

(** Any negative number stands for a sparse run; the decoder gives -1. *)
Definition normal_run (r : run) : run := mkRun (if 0 <=? lcn r then lcn r else -1) (run_length r).
Definition run_ok (r : run) : Prop := lcn r < 2 ^ 63 /\ 0 <= run_length r < 2 ^ 63.

Lemma encode_run_ok r prev : run_ok r -> 0 <= prev < 2 ^ 63 ->
  exists e prev', 0 <= prev' < 2 ^ 63 /\ bytes_ok e /\ 0 < len e /\
    (forall out, encode_run (out, prev) r = Ret (out ++ e, prev')) /\
    forall pre post acc, bytes_ok pre -> bytes_ok post ->
      decode_entry (pre ++ e ++ post) (len pre, prev, acc) = Ret (inl (len pre + len e, prev', acc ++ [normal_run r])).
Proof.
  intros [Hlcn Hlen] Hprev. destruct (minBytesUnsigned_ok (run_length r) Hlen) as (lenBytes & Eu & Hu & Hub).
  assert (forall offBytes delta, 0 <= offBytes <= 8 ->
    bytes_ok ([Z.lor (u8 (Z.shiftl offBytes 4)) (u8 lenBytes)] ++ put_le (Z.to_nat lenBytes) (run_length r) ++ put_le (Z.to_nat offBytes) delta) /\
    len ([Z.lor (u8 (Z.shiftl offBytes 4)) (u8 lenBytes)] ++ put_le (Z.to_nat lenBytes) (run_length r) ++ put_le (Z.to_nat offBytes) delta) = 1 + lenBytes + offBytes) as Hcode.
  { intros offBytes delta Ho. split.
    - repeat apply Forall_app_2; auto using put_le_bytes. apply Forall_singleton. apply (lor_range 8); [lia| |]; apply wrap_u_range; lia.
    - rewrite !len_app, !len_put_le, len_cons, len_nil. lia. }
  unfold normal_run. destruct (Z.leb_spec 0 (lcn r)) as [Hp|Hn].
  - destruct (minBytesSigned_ok (lcn r - prev) ltac:(lia)) as (offBytes & Es & Hs & Hsb).
    destruct (Hcode offBytes (lcn r - prev) ltac:(lia)) as [Hb Hl]. eexists _, (lcn r). split; [lia|]. split; [exact Hb|]. split; [rewrite Hl; lia|]. split.
    + intros out. unfold encode_run. rewrite Eu, (proj2 (Z.leb_le _ _)) by lia. cbn [mbind go_bind]. rewrite i64_id, Es by lia. cbn [mbind go_bind mret go_ret]. by rewrite !low_bytes_ok.
    + intros pre post acc Hpre Hpost. rewrite decode_entry_ok by (done || lia). rewrite Hl, (proj2 (Z.ltb_lt 0 offBytes)) by lia.
      replace (prev + (lcn r - prev)) with (lcn r) by lia. rewrite i64_id by lia. do 4 f_equal. lia.
  - destruct (Hcode 0 0 ltac:(lia)) as [Hb Hl]. eexists _, prev. split; [lia|]. split; [exact Hb|]. split; [rewrite Hl; lia|]. split.
    + intros out. unfold encode_run. rewrite Eu, (proj2 (Z.leb_gt _ _)) by lia. cbn [mbind go_bind mret go_ret]. by rewrite !low_bytes_ok.
    + intros pre post acc Hpre Hpost. rewrite decode_entry_ok by (done || lia). rewrite Hl. cbn [Z.ltb Z.compare]. do 4 f_equal. lia.
Qed.

Lemma decode_end pre tail prev acc : decode_entry (pre ++ [0] ++ tail) (len pre, prev, acc) = Ret (inr acc).
Proof.
  pose proof (len_nonneg tail). pose proof (len_nonneg pre). unfold decode_entry.
  assert (len (pre ++ [0] ++ tail) = len pre + 1 + len tail) as Hl by (rewrite (len_app pre), (len_app [0]), len_cons, len_nil; lia).
  rewrite (proj2 (Z.ltb_lt (len pre) _)) by lia. cbn [negb]. rewrite index_byte_at by lia. cbn [mbind go_bind].
  assert (byte_at (pre ++ [0] ++ tail) (len pre) = 0) as ->; [|done].
  unfold byte_at, len. rewrite Nat2Z.id, lookup_app_r, Nat.sub_diag by lia. done.
Qed.

Lemma encode_runs_ok runs : forall prev, Forall run_ok runs -> 0 <= prev < 2 ^ 63 ->
  exists e prev', bytes_ok e /\ len runs <= len e /\
    (forall out, encode_runs runs (out, prev) = Ret (out ++ e, prev')) /\
    forall pre tail acc fuel, bytes_ok pre -> bytes_ok tail -> (length runs < fuel)%nat ->
      go_for fuel (decode_entry (pre ++ e ++ [0] ++ tail)) (len pre, prev, acc) = Ret (acc ++ (normal_run <$> runs)).
Proof.
  induction runs as [|r runs IH]; intros prev Hok Hprev.
  - exists [], prev. split; [constructor|]. split; [done|]. split; [intros; by rewrite app_nil_r|].
    intros pre tail acc [|fuel] Hpre Htail Hf; [cbn in Hf; lia|]. cbn [go_for fmap list_fmap]. change ([] ++ [0] ++ tail) with ([0] ++ tail). rewrite decode_end, app_nil_r. done.
  - apply Forall_cons in Hok as [Hr Hok]. destruct (encode_run_ok r prev Hr Hprev) as (e & prev1 & Hp1 & Hb & Hl & He & Hd).
    destruct (IH prev1 Hok Hp1) as (e2 & prev2 & Hb2 & Hl2 & He2 & Hd2). exists (e ++ e2), prev2. split; [by apply Forall_app_2|].
    split; [rewrite len_app, len_cons; lia|]. split.
    + intros out. cbn [encode_runs]. rewrite He. cbn [mbind go_bind]. by rewrite He2, (assoc app).
    + intros pre tail acc [|fuel] Hpre Htail Hf; [cbn in Hf; lia|]. cbn [go_for]. rewrite <-(assoc app e), Hd by (done || (repeat apply Forall_app_2; auto; by apply Forall_singleton, is_byte_0)). cbn [mbind go_bind].
      assert (pre ++ (e ++ e2) ++ [0] ++ tail = (pre ++ e) ++ e2 ++ [0] ++ tail) as -> by (by rewrite <-!(assoc app)). rewrite <-len_app, Hd2 by (by apply Forall_app_2 || done || (cbn in Hf; lia)). by rewrite <-(assoc app acc).
Qed.

Lemma runlist_decoded runs tail : Forall run_ok runs -> bytes_ok tail ->
  exists e, encodeRunlist runs = Ret e /\ bytes_ok e /\ decodeRunlist (e ++ tail) = Ret (normal_run <$> runs).
Proof.
  intros Hok Htail. destruct (encode_runs_ok runs 0 Hok ltac:(lia)) as (e & prev & Hb & Hl & He & Hd).
  exists (e ++ [0]). unfold encodeRunlist. rewrite He. split; [done|]. split; [apply Forall_app_2; [done|apply Forall_singleton, is_byte_0]|].
  unfold decodeRunlist. rewrite <-(assoc app). apply (Hd [] tail []); [constructor|done|]. rewrite !length_app. unfold len in Hl. lia.
Qed.

(** C29. Decoding a run list that was encoded gives the runs back, whatever follows it; encoding never fails. The
    runs may be in any order, so that the deltas between them are negative, may be empty,
    and may have any length and cluster number that an int64 holds. *)
Theorem ntfs_runlist_roundtrip runs tail : Forall run_ok runs -> bytes_ok tail ->
  exists e, encodeRunlist runs = Ret e /\ decodeRunlist (e ++ tail) = Ret (normal_run <$> runs).
Proof. intros Hok Htail. destruct (runlist_decoded runs tail Hok Htail) as (e & He & _ & Hd). by exists e. Qed.

Lemma ntfs_runlist_roundtrip_witness :
  exists e, encodeRunlist [mkRun 0x1234 0x80; mkRun (-7) 5; mkRun 0x1000 (2 ^ 62)] = Ret e /\
    decodeRunlist (e ++ [1; 2]) = Ret [mkRun 0x1234 0x80; mkRun (-1) 5; mkRun 0x1000 (2 ^ 62)].
Proof. apply (ntfs_runlist_roundtrip [mkRun 0x1234 0x80; mkRun (-7) 5; mkRun 0x1000 (2 ^ 62)] [1; 2]); repeat constructor; unfold is_byte; cbn; lia. Defined.

(** Decoding ends on any bytes. *)
Lemma decode_entry_wp data st : bytes_ok data -> 0 <= fst (fst st) ->
  wp (decode_entry data st) (fun r => match r with inl st' => fst (fst st) < fst (fst st') <= len data | inr _ => True end) (fun _ => True).
Proof.
  intros Hb. destruct st as [[i prev] runs]. cbn [fst]. intros Hi. unfold decode_entry. destruct_if; cbn [negb]; [|done].
  rewrite index_byte_at by lia. cbn [mbind go_bind]. pose proof (byte_at_range data i Hb) as Hh. unfold is_byte in Hh. set (h := byte_at data i) in *. clearbody h.
  destruct_if; [done|]. change 0x0F with (2 ^ 4 - 1). rewrite land_mask, Z.shiftr_div_pow2 by lia. cbv zeta.
  pose proof (Z.mod_pos_bound h (2 ^ 4)). pose proof (Z.div_pos h (2 ^ 4)). destruct_if; [done|].
  rewrite (or_bytes_ok data (i + 1)) by (done || lia). cbn [mbind go_bind]. destruct_if; cbn [mbind go_bind mret go_ret].
  - rewrite (or_bytes_ok data (i + 1 + _)) by (done || lia). cbn [mbind go_bind]. rewrite index_byte_at by lia. cbn. lia.
  - cbn. lia.
Qed.

Lemma decodeRunlist_wp data : bytes_ok data -> wp (decodeRunlist data) (fun _ => True) (fun _ => True).
Proof.
  intros Hb. unfold decodeRunlist. apply (wp_for (fun st => 0 <= fst (fst st) <= len data) (fun st => Z.to_nat (len data - fst (fst st)))); [|cbn; pose proof (len_nonneg data); lia|cbn; unfold len; lia].
  intros st Hst. eapply wp_mono; [apply decode_entry_wp; [done|lia]| |done]. intros [st'|]; [|done]. lia.
Qed.
