(* ===== verification/Ntfs.v ===== *)
(** * Ntfs: records, attributes and data of NTFS volumes (ntfs/open.go, ntfs/read.go)
    Opening a volume: boot sector, the records of the master file table with their update
    sequence arrays, the cache of records. Attributes of a record and the data of their
    runs, read whole and from an offset. Open files. *)
From S2P Require Import Prelude Bytes ReaderAt Text Utf16 NtfsRuns.

(** ** Constants *)

Definition attrSTANDARD_INFORMATION : Z := 0x10.
Definition attrFILE_NAME : Z := 0x30.
Definition attrVOLUME_INFORMATION : Z := 0x70.
Definition attrDATA : Z := 0x80.
Definition attrINDEX_ROOT : Z := 0x90.
Definition attrINDEX_ALLOCATION : Z := 0xA0.
Definition attrBITMAP : Z := 0xB0.
Definition attrREPARSE_POINT : Z := 0xC0.
Definition attrEND : Z := 0xFFFFFFFF.

Definition recMFT : Z := 0.
Definition recVolume : Z := 3.
Definition recRoot : Z := 5.
Definition recBitmap : Z := 6.

Definition mftFlagInUse : Z := 0x01.
Definition mftFlagDir : Z := 0x02.
Definition idxFlagLastEntry : Z := 0x02.
Definition faReadOnly : Z := 0x0001.
Definition faDirectory : Z := 0x0010.
Definition faArchive : Z := 0x0020.
Definition reparseSymlink : Z := 0xA000000C.
Definition reparseJunction : Z := 0xA0000003.

(** [flags&bit != 0] *)
Definition has (flags bit : Z) : bool := negb (Z.land flags bit =? 0).

(** [binary.LittleEndian.UintN(b[o:])], and the same for writing. *)
Definition u16_from (b : list Z) (o : Z) : go Z := get_le 2 b o (len b).
Definition u32_from (b : list Z) (o : Z) : go Z := get_le 4 b o (len b).
Definition u64_from (b : list Z) (o : Z) : go Z := get_le 8 b o (len b).
Definition put_u16 (b : list Z) (o v : Z) : go (list Z) := put_word b o (len b) (put_le 2 v).
Definition put_u32 (b : list Z) (o v : Z) : go (list Z) := put_word b o (len b) (put_le 4 v).
Definition put_u64 (b : list Z) (o v : Z) : go (list Z) := put_word b o (len b) (put_le 8 v).

(** ** The volume *)

(** What is known of an open volume, without the reader below it and the mutex. *)
Record ntfsVolume := mkVolume {
  base : Z; size : Z;
  clusterSize : Z; recSize : Z; idxBlockSize : Z; mftOff : Z; totalClusters : Z;
  mftCache : gmap Z (list Z); bitmap : list Z; mftBitmap : list Z; dirty : bool }.

Definition with_cache (v : ntfsVolume) c := mkVolume (base v) (size v) (clusterSize v) (recSize v) (idxBlockSize v) (mftOff v) (totalClusters v) c (bitmap v) (mftBitmap v) (dirty v).
Definition with_bitmap (v : ntfsVolume) b d := mkVolume (base v) (size v) (clusterSize v) (recSize v) (idxBlockSize v) (mftOff v) (totalClusters v) (mftCache v) b (mftBitmap v) d.
Definition with_mft_bitmap (v : ntfsVolume) b d := mkVolume (base v) (size v) (clusterSize v) (recSize v) (idxBlockSize v) (mftOff v) (totalClusters v) (mftCache v) (bitmap v) b d.

(** ** Update sequence array *)

Definition apply_sector (usaOff usaCnt : Z) '(i, buf) : go (Z * list Z + list Z) :=
  if negb (i <? usaCnt) then mret (inr buf) else
  let pos := i * 512 - 2 in
  if len buf <? pos + 2 then mret (inr buf) else
  a ← index buf (usaOff + i * 2);
  buf ← store buf pos a;
  b ← index buf (usaOff + i * 2 + 1);
  buf ← store buf (pos + 1) b;
  mret (inl (i + 1, buf)).

Definition applyUSA (buf : list Z) : go (list Z) :=
  if len buf <? 8 then mret buf else
  usaOff ← u16_from buf 4;
  usaCnt ← u16_from buf 6;
  if (usaOff =? 0) || (len buf <? usaOff + usaCnt * 2) then mret buf else
  go_for (S (Z.to_nat usaCnt)) (apply_sector usaOff usaCnt) (1, buf).

Definition stamp_sector (usaOff usaCnt sectors seq : Z) '(i, buf) : go (Z * list Z + list Z) :=
  if negb ((i <? usaCnt) && (i <=? sectors)) then mret (inr buf) else
  let pos := i * 512 - 2 in
  if len buf <? pos + 2 then mret (inr buf) else
  a ← index buf pos;
  buf ← store buf (usaOff + i * 2) a;
  b ← index buf (pos + 1);
  buf ← store buf (usaOff + i * 2 + 1) b;
  buf ← store buf pos (u8 seq);
  buf ← store buf (pos + 1) (u8 (Z.shiftr seq 8));
  mret (inl (i + 1, buf)).

Definition stampUSA (buf : list Z) (sectors : Z) : go (list Z) :=
  if len buf <? 8 then mret buf else
  usaOff ← u16_from buf 4;
  usaCnt ← u16_from buf 6;
  if (usaOff =? 0) || (len buf <? usaOff + usaCnt * 2) then mret buf else
  old ← u16_from buf usaOff;
  let seq := u16 (old + 1) in
  let seq := if seq =? 0 then 1 else seq in
  buf ← put_u16 buf usaOff seq;
  go_for (S (Z.to_nat usaCnt)) (stamp_sector usaOff usaCnt sectors seq) (1, buf).

(** ** Attributes *)

(** [for i := range u16 { u16[i] = binary.LittleEndian.Uint16(b[o+i*2:]) }] *)
Fixpoint units_from (b : list Z) (o : Z) (n : nat) : go (list Z) :=
  match n with
  | O => mret []
  | S n' => u ← u16_from b o; us ← units_from b (o + 2) n'; mret (u :: us)
  end.
(** [string(utf16.Decode(u16))] *)
Definition utf16_string (b : list Z) (o n : Z) : go gostring :=
  us ← units_from b o (Z.to_nat n); mret (string_of_runes (Decode us)).

(** One round of the search: where the attribute is, or where the next one starts. *)
Definition find_round (rec : list Z) (attrType : Z) (name : gostring) (off : Z) : go (Z + option Z) :=
  if negb (off + 8 <=? len rec) then mret (inr None) else
  t ← u32_from rec off;
  if t =? attrEND then mret (inr None) else
  attrLen ← u32_from rec (off + 4);
  if (attrLen <=? 0) || (len rec <? off + attrLen) then mret (inr None) else
  if t =? attrType then
    if bool_decide (name = []) then mret (inr (Some off)) else
    nameLen ← index rec (off + 9);
    nameOff ← u16_from rec (off + 10);
    if (0 <? nameLen) && (off + nameOff + nameLen * 2 <=? len rec) then
      s ← utf16_string rec (off + nameOff) nameLen;
      if bool_decide (s = name) then mret (inr (Some off)) else mret (inl (off + attrLen))
    else mret (inl (off + attrLen))
  else mret (inl (off + attrLen)).

Definition find_loop (rec : list Z) (attrType : Z) (name : gostring) : go (option Z) :=
  if len rec <? 0x30 then mret None else
  off ← u16_from rec 0x14;
  go_for (S (length rec)) (find_round rec attrType name) off.

Definition findAttrOffset (rec : list Z) (attrType : Z) (name : gostring) : go Z :=
  r ← find_loop rec attrType name;
  mret (default (-1) r).

Definition findAttr (rec : list Z) (attrType : Z) (name : gostring) : go (option (list Z)) :=
  r ← find_loop rec attrType name;
  match r with
  | None => mret None
  | Some off => attrLen ← u32_from rec (off + 4); a ← slice rec off (off + attrLen); mret (Some a)
  end.

(** ** Reading *)

Section volume.
(** The backend, of type [io.ReaderAt]. *)
Context (f : reader).

Definition partRead (v : ntfsVolume) (p : list Z) (off : Z) : go rres := f p (i64 (base v + off)).

(** [readRuns]: the whole of an attribute. *)
Fixpoint read_runs (v : ntfsVolume) (dataSize : Z) (runs : list run) (out : list Z) (written : Z) : go (list Z) :=
  match runs with
  | [] => mret out
  | r :: runs' =>
      if dataSize <=? written then mret out else
      let toRead := i64 (run_length r * clusterSize v) in
      let toRead := if dataSize <? i64 (written + toRead) then dataSize - written else toRead in
      if lcn r <? 0 then read_runs v dataSize runs' out (i64 (written + toRead))
      else
        let off := i64 (lcn r * clusterSize v) in
        res ← read_range (partRead v) out written (i64 (written + toRead)) off;
        match r_err res with
        | Some e => Err (Wrapf "read cluster run at LCN %d: %w" e)
        | None => read_runs v dataSize runs' (r_buf res) (i64 (written + toRead))
        end
  end.
Definition readRuns (v : ntfsVolume) (runs : list run) (dataSize : Z) : go (list Z) :=
  out ← make 0 1 dataSize;
  read_runs v dataSize runs out 0.

(** [readRunsAt]: the buffer afterwards, the count and the error. *)
Fixpoint read_runs_at (v : ntfsVolume) (want : Z) (runs : list run) (clusterOff byteOffset : Z) (p : list Z) (n : Z) : go rres :=
  match runs with
  | [] => mret (mkR p n None)
  | r :: runs' =>
      let runBytes := i64 (run_length r * clusterSize v) in
      if i64 (clusterOff + runBytes) <=? byteOffset then read_runs_at v want runs' (i64 (clusterOff + runBytes)) byteOffset p n else
      let intraOff := i64 (byteOffset - clusterOff) in
      let intraOff := if intraOff <? 0 then 0 else intraOff in
      let canRead := i64 (runBytes - intraOff) in
      let canRead := if i64 (want - n) <? canRead then i64 (want - n) else canRead in
      res ← (if lcn r <? 0 then p ← fill (fun _ => 0) p n canRead; mret (mkR p 0 None)
             else read_range (partRead v) p n (i64 (n + canRead)) (i64 (i64 (lcn r * clusterSize v) + intraOff)));
      match r_err res with
      | Some e => mret (mkR (r_buf res) n (Some e))
      | None =>
          let n := i64 (n + canRead) in
          if want <=? n then mret (mkR (r_buf res) n None)
          else read_runs_at v want runs' (i64 (clusterOff + runBytes)) (i64 (byteOffset + canRead)) (r_buf res) n
      end
  end.
Definition readRunsAt (v : ntfsVolume) (runs : list run) (byteOffset : Z) (p : list Z) : go rres :=
  read_runs_at v (len p) runs 0 byteOffset p 0.

Definition attrValue (v : ntfsVolume) (attr : list Z) : go (list Z) :=
  if len attr <? 16 then Err (Errorf "attribute too short") else
  nonResident ← index attr 8;
  if nonResident =? 0 then
    valLen ← u32_from attr 0x10;
    valOff ← u16_from attr 0x14;
    if len attr <? valOff + valLen then Err (Errorf "resident attribute value out of bounds") else
    out ← make 0 1 valLen;
    src ← slice attr valOff (len attr);
    mret (patch out 0 (take (Z.to_nat valLen) src))
  else
    if len attr <? 0x40 then Err (Errorf "non-resident attribute header truncated") else
    dataSize ← u64_from attr 0x30;
    let dataSize := i64 dataSize in
    rlOff ← u16_from attr 0x20;
    if len attr <=? rlOff then Err (Errorf "runlist offset out of bounds") else
    rl ← slice attr rlOff (len attr);
    runs ← decodeRunlist rl;
    readRuns v runs dataSize.

(** ** Records *)

Definition BAAD : list Z := lit "BAAD".
Definition FILE : list Z := lit "FILE".

Definition readRawRecord (v : ntfsVolume) (n : Z) : go (list Z) :=
  let off := i64 (mftOff v + i64 (i64 n * recSize v)) in
  buf ← make 0 1 (recSize v);
  buf ← read_or (partRead v) "read record %d: %w" buf off;
  if (4 <=? len buf) && bool_decide (buf.[0, 4] = BAAD) then Err (Errorf "MFT record %d is corrupt (BAAD signature)") else
  if (4 <=? len buf) && bool_decide (buf.[0, 4] <> FILE) then Err (Errorf "MFT record %d: unexpected signature %q") else
  applyUSA buf.

(** The record, and the volume with the record in its cache. *)
Definition getRecord (v : ntfsVolume) (n : Z) : go (ntfsVolume * list Z) :=
  match mftCache v !! n with
  | Some rec => mret (v, rec)
  | None => rec ← readRawRecord v n; mret (with_cache v (<[n := rec]> (mftCache v)), rec)
  end.

(** [for i := uint64(1); i <= 11; i++]: the records that can be read are kept. *)
Definition warm (v : ntfsVolume) (i : Z) : go ntfsVolume :=
  r ← catch (readRawRecord v i);
  match r with
  | inl rec => mret (with_cache v (<[i := rec]> (mftCache v)))
  | inr _ => mret v
  end.

Definition loadMFT (v : ntfsVolume) : go ntfsVolume :=
  rec0 ← or_else (Wrapf "MFT record 0: %w") (readRawRecord v 0);
  let v := with_cache v (<[0 := rec0]> (mftCache v)) in
  v ← go_range (fun i v => warm v i) 1 11 v;
  bAttr ← findAttr rec0 attrBITMAP [];
  match bAttr with
  | None => mret v
  | Some bAttr =>
      r ← catch (attrValue v bAttr);
      mret (with_mft_bitmap v (match r with inl b => b | inr _ => [] end) (dirty v))
  end.

Definition loadBitmap (v : ntfsVolume) : go ntfsVolume :=
  '(v, rec) ← or_else (Wrapf "$Bitmap record: %w") (getRecord v recBitmap);
  attr ← findAttr rec attrDATA [];
  match attr with
  | None => Err (Errorf "$Bitmap has no $DATA attribute")
  | Some attr =>
      data ← or_else (Wrapf "$Bitmap data: %w") (attrValue v attr);
      mret (with_bitmap v data (dirty v))
  end.

(** ** Opening *)

Definition ntfsOEM : list Z := lit "NTFS    ".

(** The size of a record or index block: a negative byte is a power of two. *)
Definition derived_size (c clusterSize dflt : Z) : Z :=
  let s := if wrap_s 8 c <? 0 then (let n := u64 (wrap_s 8 (- wrap_s 8 c)) in if 64 <=? n then 0 else shl64s 1 n)
           else i64 (wrap_s 8 c * clusterSize) in
  if s =? 0 then dflt else s.

Definition parseBoot (v : ntfsVolume) : go ntfsVolume :=
  boot ← read_or f "boot sector: %w" (replicate 512 0) (base v);
  if bool_decide (boot.[3, 11] <> ntfsOEM) then Err (Errorf "bad OEM ID %q") else
  bps ← u16_from boot 0x0B;
  spc ← index boot 0x0D;
  let clusterSize := i64 (bps * spc) in
  totalSec ← u64_from boot 0x28;
  let total := if 0 <? spc then Z.quot (i64 totalSec) spc else totalClusters v in
  mftLCN ← u64_from boot 0x30;
  let mftOff := i64 (i64 mftLCN * clusterSize) in
  cpm ← index boot 0x40;
  cpi ← index boot 0x44;
  mret (mkVolume (base v) (size v) clusterSize (derived_size cpm clusterSize 1024) (derived_size cpi clusterSize 4096) mftOff total
          (mftCache v) (bitmap v) (mftBitmap v) (dirty v)).

Definition Open (partOff partSize : Z) : go ntfsVolume :=
  let v := mkVolume partOff partSize 0 0 0 0 0 ∅ [] [] false in
  v ← or_else (Wrapf "ntfs.Open: %w") (parseBoot v);
  v ← or_else (Wrapf "ntfs.Open: %w") (loadMFT v);
  or_else (Wrapf "ntfs.Open: %w") (loadBitmap v).

End volume.

(** ** The bytes of runs *)

Section content.
Context (f : reader) (fsize : Z) (content : Z -> Z) `{!Device f fsize content} (v : ntfsVolume).

Definition run_bytes (r : run) : list Z :=
  if lcn r <? 0 then replicate (Z.to_nat (run_length r * clusterSize v)) 0
  else span content (base v + lcn r * clusterSize v) (run_length r * clusterSize v).
Definition stream (runs : list run) : list Z := runs ≫= run_bytes.

(** A run of at least one cluster, inside the device. *)
Definition run_fits (r : run) : Prop :=
  0 < run_length r /\ run_length r * clusterSize v < 2 ^ 63 /\
  (0 <= lcn r -> base v + (lcn r + run_length r) * clusterSize v <= fsize).
Definition runs_fit (runs : list run) : Prop :=
  Forall run_fits runs /\ 0 < clusterSize v /\ 0 <= base v /\ len (stream runs) < 2 ^ 63.

Lemma len_run_bytes r : run_fits r -> 0 < clusterSize v -> len (run_bytes r) = run_length r * clusterSize v.
Proof.
  intros (Hl & Hb & _) Hc. unfold run_bytes. destruct_if; [rewrite len_replicate|rewrite len_span]; nia.
Qed.

Lemma stream_cons r runs : stream (r :: runs) = run_bytes r ++ stream runs.
Proof. done. Qed.

Lemma runs_fit_cons r runs : runs_fit (r :: runs) -> run_fits r /\ runs_fit runs /\
  len (run_bytes r) = run_length r * clusterSize v /\ 0 < run_length r * clusterSize v /\ run_length r * clusterSize v + len (stream runs) < 2 ^ 63.
Proof.
  intros (Hf & Hc & Hb & Hl). apply Forall_cons in Hf as [Hr Hf]. pose proof (len_run_bytes r Hr Hc) as Hlr.
  rewrite stream_cons, len_app in Hl. pose proof (len_nonneg (run_bytes r)).
  assert (0 < run_length r * clusterSize v) by (destruct Hr as (? & _); nia). split; [done|]. split; [repeat split; (done || lia)|]. lia.
Qed.

(** Reading a part of a run. *)
Lemma read_run_part r p lo k n : run_fits r -> 0 < clusterSize v -> 0 <= base v -> 0 <= lcn r ->
  0 <= lo -> 0 < n -> lo + n <= len p -> 0 <= k -> k + n <= run_length r * clusterSize v ->
  read_range (partRead f v) p lo (lo + n) (i64 (lcn r * clusterSize v) + k) = Ret (mkR (p.[0, lo] ++ (run_bytes r).[k, k + n] ++ from p (lo + n)) n None).
Proof.
  intros (Hr & Hl & Hd) Hc Hb Hlcn Hlo Hn Hp Hk Hkn. specialize (Hd Hlcn). pose proof (dev_size (ra := f) (content := content)) as Hsz.
  assert (0 <= lcn r * clusterSize v) by nia. assert (lcn r * clusterSize v + run_length r * clusterSize v <= fsize) by nia. rewrite i64_id by lia.
  unfold read_range. rewrite slice_ok by lia. cbn [mbind go_bind]. unfold partRead. rewrite i64_id by nia.
  rewrite (dev_read_full f fsize content) by (rewrite ?len_sub by lia; nia). cbn [mbind go_bind]. rewrite len_sub by lia. replace (lo + n - lo) with n by lia. cbn [r_buf r_n r_err].
  unfold run_bytes. rewrite (proj2 (Z.ltb_ge _ _)) by lia. rewrite span_sub by lia. unfold mret, go_ret. do 5 f_equal; lia.
Qed.

Lemma read_runs_ok dataSize runs : runs_fit runs -> 0 <= dataSize < 2 ^ 62 -> forall pre, len pre <= dataSize -> len pre + len (stream runs) < 2 ^ 63 ->
  read_runs f v dataSize runs (pre ++ replicate (Z.to_nat (dataSize - len pre)) 0) (len pre) =
  Ret (pre ++ take (Z.to_nat (dataSize - len pre)) (stream runs ++ replicate (Z.to_nat (dataSize - len pre)) 0)).
Proof.
  intros Hfit Hds. induction runs as [|r runs IH]; intros pre Hpre Htot; pose proof (len_nonneg pre); cbn [read_runs].
  - unfold stream. cbn [mbind list_bind app]. by rewrite take_ge by (rewrite length_replicate; lia).
  - destruct (runs_fit_cons r runs Hfit) as (Hr & Hrest & Hlr & Hpos & Hsum). pose proof (len_nonneg (stream runs)).
    rewrite stream_cons, len_app, Hlr in Htot.
    destruct (Z.leb_spec dataSize (len pre)); [by replace (Z.to_nat (dataSize - len pre)) with 0%nat by lia|].
    set (rb := run_length r * clusterSize v) in *. rewrite (i64_id rb) by lia. set (left := dataSize - len pre) in *.
    assert (exists k, (if dataSize <? i64 (len pre + rb) then left else rb) = k /\ 0 < k <= rb /\ k <= left /\ (k = rb \/ k = left)) as (k & -> & Hk & Hkl & Hor).
    { rewrite i64_id by lia. exists (if dataSize <? len pre + rb then left else rb). split; [done|]. destruct_if; unfold left; lia. }
    rewrite !i64_id by lia.
    assert (read_runs f v dataSize runs ((pre ++ (run_bytes r).[0, k]) ++ replicate (Z.to_nat (left - k)) 0) (len pre + k) =
      Ret (pre ++ take (Z.to_nat left) (stream (r :: runs) ++ replicate (Z.to_nat left) 0))) as Hgoal.
    { assert (len (pre ++ (run_bytes r).[0, k]) = len pre + k) as Hlp by (rewrite len_app, len_sub by lia; lia).
      specialize (IH Hrest (pre ++ (run_bytes r).[0, k])). rewrite Hlp in IH. replace (dataSize - (len pre + k)) with (left - k) in IH by lia.
      rewrite IH by lia. rewrite <-(assoc app), stream_cons, <-(assoc app). f_equal. f_equal.
      destruct Hor as [->| ->].
      - rewrite <-Hlr, sub_full. symmetry. rewrite take_app_ge by (unfold len in *; lia). f_equal.
        replace (Z.to_nat left - length (run_bytes r))%nat with (Z.to_nat (left - len (run_bytes r))) by (unfold len in *; lia).
        assert (replicate (Z.to_nat left) 0 = replicate (Z.to_nat (left - len (run_bytes r))) 0 ++ replicate (Z.to_nat (len (run_bytes r))) 0) as ->
          by (rewrite <-replicate_add; f_equal; lia).
        rewrite (assoc app (stream runs)). apply take_app_le. rewrite length_app, length_replicate. lia.
      - rewrite Z.sub_diag. change (Z.to_nat 0) with 0%nat. rewrite take_0, app_nil_r. symmetry. rewrite take_app_le by (unfold len in *; lia).
        unfold sub. by rewrite Z.sub_0_r. }
    assert (replicate (Z.to_nat left) 0 = replicate (Z.to_nat k) 0 ++ replicate (Z.to_nat (left - k)) 0) as Hz by (rewrite <-replicate_add; f_equal; lia).
    destruct (Z.ltb_spec (lcn r) 0) as [Hs|Hs].
    + rewrite <-Hgoal. f_equal. rewrite <-(assoc app). f_equal. rewrite Hz. f_equal. unfold run_bytes. rewrite (proj2 (Z.ltb_lt _ _)) by lia.
      unfold sub. change (Z.to_nat 0) with 0%nat. rewrite drop_0, Z.sub_0_r. rewrite take_replicate. f_equal. fold rb. lia.
    + pose proof Hfit as (_ & Hc & Hbase & _). rewrite <-(Z.add_0_r (i64 (lcn r * clusterSize v))), read_run_part by
        (try done; rewrite ?len_app, ?len_replicate; lia). cbn [mbind go_bind r_err r_buf].
      rewrite <-Hgoal. f_equal. rewrite Z.add_0_l, sub_app_l by done. rewrite <-(assoc app). do 2 f_equal.
      unfold from. rewrite drop_app_ge by (unfold len in *; lia). rewrite drop_replicate. f_equal. unfold len in *. lia.
Qed.

(** The contents of an attribute of [n] bytes: what its runs do not cover is zero. *)
Definition run_data (runs : list run) (n : Z) : list Z := take (Z.to_nat n) (stream runs ++ replicate (Z.to_nat n) 0).

Lemma readRuns_ok runs n : runs_fit runs -> 0 <= n <= maxAlloc -> readRuns f v runs n = Ret (run_data runs n).
Proof.
  intros Hfit Hn. unfold readRuns. rewrite make_ok by lia. cbn [mbind go_bind].
  pose proof (read_runs_ok n runs Hfit ltac:(unfold maxAlloc in Hn; lia) []) as H. rewrite len_nil, Z.sub_0_r in H. destruct Hfit as (_ & _ & _ & Hs). apply H; lia.
Qed.

(** One run of [readRunsAt], from an offset inside it. *)
Lemma read_run_at r p n o c : run_fits r -> 0 < clusterSize v -> 0 <= base v -> 0 <= n -> 0 < c -> n + c <= len p -> len p < 2 ^ 63 ->
  0 <= o -> o + c <= run_length r * clusterSize v ->
  exists m, (if lcn r <? 0 then p ← fill (fun _ => 0) p n c; mret (mkR p 0 None)
   else read_range (partRead f v) p n (i64 (n + c)) (i64 (i64 (lcn r * clusterSize v) + o))) = Ret (mkR (p.[0, n] ++ (run_bytes r).[o, o + c] ++ from p (n + c)) m None).
Proof.
  intros Hr Hc Hb Hn Hc0 Hp Hp63 Ho Hoc. destruct (Z.ltb_spec (lcn r) 0) as [Hs|Hs].
  - rewrite fill_ok by lia. exists 0. cbn [mbind go_bind mret go_ret]. do 4 f_equal. unfold run_bytes. rewrite (proj2 (Z.ltb_lt _ _)) by lia.
    rewrite (span_const _ _ _ 0) by done. unfold sub. rewrite drop_replicate, take_replicate. f_equal. lia.
  - rewrite (i64_id (n + c)) by lia. exists c. rewrite <-read_run_part by (done || lia). f_equal.
    destruct Hr as (Hr & Hrl & Hd). specialize (Hd Hs). pose proof (dev_size (ra := f) (content := content)). rewrite (i64_id (lcn r * clusterSize v)), i64_id by nia. done.
Qed.

Lemma sub_app_skip {A} (a b : list A) lo hi : len a <= lo -> lo <= hi -> (a ++ b).[lo, hi] = b.[lo - len a, hi - len a].
Proof. intros. unfold sub. rewrite drop_app_ge by (unfold len in *; lia). f_equal; [lia|]. f_equal. unfold len in *. lia. Qed.
Lemma sub_app_within {A} (a b : list A) lo hi : 0 <= lo -> hi <= len a -> (a ++ b).[lo, hi] = a.[lo, hi].
Proof.
  intros. unfold sub. destruct (Z.le_gt_cases lo hi); [|by replace (Z.to_nat (hi - lo)) with 0%nat by lia].
  rewrite drop_app_le by (unfold len in *; lia). apply take_app_le. rewrite length_drop. unfold len in *. lia.
Qed.

Lemma read_runs_at_ok runs : runs_fit runs -> forall p clusterOff byteOffset n, 0 <= clusterOff <= byteOffset -> byteOffset < 2 ^ 63 ->
  clusterOff + len (stream runs) < 2 ^ 63 -> 0 <= n < len p -> len p < 2 ^ 63 ->
  let o := byteOffset - clusterOff in
  let k := Z.max 0 (Z.min (len p - n) (len (stream runs) - o)) in
  read_runs_at f v (len p) runs clusterOff byteOffset p n = Ret (mkR (p.[0, n] ++ (stream runs).[o, o + k] ++ from p (n + k)) (n + k) None).
Proof.
  induction runs as [|r runs IH]; intros Hfit p cOff bOff n Hco Hbo Htot Hn Hp o k; cbn [read_runs_at].
  - change (stream []) with (@nil Z) in *. assert (k = 0) as -> by (unfold k, o; change (len (@nil Z)) with 0; lia). unfold sub at 2. rewrite drop_nil, take_nil, app_nil_l.
    rewrite Z.add_0_r. by rewrite sub_app_from by lia.
  - destruct (runs_fit_cons r runs Hfit) as (Hr & Hrest & Hlr & Hpos & Hsum). destruct Hfit as (_ & Hc & Hb & _). pose proof (len_nonneg (stream runs)).
    set (rb := run_length r * clusterSize v) in *. assert (k = Z.max 0 (Z.min (len p - n) (rb + len (stream runs) - o))) as Hk by (unfold k; by rewrite stream_cons, len_app, Hlr).
    clearbody k. rewrite stream_cons, len_app, Hlr in *. rewrite (i64_id rb), (i64_id (cOff + rb)) by lia.
    destruct (Z.leb_spec (cOff + rb) bOff).
    + rewrite IH by (done || lia). cbv zeta. replace (bOff - (cOff + rb)) with (o - rb) by (unfold o; lia).
      assert (Z.max 0 (Z.min (len p - n) (len (stream runs) - (o - rb))) = k) as -> by lia.
      rewrite (sub_app_skip (run_bytes r)) by (unfold o in *; lia). rewrite Hlr. do 6 f_equal. lia.
    + fold o. rewrite (i64_id o) by (unfold o; lia). rewrite (proj2 (Z.ltb_ge o 0)) by (unfold o; lia). rewrite (i64_id (rb - o)), (i64_id (len p - n)) by (unfold o; lia).
      set (c := if len p - n <? rb - o then len p - n else rb - o). assert (0 < c <= rb - o /\ c <= len p - n /\ (c = len p - n \/ c = rb - o)) as (Hc1 & Hc2 & Hc3) by (unfold c, o; destruct_if; lia).
      destruct (read_run_at r p n o c) as (m & ->); [done|lia|lia|lia|lia|lia|lia|unfold o; lia|fold rb; lia|]. cbn [mbind go_bind r_err r_buf]. cbv zeta. rewrite !(i64_id (n + c)) by lia.
      set (p' := p.[0, n] ++ (run_bytes r).[o, o + c] ++ from p (n + c)).
      assert (len p' = len p) as Hp' by (unfold p'; rewrite !len_app, !len_sub, len_from by (unfold o in *; lia); lia).
      destruct (Z.leb_spec (len p) (n + c)).
      * assert (k = c) as -> by lia. unfold mret, go_ret. do 2 f_equal. unfold p'. do 2 f_equal. symmetry. apply sub_app_within; unfold o; lia.
      * rewrite i64_id by (unfold o in *; lia). rewrite <-Hp'. rewrite IH by (done || unfold o in *; lia). cbv zeta. rewrite Hp'.
        assert (bOff + c - (cOff + rb) = 0) as -> by (unfold o in *; lia). rewrite Z.sub_0_r, Z.add_0_l.
        set (k' := Z.max 0 (Z.min (len p - (n + c)) (len (stream runs)))). assert (k = c + k') as -> by (unfold k' in *; lia).
        do 2 f_equal; [|lia]. assert (p'.[0, n + c] = p.[0, n] ++ (run_bytes r).[o, rb]) as ->.
        { unfold p'. rewrite (assoc app). replace (o + c) with rb by lia. apply sub_app_l. rewrite len_app, !len_sub by (unfold o in *; lia). lia. }
        assert ((run_bytes r ++ stream runs).[o, o + (c + k')] = (run_bytes r).[o, rb] ++ (stream runs).[0, k']) as ->.
        { rewrite <-(sub_cat _ o rb) by (unfold o, k'; lia). f_equal; [apply sub_app_within; unfold o; lia|].
          rewrite sub_app_skip by (unfold k'; lia). f_equal; lia. }
        rewrite <-!(assoc app). do 3 f_equal. unfold p', from. rewrite (assoc app). rewrite drop_app_ge by (rewrite length_app; unfold sub, o in *; rewrite !length_take, !length_drop; unfold len in *; lia).
        rewrite drop_drop. f_equal. assert (len (p.[0, n] ++ (run_bytes r).[o, o + c]) = n + c) as E by (rewrite len_app, !len_sub by (unfold o in *; lia); lia).
        unfold len in E. lia.
Qed.

(** What is read at an offset is that part of the contents. *)
Lemma readRunsAt_ok runs off p : runs_fit runs -> 0 <= off < 2 ^ 63 -> 0 < len p < 2 ^ 63 ->
  let k := Z.max 0 (Z.min (len p) (len (stream runs) - off)) in
  readRunsAt f v runs off p = Ret (mkR ((stream runs).[off, off + k] ++ from p k) k None).
Proof.
  intros Hfit Ho Hp k. unfold readRunsAt. rewrite read_runs_at_ok by (try done; destruct Hfit as (_ & _ & _ & ?); lia).
  cbv zeta. rewrite !Z.sub_0_r. fold k. unfold sub at 1. rewrite Z.sub_0_r. done.
Qed.

End content.

(** ** The update sequence array *)

Lemma le16_bytes b o : 0 <= o -> o + 2 <= len b -> LE b.[o, o + 2] = byte_at b o + 256 * byte_at b (o + 1).
Proof.
  intros Ho Hl. replace (o + 2) with (o + 1 + 1) by lia. rewrite <-(sub_cat b o (o + 1)) by lia. rewrite <-!byte_at_sub by lia. cbn [app LE]. lia.
Qed.

Lemma get_from_ok (n : nat) b o : 0 <= o -> o + Z.of_nat n <= len b -> get_le (Z.of_nat n) b o (len b) = Ret (LE b.[o, o + Z.of_nat n]).
Proof.
  intros Ho Hl. unfold get_word. rewrite slice_ok by lia. cbn [mbind go_bind]. rewrite (proj2 (Z.ltb_ge _ _)) by (rewrite len_sub by lia; lia).
  rewrite sub_of_sub by lia. do 3 f_equal. lia.
Qed.
Lemma u16_ok b o : 0 <= o -> o + 2 <= len b -> u16_from b o = Ret (LE b.[o, o + 2]).
Proof. apply (get_from_ok 2). Qed.
Lemma u32_ok b o : 0 <= o -> o + 4 <= len b -> u32_from b o = Ret (LE b.[o, o + 4]).
Proof. apply (get_from_ok 4). Qed.
Lemma u64_ok b o : 0 <= o -> o + 8 <= len b -> u64_from b o = Ret (LE b.[o, o + 8]).
Proof. apply (get_from_ok 8). Qed.

Lemma put_from_ok b o x : 0 <= o -> o + len x <= len b -> put_word b o (len b) x = Ret (patch b o x).
Proof.
  intros Ho Hl. pose proof (len_nonneg x). unfold put_word. rewrite slice_ok by lia. cbn [mbind go_bind].
  by rewrite len_sub, (proj2 (Z.ltb_ge _ _)) by lia.
Qed.

(** The last two bytes of the sectors numbered [lo] to [hi - 1] from 1. *)
Definition in_tails (lo hi k : Z) : Prop := exists j, lo <= j < hi /\ (k = j * 512 - 2 \/ k = j * 512 - 1).
Definition in_usa (usaOff usaCnt k : Z) : Prop := usaOff <= k < usaOff + usaCnt * 2.

(** An array behind the header and before the end of the first sector, with an entry for
    the sequence number and for every sector it protects. *)
Definition usa_ok (usaOff usaCnt : Z) (buf : list Z) : Prop :=
  LE buf.[4, 6] = usaOff /\ LE buf.[6, 8] = usaCnt /\ 8 <= usaOff /\ 1 <= usaCnt /\ usaOff + usaCnt * 2 <= 510 /\ usaOff + usaCnt * 2 <= len buf.

Section usa.
Context (usaOff usaCnt seq : Z) (b1 : list Z).
Hypothesis Hoff : 8 <= usaOff /\ usaOff + usaCnt * 2 <= 510 /\ usaOff + usaCnt * 2 <= len b1.
Let m := Z.min (usaCnt - 1) (len b1 / 512).

Definition stamp_inv (i : Z) (S : list Z) : Prop :=
  1 <= i /\ len S = len b1 /\
  (forall j e, 1 <= j < i -> 0 <= e < 2 -> byte_at S (usaOff + j * 2 + e) = byte_at b1 (j * 512 - 2 + e)) /\
  (forall j, 1 <= j < i -> byte_at S (j * 512 - 2) = u8 seq /\ byte_at S (j * 512 - 1) = u8 (Z.shiftr seq 8)) /\
  (forall k, 0 <= k -> ~ in_usa usaOff usaCnt k -> ~ in_tails 1 i k -> byte_at S k = byte_at b1 k).

Lemma stamp_step i S : 1 <= i <= m -> stamp_inv i S ->
  exists S', stamp_sector usaOff usaCnt (len b1 / 512) seq (i, S) = Ret (inl (i + 1, S')) /\ stamp_inv (i + 1) S'.
Proof.
  intros Hi (_ & Hl & Hslots & Hseq & Hrest). unfold m in Hi. assert (i * 512 <= len b1) as Hpos by (pose proof (Z.div_mod (len b1) 512); pose proof (Z.mod_pos_bound (len b1) 512); lia).
  set (p := i * 512 - 2) in *. assert (508 <= p /\ p + 2 <= len b1 /\ p = i * 512 - 2) as (Hp1 & Hp2 & Hp) by (unfold p; lia). clearbody p.
  unfold stamp_sector. rewrite (proj2 (Z.ltb_lt i usaCnt)), (proj2 (Z.leb_le i _)) by lia. cbn [andb negb]. cbv zeta. rewrite <-Hp.
  rewrite (proj2 (Z.ltb_ge _ _)) by lia. rewrite index_byte_at by lia. cbn [mbind go_bind].
  rewrite store_ok by lia. cbn [mbind go_bind]. rewrite index_byte_at by (rewrite len_insert; lia). cbn [mbind go_bind]. rewrite byte_at_insert by lia.
  rewrite (proj2 (Z.eqb_neq (p + 1) _)) by lia. do 3 (rewrite store_ok by (rewrite !len_insert; lia); cbn [mbind go_bind]).
  eexists. split; [done|]. split; [lia|]. split; [by rewrite !len_insert|].
  assert (byte_at S p = byte_at b1 p /\ byte_at S (p + 1) = byte_at b1 (p + 1)) as [E0 E1].
  { split; apply Hrest; unfold in_usa, in_tails; try lia; intros (j & ? & ?); lia. }
  assert (forall k, 0 <= k -> byte_at (<[Z.to_nat (p + 1):=u8 (Z.shiftr seq 8)]> (<[Z.to_nat p:=u8 seq]> (<[Z.to_nat (usaOff + i * 2 + 1):=byte_at S (p + 1)]> (<[Z.to_nat (usaOff + i * 2):=byte_at S p]> S)))) k =
    if k =? p + 1 then u8 (Z.shiftr seq 8) else if k =? p then u8 seq else if k =? usaOff + i * 2 + 1 then byte_at b1 (p + 1) else if k =? usaOff + i * 2 then byte_at b1 p else byte_at S k) as Hall.
  { intros k Hk. rewrite !byte_at_insert by (rewrite ?len_insert; lia). by rewrite E0, E1. }
  split; [|split].
  - intros j e Hj He. rewrite Hall by lia. rewrite (proj2 (Z.eqb_neq _ (p + 1))), (proj2 (Z.eqb_neq _ p)) by lia.
    destruct (Z.eqb_spec (usaOff + j * 2 + e) (usaOff + i * 2 + 1)); [f_equal; lia|]. destruct (Z.eqb_spec (usaOff + j * 2 + e) (usaOff + i * 2)); [f_equal; lia|]. apply Hslots; lia.
  - intros j Hj. rewrite !Hall by lia. destruct (Z.eq_dec j i) as [->|].
    + rewrite <-Hp, Z.eqb_refl. replace (i * 512 - 1) with (p + 1) by lia. rewrite Z.eqb_refl. rewrite (proj2 (Z.eqb_neq p (p + 1))) by lia. done.
    + rewrite !(proj2 (Z.eqb_neq _ _)) by lia. apply Hseq. lia.
  - intros k Hk Hu Ht. rewrite Hall by lia. unfold in_usa in Hu.
    assert (k <> p /\ k <> p + 1) as [? ?] by (split; intros ->; apply Ht; exists i; lia).
    rewrite !(proj2 (Z.eqb_neq _ _)) by lia. apply Hrest; [done|done|]. intros (j & ? & ?). apply Ht. exists j. lia.
Qed.

Lemma stamp_end i S : i = m + 1 -> stamp_sector usaOff usaCnt (len b1 / 512) seq (i, S) = Ret (inr S).
Proof.
  intros ->. unfold stamp_sector. assert ((m + 1 <? usaCnt) && (m + 1 <=? len b1 / 512) = false) as ->; [|done].
  apply andb_false_iff. rewrite Z.ltb_ge, Z.leb_gt. unfold m. lia.
Qed.

Lemma stamp_loop n : forall fuel i S, m + 1 - i = Z.of_nat n -> (n < fuel)%nat -> stamp_inv i S ->
  exists S', go_for fuel (stamp_sector usaOff usaCnt (len b1 / 512) seq) (i, S) = Ret S' /\ stamp_inv (m + 1) S'.
Proof.
  induction n as [|n IH]; intros [|fuel] i S Hn Hf Hinv; [lia| |lia|]; cbn [go_for].
  - rewrite stamp_end by lia. exists S. split; [done|]. by replace (m + 1) with i by lia.
  - destruct (stamp_step i S) as (S' & -> & Hinv'); [destruct Hinv; lia|done|]. apply IH; [lia|lia|done].
Qed.

Definition apply_inv (i : Z) (T : list Z) : Prop :=
  1 <= i /\ len T = len b1 /\
  (forall j e, 1 <= j < m + 1 -> 0 <= e < 2 -> byte_at T (usaOff + j * 2 + e) = byte_at b1 (j * 512 - 2 + e)) /\
  (forall k, 0 <= k -> ~ in_usa usaOff usaCnt k -> ~ in_tails i (m + 1) k -> byte_at T k = byte_at b1 k).

Lemma stamp_then_apply S : stamp_inv (m + 1) S -> apply_inv 1 S.
Proof. intros (_ & Hl & Hslots & _ & Hrest). repeat split; auto. lia. Qed.

Lemma apply_step i T : 1 <= i <= m -> apply_inv i T ->
  exists T', apply_sector usaOff usaCnt (i, T) = Ret (inl (i + 1, T')) /\ apply_inv (i + 1) T'.
Proof.
  intros Hi (_ & Hl & Hslots & Hrest). assert (i * 512 <= len b1) as Hpos by (pose proof (Z.div_mod (len b1) 512); pose proof (Z.mod_pos_bound (len b1) 512); unfold m in Hi; lia).
  assert (m <= usaCnt - 1) as Hm by (unfold m; lia).
  set (p := i * 512 - 2) in *. assert (508 <= p /\ p + 2 <= len b1 /\ p = i * 512 - 2) as (Hp1 & Hp2 & Hp) by (unfold p; lia). clearbody p.
  unfold apply_sector. rewrite (proj2 (Z.ltb_lt i usaCnt)) by lia. cbn [negb]. cbv zeta. rewrite <-Hp.
  rewrite (proj2 (Z.ltb_ge _ _)) by lia. rewrite index_byte_at by lia. cbn [mbind go_bind].
  rewrite store_ok by lia. cbn [mbind go_bind]. rewrite index_byte_at by (rewrite len_insert; lia). cbn [mbind go_bind]. rewrite byte_at_insert by lia.
  rewrite (proj2 (Z.eqb_neq _ p)) by lia. rewrite store_ok by (rewrite len_insert; lia). cbn [mbind go_bind].
  eexists. split; [done|]. split; [lia|]. split; [by rewrite !len_insert|].
  pose proof (Hslots i 0 ltac:(lia) ltac:(lia)) as E0. pose proof (Hslots i 1 ltac:(lia) ltac:(lia)) as E1. rewrite <-Hp, !Z.add_0_r in *.
  split.
  - intros j e Hj He. rewrite !byte_at_insert by (rewrite ?len_insert; lia). rewrite !(proj2 (Z.eqb_neq _ _)) by lia. apply Hslots; lia.
  - intros k Hk Hu Ht. rewrite !byte_at_insert by (rewrite ?len_insert; lia).
    destruct (Z.eqb_spec k (p + 1)) as [->|]; [done|]. destruct (Z.eqb_spec k p) as [->|]; [done|].
    apply Hrest; [done|done|]. intros (j & ? & ?). apply Ht. exists j. lia.
Qed.

Lemma apply_end i T : i = m + 1 -> len T = len b1 -> apply_sector usaOff usaCnt (i, T) = Ret (inr T).
Proof.
  intros -> Hl. unfold apply_sector. destruct (Z.ltb_spec (m + 1) usaCnt); cbn [negb]; [|done]. cbv zeta. rewrite (proj2 (Z.ltb_lt _ _)); [done|].
  rewrite Hl. pose proof (Z.div_mod (len b1) 512). pose proof (Z.mod_pos_bound (len b1) 512). unfold m in *. lia.
Qed.

Lemma apply_loop n : forall fuel i T, m + 1 - i = Z.of_nat n -> (n < fuel)%nat -> apply_inv i T ->
  exists T', go_for fuel (apply_sector usaOff usaCnt) (i, T) = Ret T' /\ apply_inv (m + 1) T'.
Proof.
  induction n as [|n IH]; intros [|fuel] i T Hn Hf Hinv; [lia| |lia|]; cbn [go_for].
  - rewrite apply_end by (lia || apply Hinv). exists T. split; [done|]. by replace (m + 1) with i by lia.
  - destruct (apply_step i T) as (T' & -> & Hinv'); [destruct Hinv; lia|done|]. apply IH; [lia|lia|done].
Qed.
End usa.

Lemma stamp_then_read buf usaOff usaCnt : bytes_ok buf -> usa_ok usaOff usaCnt buf ->
  exists stamped back seq, stampUSA buf (len buf / 512) = Ret stamped /\ applyUSA stamped = Ret back /\ 0 < seq < 2 ^ 16 /\
    (forall j, 1 <= j <= Z.min (usaCnt - 1) (len buf / 512) -> byte_at stamped (j * 512 - 2) + 256 * byte_at stamped (j * 512 - 1) = seq) /\
    len stamped = len buf /\ (forall k, 0 <= k -> ~ in_usa usaOff usaCnt k -> ~ in_tails 1 usaCnt k -> byte_at stamped k = byte_at buf k) /\
    len back = len buf /\ forall k, 0 <= k -> ~ in_usa usaOff usaCnt k -> byte_at back k = byte_at buf k.
Proof.
  intros Hb (Ho & Hc & H8 & H1 & H510 & Hl). pose proof (Z.div_pos (len buf) 512 ltac:(lia) ltac:(lia)) as Hsec.
  unfold stampUSA. rewrite (proj2 (Z.ltb_ge _ _)), !u16_ok by lia. cbn [mbind go_bind]. change (4 + 2) with 6. change (6 + 2) with 8. rewrite Ho, Hc, (proj2 (Z.eqb_neq _ _)), (proj2 (Z.ltb_ge _ _)), u16_ok by lia. cbn [orb mbind go_bind]. cbv zeta.
  set (s0 := u16 (_ + 1)). set (seq := if s0 =? 0 then 1 else s0).
  assert (0 < seq < 2 ^ 16) as Hseq by (pose proof (wrap_u_range 16 (LE buf.[usaOff, usaOff + 2] + 1)); unfold seq; destruct_if; unfold s0 in *; lia).
  clearbody seq. unfold put_u16. rewrite put_from_ok by (rewrite ?len_put_le; lia). cbn [mbind go_bind].
  set (b1 := patch buf usaOff (put_le 2 seq)). assert (len b1 = len buf) as Hl1 by (unfold b1; rewrite patch_len; rewrite ?len_put_le; lia).
  assert (forall k, 0 <= k -> ~ in_usa usaOff usaCnt k -> byte_at b1 k = byte_at buf k) as Hb1.
  { intros k Hk Hu. unfold b1. rewrite byte_at_patch by (rewrite ?len_put_le; lia). rewrite len_put_le. unfold in_usa in Hu.
    destruct (Z.leb_spec usaOff k), (Z.ltb_spec k (usaOff + Z.of_nat 2)); cbn [andb]; try done. lia. }
  rewrite <-Hl1 in *. set (m := Z.min (usaCnt - 1) (len b1 / 512)).
  destruct (stamp_loop usaOff usaCnt seq b1 ltac:(lia) (Z.to_nat m) (S (Z.to_nat usaCnt)) 1 b1) as (stamped & -> & Hs); [unfold m; lia|unfold m; lia| |].
  { split; [lia|]. split; [done|]. split; [lia|]. split; [lia|]. done. }
  destruct (apply_loop usaOff usaCnt b1 ltac:(lia) (Z.to_nat m) (S (Z.to_nat usaCnt)) 1 stamped ltac:(unfold m; lia) ltac:(unfold m; lia) (stamp_then_apply _ _ _ _ stamped Hs)) as (back & Eb & Hi).
  destruct Hs as (_ & Hls & _ & Htail & Hrest). destruct Hi as (_ & Hlb & _ & Hback).
  assert (forall o, 0 <= o <= 6 -> LE stamped.[o, o + 2] = LE buf.[o, o + 2]) as Hhead.
  { intros o Hoo. rewrite !le16_bytes by lia. do 2 (rewrite Hrest; [|lia|unfold in_usa; lia|intros (j & ? & ?); lia]). by rewrite !Hb1 by (unfold in_usa; lia). }
  exists stamped, back, seq. split; [done|]. split.
  { unfold applyUSA. rewrite (proj2 (Z.ltb_ge _ _)), !u16_ok by lia. cbn [mbind go_bind].
    rewrite (Hhead 4), (Hhead 6) by lia. change (4 + 2) with 6. change (6 + 2) with 8. rewrite Ho, Hc, (proj2 (Z.eqb_neq _ _)), (proj2 (Z.ltb_ge _ _)) by lia. exact Eb. }
  split; [done|]. split.
  { intros j Hj. destruct (Htail j) as [-> ->]; [unfold m; lia|]. unfold wrap_u. rewrite Z.shiftr_div_pow2 by lia. change (2 ^ 8) with 256.
    rewrite (Z.mod_small (seq / 256)) by (split; [apply Z.div_pos; lia|apply Z.div_lt_upper_bound; lia]). pose proof (Z.div_mod seq 256). lia. }
  split; [lia|]. split.
  { intros k Hk Hu Ht. rewrite Hrest; [by apply Hb1|done|done|]. intros (j & ? & ?). apply Ht. exists j. split; [|done]. unfold m in *. lia. }
  split; [lia|]. intros k Hk Hu. rewrite Hback by (try done; intros (j & ? & ?); lia). by apply Hb1.
Qed.

(** C30. A record that is stamped for the disk and then read has its bytes back outside
    the update sequence array; on the disk every sector it protects ends with the sequence
    number, which is never zero, and everything outside the array and these ends is as in
    the record. *)
Theorem ntfs_usa_roundtrip buf usaOff usaCnt : bytes_ok buf -> usa_ok usaOff usaCnt buf ->
  exists stamped back seq, stampUSA buf (len buf / 512) = Ret stamped /\ applyUSA stamped = Ret back /\ 0 < seq < 2 ^ 16 /\
    (forall j, 1 <= j <= Z.min (usaCnt - 1) (len buf / 512) -> byte_at stamped (j * 512 - 2) + 256 * byte_at stamped (j * 512 - 1) = seq) /\
    len stamped = len buf /\ (forall k, 0 <= k -> ~ in_usa usaOff usaCnt k -> ~ in_tails 1 usaCnt k -> byte_at stamped k = byte_at buf k) /\
    len back = len buf /\ forall k, 0 <= k -> ~ in_usa usaOff usaCnt k -> byte_at back k = byte_at buf k.
Proof. apply stamp_then_read. Qed.

Definition sample_record : list Z := patch (patch (replicate 1024 7) 0 (lit "FILE")) 4 (put_le 2 0x30 ++ put_le 2 3).

Lemma ntfs_usa_roundtrip_witness :
  exists stamped back seq, stampUSA sample_record 2 = Ret stamped /\ applyUSA stamped = Ret back /\ 0 < seq < 2 ^ 16 /\
    byte_at stamped 510 + 256 * byte_at stamped 511 = seq /\ byte_at back 510 = 7.
Proof.
  destruct (ntfs_usa_roundtrip sample_record 0x30 3) as (stamped & back & seq & Hs & Hb & Hq & Ht & _ & _ & _ & Hk).
  - apply bytes_okb_ok. by vm_compute.
  - vm_compute. repeat split; discriminate.
  - exists stamped, back, seq. split; [exact Hs|]. split; [exact Hb|]. split; [exact Hq|]. split; [exact (Ht 1 ltac:(vm_compute; split; discriminate))|].
    rewrite Hk by (unfold in_usa; lia). by vm_compute.
Defined.
