(* ===== verification/NtfsFile.v ===== *)
(** * NtfsFile: file information and open files of NTFS volumes (ntfs/meta.go, ntfs/read.go)
    What the attributes of a record say about a file, and reading an open file, whose data
    are resident or in runs. *)
From S2P Require Import Prelude Bytes ReaderAt Text Utf16 NtfsRuns Ntfs.

(** ** Times

    A time is its nanoseconds since the Unix epoch. *)
Definition filetimeDelta : Z := 116444736000000000.
Definition zero_time : Z := - 62135596800 * 10 ^ 9.

Definition filetimeToTime (ft : Z) : Z :=
  if ft =? 0 then zero_time else i64 (i64 (ft - filetimeDelta) * 100).
Definition timeToFiletime (t : Z) : Z :=
  if t =? zero_time then 0 else i64 (Z.quot (i64 t) 100 + filetimeDelta).

(** ** File information *)

Record ntfsFileInfo := mkInfo { i_name : gostring; i_size : Z; i_mode : Z; i_modTime : Z; i_isDir : bool }.

Definition ModeDir : Z := 2 ^ 31.
Definition fileAttrsToMode (fa : Z) (isDir : bool) : Z :=
  let mode := if isDir then Z.lor 493 ModeDir else 420 in
  if has fa faReadOnly then and_not mode 146 else mode.

Section volume.
Context (f : reader).

(** One round of [bestFileName]: the best name so far. *)
Definition best_round (v : ntfsVolume) (rec : list Z) '(off, best) : go (Z * gostring + gostring) :=
  if negb (off + 8 <=? len rec) then mret (inr best) else
  t ← u32_from rec off;
  if t =? attrEND then mret (inr best) else
  attrLen ← u32_from rec (off + 4);
  if (attrLen <=? 0) || (len rec <? off + attrLen) then mret (inr best) else
  best ← (if t =? attrFILE_NAME then
            attr ← slice rec off (off + attrLen);
            r ← catch (attrValue f v attr);
            match r with
            | inr _ => mret best
            | inl val =>
                if 66 <=? len val then
                  ns ← index val 65;
                  if ns =? 2 then mret best else
                  nameLen ← index val 64;
                  if 66 + nameLen * 2 <=? len val then
                    candidate ← utf16_string val 66 nameLen;
                    mret (if (ns =? 1) || (ns =? 3) || bool_decide (best = []) then candidate else best)
                  else mret best
                else mret best
            end
          else mret best);
  mret (inl (off + attrLen, best)).

Definition bestFileName (v : ntfsVolume) (rec : list Z) : go gostring :=
  off ← u16_from rec 0x14;
  go_for (S (length rec)) (best_round v rec) (off, []).

Definition recordInfo (v : ntfsVolume) (rec : list Z) (name : gostring) : go ntfsFileInfo :=
  recFlags ← u16_from rec 0x16;
  let isDir := has recFlags mftFlagDir in
  si ← findAttr rec attrSTANDARD_INFORMATION [];
  '(modTime, fileAttrs) ← match si with
    | None => mret (zero_time, 0)
    | Some si =>
        r ← catch (attrValue f v si);
        match r with
        | inl val =>
            if 0x24 <=? len val then
              t ← u64_from val 0x08;
              fa ← u32_from val 0x20;
              mret (filetimeToTime (i64 t), fa)
            else mret (zero_time, 0)
        | inr _ => mret (zero_time, 0)
        end
    end;
  size ← (if isDir then mret 0 else
    dataAttr ← findAttr rec attrDATA [];
    match dataAttr with
    | None => mret 0
    | Some a =>
        nonResident ← index a 8;
        if nonResident =? 0 then u32_from a 0x10 else s ← u64_from a 0x30; mret (i64 s)
    end);
  let mode := fileAttrsToMode fileAttrs isDir in
  name ← (if bool_decide (name = []) then bestFileName v rec else mret name);
  mret (mkInfo name size mode modTime isDir).

(** ** Open files *)

(** [runs] and [resData] are nil when empty. *)
Record ntfsFile := mkFile {
  f_mftNum : Z; f_info : ntfsFileInfo; f_runs : list run; resData : list Z;
  f_size : Z; pos : Z; writable : bool; f_isDir : bool; writeBuf : list Z }.

Definition at_pos (nf : ntfsFile) p := mkFile (f_mftNum nf) (f_info nf) (f_runs nf) (resData nf) (f_size nf) p (writable nf) (f_isDir nf) (writeBuf nf).

Definition openRecord (v : ntfsVolume) (mftNum : Z) (rec : list Z) (name : gostring) (wr : bool) : go ntfsFile :=
  recFlags ← u16_from rec 0x16;
  let isDir := has recFlags mftFlagDir in
  fi ← recordInfo v rec name;
  let closed := mkFile mftNum fi [] [] 0 0 wr isDir [] in
  if isDir then mret closed else
  dataAttr ← findAttr rec attrDATA [];
  match dataAttr with
  | None => mret closed
  | Some a =>
      nonResident ← index a 8;
      if nonResident =? 0 then
        r ← catch (attrValue f v a);
        let data := match r with inl d => d | inr _ => [] end in
        mret (mkFile mftNum fi [] data (len data) 0 wr isDir [])
      else
        rlOff ← u16_from a 0x20;
        sz ← u64_from a 0x30;
        runs ← (if rlOff <? len a then
                  rl ← slice a rlOff (len a);
                  r ← catch (decodeRunlist rl);
                  mret (match r with inl runs => runs | inr _ => [] end)
                else mret []);
        mret (mkFile mftNum fi runs [] (i64 sz) 0 wr isDir [])
  end.

(** The data at the position into a buffer of [n] bytes: from the runs, or from memory. *)
Definition read_data (v : ntfsVolume) (nf : ntfsFile) (q : list Z) (n : Z) : go rres :=
  match f_runs nf with
  | [] =>
      let e := i64 (pos nf + n) in
      let e := if len (resData nf) <? e then len (resData nf) else e in
      src ← slice (resData nf) (pos nf) e;
      let k := Z.min (len q) (len src) in
      mret (mkR (patch q 0 src.[0, k]) k None)
  | runs => readRunsAt f v runs (pos nf) q
  end.

(** The file afterwards, the buffer, the count and the error. *)
Definition Read (v : ntfsVolume) (nf : ntfsFile) (p : list Z) : go (ntfsFile * rres) :=
  if f_isDir nf then mret (nf, mkR p 0 (Some (Errorf "read: is a directory"))) else
  if f_size nf <=? pos nf then mret (nf, mkR p 0 (Some EOF)) else
  let remaining := i64 (f_size nf - pos nf) in
  let n := if remaining <? len p then remaining else len p in
  q ← slice p 0 n;
  res ← read_data v nf q n;
  let nf := at_pos nf (i64 (pos nf + r_n res)) in
  let err := match r_err res with
             | None => if f_size nf <=? pos nf then Some EOF else None
             | e => e
             end in
  mret (nf, mkR (r_buf res ++ from p n) (r_n res) err).

Definition Write (nf : ntfsFile) (p : list Z) : go (ntfsFile * Z) :=
  if negb (writable nf) then Err (Errorf "write: file not opened for writing") else
  let needed := i64 (pos nf + len p) in
  nb ← (if len (writeBuf nf) <? needed then
          nb ← make 0 1 needed;
          mret (patch nb 0 (take (Z.to_nat needed) (writeBuf nf)))
        else mret (writeBuf nf));
  dst ← slice nb (pos nf) (len nb);
  let nb := patch nb (pos nf) (take (Z.to_nat (len dst)) p) in
  let pos' := i64 (pos nf + len p) in
  mret (mkFile (f_mftNum nf) (f_info nf) (f_runs nf) (resData nf) (if f_size nf <? pos' then pos' else f_size nf) pos' (writable nf) (f_isDir nf) nb, len p).

Inductive whence := SeekStart | SeekCurrent | SeekEnd | OtherWhence.

Definition Seek (nf : ntfsFile) (offset : Z) (w : whence) : go (ntfsFile * Z) :=
  newPos ← (match w with
            | SeekStart => mret offset
            | SeekCurrent => mret (i64 (pos nf + offset))
            | SeekEnd => mret (i64 (f_size nf + offset))
            | OtherWhence => Err (Errorf "seek: invalid whence %d")
            end);
  if newPos <? 0 then Err (Errorf "seek: negative position") else
  mret (at_pos nf newPos, newPos).
End volume.

(** ** Reading whole and in pieces *)

#[local] Ltac destruct_if_in H := match type of H with context [if ?b then _ else _] => let E := fresh "Htest" in destruct b eqn:E end.

Section reading.
Context (f : reader) (fsize : Z) (content : Z -> Z) `{!Device f fsize content} (v : ntfsVolume).

(** What the runs of an attribute that is not resident must be for its data to be on the
    device: every run inside it, and together at least the size of the data. *)
Definition covered (a : list Z) : Prop :=
  byte_at a 8 <> 0 -> forall runs, decodeRunlist (from a (LE a.[0x20, 0x22])) = Ret runs ->
    runs_fit fsize content v runs /\ i64 (LE a.[0x30, 0x38]) <= len (stream content v runs).

(** An open file whose data are [data]. *)
Definition opened (nf : ntfsFile) (data : list Z) : Prop :=
  f_isDir nf = false /\ f_size nf = len data /\ len data <= maxAlloc /\
  (f_runs nf = [] /\ resData nf = data \/
   f_runs nf <> [] /\ runs_fit fsize content v (f_runs nf) /\ len data <= len (stream content v (f_runs nf)) /\ data = (stream content v (f_runs nf)).[0, len data]).

Lemma make_Ret {A} (z : A) sz n l : make z sz n = Ret l -> 0 <= n /\ n * sz <= maxAlloc /\ l = replicate (Z.to_nat n) z.
Proof. unfold make. destruct (Z.ltb_spec n 0); [done|]. cbn [orb]. destruct (Z.ltb_spec maxAlloc (n * sz)); [done|]. intros [= <-]. done. Qed.

Lemma catch_of {A} (m : go A) a r : m = Ret a -> catch m = Ret r -> r = inl a.
Proof. intros ->. by intros [= <-]. Qed.

Lemma resident_len a data : byte_at a 8 = 0 -> attrValue f v a = Ret data -> len data <= maxAlloc.
Proof.
  intros Hr. unfold attrValue. destruct (Z.ltb_spec (len a) 16); [done|]. rewrite index_byte_at by lia. cbn [mbind go_bind]. rewrite Hr. cbn [Z.eqb].
  intros (valLen & _ & Hv)%bind_Ret. apply bind_Ret in Hv as (valOff & _ & Hv). destruct_if_in Hv; [done|]. apply bind_Ret in Hv as (out & Hm & Hv). apply make_Ret in Hm as (? & ? & ->).
  apply bind_Ret in Hv as (src & _ & Hv). injection Hv as <-. rewrite patch_len; rewrite ?len_replicate; [lia|lia|]. unfold len. rewrite length_take. lia.
Qed.

Lemma openRecord_ok mftNum rec name wr nf flags a data : openRecord f v mftNum rec name wr = Ret nf ->
  u16_from rec 0x16 = Ret flags -> has flags mftFlagDir = false -> findAttr rec attrDATA [] = Ret (Some a) ->
  attrValue f v a = Ret data -> covered a -> opened nf data /\ pos nf = 0.
Proof.
  intros Ho Hf Hd Ha Hv Hc. unfold openRecord in Ho. rewrite Hf in Ho. cbn [mbind go_bind] in Ho. cbv zeta in Ho. apply bind_Ret in Ho as (fi & _ & Ho). rewrite Hd, Ha in Ho. cbn [mbind go_bind] in Ho.
  destruct (Z.ltb_spec (len a) 16) as [|Hl]; [unfold attrValue in Hv; by rewrite (proj2 (Z.ltb_lt _ _)) in Hv by done|].
  rewrite index_byte_at in Ho by lia. cbn [mbind go_bind] in Ho. destruct (Z.eqb_spec (byte_at a 8) 0) as [Hr|Hr].
  - rewrite Hv in Ho. injection Ho as <-. split; [|done]. split; [done|]. split; [done|]. split; [by apply (resident_len a)|]. by left.
  - specialize (Hc Hr). unfold attrValue in Hv. rewrite (proj2 (Z.ltb_ge _ _)), index_byte_at in Hv by lia. cbn [mbind go_bind] in Hv.
    rewrite (proj2 (Z.eqb_neq _ _)) in Hv by done. destruct (Z.ltb_spec (len a) 0x40); [done|]. rewrite u64_ok, u16_ok in Hv by lia. rewrite u64_ok, u16_ok in Ho by lia. cbn [mbind go_bind] in Hv, Ho. cbv zeta in Hv.
    change (32 + 2) with 34 in *. change (48 + 8) with 56 in *.
    set (rlOff := LE a.[32, 34]) in *. destruct (Z.leb_spec (len a) rlOff); [done|]. rewrite (proj2 (Z.ltb_lt _ _)) in Ho by lia.
    apply bind_Ret in Hv as (rl & Hsl & Hv). rewrite Hsl in Ho. cbn [mbind go_bind] in Ho. apply bind_Ret in Hv as (runs & Hdec & Hv). rewrite Hdec in Ho. cbn [catch mbind go_bind mret go_ret] in Ho. injection Ho as <-.
    assert (rl = from a rlOff) as ->.
    { unfold slice in Hsl. destruct_if_in Hsl; [|done]. injection Hsl as <-. destruct (sub_from a rlOff) as [|]; [done|lia]. }
    destruct (Hc runs Hdec) as [Hfit Hcov]. set (n := i64 (LE a.[48, 56])) in *.
    assert (0 <= n <= maxAlloc) as Hn by (unfold readRuns in Hv; apply bind_Ret in Hv as (out & Hm & _); apply make_Ret in Hm; lia).
    rewrite (readRuns_ok f fsize content v runs n Hfit Hn) in Hv. injection Hv as <-.
    assert (run_data content v runs n = (stream content v runs).[0, n]) as Hdata.
    { unfold run_data, sub. rewrite Z.sub_0_r, take_app_le by (unfold len in Hcov; lia). done. }
    assert (len (run_data content v runs n) = n) as Hlen by (rewrite Hdata, len_sub by lia; lia).
    split; [|done]. split; [done|]. split; [done|]. split; [lia|]. cbn [f_runs resData]. destruct runs as [|r runs].
    + left. split; [done|]. rewrite Hdata. change (stream content v []) with (@nil Z). unfold sub. by rewrite drop_nil, take_nil.
    + right. split; [done|]. split; [done|]. rewrite Hlen. split; [done|]. exact Hdata.
Qed.

(** A read of an open file returns the part of its data at the position, and reports the
    end with the last of them. *)
Lemma Read_ok nf data p : opened nf data -> 0 <= pos nf -> pos nf + len p < 2 ^ 63 -> 0 < len p ->
  let n := Z.max 0 (Z.min (len p) (len data - pos nf)) in
  Read f v nf p = Ret (at_pos nf (pos nf + n), mkR (data.[pos nf, pos nf + n] ++ from p n) n (if len data <=? pos nf + n then Some EOF else None)).
Proof.
  intros (Hd & Hs & Hmax & Hdata) Hpos Hp63 Hp n. pose proof (len_nonneg data). unfold maxAlloc in Hmax. unfold Read. rewrite Hd, Hs.
  destruct (Z.leb_spec (len data) (pos nf)).
  { assert (n = 0) as -> by (unfold n; lia). rewrite Z.add_0_r. rewrite (proj2 (Z.leb_le _ _)) by lia. unfold sub. rewrite Z.sub_diag. cbn [Z.to_nat take]. by destruct nf. }
  rewrite (i64_id (len data - pos nf)) by lia. assert ((if len data - pos nf <? len p then len data - pos nf else len p) = n) as -> by (unfold n; destruct_if; lia).
  assert (0 < n <= len p /\ pos nf + n <= len data) as [Hn Hnd] by (unfold n; lia). rewrite (slice_ok p 0 n) by lia. cbn [mbind go_bind].
  enough (read_data f v nf p.[0, n] n = Ret (mkR data.[pos nf, pos nf + n] n None)) as E.
  { rewrite E. cbn [mbind go_bind r_n r_err r_buf]. cbv zeta. rewrite i64_id by lia. cbn [pos f_size at_pos]. by rewrite Hs. }
  unfold read_data. destruct Hdata as [[-> ->]|(Hne & Hfit & Hcov & Hst)].
  - rewrite i64_id by lia. rewrite (proj2 (Z.ltb_ge _ _)), slice_ok by lia. cbn [mbind go_bind]. rewrite !len_sub by lia.
    replace (Z.min (n - 0) (pos nf + n - pos nf)) with n by lia. unfold mret, go_ret. do 2 f_equal.
    rewrite sub_of_sub by lia. rewrite Z.add_0_r. unfold patch. rewrite len_sub by lia. unfold from. rewrite drop_ge by (rewrite length_len, len_sub by lia; lia).
    rewrite app_nil_r. done.
  - assert (0 < len p.[0, n] < 2 ^ 63) as Hq by (rewrite len_sub by lia; lia).
    assert (len p.[0, n] = n) as Hqn by (rewrite len_sub by lia; lia).
    destruct (f_runs nf) as [|r runs] eqn:Er; [done|]. rewrite (readRunsAt_ok f fsize content v) by (done || lia). rewrite Hqn.
    replace (Z.max 0 (Z.min n (len (stream content v (r :: runs)) - pos nf))) with n by lia. do 2 f_equal.
    unfold from. rewrite drop_ge by (rewrite length_len, Hqn; lia). rewrite app_nil_r, Hst. rewrite sub_of_sub by lia. done.
Qed.

(** A client that reads with one buffer after the other until the end is reported: what it
    received, and whether it saw the end. *)
Fixpoint drain (nf : ntfsFile) (bufs : list (list Z)) : go (list Z * bool) :=
  match bufs with
  | [] => mret ([], false)
  | p :: bufs' =>
      '(nf, res) ← Read f v nf p;
      let got := (r_buf res).[0, r_n res] in
      match r_err res with
      | None => '(rest, ended) ← drain nf bufs'; mret (got ++ rest, ended)
      | Some EOF => mret (got, true)
      | Some e => Err e
      end
  end.

Lemma drain_ok data bufs : forall nf, opened nf data -> 0 <= pos nf <= len data -> Forall (fun p => 0 < len p <= maxAlloc) bufs ->
  len data - pos nf < len bufs -> drain nf bufs = Ret (from data (pos nf), true).
Proof.
  induction bufs as [|p bufs IH]; intros nf Hop Hpos Hb Hl; [rewrite len_nil in Hl; lia|]. apply Forall_cons in Hb as [Hp Hb]. rewrite len_cons in Hl.
  pose proof Hop as (_ & _ & Hmax & _). unfold maxAlloc in *. cbn [drain]. rewrite (Read_ok nf data p) by (done || lia). cbn [mbind go_bind r_buf r_n r_err]. cbv zeta.
  set (n := Z.max 0 (Z.min (len p) (len data - pos nf))). assert (0 <= n /\ pos nf + n <= len data /\ (pos nf < len data -> 0 < n)) as (Hn & Hnd & Hn0) by (unfold n; lia).
  rewrite sub_app_l by (rewrite len_sub by lia; lia). destruct (Z.leb_spec (len data) (pos nf + n)).
  - unfold mret, go_ret. do 2 f_equal. destruct (sub_from data (pos nf)) as [<-|]; [f_equal; lia|lia].
  - rewrite IH; [|done|cbn [pos at_pos]; lia|done|cbn [pos at_pos]; lia]. cbn [mbind go_bind pos at_pos mret go_ret]. do 2 f_equal.
    rewrite <-(sub_app_from (from data (pos nf)) n) by lia. rewrite from_from by lia. f_equal. unfold sub, from. rewrite drop_drop. f_equal; [lia|]. f_equal; lia.
Qed.

(** C24. Reading a file through its handle ends, and gives what reading it whole gives. For a
    file, not a directory, whose data attribute can be read and is resident or in runs, sparse
    ones included, which lie inside the device and together are at least as long as the data
    (where they are shorter, reading through a handle does not end: [short_runs_stall]), a
    reader that goes on with buffers of any sizes, none of them empty, sees the end after at
    most one more read than the file has bytes, and has received exactly the value of the
    data attribute. *)
Theorem ntfs_read_to_end mftNum rec name wr nf flags a data bufs :
  openRecord f v mftNum rec name wr = Ret nf -> u16_from rec 0x16 = Ret flags -> has flags mftFlagDir = false ->
  findAttr rec attrDATA [] = Ret (Some a) -> attrValue f v a = Ret data -> covered a ->
  Forall (fun p => 0 < len p <= maxAlloc) bufs -> len data < len bufs -> drain nf bufs = Ret (data, true).
Proof.
  intros Ho Hf Hd Ha Hv Hc Hb Hl. destruct (openRecord_ok mftNum rec name wr nf flags a data Ho Hf Hd Ha Hv Hc) as [Hop Hp].
  pose proof (len_nonneg data). rewrite (drain_ok data) by (rewrite ?Hp; done || lia). by rewrite Hp, from_0.
Qed.
End reading.

(** ** A file of two runs with a hole between them *)

Definition sample_disk : list Z := seqZ 0 64.
#[local] Instance sample_disk_device : Device (file_reader sample_disk) 64 (file_content sample_disk).
Proof. apply (file_device sample_disk); [apply bytes_okb_ok; by vm_compute|by vm_compute]. Qed.
Definition sample_volume : ntfsVolume := mkVolume 0 64 8 1024 4096 0 8 ∅ [] [] false.
Definition sample_attr : list Z :=
  put_le 4 attrDATA ++ put_le 4 0x50 ++ [1] ++ replicate 23 0 ++ put_le 2 0x40 ++ replicate 14 0 ++ put_le 8 20 ++ put_le 8 20 ++
  [0x11; 1; 2; 0x01; 1; 0x11; 1; 3; 0; 0; 0; 0; 0; 0; 0; 0].
Definition sample_file_record : list Z :=
  lit "FILE" ++ replicate 16 0 ++ put_le 2 0x38 ++ put_le 2 mftFlagInUse ++ replicate 32 0 ++ sample_attr ++ put_le 4 attrEND ++ replicate 4 0.

Lemma ntfs_read_to_end_witness : exists nf,
  openRecord (file_reader sample_disk) sample_volume 30 sample_file_record (lit "a") false = Ret nf /\
  drain (file_reader sample_disk) sample_volume nf (replicate 21 (replicate 7 99)) = Ret (seqZ 16 8 ++ replicate 8 0 ++ seqZ 40 4, true).
Proof.
  destruct (openRecord (file_reader sample_disk) sample_volume 30 sample_file_record (lit "a") false) as [nf| | |] eqn:E; vm_compute in E; try discriminate E.
  exists nf. split; [done|]. injection E as <-.
  apply (ntfs_read_to_end (file_reader sample_disk) 64 (file_content sample_disk) sample_volume 30 sample_file_record (lit "a") false _ 1 sample_attr).
  - by vm_compute.
  - by vm_compute.
  - by vm_compute.
  - by vm_compute.
  - by vm_compute.
  - intros _ runs Hr. vm_compute in Hr. injection Hr as <-. split; [|vm_compute; discriminate]. split; [|by vm_compute].
    repeat constructor; unfold run_fits; cbn; lia.
  - apply Forall_replicate. by vm_compute.
  - by vm_compute.
Defined.

(** ** Observations *)

Definition sample_handle (runs : list run) (sz p : Z) : ntfsFile := mkFile 30 (mkInfo [] sz 420 zero_time false) runs [] sz p false false [].

(** When the runs are shorter than the size, the file read whole ends with zeros, but its
    handle returns no bytes and no error from there on. *)
Example short_runs_zeros : readRuns (file_reader sample_disk) sample_volume [mkRun 2 1] 12 = Ret (seqZ 16 8 ++ replicate 4 0).
Proof. by vm_compute. Qed.
Example short_runs_stall : (fun r => (r_n r.2, r_err r.2, pos r.1)) <$> Read (file_reader sample_disk) sample_volume (sample_handle [mkRun 2 1] 12 8) (replicate 4 99) = Ret (0, None, 8).
Proof. by vm_compute. Qed.

(** A size or a length that the run list gives as negative. *)
Example negative_size_panics : readRuns (file_reader sample_disk) sample_volume [] (-1) = Panic MakeLenOutOfRange.
Proof. done. Qed.
Example negative_run_panics : readRuns (file_reader sample_disk) sample_volume [mkRun 1 (-1)] 10 = Panic SliceOutOfRange.
Proof. by vm_compute. Qed.

(** No runs at all, and a position behind the start. *)
Example no_runs_panics : Read (file_reader sample_disk) sample_volume (sample_handle [] 100 10) [0] = Panic SliceOutOfRange.
Proof. by vm_compute. Qed.

(** A date of 1601, the first that a file time can name, comes out in 2185. *)
Example early_date_wraps : filetimeToTime 1 = 6802270473709551716.
Proof. by vm_compute. Qed.

(** The size of a record is not checked: -48 in the boot sector asks for 2^48 bytes, and
    -63 for a negative size. *)
Example record_size_unchecked : derived_size (256 - 63) 4096 1024 = - 2 ^ 63.
Proof. by vm_compute. Qed.
