(* ===== verification/NtfsAlloc.v ===== *)
(** * NtfsAlloc: the cluster bitmap of NTFS volumes (ntfs/alloc.go)
    Allocating clusters, one run where the volume has one and piecewise otherwise, and
    freeing them. *)
From S2P Require Import Prelude Bytes ReaderAt NtfsRuns Ntfs Bitmap.

Definition volume_full : error := Errorf "no free clusters (volume full)".

(** [bm[i] |= 1 << uint(bit)] *)
Definition or_bit (bm : list Z) (i bit : Z) : go (list Z) :=
  b ← index bm i; store bm i (Z.lor b (u8 (Z.shiftl 1 bit))).

Definition alloc_bit (i b : Z) '(bit, v) : go (Z * ntfsVolume + ntfsVolume * option Z) :=
  if negb (bit <? 8) then mret (inr (v, None)) else
  if Z.land b (u8 (Z.shiftl 1 bit)) =? 0 then
    let lcn := i64 (i * 8 + bit) in
    bm ← or_bit (bitmap v) i bit;
    let v := with_bitmap v bm true in
    if lcn =? 0 then mret (inl (bit + 1, v)) else mret (inr (v, Some lcn))
  else mret (inl (bit + 1, v)).

Definition alloc_byte (n : Z) '(i, v) : go (Z * ntfsVolume + ntfsVolume * (Z + error)) :=
  if negb (i <? n) then mret (inr (v, inr volume_full)) else
  b ← index (bitmap v) i;
  if b =? 0xFF then mret (inl (i + 1, v)) else
  '(v, r) ← go_for 9 (alloc_bit i b) (0, v);
  mret (match r with Some lcn => inr (v, inl lcn) | None => inl (i + 1, v) end).

Definition allocCluster (v : ntfsVolume) : go (ntfsVolume * (Z + error)) :=
  go_for (S (length (bitmap v))) (alloc_byte (len (bitmap v))) (0, v).

(** The last run grows when the cluster follows it. *)
Definition push_cluster (runs : list run) (k : Z) : list run :=
  match last runs with
  | Some l => if i64 (lcn l + run_length l) =? k then removelast runs ++ [mkRun (lcn l) (i64 (run_length l + 1))] else runs ++ [mkRun k 1]
  | None => runs ++ [mkRun k 1]
  end.

Definition alloc_round '(runs, remaining, v) : go (list run * Z * ntfsVolume + ntfsVolume * (list run + error)) :=
  if negb (0 <? remaining) then mret (inr (v, inl runs)) else
  '(v, r) ← allocCluster v;
  match r with
  | inr e => mret (inr (v, inr e))
  | inl k => mret (inl (push_cluster runs k, remaining - 1, v))
  end.

Definition allocClusters (v : ntfsVolume) (n : Z) : go (ntfsVolume * (list run + error)) :=
  go_for (S (Z.to_nat n)) alloc_round ([], n, v).

(** [for j := 0; j < needed; j++ { l := int64(startLCN + j); v.bitmap[l/8] |= 1 << uint(l%8) }] *)
Definition mark_run (bm : list Z) (startLCN needed : Z) : go (list Z) :=
  go_range (fun j bm => let l := startLCN + j in or_bit bm (Z.quot l 8) (Z.rem l 8)) 0 (Z.to_nat needed) bm.

Definition contiguous_bit (n i : Z) '(bit, startLCN, runLen, v) : go (Z * Z * Z * ntfsVolume + ntfsVolume * (Z * Z + list run)) :=
  if negb (bit <? 8) then mret (inr (v, inl (startLCN, runLen))) else
  let lcn := i * 8 + bit in
  if lcn =? 0 then mret (inl (bit + 1, -1, 0, v)) else
  b ← index (bitmap v) i;
  if Z.land b (u8 (Z.shiftl 1 bit)) =? 0 then
    let startLCN := if runLen =? 0 then lcn else startLCN in
    let runLen := runLen + 1 in
    if n <=? runLen then
      bm ← mark_run (bitmap v) startLCN n;
      mret (inr (with_bitmap v bm true, inr [mkRun startLCN n]))
    else mret (inl (bit + 1, startLCN, runLen, v))
  else mret (inl (bit + 1, -1, 0, v)).

Definition contiguous_byte (n : Z) '(i, startLCN, runLen, v) : go (Z * Z * Z * ntfsVolume + ntfsVolume * option (list run)) :=
  if negb (i <? len (bitmap v)) then mret (inr (v, None)) else
  '(v, r) ← go_for 9 (contiguous_bit n i) (0, startLCN, runLen, v);
  match r with
  | inl (startLCN, runLen) => mret (inl (i + 1, startLCN, runLen, v))
  | inr runs => mret (inr (v, Some runs))
  end.

(** The error that the source declares is never returned. *)
Definition tryAllocContiguous (v : ntfsVolume) (n : Z) : go (ntfsVolume * option (list run)) :=
  go_for (S (length (bitmap v))) (contiguous_byte n) (0, -1, 0, v).

Definition allocContiguousClusters (v : ntfsVolume) (n : Z) : go (ntfsVolume * (list run + error)) :=
  if n <=? 0 then mret (v, inl []) else
  '(v, r) ← tryAllocContiguous v n;
  match r with
  | Some runs => mret (v, inl runs)
  | None => allocClusters v n
  end.

Definition freeCluster (v : ntfsVolume) (lcn : Z) : go ntfsVolume :=
  if lcn =? 0 then mret v else
  let byteIdx := Z.quot lcn 8 in
  let bitIdx := u64 (Z.rem lcn 8) in
  if byteIdx <? len (bitmap v) then
    b ← index (bitmap v) byteIdx;
    bm ← store (bitmap v) byteIdx (Z.land b (u8 (Z.lnot (u8 (Z.shiftl 1 bitIdx)))));
    mret (with_bitmap v bm true)
  else mret v.

Fixpoint freeRuns (v : ntfsVolume) (runs : list run) : go ntfsVolume :=
  match runs with
  | [] => mret v
  | r :: runs' =>
      v ← (if lcn r <? 0 then mret v else go_range (fun i v => freeCluster v (i64 (lcn r + i))) 0 (Z.to_nat (run_length r)) v);
      freeRuns v runs'
  end.

(** ** MFT records *)

Definition alloc_record_bit (i b : Z) '(bit, v) : go (Z * ntfsVolume + ntfsVolume * option Z) :=
  if negb (bit <? 8) then mret (inr (v, None)) else
  if Z.land b (u8 (Z.shiftl 1 bit)) =? 0 then
    let n := i * 8 + bit in
    if n <? 12 then mret (inl (bit + 1, v)) else
    bm ← or_bit (mftBitmap v) i bit;
    mret (inr (with_mft_bitmap v bm true, Some n))
  else mret (inl (bit + 1, v)).

Definition alloc_record_byte '(i, v) : go (Z * ntfsVolume + ntfsVolume * Z) :=
  if negb (i <? len (mftBitmap v)) then
    let n := len (mftBitmap v) * 8 in
    mret (inr (with_mft_bitmap v (mftBitmap v ++ [1]) true, n))
  else
  b ← index (mftBitmap v) i;
  if b =? 0xFF then mret (inl (i + 1, v)) else
  '(v, r) ← go_for 9 (alloc_record_bit i b) (0, v);
  mret (match r with Some n => inr (v, n) | None => inl (i + 1, v) end).

Definition allocMFTRecord (v : ntfsVolume) : go (ntfsVolume * Z) :=
  go_for (S (length (mftBitmap v))) alloc_record_byte (0, v).

Definition freeMFTSlot (bm : list Z) (n : Z) : go (list Z) :=
  let byteIdx := n / 8 in
  let bitIdx := n mod 8 in
  if i64 byteIdx <? len bm then
    b ← index bm byteIdx;
    store bm byteIdx (Z.land b (u8 (Z.lnot (u8 (Z.shiftl 1 bitIdx)))))
  else mret bm.

(** ** Bits of a list of bytes *)

Definition taken (bm : list Z) (k : Z) : bool := bit (mkBitmap bm) k.
Definition nclusters (bm : list Z) : Z := 8 * len bm.
Definition bm_ok (bm : list Z) : Prop := wf (mkBitmap bm).

Lemma or_bit_ok bm i j : bm_ok bm -> 0 <= i < len bm -> 0 <= j < 8 ->
  exists bm', or_bit bm i j = Ret bm' /\ bm_ok bm' /\ len bm' = len bm /\ forall k, 0 <= k -> taken bm' k = (k =? 8 * i + j) || taken bm k.
Proof.
  intros Hw Hi Hj. unfold or_bit. rewrite index_byte_at by lia. cbn [mbind go_bind]. rewrite store_ok by lia. rewrite bm_mask by lia.
  destruct (bm_join i j Hj) as [Ed Em].
  destruct (bm_write (mkBitmap bm) (8 * i + j) (Z.lor (byte_at bm i) (2 ^ j)) true Hw) as (Hw' & _ & Hb).
  - unfold nbits. cbn [bits]. lia.
  - pose proof (bm_byte_range (mkBitmap bm) i Hw) as Hr. cbn [bits] in Hr. apply (lor_range 8); [lia|done|].
    pose proof (Z.pow_lt_mono_r 2 j 8). lia.
  - intros k Hk. rewrite Ed, Em. cbn [bits]. by apply bm_set_byte.
  - rewrite Ed in Hb, Hw'. cbn [bits] in Hb, Hw'. eexists. split; [done|]. split; [exact Hw'|]. split; [by rewrite len_insert|].
    intros k Hk. unfold taken. rewrite Hb by done. by destruct (k =? 8 * i + j).
Qed.

Lemma taken_byte bm i j : 0 <= j < 8 -> taken bm (8 * i + j) = Z.testbit (byte_at bm i) j.
Proof. intros Hj. unfold taken, bit. by destruct (bm_join i j Hj) as [-> ->]. Qed.

Lemma bit_test b j : 0 <= j < 8 -> (Z.land b (u8 (Z.shiftl 1 j)) =? 0) = negb (Z.testbit b j).
Proof. intros. rewrite bm_mask by lia. apply land_bit. lia. Qed.

(** ** Free clusters *)

Definition is_free (bm : list Z) (k : Z) : Prop := taken bm k = false.
#[global] Instance is_free_dec bm k : Decision (is_free bm k).
Proof. unfold is_free. apply _. Defined.

(** The clusters that may be given out, in order: cluster 0 holds the boot sector. *)
Definition free_clusters (bm : list Z) : list Z := filter (is_free bm) (seqZ 1 (nclusters bm - 1)).

(** The same but for cluster 0. *)
Definition agree (bm bm' : list Z) : Prop := bm_ok bm' /\ len bm' = len bm /\ forall k, 1 <= k -> taken bm' k = taken bm k.

Lemma filter_none {A} (P : A -> Prop) `{!forall x, Decision (P x)} (l : list A) : (forall x, x ∈ l -> ~ P x) -> filter P l = [].
Proof.
  induction l as [|x l IH]; intros Hl; [done|]. rewrite filter_cons, decide_False by (apply Hl; left). apply IH. intros y Hy. apply Hl. by right.
Qed.

Lemma filter_congr {A} (P Q : A -> Prop) `{!forall x, Decision (P x), !forall x, Decision (Q x)} (l : list A) :
  (forall x, x ∈ l -> P x <-> Q x) -> filter P l = filter Q l.
Proof.
  induction l as [|x l IH]; intros Hl; [done|]. rewrite !filter_cons. rewrite IH by (intros y Hy; apply Hl; by right).
  pose proof (Hl x ltac:(left)). do 2 case_decide; naive_solver.
Qed.

Lemma free_first bm k : 1 <= k < nclusters bm -> taken bm k = false -> (forall j, 1 <= j < k -> taken bm j = true) ->
  free_clusters bm = k :: filter (is_free bm) (seqZ (k + 1) (nclusters bm - k - 1)).
Proof.
  intros Hk Hf Hb. unfold free_clusters. replace (nclusters bm - 1) with (k - 1 + (1 + (nclusters bm - k - 1))) by lia.
  rewrite seqZ_app, filter_app by lia. rewrite filter_none; [|intros x Hx; apply elem_of_seqZ in Hx; unfold is_free; rewrite Hb by lia; done].
  replace (1 + (k - 1)) with k by lia. rewrite seqZ_cons by lia. cbn [app]. rewrite filter_cons_True by done. do 3 f_equal; lia.
Qed.

Lemma free_none bm : (forall j, 1 <= j < nclusters bm -> taken bm j = true) -> free_clusters bm = [].
Proof. intros Hb. apply filter_none. intros x Hx. apply elem_of_seqZ in Hx. unfold is_free. rewrite Hb by lia. done. Qed.

(** Taking the first of them leaves the others. *)
Lemma free_rest bm bm' k : 1 <= k < nclusters bm -> taken bm k = false -> (forall j, 1 <= j < k -> taken bm j = true) ->
  len bm' = len bm -> (forall j, 1 <= j -> taken bm' j = (j =? k) || taken bm j) ->
  free_clusters bm = k :: free_clusters bm'.
Proof.
  intros Hk Hf Hb Hl Hb'. rewrite (free_first bm k) by done. f_equal. unfold free_clusters, nclusters. rewrite Hl. fold (nclusters bm).
  replace (nclusters bm - 1) with (k + (nclusters bm - k - 1)) by lia. rewrite seqZ_app, filter_app by (unfold nclusters in *; lia).
  rewrite (filter_none (is_free bm') (seqZ 1 k)).
  - replace (1 + k) with (k + 1) by lia. apply filter_congr. intros x Hx. apply elem_of_seqZ in Hx. unfold is_free. rewrite Hb' by lia. by rewrite (proj2 (Z.eqb_neq x k)) by lia.
  - intros x Hx. apply elem_of_seqZ in Hx. unfold is_free. rewrite Hb' by lia. destruct (Z.eqb_spec x k); [done|]. cbn [orb]. rewrite Hb by lia. done.
Qed.

Lemma agree_free bm bm' : agree bm bm' -> free_clusters bm' = free_clusters bm.
Proof.
  intros (_ & Hl & Ha). unfold free_clusters, nclusters. rewrite Hl. apply filter_congr. intros x Hx. apply elem_of_seqZ in Hx. unfold is_free. by rewrite Ha by lia.
Qed.
Lemma agree_refl bm : bm_ok bm -> agree bm bm.
Proof. done. Qed.
Lemma agree_trans a b c : agree a b -> agree b c -> agree a c.
Proof. intros (_ & Hl & Ha) (Hb & Hl' & Hc). split; [done|]. split; [congruence|]. intros k Hk. by rewrite Hc, Ha. Qed.

(** ** Allocating one cluster *)

(** The volume with another bitmap. *)
Definition same_volume (v v' : ntfsVolume) : Prop := exists d, v' = with_bitmap v (bitmap v') d.
Lemma same_with v bm d : same_volume v (with_bitmap v bm d).
Proof. by exists d. Qed.
Lemma same_refl v : same_volume v v.
Proof. exists (dirty v). by destruct v. Qed.
Lemma same_trans a b c : same_volume a b -> same_volume b c -> same_volume a c.
Proof. intros [d ->] [e ->]. by exists e. Qed.

(** [k] was given out: it was free, every cluster before it is taken, and it is marked. *)
Definition gives (bm : list Z) (k : Z) (bm' : list Z) : Prop :=
  1 <= k < nclusters bm /\ taken bm k = false /\ (forall j, 1 <= j < k -> taken bm j = true) /\
  bm_ok bm' /\ len bm' = len bm /\ forall j, 1 <= j -> taken bm' j = (j =? k) || taken bm j.

Lemma alloc_bit_ok bm i b bit v : agree bm (bitmap v) -> nclusters bm < 2 ^ 63 -> 0 <= i < len bm -> 0 <= bit ->
  (forall j, 0 <= j < 8 -> 1 <= 8 * i + j -> Z.testbit b j = taken bm (8 * i + j)) -> (forall j, 1 <= j < 8 * i + bit -> taken bm j = true) ->
  exists r, alloc_bit i b (bit, v) = Ret r /\
  match r with
  | inl (bit', v') => bit' = bit + 1 /\ bit < 8 /\ same_volume v v' /\ agree bm (bitmap v') /\ (forall j, 1 <= j < 8 * i + bit' -> taken bm j = true)
  | inr (v', Some k) => same_volume v v' /\ gives bm k (bitmap v')
  | inr (v', None) => v' = v /\ 8 <= bit
  end.
Proof.
  intros Hag Hmax Hi Hbit Hb Hall. pose proof Hag as (Hok & Hl & Ha). unfold nclusters in Hmax. unfold alloc_bit. destruct (Z.ltb_spec bit 8); cbn [negb]; [|by eexists].
  rewrite bit_test by lia. rewrite i64_id by lia. destruct (or_bit_ok (bitmap v) i bit Hok ltac:(lia) ltac:(lia)) as (bm' & Eor & Hok' & Hl' & Ht').
  destruct (Z.testbit b bit) eqn:Etest; cbn [negb].
  - eexists. split; [done|]. cbn. split; [done|]. split; [done|]. split; [apply same_refl|]. split; [done|]. intros j Hj.
    destruct (Z.eq_dec j (8 * i + bit)) as [->|]; [|apply Hall; lia]. rewrite <-Hb by lia. done.
  - rewrite Eor. cbn [mbind go_bind]. destruct (Z.eqb_spec (i * 8 + bit) 0).
    + eexists. split; [done|]. cbn. split; [done|]. split; [done|]. split; [apply same_with|]. split; [|intros j Hj; lia].
      split; [done|]. split; [congruence|]. intros k Hk. rewrite Ht' by lia. rewrite (proj2 (Z.eqb_neq _ _)) by lia. by apply Ha.
    + eexists. split; [done|]. cbn. split; [apply same_with|]. unfold gives, nclusters. split; [lia|]. replace (i * 8 + bit) with (8 * i + bit) by lia.
      split; [rewrite <-Hb by lia; done|]. split; [intros j Hj; apply Hall; lia|]. split; [done|]. split; [congruence|]. intros j Hj. rewrite Ht' by lia. by rewrite Ha by lia.
Qed.

Lemma alloc_bits_ok bm i b n : forall fuel bit v, 8 - bit = Z.of_nat n -> (n < fuel)%nat -> agree bm (bitmap v) -> nclusters bm < 2 ^ 63 -> 0 <= i < len bm -> 0 <= bit ->
  (forall j, 0 <= j < 8 -> 1 <= 8 * i + j -> Z.testbit b j = taken bm (8 * i + j)) -> (forall j, 1 <= j < 8 * i + bit -> taken bm j = true) ->
  exists v' r, go_for fuel (alloc_bit i b) (bit, v) = Ret (v', r) /\ same_volume v v' /\
  match r with
  | Some k => gives bm k (bitmap v')
  | None => agree bm (bitmap v') /\ forall j, 1 <= j < 8 * i + 8 -> taken bm j = true
  end.
Proof.
  induction n as [|n IH]; intros [|fuel] bit v Hn Hf Hag Hmax Hi Hbit Hb Hall; [lia| |lia|]; cbn [go_for];
    destruct (alloc_bit_ok bm i b bit v Hag Hmax Hi Hbit Hb Hall) as (r & -> & Hr); destruct r as [[bit' v']|[v' [k|]]]; cbn [mbind go_bind mret go_ret].
  - destruct Hr as (-> & ? & _). lia.
  - eexists _, _. split; [done|]. exact Hr.
  - destruct Hr as [-> ?]. eexists _, _. split; [done|]. split; [apply same_refl|]. split; [done|]. intros j Hj. apply Hall. lia.
  - destruct Hr as (-> & ? & Hs & Hag' & Hall'). destruct (IH fuel (bit + 1) v') as (v'' & r & -> & Hs' & Hr'); [lia..|done|done|done|lia|done|done|].
    eexists _, _. split; [done|]. split; [by eapply same_trans|done].
  - eexists _, _. split; [done|]. exact Hr.
  - destruct Hr as [_ ?]. lia.
Qed.

Lemma byte_full b j : b = 0xFF -> 0 <= j < 8 -> Z.testbit b j = true.
Proof. intros -> Hj. change 0xFF with (Z.ones 8). apply Z.ones_spec_low. lia. Qed.

Lemma alloc_bytes_ok bm n : forall fuel i v, len bm - i = Z.of_nat n -> (n < fuel)%nat -> agree bm (bitmap v) -> nclusters bm < 2 ^ 63 -> 0 <= i ->
  (forall j, 1 <= j < 8 * i -> taken bm j = true) ->
  exists v' r, go_for fuel (alloc_byte (len bm)) (i, v) = Ret (v', r) /\ same_volume v v' /\
  match r with
  | inl k => gives bm k (bitmap v')
  | inr e => e = volume_full /\ agree bm (bitmap v') /\ forall j, 1 <= j < nclusters bm -> taken bm j = true
  end.
Proof.
  induction n as [|n IH]; intros [|fuel] i v Hn Hf Hag Hmax Hi Hall; [lia| |lia|]; cbn [go_for]; unfold alloc_byte at 2.
  - rewrite (proj2 (Z.ltb_ge _ _)) by lia. cbn [negb mbind go_bind mret go_ret]. eexists _, _. split; [done|]. split; [apply same_refl|]. split; [done|]. split; [done|].
    intros j Hj. apply Hall. unfold nclusters in Hj. lia.
  - pose proof Hag as (Hok & Hl & Ha). rewrite (proj2 (Z.ltb_lt i (len bm))) by lia. cbn [negb]. rewrite index_byte_at by lia. cbn [mbind go_bind].
    set (b := byte_at (bitmap v) i). assert (forall j, 0 <= j < 8 -> 1 <= 8 * i + j -> Z.testbit b j = taken bm (8 * i + j)) as Hb.
    { intros j Hj H1. rewrite <-Ha by lia. symmetry. by apply taken_byte. }
    destruct (Z.eqb_spec b 0xFF) as [Eb|].
    + cbn [mbind go_bind mret go_ret]. apply IH; [lia|lia|done|done|lia|]. intros j Hj. destruct (Z.lt_ge_cases j (8 * i)); [apply Hall; lia|].
      replace j with (8 * i + (j - 8 * i)) by lia. rewrite <-Hb by lia. apply byte_full; [done|lia].
    + destruct (alloc_bits_ok bm i b 8 9 0 v) as (v' & r & -> & Hs & Hr); [lia|lia|done|done|lia|lia|done|intros; apply Hall; lia|]. cbn [mbind go_bind mret go_ret].
      destruct r as [k|]; cbn [mbind go_bind mret go_ret]; [by eexists _, _|]. destruct Hr as [Hag' Hall'].
      destruct (IH fuel (i + 1) v') as (v'' & r & -> & Hs' & Hr'); [lia|lia|done|done|lia|intros j Hj; apply Hall'; lia|].
      eexists _, _. split; [done|]. split; [by eapply same_trans|done].
Qed.

Lemma allocCluster_ok v : bm_ok (bitmap v) -> nclusters (bitmap v) < 2 ^ 63 ->
  exists v' r, allocCluster v = Ret (v', r) /\ same_volume v v' /\
  match r with
  | inl k => gives (bitmap v) k (bitmap v')
  | inr e => e = volume_full /\ agree (bitmap v) (bitmap v') /\ forall j, 1 <= j < nclusters (bitmap v) -> taken (bitmap v) j = true
  end.
Proof.
  intros Hok Hmax. unfold allocCluster. apply (alloc_bytes_ok (bitmap v) (length (bitmap v))); [unfold len; lia|lia|done|done|lia|intros; lia].
Qed.

(** ** Allocating piecewise *)

Definition clusters (runs : list run) : list Z := runs ≫= fun r => seqZ (lcn r) (run_length r).

(** Runs of one cluster or more behind the boot sector and before cluster [n]. *)
Definition run_within (n : Z) (r : run) : Prop := 1 <= lcn r /\ 1 <= run_length r /\ lcn r + run_length r <= n.

(** [bm'] is [bm] with the clusters [ks] taken. *)
Definition marks (bm : list Z) (ks : list Z) (bm' : list Z) : Prop :=
  bm_ok bm' /\ len bm' = len bm /\ forall j, 1 <= j -> taken bm' j = bool_decide (j ∈ ks) || taken bm j.

Lemma clusters_app a b : clusters (a ++ b) = clusters a ++ clusters b.
Proof. apply bind_app. Qed.

Lemma clusters_one k n : clusters [mkRun k n] = seqZ k n.
Proof. unfold clusters. cbn. by rewrite app_nil_r. Qed.

Lemma push_cluster_ok n runs k : Forall (run_within n) runs -> n < 2 ^ 63 -> 1 <= k < n ->
  clusters (push_cluster runs k) = clusters runs ++ [k] /\ Forall (run_within n) (push_cluster runs k).
Proof.
  intros Hr Hn Hk. unfold push_cluster.
  assert (clusters (runs ++ [mkRun k 1]) = clusters runs ++ [k] /\ Forall (run_within n) (runs ++ [mkRun k 1])) as Hsnoc.
  { split; [by rewrite clusters_app, clusters_one|]. apply Forall_app_2; [done|]. apply Forall_singleton. unfold run_within. cbn. lia. }
  destruct (last runs) as [l|] eqn:El; [|done]. apply last_Some in El as [runs0 ->]. apply Forall_app in Hr as [Hr0 Hl]. apply Forall_inv in Hl. destruct Hl as (Hl1 & Hl2 & Hl3).
  rewrite removelast_last. rewrite !i64_id by lia. destruct (Z.eqb_spec (lcn l + run_length l) k) as [Ek|]; [|done]. split.
  - rewrite !clusters_app, clusters_one. destruct l as [s c]. cbn [lcn run_length] in *. rewrite clusters_one, <-(assoc app). f_equal. rewrite seqZ_app by lia. by rewrite <-Ek.
  - apply Forall_app_2; [done|]. apply Forall_singleton. unfold run_within. cbn [lcn run_length]. lia.
Qed.

Lemma gives_free bm k bm' : gives bm k bm' -> free_clusters bm = k :: free_clusters bm'.
Proof. intros (Hk & Hf & Hall & _ & Hl & Ht). by apply free_rest. Qed.

(** The clusters given out so far, and the state of the bitmap. *)
Definition piecewise (bm : list Z) (n : Z) (runs : list run) (bm' : list Z) (remaining : Z) : Prop :=
  0 <= remaining /\ free_clusters bm = clusters runs ++ free_clusters bm' /\ len (clusters runs) + remaining = n /\
  Forall (run_within (nclusters bm)) runs /\ marks bm (clusters runs) bm'.

Lemma piecewise_step bm n runs v k v' remaining : nclusters bm < 2 ^ 63 -> piecewise bm n runs (bitmap v) remaining -> 0 < remaining ->
  gives (bitmap v) k (bitmap v') -> piecewise bm n (push_cluster runs k) (bitmap v') (remaining - 1).
Proof.
  intros Hmax (_ & Hfree & Hlen & Hruns & Hok & Hl & Ht) Hr Hg. pose proof Hg as (Hk & _ & _ & Hok' & Hl' & Ht'). unfold nclusters in Hk. rewrite Hl in Hk. fold (nclusters bm) in Hk.
  destruct (push_cluster_ok (nclusters bm) runs k Hruns Hmax Hk) as [Ec Hp]. split; [lia|]. rewrite Ec. split; [rewrite Hfree, (gives_free _ _ _ Hg), <-(assoc app); done|].
  split; [rewrite len_app; change (len [k]) with 1; lia|]. split; [done|]. split; [done|]. split; [congruence|]. intros j Hj. rewrite Ht', Ht by done.
  destruct (Z.eqb_spec j k) as [->|]; cbn [orb].
  - rewrite bool_decide_eq_true_2; [done|]. apply elem_of_app. right. by apply list_elem_of_singleton.
  - f_equal. apply bool_decide_ext. rewrite elem_of_app, list_elem_of_singleton. naive_solver.
Qed.

Lemma alloc_rounds_ok bm n m : forall fuel runs v remaining, remaining = Z.of_nat m -> (m < fuel)%nat -> nclusters bm < 2 ^ 63 -> piecewise bm n runs (bitmap v) remaining ->
  exists v' r, go_for fuel alloc_round (runs, remaining, v) = Ret (v', r) /\ same_volume v v' /\
  match r with
  | inl runs' => piecewise bm n runs' (bitmap v') 0
  | inr e => e = volume_full /\ len (free_clusters bm) < n /\ len (bitmap v') = len bm /\ forall j, 1 <= j < nclusters bm -> taken (bitmap v') j = true
  end.
Proof.
  induction m as [|m IH]; intros [|fuel] runs v remaining Hm Hf Hmax Hp; [lia| |lia|]; cbn [go_for]; unfold alloc_round at 2.
  - rewrite (proj2 (Z.ltb_ge _ _)) by lia. cbn. eexists _, _. split; [done|]. split; [apply same_refl|]. by replace 0 with remaining by lia.
  - rewrite (proj2 (Z.ltb_lt 0 remaining)) by lia. cbn [negb]. pose proof Hp as (_ & Hfree & Hlen & _ & Hok & Hl & Ht).
    destruct (allocCluster_ok v) as (v' & r & -> & Hs & Hr); [done|unfold nclusters in *; rewrite Hl; done|]. cbn [mbind go_bind mret go_ret]. destruct r as [k|e]; cbn [mbind go_bind mret go_ret].
    + destruct (IH fuel (push_cluster runs k) v' (remaining - 1)) as (v'' & r & -> & Hs' & Hr'); [lia|lia|done|by eapply piecewise_step; [..|lia|]|].
      eexists _, _. split; [done|]. split; [by eapply same_trans|done].
    + destruct Hr as (-> & (Hok' & Hl' & Ha) & Hall). eexists _, _. split; [done|]. split; [done|]. split; [done|]. split.
      * rewrite Hfree, (free_none (bitmap v)) by done. rewrite app_nil_r. lia.
      * split; [congruence|]. intros j Hj. rewrite Ha by lia. apply Hall. unfold nclusters in *. rewrite Hl. lia.
Qed.

Lemma allocClusters_ok v n : bm_ok (bitmap v) -> nclusters (bitmap v) < 2 ^ 63 -> 0 <= n ->
  exists v' r, allocClusters v n = Ret (v', r) /\ same_volume v v' /\
  match r with
  | inl runs => n <= len (free_clusters (bitmap v)) /\ clusters runs = take (Z.to_nat n) (free_clusters (bitmap v)) /\
      Forall (run_within (nclusters (bitmap v))) runs /\ marks (bitmap v) (clusters runs) (bitmap v')
  | inr e => e = volume_full /\ len (free_clusters (bitmap v)) < n /\ len (bitmap v') = len (bitmap v) /\
      forall j, 1 <= j < nclusters (bitmap v) -> taken (bitmap v') j = true
  end.
Proof.
  intros Hok Hmax Hn. unfold allocClusters. destruct (alloc_rounds_ok (bitmap v) n (Z.to_nat n) (S (Z.to_nat n)) [] v n) as (v' & r & -> & Hs & Hr); [lia|lia|done| |].
  { split; [lia|]. split; [done|]. split; [done|]. split; [constructor|]. split; [done|]. split; [done|]. done. }
  exists v', r. split; [done|]. split; [done|]. destruct r as [runs|e]; [|done]. destruct Hr as (_ & Hfree & Hlen & Hruns & Hm). rewrite Hfree, len_app.
  pose proof (len_nonneg (free_clusters (bitmap v'))). split; [lia|]. split; [|done]. rewrite take_app_le by (unfold len in *; lia). symmetry. apply take_ge. unfold len in *. lia.
Qed.

(** ** Allocating one run *)

(** No [n] free clusters in a row end before cluster [q]. *)
Definition blocked (bm : list Z) (n q : Z) : Prop := forall s, 1 <= s -> s + n <= q -> exists k, s <= k < s + n /\ taken bm k = true.

Definition scanning (bm : list Z) (n q startLCN runLen : Z) : Prop :=
  0 <= runLen < n /\ (0 < runLen -> startLCN = q - runLen /\ 1 <= startLCN) /\
  (forall k, q - runLen <= k < q -> taken bm k = false) /\ (q - runLen <= 1 \/ taken bm (q - runLen - 1) = true) /\ blocked bm n q.

(** The first [n] free clusters in a row start at [s]. *)
Definition first_fit (bm : list Z) (n s : Z) : Prop :=
  1 <= s /\ s + n <= nclusters bm /\ (forall k, s <= k < s + n -> taken bm k = false) /\ blocked bm n (s + n - 1).

Lemma mark_run_ok bm s n : bm_ok bm -> 0 <= s -> 0 <= n -> s + n <= nclusters bm ->
  exists bm', mark_run bm s n = Ret bm' /\ bm_ok bm' /\ len bm' = len bm /\ forall k, 0 <= k -> taken bm' k = ((s <=? k) && (k <? s + n)) || taken bm k.
Proof.
  intros Hok Hs Hn Hl. unfold mark_run. unfold nclusters in Hl.
  match goal with |- exists _, ?m = _ /\ _ => enough (wp m (fun bm' => bm_ok bm' /\ len bm' = len bm /\ forall k, 0 <= k -> taken bm' k = ((s <=? k) && (k <? s + (0 + Z.of_nat (Z.to_nat n)))) || taken bm k) no_err) as H end.
  { destruct (wp_no_err_Ret _ _ H) as (bm' & -> & Hw & Hlen & Ht). exists bm'. split; [done|]. split; [done|]. split; [done|]. intros k Hk. rewrite Ht by done. do 4 f_equal. lia. }
  apply (wp_go_range (fun j bm' => bm_ok bm' /\ len bm' = len bm /\ forall k, 0 <= k -> taken bm' k = ((s <=? k) && (k <? s + j)) || taken bm k)).
  - split; [done|]. split; [done|]. intros k Hk. assert ((s <=? k) && (k <? s + 0) = false) as ->; [|done]. apply andb_false_iff. rewrite Z.leb_gt, Z.ltb_ge. lia.
  - intros j bm' Hj (Hw & Hlen & Ht). cbv zeta. rewrite Z.quot_div_nonneg, Z.rem_mod_nonneg by lia.
    assert (0 <= (s + j) / 8 < len bm') as Hi by (rewrite Hlen; split; [apply Z.div_pos; lia|apply Z.div_lt_upper_bound; lia]).
    pose proof (bm_split (s + j)) as [Esp Hmod]. destruct (or_bit_ok bm' ((s + j) / 8) ((s + j) mod 8) Hw Hi Hmod) as (bm2 & -> & Hw2 & Hl2 & Ht2). cbn.
    split; [done|]. split; [congruence|]. intros k Hk. rewrite Ht2, Ht by done. rewrite <-Esp.
    destruct (Z.eqb_spec k (s + j)) as [->|]; cbn [orb].
    + rewrite (proj2 (Z.leb_le _ _)), (proj2 (Z.ltb_lt _ _)) by lia. done.
    + f_equal. f_equal. destruct (Z.ltb_spec k (s + j)), (Z.ltb_spec k (s + (j + 1))); done || lia.
Qed.

Lemma contiguous_bit_ok n i bit st rl v : bm_ok (bitmap v) -> 1 <= n -> 0 <= i < len (bitmap v) -> 0 <= bit <= 8 -> scanning (bitmap v) n (8 * i + bit) st rl ->
  exists r, contiguous_bit n i (bit, st, rl, v) = Ret r /\
  match r with
  | inl (bit', st', rl', v') => bit' = bit + 1 /\ bit < 8 /\ v' = v /\ scanning (bitmap v) n (8 * i + bit') st' rl'
  | inr (v', inl (st', rl')) => v' = v /\ bit = 8 /\ st' = st /\ rl' = rl
  | inr (v', inr runs) => exists s, runs = [mkRun s n] /\ first_fit (bitmap v) n s /\ same_volume v v' /\ marks (bitmap v) (seqZ s n) (bitmap v')
  end.
Proof.
  intros Hok Hn Hi Hbit Hsc. unfold contiguous_bit. destruct (Z.ltb_spec bit 8); cbn [negb]; [|by eexists; split; [done|]; cbn; split_and!; (done || lia)]. cbv zeta. replace (i * 8 + bit) with (8 * i + bit) by lia.
  set (q := 8 * i + bit) in *. replace (8 * i + (bit + 1)) with (q + 1) by (unfold q; lia).
  destruct Hsc as (Hrl & Hst & Hfree & Hmax & Hbl). destruct (Z.eqb_spec q 0) as [Eq|Hq].
  { eexists. split; [done|]. cbn. split; [done|]. split; [done|]. split; [done|]. replace (8 * i + (bit + 1)) with (q + 1) by (unfold q; lia). split; [lia|]. split; [lia|]. split; [intros; lia|]. split; [left; lia|]. intros s Hs1 Hs2. lia. }
  rewrite index_byte_at by lia. cbn [mbind go_bind]. rewrite bit_test, <-taken_byte by lia. fold q.
  destruct (taken (bitmap v) q) eqn:Et; cbn [negb].
  { eexists. split; [done|]. cbn. split; [done|]. split; [done|]. split; [done|]. replace (8 * i + (bit + 1)) with (q + 1) by (unfold q; lia). split; [lia|]. split; [lia|]. split; [intros; lia|]. split; [right; by replace (q + 1 - 0 - 1) with q by lia|].
    intros s Hs1 Hs2. destruct (Z.le_gt_cases (s + n) q); [by apply Hbl|]. exists q. split; [lia|done]. }
  set (st' := if rl =? 0 then q else st). assert (st' = q - rl /\ 1 <= st') as [Est Hst1] by (unfold st', q in *; destruct (Z.eqb_spec rl 0); lia).
  assert (blocked (bitmap v) n (q + 1) \/ rl + 1 = n) as Hnext.
  { destruct (Z.eq_dec (rl + 1) n); [by right|left]. intros s Hs1 Hs2. destruct (Z.le_gt_cases (s + n) q); [by apply Hbl|]. destruct Hmax as [|Hm]; [lia|]. exists (q - rl - 1). split; [lia|done]. }
  destruct (Z.leb_spec n (rl + 1)).
  - assert (rl + 1 = n) as Hrn by lia. assert (q + 1 <= nclusters (bitmap v)) as Hqn by (unfold nclusters, q; lia).
    destruct (mark_run_ok (bitmap v) st' n Hok) as (bm' & -> & Hok' & Hl' & Ht'); [lia|lia|lia|]. cbn [mbind go_bind mret go_ret]. eexists. split; [done|]. cbn. exists st'. split; [done|]. split; [|split; [apply same_with|]].
    + split; [lia|]. split; [lia|]. split; [|by replace (st' + n - 1) with q by lia]. intros k Hk. destruct (Z.eq_dec k q) as [->|]; [done|]. apply Hfree. lia.
    + split; [done|]. split; [done|]. intros j Hj. rewrite Ht' by lia. f_equal. apply eq_true_iff_eq. rewrite bool_decide_eq_true, elem_of_seqZ, andb_true_iff, Z.leb_le, Z.ltb_lt. done.
  - destruct Hnext; [|lia]. eexists. split; [done|]. cbn. split; [done|]. split; [done|]. split; [done|]. replace (8 * i + (bit + 1)) with (q + 1) by (unfold q; lia).
    split; [lia|]. split; [intros _; lia|]. split; [intros k Hk; destruct (Z.eq_dec k q) as [->|]; [done|apply Hfree; lia]|]. split; [|done]. by replace (q + 1 - (rl + 1)) with (q - rl) by lia.
Qed.

(** What a search from position [q] on ends with. *)
Definition scan_result (n : Z) (v v' : ntfsVolume) (runs : option (list run)) : Prop :=
  match runs with
  | Some runs => exists s, runs = [mkRun s n] /\ first_fit (bitmap v) n s /\ same_volume v v' /\ marks (bitmap v) (seqZ s n) (bitmap v')
  | None => v' = v /\ blocked (bitmap v) n (nclusters (bitmap v))
  end.

Lemma contiguous_bits_ok n i m : forall fuel bit st rl v, 8 - bit = Z.of_nat m -> (m < fuel)%nat -> bm_ok (bitmap v) -> 1 <= n -> 0 <= i < len (bitmap v) -> 0 <= bit ->
  scanning (bitmap v) n (8 * i + bit) st rl ->
  exists v' r, go_for fuel (contiguous_bit n i) (bit, st, rl, v) = Ret (v', r) /\
  match r with
  | inl (st', rl') => v' = v /\ scanning (bitmap v) n (8 * (i + 1)) st' rl'
  | inr runs => scan_result n v v' (Some runs)
  end.
Proof.
  induction m as [|m IH]; intros [|fuel] bit st rl v Hm Hf Hok Hn Hi Hbit Hsc; [lia| |lia|]; cbn [go_for];
    destruct (contiguous_bit_ok n i bit st rl v Hok Hn Hi ltac:(lia) Hsc) as (r & -> & Hr); destruct r as [[[[bit' st'] rl'] v']|[v' [[st' rl']|runs]]]; cbn [mbind go_bind mret go_ret].
  - destruct Hr as (-> & ? & _). lia.
  - destruct Hr as (-> & -> & -> & ->). eexists _, _. split; [done|]. split; [done|]. by replace (8 * (i + 1)) with (8 * i + 8) by lia.
  - by eexists _, _.
  - destruct Hr as (-> & ? & -> & Hsc'). apply IH; (done || lia).
  - destruct Hr as (_ & ? & _). lia.
  - by eexists _, _.
Qed.

Lemma contiguous_bytes_ok n m : forall fuel i st rl v, len (bitmap v) - i = Z.of_nat m -> (m < fuel)%nat -> bm_ok (bitmap v) -> 1 <= n -> 0 <= i ->
  scanning (bitmap v) n (8 * i) st rl ->
  exists v' r, go_for fuel (contiguous_byte n) (i, st, rl, v) = Ret (v', r) /\ scan_result n v v' r.
Proof.
  induction m as [|m IH]; intros [|fuel] i st rl v Hm Hf Hok Hn Hi Hsc; [lia| |lia|]; cbn [go_for]; unfold contiguous_byte at 2.
  - rewrite (proj2 (Z.ltb_ge _ _)) by lia. cbn. eexists _, _. split; [done|]. split; [done|]. destruct Hsc as (_ & _ & _ & _ & Hb). unfold nclusters. by replace (len (bitmap v)) with i by lia.
  - rewrite (proj2 (Z.ltb_lt _ _)) by lia. cbn [negb].
    destruct (contiguous_bits_ok n i 8 9 0 st rl v) as (v' & r & -> & Hr); [lia|lia|done|done|lia|lia|by rewrite Z.add_0_r|]. cbn [mbind go_bind mret go_ret].
    destruct r as [[st' rl']|runs]; cbn [mbind go_bind mret go_ret]; [|by eexists _, _]. destruct Hr as [-> Hsc']. apply IH; (done || lia).
Qed.

Lemma tryAllocContiguous_ok v n : bm_ok (bitmap v) -> 1 <= n ->
  exists v' r, tryAllocContiguous v n = Ret (v', r) /\ scan_result n v v' r.
Proof.
  intros Hok Hn. unfold tryAllocContiguous. apply (contiguous_bytes_ok n (length (bitmap v))); [unfold len; lia|lia|done|done|lia|].
  split; [lia|]. split; [lia|]. split; [lia|]. split; [left; lia|]. intros s Hs1 Hs2. lia.
Qed.

(** ** What the allocator promises *)

Lemma first_fit_free bm n s : 1 <= n -> first_fit bm n s -> seqZ s n ⊆ free_clusters bm.
Proof.
  intros Hn (Hs & Hl & Hf & _) k Hk. apply elem_of_seqZ in Hk. apply list_elem_of_filter. split; [apply Hf; lia|]. apply elem_of_seqZ. lia.
Qed.

Lemma free_NoDup bm : NoDup (free_clusters bm).
Proof. apply NoDup_filter, NoDup_seqZ. Qed.

(** What an allocation of [n] clusters gives: different clusters that were free, marked in the
    new bitmap and nothing else; the first place where [n] lie in a row, or else the first
    [n] free ones. *)
Definition allocated (bm : list Z) (n : Z) (runs : list run) (bm' : list Z) : Prop :=
  NoDup (clusters runs) /\ len (clusters runs) = n /\ clusters runs ⊆ free_clusters bm /\
  Forall (run_within (nclusters bm)) runs /\ marks bm (clusters runs) bm' /\
  ((exists s, first_fit bm n s /\ runs = [mkRun s n]) \/
   blocked bm n (nclusters bm) /\ clusters runs = take (Z.to_nat n) (free_clusters bm)).

Lemma allocContiguous_ok v n : bm_ok (bitmap v) -> nclusters (bitmap v) < 2 ^ 63 -> 0 < n ->
  exists v' r, allocContiguousClusters v n = Ret (v', r) /\ same_volume v v' /\
  match r with
  | inl runs => allocated (bitmap v) n runs (bitmap v')
  | inr e => e = volume_full /\ len (free_clusters (bitmap v)) < n
  end.
Proof.
  intros Hok Hmax Hn. unfold allocContiguousClusters. rewrite (proj2 (Z.leb_gt _ _)) by lia.
  destruct (tryAllocContiguous_ok v n Hok ltac:(lia)) as (v1 & r & -> & Hr). cbn [mbind go_bind]. destruct r as [runs|].
  - destruct Hr as (s & -> & Hfit & Hs & Hm). eexists _, _. split; [done|]. split; [done|]. unfold allocated. rewrite clusters_one. split; [apply NoDup_seqZ|].
    split; [unfold len; rewrite length_seqZ; lia|]. split; [by apply first_fit_free; [lia|]|]. split; [|split; [done|left; by exists s]].
    apply Forall_singleton. destruct Hfit as (? & ? & _). unfold run_within; cbn; lia.
  - destruct Hr as [-> Hb]. destruct (allocClusters_ok v n Hok Hmax ltac:(lia)) as (v' & r & -> & Hs & Hr). eexists _, _. split; [done|]. split; [done|].
    destruct r as [runs|e]; [|naive_solver]. destruct Hr as (Hlen & Hc & Hruns & Hm). split; [rewrite Hc; eapply sublist_NoDup; [apply (free_NoDup (bitmap v))|apply sublist_take]|].
    split; [rewrite Hc; unfold len in *; rewrite length_take; lia|]. split; [rewrite Hc; intros k (j & Hj & _)%elem_of_take; by eapply list_elem_of_lookup_2|]. split; [done|]. split; [done|]. by right.
Qed.

(** ** Freeing *)

Lemma freeCluster_ok v k : bm_ok (bitmap v) -> 1 <= k < nclusters (bitmap v) ->
  exists v', freeCluster v k = Ret v' /\ same_volume v v' /\ bm_ok (bitmap v') /\ len (bitmap v') = len (bitmap v) /\
    forall j, 0 <= j -> taken (bitmap v') j = if j =? k then false else taken (bitmap v) j.
Proof.
  intros Hok Hk. unfold freeCluster. rewrite (proj2 (Z.eqb_neq _ _)) by lia. cbv zeta. rewrite Z.quot_div_nonneg, Z.rem_mod_nonneg by lia.
  pose proof (bm_split k) as [Esp Hmod]. assert (0 <= k / 8 < len (bitmap v)) as Hi by (split; [apply Z.div_pos; lia|apply bm_index; unfold nclusters in Hk; lia]).
  rewrite (wrap_u_id 64 (k mod 8)) by lia. rewrite (proj2 (Z.ltb_lt _ _)), index_byte_at by lia. cbn [mbind go_bind]. rewrite store_ok by lia. cbn [mbind go_bind]. rewrite bm_mask by lia.
  pose proof (bm_byte_range (mkBitmap (bitmap v)) (k / 8) Hok) as Hr. cbn [bits] in Hr.
  destruct (bm_write (mkBitmap (bitmap v)) k (Z.land (byte_at (bitmap v) (k / 8)) (u8 (Z.lnot (2 ^ (k mod 8))))) false Hok) as (Hw' & _ & Hb).
  - unfold nbits. cbn [bits]. unfold nclusters in Hk. lia.
  - apply (land_range_l 8); [lia|done].
  - intros j Hj. cbn [bits]. apply bm_clear_byte; [done|lia|lia].
  - eexists. split; [done|]. split; [apply same_with|]. split; [exact Hw'|]. split; [by cbn; rewrite len_insert|]. exact Hb.
Qed.

(** [bm'] is [bm] with the clusters [ks] free. *)
Definition unmarks (bm : list Z) (ks : list Z) (bm' : list Z) : Prop :=
  bm_ok bm' /\ len bm' = len bm /\ forall j, 1 <= j -> taken bm' j = if bool_decide (j ∈ ks) then false else taken bm j.

Lemma unmarks_app a b c ks ls : unmarks a ks b -> unmarks b ls c -> unmarks a (ks ++ ls) c.
Proof.
  intros (_ & Hl & Ht) (Hok & Hl' & Ht'). split; [done|]. split; [congruence|]. intros j Hj. rewrite Ht', Ht by done.
  rewrite (bool_decide_ext _ _ (elem_of_app ks ls j)). by repeat case_bool_decide; try tauto.
Qed.

Lemma free_run_ok v r n : bm_ok (bitmap v) -> nclusters (bitmap v) = n -> n < 2 ^ 63 -> run_within n r ->
  exists v', go_range (fun i v => freeCluster v (i64 (lcn r + i))) 0 (Z.to_nat (run_length r)) v = Ret v' /\ same_volume v v' /\ unmarks (bitmap v) (seqZ (lcn r) (run_length r)) (bitmap v').
Proof.
  intros Hok Hn Hmax (H1 & H2 & H3).
  match goal with |- exists _, ?m = _ /\ _ => enough (wp m (fun v' => same_volume v v' /\ unmarks (bitmap v) (seqZ (lcn r) (0 + Z.of_nat (Z.to_nat (run_length r)))) (bitmap v')) no_err) as H end.
  { destruct (wp_no_err_Ret _ _ H) as (v' & -> & Hs & Hu). exists v'. split; [done|]. split; [done|]. by replace (0 + Z.of_nat (Z.to_nat (run_length r))) with (run_length r) in Hu by lia. }
  apply (wp_go_range (fun j v' => same_volume v v' /\ unmarks (bitmap v) (seqZ (lcn r) j) (bitmap v'))).
  - split; [apply same_refl|]. split; [done|]. split; [done|]. done.
  - intros j v1 Hj (Hs & Hok1 & Hl1 & Ht1). rewrite i64_id by lia. destruct (freeCluster_ok v1 (lcn r + j)) as (v2 & -> & Hs2 & Hok2 & Hl2 & Ht2); [done|unfold nclusters in *; rewrite Hl1; lia|].
    cbn. split; [by eapply same_trans|]. split; [done|]. split; [congruence|]. intros k Hk. rewrite Ht2, Ht1 by lia.
    assert (k ∈ seqZ (lcn r) (j + 1) <-> k = lcn r + j \/ k ∈ seqZ (lcn r) j) as Hiff by (rewrite !elem_of_seqZ; lia).
    rewrite (bool_decide_ext _ _ Hiff). destruct (Z.eqb_spec k (lcn r + j)) as [->|Hne]; [by rewrite bool_decide_eq_true_2 by (by left)|].
    by repeat case_bool_decide; try tauto.
Qed.

Lemma freeRuns_ok runs : forall v n, bm_ok (bitmap v) -> nclusters (bitmap v) = n -> n < 2 ^ 63 -> Forall (run_within n) runs ->
  exists v', freeRuns v runs = Ret v' /\ same_volume v v' /\ unmarks (bitmap v) (clusters runs) (bitmap v').
Proof.
  induction runs as [|r runs IH]; intros v n Hok Hn Hmax Hr; cbn [freeRuns].
  - exists v. split; [done|]. split; [apply same_refl|]. split; [done|]. split; [done|]. done.
  - apply Forall_cons in Hr as [Hr Hrest]. rewrite (proj2 (Z.ltb_ge _ _)) by (destruct Hr; lia).
    destruct (free_run_ok v r n Hok Hn Hmax Hr) as (v1 & -> & Hs1 & Hu1). cbn [mbind go_bind]. pose proof Hu1 as (Hok1 & Hl1 & _).
    destruct (IH v1 n Hok1) as (v2 & -> & Hs2 & Hu2); [unfold nclusters in *; by rewrite Hl1|done|done|].
    exists v2. split; [done|]. split; [by eapply same_trans|]. by eapply unmarks_app.
Qed.

(** C27. Allocating [n] clusters gives [n] different clusters that were free, none of them the
    boot sector's, and marks exactly them: in one run at the first place where that many
    lie free in a row, or else the first [n] free clusters piecewise. It fails only if fewer
    are free. Freeing what was given makes the bitmap what it was, but for the bit of the
    boot sector, which allocating sets. *)
Theorem ntfs_alloc_clusters v n : bm_ok (bitmap v) -> nclusters (bitmap v) < 2 ^ 63 -> 0 < n ->
  exists v' r, allocContiguousClusters v n = Ret (v', r) /\ same_volume v v' /\
  match r with
  | inl runs => allocated (bitmap v) n runs (bitmap v') /\
      exists v'', freeRuns v' runs = Ret v'' /\ same_volume v v'' /\ agree (bitmap v) (bitmap v'')
  | inr e => e = volume_full /\ len (free_clusters (bitmap v)) < n
  end.
Proof.
  intros Hok Hmax Hn. destruct (allocContiguous_ok v n Hok Hmax Hn) as (v' & r & E & Hs & Hr). exists v', r. split; [done|]. split; [done|].
  destruct r as [runs|e]; [|done]. split; [done|]. destruct Hr as (_ & _ & Hsub & Hruns & (Hok' & Hl' & Ht') & _).
  destruct (freeRuns_ok runs v' (nclusters (bitmap v)) Hok') as (v'' & -> & Hs' & Hok'' & Hl'' & Ht''); [unfold nclusters; by rewrite Hl'|done|done|].
  exists v''. split; [done|]. split; [by eapply same_trans|]. split; [done|]. split; [congruence|]. intros j Hj. rewrite Ht'', Ht' by done. case_bool_decide as Hin; [|done].
  apply Hsub in Hin. apply list_elem_of_filter in Hin as [Hin _]. done.
Qed.

Definition fragmented : ntfsVolume := mkVolume 0 0 4096 1024 4096 0 24 ∅ [0x6E; 0xFF; 0x0F] [] false.

Lemma ntfs_alloc_clusters_witness : exists v' v'' w',
  allocContiguousClusters fragmented 3 = Ret (v', inl [mkRun 20 3]) /\ freeRuns v' [mkRun 20 3] = Ret v'' /\ agree [0x6E; 0xFF; 0x0F] (bitmap v'') /\
  allocContiguousClusters fragmented 6 = Ret (w', inl [mkRun 4 1; mkRun 7 1; mkRun 20 4]) /\ allocated [0x6E; 0xFF; 0x0F] 6 [mkRun 4 1; mkRun 7 1; mkRun 20 4] (bitmap w').
Proof.
  assert (bm_ok (bitmap fragmented)) as Hok by (split; [apply bytes_okb_ok; by vm_compute|by vm_compute]). assert (nclusters (bitmap fragmented) < 2 ^ 63) as Hmax by (by vm_compute).
  destruct (ntfs_alloc_clusters fragmented 3 Hok Hmax ltac:(lia)) as (v' & r & E & _ & Hr). destruct (ntfs_alloc_clusters fragmented 6 Hok Hmax ltac:(lia)) as (w' & q & F & _ & Hq).
  destruct r as [runs|]; [|vm_compute in E; discriminate E]. destruct q as [runs'|]; [|vm_compute in F; discriminate F].
  assert (runs = [mkRun 20 3]) as Er by (vm_compute in E; congruence). assert (runs' = [mkRun 4 1; mkRun 7 1; mkRun 20 4]) as Eq by (vm_compute in F; congruence).
  subst runs runs'. destruct Hr as (_ & v'' & Hf & _ & Ha). destruct Hq as (Hq & _). exists v', v'', w'. exact (conj E (conj Hf (conj Ha (conj F Hq)))).
Defined.

(** When too few clusters are free, those that were are lost: they stay marked. *)
Example full_leaks : (fun '(v, r) => (bitmap v, r)) <$> allocContiguousClusters fragmented 7 = Ret ([0xFF; 0xFF; 0xFF], inr volume_full).
Proof. by vm_compute. Qed.

(** Without its bitmap, whose reading may fail, the first record of the table is given out:
    that of the table itself. *)
Example record_zero_given : (fun '(v, n) => n) <$> allocMFTRecord fragmented = Ret 0.
Proof. by vm_compute. Qed.
