(* ===== verification/NtfsAttr.v ===== *)
(** * NtfsAttr: building NTFS records (ntfs/write.go)
    Attributes added to a record and removed from it, new records, and the values of file
    name and reparse point attributes. *)
From S2P Require Import Prelude Bytes ReaderAt Text Utf16 NtfsRuns Ntfs NtfsFile.

(** ** Finding room *)

Definition cloneRecord (rec : list Z) : list Z := rec.

Definition maxResidentDataSize (rec : list Z) : go Z :=
  usedSize ← u32_from rec 0x18;
  allocSize ← u32_from rec 0x1C;
  mret (allocSize - usedSize - 24).

Definition next_round (rec : list Z) (off : Z) : go (Z + Z) :=
  if negb (off + 8 <=? len rec) then mret (inr off) else
  t ← u32_from rec off;
  if t =? attrEND then mret (inr off) else
  attrLen ← u32_from rec (off + 4);
  if attrLen <=? 0 then mret (inr off) else mret (inl (off + attrLen)).

Definition nextAttrOffset (rec : list Z) (fromOff : Z) : go Z :=
  go_for (S (length rec)) (next_round rec) fromOff.

Definition first_attr_end (rec : list Z) : go Z :=
  off ← u16_from rec 0x14;
  nextAttrOffset rec off.

(** [for len(rec) < needed { rec = append(rec, 0) }] *)
Definition grow_to (rec : list Z) (needed : Z) : list Z := rec ++ replicate (Z.to_nat (needed - len rec)) 0.

Definition assignAttrID (rec : list Z) (attrOff : Z) : go (list Z) :=
  nextID ← u16_from rec 0x28;
  rec ← put_u16 rec (attrOff + 0x0E) nextID;
  put_u16 rec 0x28 (nextID + 1).

(** [copy(rec[o:], x)] *)
Definition copy_from (rec : list Z) (o : Z) (x : list Z) : go (list Z) :=
  dst ← slice rec o (len rec);
  mret (patch rec o (take (Z.to_nat (len dst)) x)).

Definition align8 (n : Z) : Z := and_not (n + 7) 7.

(** The end marker behind the last attribute, and the size in use. *)
Definition put_end (rec : list Z) (endOff : Z) : go (list Z) :=
  rec ← put_u32 rec endOff attrEND;
  rec ← put_u32 rec (endOff + 4) 0;
  put_u32 rec 0x18 (endOff + 8).

(** ** Adding attributes *)

Definition appendResidentAttrAt (rec : list Z) (off attrType : Z) (value : list Z) : go (list Z) :=
  let hdrLen := 24 in
  let attrLen := align8 (hdrLen + len value) in
  let needed := off + attrLen + 8 in
  let rec := grow_to rec needed in
  rec ← put_u32 rec off attrType;
  rec ← put_u32 rec (off + 4) attrLen;
  rec ← store rec (off + 8) 0;
  rec ← put_u32 rec (off + 16) (len value);
  rec ← put_u16 rec (off + 20) 24;
  rec ← assignAttrID rec off;
  rec ← copy_from rec (off + 24) value;
  put_end rec (off + attrLen).

Definition appendResidentAttr (rec : list Z) (attrType : Z) (value : list Z) : go (list Z) :=
  off ← first_attr_end rec;
  appendResidentAttrAt rec off attrType value.

(** [for i, c := range u16 { binary.LittleEndian.PutUint16(rec[o+i*2:], c) }] *)
Fixpoint put_units (rec : list Z) (o : Z) (units : list Z) : go (list Z) :=
  match units with
  | [] => mret rec
  | u :: us => rec ← put_u16 rec o u; put_units rec (o + 2) us
  end.

Definition appendNamedResidentAttrAt (rec : list Z) (off attrType : Z) (name : gostring) (value : list Z) : go (list Z) :=
  let units := Encode (runes name) in
  let nameBytes := len units * 2 in
  let nameOff := 24 in
  let valOff := align8 (nameOff + nameBytes) in
  let attrLen := align8 (valOff + len value) in
  let needed := off + attrLen + 8 in
  let rec := grow_to rec needed in
  rec ← put_u32 rec off attrType;
  rec ← put_u32 rec (off + 4) attrLen;
  rec ← store rec (off + 8) 0;
  rec ← store rec (off + 9) (u8 (len units));
  rec ← put_u16 rec (off + 10) nameOff;
  rec ← put_u32 rec (off + 16) (len value);
  rec ← put_u16 rec (off + 20) valOff;
  rec ← assignAttrID rec off;
  rec ← put_units rec (off + nameOff) units;
  rec ← copy_from rec (off + valOff) value;
  put_end rec (off + attrLen).

Definition total_clusters (runs : list run) : Z := foldl (fun t r => i64 (t + run_length r)) 0 runs.

(** The sizes of a non-resident attribute and its runs. *)
Definition put_extent (rec : list Z) (off rlOff dataSize clusterSize : Z) (runs : list run) : go (list Z) :=
  let total := total_clusters runs in
  rec ← put_u64 rec (off + 0x18) (total - 1);
  rec ← put_u16 rec (off + 0x20) rlOff;
  let allocSize := i64 (total * clusterSize) in
  rec ← put_u64 rec (off + 0x28) allocSize;
  rec ← put_u64 rec (off + 0x30) dataSize;
  put_u64 rec (off + 0x38) dataSize.

Definition appendNonResidentAttr (rec : list Z) (attrType : Z) (runs : list run) (dataSize clusterSize : Z) : go (list Z) :=
  rl ← encodeRunlist runs;
  let rlOff := 0x40 in
  let attrLen := align8 (rlOff + len rl) in
  off ← first_attr_end rec;
  let needed := off + attrLen + 8 in
  let rec := grow_to rec needed in
  rec ← put_u32 rec off attrType;
  rec ← put_u32 rec (off + 4) attrLen;
  rec ← store rec (off + 8) 1;
  rec ← assignAttrID rec off;
  rec ← put_extent rec off rlOff dataSize clusterSize runs;
  rec ← copy_from rec (off + rlOff) rl;
  put_end rec (off + attrLen).

Definition appendNonResidentNamedAttr (rec : list Z) (attrType : Z) (name : gostring) (runs : list run) (dataSize clusterSize : Z) : go (list Z) :=
  let units := Encode (runes name) in
  let nameBytes := len units * 2 in
  let nameOff := 0x40 in
  let rlOff := u16 (align8 (nameOff + nameBytes)) in
  rl ← encodeRunlist runs;
  let attrLen := align8 (rlOff + len rl) in
  off ← first_attr_end rec;
  let needed := off + attrLen + 8 in
  let rec := grow_to rec needed in
  rec ← put_u32 rec off attrType;
  rec ← put_u32 rec (off + 4) attrLen;
  rec ← store rec (off + 8) 1;
  rec ← store rec (off + 9) (u8 (len units));
  rec ← put_u16 rec (off + 10) nameOff;
  rec ← assignAttrID rec off;
  rec ← put_extent rec off rlOff dataSize clusterSize runs;
  rec ← put_units rec (off + nameOff) units;
  rec ← copy_from rec (off + rlOff) rl;
  put_end rec (off + attrLen).

(** ** Removing an attribute *)

Definition removeAttr (rec : list Z) (attrType : Z) (name : gostring) : go (list Z) :=
  off ← findAttrOffset rec attrType name;
  if off <? 0 then mret rec else
  attrLen ← u32_from rec (off + 4);
  out ← make 0 1 (len rec - attrLen);
  a ← slice rec 0 off;
  let out := patch out 0 (take (length out) a) in
  b ← slice rec (off + attrLen) (len rec);
  out ← copy_from out off b;
  used ← u32_from out 0x18;
  put_u32 out 0x18 (used - attrLen).

(** ** Values *)

(** [time.Now()] is an argument of what stamps records. *)
Section now.
Context (now : Z).

Definition buildFileNameAttr (name : gostring) (parentNum fileAttrs : Z) : go (list Z) :=
  let units := Encode (runes name) in
  let buf := replicate (66 + length units * 2) 0 in
  buf ← put_u64 buf 0 (Z.lor parentNum (Z.shiftl 1 48));
  let t := u64 (timeToFiletime now) in
  buf ← put_u64 buf 8 t;
  buf ← put_u64 buf 16 t;
  buf ← put_u64 buf 24 t;
  buf ← put_u64 buf 32 t;
  buf ← put_u32 buf 56 fileAttrs;
  buf ← store buf 64 (u8 (len units));
  buf ← store buf 65 3;
  put_units buf 66 units.

Definition buildEmptyIndexRoot : go (list Z) :=
  let buf := replicate 48 0 in
  buf ← put_u32 buf 0 attrFILE_NAME;
  buf ← put_u32 buf 4 1;
  buf ← put_u32 buf 8 4096;
  buf ← store buf 12 1;
  buf ← put_u32 buf 16 16;
  buf ← put_u32 buf 20 32;
  buf ← put_u32 buf 24 32;
  buf ← put_u16 buf 40 16;
  put_u32 buf 44 idxFlagLastEntry.

Definition buildReparsePoint (tag : Z) (target : gostring) : go (list Z) :=
  let units := Encode (runes target) in
  pathBuf ← put_units (replicate (length units * 2) 0) 0 units;
  let dataLen := 12 + len pathBuf * 2 in
  let rp := replicate (Z.to_nat (8 + dataLen)) 0 in
  rp ← put_u32 rp 0 tag;
  rp ← put_u16 rp 4 dataLen;
  let subsLen := len pathBuf in
  rp ← put_u16 rp (8 + 0) 0;
  rp ← put_u16 rp (8 + 2) subsLen;
  rp ← put_u16 rp (8 + 4) subsLen;
  rp ← put_u16 rp (8 + 6) subsLen;
  rp ← put_u32 rp (8 + 8) 1;
  rp ← copy_from rp (8 + 12) pathBuf;
  copy_from rp (8 + 12 + subsLen) pathBuf.

Definition setStdInfoMtime (rec : list Z) : go (list Z) :=
  siOff ← findAttrOffset rec attrSTANDARD_INFORMATION [];
  if siOff <? 0 then mret rec else
  o ← u16_from rec (siOff + 0x14);
  let valOff := siOff + o in
  if len rec <? valOff + 16 then mret rec else put_u64 rec (valOff + 8) (timeToFiletime now).

(** Units that would not fit in the record are dropped. *)
Fixpoint put_units_within (rec : list Z) (o : Z) (units : list Z) : go (list Z) :=
  match units with
  | [] => mret rec
  | u :: us => if len rec <? o + 2 then mret rec else rec ← put_u16 rec o u; put_units_within rec (o + 2) us
  end.

Definition updateFileName (rec : list Z) (name : gostring) (parentNum : Z) : go (list Z) :=
  off ← findAttrOffset rec attrFILE_NAME [];
  if off <? 0 then mret rec else
  o ← u16_from rec (off + 0x14);
  let valOff := off + o in
  if len rec <? valOff + 8 then mret rec else
  rec ← put_u64 rec valOff (Z.lor parentNum (Z.shiftl 1 48));
  let units := Encode (runes name) in
  rec ← store rec (valOff + 64) (u8 (len units));
  put_units_within rec (valOff + 66) units.

Definition I30 : gostring := lit "$I30".

Definition buildNewRecord (mftNum : Z) (name : gostring) (parentNum : Z) (isDir : bool) (recSize : Z) : go (list Z) :=
  rec ← make 0 1 recSize;
  let rec := patch rec 0 (take (length rec) (lit "FILE")) in
  let usaOff := 0x30 in
  let usaCnt := u16 (Z.quot recSize 512 + 1) in
  rec ← put_u16 rec 0x04 usaOff;
  rec ← put_u16 rec 0x06 usaCnt;
  rec ← put_u16 rec 0x10 1;
  rec ← put_u16 rec 0x12 1;
  let firstAttrOff := u16 (0x30 + u16 (usaCnt * 2)) in
  let firstAttrOff := and_not (u16 (firstAttrOff + 7)) 7 in
  rec ← put_u16 rec 0x14 firstAttrOff;
  let flags := if isDir then Z.lor mftFlagInUse mftFlagDir else mftFlagInUse in
  rec ← put_u16 rec 0x16 flags;
  rec ← put_u32 rec 0x1C recSize;
  rec ← put_u32 rec 0x2C mftNum;
  let t := timeToFiletime now in
  let siData := replicate 72 0 in
  siData ← put_u64 siData 0 t;
  siData ← put_u64 siData 8 t;
  siData ← put_u64 siData 16 t;
  siData ← put_u64 siData 24 t;
  let fa := if isDir then faDirectory else faArchive in
  siData ← put_u32 siData 0x20 fa;
  rec ← appendResidentAttrAt rec firstAttrOff attrSTANDARD_INFORMATION siData;
  fnData ← buildFileNameAttr name parentNum fa;
  off ← nextAttrOffset rec firstAttrOff;
  rec ← appendResidentAttrAt rec off attrFILE_NAME fnData;
  '(rec, off) ← (if isDir then
      off ← nextAttrOffset rec off;
      idxRoot ← buildEmptyIndexRoot;
      rec ← appendNamedResidentAttrAt rec off attrINDEX_ROOT I30 idxRoot;
      off ← nextAttrOffset rec off;
      mret (rec, off)
    else off ← nextAttrOffset rec off; mret (rec, off));
  rec ← put_u32 rec off attrEND;
  rec ← put_u32 rec (off + 4) 0;
  let usedSize := off + 8 in
  put_u32 rec 0x18 usedSize.
End now.

(** ** A record as its header and its attributes *)

Definition attr_name (a : list Z) : gostring :=
  string_of_runes (Decode (words LE 2 (Z.to_nat (byte_at a 9)) (from a (LE a.[10, 12])))).
Definition matches (t : Z) (name : gostring) (a : list Z) : bool :=
  (LE a.[0, 4] =? t) && (bool_decide (name = []) || (0 <? byte_at a 9) && bool_decide (attr_name a = name)).

(** An attribute with its length, a type that is not the end marker, and its name inside. *)
Definition attr_ok (a : list Z) : Prop :=
  bytes_ok a /\ 16 <= len a /\ LE a.[4, 8] = len a /\ LE a.[0, 4] <> attrEND /\ (0 < byte_at a 9 -> LE a.[10, 12] + 2 * byte_at a 9 <= len a).

Definition end_mark : list Z := put_le 4 attrEND.

(** The header, the attributes, the end marker, and the bytes not in use. *)
Definition holds (rec hdr : list Z) (attrs : list (list Z)) (slack : Z) : Prop :=
  rec = hdr ++ concat attrs ++ end_mark ++ replicate (Z.to_nat slack) 0 /\
  bytes_ok hdr /\ LE hdr.[0x14, 0x16] = len hdr /\ 0x30 <= len hdr /\ Forall attr_ok attrs /\ 4 <= slack.

Lemma sub_app_r {A} (a b : list A) o hi : 0 <= o <= hi -> (a ++ b).[len a + o, len a + hi] = b.[o, hi].
Proof. intros. pose proof (len_nonneg a). rewrite sub_app_skip by lia. f_equal; lia. Qed.
Lemma from_app_more {A} (a b : list A) o : 0 <= o -> from (a ++ b) (len a + o) = from b o.
Proof. intros. unfold from. rewrite drop_app_ge by (unfold len; lia). f_equal. unfold len. lia. Qed.
Lemma byte_at_app_r a b o : 0 <= o -> byte_at (a ++ b) (len a + o) = byte_at b o.
Proof. intros. unfold byte_at, len. rewrite lookup_app_r by lia. do 2 f_equal. lia. Qed.
Lemma byte_at_app_l a b o : 0 <= o < len a -> byte_at (a ++ b) o = byte_at a o.
Proof. intros. unfold byte_at. by rewrite lookup_app_l by (unfold len in *; lia). Qed.
Lemma patch_app_r a b o x : 0 <= o -> patch (a ++ b) (len a + o) x = a ++ patch b o x.
Proof.
  intros Ho. pose proof (len_nonneg a). pose proof (len_nonneg x). unfold patch. replace (len a + o + len x) with (len a + (o + len x)) by lia. rewrite from_app_more by lia.
  rewrite (assoc app a). f_equal. unfold sub. change (Z.to_nat 0) with 0%nat. rewrite !drop_0, !Z.sub_0_r. rewrite take_app_ge by (unfold len; lia). f_equal. f_equal. unfold len. lia.
Qed.
Lemma patch_app_l a b o x : 0 <= o -> o + len x <= len a -> patch (a ++ b) o x = patch a o x ++ b.
Proof.
  intros Ho Hl. pose proof (len_nonneg x). unfold patch. rewrite sub_app_within by lia. rewrite <-!(assoc app). do 2 f_equal.
  unfold from. by rewrite drop_app_le by (unfold len in *; lia).
Qed.

Lemma words_app read size n a b : Z.of_nat (n * size) <= len a -> words read size n (a ++ b) = words read size n a.
Proof.
  revert a. induction n as [|n IH]; intros a Hl; [done|]. cbn [words]. rewrite take_app_le, drop_app_le by (unfold len in Hl; lia). f_equal. apply IH. unfold len in *. rewrite length_drop. lia.
Qed.

Lemma units_from_ok n : forall b o, 0 <= o -> o + 2 * Z.of_nat n <= len b -> units_from b o n = Ret (words LE 2 n (from b o)).
Proof.
  induction n as [|n IH]; intros b o Ho Hl; cbn [units_from words]; [done|]. rewrite u16_ok by lia. cbn [mbind go_bind]. rewrite IH by lia. cbn [mbind go_bind mret go_ret]. do 2 f_equal.
  - unfold sub, from. do 2 f_equal. lia.
  - unfold from. rewrite drop_drop. f_equal. f_equal. lia.
Qed.

Section search.
Context (t : Z) (name : gostring).

Lemma find_at pre a post : attr_ok a -> find_round (pre ++ a ++ post) t name (len pre) = Ret (if matches t name a then inr (Some (len pre)) else inl (len pre + len a)).
Proof.
  intros (Hb & Hl & Hlen & Hend & Hname). pose proof (len_nonneg pre). pose proof (len_nonneg post). unfold find_round. assert (len (pre ++ a ++ post) = len pre + len a + len post) as Ht by (rewrite !len_app; lia).
  assert (forall o n, 0 <= o -> 0 <= n -> o + n <= len a -> (pre ++ a ++ post).[len pre + o, len pre + o + n] = a.[o, o + n]) as Hs.
  { intros o n Ho Hn Hon. replace (len pre + o + n) with (len pre + (o + n)) by lia. rewrite sub_app_r by lia. by apply sub_app_within. }
  rewrite (proj2 (Z.leb_le _ _)) by lia. cbn [negb]. rewrite !u32_ok by lia. cbn [mbind go_bind].
  pose proof (Hs 0 4 ltac:(lia) ltac:(lia) ltac:(lia)) as E0. rewrite Z.add_0_r in E0. rewrite E0. rewrite (proj2 (Z.eqb_neq _ _)) by done.
  rewrite (Hs 4 4) by lia. change (4 + 4) with 8. change (0 + 4) with 4. rewrite Hlen. rewrite (proj2 (Z.leb_gt _ _)), (proj2 (Z.ltb_ge _ _)) by lia. cbn [orb].
  unfold matches. destruct (Z.eqb_spec (LE a.[0, 4]) t); cbn [andb]; [|done]. case_bool_decide; cbn [orb]; [done|].
  rewrite index_byte_at by lia. cbn [mbind go_bind]. rewrite byte_at_app_r, byte_at_app_l by lia. rewrite u16_ok by lia. cbn [mbind go_bind]. rewrite (Hs 10 2) by lia. change (10 + 2) with 12.
  destruct (Z.ltb_spec 0 (byte_at a 9)) as [Hn|]; cbn [andb]; [|done]. specialize (Hname Hn).
  assert (0 <= LE a.[10, 12]) as Ho by (pose proof (LE_sub_range a 10 2 Hb ltac:(lia)); change (10 + 2) with 12 in *; lia).
  rewrite (proj2 (Z.leb_le _ _)) by lia. unfold utf16_string. rewrite units_from_ok by lia. cbn [mbind go_bind mret go_ret].
  rewrite from_app_more by lia. assert (from (a ++ post) (LE a.[10, 12]) = from a (LE a.[10, 12]) ++ post) as ->.
  { unfold from. apply drop_app_le. unfold len in *. lia. }
  rewrite words_app by (rewrite len_from by lia; lia). fold (attr_name a). by case_bool_decide.
Qed.

Lemma find_end pre slack : 4 <= slack -> find_round (pre ++ end_mark ++ replicate (Z.to_nat slack) 0) t name (len pre) = Ret (inr None).
Proof.
  intros Hs. pose proof (len_nonneg pre). unfold find_round. assert (len (pre ++ end_mark ++ replicate (Z.to_nat slack) 0) = len pre + 4 + slack) as Ht by (rewrite !len_app, len_replicate; change (len end_mark) with 4; lia).
  rewrite (proj2 (Z.leb_le _ _)) by lia. cbn [negb]. rewrite (u32_ok _ (len pre)) by lia. cbn [mbind go_bind].
  by rewrite (sub_mid pre end_mark).
Qed.

Lemma find_rounds attrs : forall fuel pre slack, Forall attr_ok attrs -> 4 <= slack -> (length attrs < fuel)%nat ->
  go_for fuel (find_round (pre ++ concat attrs ++ end_mark ++ replicate (Z.to_nat slack) 0) t name) (len pre) =
  Ret ((fun i => len pre + len (concat (take i attrs))) <$> (fst <$> list_find (fun a => matches t name a = true) attrs)).
Proof.
  induction attrs as [|a attrs IH]; intros [|fuel] pre slack Hok Hs Hf; [cbn in Hf; lia| |cbn in Hf; lia|]; cbn [go_for].
  - cbn [concat app]. by rewrite find_end.
  - apply Forall_cons in Hok as [Ha Hok]. cbn [concat]. rewrite <-(assoc app a), find_at by done. cbn [list_find]. destruct (matches t name a) eqn:E; cbn [mbind go_bind mret go_ret].
    + rewrite decide_True by done. cbn. by rewrite Z.add_0_r.
    + rewrite decide_False by done.
      assert (pre ++ (a ++ concat attrs) ++ end_mark ++ replicate (Z.to_nat slack) 0 = (pre ++ a) ++ concat attrs ++ end_mark ++ replicate (Z.to_nat slack) 0) as -> by (by rewrite <-!(assoc app)).
      rewrite <-len_app, IH by (done || (cbn in Hf; lia)). f_equal.
      destruct (list_find _ attrs) as [[i x]|]; [|done]. cbn [fmap option_fmap option_map fst prod_map]. f_equal. cbn [take concat]. rewrite !len_app. lia.
Qed.

Lemma find_loop_ok rec hdr attrs slack : holds rec hdr attrs slack ->
  find_loop rec t name = Ret ((fun i => len hdr + len (concat (take i attrs))) <$> (fst <$> list_find (fun a => matches t name a = true) attrs)).
Proof.
  intros (-> & Hb & Hfirst & Hh & Hok & Hs). unfold find_loop.
  assert (0x30 <= len (hdr ++ concat attrs ++ end_mark ++ replicate (Z.to_nat slack) 0)) as Hlen by (rewrite len_app; pose proof (len_nonneg (concat attrs ++ end_mark ++ replicate (Z.to_nat slack) 0)); lia).
  rewrite (proj2 (Z.ltb_ge _ _)), u16_ok by lia. cbn [mbind go_bind]. rewrite sub_app_within by lia. change (20 + 2) with 22. rewrite Hfirst.
  apply find_rounds; [done|done|]. rewrite !length_app. assert (length attrs <= length (concat attrs))%nat; [|lia].
  clear -Hok. induction Hok as [|a attrs (_ & Ha & _) _ IH]; [done|]. cbn [concat length]. rewrite length_app. unfold len in Ha. lia.
Qed.
End search.

Lemma findAttr_ok t name rec hdr attrs slack : holds rec hdr attrs slack ->
  findAttr rec t name = Ret (snd <$> list_find (fun a => matches t name a = true) attrs).
Proof.
  intros Hh. unfold findAttr. rewrite (find_loop_ok t name rec hdr attrs slack Hh). cbn [mbind go_bind]. destruct Hh as (-> & _ & _ & _ & Hok & Hs).
  destruct (list_find _ attrs) as [[i a]|] eqn:E; [|done]. cbn [fmap option_fmap option_map fst snd]. apply list_find_Some in E as (Hi & _ & _).
  rewrite Forall_forall in Hok. destruct (Hok a) as (_ & Hl & Hlen & _ & _); [by eapply list_elem_of_lookup_2|].
  assert (concat attrs = concat (take i attrs) ++ a ++ concat (drop (S i) attrs)) as -> by (rewrite <-(take_drop_middle attrs i a Hi) at 1; by rewrite concat_app).
  set (pre := hdr ++ concat (take i attrs)). replace (len hdr + len (concat (take i attrs))) with (len pre) by (unfold pre; rewrite len_app; lia).
  set (post := concat (drop (S i) attrs) ++ end_mark ++ replicate (Z.to_nat slack) 0).
  assert (hdr ++ (concat (take i attrs) ++ a ++ concat (drop (S i) attrs)) ++ end_mark ++ replicate (Z.to_nat slack) 0 = pre ++ a ++ post) as -> by (unfold pre, post; by rewrite <-!(assoc app)).
  pose proof (len_nonneg pre). pose proof (len_nonneg post). rewrite u32_ok by (rewrite ?len_app; lia). cbn [mbind go_bind].
  replace (len pre + 4 + 4) with (len pre + 8) by lia. rewrite sub_app_r, sub_app_within, Hlen by lia. rewrite slice_ok by (rewrite ?len_app; lia). cbn [mbind go_bind]. by rewrite sub_mid.
Qed.

Lemma next_rounds attrs : forall fuel pre slack, Forall attr_ok attrs -> 4 <= slack -> (length attrs < fuel)%nat ->
  go_for fuel (next_round (pre ++ concat attrs ++ end_mark ++ replicate (Z.to_nat slack) 0)) (len pre) = Ret (len pre + len (concat attrs)).
Proof.
  induction attrs as [|a attrs IH]; intros [|fuel] pre slack Hok Hs Hf; [cbn in Hf; lia| |cbn in Hf; lia|]; cbn [go_for concat]; pose proof (len_nonneg pre).
  - cbn [app]. unfold next_round at 2. assert (len (pre ++ end_mark ++ replicate (Z.to_nat slack) 0) = len pre + 4 + slack) as Ht by (rewrite !len_app, len_replicate; change (len end_mark) with 4; lia).
    rewrite (proj2 (Z.leb_le _ _)) by lia. cbn [negb]. rewrite (u32_ok _ (len pre)) by lia. cbn [mbind go_bind]. rewrite (sub_mid pre end_mark _ (len pre) (len pre + 4) eq_refl eq_refl). change (LE end_mark =? attrEND) with true. cbn. by rewrite Z.add_0_r.
  - apply Forall_cons in Hok as [(Hb & Hl & Hlen & Hend & _) Hok].
    set (rest := concat attrs ++ end_mark ++ replicate (Z.to_nat slack) 0). assert (pre ++ (a ++ concat attrs) ++ end_mark ++ replicate (Z.to_nat slack) 0 = pre ++ a ++ rest) as E1 by (unfold rest; by rewrite <-!(assoc app)).
    assert (pre ++ (a ++ concat attrs) ++ end_mark ++ replicate (Z.to_nat slack) 0 = (pre ++ a) ++ rest) as E2 by (unfold rest; by rewrite <-!(assoc app)).
    assert (next_round (pre ++ a ++ rest) (len pre) = Ret (inl (len pre + len a))) as E.
    { pose proof (len_nonneg rest). unfold next_round. rewrite (proj2 (Z.leb_le _ _)) by (rewrite !len_app; lia). cbn [negb]. rewrite !u32_ok by (rewrite ?len_app; lia). cbn [mbind go_bind].
      assert ((pre ++ a ++ rest).[len pre, len pre + 4] = a.[0, 4]) as ->.
      { rewrite <-(Z.add_0_r (len pre)) at 1. rewrite sub_app_r, sub_app_within by lia. done. }
      replace (len pre + 4 + 4) with (len pre + 8) by lia. rewrite sub_app_r, sub_app_within, Hlen by lia. rewrite (proj2 (Z.eqb_neq _ _)), (proj2 (Z.leb_gt _ _)) by (done || lia). done. }
    rewrite E1, E. cbn [mbind go_bind]. rewrite <-E1, E2. rewrite <-len_app. unfold rest. rewrite IH by (done || (cbn in Hf; lia)). rewrite !len_app. f_equal. lia.
Qed.

Lemma attrs_short attrs : Forall attr_ok attrs -> (length attrs <= length (concat attrs))%nat.
Proof. induction 1 as [|a attrs (_ & Ha & _) _ IH]; [done|]. cbn [concat length]. rewrite length_app. unfold len in Ha. lia. Qed.

Lemma first_attr_end_ok rec hdr attrs slack : holds rec hdr attrs slack -> first_attr_end rec = Ret (len hdr + len (concat attrs)).
Proof.
  intros (-> & Hb & Hfirst & Hh & Hok & Hs). unfold first_attr_end. pose proof (len_nonneg (concat attrs ++ end_mark ++ replicate (Z.to_nat slack) 0)).
  rewrite u16_ok by (rewrite ?len_app in *; lia). cbn [mbind go_bind]. rewrite sub_app_within by lia. change (20 + 2) with 22. rewrite Hfirst. unfold nextAttrOffset.
  apply next_rounds; [done|done|]. pose proof (attrs_short attrs Hok). rewrite !length_app. lia.
Qed.

(** ** Adding an attribute behind the others *)

Section region.
Context (a b : list Z) (off : Z) (Hoff : off = len a).

Lemma put_r o x : 0 <= o -> o + len x <= len b -> put_word (a ++ b) (off + o) (len (a ++ b)) x = Ret (a ++ patch b o x).
Proof using Hoff. intros. subst off. pose proof (len_nonneg a). rewrite put_from_ok by (rewrite ?len_app; lia). by rewrite patch_app_r by lia. Qed.

Lemma put_r0 x : len x <= len b -> put_word (a ++ b) off (len (a ++ b)) x = Ret (a ++ patch b 0 x).
Proof using Hoff. intros. rewrite <-put_r by lia. by rewrite Z.add_0_r. Qed.

Lemma store_r o x : is_byte x -> 0 <= o < len b -> store (a ++ b) (off + o) x = Ret (a ++ patch b o (put_le 1 x)).
Proof using Hoff.
  intros Hx Ho. subst off. pose proof (len_nonneg a). unfold is_byte in Hx. rewrite store_patch by (rewrite ?len_app; lia). rewrite patch_app_r by lia.
  cbn [put_le]. by rewrite Z.mod_small by lia.
Qed.

Lemma copy_r o x : 0 <= o -> o + len x <= len b -> copy_from (a ++ b) (off + o) x = Ret (a ++ patch b o x).
Proof using Hoff.
  intros. subst off. pose proof (len_nonneg a). pose proof (len_nonneg x). unfold copy_from. rewrite slice_ok by (rewrite ?len_app; lia). cbn [mbind go_bind].
  rewrite len_sub by (rewrite ?len_app; lia). rewrite take_ge by (rewrite length_len, len_app; lia). by rewrite patch_app_r by lia.
Qed.

Lemma put_l o x : 0 <= o -> o + len x <= len a -> put_word (a ++ b) o (len (a ++ b)) x = Ret (patch a o x ++ b).
Proof using. intros. pose proof (len_nonneg b). rewrite put_from_ok by (rewrite ?len_app; lia). by rewrite patch_app_l by lia. Qed.

Lemma assign_id : 0x30 <= off -> 16 <= len b ->
  assignAttrID (a ++ b) off = Ret (patch a 0x28 (put_le 2 (LE a.[0x28, 0x2a] + 1)) ++ patch b 14 (put_le 2 (LE a.[0x28, 0x2a]))).
Proof using Hoff.
  intros Ho Hb. unfold assignAttrID. rewrite u16_ok by (rewrite ?len_app; lia). cbn [mbind go_bind]. rewrite sub_app_within by lia. change (40 + 2) with 42.
  unfold put_u16. rewrite put_r by (rewrite ?len_put_le; lia). cbn [mbind go_bind]. subst off.
  assert (len (a ++ b) = len (a ++ patch b 14 (put_le 2 (LE a.[40, 42])))) as _ by (rewrite !len_app, patch_len by (rewrite ?len_put_le; lia); done).
  pose proof (len_nonneg b). rewrite put_from_ok by (rewrite ?len_app, ?patch_len, ?len_put_le by (rewrite ?len_put_le; lia); lia). rewrite patch_app_l by (rewrite ?len_put_le; lia). done.
Qed.
End region.

Lemma align8_ok n : 0 <= n -> n <= align8 n <= n + 7 /\ align8 n mod 8 = 0.
Proof.
  intros Hn. assert (align8 n = (n + 7) / 8 * 8) as ->.
  { unfold align8, and_not. rewrite <-Z.ldiff_land. change 7 with (Z.ones 3) at 2. rewrite Z.ldiff_ones_r, Z.shiftr_div_pow2, Z.shiftl_mul_pow2 by lia. done. }
  rewrite Z.mod_mul by lia. pose proof (Z.div_mod (n + 7) 8). pose proof (Z.mod_pos_bound (n + 7) 8). lia.
Qed.

(** The bytes behind the last attribute, with room for an attribute and the end marker. *)
Definition free_space (m : Z) : list Z := end_mark ++ replicate (Z.to_nat m) 0.

Lemma len_free_space m : 0 <= m -> len (free_space m) = m + 4.
Proof. intros. unfold free_space. rewrite len_app, len_replicate. change (len end_mark) with 4. lia. Qed.

Lemma free_space_zero m lo hi : 4 <= lo <= hi -> hi <= m + 4 -> (free_space m).[lo, hi] = replicate (Z.to_nat (hi - lo)) 0.
Proof.
  intros. unfold free_space. rewrite sub_app_skip by (change (len end_mark) with 4; lia). unfold sub. rewrite drop_replicate, take_replicate. f_equal. change (len end_mark) with 4. lia.
Qed.

Lemma grow_holds rec hdr attrs slack room : holds rec hdr attrs slack -> 4 <= room ->
  grow_to rec (len hdr + len (concat attrs) + room) = (hdr ++ concat attrs) ++ free_space (Z.max slack (room - 4)).
Proof.
  intros (-> & _ & _ & _ & _ & Hs) Hr. unfold grow_to, free_space. rewrite <-!(assoc app). do 3 f_equal. rewrite <-replicate_add. f_equal.
  rewrite !len_app, len_replicate. change (len end_mark) with 4. lia.
Qed.

(** What is left of a record is one that holds the attributes and one more. *)
Lemma holds_snoc (hdr : list Z) attrs m attrLen (hdr' body : list Z) : Forall attr_ok attrs -> attr_ok body.[0, attrLen] -> 0x30 <= len hdr -> 0 <= attrLen -> attrLen + 4 <= m -> len body = m + 4 ->
  body.[attrLen, attrLen + 4] = end_mark -> body.[attrLen + 4, len body] = replicate (Z.to_nat (m - attrLen)) 0 ->
  bytes_ok hdr' -> len hdr' = len hdr -> LE hdr'.[0x14, 0x16] = len hdr ->
  holds ((hdr' ++ concat attrs) ++ body) hdr' (attrs ++ [body.[0, attrLen]]) (m - attrLen).
Proof.
  intros Hok Ha Hh Hl Hm Hlen Hend Hz Hb Hlh Hf. split; [|split; [done|split; [by rewrite Hlh|split; [lia|split; [by apply Forall_app_2; [|apply Forall_singleton]|lia]]]]].
  rewrite <-!(assoc app). f_equal. rewrite concat_app. cbn [concat]. rewrite app_nil_r, <-(assoc app). f_equal.
  transitivity (body.[0, attrLen] ++ body.[attrLen, attrLen + 4] ++ body.[attrLen + 4, len body]); [|by rewrite Hend, Hz].
  rewrite (sub_cat body attrLen), (sub_cat body 0) by lia. by rewrite sub_full.
Qed.

(** The header after an attribute was added: the next number and the size in use. *)
Definition new_header (hdr : list Z) (used : Z) : list Z :=
  patch (patch hdr 0x28 (put_le 2 (LE hdr.[0x28, 0x2a] + 1))) 0x18 (put_le 4 used).

Lemma new_header_ok hdr used : 0x30 <= len hdr -> bytes_ok hdr ->
  bytes_ok (new_header hdr used) /\ len (new_header hdr used) = len hdr /\ (new_header hdr used).[0x14, 0x16] = hdr.[0x14, 0x16].
Proof.
  intros Hl Hb. unfold new_header. split; [repeat apply patch_bytes; auto using put_le_bytes|]. split; [patch_lens|]. patch_slices. done.
Qed.

(** A resident attribute without a name. *)
Definition resident (a : list Z) (t : Z) (value : list Z) : Prop :=
  attr_ok a /\ LE a.[0, 4] = t /\ byte_at a 8 = 0 /\ byte_at a 9 = 0 /\
  LE a.[0x10, 0x14] = len value /\ LE a.[0x14, 0x16] = 24 /\ 24 + len value <= len a /\ a.[24, 24 + len value] = value.

Definition type_ok (t : Z) : Prop := 0 <= t < attrEND.

Lemma byte_of_slice b k x : 0 <= k < len b -> b.[k, k + 1] = [x] -> byte_at b k = x.
Proof. intros Hk E. rewrite <-byte_at_sub in E by done. congruence. Qed.

Lemma zero_byte m k : 4 <= k < m + 4 -> (free_space m).[k, k + 1] = [0].
Proof. intros. rewrite free_space_zero by lia. by replace (Z.to_nat (k + 1 - k)) with 1%nat by lia. Qed.

Lemma bytes_free_space m : bytes_ok (free_space m).
Proof. apply Forall_app_2; [apply put_le_bytes|apply bytes_ok_zeros]. Qed.

(** For buffers written field by field: every layer is named, with its length, before slices
    are pushed through the layers. *)
#[local] Ltac name_layers N :=
  repeat match goal with |- context [patch ?b ?o ?x] => is_var b;
    let P := fresh "P" in let E := fresh "E" in let Hl := fresh "Hl" in
    remember (patch b o x) as P eqn:E; assert (len P = N) as Hl by (rewrite E, patch_len; rewrite ?len_put_le; lia) end.
#[local] Ltac peel_layers :=
  repeat match goal with E : ?P = patch ?b ?o ?x |- context [?P.[?lo, ?hi]] =>
    rewrite E; first [rewrite sub_patch_at by (rewrite ?len_put_le; lia) | rewrite sub_patch_other by (rewrite ?len_put_le; lia)] end.

Section resident_body.
Context (m t L id : Z) (value : list Z).
Hypothesis (Ht : type_ok t) (Hv : bytes_ok value) (HL : 24 + len value <= L) (HL32 : L < 2 ^ 32) (Hm : L + 4 <= m).

Definition resident_body : list Z :=
  patch (patch (patch (patch (patch (patch (patch (patch (patch (free_space m) 0 (put_le 4 t)) 4 (put_le 4 L)) 8 (put_le 1 0)) 16 (put_le 4 (len value))) 20 (put_le 2 24)) 14 (put_le 2 id)) 24 value) L (put_le 4 attrEND)) (L + 4) (put_le 4 0).

Lemma resident_body_slices : len resident_body = m + 4 /\
  (resident_body.[0, 4] = put_le 4 t /\ resident_body.[4, 8] = put_le 4 L /\ resident_body.[8, 9] = [0] /\ resident_body.[9, 10] = [0] /\
   resident_body.[16, 20] = put_le 4 (len value) /\ resident_body.[20, 22] = put_le 2 24) /\
  resident_body.[24, 24 + len value] = value /\ resident_body.[L, L + 4] = end_mark /\
  resident_body.[L + 4, L + 8] = replicate 4 0 /\ resident_body.[L + 8, m + 4] = replicate (Z.to_nat (m - L - 4)) 0.
Proof using HL Hm.
  pose proof (len_nonneg value). pose proof (len_free_space m ltac:(lia)) as HlB. pose proof (zero_byte m 9 ltac:(lia)) as Hz9.
  pose proof (free_space_zero m (L + 8) (m + 4) ltac:(lia) ltac:(lia)) as Hz2.
  unfold resident_body. remember (free_space m) as B eqn:EB. clear EB. name_layers (m + 4). repeat split; peel_layers; try done.
  rewrite Hz2. f_equal. lia.
Qed.

Lemma bytes_resident_body : bytes_ok resident_body.
Proof using Hv. unfold resident_body. repeat apply patch_bytes; auto using put_le_bytes, bytes_free_space. Qed.

Lemma resident_body_end : resident_body.[L, L + 4] = end_mark /\ resident_body.[L + 4, len resident_body] = replicate (Z.to_nat (m - L)) 0.
Proof using HL Hm.
  pose proof (len_nonneg value). destruct resident_body_slices as (Hl & _ & _ & Ee & E4 & Er). rewrite Hl. split; [done|].
  rewrite <-(sub_cat _ (L + 4) (L + 8)) by lia. rewrite E4, Er, <-replicate_add. f_equal. lia.
Qed.

Lemma resident_body_ok : resident resident_body.[0, L] t value.
Proof using Ht Hv HL HL32 Hm.
  pose proof (len_nonneg value) as Hv0. destruct resident_body_slices as (Hlen & (F0 & F4 & F8 & F9 & F16 & F20) & Fv & _).
  unfold type_ok, attrEND in Ht.
  assert (forall lo hi, 0 <= lo <= hi -> hi <= L -> resident_body.[0, L].[lo, hi] = resident_body.[lo, hi]) as Hs by (intros; rewrite sub_of_sub by lia; f_equal; lia).
  assert (byte_at resident_body.[0, L] 8 = 0 /\ byte_at resident_body.[0, L] 9 = 0) as [B8 B9].
  { rewrite !byte_at_of_sub by lia. split; apply byte_of_slice; (lia || done). }
  assert (len resident_body.[0, L] = L) as Hl by (rewrite len_sub by lia; lia).
  unfold resident, attr_ok. rewrite !Hs, Hl, F0, F4, F16, F20, !LE_put_le, B8, B9, Fv by lia. change (256 ^ Z.of_nat 4) with (2 ^ 32). rewrite !Z.mod_small by lia. change (attrEND) with 0xFFFFFFFF.
  repeat split; (lia || auto using bytes_ok_sub, bytes_resident_body).
Qed.
End resident_body.

Lemma appendResidentAttrAt_ok rec hdr attrs slack t value : holds rec hdr attrs slack -> type_ok t -> bytes_ok value -> len value < 2 ^ 31 ->
  exists rec' hdr' a slack', appendResidentAttrAt rec (len hdr + len (concat attrs)) t value = Ret rec' /\
    holds rec' hdr' (attrs ++ [a]) slack' /\ resident a t value /\ len hdr' = len hdr /\ hdr'.[0x16, 0x18] = hdr.[0x16, 0x18] /\ len rec' <= len rec + 2 ^ 32.
Proof.
  intros Hh Ht Hv Hlv. pose proof Hh as (_ & Hb & Hf & Hl & Hok & Hs). pose proof (len_nonneg value). destruct (align8_ok (24 + len value) ltac:(lia)) as [HL _].
  set (L := align8 (24 + len value)) in *. set (off := len hdr + len (concat attrs)). pose proof (len_nonneg (concat attrs)).
  unfold appendResidentAttrAt. fold L. cbv zeta. unfold off. rewrite <-(Z.add_assoc _ L 8), (grow_holds rec hdr attrs slack (L + 8) Hh) by lia.
  set (m := Z.max slack (L + 8 - 4)). set (A := hdr ++ concat attrs). assert (L + 4 <= m) as Hm by (unfold m; lia).
  assert (len A = len hdr + len (concat attrs)) as HlA by (unfold A; by rewrite len_app). rewrite <-HlA. pose proof (len_free_space m ltac:(lia)) as HlB.
  unfold put_u32, put_u16. rewrite put_r0 by (rewrite ?len_put_le; done || lia). cbn [mbind go_bind].
  do 4 (first [rewrite put_r by (done || patch_lens) | rewrite store_r by (done || apply is_byte_0 || patch_lens)]; cbn [mbind go_bind]).
  rewrite assign_id by (done || patch_lens). cbn [mbind go_bind].
  assert (LE A.[0x28, 0x2a] = LE hdr.[0x28, 0x2a]) as Eid by (unfold A; by rewrite sub_app_within by lia).
  assert (len A = len (patch A 0x28 (put_le 2 (LE A.[0x28, 0x2a] + 1)))) as HlA1 by (symmetry; patch_lens).
  rewrite (copy_r (patch A _ _) _ (len A) HlA1) by patch_lens. cbn [mbind go_bind]. unfold put_end, put_u32.
  rewrite (put_r (patch A _ _) _ (len A) HlA1) by patch_lens. cbn [mbind go_bind]. rewrite <-(Z.add_assoc (len A) L 4). rewrite (put_r (patch A _ _) _ (len A) HlA1) by patch_lens. cbn [mbind go_bind].
  rewrite put_l by patch_lens. fold (resident_body m t L (LE A.[0x28, 0x2a]) value). rewrite Eid. unfold A.
  rewrite (patch_app_l hdr) by patch_lens. rewrite (patch_app_l (patch hdr _ _)) by patch_lens. rewrite len_app. fold (new_header hdr (len hdr + len (concat attrs) + L + 8)).
  destruct (new_header_ok hdr (len hdr + len (concat attrs) + L + 8) Hl Hb) as (Hb' & Hl' & Hf').
  destruct (resident_body_end m t L (LE hdr.[40, 42]) value ltac:(lia) ltac:(lia)) as (Hend & Hz).
  eexists _, (new_header hdr (len hdr + len (concat attrs) + L + 8)), (resident_body m t L (LE hdr.[40, 42]) value).[0, L], (m - L). split; [done|]. split; [|split; [apply resident_body_ok; (done || lia)|split; [done|]]].
  - apply (holds_snoc hdr); try done; try lia; [by apply (resident_body_ok m t L (LE hdr.[40, 42]) value); [..|lia|lia|lia]|apply (resident_body_slices m t L (LE hdr.[40, 42]) value); lia|by rewrite Hf'].
  - split; [unfold new_header; patch_slices; done|]. destruct Hh as (-> & _). rewrite !len_app, Hl', (proj1 (resident_body_slices m t L (LE hdr.[40, 42]) value ltac:(lia) ltac:(lia))), len_replicate by lia. change (len end_mark) with 4. lia.
Qed.

(** ** Attributes in runs *)

(** An attribute without a name whose data are in runs. *)
Definition in_runs (a : list Z) (t : Z) (runs : list run) (dataSize : Z) : Prop :=
  attr_ok a /\ LE a.[0, 4] = t /\ byte_at a 8 = 1 /\ byte_at a 9 = 0 /\ LE a.[0x20, 0x22] = 0x40 /\ i64 (LE a.[0x30, 0x38]) = dataSize /\ 0x40 < len a /\
  decodeRunlist (from a 0x40) = Ret (normal_run <$> runs).

Section runs_body.
Context (m t L id last alloc size : Z) (rl : list Z).
Hypothesis (Ht : type_ok t) (Hv : bytes_ok rl) (HL : 0x40 + len rl <= L) (HL32 : L < 2 ^ 32) (Hm : L + 4 <= m) (Hsize : 0 <= size < 2 ^ 63).

Definition runs_body : list Z :=
  patch (patch (patch (patch (patch (patch (patch (patch (patch (patch (patch (patch (free_space m) 0 (put_le 4 t)) 4 (put_le 4 L)) 8 (put_le 1 1)) 14 (put_le 2 id))
    0x18 (put_le 8 last)) 0x20 (put_le 2 0x40)) 0x28 (put_le 8 alloc)) 0x30 (put_le 8 size)) 0x38 (put_le 8 size)) 0x40 rl) L (put_le 4 attrEND)) (L + 4) (put_le 4 0).

Lemma runs_body_slices : len runs_body = m + 4 /\
  (runs_body.[0, 4] = put_le 4 t /\ runs_body.[4, 8] = put_le 4 L /\ runs_body.[8, 9] = [1] /\ runs_body.[9, 10] = [0] /\
   runs_body.[0x20, 0x22] = put_le 2 0x40 /\ runs_body.[0x30, 0x38] = put_le 8 size) /\
  runs_body.[0x40, 0x40 + len rl] = rl /\ runs_body.[0x40 + len rl, L] = replicate (Z.to_nat (L - 0x40 - len rl)) 0 /\ runs_body.[L, L + 4] = end_mark /\
  runs_body.[L + 4, L + 8] = replicate 4 0 /\ runs_body.[L + 8, m + 4] = replicate (Z.to_nat (m - L - 4)) 0.
Proof using HL Hm.
  pose proof (len_nonneg rl). pose proof (len_free_space m ltac:(lia)) as HlB. pose proof (zero_byte m 9 ltac:(lia)) as Hz9.
  pose proof (free_space_zero m (0x40 + len rl) L ltac:(lia) ltac:(lia)) as Hz1. pose proof (free_space_zero m (L + 8) (m + 4) ltac:(lia) ltac:(lia)) as Hz2.
  unfold runs_body. remember (free_space m) as B eqn:EB. clear EB. name_layers (m + 4). repeat split; peel_layers; try done.
  - rewrite Hz1. f_equal. lia.
  - rewrite Hz2. f_equal. lia.
Qed.

Lemma bytes_runs_body : bytes_ok runs_body.
Proof using Hv. unfold runs_body. repeat apply patch_bytes; auto using put_le_bytes, bytes_free_space. Qed.

Lemma runs_body_rest : runs_body.[0x40, L] = rl ++ replicate (Z.to_nat (L - 0x40 - len rl)) 0 /\ runs_body.[L, L + 4] = end_mark /\
  runs_body.[L + 4, len runs_body] = replicate (Z.to_nat (m - L)) 0.
Proof using HL Hm.
  pose proof (len_nonneg rl). destruct runs_body_slices as (Hl & _ & Er & Ez & Ee & E4 & Er2). rewrite Hl. split; [|split; [done|]].
  - rewrite <-(sub_cat _ 0x40 (0x40 + len rl)) by lia. by rewrite Er, Ez.
  - rewrite <-(sub_cat _ (L + 4) (L + 8)) by lia. rewrite E4, Er2, <-replicate_add. f_equal. lia.
Qed.

Lemma runs_body_ok runs : 0x40 + len rl < L \/ 0 < len rl -> decodeRunlist (rl ++ replicate (Z.to_nat (L - 0x40 - len rl)) 0) = Ret (normal_run <$> runs) -> in_runs runs_body.[0, L] t runs size.
Proof using Ht Hv HL HL32 Hm Hsize.
  intros Hne Hdec. pose proof (len_nonneg rl) as Hv0. destruct runs_body_slices as (Hlen & (F0 & F4 & F8 & F9 & F20 & F30) & _). destruct runs_body_rest as (Fr & _ & _).
  unfold type_ok, attrEND in Ht.
  assert (forall lo hi, 0 <= lo <= hi -> hi <= L -> runs_body.[0, L].[lo, hi] = runs_body.[lo, hi]) as Hs by (intros; rewrite sub_of_sub by lia; f_equal; lia).
  assert (byte_at runs_body.[0, L] 8 = 1 /\ byte_at runs_body.[0, L] 9 = 0) as [B8 B9].
  { rewrite !byte_at_of_sub by lia. split; apply byte_of_slice; (lia || done). }
  assert (len runs_body.[0, L] = L) as Hl by (rewrite len_sub by lia; lia).
  assert (from runs_body.[0, L] 0x40 = runs_body.[0x40, L]) as Hfrom.
  { rewrite <-(Hs 0x40 L) by lia. destruct (sub_from runs_body.[0, L] 0x40) as [E|]; [|lia]. rewrite <-E. f_equal. lia. }
  unfold in_runs, attr_ok. rewrite !Hs, Hl, F0, F4, F20, F30, !LE_put_le, B8, B9, Hfrom, Fr by lia. change (256 ^ Z.of_nat 4) with (2 ^ 32). change (256 ^ Z.of_nat 8) with (2 ^ 64). change attrEND with 0xFFFFFFFF.
  rewrite !Z.mod_small, i64_id by lia. repeat split; (lia || auto using bytes_ok_sub, bytes_runs_body).
Qed.
End runs_body.

Lemma appendNonResidentAttr_ok rec hdr attrs slack t runs dataSize clusterSize : holds rec hdr attrs slack -> type_ok t -> Forall run_ok runs ->
  0 <= dataSize < 2 ^ 63 -> (forall e, encodeRunlist runs = Ret e -> 0 < len e < 2 ^ 31) ->
  exists rec' hdr' a slack', appendNonResidentAttr rec t runs dataSize clusterSize = Ret rec' /\
    holds rec' hdr' (attrs ++ [a]) slack' /\ in_runs a t runs dataSize /\ len hdr' = len hdr /\ hdr'.[0x16, 0x18] = hdr.[0x16, 0x18] /\ len rec' <= len rec + 2 ^ 32.
Proof.
  intros Hh Ht Hruns Hds Hle. pose proof Hh as (_ & Hb & Hf & Hl & Hok & Hs).
  destruct (runlist_decoded runs [] Hruns ltac:(constructor)) as (rl & Erl & Hrl & _). specialize (Hle rl Erl).
  destruct (align8_ok (0x40 + len rl) ltac:(lia)) as [HL _]. set (L := align8 (0x40 + len rl)) in *. pose proof (len_nonneg (concat attrs)).
  destruct (runlist_decoded runs (replicate (Z.to_nat (L - 0x40 - len rl)) 0) Hruns ltac:(apply bytes_ok_zeros)) as (rl' & Erl' & _ & Hdec). rewrite Erl in Erl'. injection Erl' as <-.
  unfold appendNonResidentAttr. rewrite Erl. cbn [mbind go_bind]. fold L. cbv zeta. rewrite (first_attr_end_ok rec hdr attrs slack Hh). cbn [mbind go_bind].
  rewrite <-(Z.add_assoc _ L 8), (grow_holds rec hdr attrs slack (L + 8) Hh) by lia.
  set (m := Z.max slack (L + 8 - 4)). set (A := hdr ++ concat attrs). assert (L + 4 <= m) as Hm by (unfold m; lia).
  assert (len A = len hdr + len (concat attrs)) as HlA by (unfold A; by rewrite len_app). rewrite <-HlA. pose proof (len_free_space m ltac:(lia)) as HlB.
  remember (free_space m) as B eqn:EB. unfold put_u32, put_u16. rewrite put_r0 by (rewrite ?len_put_le; done || lia). cbn [mbind go_bind]. name_layers (m + 4).
  do 2 (first [rewrite put_r by (done || (rewrite ?len_put_le; lia)) | rewrite store_r by (done || (unfold is_byte; lia) || lia)]; cbn [mbind go_bind]; name_layers (m + 4)).
  rewrite assign_id by (done || lia). cbn [mbind go_bind].
  assert (LE A.[0x28, 0x2a] = LE hdr.[0x28, 0x2a]) as Eid by (unfold A; by rewrite sub_app_within by lia).
  assert (len A = len (patch A 0x28 (put_le 2 (LE A.[0x28, 0x2a] + 1)))) as HlA1 by (symmetry; patch_lens).
  name_layers (m + 4). unfold put_extent, put_u64, put_u16. cbv zeta.
  do 5 (rewrite (put_r (patch A _ _) _ (len A) HlA1) by (rewrite ?len_put_le; lia); cbn [mbind go_bind]; name_layers (m + 4)).
  rewrite (copy_r (patch A _ _) _ (len A) HlA1) by lia. cbn [mbind go_bind]. name_layers (m + 4). unfold put_end, put_u32.
  rewrite (put_r (patch A _ _) _ (len A) HlA1) by (rewrite ?len_put_le; lia). cbn [mbind go_bind]. name_layers (m + 4). rewrite <-(Z.add_assoc (len A) L 4). rewrite (put_r (patch A _ _) _ (len A) HlA1) by (rewrite ?len_put_le; lia). cbn [mbind go_bind].
  rewrite put_l by (rewrite <-?HlA1, ?len_put_le; lia). subst. fold (runs_body m t L (LE A.[0x28, 0x2a]) (total_clusters runs - 1) (i64 (total_clusters runs * clusterSize)) dataSize rl). rewrite Eid.
  set (body := runs_body _ _ _ _ _ _ _ _). unfold A.
  rewrite (patch_app_l hdr) by patch_lens. rewrite (patch_app_l (patch hdr _ _)) by patch_lens. rewrite len_app. fold (new_header hdr (len hdr + len (concat attrs) + L + 8)).
  destruct (new_header_ok hdr (len hdr + len (concat attrs) + L + 8) Hl Hb) as (Hb' & Hl' & Hf').
  destruct (runs_body_rest m t L (LE hdr.[40, 42]) (total_clusters runs - 1) (i64 (total_clusters runs * clusterSize)) dataSize rl ltac:(lia) ltac:(lia)) as (_ & Hend & Hz). fold body in Hend, Hz.
  assert (in_runs body.[0, L] t runs dataSize) as Hin by (apply runs_body_ok; (done || lia)).
  eexists _, (new_header hdr (len hdr + len (concat attrs) + L + 8)), body.[0, L], (m - L). split; [done|]. split; [|split; [done|split; [done|]]].
  - apply (holds_snoc hdr); try done; try lia; [apply Hin|by apply runs_body_slices; lia|by rewrite Hf'].
  - split; [unfold new_header; patch_slices; done|]. destruct Hh as (-> & _). rewrite !len_app, Hl', (proj1 (runs_body_slices m t L _ _ _ dataSize rl ltac:(lia) ltac:(lia)) : len body = m + 4), len_replicate by lia. change (len end_mark) with 4. lia.
Qed.

(** ** Removing an attribute *)

Lemma removeAttr_ok rec hdr attrs slack t name i a : holds rec hdr attrs slack -> len rec <= maxAlloc ->
  list_find (fun a => matches t name a = true) attrs = Some (i, a) ->
  exists rec' hdr', removeAttr rec t name = Ret rec' /\ holds rec' hdr' (take i attrs ++ drop (S i) attrs) slack /\ len hdr' = len hdr /\ hdr'.[0x16, 0x18] = hdr.[0x16, 0x18].
Proof.
  intros Hh Hmax Hfind. unfold removeAttr, findAttrOffset. rewrite (find_loop_ok t name rec hdr attrs slack Hh), Hfind. cbn [mbind go_bind mret go_ret].
  change (default (-1) _) with (len hdr + len (concat (take i attrs))).
  destruct Hh as (Erec & Hb & Hf & Hl & Hok & Hs). apply list_find_Some in Hfind as (Hi & _ & _).
  pose proof (proj1 (Forall_forall _ _) Hok a ltac:(by eapply list_elem_of_lookup_2)) as (_ & Hla & Hlen & _ & _).
  set (pre := hdr ++ concat (take i attrs)). set (post := concat (drop (S i) attrs) ++ free_space slack).
  assert (rec = pre ++ a ++ post) as Esplit.
  { rewrite Erec. unfold pre, post, free_space. rewrite <-(take_drop_middle attrs i a Hi) at 1. rewrite concat_app. cbn [concat]. by rewrite <-!(assoc app). }
  replace (len hdr + len (concat (take i attrs))) with (len pre) by (unfold pre; rewrite len_app; lia).
  assert (len hdr <= len pre) as Hpre by (unfold pre; rewrite len_app; pose proof (len_nonneg (concat (take i attrs))); lia). assert (4 <= len post) as Hpost by (unfold post; rewrite len_app, len_free_space by lia; pose proof (len_nonneg (concat (drop (S i) attrs))); lia).
  assert (len rec = len pre + len a + len post) as Hlr by (rewrite Esplit, (len_app pre), (len_app a); lia). pose proof (len_nonneg a). rewrite (proj2 (Z.ltb_ge (len pre) 0)) by lia.
  rewrite u32_ok by lia. cbn [mbind go_bind]. replace (len pre + 4 + 4) with (len pre + 8) by lia.
  assert (LE rec.[len pre + 4, len pre + 8] = len a) as -> by (rewrite Esplit, sub_app_r, sub_app_within by lia; done).
  rewrite make_ok by lia. cbn [mbind go_bind]. rewrite (slice_ok rec 0 (len pre)) by lia. cbn [mbind go_bind].
  assert (rec.[0, len pre] = pre) as -> by (rewrite Esplit; by apply sub_app_l). rewrite (slice_ok rec (len pre + len a)) by lia. cbn [mbind go_bind]. cbv zeta.
  assert (rec.[len pre + len a, len rec] = post) as ->.
  { rewrite Hlr, Esplit, (assoc app). replace (len pre + len a) with (len (pre ++ a) + 0) by (rewrite len_app; lia).
    replace (len (pre ++ a) + 0 + len post) with (len (pre ++ a) + len post) by lia. rewrite sub_app_r by lia. apply sub_full. }
  set (zeros := replicate (Z.to_nat (len rec - len a)) 0). assert (len zeros = len pre + len post) as Hlz by (unfold zeros; rewrite len_replicate; lia).
  rewrite take_ge by (unfold len in *; lia). assert (patch zeros 0 pre = pre ++ replicate (Z.to_nat (len post)) 0) as ->.
  { unfold patch. rewrite sub_none. cbn [app]. f_equal. unfold zeros, from. rewrite drop_replicate. f_equal. unfold len in *. lia. }
  set (z := replicate (Z.to_nat (len post)) 0). assert (len z = len post) as Hlz' by (unfold z; rewrite len_replicate; lia).
  rewrite <-(Z.add_0_r (len pre)). rewrite copy_r by (done || lia). cbn [mbind go_bind].
  assert (patch z 0 post = post) as ->.
  { unfold patch. rewrite sub_none. cbn [app]. unfold from. rewrite drop_ge by (unfold len in *; lia). apply app_nil_r. }
  rewrite u32_ok by (rewrite ?len_app; lia). cbn [mbind go_bind]. set (used := LE _ - len a). unfold put_u32.
  rewrite put_l by (rewrite ?len_put_le; lia). unfold pre. rewrite patch_app_l by (rewrite ?len_put_le; lia).
  eexists _, (patch hdr 24 (put_le 4 used)). split; [done|]. split; [|split; [patch_lens|by patch_slices]].
  split; [unfold post; rewrite concat_app, <-!(assoc app); done|]. split; [apply patch_bytes; auto using put_le_bytes|]. split; [|split; [patch_lens|]].
  - assert (len (patch hdr 24 (put_le 4 used)) = len hdr) as -> by patch_lens. by patch_slices.
  - split; [|done]. apply Forall_app. split; [by apply Forall_take|by apply Forall_drop].
Qed.

Lemma no_type t attrs : Forall (fun a => LE a.[0, 4] <> t) attrs -> list_find (fun a => matches t [] a = true) attrs = None.
Proof.
  intros Hn. apply list_find_None. eapply Forall_impl; [exact Hn|]. intros a Ha. unfold matches. by destruct (Z.eqb_spec (LE a.[0, 4]) t).
Qed.

Lemma other_type t t' name attrs a : LE a.[0, 4] = t -> t' <> t ->
  list_find (fun a => matches t' name a = true) (attrs ++ [a]) = list_find (fun a => matches t' name a = true) attrs.
Proof.
  intros Ha Ht. destruct (list_find _ attrs) as [[i b]|] eqn:E; [by apply list_find_app_l|].
  rewrite list_find_app_r by done. cbn [list_find]. rewrite decide_False; [done|]. unfold matches. rewrite Ha. by destruct (Z.eqb_spec t t').
Qed.

Lemma resident_value f v a t value : resident a t value -> len value <= maxAlloc -> attrValue f v a = Ret value.
Proof.
  intros ((_ & _ & _ & _ & _) & _ & H8 & _ & Hl & Ho & Hfit & Hval) Hmax. pose proof (len_nonneg value). unfold attrValue.
  rewrite (proj2 (Z.ltb_ge _ _)), index_byte_at by lia. cbn [mbind go_bind]. rewrite H8. cbn [Z.eqb]. rewrite u32_ok, u16_ok by lia. cbn [mbind go_bind]. change (16 + 4) with 20. change (20 + 2) with 22.
  rewrite Hl, Ho, (proj2 (Z.ltb_ge _ _)) by lia. rewrite make_ok by lia. cbn [mbind go_bind]. rewrite slice_ok by lia. cbn [mbind go_bind mret go_ret]. f_equal.
  assert (take (Z.to_nat (len value)) a.[24, len a] = value) as ->.
  { rewrite <-Hval at 2. unfold sub. rewrite take_take. f_equal. lia. }
  unfold patch. rewrite sub_none. cbn [app]. unfold from. rewrite drop_ge by (rewrite length_replicate; unfold len; lia). apply app_nil_r.
Qed.

Lemma in_runs_value f v a t runs dataSize : in_runs a t runs dataSize -> attrValue f v a = readRuns f v (normal_run <$> runs) dataSize.
Proof.
  intros (_ & _ & H8 & _ & Ho & Hs & Hl & Hdec). unfold attrValue. rewrite (proj2 (Z.ltb_ge _ _)), index_byte_at by lia. cbn [mbind go_bind]. rewrite H8. change (1 =? 0) with false. cbv match.
  rewrite (proj2 (Z.ltb_ge _ _)) by lia. rewrite u64_ok, u16_ok by lia. cbn [mbind go_bind]. cbv zeta. change (48 + 8) with 56. change (32 + 2) with 34. rewrite Hs, Ho.
  rewrite (proj2 (Z.leb_gt _ _)), slice_ok by lia. cbn [mbind go_bind]. destruct (sub_from a 64) as [->|]; [|lia]. rewrite Hdec. done.
Qed.

(** What adding the attribute [a] to the record [rec] and removing it again must do to every
    search. *)
Definition added (rec rec' : list Z) (t : Z) (a : list Z) : Prop :=
  findAttr rec' t [] = Ret (Some a) /\ (forall t' name, t' <> t -> findAttr rec' t' name = findAttr rec t' name) /\
  exists rec'', removeAttr rec' t [] = Ret rec'' /\ forall t' name, findAttr rec'' t' name = findAttr rec t' name.

Lemma added_ok rec hdr attrs slack rec' hdr' a slack' t : holds rec hdr attrs slack -> Forall (fun a => LE a.[0, 4] <> t) attrs ->
  holds rec' hdr' (attrs ++ [a]) slack' -> LE a.[0, 4] = t -> len rec' <= maxAlloc -> added rec rec' t a.
Proof.
  intros Hh Hn Hh' Ha Hmax. assert (list_find (fun a => matches t [] a = true) (attrs ++ [a]) = Some (length attrs, a)) as Efind.
  { rewrite list_find_app_r by by apply no_type. cbn [list_find]. rewrite decide_True by (unfold matches; rewrite Ha, Z.eqb_refl; done). cbn. do 2 f_equal. }
  split; [by rewrite (findAttr_ok t [] rec' hdr' _ slack' Hh'), Efind|]. split.
  - intros t' name Ht'. by rewrite (findAttr_ok t' name rec' hdr' _ slack' Hh'), (findAttr_ok t' name rec hdr _ slack Hh), (other_type t).
  - destruct (removeAttr_ok rec' hdr' _ slack' t [] _ _ Hh' Hmax Efind) as (rec'' & hdr'' & Er & Hh'' & _). exists rec''. split; [done|]. intros t' name.
    rewrite take_app_length, drop_app_ge, drop_ge in Hh'' by (cbn; lia). rewrite app_nil_r in Hh''.
    by rewrite (findAttr_ok t' name rec'' hdr'' _ slack' Hh''), (findAttr_ok t' name rec hdr _ slack Hh).
Qed.

(** C28. An attribute of a type that the record does not have yet is found again with its
    value when it has been added, whether it is stored in the record or in runs, and no search
    for another type notices; removing it makes every search answer as before. *)
Theorem ntfs_attr_added f v rec hdr attrs slack t : holds rec hdr attrs slack -> Forall (fun a => LE a.[0, 4] <> t) attrs -> type_ok t -> len rec <= 2 ^ 32 ->
  (forall value, bytes_ok value -> len value < 2 ^ 31 ->
     exists rec' a, appendResidentAttr rec t value = Ret rec' /\ attrValue f v a = Ret value /\ added rec rec' t a) /\
  (forall runs dataSize clusterSize e, Forall run_ok runs -> encodeRunlist runs = Ret e -> 0 < len e < 2 ^ 31 -> 0 <= dataSize < 2 ^ 63 ->
     exists rec' a, appendNonResidentAttr rec t runs dataSize clusterSize = Ret rec' /\ attrValue f v a = readRuns f v (normal_run <$> runs) dataSize /\ added rec rec' t a).
Proof.
  intros Hh Hn Ht Hlr. split.
  - intros value Hv Hl. destruct (appendResidentAttrAt_ok rec hdr attrs slack t value Hh Ht Hv Hl) as (rec' & hdr' & a & slack' & E & Hh' & Ha & _ & _ & Hlen).
    exists rec', a. split; [unfold appendResidentAttr; by rewrite (first_attr_end_ok rec hdr attrs slack Hh)|]. split; [apply (resident_value f v a t); [done|unfold maxAlloc; lia]|].
    eapply (added_ok rec hdr attrs slack rec' hdr' a slack'); try done; [apply Ha|unfold maxAlloc; lia].
  - intros runs dataSize cs e Hr He Hle Hds. destruct (appendNonResidentAttr_ok rec hdr attrs slack t runs dataSize cs Hh Ht Hr Hds ltac:(intros e' He'; congruence)) as (rec' & hdr' & a & slack' & E & Hh' & Ha & _ & _ & Hlen).
    exists rec', a. split; [done|]. split; [by apply (in_runs_value f v a t)|]. eapply (added_ok rec hdr attrs slack rec' hdr' a slack'); try done; [apply Ha|unfold maxAlloc; lia].
Qed.

Definition sample_header : list Z := lit "FILE" ++ replicate 16 0 ++ put_le 2 0x38 ++ put_le 2 mftFlagInUse ++ replicate 32 0.
Definition sample_attrs : list (list Z) := [put_le 4 attrSTANDARD_INFORMATION ++ put_le 4 24 ++ replicate 16 0; put_le 4 attrFILE_NAME ++ put_le 4 32 ++ replicate 24 0].
Definition sample_rec : list Z := sample_header ++ concat sample_attrs ++ end_mark ++ replicate 100 0.

Lemma sample_holds : holds sample_rec sample_header sample_attrs 100.
Proof.
  split; [done|]. split; [apply bytes_okb_ok; by vm_compute|]. split; [done|]. split; [by vm_compute|]. split; [|done].
  do 2 (constructor; [split; [apply bytes_okb_ok; by vm_compute|]; vm_compute; repeat split; congruence|]). constructor.
Qed.

Lemma ntfs_attr_added_witness : exists rec1 a1 rec2 a2,
  appendResidentAttr sample_rec attrDATA [1; 2; 3] = Ret rec1 /\ attrValue (file_reader sample_disk) sample_volume a1 = Ret [1; 2; 3] /\ added sample_rec rec1 attrDATA a1 /\
  appendNonResidentAttr sample_rec attrDATA [mkRun 2 1; mkRun (-1) 1; mkRun 5 1] 20 8 = Ret rec2 /\
  attrValue (file_reader sample_disk) sample_volume a2 = Ret (seqZ 16 8 ++ replicate 8 0 ++ seqZ 40 4) /\ added sample_rec rec2 attrDATA a2.
Proof.
  destruct (ntfs_attr_added (file_reader sample_disk) sample_volume sample_rec sample_header sample_attrs 100 attrDATA sample_holds) as [Hres Hrun].
  - do 2 (constructor; [vm_compute; congruence|]). constructor.
  - vm_compute. split; congruence.
  - by vm_compute.
  - destruct (Hres [1; 2; 3]) as (rec1 & a1 & E1 & V1 & A1); [apply bytes_okb_ok; by vm_compute|by vm_compute|].
    destruct (Hrun [mkRun 2 1; mkRun (-1) 1; mkRun 5 1] 20 8 [0x11; 1; 2; 1; 1; 0x11; 1; 3; 0]) as (rec2 & a2 & E2 & V2 & A2).
    + repeat constructor; cbn; lia.
    + vm_compute; reflexivity.
    + vm_compute; split; reflexivity.
    + lia.
    + exists rec1, a1, rec2, a2. split; [exact E1|]. split; [exact V1|]. split; [exact A1|]. split; [exact E2|]. split; [|exact A2]. rewrite V2. clear. vm_compute. reflexivity.
Defined.

(** The bytes behind the header of an attribute are not cleared when it is placed: what was
    in the record before becomes its name and its flags. *)
Example stale_name : (fun rec => rec.[0x38 + 9, 0x38 + 14]) <$> appendResidentAttr (sample_header ++ end_mark ++ replicate 40 7) attrDATA [1; 2; 3] = Ret [7; 7; 7; 7; 7].
Proof. by vm_compute. Qed.
