(* ===== verification/NtfsIndex.v ===== *)
(** * NtfsIndex: directory indexes of NTFS volumes (ntfs/alloc.go, ntfs/read.go)
    The entries of an index: building, collecting, inserting and deleting them. *)
From S2P Require Import Prelude Bytes ReaderAt Text Utf16 NtfsRuns Ntfs NtfsFile NtfsAttr.

Record ntfsDirEntry := mkDirEntry { de_info : ntfsFileInfo; mftNum : Z }.

(** Nil for the names "." and "..", and for names of the DOS name space. *)
Definition parseFileNameKey (key : list Z) (num : Z) : go (option ntfsDirEntry) :=
  if len key <? 66 then mret None else
  ns ← index key 65;
  if ns =? 2 then mret None else
  nameLen ← index key 64;
  if len key <? 66 + nameLen * 2 then mret None else
  name ← utf16_string key 66 nameLen;
  if bool_decide (name = dot) || bool_decide (name = dotdot) then mret None else
  flags ← u32_from key 56;
  realSize ← u64_from key 48;
  mtime ← u64_from key 16;
  let isDir := has flags faDirectory in
  let mode := if isDir then Z.lor 493 ModeDir else 420 in
  mret (Some (mkDirEntry (mkInfo name (i64 realSize) mode (filetimeToTime (i64 mtime)) isDir) num)).

Definition collect_round (data : list Z) '(off, out) : go (Z * list ntfsDirEntry + list ntfsDirEntry) :=
  if negb (off + 16 <=? len data) then mret (inr out) else
  mftRef ← u64_from data off;
  entLen ← u16_from data (off + 8);
  keyLen ← u16_from data (off + 10);
  flags ← u32_from data (off + 12);
  if has flags idxFlagLastEntry then mret (inr out) else
  if (entLen <? 16) || (len data <? off + entLen) then mret (inr out) else
  let num := Z.land mftRef 0x0000FFFFFFFFFFFF in
  out ← (if (66 <=? keyLen) && (off + 16 + keyLen <=? len data) then
           key ← slice data (off + 16) (off + 16 + keyLen);
           de ← parseFileNameKey key num;
           mret (match de with Some de => out ++ [de] | None => out end)
         else mret out);
  mret (inl (off + entLen, out)).

Definition collectIndexEntries (hdr : list Z) (out : list ntfsDirEntry) : go (list ntfsDirEntry) :=
  if len hdr <? 16 then mret out else
  entriesOff ← u32_from hdr 0;
  indexLen ← u32_from hdr 4;
  if (len hdr <? entriesOff) || (len hdr <? indexLen) then mret out else
  data ← slice hdr entriesOff indexLen;
  go_for (S (length data)) (collect_round data) (0, out).

(** ** Entries as bytes

    The entries [data] are a part of the header, and the header a part of a record or a
    block: where an entry is sliced without a check of its length, Go compares its end with
    the capacity. [back] is what lies behind the entries in the same array, [spare] what
    lies behind the header. *)

Definition raw_round (data back : list Z) '(off, out) : go (Z * list (list Z) + list (list Z)) :=
  if negb (off + 16 <=? len data) then mret (inr out) else
  flags ← u32_from data (off + 12);
  if has flags idxFlagLastEntry then mret (inr out) else
  entLen ← u16_from data (off + 8);
  if entLen <=? 0 then mret (inr out) else
  e ← slice (data ++ back) off (off + entLen);
  mret (inl (off + entLen, out ++ [e])).

Definition collectRawIndexEntries (hdr spare : list Z) : go (list (list Z)) :=
  if len hdr <? 8 then mret [] else
  entriesOff ← u32_from hdr 0;
  indexLen ← u32_from hdr 4;
  if (len hdr <? entriesOff) || (len hdr <? indexLen) then mret [] else
  data ← slice hdr entriesOff indexLen;
  go_for (S (length data)) (raw_round data (from hdr indexLen ++ spare)) (0, []).

Definition flattenEntries (entries : list (list Z)) : list Z := concat entries.

(** [keyLen] is not checked against the room for the key before it is sliced. *)
Definition buildIndexEntry (num : Z) (fnKey : list Z) : go (list Z) :=
  let keyLen := len fnKey in
  let entLen := align8 (16 + keyLen) in
  let entry := replicate (Z.to_nat entLen) 0 in
  entry ← put_u64 entry 0 (Z.lor num (Z.shiftl 1 48));
  entry ← put_u16 entry 8 entLen;
  entry ← put_u16 entry 10 keyLen;
  copy_from entry 16 fnKey.

(** Where the sentinel lies in the entries, or -1. *)
Definition sentinel_round (data : list Z) (off : Z) : go (Z + Z) :=
  if negb (off + 16 <=? len data) then mret (inr (-1)) else
  flags ← u32_from data (off + 12);
  if has flags idxFlagLastEntry then mret (inr off) else
  entLen ← u16_from data (off + 8);
  if entLen <=? 0 then mret (inr (-1)) else mret (inl (off + entLen)).
Definition find_sentinel (data : list Z) : go Z := go_for (S (length data)) (sentinel_round data) 0.

Definition insertIndexEntry (hdr entry : list Z) : go (list Z) :=
  entriesOff ← u32_from hdr 0;
  indexLen ← u32_from hdr 4;
  if (len hdr <? entriesOff) || (len hdr <? indexLen) then Err (Errorf "index header corrupt") else
  data ← slice hdr entriesOff indexLen;
  rel ← find_sentinel data;
  let sentinelOff := if rel <? 0 then -1 else entriesOff + rel in
  if sentinelOff <? 0 then Err (Errorf "index has no last-entry sentinel") else
  let newHdr := replicate (length hdr + length entry) 0 in
  a ← slice hdr 0 sentinelOff;
  newHdr ← copy_from newHdr 0 a;
  newHdr ← copy_from newHdr sentinelOff entry;
  b ← slice hdr sentinelOff (len hdr);
  newHdr ← copy_from newHdr (sentinelOff + len entry) b;
  let newIndexLen := indexLen + len entry in
  newHdr ← put_u32 newHdr 4 newIndexLen;
  put_u32 newHdr 8 newIndexLen.

Section names.
Context `{UnicodeTables}.

(** One round of [deleteIndexEntry]: the header without the entry, or the next entry. *)
Definition delete_round (hdr data back name : list Z) (entriesOff indexLen off : Z) : go (Z + list Z) :=
  if negb (off + 16 <=? len data) then mret (inr hdr) else
  flags ← u32_from data (off + 12);
  if has flags idxFlagLastEntry then mret (inr hdr) else
  entLen ← u16_from data (off + 8);
  keyLen ← u16_from data (off + 10);
  if entLen <=? 0 then mret (inr hdr) else
  if 66 <=? keyLen then
    key ← slice (data ++ back) (off + 16) (off + 16 + keyLen);
    nl ← index key 64;
    if 66 + nl * 2 <=? len key then
      s ← utf16_string key 66 nl;
      if equal_fold s name then
        let absOff := entriesOff + off in
        newHdr ← make 0 1 (len hdr - entLen);
        a ← slice hdr 0 absOff;
        let newHdr := patch newHdr 0 (take (length newHdr) a) in
        b ← slice hdr (absOff + entLen) (len hdr);
        newHdr ← copy_from newHdr absOff b;
        let newIdxLen := indexLen - entLen in
        newHdr ← put_u32 newHdr 4 newIdxLen;
        newHdr ← put_u32 newHdr 8 newIdxLen;
        mret (inr newHdr)
      else mret (inl (off + entLen))
    else mret (inl (off + entLen))
  else mret (inl (off + entLen)).

Definition deleteIndexEntry (hdr spare : list Z) (name : gostring) : go (list Z) :=
  entriesOff ← u32_from hdr 0;
  indexLen ← u32_from hdr 4;
  if (len hdr <? entriesOff) || (len hdr <? indexLen) then mret hdr else
  data ← slice hdr entriesOff indexLen;
  go_for (S (length data)) (delete_round hdr data (from hdr indexLen ++ spare) name entriesOff indexLen) 0.
End names.

(** ** An index as a list of entries *)

(** An entry with its own length, its key inside it, and not marked as the last. *)
Definition entry_ok (e : list Z) : Prop :=
  bytes_ok e /\ 16 <= len e /\ LE e.[8, 10] = len e /\ 16 + LE e.[10, 12] <= len e /\ has (LE e.[12, 16]) idxFlagLastEntry = false.
(** The entry that ends an index, and what follows it. *)
Definition sentinel_ok (s : list Z) : Prop := 16 <= len s /\ has (LE s.[12, 16]) idxFlagLastEntry = true.

(** What a directory listing makes of an entry. *)
Definition decoded (e : list Z) : option ntfsDirEntry :=
  if 66 <=? LE e.[10, 12] then
    match parseFileNameKey e.[16, 16 + LE e.[10, 12]] (Z.land (LE e.[0, 8]) 0x0000FFFFFFFFFFFF) with Ret r => r | _ => None end
  else None.

(** The header of an index and its entries. *)
Definition index_shape (hdr : list Z) (es : list (list Z)) (s : list Z) : Prop :=
  16 <= len hdr < 2 ^ 31 /\ 12 <= LE hdr.[0, 4] <= LE hdr.[4, 8] /\ LE hdr.[4, 8] <= len hdr /\
  hdr.[LE hdr.[0, 4], LE hdr.[4, 8]] = concat es ++ s /\ Forall entry_ok es /\ sentinel_ok s.
Definition index_of (hdr : list Z) (es : list (list Z)) (s : list Z) : Prop := bytes_ok hdr /\ index_shape hdr es s.

Lemma parse_total key num : bytes_ok key -> exists r, parseFileNameKey key num = Ret r.
Proof.
  intros Hb. unfold parseFileNameKey. destruct (Z.ltb_spec (len key) 66); [by eexists|]. rewrite (index_byte_at key 65) by lia. cbn [mbind go_bind].
  destruct (Z.eqb_spec (byte_at key 65) 2); [by eexists|]. rewrite index_byte_at by lia. cbn [mbind go_bind]. pose proof (byte_at_range key 64 Hb) as Hn. unfold is_byte in Hn.
  destruct (Z.ltb_spec (len key) (66 + byte_at key 64 * 2)); [by eexists|].
  unfold utf16_string. rewrite units_from_ok by lia. cbn [mbind go_bind mret go_ret]. destruct (_ || _); [by eexists|]. rewrite u32_ok, !u64_ok by lia. cbn. by eexists.
Qed.

Section fields.
Context (pre e post : list Z).

Lemma entry_field n o : 0 <= o -> 0 <= n -> o + n <= len e -> (pre ++ e ++ post).[len pre + o, len pre + o + n] = e.[o, o + n].
Proof. intros. replace (len pre + o + n) with (len pre + (o + n)) by lia. rewrite sub_app_r by lia. by apply sub_app_within. Qed.

Lemma entry_u64 : 8 <= len e -> u64_from (pre ++ e ++ post) (len pre) = Ret (LE e.[0, 8]).
Proof.
  intros. pose proof (len_nonneg pre). pose proof (len_nonneg post). rewrite u64_ok by (rewrite ?(len_app pre), ?(len_app e); lia). do 2 f_equal.
  rewrite <-(Z.add_0_r (len pre)) at 1. replace (len pre + 8) with (len pre + (0 + 8)) by lia. rewrite sub_app_r, sub_app_within by lia. done.
Qed.
Lemma entry_u32 o : 0 <= o -> o + 4 <= len e -> u32_from (pre ++ e ++ post) (len pre + o) = Ret (LE e.[o, o + 4]).
Proof. intros. pose proof (len_nonneg pre). pose proof (len_nonneg post). rewrite u32_ok, entry_field by (rewrite ?(len_app pre), ?(len_app e); lia). done. Qed.
Lemma entry_u16 o : 0 <= o -> o + 2 <= len e -> u16_from (pre ++ e ++ post) (len pre + o) = Ret (LE e.[o, o + 2]).
Proof. intros. pose proof (len_nonneg pre). pose proof (len_nonneg post). rewrite u16_ok, entry_field by (rewrite ?(len_app pre), ?(len_app e); lia). done. Qed.
Lemma entry_inside : len pre + len e <= len (pre ++ e ++ post).
Proof. pose proof (len_nonneg post). rewrite (len_app pre), (len_app e). lia. Qed.
End fields.

(** A slice that ends in front of [back] does not see it. *)
Lemma slice_within (data back : list Z) lo hi : 0 <= lo <= hi -> hi <= len data -> slice (data ++ back) lo hi = Ret data.[lo, hi].
Proof. intros. pose proof (len_nonneg back). rewrite slice_ok by (rewrite ?len_app; lia). by rewrite sub_app_within by lia. Qed.

Lemma collect_at pre e post out : entry_ok e ->
  collect_round (pre ++ e ++ post) (len pre, out) = Ret (inl (len pre + len e, out ++ option_list (decoded e))).
Proof.
  intros (Hb & Hl & Hlen & Hkey & Hflag). pose proof (entry_inside pre e post). pose proof (len_nonneg pre). assert (0 <= LE e.[10, 12]) as Hk by (pose proof (LE_sub_range e 10 2 Hb ltac:(lia)); change (10 + 2) with 12 in *; lia).
  unfold collect_round. rewrite (proj2 (Z.leb_le _ _)) by lia. cbn [negb]. rewrite entry_u64, !entry_u16, entry_u32 by lia. cbn [mbind go_bind]. change (8 + 2) with 10. change (10 + 2) with 12. change (12 + 4) with 16.
  rewrite Hflag, Hlen, (proj2 (Z.ltb_ge (len e) 16)), (proj2 (Z.ltb_ge _ _)) by lia. cbn [orb]. cbv zeta. unfold decoded. destruct (Z.leb_spec 66 (LE e.[10, 12])); cbn [andb].
  - rewrite (proj2 (Z.leb_le _ _)) by lia. rewrite slice_ok by lia. cbn [mbind go_bind]. replace (len pre + 16 + LE e.[10, 12]) with (len pre + (16 + LE e.[10, 12])) by lia. rewrite sub_app_r, sub_app_within by lia.
    destruct (parse_total e.[16, 16 + LE e.[10, 12]] (Z.land (LE e.[0, 8]) 281474976710655)) as (r & ->); [by apply bytes_ok_sub|]. cbn [mbind go_bind mret go_ret]. destruct r; cbn [option_list]; [done|by rewrite app_nil_r].
  - cbn [mbind go_bind mret go_ret option_list]. by rewrite app_nil_r.
Qed.

Lemma collect_end pre s out : sentinel_ok s -> collect_round (pre ++ s) (len pre, out) = Ret (inr out).
Proof.
  intros [Hl Hf]. pose proof (len_nonneg pre). assert (pre ++ s = pre ++ s ++ []) as -> by (by rewrite app_nil_r). pose proof (entry_inside pre s []). unfold collect_round. rewrite (proj2 (Z.leb_le _ _)) by lia. cbn [negb].
  rewrite entry_u64, !entry_u16, entry_u32 by lia. cbn [mbind go_bind]. change (12 + 4) with 16. by rewrite Hf.
Qed.

Lemma collect_rounds es : forall fuel pre s out, Forall entry_ok es -> sentinel_ok s -> (length es < fuel)%nat ->
  go_for fuel (collect_round (pre ++ concat es ++ s)) (len pre, out) = Ret (out ++ omap decoded es).
Proof.
  induction es as [|e es IH]; intros [|fuel] pre s out Hok Hs Hf; [cbn in Hf; lia| |cbn in Hf; lia|]; cbn [go_for].
  - cbn [concat app]. rewrite collect_end by done. cbn. by rewrite app_nil_r.
  - apply Forall_cons in Hok as [He Hok]. cbn [concat]. rewrite <-(assoc app e), collect_at by done. cbn [mbind go_bind].
    assert (pre ++ (e ++ concat es) ++ s = (pre ++ e) ++ concat es ++ s) as -> by (by rewrite <-!(assoc app)).
    rewrite <-len_app, IH by (done || (cbn in Hf; lia)). rewrite <-(assoc app). do 2 f_equal. cbn [omap list_omap]. by destruct (decoded e).
Qed.

Lemma entries_short es : Forall entry_ok es -> (length es <= length (concat es))%nat.
Proof. induction 1 as [|e es (_ & He & _) _ IH]; [done|]. cbn [concat length]. rewrite length_app. unfold len in He. lia. Qed.

Lemma index_data hdr es s : index_shape hdr es s -> slice hdr (LE hdr.[0, 4]) (LE hdr.[4, 8]) = Ret (concat es ++ s).
Proof. intros (Hl & Ho & Hi & Hd & _). by rewrite slice_ok, Hd by lia. Qed.

Lemma collectIndexEntries_ok hdr es s out : index_shape hdr es s -> collectIndexEntries hdr out = Ret (out ++ omap decoded es).
Proof.
  intros Hx. pose proof Hx as (Hl & Ho & Hi & Hd & Hes & Hs). unfold collectIndexEntries. rewrite (proj2 (Z.ltb_ge _ _)), !u32_ok by lia. cbn [mbind go_bind]. change (0 + 4) with 4. change (4 + 4) with 8.
  rewrite !(proj2 (Z.ltb_ge _ _)) by lia. cbn [orb]. rewrite (index_data hdr es s Hx). cbn [mbind go_bind].
  pose proof (collect_rounds es (S (length (concat es ++ s))) [] s out Hes Hs) as H. apply H. pose proof (entries_short es Hes). rewrite length_app. lia.
Qed.

Lemma raw_rounds back es : forall fuel pre s out, Forall entry_ok es -> sentinel_ok s -> (length es < fuel)%nat ->
  go_for fuel (raw_round (pre ++ concat es ++ s) back) (len pre, out) = Ret (out ++ es).
Proof.
  induction es as [|e es IH]; intros [|fuel] pre s out Hok Hs Hf; [cbn in Hf; lia| |cbn in Hf; lia|]; cbn [go_for]; pose proof (len_nonneg pre).
  - cbn [concat app]. destruct Hs as [Hl Hflag]. assert (pre ++ s = pre ++ s ++ []) as -> by (by rewrite app_nil_r). pose proof (entry_inside pre s []). unfold raw_round at 2.
    rewrite (proj2 (Z.leb_le _ _)) by lia. cbn [negb]. rewrite (entry_u32 pre s [] 12) by lia. cbn [mbind go_bind]. change (12 + 4) with 16. rewrite Hflag. cbn. by rewrite app_nil_r.
  - apply Forall_cons in Hok as [(Hb & Hl & Hlen & Hkey & Hflag) Hok]. cbn [concat]. rewrite <-(assoc app e).
    assert (raw_round (pre ++ e ++ concat es ++ s) back (len pre, out) = Ret (inl (len pre + len e, out ++ [e]))) as ->.
    { pose proof (entry_inside pre e (concat es ++ s)). unfold raw_round. rewrite (proj2 (Z.leb_le _ _)) by lia. cbn [negb]. rewrite entry_u32, entry_u16 by lia. cbn [mbind go_bind]. change (8 + 2) with 10. change (12 + 4) with 16.
      rewrite Hflag, Hlen, (proj2 (Z.leb_gt _ _)), slice_within by lia. cbn [mbind go_bind]. by rewrite sub_mid. }
    cbn [mbind go_bind]. assert (pre ++ (e ++ concat es) ++ s = (pre ++ e) ++ concat es ++ s) as -> by (by rewrite <-!(assoc app)).
    rewrite <-len_app, IH by (done || (cbn in Hf; lia)). by rewrite <-(assoc app).
Qed.

Lemma collectRaw_ok hdr spare es s : index_shape hdr es s -> collectRawIndexEntries hdr spare = Ret es.
Proof.
  intros Hx. pose proof Hx as (Hl & Ho & Hi & Hd & Hes & Hs). unfold collectRawIndexEntries. rewrite (proj2 (Z.ltb_ge _ _)), !u32_ok by lia. cbn [mbind go_bind]. change (0 + 4) with 4. change (4 + 4) with 8.
  rewrite !(proj2 (Z.ltb_ge _ _)) by lia. cbn [orb]. rewrite (index_data hdr es s Hx). cbn [mbind go_bind].
  apply (raw_rounds (from hdr (LE hdr.[4, 8]) ++ spare) es (S (length (concat es ++ s))) [] s [] Hes Hs). pose proof (entries_short es Hes). rewrite length_app. lia.
Qed.

Lemma sentinel_rounds es : forall fuel pre s, Forall entry_ok es -> sentinel_ok s -> (length es < fuel)%nat ->
  go_for fuel (sentinel_round (pre ++ concat es ++ s)) (len pre) = Ret (len pre + len (concat es)).
Proof.
  induction es as [|e es IH]; intros [|fuel] pre s Hok Hs Hf; [cbn in Hf; lia| |cbn in Hf; lia|]; cbn [go_for]; pose proof (len_nonneg pre).
  - cbn [concat app]. destruct Hs as [Hl Hflag]. assert (pre ++ s = pre ++ s ++ []) as -> by (by rewrite app_nil_r). pose proof (entry_inside pre s []). unfold sentinel_round at 2.
    rewrite (proj2 (Z.leb_le _ _)) by lia. cbn [negb]. rewrite (entry_u32 pre s [] 12) by lia. cbn [mbind go_bind]. change (12 + 4) with 16. rewrite Hflag. cbn. by rewrite Z.add_0_r.
  - apply Forall_cons in Hok as [(Hb & Hl & Hlen & Hkey & Hflag) Hok]. cbn [concat]. rewrite <-(assoc app e).
    assert (sentinel_round (pre ++ e ++ concat es ++ s) (len pre) = Ret (inl (len pre + len e))) as ->.
    { pose proof (entry_inside pre e (concat es ++ s)). unfold sentinel_round. rewrite (proj2 (Z.leb_le _ _)) by lia. cbn [negb]. rewrite entry_u32, entry_u16 by lia. cbn [mbind go_bind]. change (8 + 2) with 10. change (12 + 4) with 16.
      by rewrite Hflag, Hlen, (proj2 (Z.leb_gt _ _)) by lia. }
    cbn [mbind go_bind]. assert (pre ++ (e ++ concat es) ++ s = (pre ++ e) ++ concat es ++ s) as -> by (by rewrite <-!(assoc app)).
    rewrite <-len_app, IH by (done || (cbn in Hf; lia)). rewrite !len_app. f_equal. lia.
Qed.

Lemma find_sentinel_ok es s : Forall entry_ok es -> sentinel_ok s -> find_sentinel (concat es ++ s) = Ret (len (concat es)).
Proof.
  intros Hes Hs. unfold find_sentinel. apply (sentinel_rounds es (S (length (concat es ++ s))) [] s Hes Hs). pose proof (entries_short es Hes). rewrite length_app. lia.
Qed.

Lemma sub_split (b : list Z) lo hi l r : 0 <= lo <= hi -> hi <= len b -> b.[lo, hi] = l ++ r ->
  len l + len r = hi - lo /\ b.[lo, lo + len l] = l /\ b.[lo + len l, hi] = r.
Proof.
  intros Hlo Hhi Hd. pose proof (len_nonneg l). pose proof (len_nonneg r). assert (len l + len r = hi - lo) as Hlen by (rewrite <-len_app, <-Hd, len_sub by lia; lia).
  assert (b.[lo, hi].[0, len l] = l) as E1 by (rewrite Hd; by apply sub_app_l). assert (b.[lo, hi].[len l, hi - lo] = r) as E2.
  { rewrite Hd. rewrite <-(Z.add_0_r (len l)) at 1. replace (hi - lo) with (len l + len r) by lia. rewrite sub_app_r by lia. apply sub_full. }
  rewrite sub_of_sub in E1, E2 by lia. replace (lo + (hi - lo)) with hi in E2 by lia. rewrite Z.add_0_r in E1. done.
Qed.

(** ** Inserting *)

Lemma patch_zeros n x : len x <= Z.of_nat n -> patch (replicate n 0) 0 x = x ++ replicate (n - length x) 0.
Proof. intros Hx. unfold patch. rewrite sub_none. cbn [app]. unfold from. rewrite drop_replicate. do 2 f_equal. unfold len in *. lia. Qed.

Lemma copy_zeros pre n x o : o = len pre -> len x <= Z.of_nat n -> copy_from (pre ++ replicate n 0) o x = Ret (pre ++ x ++ replicate (n - length x) 0).
Proof. intros -> Hx. rewrite <-(Z.add_0_r (len pre)), copy_r by (rewrite ?len_replicate; done || lia). by rewrite patch_zeros. Qed.

Lemma copy_zeros0 n x : len x <= Z.of_nat n -> copy_from (replicate n 0) 0 x = Ret (x ++ replicate (n - length x) 0).
Proof. apply (copy_zeros [] n x 0 eq_refl). Qed.

(** The header of an index whose length is set. *)
Definition set_length (hdr : list Z) (n : Z) : list Z := patch (patch hdr 4 (put_le 4 n)) 8 (put_le 4 n).

Lemma set_length_index pre data rest es s n : LE pre.[0, 4] = len pre -> bytes_ok (pre ++ data ++ rest) -> 12 <= len pre -> len (pre ++ data ++ rest) < 2 ^ 31 -> n = len pre + len data ->
  data = concat es ++ s -> Forall entry_ok es -> sentinel_ok s ->
  put_word (pre ++ data ++ rest) 4 (len (pre ++ data ++ rest)) (put_le 4 n) = Ret (patch (pre ++ data ++ rest) 4 (put_le 4 n)) /\
  put_word (patch (pre ++ data ++ rest) 4 (put_le 4 n)) 8 (len (patch (pre ++ data ++ rest) 4 (put_le 4 n))) (put_le 4 n) = Ret (set_length (pre ++ data ++ rest) n) /\
  index_of (set_length (pre ++ data ++ rest) n) es s.
Proof.
  intros Hp Hb Hl Hmax Hn Hd Hes Hs. pose proof (len_nonneg data). pose proof (len_nonneg rest). assert (len (pre ++ data ++ rest) = len pre + len data + len rest) as Ht by (rewrite !len_app; lia).
  assert (16 <= len data) as Hdl by (rewrite Hd, len_app; destruct Hs; pose proof (len_nonneg (concat es)); lia).
  split; [apply put_from_ok; rewrite ?len_put_le; lia|]. split; [rewrite put_from_ok by patch_lens; done|]. unfold set_length.
  set (h := pre ++ data ++ rest) in *. assert (len (patch (patch h 4 (put_le 4 n)) 8 (put_le 4 n)) = len h) as Hlh by patch_lens.
  assert ((patch (patch h 4 (put_le 4 n)) 8 (put_le 4 n)).[0, 4] = pre.[0, 4]) as E0 by (patch_slices; unfold h; by rewrite sub_app_within by lia).
  assert ((patch (patch h 4 (put_le 4 n)) 8 (put_le 4 n)).[4, 8] = put_le 4 n) as E4 by (by patch_slices).
  split; [repeat apply patch_bytes; auto using put_le_bytes|]. unfold index_shape. rewrite Hlh, E0, E4, Hp, LE_put_le. change (256 ^ Z.of_nat 4) with (2 ^ 32). rewrite Z.mod_small by lia.
  split; [lia|]. split; [lia|]. split; [lia|]. split; [|done]. patch_slices. unfold h. rewrite <-Hd. apply sub_mid; lia.
Qed.

Lemma insertIndexEntry_ok hdr es s e : index_of hdr es s -> entry_ok e -> len hdr + len e < 2 ^ 31 ->
  exists hdr', insertIndexEntry hdr e = Ret hdr' /\ index_of hdr' (es ++ [e]) s /\ len hdr' = len hdr + len e.
Proof.
  intros Hx He Hmax. pose proof Hx as (Hb & Hl & Ho & Hi & Hd & Hes & Hs). pose proof He as (Hbe & Hle & _). unfold insertIndexEntry. rewrite !u32_ok by lia. cbn [mbind go_bind]. change (0 + 4) with 4. change (4 + 4) with 8.
  rewrite !(proj2 (Z.ltb_ge _ _)) by lia. cbn [orb]. rewrite (index_data hdr es s (proj2 Hx)). cbn [mbind go_bind]. rewrite find_sentinel_ok by done. cbn [mbind go_bind].
  set (eo := LE hdr.[0, 4]) in *. set (il := LE hdr.[4, 8]) in *. pose proof (len_nonneg (concat es)). pose proof (len_nonneg s).
  assert (len (concat es) + len s = il - eo) as Hlen by (rewrite <-len_app, <-Hd, len_sub by lia; lia).
  rewrite (proj2 (Z.ltb_ge (len (concat es)) 0)) by lia. cbv zeta. set (so := eo + len (concat es)). rewrite (proj2 (Z.ltb_ge so 0)) by (unfold so; lia).
  rewrite (slice_ok hdr 0 so) by (unfold so; lia). cbn [mbind go_bind].
  assert (len hdr.[0, so] = so) as Hla by (rewrite len_sub by (unfold so; lia); lia). assert (len hdr.[so, len hdr] = len hdr - so) as Hlb by (rewrite len_sub by (unfold so; lia); lia).
  rewrite (copy_zeros0 _ hdr.[0, so]) by (unfold len in *; lia). cbn [mbind go_bind]. rewrite (copy_zeros hdr.[0, so] _ e) by (unfold len in *; done || lia). cbn [mbind go_bind].
  rewrite (slice_ok hdr so) by (unfold so; lia). cbn [mbind go_bind]. rewrite (app_assoc hdr.[0, so] e). rewrite (copy_zeros (hdr.[0, so] ++ e)) by (rewrite ?len_app; unfold len in *; lia). cbn [mbind go_bind].
  rewrite (app_assoc (hdr.[0, so] ++ e)).
  replace (length hdr + length e - length hdr.[0, so] - length e - length hdr.[so, len hdr])%nat with 0%nat by (unfold len in *; lia). cbn [replicate]. rewrite app_nil_r.
  set (pre := hdr.[0, eo]). set (data := concat (es ++ [e]) ++ s). set (rest := hdr.[il, len hdr]).
  destruct (sub_split hdr eo il (concat es) s ltac:(lia) Hi Hd) as (_ & E1 & E2).
  fold so in E1, E2.
  assert ((hdr.[0, so] ++ e) ++ hdr.[so, len hdr] = pre ++ data ++ rest) as ->.
  { unfold pre, data, rest. rewrite concat_app. cbn [concat]. rewrite app_nil_r. rewrite <-(sub_cat hdr 0 eo so), <-(sub_cat hdr so il (len hdr)) by (unfold so; lia). rewrite E1, E2. by rewrite <-!(assoc app). }
  assert (len pre = eo) as Hlp by (unfold pre; rewrite len_sub by lia; lia). assert (len data = il - eo + len e) as Hld by (unfold data; rewrite len_app, concat_app, len_app; cbn [concat]; rewrite app_nil_r; lia).
  assert (len rest = len hdr - il) as Hlr by (unfold rest; rewrite len_sub by lia; lia).
  destruct (set_length_index pre data rest (es ++ [e]) s (il + len e)) as (Hp1 & Hp2 & Hx').
  - rewrite Hlp. unfold pre. by rewrite sub_of_sub by lia.
  - unfold data, pre, rest. rewrite concat_app. cbn [concat]. rewrite app_nil_r, <-E1, <-E2. rewrite !Forall_app. repeat split; try done; by apply bytes_ok_sub.
  - lia.
  - rewrite !len_app. lia.
  - lia.
  - done.
  - apply Forall_app_2; [done|by apply Forall_singleton].
  - done.
  - unfold put_u32. rewrite Hp1. cbn [mbind go_bind]. rewrite Hp2. eexists. split; [done|]. split; [done|]. unfold set_length. rewrite !patch_len, !len_app by (rewrite ?patch_len, ?len_put_le, ?len_app by (rewrite ?len_put_le, ?len_app; lia); lia). lia.
Qed.

(** ** Deleting *)

(** The name in the key of an entry. *)
Definition entry_name (e : list Z) : option gostring :=
  let key := e.[16, 16 + LE e.[10, 12]] in
  if (66 <=? LE e.[10, 12]) && (66 + byte_at key 64 * 2 <=? LE e.[10, 12]) then
    match utf16_string key 66 (byte_at key 64) with Ret s => Some s | _ => None end
  else None.

Fixpoint remove_first {A} (p : A -> bool) (l : list A) : list A :=
  match l with [] => [] | x :: l' => if p x then l' else x :: remove_first p l' end.

Section deleting.
Context `{UnicodeTables} (name : gostring).

Definition is_named (e : list Z) : bool := match entry_name e with Some s => equal_fold s name | None => false end.

(** The header without the bytes from [a] to [b]. *)
Definition cut (hdr : list Z) (a b : Z) : list Z := hdr.[0, a] ++ hdr.[b, len hdr].

Lemma cut_made hdr a n il : 0 <= a -> 0 <= n -> a + n <= len hdr -> 12 <= len hdr - n -> len hdr < 2 ^ 31 ->
  (newHdr ← make 0 1 (len hdr - n); x ← slice hdr 0 a; let newHdr := patch newHdr 0 (take (length newHdr) x) in
   b ← slice hdr (a + n) (len hdr); newHdr ← copy_from newHdr a b; newHdr ← put_u32 newHdr 4 il; put_u32 newHdr 8 il) = Ret (set_length (cut hdr a (a + n)) il).
Proof.
  intros Ha Hn Hin Hroom Hmax. rewrite make_ok by (unfold maxAlloc; lia). cbn [mbind go_bind]. rewrite (slice_ok hdr 0 a) by lia. cbn [mbind go_bind]. cbv zeta.
  assert (len hdr.[0, a] = a) as Hla by (rewrite len_sub by lia; lia). assert (len hdr.[a + n, len hdr] = len hdr - a - n) as Hlb by (rewrite len_sub by lia; lia).
  rewrite length_replicate, take_ge by (unfold len in *; lia). rewrite patch_zeros by lia. rewrite slice_ok by lia. cbn [mbind go_bind].
  rewrite (copy_zeros hdr.[0, a]) by (unfold len in *; lia). cbn [mbind go_bind].
  replace (Z.to_nat (len hdr - n) - length hdr.[0, a] - length hdr.[a + n, len hdr])%nat with 0%nat by (unfold len in *; lia). cbn [replicate]. rewrite app_nil_r.
  assert (len (hdr.[0, a] ++ hdr.[a + n, len hdr]) = len hdr - n) as Hlc by (rewrite len_app; lia).
  unfold put_u32. rewrite put_from_ok by (rewrite ?len_put_le; lia). cbn [mbind go_bind]. rewrite put_from_ok by (rewrite ?len_put_le, ?patch_len by (rewrite ?len_put_le; lia); lia). done.
Qed.

Lemma delete_at hdr pre e post back eo il : entry_ok e -> 12 <= eo -> eo + len pre + len e + 16 <= len hdr < 2 ^ 31 ->
  delete_round hdr (pre ++ e ++ post) back name eo il (len pre) =
  if is_named e then Ret (inr (set_length (cut hdr (eo + len pre) (eo + len pre + len e)) (il - len e))) else Ret (inl (len pre + len e)).
Proof.
  intros (Hb & Hl & Hlen & Hkey & Hflag) Heo Hin. pose proof (entry_inside pre e post). pose proof (len_nonneg pre). assert (0 <= LE e.[10, 12]) as Hk by (pose proof (LE_sub_range e 10 2 Hb ltac:(lia)); change (10 + 2) with 12 in *; lia).
  unfold delete_round. rewrite (proj2 (Z.leb_le _ _)) by lia. cbn [negb]. rewrite !entry_u16, entry_u32 by lia. cbn [mbind go_bind]. change (8 + 2) with 10. change (10 + 2) with 12. change (12 + 4) with 16.
  rewrite Hflag, Hlen, (proj2 (Z.leb_gt (len e) 0)) by lia. unfold is_named, entry_name. cbv zeta. destruct (Z.leb_spec 66 (LE e.[10, 12])); cbn [andb]; [|done].
  rewrite (slice_within (pre ++ e ++ post)) by lia. cbn [mbind go_bind]. replace (len pre + 16 + LE e.[10, 12]) with (len pre + (16 + LE e.[10, 12])) by lia. rewrite sub_app_r, sub_app_within by lia.
  set (key := e.[16, 16 + LE e.[10, 12]]). assert (len key = LE e.[10, 12]) as Hlk by (unfold key; rewrite len_sub by lia; lia). assert (bytes_ok key) as Hbk by (by apply bytes_ok_sub).
  rewrite index_byte_at by lia. cbn [mbind go_bind]. rewrite Hlk. pose proof (byte_at_range key 64 Hbk) as Hn. unfold is_byte in Hn. destruct (Z.leb_spec (66 + byte_at key 64 * 2) (LE e.[10, 12])); cbn [andb]; [|done].
  unfold utf16_string. rewrite units_from_ok by lia. cbn [mbind go_bind mret go_ret]. destruct (equal_fold _ _); [|done]. pose proof (cut_made hdr (eo + len pre) (len e) (il - len e) ltac:(lia) ltac:(lia) ltac:(lia) ltac:(lia) ltac:(lia)) as Hc. revert Hc.
  rewrite make_ok by (unfold maxAlloc; lia). cbn [mbind go_bind]. rewrite !slice_ok by lia. cbn [mbind go_bind]. cbv zeta. intros Hc.
  destruct (copy_from _ _ _); cbn [mbind go_bind] in *; try done. destruct (put_u32 _ 4 _); cbn [mbind go_bind] in *; try done. by rewrite Hc.
Qed.

Lemma delete_end hdr pre s back eo il : sentinel_ok s -> delete_round hdr (pre ++ s) back name eo il (len pre) = Ret (inr hdr).
Proof.
  intros [Hl Hf]. pose proof (len_nonneg pre). assert (pre ++ s = pre ++ s ++ []) as -> by (by rewrite app_nil_r). pose proof (entry_inside pre s []). unfold delete_round. rewrite (proj2 (Z.leb_le _ _)) by lia. cbn [negb].
  rewrite (entry_u32 pre s [] 12) by lia. cbn [mbind go_bind]. change (12 + 4) with 16. by rewrite Hf.
Qed.

(** What the scan ends with: the first entry of that name is cut out. *)
Fixpoint deleted (hdr : list Z) (eo il : Z) (es : list (list Z)) (off : Z) : list Z :=
  match es with
  | [] => hdr
  | e :: es' => if is_named e then set_length (cut hdr (eo + off) (eo + off + len e)) (il - len e) else deleted hdr eo il es' (off + len e)
  end.

Lemma delete_rounds hdr back eo il es : forall fuel pre s, Forall entry_ok es -> sentinel_ok s -> (length es < fuel)%nat -> 12 <= eo ->
  eo + len (pre ++ concat es ++ s) <= len hdr < 2 ^ 31 ->
  go_for fuel (delete_round hdr (pre ++ concat es ++ s) back name eo il) (len pre) = Ret (deleted hdr eo il es (len pre)).
Proof.
  induction es as [|e es IH]; intros [|fuel] pre s Hok Hs Hf Heo Hin; [cbn in Hf; lia| |cbn in Hf; lia|]; cbn [go_for deleted].
  - cbn [concat app]. by rewrite delete_end.
  - apply Forall_cons in Hok as [He Hok]. cbn [concat] in *. pose proof (len_nonneg (concat es)). rewrite !len_app in Hin. destruct (Hs) as [Hls _]. rewrite <-(assoc app e), delete_at by (done || lia). destruct (is_named e); [done|]. cbn [mbind go_bind].
    assert (pre ++ (e ++ concat es) ++ s = (pre ++ e) ++ concat es ++ s) as -> by (by rewrite <-!(assoc app)).
    rewrite <-len_app, IH by (done || (cbn in Hf; lia) || (rewrite !len_app; lia)). done.
Qed.

Lemma cut_index hdr es0 e es s : index_of hdr (es0 ++ e :: es) s ->
  index_of (set_length (cut hdr (LE hdr.[0, 4] + len (concat es0)) (LE hdr.[0, 4] + len (concat es0) + len e)) (LE hdr.[4, 8] - len e)) (es0 ++ es) s.
Proof.
  intros (Hb & Hl & Ho & Hi & Hd & Hes & Hs). set (eo := LE hdr.[0, 4]) in *. set (il := LE hdr.[4, 8]) in *.
  rewrite concat_app in Hd. cbn [concat] in Hd. rewrite <-!(assoc app) in Hd. destruct (sub_split hdr eo il _ _ ltac:(lia) Hi Hd) as (Hlen & E1 & E2).
  rewrite !len_app in Hlen. pose proof (len_nonneg (concat es0)). pose proof (len_nonneg (concat es)). pose proof (len_nonneg s). pose proof (len_nonneg e). set (so := eo + len (concat es0)) in *.
  destruct (sub_split hdr so il e _ ltac:(unfold so; lia) Hi E2) as (_ & E3 & E4).
  set (pre := hdr.[0, eo]). set (data := concat (es0 ++ es) ++ s). set (rest := hdr.[il, len hdr]).
  assert (cut hdr so (so + len e) = pre ++ data ++ rest) as ->.
  { unfold cut, pre, data, rest. rewrite <-(sub_cat hdr 0 eo so), <-(sub_cat hdr (so + len e) il (len hdr)) by (unfold so; lia). rewrite E1, E4, concat_app. by rewrite <-!(assoc app). }
  assert (len pre = eo) as Hlp by (unfold pre; rewrite len_sub by lia; lia). assert (len rest = len hdr - il) as Hlr by (unfold rest; rewrite len_sub by lia; lia).
  assert (len data = il - eo - len e) as Hld by (unfold data; rewrite !len_app, concat_app, len_app; lia). apply Forall_app in Hes as [Hes0 Hes1]. apply Forall_cons in Hes1 as [[_ [Hle _]] Hes1].
  destruct Hs as [Hsl Hsf]. assert (16 <= len data) by (unfold data; rewrite len_app, concat_app, len_app; lia).
  apply (set_length_index pre data rest (es0 ++ es) s).
  - rewrite Hlp. unfold pre. by rewrite sub_of_sub by lia.
  - unfold data, pre, rest. rewrite concat_app, <-(assoc app _ _ s), <-E4, <-E1, !Forall_app. repeat split; by apply bytes_ok_sub.
  - lia.
  - rewrite !len_app. lia.
  - lia.
  - done.
  - by apply Forall_app_2.
  - done.
Qed.

Lemma deleted_index hdr es : forall es0 s, index_of hdr (es0 ++ es) s ->
  index_of (deleted hdr (LE hdr.[0, 4]) (LE hdr.[4, 8]) es (len (concat es0))) (es0 ++ remove_first is_named es) s.
Proof.
  induction es as [|e es IH]; intros es0 s Hx; cbn [deleted remove_first]; [done|]. destruct (is_named e); [by apply cut_index|].
  assert (es0 ++ e :: remove_first is_named es = (es0 ++ [e]) ++ remove_first is_named es) as -> by (by rewrite <-(assoc app)).
  replace (len (concat es0) + len e) with (len (concat (es0 ++ [e]))) by (rewrite concat_app, len_app; cbn [concat]; by rewrite app_nil_r).
  apply IH. by rewrite <-(assoc app).
Qed.

Lemma deleteIndexEntry_ok hdr spare es s : index_of hdr es s -> exists hdr', deleteIndexEntry hdr spare name = Ret hdr' /\ index_of hdr' (remove_first is_named es) s /\ (forallb (fun e => negb (is_named e)) es -> hdr' = hdr).
Proof.
  intros Hx. pose proof Hx as (Hb & Hl & Ho & Hi & Hd & Hes & Hs). unfold deleteIndexEntry. rewrite !u32_ok by lia. cbn [mbind go_bind]. change (0 + 4) with 4. change (4 + 4) with 8.
  rewrite !(proj2 (Z.ltb_ge _ _)) by lia. cbn [orb]. rewrite (index_data hdr es s (proj2 Hx)). cbn [mbind go_bind]. eexists. split; [|split].
  - apply (delete_rounds hdr _ (LE hdr.[0, 4]) (LE hdr.[4, 8]) es (S (length (concat es ++ s))) [] s Hes Hs); [|lia|].
    + pose proof (entries_short es Hes). rewrite length_app. lia.
    + cbn [app]. rewrite <-Hd, len_sub by lia. lia.
  - by apply (deleted_index hdr es []).
  - clear. revert hdr. generalize (len (@nil Z)). induction es as [|e es IH]; intros off hdr; cbn [deleted forallb]; [done|]. destruct (is_named e); [done|]. cbn [negb andb]. apply IH.
Qed.
End deleting.

(** ** Building entries *)

(** Units written one after another. *)
Lemma put_units_zeros us : forall A n, (2 * length us = n)%nat -> put_units (A ++ replicate n 0) (len A) us = Ret (A ++ us ≫= put_le 2).
Proof.
  induction us as [|u us IH]; intros A n Hn; cbn [put_units]; [by destruct n; [cbn; rewrite app_nil_r|cbn in Hn; lia]|].
  destruct n as [|[|n]]; [cbn in Hn; lia..|]. unfold put_u16. rewrite (put_r0 A _ (len A) eq_refl) by (rewrite len_put_le, len_replicate; lia). cbn [mbind go_bind].
  rewrite patch_zeros by (rewrite len_put_le; lia). rewrite length_put_le. change (S (S n) - 2)%nat with (n - 0)%nat. rewrite Nat.sub_0_r, (assoc app).
  replace (len A + 2) with (len (A ++ put_le 2 u)) by (rewrite len_app, len_put_le; lia). rewrite IH by (cbn in Hn; lia). by rewrite <-(assoc app).
Qed.

Lemma words_units us : Forall (fun u => 0 <= u < 2 ^ 16) us -> words LE 2 (length us) (us ≫= put_le 2) = us.
Proof.
  induction 1 as [|u us Hu Hus IH]; [done|]. cbn [words length mbind list_bind]. rewrite take_app_length' by (by rewrite length_put_le). rewrite drop_app_length' by (by rewrite length_put_le).
  rewrite LE_put_le. change (256 ^ Z.of_nat 2) with (2 ^ 16). rewrite Z.mod_small by lia. by f_equal.
Qed.

Lemma len_units us : len (us ≫= put_le 2) = 2 * len us.
Proof. induction us as [|u us IH]; [done|]. cbn [mbind list_bind]. rewrite len_app, len_put_le, len_cons. cbn [mbind list_bind] in IH. lia. Qed.

Lemma Encode_range rs : Forall scalar rs -> Forall (fun u => 0 <= u < 2 ^ 16) (Encode rs).
Proof. intros Hs. unfold Encode. apply Forall_bind, Forall_forall. intros r Hr. apply Forall_forall. intros u Hu. rewrite Forall_forall in Hs. by destruct (encode_units r u (Hs r Hr) Hu). Qed.

Lemma store_l (A B : list Z) o x : 0 <= x < 256 -> 0 <= o < len A -> store (A ++ B) o x = Ret (patch A o (put_le 1 x) ++ B).
Proof.
  intros Hx Ho. pose proof (len_nonneg B). rewrite store_patch by (rewrite len_app; lia). cbn [put_le]. rewrite Z.mod_small by lia. assert (len [x] = 1) by done. by rewrite patch_app_l by lia.
Qed.

Section key.
Context (now : Z) (rs : list Z) (parent attrs : Z).
Hypothesis (Hrs : Forall scalar rs) (Hlen : len (Encode rs) <= 255).

Definition key_time : list Z := put_le 8 (u64 (timeToFiletime now)).
(** The fixed part of the value of a [$FILE_NAME] attribute. *)
Definition key_head : list Z :=
  patch (patch (patch (patch (patch (patch (patch (patch (replicate 66 0) 0 (put_le 8 (Z.lor parent (Z.shiftl 1 48)))) 8 key_time) 16 key_time) 24 key_time) 32 key_time) 56 (put_le 4 attrs))
    64 (put_le 1 (len (Encode rs)))) 65 (put_le 1 3).

#[local] Ltac head_layers :=
  repeat match goal with |- context [patch ?b ?o ?x] => is_var b;
    let P := fresh "P" in let E := fresh "E" in let Hl := fresh "Hl" in
    remember (patch b o x) as P eqn:E; assert (len P = 66) as Hl by (rewrite E, patch_len; rewrite ?len_put_le; lia) end.
#[local] Ltac peel_head :=
  repeat match goal with E : ?P = patch ?b ?o ?x |- context [?P.[?lo, ?hi]] =>
    rewrite E; first [rewrite sub_patch_at by (rewrite ?len_put_le; lia) | rewrite sub_patch_other by (rewrite ?len_put_le; lia)] end.

Lemma buildFileNameAttr_ok : buildFileNameAttr now (string_of_runes rs) parent attrs = Ret (key_head ++ Encode rs ≫= put_le 2).
Proof using Hrs Hlen.
  unfold buildFileNameAttr, key_head, put_u64, put_u32. rewrite runes_string by done. cbv zeta. fold key_time. rewrite replicate_add. pose proof (len_nonneg (Encode rs)).
  set (R := replicate (length (Encode rs) * 2) 0). remember (replicate 66 0) as A eqn:EA. assert (len A = 66) as HA by (by rewrite EA). clear EA. assert (len key_time = 8) as Ht by apply len_put_le.
  do 6 (rewrite put_l by (rewrite ?len_put_le; lia); cbn [mbind go_bind]; head_layers).
  assert (u8 (len (Encode rs)) = len (Encode rs)) as -> by (apply Z.mod_small; lia). do 2 (rewrite store_l by (done || lia); cbn [mbind go_bind]; head_layers).
  rewrite <-(put_units_zeros (Encode rs) _ (length (Encode rs) * 2)) by lia. 
  rewrite Hl6. by subst.
Qed.

Lemma key_head_slices : len key_head = 66 /\ bytes_ok key_head /\ key_head.[16, 24] = key_time /\ LE key_head.[48, 56] = 0 /\ key_head.[56, 60] = put_le 4 attrs /\ byte_at key_head 64 = len (Encode rs) /\ byte_at key_head 65 = 3.
Proof using Hlen.
  pose proof (len_nonneg (Encode rs)). assert (bytes_ok key_head) as Hb by (unfold key_head, key_time; repeat apply patch_bytes; auto using put_le_bytes, bytes_ok_zeros). revert Hb.
  unfold key_head. remember (replicate 66 0) as A eqn:EA. assert (len A = 66) as HA by (by rewrite EA). assert (LE A.[48, 56] = 0) as H0 by (by rewrite EA). clear EA. assert (len key_time = 8) as Ht by apply len_put_le.
  head_layers. repeat split; try done; [peel_head..| |]; try done; apply byte_of_slice; try lia; peel_head; cbn [put_le]; rewrite ?Z.mod_small by lia; done.
Qed.
End key.

(** What a listing shows of a name added with [buildFileNameAttr] and [buildIndexEntry]. *)
Definition new_dirent (now : Z) (name : gostring) (num attrs : Z) : ntfsDirEntry :=
  let isDir := has attrs faDirectory in
  mkDirEntry (mkInfo name 0 (if isDir then Z.lor 493 ModeDir else 420) (filetimeToTime (timeToFiletime now)) isDir) num.

Lemma timeToFiletime_range t : - 2 ^ 63 <= timeToFiletime t < 2 ^ 63.
Proof. unfold timeToFiletime. destruct (t =? zero_time); [lia|apply i64_range]. Qed.

Lemma i64_mod x : - 2 ^ 63 <= x < 2 ^ 63 -> i64 (x mod 2 ^ 64) = x.
Proof. intros Hx. rewrite Z.mod_eq by lia. replace (x - 2 ^ 64 * (x / 2 ^ 64)) with (x + - (x / 2 ^ 64) * 2 ^ 64) by lia. rewrite i64_plus_mult. by apply i64_id. Qed.

Section built.
Context (now : Z) (rs : list Z) (parent attrs num : Z).
Hypothesis (Hrs : Forall scalar rs) (Hlen : len (Encode rs) <= 255) (Hnum : 0 <= num < 2 ^ 48) (Hattrs : 0 <= attrs < 2 ^ 32).

Definition built_key : list Z := key_head now rs parent attrs ++ Encode rs ≫= put_le 2.
Definition entry_layers : list Z :=
  let n := align8 (16 + len built_key) in
  patch (patch (patch (patch (replicate (Z.to_nat n) 0) 0 (put_le 8 (Z.lor num (Z.shiftl 1 48)))) 8 (put_le 2 n)) 10 (put_le 2 (len built_key))) 16 built_key.

Lemma built_key_ok : bytes_ok built_key /\ len built_key = 66 + 2 * len (Encode rs).
Proof using Hlen.
  destruct (key_head_slices now rs parent attrs Hlen) as (Hl & Hb & _). unfold built_key. rewrite len_app, len_units. split; [|lia].
  apply Forall_app_2; [done|]. apply Forall_bind, Forall_forall. intros u _. apply put_le_bytes.
Qed.

Lemma buildIndexEntry_ok : buildIndexEntry num built_key = Ret entry_layers.
Proof using Hlen.
  destruct built_key_ok as [Hb Hl]. pose proof (len_nonneg (Encode rs)). destruct (align8_ok (16 + len built_key)) as [Hn _]; [lia|]. unfold buildIndexEntry, entry_layers, put_u64, put_u16. cbv zeta.
  set (n := align8 (16 + len built_key)) in *. remember (replicate (Z.to_nat n) 0) as Z0 eqn:EZ. assert (len Z0 = n) as HZ by (rewrite EZ, len_replicate; lia). clear EZ.
  rewrite put_from_ok by (rewrite ?len_put_le; lia). cbn [mbind go_bind]. rewrite put_from_ok by (rewrite ?len_put_le, ?patch_len by (rewrite ?len_put_le; lia); lia). cbn [mbind go_bind].
  set (Q := patch (patch Z0 0 _) 8 _). assert (len Q = n) as HQ by (unfold Q; patch_lens). rewrite put_from_ok by (rewrite ?len_put_le; lia). cbn [mbind go_bind].
  set (R := patch Q 10 _). assert (len R = n) as HR by (unfold R; rewrite patch_len by (rewrite ?len_put_le; lia); done). apply (copy_r [] R 0 eq_refl 16 built_key); lia.
Qed.

Lemma entry_layers_slices : len entry_layers = align8 (16 + len built_key) /\ bytes_ok entry_layers /\ LE entry_layers.[0, 8] = num + 2 ^ 48 /\ LE entry_layers.[8, 10] = len entry_layers /\
  LE entry_layers.[10, 12] = len built_key /\ LE entry_layers.[12, 16] = 0 /\ entry_layers.[16, 16 + len built_key] = built_key.
Proof using Hlen Hnum.
  destruct built_key_ok as [Hb Hl]. pose proof (len_nonneg (Encode rs)). destruct (align8_ok (16 + len built_key)) as [Hn _]; [lia|].
  assert (bytes_ok entry_layers) as Hbe by (unfold entry_layers; repeat apply patch_bytes; auto using put_le_bytes, bytes_ok_zeros).
  assert (len entry_layers = align8 (16 + len built_key)) as Hle.
  { unfold entry_layers. cbv zeta. set (n := align8 (16 + len built_key)) in *. remember (replicate (Z.to_nat n) 0) as Z0 eqn:EZ. assert (len Z0 = n) as HZ by (rewrite EZ, len_replicate; lia). clear EZ.
    set (Q := patch (patch Z0 0 _) 8 _). assert (len Q = n) as HQ by (unfold Q; patch_lens). set (R := patch Q 10 _). assert (len R = n) as HR by (unfold R; rewrite patch_len by (rewrite ?len_put_le; lia); done).
    rewrite patch_len by lia. done. }
  split; [done|]. split; [done|]. rewrite Hle. unfold entry_layers. cbv zeta. set (n := align8 (16 + len built_key)) in *. remember (replicate (Z.to_nat n) 0) as Z0 eqn:EZ. assert (len Z0 = n) as HZ by (rewrite EZ, len_replicate; lia).
  assert (LE Z0.[12, 16] = 0) as H0.
  { rewrite EZ. unfold sub. rewrite drop_replicate, take_replicate. by replace (_ `min` _)%nat with 4%nat by lia. }
  rewrite lor_shiftl_add by lia. patch_slices. rewrite !LE_put_le, H0. change (256 ^ Z.of_nat 8) with (2 ^ 64). change (256 ^ Z.of_nat 2) with (2 ^ 16). rewrite !Z.mod_small by lia. repeat split; lia || done.
Qed.

Lemma key_name : utf16_string built_key 66 (len (Encode rs)) = Ret (string_of_runes rs).
Proof using Hrs Hlen.
  destruct built_key_ok as [_ Hl]. pose proof (len_nonneg (Encode rs)). destruct (key_head_slices now rs parent attrs Hlen) as (Hlh & _). unfold utf16_string. rewrite units_from_ok by lia. cbn [mbind go_bind mret go_ret].
  unfold built_key. rewrite from_app_r by done. replace (Z.to_nat (len (Encode rs))) with (length (Encode rs)) by (unfold len; lia). by rewrite words_units, Decode_Encode by auto using Encode_range.
Qed.

Lemma built_parsed : string_of_runes rs <> dot -> string_of_runes rs <> dotdot -> parseFileNameKey built_key num = Ret (Some (new_dirent now (string_of_runes rs) num attrs)).
Proof using Hrs Hlen Hattrs.
  intros Hd Hdd. destruct built_key_ok as [Hb Hl]. pose proof (len_nonneg (Encode rs)). destruct (key_head_slices now rs parent attrs Hlen) as (Hlh & _ & E16 & E48 & E56 & E64 & E65).
  pose proof key_name as Hname. assert (forall lo hi, 0 <= lo <= hi -> hi <= 66 -> built_key.[lo, hi] = (key_head now rs parent attrs).[lo, hi]) as Hs by (intros; unfold built_key; apply sub_app_within; lia).
  assert (forall k, 0 <= k < 66 -> byte_at built_key k = byte_at (key_head now rs parent attrs) k) as Hk by (intros; unfold built_key; apply byte_at_app_l; lia).
  unfold parseFileNameKey. rewrite (proj2 (Z.ltb_ge _ _)), (index_byte_at built_key 65), Hk, E65 by lia. cbn [mbind go_bind]. change (3 =? 2) with false. cbv iota.
  rewrite (index_byte_at built_key 64), Hk, E64 by lia. cbn [mbind go_bind]. rewrite (proj2 (Z.ltb_ge _ _)), Hname by lia. cbn [mbind go_bind]. rewrite !bool_decide_false by done. cbn [orb].
  rewrite (u32_ok built_key 56), (u64_ok built_key 48), (u64_ok built_key 16) by lia. cbn [mbind go_bind mret go_ret]. change (56 + 4) with 60. change (48 + 8) with 56. change (16 + 8) with 24. rewrite !Hs, E56, E48, E16 by lia.
  unfold key_time. rewrite !LE_put_le. change (256 ^ Z.of_nat 4) with (2 ^ 32). change (256 ^ Z.of_nat 8) with (2 ^ 64). rewrite (Z.mod_small attrs) by lia. unfold new_dirent. cbv zeta. do 5 f_equal.
  unfold wrap_u. rewrite Z.mod_mod by lia. by apply i64_mod, timeToFiletime_range.
Qed.

Lemma built_entry : string_of_runes rs <> dot -> string_of_runes rs <> dotdot ->
  entry_ok entry_layers /\ decoded entry_layers = Some (new_dirent now (string_of_runes rs) num attrs) /\ entry_name entry_layers = Some (string_of_runes rs).
Proof using Hrs Hlen Hnum Hattrs.
  intros Hd Hdd. destruct built_key_ok as [Hb Hl]. pose proof (len_nonneg (Encode rs)). destruct entry_layers_slices as (Hle & Hbe & E0 & E8 & E10 & E12 & E16). destruct (align8_ok (16 + len built_key)) as [Hn _]; [lia|].
  destruct (key_head_slices now rs parent attrs Hlen) as (Hlh & _ & _ & _ & _ & E64 & _). split; [|split].
  - split; [done|]. rewrite E8, E10, E12, Hle. split; [lia|]. split; [done|]. split; [lia|done].
  - unfold decoded. rewrite E10, E16, (proj2 (Z.leb_le _ _)), E0 by lia. change 0x0000FFFFFFFFFFFF with (2 ^ 48 - 1). rewrite land_mask by lia. replace (num + 2 ^ 48) with (num + 1 * 2 ^ 48) by lia.
    rewrite Z.mod_add, Z.mod_small, built_parsed by (done || lia). done.
  - unfold entry_name. rewrite E10, E16. cbv zeta. assert (byte_at built_key 64 = len (Encode rs)) as -> by (unfold built_key; rewrite byte_at_app_l by lia; done).
    rewrite !(proj2 (Z.leb_le _ _)) by lia. cbn [andb]. by rewrite key_name.
Qed.
End built.

Lemma fold_eq_refl `{UnicodeTables} s : equal_fold s s = true.
Proof. unfold equal_fold. induction (runes s) as [|r rs IH]; [done|]. cbn [runes_fold_eq]. unfold rune_fold_eq. by rewrite Z.eqb_refl, IH. Qed.

Lemma remove_appended {A} (p : A -> bool) l x : forallb (fun y => negb (p y)) l -> p x = true -> remove_first p (l ++ [x]) = l.
Proof.
  intros Hl Hx. induction l as [|y l IH]; cbn [app remove_first] in *; [by rewrite Hx|]. cbn [forallb] in Hl. destruct (p y); [done|]. by rewrite IH.
Qed.

(** C25. A name added to a directory index is listed last, with its number, its kind and
    the time of the call, and the names before it are listed as before; deleting a name takes
    out the first entry whose name is equal to it up to case and leaves every other one,
    whatever lies behind the index in its record (the bytes of the slice's capacity), so
    deleting a new name gives the entries there were before it was added. *)
Theorem ntfs_index_edit `{UnicodeTables} hdr es s now rs parent attrs num :
  index_of hdr es s -> len hdr < 2 ^ 31 - 1024 -> Forall scalar rs -> len (Encode rs) <= 255 -> string_of_runes rs <> dot -> string_of_runes rs <> dotdot ->
  0 <= num < 2 ^ 48 -> 0 <= attrs < 2 ^ 32 ->
  let name := string_of_runes rs in
  exists key e hdr', buildFileNameAttr now name parent attrs = Ret key /\ buildIndexEntry num key = Ret e /\ insertIndexEntry hdr e = Ret hdr' /\
    index_of hdr' (es ++ [e]) s /\ collectIndexEntries hdr' [] = Ret (omap decoded es ++ [new_dirent now name num attrs]) /\
    (forall old spare, exists hdr'', deleteIndexEntry hdr' spare old = Ret hdr'' /\ index_of hdr'' (remove_first (is_named old) (es ++ [e])) s /\
       collectIndexEntries hdr'' [] = Ret (omap decoded (remove_first (is_named old) (es ++ [e])))) /\
    (forallb (fun e => negb (is_named name e)) es -> remove_first (is_named name) (es ++ [e]) = es).
Proof.
  intros Hx Hmax Hrs Hlen Hd Hdd Hnum Hattrs name. pose proof (len_nonneg (Encode rs)). destruct (built_entry now rs parent attrs num Hrs Hlen Hnum Hattrs Hd Hdd) as (He & Hdec & Hname).
  destruct (built_key_ok now rs parent attrs Hlen) as [_ Hlk]. destruct (entry_layers_slices now rs parent attrs num Hlen Hnum) as (Hle & _). destruct (align8_ok (16 + len (built_key now rs parent attrs))) as [Hn _]; [lia|].
  exists (built_key now rs parent attrs), (entry_layers now rs parent attrs num). destruct (insertIndexEntry_ok hdr es s _ Hx He ltac:(lia)) as (hdr' & Hi & Hx' & _). exists hdr'.
  split; [by apply buildFileNameAttr_ok|]. split; [by apply buildIndexEntry_ok|]. split; [done|]. split; [done|]. split; [|split].
  - rewrite (collectIndexEntries_ok hdr' _ s [] (proj2 Hx')), omap_app. cbn [app omap list_omap]. by rewrite Hdec.
  - intros old spare. destruct (deleteIndexEntry_ok old hdr' spare _ s Hx') as (hdr'' & Ed & Hx'' & _). exists hdr''. split; [done|]. split; [done|]. apply (collectIndexEntries_ok hdr'' _ s [] (proj2 Hx'')).
  - intros Hno. apply remove_appended; [done|]. unfold is_named. rewrite Hname. apply fold_eq_refl.
Qed.

(** The index of an empty directory. *)
Definition empty_index : list Z := put_le 4 16 ++ put_le 4 32 ++ put_le 4 32 ++ replicate 4 0 ++ replicate 8 0 ++ put_le 2 16 ++ replicate 2 0 ++ put_le 4 idxFlagLastEntry.
Definition empty_sentinel : list Z := replicate 8 0 ++ put_le 2 16 ++ replicate 2 0 ++ put_le 4 idxFlagLastEntry.

Lemma empty_index_of : index_of empty_index [] empty_sentinel.
Proof. split; [apply bytes_okb_ok; by vm_compute|]. split; [vm_compute; split; congruence|]. split; [vm_compute; split; congruence|]. split; [vm_compute; congruence|]. split; [by vm_compute|]. split; [constructor|]. split; [vm_compute; congruence|by vm_compute]. Qed.

Lemma ntfs_index_edit_witness : exists key e hdr', buildFileNameAttr zero_time (string_of_runes [65; 0x1F600]) 5 0x20 = Ret key /\ buildIndexEntry 42 key = Ret e /\ insertIndexEntry empty_index e = Ret hdr' /\
  (i_name ∘ de_info <$> [new_dirent zero_time (string_of_runes [65; 0x1F600]) 42 0x20]) = [[65; 0xF0; 0x9F; 0x98; 0x80]] /\
  collectIndexEntries hdr' [] = Ret [new_dirent zero_time (string_of_runes [65; 0x1F600]) 42 0x20].
Proof.
  destruct (@ntfs_index_edit ascii_tables empty_index [] empty_sentinel zero_time [65; 0x1F600] 5 0x20 42) as (key & e & hdr' & Hk & He & Hi & _ & Hc & _).
  - apply empty_index_of.
  - vm_compute; congruence.
  - repeat constructor; lia.
  - vm_compute; congruence.
  - vm_compute; congruence.
  - vm_compute; congruence.
  - lia.
  - lia.
  - exists key, e, hdr'. split; [exact Hk|]. split; [exact He|]. split; [exact Hi|]. split; [by vm_compute|exact Hc].
Defined.
