(* ===== verification/NtfsBlock.v ===== *)
(** * NtfsBlock: index blocks of NTFS volumes (ntfs/alloc.go, ntfs/read.go)
    Building the blocks of a directory index that has left its record, adding entries to
    them, and the runs and the bit map they lie in. *)
From S2P Require Import Prelude Bytes ReaderAt Text Utf16 NtfsRuns Ntfs NtfsFile NtfsAttr NtfsIndex.

(** ** Index blocks *)

Definition indxEntriesStart (blockSize : Z) : Z :=
  let usaCount := Z.quot blockSize 512 + 1 in
  let usaEnd := 0x28 + usaCount * 2 in
  and_not (usaEnd + 7) 7.

Definition indxUsableSpace (blockSize : Z) : Z := i64 (blockSize - indxEntriesStart blockSize - 16).

Definition INDX : list Z := lit "INDX".

Definition buildINDXBlock (vcn : Z) (rawEntries : list Z) (blockSize : Z) : go (list Z) :=
  buf ← make 0 1 blockSize;
  let usaCount := Z.quot blockSize 512 + 1 in
  let entriesStart := indxEntriesStart blockSize in
  let entriesOff := entriesStart - 0x18 in
  let allocSize := blockSize - 0x18 in
  buf ← copy_from buf 0 INDX;
  buf ← put_u16 buf 0x04 0x28;
  buf ← put_u16 buf 0x06 usaCount;
  buf ← put_u64 buf 0x10 vcn;
  buf ← put_u32 buf 0x18 entriesOff;
  buf ← put_u32 buf 0x20 allocSize;
  buf ← put_u16 buf 0x28 1;
  buf ← (if 0 <? len rawEntries then copy_from buf entriesStart rawEntries else mret buf);
  let sentinelOff := entriesStart + len rawEntries in
  buf ← put_u16 buf (sentinelOff + 8) 16;
  buf ← put_u32 buf (sentinelOff + 12) idxFlagLastEntry;
  let indexLen := entriesOff + len rawEntries + 16 in
  buf ← put_u32 buf 0x1C indexLen;
  stampUSA buf (Z.quot blockSize 512).

Definition buildEmptyIndexRootVal (src : list Z) : go (list Z) :=
  let ir := replicate 48 0 in
  ir ← (if 16 <=? len src then s ← slice src 0 16; copy_from ir 0 s else mret ir);
  ir ← put_u32 ir 16 16;
  ir ← put_u32 ir 20 32;
  ir ← put_u32 ir 24 32;
  ir ← put_u16 ir 40 16;
  put_u32 ir 44 idxFlagLastEntry.

(** The block afterwards, and whether there was room. *)
Definition addEntryToINDXBlock (block entry : list Z) : go (list Z * bool) :=
  if len block <? 0x28 then mret (block, false) else
  sig ← slice block 0 4;
  if bool_decide (sig <> INDX) then mret (block, false) else
  entriesOff ← u32_from block 0x18;
  indexLen ← u32_from block 0x1C;
  allocSize ← u32_from block 0x20;
  if allocSize - indexLen <? len entry then mret (block, false) else
  let hdrStart := 0x18 in
  let dataStart := hdrStart + entriesOff in
  let dataLen := indexLen - entriesOff in
  if len block <? dataStart + dataLen then mret (block, false) else
  data ← slice block dataStart (dataStart + dataLen);
  rel ← find_sentinel data;
  if rel <? 0 then mret (block, false) else
  let sentinelAbsOff := dataStart + rel in
  let afterSentinel := sentinelAbsOff + 16 in
  if len block <? afterSentinel + len entry then mret (block, false) else
  s ← slice block sentinelAbsOff afterSentinel;
  block ← copy_from block (sentinelAbsOff + len entry) s;
  block ← copy_from block sentinelAbsOff entry;
  block ← put_u32 block 0x1C (indexLen + len entry);
  mret (block, true).

(** ** Runs and bit maps of an index *)

Fixpoint lcn_of_vcn (runs : list run) (off vcn : Z) : Z :=
  match runs with
  | [] => -1
  | r :: runs' => if (off <=? vcn) && (vcn <? i64 (off + run_length r)) then i64 (lcn r + (vcn - off)) else lcn_of_vcn runs' (i64 (off + run_length r)) vcn
  end.
Definition lcnOfVCN (runs : list run) (vcn : Z) : Z := lcn_of_vcn runs 0 vcn.

Definition merge_one (result : list run) (nr : run) : list run :=
  match last result with
  | Some l => if i64 (lcn l + run_length l) =? lcn nr then removelast result ++ [mkRun (lcn l) (i64 (run_length l + run_length nr))] else result ++ [nr]
  | None => result ++ [nr]
  end.
Definition mergeRuns (existing newRuns : list run) : list run := foldl merge_one existing newRuns.

Definition growBitmap (existing : list Z) (n : Z) : go (list Z) :=
  let needed := Z.quot n 8 + 1 in
  bm ← make 0 1 needed;
  let bm := patch bm 0 (take (length bm) existing) in
  b ← index bm (Z.quot n 8);
  store bm (Z.quot n 8) (Z.lor b (u8 (Z.shiftl 1 (Z.rem n 8)))).


(** ** A block on the disk and back *)

(** The entry that ends the index of a block. *)
Definition block_sentinel (s : list Z) : Prop := len s = 16 /\ LE s.[8, 10] = 16 /\ LE s.[12, 16] = idxFlagLastEntry.

Lemma block_sentinel_ok s : block_sentinel s -> sentinel_ok s.
Proof. intros (Hl & _ & Hf). split; [lia|by rewrite Hf]. Qed.

Section block.
Context (vcn blockSize : Z) (es : list (list Z)).
Hypothesis (Hes : Forall entry_ok es) (Hbs : 512 <= blockSize) (Hmax : blockSize <= 119808).
Let cnt := blockSize / 512 + 1.
Let start := indxEntriesStart blockSize.
Let raw := concat es.
Hypothesis Hroom : start + len raw + 16 <= blockSize.

Lemma start_ok : 0x28 + cnt * 2 <= start <= 0x28 + cnt * 2 + 7.
Proof using Hbs.
  unfold start, indxEntriesStart, cnt. rewrite Z.quot_div_nonneg by lia. pose proof (Z.div_pos blockSize 512). destruct (align8_ok (0x28 + (blockSize / 512 + 1) * 2)) as [Ha _]; [lia|].
  unfold align8 in Ha. lia.
Qed.

Definition block_layers : list Z :=
  patch (patch (patch (patch (patch (patch (patch (patch (patch (patch (patch (replicate (Z.to_nat blockSize) 0)
    0 INDX) 4 (put_le 2 0x28)) 6 (put_le 2 cnt)) 0x10 (put_le 8 vcn)) 0x18 (put_le 4 (start - 0x18))) 0x20 (put_le 4 (blockSize - 0x18))) 0x28 (put_le 2 1))
    start raw) (start + len raw + 8) (put_le 2 16)) (start + len raw + 12) (put_le 4 idxFlagLastEntry)) 0x1C (put_le 4 (start - 0x18 + len raw + 16)).

#[local] Ltac block_named :=
  repeat match goal with |- context [patch ?b ?o ?x] => is_var b;
    let P := fresh "P" in let E := fresh "E" in let Hl := fresh "Hl" in
    remember (patch b o x) as P eqn:E; assert (len P = blockSize) as Hl by (rewrite E, patch_len; rewrite ?len_put_le; lia) end.
#[local] Ltac block_peel :=
  repeat match goal with E : ?P = patch ?b ?o ?x |- context [?P.[?lo, ?hi]] =>
    rewrite E; first [rewrite sub_patch_at by (rewrite ?len_put_le; lia) | rewrite sub_patch_other by (rewrite ?len_put_le; lia)] end.

Lemma raw_bytes : bytes_ok raw.
Proof using Hes. unfold raw. generalize es Hes. clear. induction 1 as [|e l (Hb & _) _ IH]; [constructor|]. by apply Forall_app_2. Qed.

Lemma block_layers_ok : len block_layers = blockSize /\ bytes_ok block_layers /\ block_layers.[0, 4] = INDX /\ block_layers.[4, 6] = put_le 2 0x28 /\ block_layers.[6, 8] = put_le 2 cnt /\
  block_layers.[0x18, 0x1C] = put_le 4 (start - 0x18) /\ block_layers.[0x1C, 0x20] = put_le 4 (start - 0x18 + len raw + 16) /\ block_layers.[start, start + len raw] = raw /\
  block_layers.[start + len raw + 8, start + len raw + 10] = put_le 2 16 /\ block_layers.[start + len raw + 12, start + len raw + 16] = put_le 4 idxFlagLastEntry.
Proof using Hes Hbs Hmax Hroom.
  pose proof start_ok. pose proof (len_nonneg raw). pose proof (Z.div_pos blockSize 512). assert (bytes_ok block_layers) as Hb.
  { unfold block_layers. repeat apply patch_bytes; auto using put_le_bytes, bytes_ok_zeros, raw_bytes. apply bytes_okb_ok. by vm_compute. }
  revert Hb. unfold block_layers. remember (replicate (Z.to_nat blockSize) 0) as A eqn:EA. assert (len A = blockSize) as HA by (rewrite EA, len_replicate; lia). clear EA. assert (len INDX = 4) by done. unfold cnt in *.
  block_named. repeat split; try done; block_peel; done.
Qed.

Lemma put_ok (b x : list Z) o : len b = blockSize -> 0 <= o -> o + len x <= blockSize -> put_word b o (len b) x = Ret (patch b o x) /\ copy_from b o x = Ret (patch b o x) /\ len (patch b o x) = blockSize.
Proof using.
  intros Hb Ho Hx. split; [apply put_from_ok; lia|]. split; [apply (copy_r [] b 0 eq_refl o x); lia|]. by rewrite patch_len by lia.
Qed.

Lemma buildINDXBlock_ok : buildINDXBlock vcn raw blockSize = stampUSA block_layers (blockSize / 512).
Proof using Hes Hbs Hmax Hroom.
  pose proof start_ok. pose proof (len_nonneg raw). pose proof (Z.div_pos blockSize 512). assert (len INDX = 4) by done. unfold buildINDXBlock, block_layers, put_u16, put_u32, put_u64. fold start. rewrite make_ok by (unfold maxAlloc; lia). cbn [mbind go_bind].
  rewrite Z.quot_div_nonneg by lia. fold cnt. remember (replicate (Z.to_nat blockSize) 0) as A eqn:EA. assert (len A = blockSize) as HA by (rewrite EA, len_replicate; lia). clear EA. cbv zeta.
  assert (forall b, len b = blockSize -> (if 0 <? len raw then copy_from b start raw else mret b) = Ret (patch b start raw)) as Hraw.
  { intros b Hb. destruct (Z.ltb_spec 0 (len raw)); [by apply put_ok; lia|]. assert (raw = []) as -> by (destruct raw; [done|rewrite len_cons in *; pose proof (len_nonneg l); lia]). by rewrite patch_nil by lia. }
  unfold cnt in *.
  repeat match goal with
  | Hb : len ?b = blockSize |- context [put_word ?b ?o (len ?b) ?x] => let H1 := fresh in let H2 := fresh in destruct (put_ok b x o Hb ltac:(lia) ltac:(rewrite ?len_put_le; lia)) as (H1 & _ & H2); rewrite H1; clear H1; cbn [mbind go_bind]; revert H2; generalize (patch b o x); intros ? ?
  | Hb : len ?b = blockSize |- context [copy_from ?b 0 ?x] => let H1 := fresh in let H2 := fresh in destruct (put_ok b x 0 Hb ltac:(lia) ltac:(lia)) as (_ & H1 & H2); rewrite H1; clear H1; cbn [mbind go_bind]; revert H2; generalize (patch b 0 x); intros ? ?
  | Hb : len ?b = blockSize |- context [if 0 <? len raw then copy_from ?b _ _ else _] => let H2 := fresh in destruct (put_ok b raw start Hb ltac:(lia) ltac:(lia)) as (_ & _ & H2); rewrite (Hraw b Hb); cbn [mbind go_bind]; revert H2; generalize (patch b start raw); intros ? ?
  end.
  done.
Qed.
End block.

Lemma sub_same_bytes (a b : list Z) lo hi : len a = len b -> 0 <= lo -> (forall k, lo <= k < hi -> byte_at a k = byte_at b k) -> a.[lo, hi] = b.[lo, hi].
Proof.
  intros Hl Hlo Hk. apply list_eq. intros i. destruct (Z.ltb_spec (lo + Z.of_nat i) hi) as [Hi|Hi].
  - rewrite !lookup_sub by lia. replace (Z.to_nat lo + i)%nat with (Z.to_nat (lo + Z.of_nat i)) by lia. specialize (Hk (lo + Z.of_nat i) ltac:(lia)). unfold byte_at, len in *.
    destruct (decide (Z.to_nat (lo + Z.of_nat i) < length a)%nat).
    + destruct (lookup_lt_is_Some_2 a (Z.to_nat (lo + Z.of_nat i)) ltac:(lia)) as [x Ex]. destruct (lookup_lt_is_Some_2 b (Z.to_nat (lo + Z.of_nat i)) ltac:(lia)) as [y Ey]. rewrite Ex, Ey in *. cbn in Hk. by rewrite Hk.
    + by rewrite !lookup_ge_None_2 by lia.
  - rewrite !lookup_ge_None_2; [done|unfold sub; rewrite length_take; lia..].
Qed.

(** C26. The entries of a directory that are put into an index block are in the block when
    it is written and read again: the block starts with its signature on the disk, and after
    the update sequence array is applied its index has these entries and no others, as bytes
    and as a listing. *)
Theorem ntfs_index_block vcn blockSize es : Forall entry_ok es -> 512 <= blockSize <= 119808 -> indxEntriesStart blockSize + len (flattenEntries es) + 16 <= blockSize ->
  exists stamped back s, buildINDXBlock vcn (flattenEntries es) blockSize = Ret stamped /\ len stamped = blockSize /\ stamped.[0, 4] = INDX /\
    applyUSA stamped = Ret back /\ back.[0, 4] = INDX /\ block_sentinel s /\ index_shape (from back 0x18) es s /\
    (forall spare, collectRawIndexEntries (from back 0x18) spare = Ret es) /\ collectIndexEntries (from back 0x18) [] = Ret (omap decoded es).
Proof.
  intros Hes [Hbs Hmax] Hroom. unfold flattenEntries in *. pose proof (start_ok blockSize Hbs). pose proof (len_nonneg (concat es)). pose proof (Z.div_pos blockSize 512 ltac:(lia) ltac:(lia)). pose proof (Z.div_le_upper_bound blockSize 512 234 ltac:(lia) ltac:(lia)).
  destruct (block_layers_ok vcn blockSize es Hes Hbs Hmax Hroom) as (Hl & Hb & E0 & E4 & E6 & E18 & E1c & Er & E8 & E12). rewrite (buildINDXBlock_ok vcn blockSize es Hes Hbs Hmax Hroom).
  set (B := block_layers vcn blockSize es) in *. set (st := indxEntriesStart blockSize) in *. set (n := len (concat es)) in *. pose proof (Z.mul_div_le blockSize 512 ltac:(lia)).
  destruct (stamp_then_read B 0x28 (blockSize / 512 + 1) Hb) as (stamped & back & seq & Hst & Hap & _ & _ & Hls & Hks & Hlb & Hkb).
  { unfold usa_ok. rewrite E4, E6, !LE_put_le. change (256 ^ Z.of_nat 2) with (2 ^ 16). rewrite !Z.mod_small by lia. repeat split; lia. }
  assert (forall lo hi, 0 <= lo -> hi <= 0x28 \/ 0x28 + (blockSize / 512 + 1) * 2 <= lo -> back.[lo, hi] = B.[lo, hi]) as Hbk.
  { intros lo hi Hlo Hu. apply sub_same_bytes; [done|done|]. intros k Hk. apply Hkb; [lia|unfold in_usa; lia]. }
  rewrite Hl in *. set (s := B.[st + n, st + n + 16]). assert (block_sentinel s) as Hs.
  { unfold s. split; [rewrite len_sub by lia; lia|]. rewrite !sub_of_sub by lia. replace (st + n + 8 + (10 - 8)) with (st + n + 10) by lia. by rewrite E8, E12. }
  assert (index_shape (from back 0x18) es s) as Hx.
  { assert (forall lo hi, 0 <= lo <= hi -> (from back 0x18).[lo, hi] = back.[0x18 + lo, 0x18 + hi]) as Hf by (intros; unfold sub, from; rewrite drop_drop; f_equal; [f_equal|]; [lia|f_equal; lia]).
    assert (len (from back 0x18) = blockSize - 0x18) as Hlf by (rewrite len_from; lia).
    unfold index_shape. rewrite Hlf, !Hf, !Hbk by lia. change (24 + 0) with 0x18. change (0x18 + 4) with 0x1C. change (0x18 + 8) with 0x20. rewrite E18, E1c, !LE_put_le. change (256 ^ Z.of_nat 4) with (2 ^ 32). rewrite !Z.mod_small by lia.
    split; [lia|]. split; [lia|]. split; [lia|]. split; [|split; [done|by apply block_sentinel_ok]]. rewrite Hf, Hbk by lia. replace (24 + (st - 24)) with st by lia. replace (24 + (st - 24 + n + 16)) with (st + n + 16) by lia.
    rewrite <-(sub_cat B st (st + n) (st + n + 16)) by lia. by rewrite Er. }
  exists stamped, back, s. split; [done|]. split; [done|]. split.
  { rewrite <-E0. apply sub_same_bytes; [lia|lia|]. intros k Hk. apply Hks; [lia|unfold in_usa; lia|]. intros (j & ? & ?). lia. }
  split; [done|]. split; [by rewrite Hbk by lia|]. split; [done|]. split; [done|]. split; [intros spare; by apply (collectRaw_ok _ spare _ s)|exact (collectIndexEntries_ok _ _ s [] Hx)].
Qed.

Definition sample_entry (c : Z) : list Z := entry_layers zero_time [c] 5 0x20 (40 + c).
Lemma sample_entry_ok c : 65 <= c < 90 -> entry_ok (sample_entry c).
Proof.
  intros Hc. assert (encode_utf16 c = [c]) as E by (unfold encode_utf16; by rewrite within_true by lia). assert (encode_rune c = [c]) as E' by (apply encode_ascii; unfold is_ascii; lia).
  destruct (built_entry zero_time [c] 5 0x20 (40 + c)) as (H & _ & _); [..|exact H].
  - repeat constructor; lia.
  - unfold Encode. cbn [mbind list_bind]. rewrite E. by change (1 <= 255).
  - lia.
  - lia.
  - unfold string_of_runes. cbn [mbind list_bind]. rewrite E'. cbn. unfold dot. intros [=]. lia.
  - unfold string_of_runes. cbn [mbind list_bind]. rewrite E'. cbn. unfold dotdot. intros [=].
Qed.

Lemma ntfs_index_block_witness : exists stamped back s, buildINDXBlock 3 (flattenEntries [sample_entry 65; sample_entry 66]) 512 = Ret stamped /\ stamped.[0, 4] = INDX /\ applyUSA stamped = Ret back /\ block_sentinel s /\
  collectIndexEntries (from back 0x18) [] = Ret [new_dirent zero_time [65] 105 0x20; new_dirent zero_time [66] 106 0x20].
Proof.
  destruct (ntfs_index_block 3 512 [sample_entry 65; sample_entry 66]) as (stamped & back & s & Hb & _ & Hi & Ha & _ & Hs & _ & _ & Hc).
  - do 2 (constructor; [apply sample_entry_ok; lia|]). constructor.
  - lia.
  - vm_compute. congruence.
  - exists stamped, back, s. split; [exact Hb|]. split; [exact Hi|]. split; [exact Ha|]. split; [exact Hs|]. rewrite Hc. vm_compute. reflexivity.
Defined.

(** Adding an entry to a block either puts it behind the entries of the block, whose
    length and signature stay, or finds no room and leaves the block alone; it finds no room
    exactly when the entry is longer than what is left of the block. *)
Theorem ntfs_index_block_add block es s e : block.[0, 4] = INDX -> 0x28 <= len block -> LE block.[0x20, 0x24] = len block - 0x18 -> index_shape (from block 0x18) es s -> block_sentinel s -> entry_ok e ->
  let room := len block - 0x18 - LE block.[0x1C, 0x20] in
  exists block', addEntryToINDXBlock block e = Ret (block', len e <=? room) /\ len block' = len block /\ block'.[0, 4] = INDX /\
    (if len e <=? room then index_shape (from block' 0x18) (es ++ [e]) s else block' = block).
Proof.
  intros Hsig Hl Halloc Hx Hs He room. pose proof Hx as (Hlh & Ho & Hi & Hd & Hes & _). pose proof He as (_ & Hle & _). set (h := from block 0x18) in *.
  assert (len block.[0, 0x18] = 0x18) as Hlp by (rewrite len_sub by lia; lia). assert (block.[0, 0x18] ++ h = block) as Hb by (apply sub_app_from; lia). assert (len h = len block - 0x18) as Hlen by (unfold h; rewrite len_from; lia).
  assert (forall lo hi, 0 <= lo <= hi -> block.[0x18 + lo, 0x18 + hi] = h.[lo, hi]) as Hf by (intros lo hi Hlo; pose proof (sub_app_r block.[0, 0x18] h lo hi Hlo) as Hr; by rewrite Hlp, Hb in Hr).
  pose proof (Hf 0 4 ltac:(lia)) as F0. pose proof (Hf 4 8 ltac:(lia)) as F4. change (0x18 + 0) with 0x18 in F0. change (0x18 + 4) with 0x1C in F0, F4. change (0x18 + 8) with 0x20 in F4. set (eo := LE h.[0, 4]) in *. set (il := LE h.[4, 8]) in *. destruct Hs as (Hls & Hs8 & Hs12).
  destruct (sub_split h eo il (concat es) s ltac:(lia) Hi Hd) as (Hsum & E1 & E2). pose proof (len_nonneg (concat es)). set (so := eo + len (concat es)) in *.
  unfold room. rewrite F4. fold il.
  unfold addEntryToINDXBlock. rewrite (proj2 (Z.ltb_ge _ _)), slice_ok, Hsig by lia. cbn [mbind go_bind]. rewrite bool_decide_false by (intros Hn; by apply Hn). rewrite !u32_ok by lia. cbn [mbind go_bind].
  change (0x18 + 4) with 0x1C. change (0x1C + 4) with 0x20. change (0x20 + 4) with 0x24. change (0x18 + 8) with 0x20. rewrite F0, F4, Halloc. fold eo il.
  destruct (Z.ltb_spec (len block - 24 - il) (len e)), (Z.leb_spec (len e) (len block - 24 - il)); try lia; [by exists block|]. cbv zeta.
  rewrite (proj2 (Z.ltb_ge _ _)), slice_ok by lia. cbn [mbind go_bind]. replace (24 + eo + (il - eo)) with (24 + il) by lia. rewrite Hf, Hd by lia. rewrite find_sentinel_ok by (done || (split; [lia|by rewrite Hs12])). cbn [mbind go_bind].
  rewrite (proj2 (Z.ltb_ge (len (concat es)) 0)), (proj2 (Z.ltb_ge (len block) _)), slice_ok by lia. cbn [mbind go_bind]. replace (24 + eo + len (concat es)) with (24 + so) by (unfold so; lia). replace (24 + so + 16) with (24 + il) by (unfold so; lia). rewrite Hf, E2 by (unfold so; lia).
  rewrite <-Hb. set (p := block.[0, 24]) in *. replace (24 + so + len e) with (24 + (so + len e)) by lia. rewrite (copy_r p h 24 (eq_sym Hlp)) by (unfold so; lia). cbn [mbind go_bind].
  set (h1 := patch h (so + len e) s). assert (len h1 = len h) as Hl1 by (unfold h1; rewrite patch_len by (unfold so; lia); done). rewrite (copy_r p h1 24 (eq_sym Hlp)) by (unfold so; lia). cbn [mbind go_bind].
  set (h2 := patch h1 so e). assert (len h2 = len h) as Hl2 by (unfold h2; rewrite patch_len by (unfold so; lia); done). unfold put_u32. change 28 with (24 + 4). rewrite (put_r p h2 24 (eq_sym Hlp)) by (rewrite ?len_put_le; lia). cbn [mbind go_bind mret go_ret].
  set (h3 := patch h2 4 (put_le 4 (il + len e))). assert (len h3 = len h) as Hl3 by (unfold h3; rewrite patch_len by (rewrite ?len_put_le; lia); done).
  exists (p ++ h3). split; [done|]. split; [rewrite !len_app; lia|]. split; [rewrite sub_app_within by lia; rewrite <-Hsig; unfold p; by rewrite sub_of_sub by lia|].
  rewrite <-Hlp, from_app_r by done. assert (h3.[0, 4] = h.[0, 4]) as G0 by (unfold h3; rewrite sub_patch_other by (rewrite ?len_put_le; unfold so; lia); unfold h2; rewrite sub_patch_other by (rewrite ?len_put_le; unfold so; lia); unfold h1; by rewrite sub_patch_other by (rewrite ?len_put_le; unfold so; lia)).
  assert (h3.[4, 8] = put_le 4 (il + len e)) as G4 by (unfold h3; by rewrite sub_patch_at by (rewrite ?len_put_le; lia)).
  unfold index_shape. rewrite G0, G4, Hl3, LE_put_le. change (256 ^ Z.of_nat 4) with (2 ^ 32). rewrite Z.mod_small by lia. fold eo. split; [lia|]. split; [lia|]. split; [lia|]. split.
  - rewrite <-(sub_cat h3 eo so (il + len e)), <-(sub_cat h3 so (so + len e) (il + len e)) by (unfold so; lia).
    assert (h3.[eo, so] = concat es) as -> by (unfold h3; rewrite sub_patch_other by (rewrite ?len_put_le; unfold so; lia); unfold h2; rewrite sub_patch_other by (rewrite ?len_put_le; unfold so; lia); unfold h1; by rewrite sub_patch_other by (rewrite ?len_put_le; unfold so; lia)).
    assert (h3.[so, so + len e] = e) as -> by (unfold h3; rewrite sub_patch_other by (rewrite ?len_put_le; unfold so; lia); unfold h2; by rewrite sub_patch_at by (unfold so; lia)).
    assert (h3.[so + len e, il + len e] = s) as -> by (unfold h3; rewrite sub_patch_other by (rewrite ?len_put_le; unfold so; lia); unfold h2; rewrite sub_patch_other by (rewrite ?len_put_le; unfold so; lia); unfold h1; by rewrite sub_patch_at by (unfold so; lia)).
    rewrite concat_app. cbn [concat]. rewrite app_nil_r. by rewrite <-(assoc app).
  - split; [apply Forall_app_2; [done|by apply Forall_singleton]|]. split; [lia|by rewrite Hs12].
Qed.

Definition sample_block : list Z := block_layers 0 512 [sample_entry 65].
Lemma sample_block_shape : index_shape (from sample_block 0x18) [sample_entry 65] (replicate 8 0 ++ put_le 2 16 ++ replicate 2 0 ++ put_le 4 idxFlagLastEntry).
Proof.
  split; [vm_compute; split; congruence|]. split; [vm_compute; split; congruence|]. split; [vm_compute; congruence|]. split; [by vm_compute|]. split; [|split; [vm_compute; congruence|by vm_compute]].
  constructor; [apply sample_entry_ok; lia|constructor].
Qed.

Lemma ntfs_index_block_add_witness : exists block', addEntryToINDXBlock sample_block (sample_entry 66) = Ret (block', true) /\ len block' = 512 /\
  exists s, index_shape (from block' 0x18) [sample_entry 65; sample_entry 66] s.
Proof.
  destruct (ntfs_index_block_add sample_block [sample_entry 65] (replicate 8 0 ++ put_le 2 16 ++ replicate 2 0 ++ put_le 4 idxFlagLastEntry) (sample_entry 66)) as (block' & Ha & Hl & _ & Hx).
  - by vm_compute.
  - vm_compute. congruence.
  - by vm_compute.
  - apply sample_block_shape.
  - by vm_compute.
  - apply sample_entry_ok; lia.
  - assert ((len (sample_entry 66) <=? len sample_block - 24 - LE sample_block.[28, 32]) = true) as E by (by vm_compute). rewrite E in Ha, Hx. exists block'. split; [exact Ha|]. split; [rewrite Hl; by vm_compute|]. eexists. exact Hx.
Defined.
