(* ===== verification/NtfsDir.v ===== *)
(** * NtfsDir: directories and paths of NTFS volumes (ntfs/read.go, ntfs/meta.go)
    Listing a directory from its record and its index blocks, resolving paths and symbolic
    links, and the calls of a volume that take a path. *)
From S2P Require Import Prelude Bytes ReaderAt Text Utf16 LvmScan NtfsRuns Ntfs NtfsFile NtfsAttr NtfsIndex NtfsBlock.

(** A call on a volume: the volume it leaves, and its result or its error. *)
Definition vol (A : Type) : Type := ntfsVolume -> go (ntfsVolume * (A + error)).

#[global] Instance vol_ret : MRet vol := fun A a v => Ret (v, inl a).
#[global] Instance vol_bind : MBind vol := fun A B k m v =>
  match m v with
  | Ret (v, inl a) => k a v
  | Ret (v, inr e) => Ret (v, inr e)
  | Err e => Err e
  | Panic p => Panic p
  | OutOfFuel => OutOfFuel
  end.
(** A call that reads the volume and leaves it. *)
Definition reading {A} (m : ntfsVolume -> go A) : vol A := fun v => r ← catch (m v); Ret (v, r).
Definition failing {A} (e : error) : vol A := fun v => Ret (v, inr e).
Definition attempt {A} (m : vol A) : vol (A + error) := fun v => '(v, r) ← m v; Ret (v, inl r).
Definition wrapped {A} (w : error -> error) (m : vol A) : vol A := fun v => '(v, r) ← m v; Ret (v, match r with inl a => inl a | inr e => inr (w e) end).

Definition ErrNotExist : error := Errorf "file does not exist".

(** ** Targets of links *)

Definition backslash_to_slash (s : gostring) : gostring := (fun c => if c =? 92 then 47 else c) <$> s.

Definition parseReparseTarget (val : list Z) : go gostring :=
  if len val <? 12 then Err (Errorf "reparse point value too short") else
  tag ← u32_from val 0;
  if negb (tag =? reparseSymlink) && negb (tag =? reparseJunction) then Err (Errorf "not a symlink or junction (tag 0x%08X)") else
  data ← slice val 8 (len val);
  if len data <? 12 then Err (Errorf "reparse data too short") else
  subsOff ← u16_from data 0;
  subsLen ← u16_from data 2;
  printOff ← u16_from data 4;
  printLen ← u16_from data 6;
  buf ← slice data 12 (len data);
  raw ← (if printOff + printLen <=? len buf then slice buf printOff (printOff + printLen)
         else if subsOff + subsLen <=? len buf then slice buf subsOff (subsOff + subsLen)
         else Err (Errorf "reparse path offsets out of bounds"));
  target ← utf16_string raw 0 (Z.quot (len raw) 2);
  mret (TrimPrefix (backslash_to_slash target) (lit "/??/")).

Section names.
Context `{UnicodeTables} (f : reader).

(** ** Listing a directory *)

(** The clusters of a run from the [c]th, [k] of them. *)
Fixpoint walk_run (v : ntfsVolume) (totalBytes : Z) (r : run) (k : nat) (c : Z) (blockBuf : list Z) (blockOff : Z) (out : list ntfsDirEntry) : go (list Z * Z * list ntfsDirEntry) :=
  match k with
  | O => mret (blockBuf, blockOff, out)
  | S k' =>
      if totalBytes <=? blockOff then mret (blockBuf, blockOff, out) else
      let off := i64 (i64 (lcn r + c) * clusterSize v) in
      res ← partRead f v blockBuf off;
      let next := i64 (blockOff + idxBlockSize v) in
      if bool_decide (r_err res <> None) || (r_n res <? idxBlockSize v) then walk_run v totalBytes r k' (c + 1) (r_buf res) next out else
      sig ← slice (r_buf res) 0 4;
      if bool_decide (sig <> INDX) then walk_run v totalBytes r k' (c + 1) (r_buf res) next out else
      block ← applyUSA (r_buf res);
      hdr ← slice block 0x18 (len block);
      out ← collectIndexEntries hdr out;
      walk_run v totalBytes r k' (c + 1) (r_buf res) next out
  end.

Fixpoint walk_runs (v : ntfsVolume) (totalBytes : Z) (runs : list run) (blockBuf : list Z) (blockOff : Z) (out : list ntfsDirEntry) : go (list ntfsDirEntry) :=
  match runs with
  | [] => mret out
  | r :: runs' =>
      '(blockBuf, blockOff, out) ← walk_run v totalBytes r (Z.to_nat (run_length r)) 0 blockBuf blockOff out;
      walk_runs v totalBytes runs' blockBuf blockOff out
  end.
Definition walkIndexAlloc (v : ntfsVolume) (runs : list run) (totalBytes : Z) (out : list ntfsDirEntry) : go (list ntfsDirEntry) :=
  blockBuf ← make 0 1 (idxBlockSize v);
  walk_runs v totalBytes runs blockBuf 0 out.

(** The attribute of that type named "$I30", or else without a name. *)
Definition find_index (rec : list Z) (t : Z) : go (option (list Z)) :=
  a ← findAttr rec t I30;
  match a with Some a => mret (Some a) | None => findAttr rec t [] end.

Definition readDirEntries (v : ntfsVolume) (dirRec : list Z) : go (list ntfsDirEntry) :=
  idxRoot ← find_index dirRec attrINDEX_ROOT;
  match idxRoot with
  | None => Err (Errorf "directory has no $INDEX_ROOT")
  | Some idxRoot =>
      valLen ← u32_from idxRoot 0x10;
      valOff ← u16_from idxRoot 0x14;
      if len idxRoot <? valOff + valLen then Err (Errorf "$INDEX_ROOT value out of bounds") else
      val ← slice idxRoot valOff (valOff + valLen);
      if len val <? 32 then Err (Errorf "$INDEX_ROOT value too short") else
      hdr ← slice val 16 (len val);
      entries ← collectIndexEntries hdr [];
      idxAlloc ← find_index dirRec attrINDEX_ALLOCATION;
      match idxAlloc with
      | None => mret entries
      | Some idxAlloc =>
          rlOff ← u16_from idxAlloc 0x20;
          if rlOff <? len idxAlloc then
            rl ← slice idxAlloc rlOff (len idxAlloc);
            r ← catch (decodeRunlist rl);
            match r with
            | inl runs => totalBytes ← u64_from idxAlloc 0x30; walkIndexAlloc v runs (i64 totalBytes) entries
            | inr _ => mret entries
            end
          else mret entries
      end
  end.

(** ** Looking up paths *)

Definition first_named (name : gostring) (entries : list ntfsDirEntry) : option Z :=
  mftNum <$> List.find (fun de => bool_decide (to_lower (i_name (de_info de)) = to_lower name)) entries.

Definition lookupInDir (dirRec : list Z) (name : gostring) : vol Z :=
  entries ← reading (fun v => readDirEntries v dirRec);
  match first_named name entries with
  | Some n => mret n
  | None => failing (Wrapf "%w" ErrNotExist)
  end.

Definition record (n : Z) : vol (list Z) := fun v =>
  r ← catch (getRecord f v n);
  Ret (match r with inl (v, rec) => (v, inl rec) | inr e => (v, inr e) end).

(** The loop over the elements of a path from the directory [dirNum]. *)
Fixpoint lookup_parts (dirNum : Z) (parts : list gostring) : vol (Z * list Z) :=
  match parts with
  | [] => failing (Errorf "lookupPath: internal error")
  | part :: parts' =>
      dirRec ← record dirNum;
      childNum ← wrapped (Wrapf "%s: %w") (lookupInDir dirRec part);
      match parts' with
      | [] => rec ← record childNum; mret (childNum, rec)
      | _ => lookup_parts childNum parts'
      end
  end.

Definition lookupPath (p : gostring) : vol (Z * list Z) :=
  let p := clean (slash :: TrimPrefix p [slash]) in
  if bool_decide (p = [slash]) then rec ← record recRoot; mret (recRoot, rec)
  else lookup_parts recRoot (split_on slash (TrimPrefix p [slash])).

(** ** Calls that take a path *)

Definition ReadFile (name : gostring) : vol (list Z) :=
  '(_, rec) ← wrapped (Wrapf "readfile %s: %w") (lookupPath name);
  flags ← reading (fun _ => u16_from rec 0x16);
  if has flags mftFlagDir then failing (Wrapf "readfile %s: %w" (Errorf "is a directory")) else
  dataAttr ← reading (fun _ => findAttr rec attrDATA []);
  match dataAttr with
  | None => mret []
  | Some a => reading (fun v => attrValue f v a)
  end.

Definition Open (name : gostring) : vol ntfsFile :=
  '(num, rec) ← wrapped (Wrapf "open %s: %w") (lookupPath name);
  reading (fun v => openRecord f v num rec name false).

Definition ReadDir (name : gostring) : vol (list ntfsDirEntry) :=
  '(_, rec) ← wrapped (Wrapf "readdir %s: %w") (lookupPath name);
  flags ← reading (fun _ => u16_from rec 0x16);
  if negb (has flags mftFlagDir) then failing (Wrapf "readdir %s: %w" (Errorf "not a directory")) else
  _ ← attempt (lookupPath name);
  reading (fun v => readDirEntries v rec).

(** [ReadDir] of an open directory. *)
Definition file_ReadDir (nf : ntfsFile) (n : Z) : vol (list ntfsDirEntry) :=
  if negb (f_isDir nf) then failing (Errorf "readdir: not a directory") else
  rec ← record (f_mftNum nf);
  entries ← reading (fun v => readDirEntries v rec);
  mret (if (0 <? n) && (n <? len entries) then take (Z.to_nat n) entries else entries).

Definition Lstat (name : gostring) : vol ntfsFileInfo :=
  '(_, rec) ← wrapped (Wrapf "lstat %s: %w") (lookupPath name);
  reading (fun v => recordInfo f v rec (Base name)).

Definition Readlink (name : gostring) : vol gostring :=
  '(_, rec) ← wrapped (Wrapf "readlink %s: %w") (lookupPath name);
  rp ← reading (fun _ => findAttr rec attrREPARSE_POINT []);
  match rp with
  | None => failing (Wrapf "readlink %s: %w" (Errorf "not a symlink"))
  | Some rp => reading (fun v => val ← attrValue f v rp; parseReparseTarget val)
  end.

(** [path.IsAbs] and [path.Join] of two elements, the first of which is not empty. *)
Definition IsAbs (p : gostring) : bool := match p with c :: _ => c =? slash | [] => false end.
Definition Join (a b : gostring) : gostring := clean (match b with [] => a | _ => a ++ slash :: b end).

(** The target of the link at [p], or [None] where the call ends with [p] itself. *)
Definition link_target (rec : list Z) : vol (option gostring) :=
  rp ← reading (fun _ => findAttr rec attrREPARSE_POINT []);
  match rp with
  | None => mret None
  | Some rp =>
      val ← attempt (reading (fun v => attrValue f v rp));
      match val with
      | inr _ => mret None
      | inl val =>
          tag ← reading (fun _ => u32_from val 0);
          if negb (tag =? reparseSymlink) && negb (tag =? reparseJunction) then mret None else
          target ← attempt (reading (fun _ => parseReparseTarget val));
          mret (match target with inl t => Some t | inr _ => None end)
      end
  end.

Definition maxDepth : Z := 40.
(** [left] is one more than the links that may still be followed. *)
Fixpoint resolve (left : nat) (p : gostring) : vol gostring :=
  match left with
  | O => failing (Errorf "too many levels of symbolic links")
  | S left' =>
      '(_, rec) ← lookupPath p;
      target ← link_target rec;
      match target with
      | None => mret p
      | Some target => resolve left' (if IsAbs target then target else Join (Dir p) target)
      end
  end.
Definition resolveSymlinks (p : gostring) (depth : Z) : vol gostring := resolve (Z.to_nat (maxDepth + 1 - depth)) p.

Definition Stat (name : gostring) : vol ntfsFileInfo :=
  name ← wrapped (Wrapf "stat %s: %w") (resolveSymlinks name 0);
  '(_, rec) ← wrapped (Wrapf "stat %s: %w") (lookupPath name);
  reading (fun v => recordInfo f v rec (Base name)).
End names.

(** ** Space *)

Record VolumeInfo := mkVolumeInfo { TotalBytes : Z; FreeBytes : Z; UsedBytes : Z; BlockSize : Z }.

Definition bits_set (b : Z) : Z := len (filter (fun k => Z.land b (Z.shiftl 1 k) <> 0) (seqZ 0 8)).
Definition StatFS (v : ntfsVolume) : VolumeInfo :=
  let usedClusters := foldl (fun n b => i64 (n + bits_set b)) 0 (bitmap v) in
  let total := i64 (totalClusters v * clusterSize v) in
  let used := i64 (usedClusters * clusterSize v) in
  mkVolumeInfo total (i64 (total - used)) used (clusterSize v).

(** ** Elements of paths *)

(** What is left of a path from the root after [path.Clean]. *)
Definition elements (p : gostring) : list gostring := rev (foldl (clean_step true) [] (split_on slash p)).

Lemma split_cons c s : exists w ws, split_on c s = w :: ws.
Proof. induction s as [|x s (w & ws & E)]; cbn [split_on]; [by do 2 eexists|]. rewrite E. destruct (x =? c); by do 2 eexists. Qed.

Lemma split_free c s : Forall (fun w => c ∉ w) (split_on c s).
Proof.
  induction s as [|x s IH]; cbn [split_on]; [repeat constructor; apply not_elem_of_nil|]. destruct (split_cons c s) as (w & ws & E). rewrite E in *. apply Forall_cons in IH as [Hw Hws].
  destruct (Z.eqb_spec x c); constructor; auto; [apply not_elem_of_nil|]. rewrite elem_of_cons. intros [Hx|Hx]; auto.
Qed.

Lemma split_word c w rest : c ∉ w -> split_on c (w ++ rest) = match split_on c rest with [] => [[]] | u :: us => (w ++ u) :: us end.
Proof.
  induction w as [|x w IH]; cbn [app split_on]; intros Hw; [by destruct (split_cons c rest) as (? & ? & ->)|]. rewrite elem_of_cons in Hw. rewrite IH by tauto.
  destruct (split_cons c rest) as (u & us & ->). destruct (Z.eqb_spec x c); [|done]. subst. tauto.
Qed.

Lemma split_join c ws : ws <> [] -> Forall (fun w => c ∉ w) ws -> split_on c (join c ws) = ws.
Proof.
  intros Hne Hws. induction Hws as [|w ws Hw Hws IH]; [done|]. destruct ws as [|w' ws].
  - cbn [join]. rewrite <-(app_nil_r w) at 1. rewrite split_word by done. cbn. by rewrite app_nil_r.
  - change (join c (w :: w' :: ws)) with (w ++ c :: join c (w' :: ws)). rewrite split_word by done. cbn [split_on]. rewrite IH by done. rewrite Z.eqb_refl. by rewrite app_nil_r.
Qed.

Definition plain (w : gostring) : Prop := w <> [] /\ slash ∉ w.

Lemma step_plain stack w : Forall plain stack -> slash ∉ w -> Forall plain (clean_step true stack w).
Proof.
  intros Hs Hw. unfold clean_step. destruct (decide (w = [] \/ w = dot)); [done|]. destruct (decide (w = dotdot)).
  - destruct Hs as [|top below Ht Hs]; [constructor|]. destruct (decide (top = dotdot)); [|done]. repeat constructor; try done; try apply Ht. subst w. done.
  - constructor; [|done]. split; [naive_solver|done].
Qed.

Lemma elements_plain p : Forall plain (elements p).
Proof.
  unfold elements. apply Forall_rev. pose proof (split_free slash p) as Hf. assert (Forall plain []) as Hs by constructor. revert Hs. generalize (@nil gostring).
  induction Hf as [|w ws Hw Hws IH]; intros stack Hs; cbn [foldl]; [done|]. apply IH. by apply step_plain.
Qed.

Lemma elements_rooted p : elements (slash :: p) = elements p.
Proof. unfold elements. cbn [split_on]. destruct (split_cons slash p) as (w & ws & ->). done. Qed.

Lemma trimmed p : elements (TrimPrefix p [slash]) = elements p /\ TrimPrefix (slash :: p) [slash] = p.
Proof.
  split; [|done]. destruct p as [|x p]; [done|]. unfold TrimPrefix. cbn [cut_prefix]. destruct (Z.eqb_spec slash x) as [<-|]; cbn [default]; [|done]. symmetry. apply elements_rooted.
Qed.

Lemma clean_rooted p : clean (slash :: p) = slash :: join slash (elements p).
Proof. unfold clean. change (slash =? slash) with true. cbv iota zeta. f_equal. rewrite <-elements_rooted. done. Qed.

Lemma join_nil ws : Forall plain ws -> join slash ws = [] -> ws = [].
Proof. intros [|w us [Hw _] _]; [done|]. destruct us as [|w' us]; cbn [join]; [congruence|by destruct w]. Qed.

Lemma lookupPath_elements `{UnicodeTables} f p : lookupPath f p =
  match elements p with [] => rec ← record f recRoot; mret (recRoot, rec) | parts => lookup_parts f recRoot parts end.
Proof.
  unfold lookupPath. cbv zeta. rewrite clean_rooted, (proj1 (trimmed p)), (proj2 (trimmed _)). pose proof (elements_plain p) as Hp. destruct (elements p) as [|w ws] eqn:E; [done|].
  rewrite bool_decide_false by (intros Hj; assert (join slash (w :: ws) = []) as Hn by (by injection Hj); by apply join_nil in Hn). rewrite split_join; [done|done|]. eapply Forall_impl; [exact Hp|]. by intros x [_ ?].
Qed.

(** ** The cache of records *)

Section cache.
Context (f : reader).

(** Every record in the cache is the one on the device. *)
Definition cached_ok (v : ntfsVolume) : Prop := forall n rec, mftCache v !! n = Some rec -> readRawRecord f v n = Ret rec.
(** The same volume, with a cache that may hold more. *)
Definition later (v v' : ntfsVolume) : Prop := (exists c, mftCache v ⊆ c /\ v' = with_cache v c) /\ cached_ok v'.

Lemma later_refl v : cached_ok v -> later v v.
Proof. intros Hc. split; [|done]. exists (mftCache v). split; [done|by destruct v]. Qed.
Lemma later_trans v v' v'' : later v v' -> later v' v'' -> later v v''.
Proof. intros [(c & Hs & ->) _] [(c' & Hs' & ->) Hc]. split; [|done]. exists c'. split; [by trans c|done]. Qed.
Lemma later_keeps v v' n : later v v' -> is_Some (mftCache v !! n) -> is_Some (mftCache v' !! n).
Proof. intros [(c & Hs & ->) _] [rec Hn]. exists rec. by apply (lookup_weaken _ _ _ _ Hn). Qed.

Lemma read_runs_cache v c size runs : forall out w, read_runs f (with_cache v c) size runs out w = read_runs f v size runs out w.
Proof.
  induction runs as [|r runs IH]; intros out w; [done|]. cbn [read_runs]. destruct (_ <=? _); [done|]. cbv zeta. destruct (lcn r <? 0); [by rewrite IH|].
  change (partRead f (with_cache v c)) with (partRead f v). change (clusterSize (with_cache v c)) with (clusterSize v). destruct (read_range _ _ _ _ _) as [res| | |]; [|done..]. cbn [mbind go_bind]. destruct (r_err res); [done|]. by rewrite IH.
Qed.

Lemma attrValue_cache v c a : attrValue f (with_cache v c) a = attrValue f v a.
Proof.
  unfold attrValue. destruct (_ <? 16); [done|]. destruct (index a 8) as [x| | |]; [|done..]. cbn [mbind go_bind]. destruct (x =? 0); [done|]. destruct (_ <? 64); [done|].
  destruct (u64_from a 48) as [d| | |]; [|done..]. cbn [mbind go_bind]. cbv zeta. destruct (u16_from a 32) as [o| | |]; [|done..]. cbn [mbind go_bind]. destruct (_ <=? _); [done|].
  destruct (slice a o (len a)) as [rl| | |]; [|done..]. cbn [mbind go_bind]. destruct (decodeRunlist rl) as [runs| | |]; [|done..]. cbn [mbind go_bind]. unfold readRuns. destruct (make _ _ _) as [out| | |]; [|done..]. apply read_runs_cache.
Qed.

Lemma walk_run_cache v c total r k : forall i buf o out, walk_run f (with_cache v c) total r k i buf o out = walk_run f v total r k i buf o out.
Proof.
  induction k as [|k IH]; intros i buf o out; [done|]. cbn [walk_run]. destruct (total <=? o); [done|]. cbv zeta.
  change (partRead f (with_cache v c)) with (partRead f v). change (clusterSize (with_cache v c)) with (clusterSize v). change (idxBlockSize (with_cache v c)) with (idxBlockSize v).
  destruct (partRead f v buf _) as [res| | |]; [|done..]. cbn [mbind go_bind]. destruct (_ || _); [apply IH|]. destruct (slice _ 0 4) as [sig| | |]; [|done..]. cbn [mbind go_bind]. destruct (bool_decide _); [apply IH|].
  destruct (applyUSA _) as [block| | |]; [|done..]. cbn [mbind go_bind]. destruct (slice block _ _) as [hdr| | |]; [|done..]. cbn [mbind go_bind]. destruct (collectIndexEntries hdr out) as [out'| | |]; [|done..]. apply IH.
Qed.

Lemma walk_runs_cache v c total runs : forall buf o out, walk_runs f (with_cache v c) total runs buf o out = walk_runs f v total runs buf o out.
Proof.
  induction runs as [|r runs IH]; intros buf o out; [done|]. cbn [walk_runs]. rewrite walk_run_cache. destruct (walk_run _ _ _ _ _ _ _ _ _) as [[[buf' o'] out']| | |]; [|done..]. apply IH.
Qed.

Lemma readDirEntries_cache v c rec : readDirEntries f (with_cache v c) rec = readDirEntries f v rec.
Proof.
  unfold readDirEntries. destruct (find_index rec attrINDEX_ROOT) as [[a|]| | |]; [|done..]. cbn [mbind go_bind]. destruct (u32_from a 16) as [vl| | |]; [|done..]. cbn [mbind go_bind].
  destruct (u16_from a 20) as [vo| | |]; [|done..]. cbn [mbind go_bind]. destruct (_ <? _); [done|]. destruct (slice a _ _) as [val| | |]; [|done..]. cbn [mbind go_bind]. destruct (_ <? 32); [done|].
  destruct (slice val _ _) as [hdr| | |]; [|done..]. cbn [mbind go_bind]. destruct (collectIndexEntries hdr []) as [es| | |]; [|done..]. cbn [mbind go_bind]. destruct (find_index rec attrINDEX_ALLOCATION) as [[b|]| | |]; [|done..]. cbn [mbind go_bind].
  destruct (u16_from b 32) as [ro| | |]; [|done..]. cbn [mbind go_bind]. destruct (_ <? _); [|done]. destruct (slice b _ _) as [rl| | |]; [|done..]. cbn [mbind go_bind]. destruct (catch _) as [[runs|e]| | |]; [|done..]. cbn [mbind go_bind].
  destruct (u64_from b 48) as [t| | |]; [|done..]. cbn [mbind go_bind]. unfold walkIndexAlloc. change (idxBlockSize (with_cache v c)) with (idxBlockSize v). destruct (make _ _ _) as [buf| | |]; [|done..]. apply walk_runs_cache.
Qed.

Lemma record_ok v n rec : cached_ok v -> readRawRecord f v n = Ret rec ->
  exists v', record f n v = Ret (v', inl rec) /\ later v v' /\ is_Some (mftCache v' !! n).
Proof.
  intros Hc Hr. unfold record, getRecord. destruct (mftCache v !! n) as [rec'|] eqn:E.
  - specialize (Hc n rec' E) as Hr'. rewrite Hr in Hr'. injection Hr' as <-. exists v. split; [done|]. split; [by apply later_refl|by exists rec].
  - rewrite Hr. cbn. exists (with_cache v (<[n := rec]> (mftCache v))). split; [done|]. split; [|exists rec; apply lookup_insert_eq].
    split; [exists (<[n := rec]> (mftCache v)); split; [by apply insert_subseteq|done]|]. intros m rec'. cbn [mftCache with_cache]. rewrite lookup_insert. case_decide; [|apply Hc].
    intros [= <-]. by subst.
Qed.

Lemma raw_later v v' n : later v v' -> readRawRecord f v' n = readRawRecord f v n.
Proof. by intros [(c & _ & ->) _]. Qed.
End cache.

Lemma vol_ok {A B} (m : vol A) (k : A -> vol B) v v' a : m v = Ret (v', inl a) -> mbind (M := vol) k m v = k a v'.
Proof. intros E. unfold mbind, vol_bind. by rewrite E. Qed.
Lemma vol_fail {A B} (m : vol A) (k : A -> vol B) v v' e : m v = Ret (v', inr e) -> mbind (M := vol) k m v = Ret (v', inr e).
Proof. intros E. unfold mbind, vol_bind. by rewrite E. Qed.
Lemma volume_read_ok {A} (m : ntfsVolume -> go A) v a : m v = Ret a -> reading m v = Ret (v, inl a).
Proof. intros E. unfold reading. by rewrite E. Qed.

Section lookup.
Context `{UnicodeTables} (f : reader).

(** The listing of the directory in record [n]. *)
Definition lists (v : ntfsVolume) (n : Z) (es : list ntfsDirEntry) : Prop := exists rec, readRawRecord f v n = Ret rec /\ readDirEntries f v rec = Ret es.

(** From the directory [n] the names [parts] lead to the record [m]. *)
Fixpoint leads (v : ntfsVolume) (n : Z) (parts : list gostring) (m : Z) : Prop :=
  match parts with
  | [] => n = m
  | part :: parts' => exists es k, lists v n es /\ first_named part es = Some k /\ leads v k parts' m
  end.

Lemma lists_later v v' n es : later f v v' -> lists v n es -> lists v' n es.
Proof. intros Hl (rec & Hr & Hd). exists rec. rewrite (raw_later f v v') by done. split; [done|]. destruct Hl as [(c & _ & ->) _]. by rewrite readDirEntries_cache. Qed.

Lemma leads_later v v' parts : forall n m, later f v v' -> leads v n parts m -> leads v' n parts m.
Proof.
  induction parts as [|part parts IH]; intros n m Hl; cbn [leads]; [done|]. intros (es & k & Hd & Hk & Hm). exists es, k. split; [by apply (lists_later v)|]. split; [done|]. by apply IH.
Qed.

(** Every record that is read on the way along [parts] from the directory [n] is in the
    cache of [v']. *)
Definition kept (v v' : ntfsVolume) (n : Z) (parts : list gostring) : Prop :=
  forall ps qs k, parts = ps ++ qs -> leads v n ps k -> is_Some (mftCache v' !! k).

Lemma lists_same v n es es' : lists v n es -> lists v n es' -> es = es'.
Proof. intros (rec & Hr & Hd) (rec' & Hr' & Hd'). congruence. Qed.

Lemma kept_nil v v' n : is_Some (mftCache v' !! n) -> kept v v' n [].
Proof. intros Hn ps qs k E. symmetry in E. apply app_eq_nil in E as [-> _]. cbn. by intros <-. Qed.

Lemma kept_step v v1 v' n es part parts : later f v v1 -> lists v n es -> is_Some (mftCache v' !! n) ->
  (forall k, first_named part es = Some k -> kept v1 v' k parts) -> kept v v' n (part :: parts).
Proof.
  intros Hl Hd Hn Hk ps qs k E. destruct ps as [|p ps]; cbn [app leads] in *; [by intros <-|]. injection E as <- E. intros (es' & k' & Hd' & Hk' & Hm).
  rewrite <-(lists_same v n es es') in Hk' by done. apply (Hk k' Hk' ps qs k E). by apply (leads_later v).
Qed.

Lemma lookup_one v n es part : cached_ok f v -> lists v n es ->
  exists v', later f v v' /\ is_Some (mftCache v' !! n) /\ (dirRec ← record f n; wrapped (Wrapf "%s: %w") (lookupInDir f dirRec part)) v =
    Ret (v', match first_named part es with Some k => inl k | None => inr (Wrapf "%s: %w" (Wrapf "%w" ErrNotExist)) end).
Proof.
  intros Hc (rec & Hr & Hd). destruct (record_ok f v n rec Hc Hr) as (v' & E & Hl & Hn). exists v'. split; [done|]. split; [done|]. rewrite (vol_ok _ _ v v' rec E).
  unfold wrapped, lookupInDir. rewrite (vol_ok _ _ v' v' es) by (apply volume_read_ok; destruct Hl as [(c & _ & ->) _]; by rewrite readDirEntries_cache). by destruct (first_named part es).
Qed.

Lemma lookup_parts_step part p parts n v : lookup_parts f n (part :: p :: parts) v =
  mbind (M := vol) (fun k => lookup_parts f k (p :: parts)) (dirRec ← record f n; wrapped (Wrapf "%s: %w") (lookupInDir f dirRec part)) v.
Proof. cbn [lookup_parts]. unfold mbind, vol_bind. by destruct (record f n v) as [[v' [rec|e]]| | |]. Qed.
Lemma lookup_parts_last part n v : lookup_parts f n [part] v =
  mbind (M := vol) (fun k => rec ← record f k; mret (k, rec)) (dirRec ← record f n; wrapped (Wrapf "%s: %w") (lookupInDir f dirRec part)) v.
Proof. cbn [lookup_parts]. unfold mbind, vol_bind. by destruct (record f n v) as [[v' [rec|e]]| | |]. Qed.

Lemma lookup_parts_ok parts : forall n m rec v, parts <> [] -> cached_ok f v -> leads v n parts m -> readRawRecord f v m = Ret rec ->
  exists v', lookup_parts f n parts v = Ret (v', inl (m, rec)) /\ later f v v' /\ kept v v' n parts.
Proof.
  induction parts as [|part parts IH]; intros n m rec v Hne Hc Hlead Hr; [done|]. destruct Hlead as (es & k & Hd & Hk & Hm). destruct (lookup_one v n es part Hc Hd) as (v1 & Hl1 & Hn & E1). rewrite Hk in E1.
  pose proof Hl1 as [_ Hc1]. destruct parts as [|p parts].
  - cbn in Hm. subst k. rewrite lookup_parts_last, (vol_ok _ _ v v1 m E1). destruct (record_ok f v1 m rec Hc1) as (v2 & E2 & Hl2 & Hm2); [by rewrite (raw_later f v v1)|].
    rewrite (vol_ok _ _ v1 v2 rec E2). exists v2. split; [done|]. split; [by apply (later_trans f v v1)|]. apply (kept_step v v1 v2 n es); [done|done|by apply (later_keeps f v1)|].
    intros k' Hk'. assert (k' = m) as -> by congruence. by apply kept_nil.
  - rewrite lookup_parts_step, (vol_ok _ _ v v1 k E1). destruct (IH k m rec v1) as (v2 & E2 & Hl2 & Hkp); [done|done|by apply (leads_later v)|by rewrite (raw_later f v v1)|].
    rewrite E2. exists v2. split; [done|]. split; [by apply (later_trans f v v1)|]. apply (kept_step v v1 v2 n es); [done|done|by apply (later_keeps f v1)|].
    intros k' Hk'. by assert (k' = k) as -> by congruence.
Qed.

Lemma lookup_parts_missing parts : forall n k es x rest v, cached_ok f v -> leads v n parts k -> lists v k es -> first_named x es = None ->
  exists v', lookup_parts f n (parts ++ x :: rest) v = Ret (v', inr (Wrapf "%s: %w" (Wrapf "%w" ErrNotExist))) /\ later f v v' /\ kept v v' n (parts ++ x :: rest).
Proof.
  induction parts as [|part parts IH]; intros n k es x rest v Hc Hlead Hd Hx; cbn [app].
  - cbn in Hlead. subst k. destruct (lookup_one v n es x Hc Hd) as (v1 & Hl1 & Hn & E1). rewrite Hx in E1. exists v1.
    split; [destruct rest as [|p rest]; [rewrite lookup_parts_last|rewrite lookup_parts_step]; by rewrite (vol_fail _ _ v v1 _ E1)|]. split; [done|]. apply (kept_step v v1 v1 n es); try done. congruence.
  - destruct Hlead as (es1 & k1 & Hd1 & Hk1 & Hm). destruct (lookup_one v n es1 part Hc Hd1) as (v1 & Hl1 & Hn & E1). rewrite Hk1 in E1. pose proof Hl1 as [_ Hc1].
    destruct (IH k1 k es x rest v1) as (v2 & E2 & Hl2 & Hkp); [done|by apply (leads_later v)|by apply (lists_later v)|done|]. exists v2. split; [destruct parts as [|p parts]; cbn [app] in *; rewrite lookup_parts_step, (vol_ok _ _ v v1 k1 E1); done|].
    split; [by apply (later_trans f v v1)|]. apply (kept_step v v1 v2 n es1); [done|done|by apply (later_keeps f v1)|]. intros k' Hk'. by assert (k' = k1) as -> by congruence.
Qed.

(** The names [parts] lead to a directory that does not list the next one. *)
Definition not_listed (v : ntfsVolume) (p : gostring) : Prop :=
  exists parts x rest k es, elements p = parts ++ x :: rest /\ leads v recRoot parts k /\ lists v k es /\ first_named x es = None.
End lookup.

Section links.
Context `{UnicodeTables} (f : reader).

(** The record a path leads to. *)
Definition path_found (v : ntfsVolume) (p : gostring) (m : Z) (rec : list Z) : Prop := leads f v recRoot (elements p) m /\ readRawRecord f v m = Ret rec.

Lemma path_found_ok v p m rec : cached_ok f v -> path_found v p m rec ->
  exists v', lookupPath f p v = Ret (v', inl (m, rec)) /\ later f v v' /\ kept f v v' recRoot (elements p).
Proof.
  intros Hc [Hl Hr]. rewrite lookupPath_elements. destruct (elements p) as [|w ws]; [|by apply lookup_parts_ok].
  cbn in Hl. subst m. destruct (record_ok f v recRoot rec Hc Hr) as (v' & E & Hl' & Hn). rewrite (vol_ok _ _ v v' rec E). exists v'. split; [done|]. split; [done|by apply kept_nil].
Qed.

Lemma not_listed_ok v p : cached_ok f v -> not_listed f v p ->
  exists v', lookupPath f p v = Ret (v', inr (Wrapf "%s: %w" (Wrapf "%w" ErrNotExist))) /\ later f v v' /\ kept f v v' recRoot (elements p).
Proof.
  intros Hc (parts & x & rest & k & es & E & Hl & Hd & Hx). rewrite lookupPath_elements, E. destruct (lookup_parts_missing f parts recRoot k es x rest v Hc Hl Hd Hx) as (v' & E' & Hl' & Hk). exists v'. by destruct parts.
Qed.

Lemma not_listed_later v v' p : later f v v' -> not_listed f v p -> not_listed f v' p.
Proof.
  intros Hl (parts & x & rest & k & es & E & Hp & Hd & Hx). exists parts, x, rest, k, es. split; [done|]. split; [by apply (leads_later f v)|]. split; [by apply (lists_later f v)|done].
Qed.

Lemma path_found_later v v' p m rec : later f v v' -> path_found v p m rec -> path_found v' p m rec.
Proof. intros Hl [Hm Hr]. split; [by apply (leads_later f v)|by rewrite (raw_later f v v')]. Qed.

Lemma link_target_cache v c rec r : link_target f rec v = Ret (v, r) -> link_target f rec (with_cache v c) = Ret (with_cache v c, r).
Proof.
  unfold link_target, mbind, vol_bind, attempt, reading. destruct (findAttr rec attrREPARSE_POINT []) as [[a|]| | |]; cbn; try (by intros [= <-]). rewrite attrValue_cache.
  destruct (attrValue f v a) as [val|e| |]; cbn; try (by intros [= <-]). destruct (u32_from val 0) as [t| | |]; cbn; try (by intros [= <-]). destruct (_ && _); cbn; [by intros [= <-]|].
  destruct (parseReparseTarget val) as [t'| | |]; cbn; by intros [= <-].
Qed.

(** One link, and [k] of them. *)
Definition link (v : ntfsVolume) (p q : gostring) : Prop :=
  exists m rec t, path_found v p m rec /\ link_target f rec v = Ret (v, inl (Some t)) /\ q = (if IsAbs t then t else Join (Dir p) t).
Fixpoint follows (v : ntfsVolume) (k : nat) (p q : gostring) : Prop :=
  match k with O => p = q | S k' => exists p', link v p p' /\ follows v k' p' q end.

Lemma link_later v v' p q : later f v v' -> link v p q -> link v' p q.
Proof. intros Hl (m & rec & t & Hf & Ht & ->). exists m, rec, t. split; [by apply (path_found_later v)|]. split; [|done]. destruct Hl as [(c & _ & ->) _]. by apply link_target_cache. Qed.
Lemma follows_later v v' k : forall p q, later f v v' -> follows v k p q -> follows v' k p q.
Proof. induction k as [|k IH]; intros p q Hl; cbn [follows]; [done|]. intros (p' & Hp & Hq). exists p'. split; [by apply (link_later v)|by apply IH]. Qed.

Lemma resolve_follows k : forall left v p q, cached_ok f v -> follows v k p q ->
  exists v', later f v v' /\ resolve f (k + left) p v = resolve f left q v'.
Proof.
  induction k as [|k IH]; intros left v p q Hc Hf; cbn [follows] in Hf; [subst; exists v; split; [by apply later_refl|done]|]. destruct Hf as (p' & (m & rec & t & Hm & Ht & Ep) & Hq).
  destruct (path_found_ok v p m rec Hc Hm) as (v1 & E1 & Hl1 & _). pose proof Hl1 as [_ Hc1]. destruct (IH left v1 p' q Hc1 (follows_later v v1 k p' q Hl1 Hq)) as (v2 & Hl2 & E2).
  exists v2. split; [by apply (later_trans f v v1)|]. rewrite <-E2. cbn [Nat.add resolve]. rewrite (vol_ok _ _ v v1 (m, rec) E1). rewrite (vol_ok _ _ v1 v1 (Some t)) by (destruct Hl1 as [(c & _ & ->) _]; by apply link_target_cache). by rewrite <-Ep.
Qed.

(** At most 40 links leave one more call, for the path they end with. *)
Lemma resolve_at_most k v p q : (k <= 40)%nat -> cached_ok f v -> follows v k p q ->
  exists v' left, later f v v' /\ resolveSymlinks f p 0 v = resolve f (S left) q v'.
Proof.
  intros Hk Hc Hf. destruct (resolve_follows k (S (40 - k)) v p q Hc Hf) as (v' & Hl & E). exists v', (40 - k)%nat. split; [done|]. rewrite <-E.
  unfold resolveSymlinks. change (Z.to_nat (maxDepth + 1 - 0)) with 41%nat. f_equal. lia.
Qed.

Lemma resolve_found left v p m rec : cached_ok f v -> path_found v p m rec -> exists v', later f v v' /\
  resolve f (S left) p v = (target ← link_target f rec; match target with None => mret p | Some t => resolve f left (if IsAbs t then t else Join (Dir p) t) end) v'.
Proof.
  intros Hc Hf. destruct (path_found_ok v p m rec Hc Hf) as (v' & E & Hl & _). exists v'. split; [done|]. cbn [resolve]. by rewrite (vol_ok _ _ v v' (m, rec) E).
Qed.

(** The value of a reparse point is at least its tag. *)
Lemma link_target_short v rec a val : findAttr rec attrREPARSE_POINT [] = Ret (Some a) -> attrValue f v a = Ret val -> len val < 4 -> link_target f rec v = Panic IndexOutOfRange.
Proof.
  intros Ha Hv Hs. unfold link_target. rewrite (vol_ok _ _ v v (Some a)) by (by apply volume_read_ok). rewrite (vol_ok _ _ v v (inl val)) by (unfold attempt; by rewrite (volume_read_ok _ v val)).
  unfold u32_from, get_word. pose proof (len_nonneg val). rewrite slice_ok by lia. cbn [mbind go_bind vol_bind reading catch]. unfold mbind, vol_bind, reading, go_bind. rewrite sub_full, (proj2 (Z.ltb_lt _ _)) by done. done.
Qed.
End links.

(** C23. A path is looked up element by element from the root directory, ignoring case, after
    "." and ".." have been resolved in the text of the path: where the listings lead to a
    record the call returns its number and its bytes as they are on the device, and where a
    directory does not list the next name the call says that it does not exist. Either way
    the cache keeps what it had, every record on the way - the directories that are read and
    the record found - is in it afterwards, and all that is in it is as on the device. *)
Theorem ntfs_lookup `{UnicodeTables} f v p : cached_ok f v ->
  (forall m rec, leads f v recRoot (elements p) m -> readRawRecord f v m = Ret rec ->
     exists v', lookupPath f p v = Ret (v', inl (m, rec)) /\ later f v v' /\ kept f v v' recRoot (elements p) /\ mftCache v' !! m = Some rec) /\
  (forall parts x rest k es, elements p = parts ++ x :: rest -> leads f v recRoot parts k -> lists f v k es -> first_named x es = None ->
     exists v', lookupPath f p v = Ret (v', inr (Wrapf "%s: %w" (Wrapf "%w" ErrNotExist))) /\ later f v v' /\ kept f v v' recRoot (elements p)).
Proof.
  intros Hc. split.
  - intros m rec Hl Hr. destruct (path_found_ok f v p m rec Hc (conj Hl Hr)) as (v' & E & Hl' & Hk). exists v'. split; [done|]. split; [done|]. split; [done|].
    destruct (Hk (elements p) [] m) as [rec' Hm]; [by rewrite app_nil_r|done|]. rewrite Hm. pose proof Hl' as [_ Hc']. apply Hc' in Hm. rewrite (raw_later f v v') in Hm by done. congruence.
  - intros parts x rest k es E Hl Hd Hx. apply (not_listed_ok f v p Hc). by exists parts, x, rest, k, es.
Qed.

(** C31. Symbolic links are followed as long as the path is one, relative targets from the
    directory of the link. Where every path on the way can be looked up: after at most 40
    links the call returns the path that is not a link, and with a 41st it stops with an
    error, also on links that form a cycle. Where the path that at most 40 links lead to has
    a name that its directory does not list, the call returns that error; where it leads to
    a reparse point whose value is shorter than its tag of four bytes, the call panics. *)
Theorem ntfs_symlinks `{UnicodeTables} f v p : cached_ok f v ->
  (forall k q m rec, (k <= 40)%nat -> follows f v k p q -> path_found f v q m rec -> link_target f rec v = Ret (v, inl None) ->
     exists v', resolveSymlinks f p 0 v = Ret (v', inl q) /\ later f v v') /\
  (forall q, follows f v 41 p q -> exists v', resolveSymlinks f p 0 v = Ret (v', inr (Errorf "too many levels of symbolic links")) /\ later f v v') /\
  (forall k q, (k <= 40)%nat -> follows f v k p q -> not_listed f v q ->
     exists v', resolveSymlinks f p 0 v = Ret (v', inr (Wrapf "%s: %w" (Wrapf "%w" ErrNotExist))) /\ later f v v') /\
  (forall k q m rec a val, (k <= 40)%nat -> follows f v k p q -> path_found f v q m rec ->
     findAttr rec attrREPARSE_POINT [] = Ret (Some a) -> attrValue f v a = Ret val -> len val < 4 -> resolveSymlinks f p 0 v = Panic IndexOutOfRange).
Proof.
  intros Hc. split; [|split; [|split]].
  - intros k q m rec Hk Hf Hq Ht. destruct (resolve_at_most f k v p q Hk Hc Hf) as (v1 & left & Hl1 & ->). pose proof Hl1 as [_ Hc1].
    destruct (resolve_found f left v1 q m rec Hc1 (path_found_later f v v1 q m rec Hl1 Hq)) as (v2 & Hl2 & ->). exists v2. split; [|by apply (later_trans f v v1)].
    pose proof (later_trans f v v1 v2 Hl1 Hl2) as [(c & _ & ->) _]. by rewrite (vol_ok _ _ _ _ None (link_target_cache f v c rec _ Ht)).
  - intros q Hf. destruct (resolve_follows f 41 0 v p q Hc Hf) as (v1 & Hl1 & E1). exists v1. split; [exact E1|done].
  - intros k q Hk Hf Hq. destruct (resolve_at_most f k v p q Hk Hc Hf) as (v1 & left & Hl1 & ->). pose proof Hl1 as [_ Hc1].
    destruct (not_listed_ok f v1 q Hc1 (not_listed_later f v v1 q Hl1 Hq)) as (v2 & E2 & Hl2 & _). exists v2. split; [|by apply (later_trans f v v1)]. cbn [resolve]. by rewrite (vol_fail _ _ v1 v2 _ E2).
  - intros k q m rec a val Hk Hf Hq Ha Hv Hs. destruct (resolve_at_most f k v p q Hk Hc Hf) as (v1 & left & Hl1 & ->). pose proof Hl1 as [_ Hc1].
    destruct (resolve_found f left v1 q m rec Hc1 (path_found_later f v v1 q m rec Hl1 Hq)) as (v2 & Hl2 & ->). pose proof (later_trans f v v1 v2 Hl1 Hl2) as [(c & _ & ->) _].
    unfold mbind, vol_bind. rewrite (link_target_short f _ rec a val) by (rewrite ?attrValue_cache; done). done.
Qed.

Lemma wrapped_ok {A} w (m : vol A) v v' a : m v = Ret (v', inl a) -> wrapped w m v = Ret (v', inl a).
Proof. intros E. unfold wrapped. by rewrite E. Qed.

(** Listing and reading by path: a directory is listed with the entries of its record
    and is not read as a file; a file is read as the value of its data attribute, or as no
    bytes when it has none, and is not listed. *)
Theorem ntfs_path_reads `{UnicodeTables} f v p m rec flags : cached_ok f v -> path_found f v p m rec -> u16_from rec 0x16 = Ret flags ->
  (has flags mftFlagDir = true ->
     (forall es, readDirEntries f v rec = Ret es -> exists v', ReadDir f p v = Ret (v', inl es) /\ later f v v') /\
     exists v', ReadFile f p v = Ret (v', inr (Wrapf "readfile %s: %w" (Errorf "is a directory"))) /\ later f v v') /\
  (has flags mftFlagDir = false ->
     (exists v', ReadDir f p v = Ret (v', inr (Wrapf "readdir %s: %w" (Errorf "not a directory"))) /\ later f v v') /\
     (forall a data, findAttr rec attrDATA [] = Ret (Some a) -> attrValue f v a = Ret data -> exists v', ReadFile f p v = Ret (v', inl data) /\ later f v v') /\
     (findAttr rec attrDATA [] = Ret None -> exists v', ReadFile f p v = Ret (v', inl []) /\ later f v v')).
Proof.
  intros Hc Hf Hfl. destruct (path_found_ok f v p m rec Hc Hf) as (v1 & E1 & Hl1 & _). pose proof Hl1 as [(c & _ & Ev) Hc1]. unfold ReadDir, ReadFile. split; intros Hd.
  - split.
    + intros es Hes. destruct (path_found_ok f v1 p m rec Hc1 (path_found_later f v v1 p m rec Hl1 Hf)) as (v2 & E2 & Hl2 & _). exists v2. split; [|by apply (later_trans f v v1)].
      rewrite (vol_ok _ _ v v1 (m, rec)) by (by apply wrapped_ok). rewrite (vol_ok _ _ v1 v1 flags) by (by apply volume_read_ok). rewrite Hd. cbn [negb].
      rewrite (vol_ok _ _ v1 v2 (inl (m, rec))) by (unfold attempt; by rewrite E2). apply volume_read_ok. pose proof (later_trans f v v1 v2 Hl1 Hl2) as [(c2 & _ & ->) _]. by rewrite readDirEntries_cache.
    + exists v1. split; [|done]. rewrite (vol_ok _ _ v v1 (m, rec)) by (by apply wrapped_ok). rewrite (vol_ok _ _ v1 v1 flags) by (by apply volume_read_ok). by rewrite Hd.
  - split; [|split].
    + exists v1. split; [|done]. rewrite (vol_ok _ _ v v1 (m, rec)) by (by apply wrapped_ok). rewrite (vol_ok _ _ v1 v1 flags) by (by apply volume_read_ok). by rewrite Hd.
    + intros a data Ha Hv. exists v1. split; [|done]. rewrite (vol_ok _ _ v v1 (m, rec)) by (by apply wrapped_ok). rewrite (vol_ok _ _ v1 v1 flags) by (by apply volume_read_ok). rewrite Hd.
      rewrite (vol_ok _ _ v1 v1 (Some a)) by (by apply volume_read_ok). apply volume_read_ok. subst v1. by rewrite attrValue_cache.
    + intros Ha. exists v1. split; [|done]. rewrite (vol_ok _ _ v v1 (m, rec)) by (by apply wrapped_ok). rewrite (vol_ok _ _ v1 v1 flags) by (by apply volume_read_ok). rewrite Hd. by rewrite (vol_ok _ _ v1 v1 None) by (by apply volume_read_ok).
Qed.

(** ** Reparse points *)

Section reparse.
Context (tag : Z) (rs : list Z).
Hypothesis (Hrs : Forall scalar rs) (Hlen : 2 * len (Encode rs) < 65536) (Htag : tag = reparseSymlink \/ tag = reparseJunction).
Let n := 2 * len (Encode rs).
Let path := Encode rs ≫= put_le 2.

Definition reparse_layers : list Z :=
  patch (patch (patch (patch (patch (patch (patch (patch (patch (replicate (Z.to_nat (20 + 2 * n)) 0) 0 (put_le 4 tag)) 4 (put_le 2 (12 + n * 2))) 8 (put_le 2 0)) 10 (put_le 2 n)) 12 (put_le 2 n)) 14 (put_le 2 n))
    16 (put_le 4 1)) 20 path) (20 + n) path.

Lemma path_len : len path = n /\ 0 <= n.
Proof using. unfold path, n. rewrite len_units. pose proof (len_nonneg (Encode rs)). lia. Qed.

#[local] Ltac reparse_named :=
  repeat match goal with |- context [patch ?b ?o ?x] => is_var b;
    let P := fresh "P" in let E := fresh "E" in let Hl := fresh "Hl" in
    remember (patch b o x) as P eqn:E; assert (len P = 20 + 2 * n) as Hl by (rewrite E, patch_len; rewrite ?len_put_le; lia) end.
#[local] Ltac reparse_peel :=
  repeat match goal with E : ?P = patch ?b ?o ?x |- context [?P.[?lo, ?hi]] =>
    rewrite E; first [rewrite sub_patch_at by (rewrite ?len_put_le; lia) | rewrite sub_patch_other by (rewrite ?len_put_le; lia)] end.

Lemma reparse_slices : len reparse_layers = 20 + 2 * n /\ reparse_layers.[0, 4] = put_le 4 tag /\ reparse_layers.[8, 10] = put_le 2 0 /\ reparse_layers.[10, 12] = put_le 2 n /\
  reparse_layers.[12, 14] = put_le 2 n /\ reparse_layers.[14, 16] = put_le 2 n /\ reparse_layers.[20 + n, 20 + 2 * n] = path.
Proof using Hlen.
  destruct path_len as [Hp Hn]. unfold reparse_layers. remember (replicate _ 0) as A eqn:EA. assert (len A = 20 + 2 * n) as HA by (rewrite EA, len_replicate; lia). clear EA.
  reparse_named. repeat split; try done; reparse_peel; done.
Qed.

Lemma buildReparsePoint_ok : buildReparsePoint tag (string_of_runes rs) = Ret reparse_layers.
Proof using Hrs Hlen.
  destruct path_len as [Hp Hn]. unfold buildReparsePoint, reparse_layers, put_u16, put_u32. rewrite runes_string by done. cbv zeta.
  assert (put_units (replicate (length (Encode rs) * 2) 0) 0 (Encode rs) = Ret path) as -> by (apply (put_units_zeros (Encode rs) []); lia). cbn [mbind go_bind]. rewrite !Hp. replace (8 + (12 + n * 2)) with (20 + 2 * n) by lia. change (8 + 0) with 8. change (8 + 2) with 10. change (8 + 4) with 12. change (8 + 6) with 14. change (8 + 8) with 16. change (8 + 12) with 20.
  remember (replicate _ 0) as A eqn:EA. assert (len A = 20 + 2 * n) as HA by (rewrite EA, len_replicate; lia). clear EA.
  repeat match goal with
  | Hb : len ?b = 20 + 2 * n |- context [put_word ?b ?o (len ?b) ?x] => let H1 := fresh in let H2 := fresh in destruct (put_ok (20 + 2 * n) b x o Hb ltac:(lia) ltac:(rewrite ?len_put_le; lia)) as (H1 & _ & H2); rewrite H1; clear H1; cbn [mbind go_bind]; revert H2; generalize (patch b o x); intros ? ?
  | Hb : len ?b = 20 + 2 * n |- context [copy_from ?b 20 ?x] => let H1 := fresh in let H2 := fresh in destruct (put_ok (20 + 2 * n) b x 20 Hb ltac:(lia) ltac:(lia)) as (_ & H1 & H2); rewrite H1; clear H1; cbn [mbind go_bind]; revert H2; generalize (patch b 20 x); intros ? ?
  end.
  apply (put_ok (20 + 2 * n)); lia.
Qed.

Lemma parse_built : parseReparseTarget reparse_layers = Ret (TrimPrefix (backslash_to_slash (string_of_runes rs)) (lit "/??/")).
Proof using Hrs Hlen Htag.
  destruct path_len as [Hp Hn]. destruct reparse_slices as (Hl & E0 & E8 & E10 & E12 & E14 & Ep). set (R := reparse_layers) in *. unfold parseReparseTarget. rewrite (proj2 (Z.ltb_ge _ _)), u32_ok by lia. cbn [mbind go_bind]. change (0 + 4) with 4.
  rewrite E0, LE_put_le. assert (negb (tag mod 256 ^ Z.of_nat 4 =? reparseSymlink) && negb (tag mod 256 ^ Z.of_nat 4 =? reparseJunction) = false) as -> by (by destruct Htag as [-> | ->]).
  rewrite slice_ok by lia. cbn [mbind go_bind]. assert (len R.[8, len R] = 12 + 2 * n) as Hd by (rewrite len_sub by lia; lia). rewrite (proj2 (Z.ltb_ge _ _)), !u16_ok by lia. cbn [mbind go_bind].
  change (0 + 2) with 2. change (2 + 2) with 4. change (4 + 2) with 6. change (6 + 2) with 8. rewrite !sub_of_sub by lia. change (8 + 0) with 8. change (8 + 2) with 10. change (8 + 4) with 12. change (8 + 6) with 14. change (8 + 8) with 16.
  rewrite E12, E14, !LE_put_le. change (256 ^ Z.of_nat 2) with 65536. rewrite (Z.mod_small n) by lia. rewrite slice_ok by lia. cbn [mbind go_bind]. rewrite !sub_of_sub by lia. replace (8 + len R.[8, len R]) with (20 + 2 * n) by lia. change (8 + 12) with 20.
  assert (len R.[20, 20 + 2 * n] = 2 * n) as Hb by (rewrite len_sub by lia; lia). rewrite (proj2 (Z.leb_le _ _)), slice_ok by lia. cbn [mbind go_bind]. rewrite sub_of_sub by lia. replace (20 + (n + n)) with (20 + 2 * n) by lia. rewrite Ep, Hp.
  assert (n ÷ 2 = len (Encode rs)) as -> by (unfold n; rewrite Z.quot_div_nonneg by lia; rewrite Z.mul_comm; apply Z.div_mul; lia). unfold utf16_string. rewrite units_from_ok by lia. cbn [mbind go_bind mret go_ret].
  unfold path, from. cbn [Z.to_nat drop]. replace (Z.to_nat (len (Encode rs))) with (length (Encode rs)) by (unfold len; lia). by rewrite words_units, Decode_Encode by auto using Encode_range.
Qed.
End reparse.

(** The target of a symbolic link or junction that is written with [buildReparsePoint]
    is read back with its backslashes as slashes and without the prefix of the Win32 name
    space, so a target without backslashes that does not start with that prefix is read back
    as it was. *)
Theorem ntfs_reparse_roundtrip tag rs : Forall scalar rs -> 2 * len (Encode rs) < 65536 -> tag = reparseSymlink \/ tag = reparseJunction ->
  exists val, buildReparsePoint tag (string_of_runes rs) = Ret val /\
    parseReparseTarget val = Ret (TrimPrefix (backslash_to_slash (string_of_runes rs)) (lit "/??/")) /\
    (92 ∉ string_of_runes rs -> cut_prefix (lit "/??/") (string_of_runes rs) = None -> parseReparseTarget val = Ret (string_of_runes rs)).
Proof.
  intros Hrs Hlen Htag. exists (reparse_layers tag rs). split; [by apply buildReparsePoint_ok|]. rewrite parse_built by done. split; [done|]. intros Hb Hp.
  assert (backslash_to_slash (string_of_runes rs) = string_of_runes rs) as ->; [|unfold TrimPrefix; by rewrite Hp].
  unfold backslash_to_slash. clear -Hb. induction (string_of_runes rs) as [|c s IH]; [done|]. rewrite elem_of_cons in Hb. cbn [fmap list_fmap]. destruct (Z.eqb_spec c 92); [naive_solver|]. f_equal. apply IH. tauto.
Qed.

Lemma ntfs_reparse_roundtrip_witness : exists val, buildReparsePoint reparseSymlink (lit "a/bc") = Ret val /\ parseReparseTarget val = Ret (lit "a/bc").
Proof.
  destruct (ntfs_reparse_roundtrip reparseSymlink [97; 47; 98; 99]) as (val & E & _ & Hp).
  - repeat (constructor; [unfold scalar; lia|]). constructor.
  - by vm_compute.
  - by left.
  - exists val. split; [exact E|]. apply Hp; [by apply (bool_decide_unpack _); vm_compute|by vm_compute].
Defined.

(** ** A small volume *)

(** A root directory with the names A and B, a link A to B, and a file B. *)
Definition or_nil {A} (m : go (list A)) : list A := match m with Ret l => l | _ => [] end.
Definition sample_record_of (flags t : Z) (value : list Z) : list Z :=
  or_nil (appendResidentAttr (lit "FILE" ++ replicate 16 0 ++ put_le 2 0x38 ++ put_le 2 flags ++ replicate 32 0 ++ end_mark ++ replicate 452 0) t value).
Definition sample_index : list Z :=
  or_nil (h ← insertIndexEntry empty_index (entry_layers zero_time [65] 5 0x20 6); insertIndexEntry h (entry_layers zero_time [66] 5 0x20 7)).
Definition sample_root : list Z := sample_record_of 3 attrINDEX_ROOT (replicate 16 0 ++ sample_index).
Definition sample_link : list Z := sample_record_of 1 attrREPARSE_POINT (or_nil (buildReparsePoint reparseSymlink (lit "B"))).
Definition sample_file : list Z := sample_record_of 1 attrDATA [1; 2; 3].
Definition small_disk : list Z := replicate 2560 0 ++ sample_root ++ sample_link ++ sample_file.
Definition small_volume : ntfsVolume := mkVolume 0 4096 512 512 512 0 8 ∅ [] [] false.
Definition listed (c n : Z) : ntfsDirEntry := new_dirent zero_time [c] n 0x20.

Lemma small_records : readRawRecord (file_reader small_disk) small_volume 5 = Ret sample_root /\ readRawRecord (file_reader small_disk) small_volume 6 = Ret sample_link /\
  readRawRecord (file_reader small_disk) small_volume 7 = Ret sample_file.
Proof. repeat split; vm_compute; reflexivity. Qed.

Lemma small_listing : lists (file_reader small_disk) small_volume 5 [listed 65 6; listed 66 7].
Proof. exists sample_root. split; [apply small_records|]. vm_compute. reflexivity. Qed.

Lemma small_cached : cached_ok (file_reader small_disk) small_volume.
Proof. intros n rec Hn. discriminate Hn. Qed.

Lemma small_leads : @leads ascii_tables (file_reader small_disk) small_volume recRoot (elements (lit "/./b")) 7.
Proof. exists [listed 65 6; listed 66 7], 7. split; [apply small_listing|]. split; [by vm_compute|done]. Qed.

Lemma ntfs_lookup_witness : exists v v', @lookupPath ascii_tables (file_reader small_disk) (lit "/./b") small_volume = Ret (v, inl (7, sample_file)) /\ mftCache v !! 7 = Some sample_file /\ is_Some (mftCache v !! 5) /\ cached_ok (file_reader small_disk) v /\
  @lookupPath ascii_tables (file_reader small_disk) (lit "c/b") small_volume = Ret (v', inr (Wrapf "%s: %w" (Wrapf "%w" ErrNotExist))).
Proof.
  destruct (@ntfs_lookup ascii_tables (file_reader small_disk) small_volume (lit "/./b") small_cached) as [Hok _]. destruct (@ntfs_lookup ascii_tables (file_reader small_disk) small_volume (lit "c/b") small_cached) as [_ Hno].
  destruct (Hok 7 sample_file small_leads) as (v & E & [_ Hv] & Hk & Hm); [apply small_records|]. destruct (Hno [] (lit "c") [lit "b"] 5 [listed 65 6; listed 66 7]) as (v' & E' & _); [by vm_compute|done|apply small_listing|by vm_compute|].
  exists v, v'. split; [exact E|]. split; [exact Hm|]. split; [by apply (Hk [] (elements (lit "/./b")) 5)|]. split; [exact Hv|exact E'].
Defined.

Lemma small_follows : @follows ascii_tables (file_reader small_disk) small_volume 1 (lit "/A") (lit "/B").
Proof.
  exists (lit "/B"). split; [|done]. exists 6, sample_link, (lit "B"). split; [split|].
  - exists [listed 65 6; listed 66 7], 6. split; [apply small_listing|]. split; [by vm_compute|done].
  - apply small_records.
  - split; vm_compute; reflexivity.
Qed.

Lemma ntfs_symlinks_witness : exists v' v'', @resolveSymlinks ascii_tables (file_reader small_disk) (lit "/A") 0 small_volume = Ret (v', inl (lit "/B")) /\ cached_ok (file_reader small_disk) v' /\
  @resolveSymlinks ascii_tables (file_reader small_disk) (lit "/C") 0 small_volume = Ret (v'', inr (Wrapf "%s: %w" (Wrapf "%w" ErrNotExist))).
Proof.
  destruct (@ntfs_symlinks ascii_tables (file_reader small_disk) small_volume (lit "/A") small_cached) as [Hok _].
  destruct (@ntfs_symlinks ascii_tables (file_reader small_disk) small_volume (lit "/C") small_cached) as (_ & _ & Hno & _).
  destruct (Hok 1%nat (lit "/B") 7 sample_file) as (v' & E & [_ Hc]).
  - lia.
  - apply small_follows.
  - split; [|apply small_records]. exists [listed 65 6; listed 66 7], 7. split; [apply small_listing|]. split; [by vm_compute|done].
  - vm_compute. reflexivity.
  - destruct (Hno 0%nat (lit "/C")) as (v'' & E' & _); [lia|done|exists [], (lit "C"), [], 5, [listed 65 6; listed 66 7]; split; [by vm_compute|]; split; [done|]; split; [apply small_listing|by vm_compute]|].
    exists v', v''. split; [exact E|]. split; [exact Hc|exact E'].
Defined.

(** A reparse point of two bytes: the tag is read past its end. *)
Definition short_link_disk : list Z := replicate 2560 0 ++ sample_root ++ sample_record_of 1 attrREPARSE_POINT [1; 2] ++ sample_file.
Example short_link_panics : @resolveSymlinks ascii_tables (file_reader short_link_disk) (lit "/A") 0 small_volume = Panic IndexOutOfRange.
Proof. vm_compute. reflexivity. Qed.

Lemma ntfs_path_reads_witness : exists v v', @ReadFile ascii_tables (file_reader small_disk) (lit "/./b") small_volume = Ret (v, inl [1; 2; 3]) /\
  @ReadDir ascii_tables (file_reader small_disk) (lit "/") small_volume = Ret (v', inl [listed 65 6; listed 66 7]).
Proof.
  destruct (@ntfs_path_reads ascii_tables (file_reader small_disk) small_volume (lit "/./b") 7 sample_file 1 small_cached) as [_ Hfile].
  - split; [apply small_leads|apply small_records].
  - vm_compute. reflexivity.
  - destruct (@ntfs_path_reads ascii_tables (file_reader small_disk) small_volume (lit "/") 5 sample_root 3 small_cached) as [Hdir _].
    + split; [by vm_compute|apply small_records].
    + vm_compute. reflexivity.
    + destruct (Hfile eq_refl) as (_ & Hread & _). destruct (Hdir eq_refl) as (Hlist & _). 
      destruct (Hread (put_le 4 attrDATA ++ put_le 4 32 ++ replicate 8 0 ++ put_le 4 3 ++ put_le 4 24 ++ [1; 2; 3; 0; 0; 0; 0; 0]) [1; 2; 3]) as (v & E & _); [vm_compute; reflexivity|vm_compute; reflexivity|].
      destruct (Hlist [listed 65 6; listed 66 7]) as (v' & E' & _); [vm_compute; reflexivity|]. exists v, v'. split; [exact E|exact E'].
Defined.

(** One index block is read for every cluster: where a cluster holds two blocks, the second
    one is left out of the listing. *)
Definition stamped_block (vcn c : Z) : list Z := or_nil (buildINDXBlock vcn (sample_entry c) 512).
Example second_block_missed :
  (map (i_name ∘ de_info)) <$> walkIndexAlloc (file_reader (stamped_block 0 65 ++ stamped_block 1 66)) (mkVolume 0 1024 1024 512 512 0 1 ∅ [] [] false) [mkRun 0 1] 1024 [] = Ret [[65]].
Proof. vm_compute. reflexivity. Qed.
